(* ===== verification/_CoqProject ===== *)
-Q . S2P
Prelude.v
GoStrings.v
GuestIdentity.v
Auth.v
Net.v
Db.v
Json.v
Demo.v
Triggers.v
TriggerLemmas.v
StoreAccess.v
StoreLease.v
StoreAgent.v
StoreLeaseProofs.v
StoreAccessProofs.v
StoreSession.v
StoreConn.v
StoreNative.v
StoreGateway.v
StoreNativeProofs.v
StoreConnProofs.v
StoreAgentProofs.v
StoreGatewayProofs.v
GatewayRelay.v
GatewayRelayProofs.v
GatewayTls.v
GatewayControl.v
GatewayControlProofs.v
GatewayTransport.v
GatewayTransportProofs.v
Computer.v
Rdp.v
Guest.v
GuestAccount.v
GuestSession.v
ComputerWire.v
GuestTransport.v
GuestWindows.v
GuestSessionProofs.v
GuestTransportProofs.v
GuestWindowsProofs.v
GuestConfirmed.v
StoreAudit.v
StoreJobs.v
StoreJobsProofs.v
StoreAuditProofs.v
StoreCatalog.v
Pve.v
Controller.v
ControllerScripts.v
PveClient.v
PveProofs.v
ControllerNative.v
ControllerAgent.v
ControllerRules.v
ControllerFacts.v
ControllerLogic.v
ControllerNativeProofs.v
ControllerAgentProofs.v
ControllerMaintenance.v
ControllerHttp.v
ControllerHttpProofs.v
ControllerConnect.v
ControllerConnectProofs.v
ControllerRecovery.v
ControllerClone.v
ControllerJobs.v
ControllerJobsProofs.v
ControllerJobsClaims.v
ControllerLogin.v
ControllerAdmin.v
ControllerIdentity.v
ImageBuilder.v
ControllerImages.v
ControllerWeb.v
ControllerWebProofs.v
ControllerRoutes.v
ControllerRouter.v
AgentApi.v
Configuration.v
