(* ===== verification/Prelude.v ===== *)
(** * VC Workspace: a verification library of the control plane

    VC Workspace hands virtual desktops of a Proxmox cluster to people and to
    AI agents.  One Go service (src/internal) keeps every fact about users,
    desktops, agents, sessions and guests in PostgreSQL; native clients reach
    a desktop through a gateway that relays bytes to a pinned private address;
    agents act on a desktop through commands inside its Guest.  This library
    translates that code into executable Rocq definitions and proves what the
    pieces promise each other.

    ** How the parts interact

    A person or an agent gets access from rows of the store (assignments,
    groups, leases).  Whatever shrinks access closes, in the same transaction,
    the bindings, connections and leases that lost their grant, and queues the
    work that a Guest still has to do.  A connection is named by a gateway
    ticket; the gateway redeems it over an mTLS control channel, dials the
    target, and renews the grant while it copies bytes.  Guest programs carry
    out the queued work - opening, retiring and revoking OS accounts - with one
    fenced write each, whose receipt goes back to the store.

    ** Files and sources (paths under src/internal unless said otherwise)

    Foundations
    - Prelude: records, relational operators over lists of rows, the
      transaction monad [tx] (state, result, rollback on error) and its rules.
    - GoStrings: strings, strconv, encoding/hex, encoding/base64, UTF-8.
    - Json: encoding/json - reader, printer, field decoding - and the round
      trip of values.
    - Net: net/netip and the allowlist of gateway/relay.go.

    The store (store/*.go and store/migrations/*.sql)
    - Db: the tables as lists of rows in one record [DB], the access view.
    - Triggers, TriggerLemmas: the guarded statements - every write of a table
      with triggers, checks or unique indexes goes through one of them.
    - StoreAccess(Proofs): users, desktops, assignments, groups, and
      commitAccessChange.  StoreSession: browser, native and API
      sessions, OIDC requests, one-time codes.  StoreConn(Proofs): desktop
      connections and the revocation queue.  StoreLease(Proofs): agent leases,
      control epochs.  StoreAgent(Proofs): OS sessions of agents.
      StoreNative(Proofs): credentials of people.  StoreGateway(Proofs):
      tickets and grants.  StoreAudit(Proofs): the audit log and access
      policies.  StoreJobs(Proofs): jobs and clone reservations.  StoreCatalog: catalogues and listings.
      Demo: the small deployment on which witnesses are evaluated.
    An operation is a [tx DB A]: its statements in the order of the code, [now]
    being the transaction's now().  Concurrent transactions are serialised: the
    code takes row locks or advisory locks where it needs more than that, and
    a theorem about later states quantifies over every trace of statements.

    The gateway (gateway/*.go)
    - GatewayRelay(Proofs): relay.go - [serve] as a function of its
      environment's script.  GatewayTls: tls.go and tls_reload.go.
      GatewayControl(Proofs): control.go and control_client.go, and the store
      as the authority behind the channel.  GatewayTransport(Proofs):
      transport.go, runtime.go, broker.go, the reloading transport.  The interface between relay, channel and store is the class
      [AuthorityLaws]: the relay's theorems use only the laws, the store
      satisfies them, the channel preserves them.

    The Guest side (computer/*.go, rdpsession/session.go, pve/guest_json.go)
    - Auth, GuestIdentity: auth/password.go, guestidentity/session.go.
    - Computer: protocol.go.  Rdp: rdpsession/session.go and
      the decoder of src/apps/session-worker/protocol.c.
    - Guest: programs over the Guest channel as trees of questions ([prog]),
      their runs against an environment, and weakest preconditions.
      GuestAccount, ComputerWire: wire forms.  GuestSession: the programs of
      session.go, linux_account.go, native_account.go, agent_session.go.
      GuestTransport: executor.go and the actions of session.go.
      GuestWindows: windows_executor.go, windows_account.go and the Windows
      half of account_lease.go.  GuestSessionProofs, GuestTransportProofs,
      GuestWindowsProofs: what they guarantee.  GuestConfirmed: the claims,
      and the wait for the end of a login (httpapi/agent_guest_session.go).

    The PVE API (pve/*.go)
    - Pve: its data, the checks of what is sent and told, the texts of
      properties, tags and device paths, and the requests for clones.  PveClient: every call of the client
      as a program over HTTP exchanges, the clock, the ticker and the shared
      login ticket, run against an environment that may answer anything.
      PveProofs: what the client guarantees.

    The control plane (httpapi/*.go, guestdesktop/*.go)
    - Controller: a task or handler is a tree [ctl] of what it asks for - store
      transactions, Guest programs, PVE calls, the lock of a desktop, clock,
      random bytes, the context - and [run_ctl] runs it against a [world],
      which answers: any database at every transaction (other replicas work in
      between), commits whose answer is lost, Guests that answer anything,
      locks that are refused.  The history of a run lists what happened, newest
      first, and [cwp] is its weakest precondition.
    - ControllerScripts: the scripts that are sent to Guests.
      ControllerNative: native_guest_account.go, guest_session_revocation.go and
      the connections of server.go.  ControllerAgent: agent_guest_session.go,
      computer_revocation.go and the access policies of server.go.
      ControllerMaintenance: RunBackgroundMaintenance, as any number of rounds.
    - ControllerHttp: the handlers of agents.  ControllerConnect: opening a
      desktop for a person.  ControllerRecovery: native_recovery.go and the
      small handlers of people.  A reply other than success is its status and
      code; message texts and log lines are left out.
    - ControllerClone: idempotency.go, image_clone.go, power
      changes and the creation of clones in server.go.  ControllerJobs:
      following and settling tasks in server.go, clone_inspection.go,
      clone_network.go, clone_candidates.go, clone_recovery.go and
      pve_job_maintenance.go.  A [go] statement starts a task of its own.
    - ControllerRules: the executable rules [permitted] of a history - what may
      be asked of whom after what, under which lock.  ControllerFacts: what an
      answer of the store says.  ControllerLogic: [safe] and [between], the
      logic in which tasks are shown to follow the rules.  The files named
      ...Proofs and ControllerJobsClaims hold the theorems; those of
      maintenance and recovery are in their own files.
    - ControllerLogin: the first administrator, passwords, single sign-on
      (oidcauth/service.go), one-time codes and the guards of the other
      handlers.  ControllerAdmin: users, agents, assignments, groups, policies
      and listings.  ControllerIdentity: identity profiles and the plan of
      Guest commands that each gives.  ImageBuilder: imagebuilder/*.go.
      ControllerImages: images, their builds, GPUs and device mappings.
    - ControllerWeb: the routes of the browser and the rule they follow - every
      question to the store, PVE or a Guest has a need ([event_need]), from
      none to a change of the platform.  ControllerWebProofs, ControllerRoutes:
      they follow it.  ControllerRouter: every route of server.go with its
      guard, the matching of patterns as ServeMux does it, and the decoding of
      bodies.
    - AgentApi: the agents' client (agentapi/client.go) and the MCP server
      (src/apps/mcp): tools, screenshots, the guards of /mcp.  The MCP library
      is an arbitrary tool call.
    - Configuration: config/config.go and the settings of a gateway.

    ** What the theorems show

    - Access: a change of authority closes every connection, binding and lease
      that lost its grant, and queues what the Guest still has to do for each;
      disabling a user or resetting a password closes every door; one-time
      secrets are used once.
    - Fencing: lease epochs only grow, each of the statements that close leases
      queues their fence and takes the OS session along,
      credential revisions and login attempts cannot be replayed, native and
      agent accounts stay apart.
    - Gateway: a ticket is redeemed once, only with the whole chain of
      authority, and until it expires whenever that chain stands; the relay
      follows its protocol, dials only pinned private targets, and carries no
      byte later than five seconds after the authority is gone - through relay, control client, control service and store.
      Closing joins every tunnel, retired pools drain, CA loading ends.
    - Jobs, policies, audit: idempotent, well-formed jobs, exclusive clone
      targets, monotone policy revisions, redaction, complete pagination.
    - PVE: a command reaches a Guest once and its result is the reported end
      of that process; a device is configured only under the digest that was
      read and is recognised exactly by what was written.
    - Guest: at most one write per change, success only on the exact receipt
      and a later observation; one immutable request per action, dispatched only once it was
      published; every wait ends; frames and passwords are read back as they were written.
    - Control plane: maintenance and handlers touch a Guest only under the lock
      of its desktop, leave no lock behind, and report to the store only what
      the Guest showed since the lock was taken; a desktop opens for a person
      only after every agent lost it; an action returns only while its lease
      still holds; a failed issue withdraws its reservation or was refused or
      unanswered by the store; computer authority is revoked at the current
      epoch; the database takes
      over the state of a Guest only from a closed account.
    - Clones and power: every clone and power change that PVE is asked for has
      a job of its own; a clone is published, and its job ends well, only when
      its task ended well and the machine was recognised in the same section;
      a lost task is taken over only with evidence that it is the job's; the
      target of a reservation is open to nobody until the clone succeeds.
    - The API: no request without a credential gets past setup, login and the
      pages about the process; sessions are made only for users who proved who
      they are in that request; the platform is changed only for an
      administrator with the CSRF token - the settlement of a finished job by a
      look at it is the stated exception - and seen only by administrators but
      for the inventory and the own desktops.
    - Agents: a tool call reaches its handler unchanged, and MCP acts only as
      the authenticated agent.
    - Secrets: the plan of an identity profile is the same for every secret, and a
      build shows none of its secrets.  The mode linux_sssd_oidc can never be
      configured ([sssd_oidc_never_accepted]).

    ** Parameters and hypotheses

    Code outside the repository is a parameter: [Sha256], [Argon2],
    [Collation] and [SqlLower] of the database, [UnicodeLower] and
    [UnicodeFold], the text of a JSON decoding error, [X509] with PEM, [RdpX509], [UrlParser], random bytes, the embedded files
    (revoke_legacy_linux.py, session_layout.py, rdp_certificate.py, the
    background image), the texts of times and floats in JSON, the functions of
    path/filepath, the header of a JPEG, the literals of IPv6 addresses, the URL
    and the verifier of oauth2, and the verification of ID tokens (an answer of
    the environment).  Hypotheses
    about them are documented behaviour (the length of a digest, the
    certificate parser's totality).  The theorems about tasks assume of the
    databases they meet that a connection, a lease or a clone job keeps its
    desktop ([homed], [leased], [clones_homed]); [connection_lifecycle] and
    [homed_before] show it of the histories of connections and jobs.  Every
    theorem with a hypothesis has a witness with a concrete instance.

    ** Fuel and bounds

    The JSON reader, splitters and the CA loop run on the length of their
    input, which every step shortens.  The relay's loop runs on its script of
    wake-ups.  The poll of a new session needs 81 rounds for twenty seconds of
    250 ms waits; a retry with a budget runs one round per quarter of a second
    of it and two more; the wait for the
    end of a login needs 61 rounds for fifteen seconds of 250 ms waits;
    [guest_waits_end] proves that none of them runs out.  The poll of a Guest
    process and the loops of watchers and maintenance, which only their context
    ends, are taken for any number of rounds.  64-bit counters are
    integers with the guards the code has (math.MaxInt64 checks); counters
    that only grow by one per statement are otherwise unbounded.

    ** Not modelled

    - The driver of the database, its pool and migrations; created_at columns
      that no statement reads.
    - HTTP servers, TLS handshakes, the websocket library, the MCP library,
      process start and signal handling.
    - The Terraform provider: resource schemas of a plugin framework.
    - Rust crates, web and desktop applications: other languages. *)
From stdpp Require Import base strings list.
From Stdlib Require Import ZArith Lia Permutation Sorting.Sorted.

(** ** Record update

    [r <| f := v ; g := w |>] is the record [r] with the named fields
    replaced: the reading of an SQL [SET f=v,g=w] or of a Go field
    assignment.  An [Eta] instance lists the fields of a record once; the
    notation elaborates to the plain constructor application, so nothing has
    to be unfolded in a proof. *)
Class Eta (R : Type) := eta : R -> R.

Ltac abstract_fields body ups :=
  lazymatch ups with
  | tt => body
  | ((?f, ?v), ?rest) =>
      let p := eval pattern f in body in
      lazymatch p with
      | (fun _ => ?b) _ => fail "not a field of this record:" f
      | ?g _ => let h := abstract_fields g rest in constr:(h (fun _ => v))
      end
  end.

(** A record with many fields has a setter constant per field instead, so
    that a chain of updates stays as small as its source text. *)
Class Setter {R T : Type} (f : R -> T) := setter : T -> R -> R.

Ltac set_fields r ups :=
  lazymatch ups with
  | tt => r
  | ((?f, ?v), ?rest) =>
      let s := constr:(_ : Setter f) in
      let t := constr:(s v r) in set_fields t rest
  end.

Ltac has_setter ups :=
  lazymatch ups with ((?f, _), _) => let s := constr:(_ : Setter f) in idtac end.

Ltac rec_set r ups :=
  tryif has_setter ups then
    (let t := set_fields r ups in let t := eval cbv beta in t in exact t)
  else
    (let R := type of r in
     let e := constr:(_ : Eta R) in
     let body := eval hnf in e in
     let h := abstract_fields body ups in
     let t := eval cbv beta in (h r) in exact t).

Declare Scope vcw_scope.
Delimit Scope vcw_scope with vcw.

Notation "r <| f1 := v1 |>" :=
  (ltac:(rec_set r (pair (pair f1 v1) tt)))
  (at level 1, left associativity, f1 at level 9, v1 at level 200, only parsing) : vcw_scope.
Notation "r <| f1 := v1 ; f2 := v2 |>" :=
  (ltac:(rec_set r (pair (pair f1 v1) (pair (pair f2 v2) tt))))
  (at level 1, left associativity, f1 at level 9, v1 at level 200,
   f2 at level 9, v2 at level 200, only parsing) : vcw_scope.
Notation "r <| f1 := v1 ; f2 := v2 ; f3 := v3 |>" :=
  (ltac:(rec_set r (pair (pair f1 v1) (pair (pair f2 v2) (pair (pair f3 v3) tt)))))
  (at level 1, left associativity, f1 at level 9, v1 at level 200,
   f2 at level 9, v2 at level 200,
   f3 at level 9, v3 at level 200, only parsing) : vcw_scope.
Notation "r <| f1 := v1 ; f2 := v2 ; f3 := v3 ; f4 := v4 |>" :=
  (ltac:(rec_set r (pair (pair f1 v1) (pair (pair f2 v2) (pair (pair f3 v3) (pair (pair f4 v4) tt))))))
  (at level 1, left associativity, f1 at level 9, v1 at level 200,
   f2 at level 9, v2 at level 200,
   f3 at level 9, v3 at level 200,
   f4 at level 9, v4 at level 200, only parsing) : vcw_scope.
Notation "r <| f1 := v1 ; f2 := v2 ; f3 := v3 ; f4 := v4 ; f5 := v5 |>" :=
  (ltac:(rec_set r (pair (pair f1 v1) (pair (pair f2 v2) (pair (pair f3 v3) (pair (pair f4 v4) (pair (pair f5 v5) tt)))))))
  (at level 1, left associativity, f1 at level 9, v1 at level 200,
   f2 at level 9, v2 at level 200,
   f3 at level 9, v3 at level 200,
   f4 at level 9, v4 at level 200,
   f5 at level 9, v5 at level 200, only parsing) : vcw_scope.
Notation "r <| f1 := v1 ; f2 := v2 ; f3 := v3 ; f4 := v4 ; f5 := v5 ; f6 := v6 |>" :=
  (ltac:(rec_set r (pair (pair f1 v1) (pair (pair f2 v2) (pair (pair f3 v3) (pair (pair f4 v4) (pair (pair f5 v5) (pair (pair f6 v6) tt))))))))
  (at level 1, left associativity, f1 at level 9, v1 at level 200,
   f2 at level 9, v2 at level 200,
   f3 at level 9, v3 at level 200,
   f4 at level 9, v4 at level 200,
   f5 at level 9, v5 at level 200,
   f6 at level 9, v6 at level 200, only parsing) : vcw_scope.
Notation "r <| f1 := v1 ; f2 := v2 ; f3 := v3 ; f4 := v4 ; f5 := v5 ; f6 := v6 ; f7 := v7 |>" :=
  (ltac:(rec_set r (pair (pair f1 v1) (pair (pair f2 v2) (pair (pair f3 v3) (pair (pair f4 v4) (pair (pair f5 v5) (pair (pair f6 v6) (pair (pair f7 v7) tt)))))))))
  (at level 1, left associativity, f1 at level 9, v1 at level 200,
   f2 at level 9, v2 at level 200,
   f3 at level 9, v3 at level 200,
   f4 at level 9, v4 at level 200,
   f5 at level 9, v5 at level 200,
   f6 at level 9, v6 at level 200,
   f7 at level 9, v7 at level 200, only parsing) : vcw_scope.

#[export] Set Default Goal Selector "!".
#[global] Open Scope vcw_scope.
#[global] Open Scope Z_scope.

(** ** Errors

    The sentinel errors of [store.go] and of the gateway, the driver's
    [pgx.ErrNoRows] where it escapes, the anonymous
    [errors.New] values (their text is immaterial to every caller), and a
    PostgreSQL error carrying its SQLSTATE. *)
Inductive pgcode : Set :=
| UniqueViolation      (* 23505 *)
| ForeignKeyViolation  (* 23503 *)
| CheckViolation       (* 23514 *)
| NoDataFound          (* P0002: SELECT INTO STRICT *)
| RaisedException.     (* P0001 *)

Inductive error : Set :=
| ErrNotFound
| ErrAlreadyInitialized
| ErrAlreadyLeased
| ErrConflict
| ErrInvalid
| ErrNoRows
| ErrPg (c : pgcode).

#[export] Instance pgcode_eq_dec : EqDecision pgcode.
Proof. solve_decision. Defined.
#[export] Instance error_eq_dec : EqDecision error.
Proof. solve_decision. Defined.

(** ** Transactions

    A store operation is a function from the database to a result and the
    database that the statement or transaction leaves behind.  A failing body
    is rolled back: [run] hands the original database back with the error. *)
Definition result (A : Type) : Type := error + A.

Definition tx (S A : Type) : Type := S -> error + (A * S).

#[export] Instance tx_ret S : MRet (tx S) := fun A a s => inr (a, s).
#[export] Instance tx_bind S : MBind (tx S) := fun A B k m s =>
  match m s with inl e => inl e | inr (a, s') => k a s' end.
Definition tfail {S A} (e : error) : tx S A := fun _ => inl e.
Definition tget {S} : tx S S := fun s => inr (s, s).
Definition tmod {S} (f : S -> S) : tx S unit := fun s => inr (tt, f s).
Definition tgets {S A} (f : S -> A) : tx S A := fun s => inr (f s, s).

(** A Go guard: [if !ok { return e }]. *)
Definition ensure {S} (ok : bool) (e : error) : tx S unit :=
  if ok then mret tt else tfail e.

(** [err] translated on the way out, as [gatewayError] and the like do. *)
Definition tcatch {S A} (m : tx S A) (f : error -> error) : tx S A :=
  fun s => match m s with inl e => inl (f e) | inr r => inr r end.

(** The transaction boundary: [defer tx.Rollback] and [tx.Commit]. *)
Definition run {S A} (m : tx S A) (s : S) : result A * S :=
  match m s with inl e => (inl e, s) | inr (a, s') => (inr a, s') end.

(** A statement of its own implicit transaction inside a larger operation:
    its failure is returned as a value and does not undo earlier statements. *)
Definition attempt {S A} (m : tx S A) : tx S (result A) :=
  fun s => match m s with inl e => inr (inl e, s) | inr (a, s') => inr (inr a, s') end.

(** A row expected by [QueryRow]: [pgx.ErrNoRows] becomes [e]. *)
Definition trow {S A} (o : option A) (e : error) : tx S A :=
  match o with Some a => mret a | None => tfail e end.

(** Row-at-a-time execution of a statement whose rows fire triggers. *)
Fixpoint tfold {S A} (f : A -> tx S unit) (l : list A) : tx S unit :=
  match l with
  | [] => mret tt
  | a :: l' => f a;; tfold f l'
  end.

(** ** Boolean tests

    [x == y] is the decided equality used by every guard of the model. *)
Notation "x == y" := (bool_decide (x = y)) (at level 70, no associativity) : vcw_scope.
Notation "x != y" := (negb (bool_decide (x = y))) (at level 70, no associativity) : vcw_scope.

(** ** Tables

    A table is the list of its rows; the statements of the source are
    list functions over it. *)
Section tables.
Context {R : Type}.

(** [UPDATE t SET ... WHERE p] *)
Definition update_where (p : R -> bool) (f : R -> R) (t : list R) : list R :=
  List.map (fun r => if p r then f r else r) t.

(** [DELETE FROM t WHERE p] *)
Definition delete_where (p : R -> bool) (t : list R) : list R :=
  List.filter (fun r => negb (p r)) t.

(** [EXISTS(SELECT 1 FROM t WHERE p)] *)
Definition exists_where (p : R -> bool) (t : list R) : bool := existsb p t.

(** The row [QueryRow] scans, and the rows a command tag counts. *)
Definition select_one (p : R -> bool) (t : list R) : option R := List.find p t.
Definition rows (p : R -> bool) (t : list R) : list R := List.filter p t.
Definition rows_affected (p : R -> bool) (t : list R) : nat := length (rows p t).

(** [INSERT ... ON CONFLICT(key) DO UPDATE SET f]: [p] recognises the
    conflicting row. *)
Definition upsert (p : R -> bool) (f : R -> R) (new : R) (t : list R) : list R :=
  if exists_where p t then update_where p f t else t ++ [new].

(** A UNIQUE index on the rows where [key] is [Some]. *)
Definition unique_index {K} `{EqDecision K} (key : R -> option K) : list R -> bool :=
  fix go t := match t with
    | [] => true
    | r :: t' => match key r with
      | Some k => negb (exists_where (fun r' => bool_decide (key r' = Some k)) t') && go t'
      | None => go t'
      end
    end.

(** [UPDATE t SET ... WHERE p] on a table with row-level BEFORE triggers:
    [before] computes the stored row from the old one, running the triggers
    in the transaction's state. *)
Fixpoint update_each {S} (p : R -> bool) (before : R -> tx S R) (t : list R) : tx S (list R) :=
  match t with
  | [] => mret []
  | r :: t' =>
      r' ← (if p r then before r else mret r);
      rest ← update_each p before t';
      mret (r' :: rest)
  end.

(** The (OLD,NEW) pairs of such an UPDATE, for AFTER triggers and RETURNING. *)
Definition changed (p : R -> bool) (t t' : list R) : list (R * R) :=
  List.filter (fun o => p (fst o)) (combine t t').
End tables.

(** ** [ORDER BY] and [LIMIT]

    Insertion sort by a boolean order. *)
Section sorting.
Context {R : Type} (le : R -> R -> bool).

Fixpoint insert_sorted (r : R) (l : list R) : list R :=
  match l with
  | [] => [r]
  | x :: l' => if le r x then r :: l else x :: insert_sorted r l'
  end.

Fixpoint order_by (l : list R) : list R :=
  match l with [] => [] | r :: l' => insert_sorted r (order_by l') end.
End sorting.

(** Lexicographic composition of two keys' orders. *)
Definition then_by {R} (lt1 : R -> R -> bool) (le2 : R -> R -> bool) (a b : R) : bool :=
  lt1 a b || (negb (lt1 b a) && le2 a b).
Definition asc {R} (key : R -> Z) (a b : R) : bool := key a <? key b.
Definition asc_le {R} (key : R -> Z) (a b : R) : bool := key a <=? key b.

(** [COALESCE(x,'')], [NULLIF(x,'')]. *)
Definition coalesce (o : option string) : string := default EmptyString o.
Definition nullif (s : string) : option string :=
  match s with EmptyString => None | _ => Some s end.

(** [l] has no two elements with the same [key] (a PRIMARY KEY or UNIQUE
    column list). *)
Definition unique {R K} (key : R -> K) (t : list R) : Prop := List.NoDup (List.map key t).

(** ** Proof automation

    [b2p] turns boolean guards into propositions; [inv_tx] steps through a
    transaction that is known to have succeeded. *)
Create HintDb vcw.
Create Rewrite HintDb b2p.

#[export] Hint Rewrite
  andb_true_iff orb_true_iff andb_false_iff orb_false_iff negb_true_iff negb_false_iff
  Z.ltb_lt Z.leb_le Z.ltb_ge Z.leb_gt Z.eqb_eq Z.eqb_neq
  bool_decide_eq_true bool_decide_eq_false existsb_exists forallb_forall : b2p.

Ltac b2p := autorewrite with b2p in *.

Lemma tbind_inr {S A B} (m : tx S A) (k : A -> tx S B) s b s' :
  (m ≫= k) s = inr (b, s') <-> exists a s1, m s = inr (a, s1) /\ k a s1 = inr (b, s').
Proof.
  unfold mbind, tx_bind. destruct (m s) as [e | [a s1]].
  - split; [discriminate | intros (? & ? & ? & _); discriminate].
  - split; [eauto | intros (? & ? & [= <- <-] & ?); done].
Qed.

(** Running a transaction forward, one statement at a time. *)
Lemma tbind_inl {S A B} (m : tx S A) (k : A -> tx S B) s e : m s = inl e -> (m ≫= k) s = inl e.
Proof. unfold mbind, tx_bind. by intros ->. Qed.

Lemma tbind_ok {S A B} (m : tx S A) (k : A -> tx S B) s a s1 : m s = inr (a, s1) -> (m ≫= k) s = k a s1.
Proof. unfold mbind, tx_bind. by intros ->. Qed.

Lemma tret_inr {S A} (a b : A) (s s' : S) : mret (M := tx S) a s = inr (b, s') <-> a = b /\ s = s'.
Proof. unfold mret, tx_ret. split; [intros [=]; auto | intros [-> ->]; auto]. Qed.

Lemma ensure_inr {S} ok e (s s' : S) u : ensure ok e s = inr (u, s') <-> ok = true /\ s = s'.
Proof.
  unfold ensure, tfail, mret, tx_ret. destruct ok, u; split; try (intros [=]; auto); try (intros [? ->]; auto); done.
Qed.

Lemma trow_inr {S A} (o : option A) e (s s' : S) a : trow o e s = inr (a, s') <-> o = Some a /\ s = s'.
Proof.
  unfold trow, tfail, mret, tx_ret. destruct o; split; try (intros [=]; subst; auto); intros [[=] ->]; subst; auto.
Qed.

Lemma tgets_inr {S A} (f : S -> A) (s s' : S) a : tgets f s = inr (a, s') <-> f s = a /\ s = s'.
Proof. unfold tgets. split; [intros [=]; auto | intros [<- <-]; auto]. Qed.

Lemma tget_inr {S} (s s' x : S) : tget s = inr (x, s') <-> s = x /\ s = s'.
Proof. unfold tget. split; [intros [=]; auto | intros [<- <-]; auto]. Qed.

Lemma tmod_inr {S} (f : S -> S) (s s' : S) u : tmod f s = inr (u, s') <-> f s = s'.
Proof. unfold tmod. destruct u. split; [intros [=]; auto | intros <-; auto]. Qed.

Lemma tfail_inr {S A} e (s s' : S) (a : A) : tfail e s = inr (a, s') <-> False.
Proof. unfold tfail. split; [discriminate | done]. Qed.

Lemma tcatch_inr {S A} (m : tx S A) f (s s' : S) a : tcatch m f s = inr (a, s') <-> m s = inr (a, s').
Proof. unfold tcatch. destruct (m s); split; congruence. Qed.

Lemma eqb_refl {A} `{EqDecision A} (x : A) : (x == x) = true.
Proof. by apply bool_decide_true. Qed.

(** Inverts a successful run step by step, replacing later states by earlier
    ones. *)
Ltac keep_left H :=
  lazymatch type of H with
  | ?a = ?b => first [is_var b; subst b | is_var a; subst a | idtac]
  end.
Ltac inv_tx1 :=
  let E := fresh "E" in let F := fresh "F" in
  match goal with
  | H : mbind _ _ _ = inr (_, _) |- _ => apply tbind_inr in H as (? & ? & ? & ?)
  | H : mret _ _ = inr (_, _) |- _ => apply tret_inr in H as [E F]; keep_left F; keep_left E
  | H : ensure _ _ _ = inr (_, _) |- _ => apply ensure_inr in H as [E F]; keep_left F
  | H : trow _ _ _ = inr (_, _) |- _ => apply trow_inr in H as [E F]; keep_left F
  | H : tgets _ _ = inr (_, _) |- _ => apply tgets_inr in H as [E F]; keep_left F; keep_left E
  | H : tget _ = inr (_, _) |- _ => apply tget_inr in H as [E F]; keep_left F; keep_left E
  | H : tmod _ _ = inr (_, _) |- _ => apply tmod_inr in H; keep_left H
  | H : tfail _ _ = inr (_, _) |- _ => apply tfail_inr in H as []
  | H : tcatch _ _ _ = inr (_, _) |- _ => apply tcatch_inr in H
  end.
Ltac inv_tx := repeat inv_tx1.

Lemma run_ok {S A} (m : tx S A) s a s' : run m s = (inr a, s') <-> m s = inr (a, s').
Proof. unfold run. destruct (m s) as [| []]; split; congruence. Qed.

(** A failed operation leaves the database as it was. *)
Lemma run_err {S A} (m : tx S A) s e s' : run m s = (inl e, s') -> s' = s.
Proof. unfold run. destruct (m s) as [| []]; congruence. Qed.

(** An invariant of every committed run is an invariant of [run]. *)
Lemma run_preserves {S A} (P : S -> Prop) (m : tx S A) s r s' :
  (forall a s1, m s = inr (a, s1) -> P s1) -> P s -> run m s = (r, s') -> P s'.
Proof. unfold run. intros H HP. destruct (m s) as [| [a s1]] eqn:E; intros [= <- <-]; eauto. Qed.

(** ** Lemmas on tables *)
Section table_lemmas.
Context {R : Type}.
Implicit Types (p q : R -> bool) (f : R -> R) (t : list R).

Lemma in_update_where p f t r :
  In r (update_where p f t) <-> exists r0, In r0 t /\ r = (if p r0 then f r0 else r0).
Proof.
  unfold update_where. rewrite in_map_iff. split.
  - intros (x & <- & ?). eauto.
  - intros (x & ? & ->). eauto.
Qed.

Lemma in_delete_where p t r : In r (delete_where p t) <-> In r t /\ p r = false.
Proof. unfold delete_where. rewrite filter_In, negb_true_iff. done. Qed.

Lemma exists_where_true p t : exists_where p t = true <-> exists r, In r t /\ p r = true.
Proof. apply existsb_exists. Qed.

Lemma exists_where_false p t : exists_where p t = false <-> forall r, In r t -> p r = false.
Proof.
  rewrite <- not_true_iff_false, exists_where_true. split.
  - intros H r Hr. apply not_true_iff_false. eauto.
  - intros H (r & Hr & Hp). rewrite H in Hp by done. discriminate.
Qed.

Lemma exists_where_app p t1 t2 : exists_where p (t1 ++ t2) = exists_where p t1 || exists_where p t2.
Proof. apply existsb_app. Qed.

Lemma exists_where_ext p q t : (forall r, In r t -> p r = q r) -> exists_where p t = exists_where q t.
Proof.
  unfold exists_where. induction t as [| r t IH]; simpl; intros H; [done |].
  rewrite H, IH; auto.
Qed.

Lemma exists_where_update p q f t :
  exists_where q (update_where p f t) = exists_where (fun r => q (if p r then f r else r)) t.
Proof. unfold exists_where, update_where. induction t; simpl; congruence. Qed.

(** An update that does not change what [q] looks at. *)
Lemma exists_where_update_same p q f t :
  (forall r, q (f r) = q r) -> exists_where q (update_where p f t) = exists_where q t.
Proof. intros H. rewrite exists_where_update. apply exists_where_ext. intros r _. destruct (p r); auto. Qed.

Lemma exists_where_delete_le p q t :
  exists_where q (delete_where p t) = true -> exists_where q t = true.
Proof. rewrite !exists_where_true. intros (r & H & ?). apply in_delete_where in H as []. eauto. Qed.

Lemma select_one_some p t r : select_one p t = Some r -> In r t /\ p r = true.
Proof. apply find_some. Qed.

Lemma select_one_none p t : select_one p t = None <-> exists_where p t = false.
Proof.
  rewrite exists_where_false. split.
  - intros H r. apply (find_none _ _ H).
  - unfold select_one. induction t as [| x t IH]; simpl; intros H; [done |].
    rewrite (H x) by auto. auto.
Qed.

Lemma rows_affected_0 p t : rows_affected p t = 0%nat <-> exists_where p t = false.
Proof.
  unfold rows_affected, rows. rewrite exists_where_false. split.
  - intros H r Hr. apply not_true_iff_false. intros Hp.
    assert (In r (List.filter p t)) as Hin by (apply filter_In; auto).
    destruct (List.filter p t); [destruct Hin | discriminate].
  - intros H. induction t as [| x t IH]; simpl; [done |]. rewrite (H x) by (simpl; auto).
    apply IH. intros r ?. apply H. simpl; auto.
Qed.

Lemma rows_affected_pos p t : rows_affected p t = 1%nat -> exists r, In r t /\ p r = true.
Proof.
  intros H. apply exists_where_true. destruct (exists_where p t) eqn:E; [done |].
  apply rows_affected_0 in E. congruence.
Qed.

Lemma map_update_where {K} (key : R -> K) p f t :
  (forall r, key (f r) = key r) -> List.map key (update_where p f t) = List.map key t.
Proof.
  intros H. unfold update_where. rewrite map_map. apply map_ext. intros r. destruct (p r); auto.
Qed.

Lemma unique_update {K} (key : R -> K) p f t :
  (forall r, key (f r) = key r) -> unique key t -> unique key (update_where p f t).
Proof. unfold unique. intros H. by rewrite map_update_where. Qed.

Lemma unique_delete {K} (key : R -> K) p t : unique key t -> unique key (delete_where p t).
Proof.
  unfold unique, delete_where. induction t as [| r t IH]; simpl; [done |].
  intros H. apply NoDup_cons_iff in H as [Hn Hd]. destruct (negb (p r)); simpl; [| auto].
  constructor; [| auto]. rewrite in_map_iff in *. intros (x & Hx & Hin). apply Hn.
  apply filter_In in Hin as []. eauto.
Qed.

Lemma unique_insert {K} (key : R -> K) r t :
  unique key t -> (forall x, In x t -> key x <> key r) -> unique key (t ++ [r]).
Proof.
  unfold unique. intros H Hr. rewrite map_app. apply List.NoDup_app; [done | repeat constructor; simpl; auto |].
  intros k Hk. simpl. intros [<- | []]. apply in_map_iff in Hk as (x & Hx & ?). eapply Hr; eauto.
Qed.

Lemma unique_inj {K} (key : R -> K) t r1 r2 :
  unique key t -> In r1 t -> In r2 t -> key r1 = key r2 -> r1 = r2.
Proof.
  unfold unique. induction t as [| r t IH]; simpl; [done |]. intros H.
  apply NoDup_cons_iff in H as [Hn Hd]. intros [-> | H1] [-> | H2] E; auto.
  - destruct Hn. rewrite E. by apply in_map.
  - destruct Hn. rewrite <- E. by apply in_map.
Qed.

Lemma in_upsert p f new t r :
  In r (upsert p f new t) ->
  (In r t /\ p r = false) \/ (exists r0, In r0 t /\ p r0 = true /\ r = f r0) \/
  (r = new /\ exists_where p t = false).
Proof.
  unfold upsert. destruct (exists_where p t) eqn:E.
  - rewrite in_update_where. intros (r0 & Hin & ->). destruct (p r0) eqn:Ep; eauto 7.
  - rewrite in_app_iff. intros [Hin | [<- | []]]; [| auto].
    left. split; [done |]. by apply (proj1 (exists_where_false p t)).
Qed.

Lemma upsert_exists p f new t : p new = true -> (forall r, p r = true -> p (f r) = true) ->
  exists_where p (upsert p f new t) = true.
Proof.
  intros Hn Hf. unfold upsert. destruct (exists_where p t) eqn:E.
  - rewrite exists_where_update, exists_where_true in *. destruct E as (r & Hr & Hp).
    exists r. split; [done |]. rewrite Hp. auto.
  - rewrite exists_where_app. simpl. rewrite Hn, orb_true_r. done.
Qed.

Lemma unique_index_inj {K} `{EqDecision K} (key : R -> option K) t r1 r2 k :
  unique_index key t = true -> In r1 t -> In r2 t -> key r1 = Some k -> key r2 = Some k -> r1 = r2.
Proof.
  induction t as [| r t IH]; simpl; [done |]. intros H [-> | H1] [-> | H2] E1 E2; auto.
  - rewrite E1 in H. apply andb_true_iff in H as [H _]. apply negb_true_iff in H.
    eapply exists_where_false in H; [| exact H2]. rewrite bool_decide_eq_false in H. done.
  - rewrite E2 in H. apply andb_true_iff in H as [H _]. apply negb_true_iff in H.
    eapply exists_where_false in H; [| exact H1]. rewrite bool_decide_eq_false in H. done.
  - apply IH; auto. destruct (key r); [apply andb_true_iff in H as [_ ?] |]; done.
Qed.

Lemma unique_index_app {K} `{EqDecision K} (key : R -> option K) t r :
  unique_index key (t ++ [r]) = true <->
  unique_index key t = true /\ (key r <> None -> forall x, In x t -> key x <> key r).
Proof.
  induction t as [| x t IH]; [simpl; destruct (key r); naive_solver |]. simpl.
  assert (forall k, exists_where (fun r' => bool_decide (key r' = Some k)) (t ++ [r]) =
    exists_where (fun r' => bool_decide (key r' = Some k)) t || bool_decide (key r = Some k)) as Happ.
  { intros k. rewrite exists_where_app. simpl. by rewrite orb_false_r. }
  destruct (key x) as [k |] eqn:Ek; [rewrite Happ, !andb_true_iff, !negb_true_iff, orb_false_iff, bool_decide_eq_false |];
    rewrite IH; split.
  - intros [[? ?] [? Hr]]. split; [done |]. intros Hn y [<- | Hy]; [congruence | auto].
  - intros [[? ?] Hr]. split; [split; [done |] | split; [done |]; auto].
    intros Hk. eapply Hr; [by rewrite Hk | by left | congruence].
  - intros [? Hr]. split; [done |]. intros Hn y [<- | Hy]; [congruence | auto].
  - intros [? Hr]. auto.
Qed.

Lemma unique_index_same {K} `{EqDecision K} (key : R -> option K) p f t :
  (forall r, key (f r) = key r) -> unique_index key (update_where p f t) = unique_index key t.
Proof.
  intros Hf. induction t as [| r t IH]; [done |]. simpl. rewrite IH.
  assert (key (if p r then f r else r) = key r) as -> by (destruct (p r); auto).
  destruct (key r); [| done]. do 2 f_equal. apply exists_where_update_same. intros x. by rewrite Hf.
Qed.

(** A key identifies at most one row. *)
Lemma rows_at_most_one {K} `{EqDecision K} (key : R -> option K) k p t :
  unique_index key t = true -> (forall r, p r = true -> key r = Some k) -> (length (rows p t) <= 1)%nat.
Proof.
  intros Hu Hp. induction t as [| r t IH]; simpl; [lia |]. simpl in Hu. destruct (p r) eqn:E.
  - rewrite (Hp r E) in Hu. apply andb_true_iff in Hu as [Hn Hu]. apply negb_true_iff in Hn.
    assert (rows_affected p t = 0%nat) as H0; [| unfold rows_affected, rows in *; simpl; lia].
    apply rows_affected_0, exists_where_false. intros x Hx. apply not_true_iff_false. intros Hpx.
    rewrite exists_where_false in Hn. specialize (Hn x Hx). by rewrite (Hp x Hpx), bool_decide_true in Hn.
  - apply IH. destruct (key r); [by apply andb_true_iff in Hu as [_ ?] | done].
Qed.

(** Giving one row a fresh key. *)
Lemma unique_index_fresh {K} `{EqDecision K} (key : R -> option K) k p f t :
  unique_index key t = true -> (length (rows p t) <= 1)%nat -> (forall r, In r t -> key r <> Some k) ->
  (forall r, key (f r) = Some k) -> unique_index key (update_where p f t) = true.
Proof.
  intros Hu Hl Hk Hf. induction t as [| r t IH]; [done |]. unfold rows in *. simpl in *.
  assert (forall r, In r t -> key r <> Some k) as Hk' by auto.
  destruct (p r) eqn:E; simpl in Hl.
  - assert (update_where p f t = t) as Hid.
    { unfold update_where. rewrite <- (map_id t) at 2. apply map_ext_in. intros x Hx. destruct (p x) eqn:Ex; [| done].
      assert (In x (List.filter p t)) as Hin by (apply filter_In; auto). destruct (List.filter p t); [done | simpl in Hl; lia]. }
    rewrite Hid, Hf. apply andb_true_iff. split.
    + apply negb_true_iff, exists_where_false. intros x Hx. apply bool_decide_eq_false. auto.
    + destruct (key r); [by apply andb_true_iff in Hu as [_ ?] | done].
  - destruct (key r) as [k' |] eqn:Ekr; [| apply IH; auto].
    apply andb_true_iff in Hu as [Hn Hu]. apply negb_true_iff in Hn. rewrite exists_where_false in Hn.
    apply andb_true_iff. split; [| apply IH; auto]. apply negb_true_iff, exists_where_false. intros x Hx.
    apply in_update_where in Hx as (x0 & Hx0 & ->). destruct (p x0); [| auto]. rewrite Hf. apply bool_decide_eq_false.
    intros [= ->]. eapply (Hk r); [by left | done].
Qed.

(** Running an UPDATE forward when its triggers accept every row. *)
Lemma update_each_ok {S} p f (before : R -> tx S R) t s :
  (forall r, In r t -> p r = true -> before r s = inr (f r, s)) ->
  update_each p before t s = inr (update_where p f t, s).
Proof.
  induction t as [| r t IH]; intros H; [done |]. cbn [update_each].
  assert ((if p r then before r else mret r) s = inr (if p r then f r else r, s)) as Hr.
  { destruct (p r) eqn:E; [apply H; simpl; auto | done]. }
  rewrite (tbind_ok _ _ _ _ _ Hr). rewrite (tbind_ok _ _ _ _ _ (IH ltac:(simpl in *; auto))). done.
Qed.

Lemma changed_none p t : (forall r, In r t -> p r = false) -> changed p t t = [].
Proof.
  unfold changed. induction t as [| r t IH]; intros Hn; [done |]. simpl. rewrite (Hn r) by (left; done).
  apply IH. intros. apply Hn. by right.
Qed.

Lemma update_where_id p f t : (forall r, In r t -> p r = false) -> update_where p f t = t.
Proof.
  intros Hn. unfold update_where. rewrite <- (map_id t) at 2. apply map_ext_in. intros r Hr. by rewrite Hn.
Qed.

(** Row by row, what an UPDATE with triggers does to a table. *)
Lemma update_each_rows {S} p (before : R -> tx S R) t s t' s' :
  update_each p before t s = inr (t', s') ->
  Forall2 (fun r r' => if p r then exists s1 s2, before r s1 = inr (r', s2) else r' = r) t t'.
Proof.
  revert s t' s'. induction t as [| r t IH]; simpl; intros s t' s' H; inv_tx; [constructor |].
  constructor; [| eauto]. destruct (p r); inv_tx; eauto.
Qed.

(** A state property preserved by every trigger is preserved by the UPDATE. *)
Lemma update_each_preserves {S} (P : S -> S -> Prop) p (before : R -> tx S R) t s t' s' :
  (forall s, P s s) -> (forall a b c, P a b -> P b c -> P a c) ->
  (forall r s r' s', before r s = inr (r', s') -> P s s') ->
  update_each p before t s = inr (t', s') -> P s s'.
Proof.
  intros Hr Ht Hb. revert s t' s'. induction t as [| r t IH]; simpl; intros s t' s' H; inv_tx; [auto |].
  destruct (p r); inv_tx; eauto.
Qed.

Lemma changed_rows {S} p (before : R -> tx S R) t s t' s' o n :
  update_each p before t s = inr (t', s') -> In (o, n) (changed p t t') ->
  In o t /\ In n t' /\ p o = true /\ exists s1 s2, before o s1 = inr (n, s2).
Proof.
  intros H Hin. apply filter_In in Hin as [Hin Hp]. simpl in Hp. apply update_each_rows in H.
  induction H as [| r r' t t' Hr HF IH]; simpl in *; [done |].
  destruct Hin as [[= -> ->] | Hin].
  - rewrite Hp in Hr. auto.
  - destruct (IH Hin) as (? & ? & ? & ?). auto.
Qed.
End table_lemmas.

(** ** Sorting lemmas *)
Section sorting_lemmas.
Context {R : Type} (le : R -> R -> bool).

Lemma insert_sorted_perm r l : Permutation (insert_sorted le r l) (r :: l).
Proof.
  induction l as [| x l IH]; simpl; [done |]. destruct (le r x); [done |].
  rewrite IH. apply perm_swap.
Qed.

Lemma order_by_perm l : Permutation (order_by le l) l.
Proof. induction l as [| r l IH]; simpl; [done |]. rewrite insert_sorted_perm. by constructor. Qed.

Lemma order_by_in l r : In r (order_by le l) <-> In r l.
Proof.
  split; intros H; (eapply Permutation_in; [| exact H]); [apply order_by_perm | symmetry; apply order_by_perm].
Qed.

Lemma order_by_length l : length (order_by le l) = length l.
Proof. apply Permutation_length, order_by_perm. Qed.

Context (le_total : forall a b, le a b = true \/ le b a = true)
        (le_trans : forall a b c, le a b = true -> le b c = true -> le a c = true).

Lemma insert_sorted_sorted r l :
  Sorting.Sorted.StronglySorted (fun a b => le a b = true) l ->
  Sorting.Sorted.StronglySorted (fun a b => le a b = true) (insert_sorted le r l).
Proof.
  induction 1 as [| x l Hs IH Hx]; simpl; [repeat constructor |].
  destruct (le r x) eqn:E.
  - constructor; [by constructor |]. constructor; [done |]. eapply List.Forall_impl; [| exact Hx]. eauto.
  - constructor; [done |]. apply List.Forall_forall. intros y Hy.
    eapply Permutation_in in Hy; [| apply insert_sorted_perm]. destruct Hy as [<- | Hy].
    + destruct (le_total x r); congruence.
    + by eapply List.Forall_forall in Hx.
Qed.

Lemma order_by_sorted l : Sorting.Sorted.StronglySorted (fun a b => le a b = true) (order_by le l).
Proof. induction l as [| r l IH]; simpl; [constructor | by apply insert_sorted_sorted]. Qed.
End sorting_lemmas.

Lemma tfold_preserves {S A} (P : S -> S -> Prop) (f : A -> tx S unit) l s u s' :
  (forall s, P s s) -> (forall a b c, P a b -> P b c -> P a c) ->
  (forall a s u s', In a l -> f a s = inr (u, s') -> P s s') ->
  tfold f l s = inr (u, s') -> P s s'.
Proof.
  intros Hr Ht. revert s. induction l as [| a l IH]; simpl; intros s Hf H; inv_tx; [auto |].
  eapply Ht; [eapply Hf; [left |]; eauto |]. eapply IH; [| eauto]. intros. eapply Hf; [right |]; eauto.
Qed.

(** Every element processed by a [tfold] was processed in some state. *)
Lemma tfold_each {S A} (f : A -> tx S unit) l s u s' a :
  tfold f l s = inr (u, s') -> In a l ->
  exists l2 s1 s2, f a s1 = inr (tt, s2) /\ tfold f l2 s2 = inr (u, s') /\ (forall x, In x l2 -> In x l).
Proof.
  revert s. induction l as [| x l IH]; simpl; intros s H; [done |]. inv_tx. intros [-> | Hin].
  - eexists l, s, _. destruct x0. eauto.
  - edestruct IH as (l2 & ? & ? & ? & ? & ?); eauto 10.
Qed.

Lemma Forall2_in_r {A B} (P : A -> B -> Prop) l l' y :
  Forall2 P l l' -> In y l' -> exists x, In x l /\ P x y.
Proof. induction 1; simpl; [done |]. intros [-> | Hin]; [eauto |]. destruct (IHForall2 Hin) as (? & ? & ?). eauto. Qed.

Lemma Forall2_in_l {A B} (P : A -> B -> Prop) l l' x :
  Forall2 P l l' -> In x l -> exists y, In y l' /\ P x y.
Proof. induction 1; simpl; [done |]. intros [-> | Hin]; [eauto |]. destruct (IHForall2 Hin) as (? & ? & ?). eauto. Qed.

Lemma changed_in {R} (P : R -> R -> Prop) (p : R -> bool) t t' o n :
  Forall2 P t t' -> In (o, n) (changed p t t') -> In o t /\ In n t' /\ p o = true /\ P o n.
Proof.
  intros HF Hin. apply filter_In in Hin as [Hin Hp]. simpl in Hp.
  induction HF as [| a b t t' Hab HF IH]; simpl in *; [done |]. destruct Hin as [[= -> ->] | Hin]; [auto |].
  destruct (IH Hin) as (? & ? & ? & ?). auto.
Qed.

Lemma changed_in_l {R} (P : R -> R -> Prop) (p : R -> bool) t t' o :
  Forall2 P t t' -> In o t -> p o = true -> exists n, In (o, n) (changed p t t').
Proof.
  intros HF Hin Hp. induction HF as [| a b t t' Hab HF IH]; simpl in *; [done |]. destruct Hin as [-> | Hin].
  - exists b. unfold changed. simpl. rewrite Hp. by left.
  - destruct (IH Hin) as (n & Hn). exists n. unfold changed. simpl. destruct (p a); [by right | done].
Qed.

Lemma Forall2_impl_in {A B} (P Q : A -> B -> Prop) l l' :
  Forall2 P l l' -> (forall x y, In x l -> P x y -> Q x y) -> Forall2 Q l l'.
Proof. induction 1; intros HQ; constructor; [apply HQ; simpl; auto |]. apply IHForall2. intros. apply HQ; simpl; auto. Qed.

(** A [tfold] of pure updates is a left fold. *)
Lemma tfold_tmod {S A} (g : A -> S -> S) l s :
  tfold (fun a => tmod (g a)) l s = inr (tt, fold_left (fun s a => g a s) l s).
Proof. revert s. induction l as [| a l IH]; intros s; simpl; [done | apply IH]. Qed.

Lemma coalesce_nullif s : coalesce (nullif s) = s.
Proof. by destruct s. Qed.

#[export] Hint Resolve unique_update unique_delete : vcw.

Lemma in_take {R} (x : R) n l : In x (take n l) -> In x l.
Proof. intros Hx. rewrite <- (firstn_skipn n l). apply in_app_iff. by left. Qed.
