(* ===== verification/GoStrings.v ===== *)
(** * Strings, numbers and encodings of the Go standard library

    A Go [string] or [[]byte] is a [string] of 8-bit characters.  This file
    models the functions of [strings], [strconv], [encoding/hex] and
    [encoding/base64] that the sources call, and proves the round trips the
    components rely on. *)
From stdpp Require Import base strings list.
From Stdlib Require Import ZArith Lia Ascii DecimalString DecimalN DecimalPos DecimalFacts.
From S2P Require Import Prelude.

Local Open Scope string_scope.
Local Open Scope Z_scope.
Local Open Scope list_scope.

Definition bytes := string.

Definition slen (s : string) : Z := Z.of_nat (String.length s).
Definition ord (c : ascii) : Z := Z.of_N (N_of_ascii c).
Definition chr (z : Z) : ascii := ascii_of_N (Z.to_N z).

Lemma ord_range c : 0 <= ord c < 256.
Proof. unfold ord. pose proof (N_ascii_bounded c). lia. Qed.

Lemma chr_ord c : chr (ord c) = c.
Proof. unfold chr, ord. rewrite N2Z.id. apply ascii_N_embedding. Qed.

Lemma ord_chr z : 0 <= z < 256 -> ord (chr z) = z.
Proof. intros ?. unfold chr, ord. rewrite N_ascii_embedding; lia. Qed.

(** ** Character classes *)
Definition in_range (lo hi : ascii) (c : ascii) : bool := (ord lo <=? ord c) && (ord c <=? ord hi).
Definition is_digit := in_range "0" "9".
Definition is_lower := in_range "a" "z".
Definition is_upper := in_range "A" "Z".
Definition is_lower_hex (c : ascii) : bool := is_digit c || in_range "a" "f" c.
Definition is_hex (c : ascii) : bool := is_lower_hex c || in_range "A" "F" c.

Fixpoint str_forall (p : ascii -> bool) (s : string) : bool :=
  match s with
  | EmptyString => true
  | String c s' => p c && str_forall p s'
  end.

Fixpoint str_exists (p : ascii -> bool) (s : string) : bool :=
  match s with
  | EmptyString => false
  | String c s' => p c || str_exists p s'
  end.

(** The regular expressions of the sources have the shape
    [^prefix[class]{lo,hi}$]. *)
Fixpoint cut_prefix (p s : string) : option string :=
  match p, s with
  | EmptyString, _ => Some s
  | String a p', String b s' => if a == b then cut_prefix p' s' else None
  | String _ _, EmptyString => None
  end.

Definition has_prefix (p s : string) : bool :=
  match cut_prefix p s with Some _ => true | None => false end.

Definition match_class (p : string) (cls : ascii -> bool) (lo hi : Z) (s : string) : bool :=
  match cut_prefix p s with
  | Some rest => str_forall cls rest && (lo <=? slen rest) && (slen rest <=? hi)
  | None => false
  end.

Lemma cut_prefix_some p s r : cut_prefix p s = Some r <-> s = p +:+ r.
Proof.
  revert s. induction p as [| a p IH]; intros s; simpl.
  - split; [intros [= ->]; done | intros ->; done].
  - destruct s as [| b s]; [split; discriminate |].
    case_bool_decide as E; subst.
    + rewrite IH. split; [intros ->; done | intros [=]; done].
    + split; [discriminate | intros [=]; congruence].
Qed.

Lemma has_prefix_spec p s : has_prefix p s = true <-> exists r, s = p +:+ r.
Proof.
  unfold has_prefix. destruct (cut_prefix p s) as [r |] eqn:E.
  - apply cut_prefix_some in E. split; eauto.
  - split; [discriminate |]. intros (r & Hr). apply cut_prefix_some in Hr. congruence.
Qed.

Lemma match_class_spec p cls lo hi s :
  match_class p cls lo hi s = true <->
  exists r, s = p +:+ r /\ str_forall cls r = true /\ lo <= slen r <= hi.
Proof.
  unfold match_class. destruct (cut_prefix p s) as [r |] eqn:E.
  - apply cut_prefix_some in E as ->. b2p. split.
    + intros [[? ?] ?]. eauto.
    + intros (r' & Hr & ? & ?). assert (r' = r) as ->; [| repeat split; (done || lia)].
      apply (inj (String.append p)) in Hr. done.
  - split; [discriminate |]. intros (r & Hr & _). apply cut_prefix_some in Hr. congruence.
Qed.

Lemma app_String c s t : String c s +:+ t = String c (s +:+ t).
Proof. done. Qed.

Lemma app_EmptyString s : "" +:+ s = s.
Proof. done. Qed.

Lemma slen_app s t : slen (s +:+ t) = slen s + slen t.
Proof.
  unfold slen. induction s as [| c s IH]; [done |].
  rewrite app_String. simpl String.length. lia.
Qed.

Lemma slen_String c s : slen (String c s) = 1 + slen s.
Proof. unfold slen. cbn [String.length]. lia. Qed.

Lemma slen_nonneg s : 0 <= slen s.
Proof. unfold slen. lia. Qed.

Lemma str_forall_impl (p q : ascii -> bool) s :
  (forall c, p c = true -> q c = true) -> str_forall p s = true -> str_forall q s = true.
Proof. intros H. induction s; simpl; [done |]. rewrite !andb_true_iff. intros []. auto. Qed.

Lemma str_forall_app p s t : str_forall p (s +:+ t) = str_forall p s && str_forall p t.
Proof.
  induction s as [| c s IH]; [done |]. rewrite app_String.
  simpl. by rewrite IH, andb_assoc.
Qed.

Lemma str_exists_forall p s : str_exists p s = negb (str_forall (fun c => negb (p c)) s).
Proof. induction s as [| c s IH]; simpl; [done |]. rewrite IH. by destruct (p c). Qed.

(** ** [strings.Split], [Join] and [Cut] on a one-byte separator *)
Fixpoint split (sep : ascii) (s : string) : list string :=
  match s with
  | EmptyString => [""]
  | String c s' =>
      if c == sep then "" :: split sep s'
      else match split sep s' with
           | [] => [String c ""]
           | w :: ws => String c w :: ws
           end
  end.

Fixpoint join (sep : ascii) (l : list string) : string :=
  match l with
  | [] => ""
  | [w] => w
  | w :: ws => w +:+ String sep (join sep ws)
  end.

(** [before, after, found := strings.Cut(s, sep)] *)
Fixpoint cut (sep : ascii) (s : string) : string * string * bool :=
  match s with
  | EmptyString => ("", "", false)
  | String c s' =>
      if c == sep then ("", s', true)
      else let '(b, a, f) := cut sep s' in (String c b, a, f)
  end.

Definition no_char (sep : ascii) (s : string) : bool := str_forall (fun c => c != sep) s.

Lemma split_nonempty sep s : split sep s <> [].
Proof. destruct s as [| c s]; simpl; [done |]. case_bool_decide; [done |]. by destruct (split sep s). Qed.

Lemma join_split sep s : join sep (split sep s) = s.
Proof.
  induction s as [| c s IH]; [done |]. simpl. case_bool_decide as E; subst.
  - pose proof (split_nonempty sep s). destruct (split sep s) eqn:Es; [done |].
    simpl. rewrite <- IH. done.
  - pose proof (split_nonempty sep s). destruct (split sep s) as [| w ws] eqn:Es; [done |].
    simpl in *. destruct ws; rewrite <- IH; done.
Qed.

Lemma split_no_char sep s w : In w (split sep s) -> no_char sep w = true.
Proof.
  unfold no_char. revert w. induction s as [| c s IH]; intros w; simpl.
  - intros [<- | []]. done.
  - case_bool_decide as E.
    + intros [<- | H]; [done | auto].
    + destruct (split sep s) as [| v vs] eqn:Es.
      * intros [<- | []]. simpl. by rewrite bool_decide_false.
      * intros [<- | H]; [| apply IH; simpl; auto].
        simpl. rewrite bool_decide_false by done. simpl. apply IH. simpl; auto.
Qed.

Lemma split_word sep w : no_char sep w = true -> split sep w = [w].
Proof.
  unfold no_char. induction w as [| c w IH]; simpl; [done |].
  rewrite andb_true_iff, negb_true_iff. intros [H1 H2].
  rewrite bool_decide_eq_false in H1. rewrite bool_decide_false by done. by rewrite IH.
Qed.

Lemma split_word_sep sep w s :
  no_char sep w = true -> split sep (w +:+ String sep s) = w :: split sep s.
Proof.
  unfold no_char. induction w as [| c w IH].
  - intros _. rewrite app_EmptyString. simpl. by rewrite bool_decide_true.
  - rewrite app_String. simpl. rewrite andb_true_iff, negb_true_iff. intros [H1 H2].
    rewrite bool_decide_eq_false in H1. rewrite bool_decide_false by done. by rewrite IH.
Qed.

Lemma split_join sep l :
  l <> [] -> Forall (fun w => no_char sep w = true) l -> split sep (join sep l) = l.
Proof.
  induction l as [| w ws IH]; [done |]. intros _ H. apply Forall_cons in H as [Hw Hws].
  destruct ws as [| v vs]; simpl; [by apply split_word |].
  rewrite split_word_sep by done. f_equal. by apply IH.
Qed.

Lemma cut_word sep w s : no_char sep w = true -> cut sep (w +:+ String sep s) = (w, s, true).
Proof.
  unfold no_char. induction w as [| c w IH].
  - intros _. rewrite app_EmptyString. simpl. by rewrite bool_decide_true.
  - rewrite app_String. simpl. rewrite andb_true_iff, negb_true_iff. intros [H1 H2].
    rewrite bool_decide_eq_false in H1. rewrite bool_decide_false by done. by rewrite IH.
Qed.

Lemma cut_found sep s b a : cut sep s = (b, a, true) -> s = b +:+ String sep a /\ no_char sep b = true.
Proof.
  unfold no_char. revert b a. induction s as [| c s IH]; intros b a; simpl; [done |].
  case_bool_decide as E; [intros [= <- <-]; subst; done |].
  destruct (cut sep s) as [[b' a'] f]. intros [= <- <- ->]. destruct (IH b' a' eq_refl) as [-> Hb].
  split; [done |]. simpl. rewrite bool_decide_false by done. done.
Qed.

(** ** [strconv]: unsigned decimals

    [FormatUint(n, 10)] and [ParseUint(s, 10, bits)]: the parser rejects the
    empty string, a character that is not a digit, and a value of more than
    [bits] bits; it accepts leading zeros. *)
Definition format_uint (n : N) : string := NilEmpty.string_of_uint (N.to_uint n).

Definition parse_uint (bits : N) (s : string) : option N :=
  if s == "" then None else
  match NilEmpty.uint_of_string s with
  | Some d => let n := N.of_uint d in if (n <? 2 ^ bits)%N then Some n else None
  | None => None
  end.

(** [strconv.Itoa] on the non-negative [int]s the sources print, and
    [bigint::text]. *)
Definition itoa (z : Z) : string :=
  if z <? 0 then String "-" (format_uint (Z.to_N (- z))) else format_uint (Z.to_N z).

Lemma to_uint_nonnil n : N.to_uint n <> Decimal.Nil.
Proof. destruct n as [| p]; simpl; [done |]. apply DecimalPos.Unsigned.to_uint_nonnil. Qed.

Lemma format_uint_nonempty n : format_uint n <> "".
Proof.
  unfold format_uint. pose proof (to_uint_nonnil n). destruct (N.to_uint n); done.
Qed.

Lemma parse_format_uint bits n : (n < 2 ^ bits)%N -> parse_uint bits (format_uint n) = Some n.
Proof.
  intros Hn. unfold parse_uint. rewrite bool_decide_false by apply format_uint_nonempty.
  unfold format_uint. rewrite NilEmpty.usu, DecimalN.Unsigned.of_to.
  by apply N.ltb_lt in Hn as ->.
Qed.

Lemma format_uint_inj n m : format_uint n = format_uint m -> n = m.
Proof.
  unfold format_uint. intros H. apply (f_equal NilEmpty.uint_of_string) in H.
  rewrite !NilEmpty.usu in H. injection H as H. by apply DecimalN.Unsigned.to_uint_inj in H.
Qed.

Lemma parse_uint_bound bits s n : parse_uint bits s = Some n -> (n < 2 ^ bits)%N.
Proof.
  unfold parse_uint. case_bool_decide; [done |]. destruct (NilEmpty.uint_of_string s); [| done].
  destruct (N.ltb_spec (N.of_uint u) (2 ^ bits)); [intros [= <-]; done | done].
Qed.

Definition digit_or_minus (c : ascii) : bool := is_digit c || (c == "-"%char).

Lemma format_uint_digits n : str_forall is_digit (format_uint n) = true.
Proof. unfold format_uint. induction (N.to_uint n); simpl; auto. Qed.

Lemma digits_no_char c s : is_digit c = false -> str_forall is_digit s = true -> no_char c s = true.
Proof.
  intros Hc. unfold no_char. apply str_forall_impl. intros x Hx. rewrite negb_true_iff, bool_decide_eq_false.
  congruence.
Qed.

Lemma itoa_inj a b : 0 <= a -> 0 <= b -> itoa a = itoa b -> a = b.
Proof.
  unfold itoa. intros Ha Hb. destruct (Z.ltb_spec a 0), (Z.ltb_spec b 0); try lia.
  intros E%format_uint_inj. lia.
Qed.

(** The decimal spelling has no more digits than it needs. *)
Lemma of_uint_acc_lower d acc :
  (N.pos acc * 10 ^ N.of_nat (Decimal.nb_digits d) <= N.pos (Pos.of_uint_acc d acc))%N.
Proof.
  revert acc. induction d as [| d IH | d IH | d IH | d IH | d IH | d IH | d IH | d IH | d IH | d IH];
    intros acc; cbn [Decimal.nb_digits Pos.of_uint_acc]; [simpl; lia |..];
    (etransitivity; [| apply IH]); rewrite Nat2N.inj_succ, N.pow_succ_r' by lia; nia.
Qed.

Lemma to_uint_lower p d :
  Pos.to_uint p = d -> (10 ^ N.of_nat (Nat.pred (Decimal.nb_digits d)) <= N.pos p)%N.
Proof.
  intros Hd. pose proof (DecimalPos.Unsigned.of_to p) as Hof. rewrite Hd in Hof.
  assert (Decimal.unorm d = d) as Hn.
  { rewrite <- DecimalPos.Unsigned.to_of, Hof. simpl. done. }
  pose proof (DecimalPos.Unsigned.to_uint_nonnil p) as Hnil. rewrite Hd in Hnil.
  pose proof (DecimalPos.Unsigned.to_uint_nonzero p) as Hz. rewrite Hd in Hz.
  destruct d as [| d | d | d | d | d | d | d | d | d | d]; [done | | rewrite <- Hof ..];
    [| simpl Pos.of_uint; pose proof (of_uint_acc_lower d) as Hl;
       match goal with |- (_ <= N.pos (Pos.of_uint_acc _ ?a))%N => specialize (Hl a) end;
       cbn [Decimal.nb_digits Nat.pred]; nia ..].
  exfalso. rewrite DecimalFacts.unorm_D0 in Hn. unfold Decimal.unorm in Hn.
  destruct (Decimal.nzhead d) eqn:E; [by apply Hz |..];
    pose proof (DecimalFacts.nb_digits_nzhead d) as Hb; rewrite E, Hn in Hb; simpl in Hb; lia.
Qed.

Lemma format_uint_len n k : (n < 10 ^ k)%N -> (0 < k)%N -> slen (format_uint n) <= Z.of_N k.
Proof.
  intros Hn Hk. assert (slen (format_uint n) = Z.of_nat (Decimal.nb_digits (N.to_uint n))) as ->.
  { unfold slen, format_uint. f_equal. induction (N.to_uint n); simpl; congruence. }
  destruct n as [| p]; [simpl; lia |]. simpl N.to_uint.
  pose proof (to_uint_lower p _ eq_refl) as Hl.
  assert (N.of_nat (Nat.pred (Decimal.nb_digits (Pos.to_uint p))) < k)%N; [| lia].
  apply (N.pow_lt_mono_r_iff 10); lia.
Qed.

(** ** [encoding/hex] *)
Definition hex_digit (n : Z) : ascii := if n <? 10 then chr (48 + n) else chr (87 + n).

Definition hex_value (c : ascii) : option Z :=
  if is_digit c then Some (ord c - 48)
  else if in_range "a" "f" c then Some (ord c - 87)
  else if in_range "A" "F" c then Some (ord c - 55)
  else None.

Fixpoint hex_encode (s : bytes) : string :=
  match s with
  | EmptyString => ""
  | String c s' => String (hex_digit (ord c / 16)) (String (hex_digit (ord c mod 16)) (hex_encode s'))
  end.

(** Odd length and non-hexadecimal characters are errors. *)
Fixpoint hex_decode (s : string) : option bytes :=
  match s with
  | EmptyString => Some ""
  | String _ EmptyString => None
  | String a (String b s') =>
      match hex_value a, hex_value b, hex_decode s' with
      | Some x, Some y, Some r => Some (String (chr (16 * x + y)) r)
      | _, _, _ => None
      end
  end.

Lemma in_range_iff lo hi c : in_range lo hi c = true <-> ord lo <= ord c <= ord hi.
Proof. unfold in_range. b2p. lia. Qed.

Lemma in_range_chr lo hi z : 0 <= z < 256 -> in_range lo hi (chr z) = ((ord lo <=? z) && (z <=? ord hi)).
Proof. intros H. unfold in_range. by rewrite ord_chr. Qed.

Lemma hex_value_digit n : 0 <= n < 16 -> hex_value (hex_digit n) = Some n.
Proof.
  intros H. enough (forallb (fun k => hex_value (hex_digit (Z.of_nat k)) == Some (Z.of_nat k)) (seq 0 16) = true) as Hall.
  - rewrite forallb_forall in Hall. specialize (Hall (Z.to_nat n)). rewrite Z2Nat.id in Hall by lia.
    rewrite bool_decide_eq_true in Hall. apply Hall, in_seq. lia.
  - by vm_compute.
Qed.

Lemma hex_digit_lower n : 0 <= n < 16 -> is_lower_hex (hex_digit n) = true.
Proof.
  intros H. unfold is_lower_hex, hex_digit, is_digit. destruct (Z.ltb_spec n 10).
  - rewrite in_range_chr by lia. apply orb_true_iff. left. apply andb_true_iff.
    split; apply Z.leb_le; unfold ord; simpl; lia.
  - rewrite (in_range_chr "a" "f") by lia. apply orb_true_iff. right. apply andb_true_iff.
    split; apply Z.leb_le; unfold ord; simpl; lia.
Qed.

Lemma hex_decode_encode s : hex_decode (hex_encode s) = Some s.
Proof.
  induction s as [| c s IH]; [done |]. simpl. pose proof (ord_range c).
  rewrite !hex_value_digit, IH by (split; [apply Z.div_pos || apply Z.mod_pos_bound | apply Z.div_lt_upper_bound || apply Z.mod_pos_bound]; lia).
  rewrite <- Z.div_mod by lia. by rewrite chr_ord.
Qed.

Lemma hex_encode_len s : slen (hex_encode s) = 2 * slen s.
Proof. unfold slen. induction s as [| c s IH]; [done |]. simpl hex_encode. simpl String.length in *. lia. Qed.

Lemma hex_encode_lower s : str_forall is_lower_hex (hex_encode s) = true.
Proof.
  induction s as [| c s IH]; [done |]. simpl. pose proof (ord_range c).
  rewrite !hex_digit_lower, IH by (split; [apply Z.div_pos || apply Z.mod_pos_bound | apply Z.div_lt_upper_bound || apply Z.mod_pos_bound]; lia).
  done.
Qed.

(** ** [encoding/base64]

    The URL alphabet and the standard one differ in the last two symbols.
    The decoder skips carriage returns and line feeds, as Go's does, rejects
    any other symbol outside the alphabet (padding included: the [Raw]
    encodings), and in [Strict] mode requires the unused bits of the last
    symbol to be zero. *)
Inductive alphabet : Set := UrlAlphabet | StdAlphabet.

Definition b64_sym (k : alphabet) (n : Z) : ascii :=
  if n <? 26 then chr (65 + n)
  else if n <? 52 then chr (71 + n)
  else if n <? 62 then chr (n - 4)
  else if n =? 62 then (match k with UrlAlphabet => "-" | StdAlphabet => "+" end)%char
  else (match k with UrlAlphabet => "_" | StdAlphabet => "/" end)%char.

Definition b64_val (k : alphabet) (c : ascii) : option Z :=
  if is_upper c then Some (ord c - 65)
  else if is_lower c then Some (ord c - 71)
  else if is_digit c then Some (ord c + 4)
  else match k with
       | UrlAlphabet => if c == "-"%char then Some 62 else if c == "_"%char then Some 63 else None
       | StdAlphabet => if c == "+"%char then Some 62 else if c == "/"%char then Some 63 else None
       end.

Fixpoint b64_encode (k : alphabet) (s : bytes) : string :=
  match s with
  | EmptyString => ""
  | String a EmptyString =>
      String (b64_sym k (ord a / 4)) (String (b64_sym k (ord a mod 4 * 16)) "")
  | String a (String b EmptyString) =>
      String (b64_sym k (ord a / 4)) (String (b64_sym k (ord a mod 4 * 16 + ord b / 16))
        (String (b64_sym k (ord b mod 16 * 4)) ""))
  | String a (String b (String c s')) =>
      String (b64_sym k (ord a / 4)) (String (b64_sym k (ord a mod 4 * 16 + ord b / 16))
        (String (b64_sym k (ord b mod 16 * 4 + ord c / 64)) (String (b64_sym k (ord c mod 64))
          (b64_encode k s'))))
  end.

Definition is_newline (c : ascii) : bool := (ord c =? 10) || (ord c =? 13).

Fixpoint b64_values (k : alphabet) (s : string) : option (list Z) :=
  match s with
  | EmptyString => Some []
  | String c s' =>
      if is_newline c then b64_values k s'
      else match b64_val k c, b64_values k s' with
           | Some v, Some vs => Some (v :: vs)
           | _, _ => None
           end
  end.

Fixpoint b64_quanta (strict : bool) (l : list Z) : option bytes :=
  match l with
  | [] => Some ""
  | [_] => None
  | [x; y] => if strict && (y mod 16 != 0) then None else Some (String (chr (x * 4 + y / 16)) "")
  | [x; y; z] =>
      if strict && (z mod 4 != 0) then None
      else Some (String (chr (x * 4 + y / 16)) (String (chr (y mod 16 * 16 + z / 4)) ""))
  | x :: y :: z :: w :: l' =>
      match b64_quanta strict l' with
      | Some r => Some (String (chr (x * 4 + y / 16)) (String (chr (y mod 16 * 16 + z / 4))
                    (String (chr (z mod 4 * 64 + w)) r)))
      | None => None
      end
  end.

Definition b64_decode (k : alphabet) (strict : bool) (s : string) : option bytes :=
  match b64_values k s with Some vs => b64_quanta strict vs | None => None end.

(** Byte strings three characters at a time: the induction of the encoder. *)
Lemma string_ind3 (P : string -> Prop) :
  P "" -> (forall a, P (String a "")) -> (forall a b, P (String a (String b ""))) ->
  (forall a b c s, P s -> P (String a (String b (String c s)))) -> forall s, P s.
Proof.
  intros H0 H1 H2 H3. fix IH 1. intros [| a [| b [| c s]]]; [apply H0 | apply H1 | apply H2 | apply H3, IH].
Qed.

Lemma list_ind4 {A} (P : list A -> Prop) :
  P [] -> (forall a, P [a]) -> (forall a b, P [a; b]) -> (forall a b c, P [a; b; c]) ->
  (forall a b c d l, P l -> P (a :: b :: c :: d :: l)) -> forall l, P l.
Proof.
  intros H0 H1 H2 H3 H4. fix IH 1. intros [| a [| b [| c [| d l]]]];
    [apply H0 | apply H1 | apply H2 | apply H3 | apply H4, IH].
Qed.

Lemma b64_sym_table k :
  forallb (fun n => bool_decide (b64_val k (b64_sym k (Z.of_nat n)) = Some (Z.of_nat n)) &&
                    negb (is_newline (b64_sym k (Z.of_nat n)))) (List.seq 0 64) = true.
Proof. destruct k; vm_compute; reflexivity. Qed.

Lemma b64_val_sym k n : 0 <= n < 64 -> b64_val k (b64_sym k n) = Some n.
Proof.
  intros H. pose proof (b64_sym_table k) as T. rewrite forallb_forall in T.
  specialize (T (Z.to_nat n)). rewrite in_seq, Z2Nat.id in T by lia.
  apply andb_true_iff in T as [T _]; [by apply bool_decide_eq_true in T | lia].
Qed.

Lemma b64_sym_newline k n : 0 <= n < 64 -> is_newline (b64_sym k n) = false.
Proof.
  intros H. pose proof (b64_sym_table k) as T. rewrite forallb_forall in T.
  specialize (T (Z.to_nat n)). rewrite in_seq, Z2Nat.id in T by lia.
  apply andb_true_iff in T as [_ T]; [by apply negb_true_iff in T | lia].
Qed.

Lemma b64_val_table k :
  forallb (fun n => match b64_val k (chr (Z.of_nat n)) with
                    | Some v => (0 <=? v) && (v <? 64) && bool_decide (b64_sym k v = chr (Z.of_nat n))
                    | None => true
                    end) (List.seq 0 256) = true.
Proof. destruct k; vm_compute; reflexivity. Qed.

Lemma b64_sym_val k c v : b64_val k c = Some v -> 0 <= v < 64 /\ b64_sym k v = c.
Proof.
  pose proof (ord_range c). pose proof (b64_val_table k) as T. rewrite forallb_forall in T.
  specialize (T (Z.to_nat (ord c))). rewrite in_seq, Z2Nat.id, chr_ord in T by lia. intros Hv.
  rewrite Hv in T. b2p. lapply T; [| lia]. intros [[? ?] ?]. auto with lia.
Qed.

(** The sextets of an encoded string, as the decoder reads them. *)
Fixpoint sextets (s : bytes) : list Z :=
  match s with
  | EmptyString => []
  | String a EmptyString => [ord a / 4; ord a mod 4 * 16]
  | String a (String b EmptyString) => [ord a / 4; ord a mod 4 * 16 + ord b / 16; ord b mod 16 * 4]
  | String a (String b (String c s')) =>
      ord a / 4 :: (ord a mod 4 * 16 + ord b / 16) :: (ord b mod 16 * 4 + ord c / 64)
        :: ord c mod 64 :: sextets s'
  end.

Ltac byte_arith :=
  repeat match goal with c : ascii |- _ => assert_fails (assert (0 <= ord c < 256) by assumption); pose proof (ord_range c) end;
  Z.div_mod_to_equations; lia.

Lemma b64_values_sym k n s vs :
  0 <= n < 64 -> b64_values k s = Some vs -> b64_values k (String (b64_sym k n) s) = Some (n :: vs).
Proof. intros Hn Hs. simpl. rewrite b64_sym_newline, b64_val_sym, Hs by done. done. Qed.

Lemma b64_values_encode k s : b64_values k (b64_encode k s) = Some (sextets s).
Proof.
  induction s as [| a | a b | a b c s IH] using string_ind3; cbn [b64_encode sextets]; [done |..];
    repeat (apply b64_values_sym; [byte_arith |]); done.
Qed.

Lemma b64_quanta_sextets strict s : b64_quanta strict (sextets s) = Some s.
Proof.
  induction s as [| a | a b | a b c s IH] using string_ind3; cbn [sextets b64_quanta]; [done |..].
  - rewrite (bool_decide_true (_ = 0)) by byte_arith. rewrite andb_false_r.
    do 2 f_equal. rewrite <- (chr_ord a) at 3. f_equal. byte_arith.
  - rewrite (bool_decide_true (_ = 0)) by byte_arith. rewrite andb_false_r.
    do 2 f_equal; [rewrite <- (chr_ord a) at 3; f_equal; byte_arith |].
    f_equal. rewrite <- (chr_ord b) at 3. f_equal. byte_arith.
  - rewrite IH. do 2 f_equal; [rewrite <- (chr_ord a) at 3; f_equal; byte_arith |].
    f_equal; [rewrite <- (chr_ord b) at 3; f_equal; byte_arith |].
    f_equal. rewrite <- (chr_ord c) at 3. f_equal. byte_arith.
Qed.

Lemma b64_decode_encode k strict s : b64_decode k strict (b64_encode k s) = Some s.
Proof. unfold b64_decode. by rewrite b64_values_encode, b64_quanta_sextets. Qed.

Lemma b64_quanta_length strict l r :
  b64_quanta strict l = Some r -> Z.of_nat (length l) = (4 * slen r + 2) / 3.
Proof.
  revert r. induction l as [| x | x y | x y z | x y z w l IH] using list_ind4;
    intros r; cbn [b64_quanta].
  - intros [= <-]. done.
  - done.
  - destruct (strict && _); [done |]. intros [= <-]. done.
  - destruct (strict && _); [done |]. intros [= <-]. done.
  - destruct (b64_quanta strict l) as [r' |] eqn:E; [| done]. intros [= <-].
    specialize (IH r' eq_refl). unfold slen in *. cbn [length String.length] in *.
    Z.div_mod_to_equations. lia.
Qed.

Lemma b64_values_length k s vs :
  b64_values k s = Some vs -> Z.of_nat (length vs) <= slen s.
Proof.
  revert vs. unfold slen. induction s as [| c s IH]; simpl; intros vs; [intros [= <-]; done |].
  destruct (is_newline c); [intros H; specialize (IH _ H); lia |].
  destruct (b64_val k c), (b64_values k s) as [vs' |]; try done. intros [= <-].
  specialize (IH _ eq_refl). simpl. lia.
Qed.

Lemma b64_values_all k s vs :
  b64_values k s = Some vs -> Z.of_nat (length vs) = slen s ->
  s = String.string_of_list_ascii (List.map (b64_sym k) vs) /\ Forall (fun v => 0 <= v < 64) vs.
Proof.
  revert vs. unfold slen. induction s as [| c s IH]; simpl; intros vs; [intros [= <-]; done |].
  destruct (is_newline c).
  - intros H Hl. apply b64_values_length in H. unfold slen in H. lia.
  - destruct (b64_val k c) as [v |] eqn:Ev; [| done].
    destruct (b64_values k s) as [vs' |]; [| done]. intros [= <-] Hl. simpl in *.
    destruct (IH vs' eq_refl ltac:(lia)) as [-> Hf]. apply b64_sym_val in Ev as [? <-].
    split; [done | by constructor].
Qed.

Lemma b64_sextets_quanta l r :
  Forall (fun v => 0 <= v < 64) l -> b64_quanta true l = Some r -> sextets r = l.
Proof.
  revert r. induction l as [| x | x y | x y z | x y z w l IH] using list_ind4;
    intros r Hf; cbn [b64_quanta]; repeat setoid_rewrite Forall_cons in Hf; destruct_and?.
  - intros [= <-]. done.
  - done.
  - case_bool_decide as E; [| done]. intros [= <-]. cbn [sextets andb negb].
    rewrite ord_chr by (Z.div_mod_to_equations; lia). do 2 f_equal; [| f_equal]; Z.div_mod_to_equations; lia.
  - case_bool_decide as E; [| done]. intros [= <-]. cbn [sextets andb negb].
    rewrite !ord_chr by (Z.div_mod_to_equations; lia).
    f_equal; [| f_equal; [| f_equal]]; Z.div_mod_to_equations; lia.
  - destruct (b64_quanta true l) as [r' |] eqn:E; [| done]. intros [= <-]. cbn [sextets].
    rewrite !ord_chr, (IH r') by (done || Z.div_mod_to_equations; lia).
    f_equal; [| f_equal; [| f_equal; [| f_equal]]]; Z.div_mod_to_equations; lia.
Qed.

Lemma b64_encode_sextets k s : b64_encode k s = String.string_of_list_ascii (List.map (b64_sym k) (sextets s)).
Proof.
  induction s as [| a | a b | a b c s IH] using string_ind3; cbn [b64_encode sextets List.map String.string_of_list_ascii]; congruence.
Qed.

Lemma b64_encode_len k s : slen (b64_encode k s) = (4 * slen s + 2) / 3.
Proof.
  unfold slen. induction s as [| a | a b | a b c s IH] using string_ind3; [done.. |].
  cbn [b64_encode String.length] in *. Z.div_mod_to_equations. lia.
Qed.

(** Strict decoding is injective on inputs of full length: the only such
    spelling of [r] is its encoding. *)
Lemma b64_encode_decode k s r :
  b64_decode k true s = Some r -> slen s = (4 * slen r + 2) / 3 -> s = b64_encode k r.
Proof.
  unfold b64_decode. destruct (b64_values k s) as [vs |] eqn:E; [| done]. intros Hq Hl.
  apply b64_values_all in E as [-> Hf]; [| by rewrite (b64_quanta_length _ _ _ Hq)].
  by rewrite b64_encode_sextets, (b64_sextets_quanta _ _ Hf Hq).
Qed.

(** The characters of a URL-safe encoding. *)
Definition is_url_char (c : ascii) : bool :=
  is_upper c || is_lower c || is_digit c || (c == "_"%char) || (c == "-"%char).

Lemma b64_sym_url n : 0 <= n < 64 -> is_url_char (b64_sym UrlAlphabet n) = true.
Proof.
  intros H. assert (forallb (fun i => is_url_char (b64_sym UrlAlphabet (Z.of_nat i))) (List.seq 0 64) = true) as T by (vm_compute; done).
  rewrite forallb_forall in T. specialize (T (Z.to_nat n)). rewrite in_seq, Z2Nat.id in T by lia. apply T. lia.
Qed.

Lemma b64_encode_url s : str_forall is_url_char (b64_encode UrlAlphabet s) = true.
Proof.
  induction s as [| a | a b | a b c s IH] using string_ind3; cbn [b64_encode str_forall]; [done |..];
    rewrite ?IH; rewrite !b64_sym_url by byte_arith; done.
Qed.

Lemma b64_sym_std n : 0 <= n < 64 -> (b64_sym StdAlphabet n != "$"%char) = true.
Proof.
  intros H. assert (forallb (fun i => b64_sym StdAlphabet (Z.of_nat i) != "$"%char) (List.seq 0 64) = true) as T by (vm_compute; done).
  rewrite forallb_forall in T. specialize (T (Z.to_nat n)). rewrite in_seq, Z2Nat.id in T by lia. apply T. lia.
Qed.

Lemma b64_encode_no_dollar s : no_char "$"%char (b64_encode StdAlphabet s) = true.
Proof.
  unfold no_char.
  induction s as [| a | a b | a b c s IH] using string_ind3; cbn [b64_encode str_forall]; [done |..];
    rewrite ?IH; rewrite !b64_sym_std by byte_arith; done.
Qed.

(** ** [strings.TrimSpace]

    The byte sequences of the code points [unicode.IsSpace] accepts; cutting
    one as a prefix or suffix is what [TrimFunc] does with the first or last
    rune. *)
Definition byte_string (l : list Z) : string := String.string_of_list_ascii (List.map chr l).

Definition space_seqs : list string :=
  List.map byte_string
    ([[9]; [10]; [11]; [12]; [13]; [32]; [0xC2; 0x85]; [0xC2; 0xA0]; [0xE1; 0x9A; 0x80];
      [0xE2; 0x80; 0xA8]; [0xE2; 0x80; 0xA9]; [0xE2; 0x80; 0xAF]; [0xE2; 0x81; 0x9F]; [0xE3; 0x80; 0x80]] ++
     List.map (fun i => [0xE2; 0x80; 0x80 + i]) [0; 1; 2; 3; 4; 5; 6; 7; 8; 9; 10]).

Fixpoint first_cut (seqs : list string) (s : string) : option string :=
  match seqs with
  | [] => None
  | p :: rest => match cut_prefix p s with Some r => Some r | None => first_cut rest s end
  end.

Fixpoint trim_prefixes (fuel : nat) (seqs : list string) (s : string) : string :=
  match fuel with
  | O => s
  | S fuel' => match first_cut seqs s with Some r => trim_prefixes fuel' seqs r | None => s end
  end.

Definition str_rev (s : string) : string :=
  String.string_of_list_ascii (rev (String.list_ascii_of_string s)).

Definition trim_left (s : string) : string := trim_prefixes (String.length s) space_seqs s.
Definition trim_right (s : string) : string :=
  str_rev (trim_prefixes (String.length s) (List.map str_rev space_seqs) (str_rev s)).
Definition TrimSpace (s : string) : string := trim_right (trim_left s).

Example TrimSpace_ex : TrimSpace "  a b	 " = "a b" /\ TrimSpace "   " = "".
Proof. split; reflexivity. Qed.

(** ** [strings.ToLower]

    The ASCII fast path of the standard library is spelled out; the Unicode
    case tables it falls back to on other strings are a parameter. *)
Class UnicodeLower := unicode_lower : string -> string.

Definition is_ascii (c : ascii) : bool := ord c <? 128.
Definition lower_char (c : ascii) : ascii := if is_upper c then chr (ord c + 32) else c.
Fixpoint str_map (f : ascii -> ascii) (s : string) : string :=
  match s with EmptyString => "" | String c s' => String (f c) (str_map f s') end.

Definition ToLower `{UnicodeLower} (s : string) : string :=
  if str_forall is_ascii s then str_map lower_char s else unicode_lower s.

(** ** [strings.HasSuffix], [Contains], [ContainsAny], [ReplaceAll] of a byte *)
Definition has_suffix (p s : string) : bool := has_prefix (str_rev p) (str_rev s).
Fixpoint contains (sub s : string) : bool :=
  has_prefix sub s || match s with EmptyString => false | String _ s' => contains sub s' end.
Definition contains_any (s chars : string) : bool :=
  str_exists (fun c => str_exists (fun d => c == d) chars) s.
Definition replace_byte (a b : ascii) : string -> string := str_map (fun c => if c == a then b else c).

(** [s[:n]] on bytes. *)
Definition str_take (n : nat) (s : string) : string := String.substring 0 n s.

Lemma substring_length n m s : (String.length (String.substring n m s) <= String.length s - n)%nat /\
  (String.length (String.substring n m s) <= m)%nat.
Proof.
  revert n m. induction s as [| c s IH]; intros [| n] [| m]; simpl; try lia.
  - specialize (IH O m). lia.
  - specialize (IH n O). lia.
  - specialize (IH n (S m)). lia.
Qed.

(** * UTF-8 ([unicode/utf8])

    The decoding of one rune at the head of a byte string, the encoding of a
    rune, and the repair of invalid text that [encoding/json] does. *)

(** [utf8.DecodeRuneInString]: the width of the rune at the head, or [None]
    where Go reports [RuneError] of width one. *)
Definition byte_range (lo hi : Z) (c : ascii) : bool := (lo <=? ord c) && (ord c <=? hi).
Definition continuation (c : ascii) : bool := byte_range 0x80 0xBF c.

Definition rune_width (s : string) : option nat :=
  match s with
  | EmptyString => None
  | String a r =>
      if byte_range 0 0x7F a then Some 1%nat else
      match r with
      | EmptyString => None
      | String b r =>
          if byte_range 0xC2 0xDF a then if continuation b then Some 2%nat else None else
          match r with
          | EmptyString => None
          | String c r =>
              let second :=
                if ord a =? 0xE0 then byte_range 0xA0 0xBF b else if ord a =? 0xED then byte_range 0x80 0x9F b
                else if ord a =? 0xF0 then byte_range 0x90 0xBF b else if ord a =? 0xF4 then byte_range 0x80 0x8F b
                else continuation b in
              if byte_range 0xE0 0xEF a then if second && continuation c then Some 3%nat else None else
              match r with
              | String d _ => if byte_range 0xF0 0xF4 a && second && continuation c && continuation d then Some 4%nat else None
              | EmptyString => None
              end
          end
      end
  end.

Definition replacement : string := byte_string [0xEF; 0xBF; 0xBD].
(** [encoding/json] writes each invalid byte of a string as U+FFFD. *)
Fixpoint coerce_utf8 (fuel : nat) (s : string) : string :=
  match fuel, s with
  | O, _ | _, EmptyString => ""
  | S fuel', String _ s' =>
      match rune_width s with
      | Some w => str_take w s +:+ coerce_utf8 fuel' (String.substring w (String.length s - w) s)
      | None => replacement +:+ coerce_utf8 fuel' s'
      end
  end.
Definition json_text (s : string) : string := coerce_utf8 (String.length s) s.


(** [utf8.AppendRune] for a scalar value. *)
Definition utf8_encode (r : Z) : string :=
  if r <? 0x80 then byte_string [r]
  else if r <? 0x800 then byte_string [0xC0 + r / 64; 0x80 + r mod 64]
  else if r <? 0x10000 then byte_string [0xE0 + r / 4096; 0x80 + (r / 64) mod 64; 0x80 + r mod 64]
  else byte_string [0xF0 + r / 262144; 0x80 + (r / 4096) mod 64; 0x80 + (r / 64) mod 64; 0x80 + r mod 64].

(** [utf8.ValidString] *)
Fixpoint utf8_runs (fuel : nat) (s : string) : bool :=
  match s, fuel with
  | EmptyString, _ => true
  | String _ _, O => false
  | String _ _, S fuel' =>
      match rune_width s with
      | Some w => utf8_runs fuel' (String.substring w (String.length s - w) s)
      | None => false
      end
  end.
Definition ValidString (s : string) : bool := utf8_runs (String.length s) s.

(** The runes of a text, each as its bytes; an invalid byte is U+FFFD. *)
Fixpoint runes_of (fuel : nat) (s : string) : list string :=
  match fuel, s with
  | S fuel', String _ s' =>
      match rune_width s with
      | Some w => str_take w s :: runes_of fuel' (String.substring w (String.length s - w) s)
      | None => replacement :: runes_of fuel' s'
      end
  | _, _ => []
  end.
(** [len([]rune(s))] *)
Definition rune_count (s : string) : Z := Z.of_nat (length (runes_of (String.length s) s)).
