(* ===== verification/GuestIdentity.v ===== *)
(** * Guest OS identities ([internal/guestidentity/session.go])

    The validators shared by the store and the session protocol: which
    UID/SID pairs name a managed account, and which strings name an
    interactive logon session.  The theorems give each accepted string its
    canonical parse. *)
From stdpp Require Import base strings list.
From Stdlib Require Import ZArith Lia Ascii.
From S2P Require Import Prelude GoStrings.

Local Open Scope string_scope.
Local Open Scope Z_scope.

(** [^(vca|vcw)[a-f0-9]{12}$] *)
Definition managedUser (s : string) : bool :=
  match_class "vca" is_lower_hex 12 12 s || match_class "vcw" is_lower_hex 12 12 s.

(** [^[a-f0-9]{64}$] *)
Definition instance_re (s : string) : bool := match_class "" is_lower_hex 64 64 s.

(** [^:[0-9]+(\.[0-9]+)?$] *)
Definition linuxDisplay (s : string) : bool :=
  match cut_prefix ":" s with
  | None => false
  | Some rest =>
      let '(major, minor, found) := cut "." rest in
      (major != "") && str_forall is_digit major &&
      (negb found || ((minor != "") && str_forall is_digit minor))
  end.

(** [strconv.ParseUint] followed by the comparison with [FormatUint]: only
    the canonical spelling passes. *)
Definition parse_canonical (bits : N) (s : string) : option N :=
  match parse_uint bits s with
  | Some n => if format_uint n == s then Some n else None
  | None => None
  end.

Fixpoint valid_sid_parts (index : nat) (parts : list string) : bool :=
  match parts with
  | [] => true
  | part :: rest =>
      match parse_canonical 32 part with
      | Some value => negb (bool_decide (index = 3%nat) && (value <? 1000)%N) && valid_sid_parts (S index) rest
      | None => false
      end
  end.

Definition ValidWindowsAccountSID (sid : string) : bool :=
  if 56 <? slen sid then false else
  let parts := split "-" sid in
  if negb (bool_decide (length parts = 8%nat)) || (join "-" (take 4 parts) != "S-1-5-21") then false
  else valid_sid_parts 0 (drop 4 parts).

(** [strconv.ParseUint(s, 16, 64)] and [fmt.Sprintf("%016x", n)]. *)
Fixpoint parse_hex_acc (acc : Z) (s : string) : option Z :=
  match s with
  | EmptyString => Some acc
  | String c s' => match hex_value c with Some v => parse_hex_acc (acc * 16 + v) s' | None => None end
  end.

Definition parse_hex64 (s : string) : option Z :=
  if s == "" then None else
  match parse_hex_acc 0 s with
  | Some n => if n <? 2 ^ 64 then Some n else None
  | None => None
  end.

Fixpoint hex_fixed (w : nat) (n : Z) : string :=
  match w with
  | O => ""
  | S w' => String (hex_digit (n / 16 ^ Z.of_nat w')) (hex_fixed w' (n mod 16 ^ Z.of_nat w'))
  end.

Definition ValidWindowsLogonBinding (sessionID : string) : bool :=
  if 128 <? slen sessionID then false else
  match cut_prefix "windows:" sessionID with
  | None => false
  | Some rest =>
      match split ":" rest with
      | [p0; p1] =>
          if negb (slen p1 =? 16) || (p1 == "0000000000000000") then false else
          match parse_canonical 32 p0 with
          | Some id =>
              if (id =? 0)%N then false else
              match parse_hex64 p1 with
              | Some luid => hex_fixed 16 luid == p1
              | None => false
              end
          | None => false
          end
      | _ => false
      end
  end.

Definition ValidAccount (platform : string) (uid : Z) (sid : string) : bool :=
  if platform == "linux" then (1000 <=? uid) && (sid == "")
  else if platform == "windows" then (uid =? 0) && ValidWindowsAccountSID sid
  else false.

Definition ValidSession (platform username : string) (uid : Z) (sid sessionID instanceID : string) : bool :=
  if negb (managedUser username) || negb (instance_re instanceID) ||
     negb (ValidAccount platform uid sid) || (128 <? slen sessionID) then false
  else if platform == "windows" then ValidWindowsLogonBinding sessionID
  else match cut_prefix ("linux:" +:+ itoa uid +:+ ":") sessionID with
       | None => false
       | Some rest =>
           let '(pid, display, found) := cut ":" rest in
           match parse_canonical 32 pid with
           | Some id => found && (0 <? id)%N && (slen display <=? 16) && linuxDisplay display
           | None => false
           end
       end.

(** ** Canonical forms *)
Lemma parse_canonical_spec bits s n :
  parse_canonical bits s = Some n <-> (n < 2 ^ bits)%N /\ s = format_uint n.
Proof.
  unfold parse_canonical. split.
  - destruct (parse_uint bits s) as [m |] eqn:E; [| done]. case_bool_decide as H; [| done].
    intros [= <-]. split; [by eapply parse_uint_bound | done].
  - intros [Hn ->]. rewrite parse_format_uint by done. by rewrite bool_decide_true.
Qed.

Lemma parse_canonical_format bits n : (n < 2 ^ bits)%N -> parse_canonical bits (format_uint n) = Some n.
Proof. intros. by apply parse_canonical_spec. Qed.

Lemma format_uint_no_char c n : is_digit c = false -> no_char c (format_uint n) = true.
Proof. intros. apply digits_no_char; [done | apply format_uint_digits]. Qed.

(** The four variable sub-authorities of a domain account SID. *)
Definition sid_string (a b c rid : N) : string :=
  join "-" ["S"; "1"; "5"; "21"; format_uint a; format_uint b; format_uint c; format_uint rid].

Lemma sid_string_split a b c rid :
  split "-" (sid_string a b c rid) =
  ["S"; "1"; "5"; "21"; format_uint a; format_uint b; format_uint c; format_uint rid].
Proof.
  apply split_join; [done |]. repeat (apply Forall_cons; split; [first [reflexivity | by apply format_uint_no_char] |]).
  done.
Qed.

Lemma sid_string_len a b c rid :
  (a < 2 ^ 32)%N -> (b < 2 ^ 32)%N -> (c < 2 ^ 32)%N -> (rid < 2 ^ 32)%N -> slen (sid_string a b c rid) <= 56.
Proof.
  assert (forall n, (n < 2 ^ 32)%N -> slen (format_uint n) <= 10) as L.
  { intros n Hn. apply (format_uint_len n 10); lia. }
  intros Ha%L Hb%L Hc%L Hr%L. unfold sid_string. cbn [join].
  repeat (rewrite slen_app || rewrite slen_String). change (slen "") with 0. lia.
Qed.

(** The SID validator accepts exactly the canonical spellings
    [S-1-5-21-a-b-c-rid] with 32-bit sub-authorities and a relative identifier
    of at least 1000: no leading zeros, no built-in account, nothing else. *)
Theorem ValidWindowsAccountSID_spec sid :
  ValidWindowsAccountSID sid = true <->
  exists a b c rid, (a < 2 ^ 32)%N /\ (b < 2 ^ 32)%N /\ (c < 2 ^ 32)%N /\ (1000 <= rid < 2 ^ 32)%N /\
    sid = sid_string a b c rid.
Proof.
  unfold ValidWindowsAccountSID. split.
  - destruct (56 <? slen sid); [done |]. destruct (_ || _) eqn:E; [done |]. b2p.
    destruct E as [Hlen Hj].
    destruct (split "-" sid) as [| p1 [| p2 [| p3 [| p4 [| q1 [| q2 [| q3 [| q4 [|]]]]]]]]] eqn:Es; try done.
    intros Hp. cbn [drop valid_sid_parts] in Hp.
    destruct (parse_canonical 32 q1) as [a |] eqn:E1; [| done].
    destruct (parse_canonical 32 q2) as [b |] eqn:E2; [| done].
    destruct (parse_canonical 32 q3) as [c |] eqn:E3; [| done].
    destruct (parse_canonical 32 q4) as [rid |] eqn:E4; [| done].
    apply parse_canonical_spec in E1 as [? ->], E2 as [? ->], E3 as [? ->], E4 as [? ->].
    exists a, b, c, rid. simpl in Hp. rewrite andb_true_r, negb_true_iff in Hp.
    apply N.ltb_ge in Hp. repeat split; try done.
    rewrite <- (join_split "-" sid), Es. unfold sid_string.
    apply (f_equal (split "-")) in Hj. cbn [take] in Hj.
    rewrite split_join in Hj; [by injection Hj as -> -> -> -> | done |].
    assert (Forall (fun w => no_char "-" w = true) (split "-" sid)) as Hf.
    { apply List.Forall_forall. intros w. apply split_no_char. }
    rewrite Es in Hf. repeat (apply Forall_cons in Hf as [? Hf]). by repeat constructor.
  - intros (a & b & c & rid & Ha & Hb & Hc & [Hr1 Hr2] & ->).
    pose proof (sid_string_len a b c rid Ha Hb Hc Hr2).
    destruct (Z.ltb_spec 56 (slen (sid_string a b c rid))); [lia |].
    rewrite sid_string_split. cbn [length take drop valid_sid_parts].
    rewrite !parse_canonical_format by done.
    rewrite bool_decide_true, (bool_decide_true (join _ _ = _)) by done. simpl.
    apply N.ltb_ge in Hr1 as ->. done.
Qed.

(** ** Logon sessions *)
Lemma hex_fixed_len w n : slen (hex_fixed w n) = Z.of_nat w.
Proof. revert n. induction w as [| w IH]; intros n; [done |]. cbn [hex_fixed]. rewrite slen_String, IH. lia. Qed.

Lemma parse_hex_fixed w n acc :
  0 <= n < 16 ^ Z.of_nat w -> parse_hex_acc acc (hex_fixed w n) = Some (acc * 16 ^ Z.of_nat w + n).
Proof.
  revert n acc. induction w as [| w IH]; intros n acc H.
  - simpl in *. f_equal. lia.
  - rewrite Nat2Z.inj_succ, Z.pow_succ_r in * by lia. cbn [hex_fixed parse_hex_acc].
    assert (0 < 16 ^ Z.of_nat w) by (apply Z.pow_pos_nonneg; lia).
    rewrite hex_value_digit by (split; [apply Z.div_pos | apply Z.div_lt_upper_bound]; lia).
    rewrite IH by (apply Z.mod_pos_bound; lia). f_equal.
    rewrite (Z.div_mod n (16 ^ Z.of_nat w)) at 3 by lia. ring.
Qed.

Lemma hex_fixed_inj w n m :
  0 <= n < 16 ^ Z.of_nat w -> 0 <= m < 16 ^ Z.of_nat w -> hex_fixed w n = hex_fixed w m -> n = m.
Proof.
  intros Hn Hm E. apply (f_equal (parse_hex_acc 0)) in E. rewrite !parse_hex_fixed in E by done.
  injection E. lia.
Qed.

Lemma hex_value_range c v : hex_value c = Some v -> 0 <= v < 16.
Proof.
  unfold hex_value, is_digit. intros H.
  repeat match type of H with
  | (if ?b then _ else _) = _ => destruct b eqn:E; [injection H as <-; apply in_range_iff in E; unfold ord in *; simpl in *; lia | clear E]
  end. done.
Qed.

(** The hexadecimal parser never yields a negative number. *)
Lemma parse_hex_nonneg s acc n : 0 <= acc -> parse_hex_acc acc s = Some n -> 0 <= n.
Proof.
  revert acc. induction s as [| c s IH]; intros acc Ha; simpl; [intros [= <-]; done |].
  destruct (hex_value c) as [v |] eqn:E; [| done]. apply IH. apply hex_value_range in E. lia.
Qed.

Lemma parse_hex64_range s n : parse_hex64 s = Some n -> 0 <= n < 2 ^ 64.
Proof.
  unfold parse_hex64. case_bool_decide; [done |]. destruct (parse_hex_acc 0 s) as [m |] eqn:E; [| done].
  destruct (Z.ltb_spec m (2 ^ 64)); [| done]. intros [= <-]. apply parse_hex_nonneg in E; lia.
Qed.

Lemma parse_hex64_fixed n : 0 <= n < 2 ^ 64 -> parse_hex64 (hex_fixed 16 n) = Some n.
Proof.
  intros H. unfold parse_hex64.
  rewrite bool_decide_false by (intros E%(f_equal slen); rewrite hex_fixed_len in E; done).
  rewrite parse_hex_fixed by (simpl; lia). rewrite Z.mul_0_l, Z.add_0_l.
  by destruct (Z.ltb_spec n (2 ^ 64)); [| lia].
Qed.

Lemma hex_fixed_no_char c w n :
  is_lower_hex c = false -> 0 <= n < 16 ^ Z.of_nat w -> no_char c (hex_fixed w n) = true.
Proof.
  intros Hc. unfold no_char. revert n. induction w as [| w IH]; intros n H; [done |].
  rewrite Nat2Z.inj_succ, Z.pow_succ_r in * by lia. cbn [hex_fixed str_forall].
  assert (0 < 16 ^ Z.of_nat w) by (apply Z.pow_pos_nonneg; lia).
  rewrite IH by (apply Z.mod_pos_bound; lia). rewrite andb_true_r, negb_true_iff, bool_decide_eq_false.
  intros <-. rewrite hex_digit_lower in Hc; [done |].
  split; [apply Z.div_pos | apply Z.div_lt_upper_bound]; lia.
Qed.

(** A Windows logon binding is accepted exactly when it is
    [windows:<session>:<luid>] with a canonical non-zero 32-bit session id and
    a non-zero 64-bit LUID in sixteen lower-case digits: the binding
    determines both numbers. *)
Theorem ValidWindowsLogonBinding_spec s :
  ValidWindowsLogonBinding s = true <->
  exists id luid, (0 < id < 2 ^ 32)%N /\ 0 < luid < 2 ^ 64 /\
    s = "windows:" +:+ format_uint id +:+ ":" +:+ hex_fixed 16 luid.
Proof.
  unfold ValidWindowsLogonBinding. split.
  - destruct (128 <? slen s); [done |]. destruct (cut_prefix "windows:" s) as [rest |] eqn:Ec; [| done].
    apply cut_prefix_some in Ec as ->. pose proof (join_split ":" rest) as Hj.
    destruct (split ":" rest) as [| p0 [| p1 [|]]]; try done. destruct (_ || _) eqn:E0; [done |]. b2p.
    destruct E0 as [Hl Hz].
    destruct (parse_canonical 32 p0) as [id |] eqn:Ei; [| done]. destruct (N.eqb_spec id 0); [done |].
    destruct (parse_hex64 p1) as [luid |] eqn:El; [| done]. intros Hp%bool_decide_eq_true.
    apply parse_canonical_spec in Ei as [? ->]. apply parse_hex64_range in El.
    exists id, luid. split; [lia |]. split; [| rewrite <- Hj, Hp; done].
    assert (luid <> 0); [| lia]. intros ->. by apply Hz.
  - intros (id & luid & Hid & Hl & ->).
    assert (slen (format_uint id) <= 10) by (apply (format_uint_len id 10); lia).
    match goal with |- context [128 <? ?n] => assert (n <= 128) as Hlen end.
    { repeat (rewrite slen_app || rewrite slen_String). rewrite hex_fixed_len. change (slen "") with 0. lia. }
    destruct (Z.ltb_spec 128 (slen ("windows:" +:+ format_uint id +:+ ":" +:+ hex_fixed 16 luid))); [lia |].
    rewrite (proj2 (cut_prefix_some _ _ _) eq_refl).
    change (":" +:+ hex_fixed 16 luid) with (String ":" (hex_fixed 16 luid)).
    rewrite split_word_sep by (by apply format_uint_no_char).
    rewrite split_word by (apply hex_fixed_no_char; [done | simpl; lia]).
    rewrite hex_fixed_len, (bool_decide_false (_ = "0000000000000000")).
    + rewrite parse_canonical_format by lia. destruct (N.eqb_spec id 0); [lia |].
      rewrite parse_hex64_fixed by lia. simpl. by apply bool_decide_eq_true.
    + change "0000000000000000" with (hex_fixed 16 0). intros E%hex_fixed_inj; simpl; lia.
Qed.

(** An accepted Linux session id is
    [linux:<uid>:<pid>:<display>] for the very UID of the account, with a
    canonical non-zero 32-bit pid and a short X display: a session id cannot
    be presented under another account's UID. *)
Theorem ValidSession_linux_spec username uid sid s inst :
  ValidSession "linux" username uid sid s inst = true <->
  managedUser username = true /\ instance_re inst = true /\ 1000 <= uid /\ sid = "" /\ slen s <= 128 /\
  exists pid display, (0 < pid < 2 ^ 32)%N /\ slen display <= 16 /\ linuxDisplay display = true /\
    s = ("linux:" +:+ itoa uid +:+ ":") +:+ format_uint pid +:+ String ":" display.
Proof.
  unfold ValidSession, ValidAccount. rewrite !(bool_decide_true ("linux" = "linux")) by done.
  rewrite (bool_decide_false ("linux" = "windows")) by done. split.
  - destruct (_ || _) eqn:E0; [done |]. b2p. destruct_and?.
    destruct (cut_prefix _ s) as [rest |] eqn:Ec; [| done]. apply cut_prefix_some in Ec as ->.
    destruct (cut ":" rest) as [[pid display] found] eqn:Ecut.
    destruct (parse_canonical 32 pid) as [id |] eqn:Ei; [| done]. intros Hok. b2p.
    apply parse_canonical_spec in Ei as [? ->]. destruct_and?. destruct found; [| done].
    apply cut_found in Ecut as [-> _]. repeat (split; [done || lia |]).
    exists id, display. repeat split; try done; try lia.
    match goal with Hn : (_ <? _)%N = true |- _ => apply N.ltb_lt in Hn end. lia.
  - intros (Hu & Hi & Hid & -> & Hl & pid & display & Hp & Hd & Hdisp & ->).
    rewrite Hu, Hi. destruct (Z.leb_spec 1000 uid); [| lia]. rewrite (bool_decide_true ("" = "")) by done.
    match goal with |- context [128 <? ?n] => destruct (Z.ltb_spec 128 n); [lia |] end.
    cbn [andb orb negb]. rewrite (proj2 (cut_prefix_some _ _ _) eq_refl).
    rewrite cut_word by (by apply format_uint_no_char). rewrite parse_canonical_format by lia.
    rewrite Hdisp. destruct (Z.leb_spec (slen display) 16); [| lia]. b2p. repeat split.
    apply N.ltb_lt. lia.
Qed.
