(* ===== verification/Auth.v ===== *)
(** * Passwords and tokens ([internal/auth/password.go])

    The encoded Argon2id password format, opaque tokens and bearer headers.
    Argon2 itself (golang.org/x/crypto) and SHA-256 are parameters. *)
From stdpp Require Import base strings list.
From Stdlib Require Import ZArith Lia Ascii.
From S2P Require Import Prelude GoStrings.

Local Open Scope string_scope.
Local Open Scope list_scope.
Local Open Scope Z_scope.

(** [crypto/sha256], from the Go standard library. *)
Class Sha256 := sha256 : bytes -> bytes.

(** [argon2.IDKey(password, salt, time, memory, threads, keyLen)] and
    [argon2.Version]. *)
Class Argon2 := {
  IDKey : bytes -> bytes -> Z -> Z -> Z -> Z -> bytes;
  argon2_version : Z
}.

(** ** Tokens *)

(** [random] is what [crypto/rand] delivered. *)
Definition OpaqueToken (random : bytes) : string := b64_encode UrlAlphabet random.
Definition TokenDigest `{Sha256} (token : string) : bytes := sha256 token.
Definition ConstantTimeEqual (left right : string) : bool :=
  if negb (slen left =? slen right) then false else left == right.

(** ** Number scanning *)

(** [strconv.Atoi] on a 64-bit platform. *)
Definition Atoi (s : string) : option Z :=
  let '(neg, digits) := match s with
    | String c s' => if c == "-"%char then (true, s') else if c == "+"%char then (false, s') else (false, s)
    | EmptyString => (false, s)
    end in
  match parse_uint 64 digits with
  | Some n => let z := Z.of_N n in
      if neg then if z <=? 2 ^ 63 then Some (- z) else None
      else if z <? 2 ^ 63 then Some z else None
  | None => None
  end.

Definition newline : ascii := chr 10.

(** [fmt]'s [SkipSpace] outside of [Scanln]: a bare newline is an error, a
    carriage return and newline pair is a space. *)
Fixpoint skip_space (fuel : nat) (s : string) : option string :=
  match fuel with
  | O => Some s
  | S fuel' =>
      match cut_prefix (byte_string [13; 10]) s with
      | Some r => skip_space fuel' r
      | None =>
          match s with
          | String c _ => if c == newline then None else
              match first_cut space_seqs s with Some r => skip_space fuel' r | None => Some s end
          | EmptyString => Some s
          end
      end
  end.

Fixpoint span_digits (s : string) : string * string :=
  match s with
  | String c s' => if is_digit c then let '(d, r) := span_digits s' in (String c d, r) else ("", s)
  | EmptyString => ("", "")
  end.

(** One [%d] of [fmt.Sscanf] into an unsigned integer of [bits] bits. *)
Definition scan_uint (bits : N) (s : string) : option (Z * string) :=
  match skip_space (String.length s) s with
  | None => None
  | Some s' =>
      let '(d, rest) := span_digits s' in
      match parse_uint 64 d with
      | Some n => if (n <? 2 ^ bits)%N then Some (Z.of_N n, rest) else None
      | None => None
      end
  end.

(** [fmt.Sscanf(s, "m=%d,t=%d,p=%d", &memory, &iterations, &parallelism)];
    input after the last field is ignored. *)
Definition scan_parameters (s : string) : option (Z * Z * Z) :=
  match cut_prefix "m=" s with
  | None => None
  | Some s =>
      match scan_uint 32 s with
      | None => None
      | Some (memory, s) =>
          match cut_prefix ",t=" s with
          | None => None
          | Some s =>
              match scan_uint 32 s with
              | None => None
              | Some (iterations, s) =>
                  match cut_prefix ",p=" s with
                  | None => None
                  | Some s => match scan_uint 8 s with
                              | None => None
                              | Some (parallelism, _) => Some (memory, iterations, parallelism)
                              end
                  end
              end
          end
      end
  end.

(** ** Passwords *)
Definition argonTime : Z := 3.
Definition argonMemory : Z := 64 * 1024.
Definition argonThreads : Z := 4.
Definition argonKeyLen : Z := 32.

Definition encode_hash (version memory time threads : Z) (salt hash : bytes) : string :=
  "$argon2id$v=" +:+ itoa version +:+ "$m=" +:+ itoa memory +:+ ",t=" +:+ itoa time +:+ ",p=" +:+ itoa threads +:+
  "$" +:+ b64_encode StdAlphabet salt +:+ "$" +:+ b64_encode StdAlphabet hash.

(** [salt] is what [crypto/rand] delivered. *)
Definition HashPassword `{Argon2} (salt : bytes) (password : string) : string :=
  encode_hash argon2_version argonMemory argonTime argonThreads salt
    (IDKey password salt argonTime argonMemory argonThreads argonKeyLen).

Definition trim_prefix (p s : string) : string := match cut_prefix p s with Some r => r | None => s end.

(** [None] is each of the format errors. *)
Definition VerifyPassword `{Argon2} (encoded password : string) : option bool :=
  match split "$" encoded with
  | [_; kind; version; params; salt64; hash64] =>
      if kind != "argon2id" then None else
      match Atoi (trim_prefix "v=" version) with
      | None => None
      | Some v =>
          if v != argon2_version then None else
          match scan_parameters params with
          | None => None
          | Some (memory, iterations, parallelism) =>
              if (memory <? 8 * 1024) || (1024 * 1024 <? memory) || (iterations =? 0) || (10 <? iterations) ||
                 (parallelism =? 0) || (16 <? parallelism) then None else
              match b64_decode StdAlphabet false salt64, b64_decode StdAlphabet false hash64 with
              | Some salt, Some expected =>
                  if (slen expected =? 0) || (128 <? slen expected) then None else
                  Some (IDKey password salt iterations memory parallelism (slen expected) == expected)
              | _, _ => None
              end
          end
      end
  | _ => None
  end.

(** ** Bearer headers *)

(** [strings.Fields] *)
Fixpoint fields_go (fuel : nat) (cur s : string) : list string :=
  let flush := if cur == "" then [] else [cur] in
  match fuel with
  | O => flush
  | S fuel' =>
      match first_cut space_seqs s with
      | Some r => flush ++ fields_go fuel' "" r
      | None => match s with
                | EmptyString => flush
                | String c s' => fields_go fuel' (cur +:+ String c "") s'
                end
      end
  end.
Definition Fields (s : string) : list string := fields_go (S (String.length s)) "" s.

(** [strings.EqualFold(s, "Bearer")]: none of its letters has a non-ASCII case
    variant. *)
Definition equal_fold_ascii (s t : string) : bool := str_map lower_char s == str_map lower_char t.

Definition ParseBearerToken (header : string) : option string :=
  match Fields header with
  | [scheme; token] => if equal_fold_ascii scheme "Bearer" && (token != "") then Some token else None
  | _ => None
  end.

Example ParseBearerToken_ex : ParseBearerToken "  bEARER  abc " = Some "abc" /\ ParseBearerToken "Bearer a b" = None.
Proof. split; reflexivity. Qed.

(** ** The round trip *)
Lemma itoa_format n : 0 <= n -> itoa n = format_uint (Z.to_N n).
Proof. intros. unfold itoa. destruct (Z.ltb_spec n 0); [lia | done]. Qed.

Lemma itoa_digits n : 0 <= n -> str_forall is_digit (itoa n) = true.
Proof. intros. rewrite itoa_format by done. apply format_uint_digits. Qed.

Lemma parse_itoa bits n : 0 <= n < 2 ^ Z.of_N bits -> parse_uint bits (itoa n) = Some (Z.to_N n).
Proof.
  intros. rewrite itoa_format by lia. apply parse_format_uint. apply N2Z.inj_lt. rewrite Z2N.id, N2Z.inj_pow by lia. lia.
Qed.

Lemma Atoi_itoa n : 0 <= n < 2 ^ 63 -> Atoi (itoa n) = Some n.
Proof.
  intros Hn. pose proof (itoa_digits n ltac:(lia)) as Hd.
  assert (parse_uint 64 (itoa n) = Some (Z.to_N n)) as Hp by (apply parse_itoa; lia).
  unfold Atoi. destruct (itoa n) as [| c s]; [by rewrite Hp |].
  simpl in Hd. apply andb_true_iff in Hd as [Hc _].
  rewrite !bool_decide_false by (intros ->; done). rewrite Hp, Z2N.id by lia.
  by destruct (Z.ltb_spec n (2 ^ 63)); [| lia].
Qed.

Definition starts_digit (s : string) : bool := match s with String c _ => is_digit c | EmptyString => false end.

Lemma span_digits_app d s : str_forall is_digit d = true -> starts_digit s = false -> span_digits (d +:+ s) = (d, s).
Proof.
  intros Hd Hs. induction d as [| c d IH].
  - rewrite app_EmptyString. destruct s as [| c s]; [done |]. simpl in *. by rewrite Hs.
  - rewrite app_String. simpl in *. apply andb_true_iff in Hd as [-> Hd]. by rewrite (IH Hd).
Qed.

(** A digit is neither a space nor the first byte of one. *)
Lemma skip_space_digit fuel c s : is_digit c = true -> skip_space fuel (String c s) = Some (String c s).
Proof.
  intros Hc. destruct fuel as [| fuel]; [done |].
  assert (forall p q, In p (byte_string [13; 10] :: space_seqs) -> cut_prefix p (String c q) = None) as Hno.
  { intros p q Hp. assert (forallb (fun p => match p with String b _ => negb (is_digit b) | EmptyString => false end)
      (byte_string [13; 10] :: space_seqs) = true) as HT by reflexivity.
    rewrite forallb_forall in HT. specialize (HT _ Hp). destruct p as [| b p]; [done |]. simpl.
    rewrite bool_decide_false; [done | intros ->]. by rewrite Hc in HT. }
  cbn [skip_space]. rewrite (Hno _ s) by (left; done). rewrite bool_decide_false by (intros ->; done).
  assert (forall l, (forall p, In p l -> In p space_seqs) -> first_cut l (String c s) = None) as Hl.
  { induction l as [| p l IH]; intros HI; [done |]. cbn [first_cut]. rewrite Hno; [apply IH; intros; apply HI; by right |].
    right. apply HI. by left. }
  by rewrite Hl.
Qed.

Lemma scan_uint_itoa bits n s : 0 <= n < 2 ^ Z.of_N bits -> (bits <= 64)%N -> starts_digit s = false ->
  scan_uint bits (itoa n +:+ s) = Some (n, s).
Proof.
  intros Hn Hb Hs. pose proof (itoa_digits n ltac:(lia)) as Hd.
  assert (parse_uint 64 (itoa n) = Some (Z.to_N n)) as Hp.
  { apply parse_itoa. split; [lia |]. eapply Z.lt_le_trans; [apply Hn |]. apply Z.pow_le_mono_r; lia. }
  unfold scan_uint. assert (skip_space (String.length (itoa n +:+ s)) (itoa n +:+ s) = Some (itoa n +:+ s)) as ->.
  { destruct (itoa n) as [| c w]; [done |]. simpl in Hd. apply andb_true_iff in Hd as [Hc _].
    rewrite app_String. by apply skip_space_digit. }
  rewrite span_digits_app, Hp by done.
  assert (Z.to_N n < 2 ^ bits)%N as Hlt by (apply N2Z.inj_lt; rewrite Z2N.id, N2Z.inj_pow by lia; lia).
  apply N.ltb_lt in Hlt. rewrite Hlt, Z2N.id by lia. done.
Qed.

Lemma append_EmptyString_r s : s +:+ "" = s.
Proof. induction s as [| c s IH]; [done |]. by rewrite app_String, IH. Qed.

Lemma append_assoc_l r s t : (r +:+ s) +:+ t = r +:+ (s +:+ t).
Proof. induction r as [| c r IH]; [done |]. by rewrite !app_String, IH. Qed.

Lemma cut_prefix_app p s : cut_prefix p (p +:+ s) = Some s.
Proof. by apply cut_prefix_some. Qed.

Lemma scan_parameters_format m t p : 0 <= m < 2 ^ 32 -> 0 <= t < 2 ^ 32 -> 0 <= p < 2 ^ 8 ->
  scan_parameters ("m=" +:+ itoa m +:+ ",t=" +:+ itoa t +:+ ",p=" +:+ itoa p) = Some (m, t, p).
Proof.
  intros Hm Ht Hp. unfold scan_parameters. rewrite cut_prefix_app. rewrite (scan_uint_itoa 32 m) by done.
  rewrite cut_prefix_app. rewrite (scan_uint_itoa 32 t) by done. rewrite cut_prefix_app.
  rewrite <- (append_EmptyString_r (itoa p)). by rewrite (scan_uint_itoa 8 p).
Qed.

Lemma digits_no_dollar n : 0 <= n -> no_char "$"%char (itoa n) = true.
Proof. intros. apply digits_no_char; [done | by apply itoa_digits]. Qed.

Lemma no_char_app c s t : no_char c (s +:+ t) = no_char c s && no_char c t.
Proof. apply str_forall_app. Qed.

Lemma encode_hash_split v m t p salt hash : 0 <= v -> 0 <= m -> 0 <= t -> 0 <= p ->
  split "$" (encode_hash v m t p salt hash) =
  [""; "argon2id"; "v=" +:+ itoa v; "m=" +:+ itoa m +:+ ",t=" +:+ itoa t +:+ ",p=" +:+ itoa p;
   b64_encode StdAlphabet salt; b64_encode StdAlphabet hash].
Proof.
  intros. rewrite <- (split_join "$"); [| done |].
  - f_equal. unfold encode_hash. cbn [join]. rewrite !append_assoc_l. done.
  - repeat (apply Forall_cons; split; [first [reflexivity | apply b64_encode_no_dollar | idtac] |]); try done;
      rewrite ?no_char_app, ?digits_no_dollar by done; done.
Qed.

(** A stored password hash verifies exactly the passwords with the same
    Argon2id output: parsing recovers salt, parameters and digest from
    [HashPassword]'s text, so verification is the comparison of the two
    derivations. *)
Theorem VerifyPassword_HashPassword `{Argon2} salt password candidate :
  0 <= argon2_version < 2 ^ 63 ->
  (forall pw s t m p n, 0 <= n -> slen (IDKey pw s t m p n) = n) ->
  VerifyPassword (HashPassword salt password) candidate =
    Some (IDKey candidate salt argonTime argonMemory argonThreads argonKeyLen ==
          IDKey password salt argonTime argonMemory argonThreads argonKeyLen).
Proof.
  intros Hv Hlen. unfold VerifyPassword, HashPassword.
  rewrite encode_hash_split by (unfold argonMemory, argonTime, argonThreads; lia).
  rewrite bool_decide_true by done. cbn [negb].
  unfold trim_prefix. rewrite cut_prefix_app, Atoi_itoa by done. rewrite bool_decide_true by done. cbn [negb].
  rewrite scan_parameters_format by (unfold argonMemory, argonTime, argonThreads; lia).
  rewrite !b64_decode_encode, Hlen by done. done.
Qed.

(** A toy derivation of the requested length. *)
Fixpoint demo_pad (n : nat) (s : string) : string :=
  match n with
  | O => ""
  | S n' => match s with String c s' => String c (demo_pad n' s') | EmptyString => String "." (demo_pad n' "") end
  end.
Local Instance demo_argon2 : Argon2 :=
  {| IDKey := fun pw salt _ _ _ n => demo_pad (Z.to_nat n) (pw +:+ salt); argon2_version := 19 |}.

Lemma demo_pad_length n s : slen (demo_pad n s) = Z.of_nat n.
Proof. unfold slen. revert s. induction n as [| n IH]; intros [| c s]; simpl; try done.
  - specialize (IH ""). lia.
  - specialize (IH s). lia.
Qed.

Lemma VerifyPassword_HashPassword_witness :
  VerifyPassword (HashPassword "0123456789abcdef" "correct horse") "correct horse" = Some true /\
  VerifyPassword (HashPassword "0123456789abcdef" "correct horse") "battery staple" = Some false.
Proof.
  split.
  - rewrite (VerifyPassword_HashPassword "0123456789abcdef" "correct horse" "correct horse");
      [by rewrite bool_decide_true | done | intros; simpl; rewrite demo_pad_length; lia].
  - rewrite (VerifyPassword_HashPassword "0123456789abcdef" "correct horse" "battery staple");
      [by rewrite bool_decide_false | done | intros; simpl; rewrite demo_pad_length; lia].
Defined.
