(* ===== verification/Net.v ===== *)
(** * IP addresses and target prefixes

    The part of [net/netip] that the gateway and the store use, with 32-bit
    IPv4 addresses as integers, and [validTargetPrefixes] of
    [internal/gateway/relay.go]: the allowlist of private targets. *)
From stdpp Require Import base strings list.
From Stdlib Require Import ZArith Lia Ascii.
From S2P Require Import Prelude GoStrings GuestIdentity.

Local Open Scope string_scope.
Local Open Scope Z_scope.

(** [netip.Addr]: an IPv4 address, or an IPv6 one with its zone. *)
Inductive Addr : Set :=
| V4 (n : Z)
| V6 (n : Z) (zone : string).

#[export] Instance Addr_eq_dec : EqDecision Addr.
Proof. solve_decision. Defined.

Definition Addr_wf (a : Addr) : Prop :=
  match a with V4 n => 0 <= n < 2 ^ 32 | V6 n _ => 0 <= n < 2 ^ 128 end.

Definition Is4 (a : Addr) : bool := match a with V4 _ => true | V6 _ _ => false end.
Definition BitLen (a : Addr) : Z := match a with V4 _ => 32 | V6 _ _ => 128 end.

(** Byte [i] of an IPv4 address, most significant first. *)
Definition v4 (n : Z) (i : Z) : Z := Z.land (Z.shiftr n (24 - 8 * i)) 255.

Definition private4 (n : Z) : bool :=
  (v4 n 0 =? 10) || ((v4 n 0 =? 172) && (Z.land (v4 n 1) 240 =? 16)) || ((v4 n 0 =? 192) && (v4 n 1 =? 168)).

(** RFC 1918, or RFC 4193 for IPv6 (IPv4-mapped addresses are unmapped). *)
Definition IsPrivate (a : Addr) : bool :=
  match a with
  | V4 n => private4 n
  | V6 n _ => if Z.shiftr n 32 =? 65535 then private4 (Z.land n (2 ^ 32 - 1)) else Z.shiftr n 121 =? 126
  end.

(** [netip.Prefix] *)
Record Prefix : Set := MkPrefix { paddr : Addr; pbits : Z }.

#[export] Instance Prefix_eq_dec : EqDecision Prefix.
Proof. solve_decision. Defined.

Definition IsValid (p : Prefix) : bool := (0 <=? pbits p) && (pbits p <=? BitLen (paddr p)).

Definition addr_num (a : Addr) : Z := match a with V4 n => n | V6 n _ => n end.

Definition with_num (a : Addr) (n : Z) : Addr := match a with V4 _ => V4 n | V6 _ z => V6 n z end.

(** [p.Masked()]: the host bits cleared (an IPv6 zone is dropped). *)
Definition Masked (p : Prefix) : Prefix :=
  let k := BitLen (paddr p) - pbits p in
  let n := Z.shiftl (Z.shiftr (addr_num (paddr p)) k) k in
  MkPrefix (match paddr p with V4 _ => V4 n | V6 _ _ => V6 n "" end) (pbits p).

Definition has_zone (a : Addr) : bool := match a with V6 _ z => z != "" | V4 _ => false end.

Definition Contains (p : Prefix) (a : Addr) : bool :=
  IsValid p && negb (has_zone a) && (BitLen (paddr p) =? BitLen a) &&
  (Z.shiftr (Z.lxor (addr_num a) (addr_num (paddr p))) (BitLen a - pbits p) =? 0).

Definition ipv4 (a b c d : Z) : Addr := V4 (a * 2 ^ 24 + b * 2 ^ 16 + c * 2 ^ 8 + d).

(** The three private scopes of [validTargetPrefixes]. *)
Definition private_scopes : list Prefix :=
  [MkPrefix (ipv4 10 0 0 0) 8; MkPrefix (ipv4 172 16 0 0) 12; MkPrefix (ipv4 192 168 0 0) 16].

Definition validTargetPrefixes (prefixes : list Prefix) : bool :=
  (0 <? Z.of_nat (length prefixes)) && (Z.of_nat (length prefixes) <=? 128) &&
  forallb (fun prefix =>
    existsb (fun scope =>
      IsValid prefix && Is4 (paddr prefix) && (prefix == Masked prefix) &&
      (pbits scope <=? pbits prefix) && Contains scope (paddr prefix)) private_scopes) prefixes.

(** ** Text form of IPv4 addresses *)
Definition addr_string4 (n : Z) : string :=
  join "." [format_uint (Z.to_N (v4 n 0)); format_uint (Z.to_N (v4 n 1));
            format_uint (Z.to_N (v4 n 2)); format_uint (Z.to_N (v4 n 3))].

(** IPv6 text: lower case groups without leading zeros, the first longest run
    of at least two zero groups as [::]. *)
Definition v6u16 (n i : Z) : Z := Z.land (Z.shiftr n (112 - 16 * i)) 65535.
Definition v6_groups (n : Z) : list Z := List.map (v6u16 n) [0; 1; 2; 3; 4; 5; 6; 7].

Fixpoint append_hex (fuel : nat) (n : Z) : string :=
  match fuel with
  | O => ""
  | S fuel' => (if n <? 16 then "" else append_hex fuel' (n / 16)) +:+ String (hex_digit (n mod 16)) ""
  end.

Fixpoint zero_run (l : list Z) : nat :=
  match l with 0 :: l' => S (zero_run l') | _ => O end.

(** Start and length of the run to compress, [(i, 0)] when there is none. *)
Fixpoint longest_run (i : nat) (best : nat * nat) (l : list Z) : nat * nat :=
  match l with
  | [] => best
  | _ :: l' =>
      let k := zero_run l in
      longest_run (S i) (if (2 <=? k)%nat && (snd best <? k)%nat then (i, k) else best) l'
  end.

Definition addr_string6 (n : Z) : string :=
  let groups := List.map (append_hex 4) (v6_groups n) in
  let '(start, len) := longest_run 0 (8, 0)%nat (v6_groups n) in
  if (len =? 0)%nat then join ":" groups
  else join ":" (List.firstn start groups) +:+ "::" +:+ join ":" (List.skipn (start + len) groups).

Definition AddrString (a : Addr) : string :=
  match a with
  | V4 n => addr_string4 n
  | V6 n zone =>
      (if Z.shiftr n 32 =? 65535 then "::ffff:" +:+ addr_string4 (Z.land n (2 ^ 32 - 1)) else addr_string6 n) +:+
      (if zone == "" then "" else "%" +:+ zone)
  end.

(** [netip.ParseAddr] on a dotted quad: four canonical octets. *)
Definition parse_ipv4 (s : string) : option Addr :=
  match split "." s with
  | [a; b; c; d] =>
      match parse_canonical 8 a, parse_canonical 8 b, parse_canonical 8 c, parse_canonical 8 d with
      | Some a, Some b, Some c, Some d => Some (ipv4 (Z.of_N a) (Z.of_N b) (Z.of_N c) (Z.of_N d))
      | _, _, _, _ => None
      end
  | _ => None
  end.

(** ** Lemmas *)
Lemma contains_shiftr scope a :
  Contains scope (V4 a) = true ->
  exists n, paddr scope = V4 n /\ 0 <= pbits scope <= 32 /\
    Z.shiftr a (32 - pbits scope) = Z.shiftr n (32 - pbits scope).
Proof.
  unfold Contains, IsValid. destruct (paddr scope) as [n | n z]; simpl; b2p; [| lia].
  intros [[[H1 _] _] H2]. exists n. repeat split; try lia.
  rewrite Z.shiftr_lxor in H2. by apply Z.lxor_eq in H2.
Qed.

Lemma shiftr_coarser a b j k : 0 <= j <= k -> Z.shiftr a j = Z.shiftr b j -> Z.shiftr a k = Z.shiftr b k.
Proof.
  intros Hk H. replace k with (j + (k - j)) by lia. rewrite <- !Z.shiftr_shiftr by lia. by rewrite H.
Qed.

Lemma v4_byte n i : v4 n i = Z.shiftr n (24 - 8 * i) mod 256.
Proof. unfold v4. change 255 with (Z.ones 8). by rewrite Z.land_ones by lia. Qed.

Lemma private4_scope n scope :
  0 <= n < 2 ^ 32 -> In scope private_scopes -> Contains scope (V4 n) = true -> private4 n = true.
Proof.
  intros Hn Hin (m & Hm & Hb & He)%contains_shiftr. unfold private4. rewrite !v4_byte.
  rewrite !Z.shiftr_div_pow2 in * by lia.
  change (24 - 8 * 0) with 24. change (24 - 8 * 1) with 16.
  destruct Hin as [<- | [<- | [<- | []]]]; simpl in *; injection Hm as <-; cbn in He; b2p.
  - left. left. Z.div_mod_to_equations. lia.
  - left. right. split; [Z.div_mod_to_equations; lia |].
    assert (exists k, (n / 65536) mod 256 = 16 + k /\ 0 <= k < 16) as (k & Hk & Hkr).
    { exists ((n / 65536) mod 256 - 16). split; [lia |]. Z.div_mod_to_equations. lia. }
    change (2 ^ 16) with 65536. rewrite Hk.
    assert (k = 0 \/ k = 1 \/ k = 2 \/ k = 3 \/ k = 4 \/ k = 5 \/ k = 6 \/ k = 7 \/ k = 8 \/ k = 9 \/
      k = 10 \/ k = 11 \/ k = 12 \/ k = 13 \/ k = 14 \/ k = 15) as Hc by lia.
    repeat destruct Hc as [-> | Hc]; try reflexivity. subst; reflexivity.
  - right. Z.div_mod_to_equations. lia.
Qed.

(** Every address inside an accepted target prefix is a private IPv4
    address: an allowlist that passes [validTargetPrefixes] can never route a
    tunnel outside RFC 1918, whatever its prefixes are. *)
Theorem validTargetPrefixes_private prefixes p a :
  validTargetPrefixes prefixes = true -> In p prefixes -> Addr_wf a -> Contains p a = true ->
  Is4 a = true /\ IsPrivate a = true.
Proof.
  unfold validTargetPrefixes. intros Hv Hin Hwf Hc. b2p. destruct Hv as [_ Hv].
  specialize (Hv p Hin). b2p. destruct Hv as (scope & Hs & Hp). b2p.
  destruct Hp as [[[[Hval H4] Hm] Hbits] Hsc].
  destruct a as [n | n z].
  - split; [done |]. simpl. destruct (paddr p) as [m | m z] eqn:Ep; [| done].
    apply contains_shiftr in Hc as (m' & Hm' & Hb & He). rewrite Ep in Hm'. injection Hm' as <-.
    apply contains_shiftr in Hsc as (s & Es & Hbs & Hes).
    apply (private4_scope n scope); [done | done |].
    unfold Contains, IsValid. rewrite Es. simpl. b2p. repeat split; try lia.
    rewrite Z.shiftr_lxor. apply Z.lxor_eq_0_iff.
    rewrite <- Hes. apply (shiftr_coarser n m (32 - pbits p)); [lia | done].
  - exfalso. unfold Contains in Hc. destruct (paddr p); simpl in *; b2p; destruct_and?; try done; lia.
Qed.

Lemma validTargetPrefixes_private_witness :
  validTargetPrefixes [MkPrefix (ipv4 10 20 0 0) 16] = true /\
  IsPrivate (ipv4 10 20 3 4) = true.
Proof.
  split; [vm_compute; reflexivity |].
  apply (validTargetPrefixes_private [MkPrefix (ipv4 10 20 0 0) 16] (MkPrefix (ipv4 10 20 0 0) 16) (ipv4 10 20 3 4)).
  - vm_compute; reflexivity.
  - left; reflexivity.
  - vm_compute; split; [discriminate | reflexivity].
  - vm_compute; reflexivity.
Defined.

(** Printing and parsing a dotted quad. *)
Lemma parse_addr_string4 n : 0 <= n < 2 ^ 32 -> parse_ipv4 (addr_string4 n) = Some (V4 n).
Proof.
  intros Hn. unfold parse_ipv4, addr_string4.
  rewrite split_join; [| done | repeat constructor; by apply format_uint_no_char].
  assert (forall i, 0 <= i <= 3 -> 0 <= v4 n i < 256) as Hr.
  { intros i Hi. rewrite v4_byte. apply Z.mod_pos_bound. lia. }
  pose proof (Hr 0 ltac:(lia)). pose proof (Hr 1 ltac:(lia)). pose proof (Hr 2 ltac:(lia)). pose proof (Hr 3 ltac:(lia)).
  rewrite !parse_canonical_format by (change (2 ^ 8)%N with 256%N; lia). rewrite !Z2N.id by lia. unfold ipv4. do 2 f_equal.
  rewrite !v4_byte, !Z.shiftr_div_pow2 by lia.
  change (24 - 8 * 0) with 24. change (24 - 8 * 1) with 16. change (24 - 8 * 2) with 8. change (24 - 8 * 3) with 0.
  change (2 ^ 24) with 16777216. change (2 ^ 16) with 65536. change (2 ^ 8) with 256. change (2 ^ 0) with 1.
  change (2 ^ 32) with 4294967296 in Hn. rewrite Z.div_1_r.
  change 65536 with (256 * 256) at 1. change 16777216 with (256 * (256 * 256)) at 1.
  rewrite <- !Z.div_div by lia. clear -Hn.
  pose proof (Z.div_mod n 256) as E0. pose proof (Z.div_mod (n / 256) 256) as E1.
  pose proof (Z.div_mod (n / 256 / 256) 256) as E2.
  rewrite (Z.mod_small (n / 256 / 256 / 256) 256); [lia |].
  rewrite !Z.div_div by lia. split; [apply Z.div_pos | apply Z.div_lt_upper_bound]; lia.
Qed.

Example addr_string6_examples :
  List.map addr_string6 [1; 0x20010db8 * 2 ^ 96 + 0xa0b * 2 ^ 32] = ["::1"; "2001:db8::a0b:0:0"].
Proof. vm_compute. reflexivity. Qed.
