(* ===== verification/Db.v ===== *)
(** * The relational schema ([internal/store/migrations])

    The tables the store's transactions read and write, one record per row
    type and one list of rows per table, with the columns of the last
    migration; a column with a [CHECK (... IN ...)] is an inductive type.
    Times are microseconds.  [created_at] columns that no statement of the
    model reads are left out.  The view [effective_user_desktop_access] and
    the clone fence of 031 are the definitions every authorization question
    goes through. *)
From stdpp Require Import base strings list.
From Stdlib Require Import ZArith Lia.
From S2P Require Import Prelude GoStrings Net.

Local Open Scope string_scope.
Local Open Scope list_scope.
Local Open Scope Z_scope.

Definition time := Z.

Inductive role : Set := PlatformAdmin | RegularUser.
Inductive access_mode : Set := Personal | Shared.
Inductive identity_state : Set := IdPending | IdApplied | IdRestartRequired | IdFailed.
Inductive binding_state : Set := BProvisioning | BReady | BFailed | BDisabled.
Inductive revocation_reason : Set := AccessRemoved | CredentialRevoked | ExpiredSession.
Inductive connection_state : Set := CActive | CRevoking | CRevoked | CExpired.
Inductive lease_state : Set := LActive | LReleased | LRevoked | LExpired.
Inductive guest_state : Set := GProvisioning | GReady | GRevoking | GDisabled.
Inductive native_op : Set := NNone | NIssue | NRetire | NRevoke.
Inductive native_state : Set := NIdle | NPending | NApplied.
Inductive policy_state : Set := PolPending | PolApplied | PolFailed.

(** A [jsonb] value in its canonical form: no whitespace, object keys unique
    and sorted, numbers by their text. *)
#[warnings="-register-all"]
Inductive json : Set :=
| JNull
| JBool (b : bool)
| JNum (text : string)
| JStr (s : string)
| JArr (l : list json)
| JObj (l : list (string * json)).

#[export] Instance role_eq_dec : EqDecision role.
Proof. solve_decision. Defined.
#[export] Instance access_mode_eq_dec : EqDecision access_mode.
Proof. solve_decision. Defined.
#[export] Instance identity_state_eq_dec : EqDecision identity_state.
Proof. solve_decision. Defined.
#[export] Instance binding_state_eq_dec : EqDecision binding_state.
Proof. solve_decision. Defined.
#[export] Instance revocation_reason_eq_dec : EqDecision revocation_reason.
Proof. solve_decision. Defined.
#[export] Instance connection_state_eq_dec : EqDecision connection_state.
Proof. solve_decision. Defined.
#[export] Instance lease_state_eq_dec : EqDecision lease_state.
Proof. solve_decision. Defined.
#[export] Instance guest_state_eq_dec : EqDecision guest_state.
Proof. solve_decision. Defined.
#[export] Instance native_op_eq_dec : EqDecision native_op.
Proof. solve_decision. Defined.
#[export] Instance native_state_eq_dec : EqDecision native_state.
Proof. solve_decision. Defined.
#[export] Instance policy_state_eq_dec : EqDecision policy_state.
Proof. solve_decision. Defined.
#[export] Instance json_eq_dec : EqDecision json.
Proof.
  unfold EqDecision, RelDecision. fix go 1. intros x y.
  destruct x as [| b | n | z | l | l], y as [| b' | n' | z' | l' | l'];
    try (right; discriminate); try (left; reflexivity).
  - destruct (decide (b = b')) as [-> |]; [left; reflexivity | right; congruence].
  - destruct (decide (n = n')) as [-> |]; [left; reflexivity | right; congruence].
  - destruct (decide (z = z')) as [-> |]; [left; reflexivity | right; congruence].
  - assert (Decision (l = l')) as [-> |]; [| left; reflexivity | right; congruence].
    revert l'. induction l as [| a l IH]; intros [| b l']; try (right; discriminate); [left; reflexivity |].
    destruct (go a b) as [-> |]; [| right; congruence].
    destruct (IH l') as [-> |]; [left; reflexivity | right; congruence].
  - assert (Decision (l = l')) as [-> |]; [| left; reflexivity | right; congruence].
    revert l'. induction l as [| [k a] l IH]; intros [| [k' b] l']; try (right; discriminate); [left; reflexivity |].
    destruct (decide (k = k')) as [-> |]; [| right; congruence].
    destruct (go a b) as [-> |]; [| right; congruence].
    destruct (IH l') as [-> |]; [left; reflexivity | right; congruence].
Defined.

(** [users: 001_init.sql] *)
Record User : Set := MkUser {
  u_id : string;
  u_username : string;
  u_username_normalized : string;
  u_display_name : string;
  u_password_hash : option string;
  u_role : role;
  u_disabled : bool;
  u_created_at : time;
  u_updated_at : time
}.

(** [web_sessions: 001_init.sql] *)
Record WebSession : Set := MkWebSession {
  ws_token_digest : bytes;
  ws_user_id : string;
  ws_csrf_token : string;
  ws_expires_at : time;
  ws_last_seen_at : time
}.

(** [native_sessions: 005_native_auth.sql] *)
Record NativeSession : Set := MkNativeSession {
  ns_token_digest : bytes;
  ns_user_id : string;
  ns_expires_at : time;
  ns_last_seen_at : time
}.

(** [native_auth_codes: 005_native_auth.sql] *)
Record AuthCode : Set := MkAuthCode {
  nc_code_digest : bytes;
  nc_user_id : string;
  nc_expires_at : time
}.

(** [api_tokens: 017_api_tokens.sql] *)
Record APIToken : Set := MkAPIToken {
  at_id : string;
  at_user_id : string;
  at_name : string;
  at_token_digest : bytes;
  at_expires_at : time;
  at_created_at : time;
  at_last_used_at : option time
}.

(** [oidc_auth_requests: 003 and 005] *)
Record OIDCRequest : Set := MkOIDCRequest {
  or_state_digest : bytes;
  or_nonce : string;
  or_pkce_verifier : string;
  or_client_kind : string;
  or_expires_at : time
}.

(** [external_identities: 001_init.sql] *)
Record ExternalIdentity : Set := MkExternalIdentity {
  ei_provider_id : string;
  ei_subject : string;
  ei_user_id : string
}.

(** [managed_desktops: 013, 014, 015, 016] *)
Record ManagedDesktop : Set := MkManagedDesktop {
  d_vmid : Z;
  d_display_name : string;
  d_node : string;
  d_os_family : string;
  d_present : bool;
  d_enabled : bool;
  d_access_mode : access_mode;
  d_owner_user_id : option string;
  d_identity_profile_id : option string;
  d_identity_state : identity_state;
  d_applied_identity_profile_id : option string;
  d_identity_last_error : string;
  d_identity_updated_at : time;
  d_first_seen_at : time;
  d_last_seen_at : time;
  d_updated_at : time
}.

(** [agent_principals: 013] *)
Record AgentPrincipal : Set := MkAgentPrincipal {
  ap_id : string;
  ap_display_name : string;
  ap_token_digest : option bytes;
  ap_enabled : bool;
  ap_created_by : option string;
  ap_created_at : time;
  ap_updated_at : time;
  ap_last_used_at : option time
}.

(** [user_desktop_assignments: 013] *)
Record UserAssignment : Set := MkUserAssignment {
  ua_user_id : string;
  ua_desktop_vmid : Z;
  ua_created_by : option string;
  ua_created_at : time
}.

(** [agent_desktop_assignments: 013] *)
Record AgentAssignment : Set := MkAgentAssignment {
  aa_agent_id : string;
  aa_desktop_vmid : Z;
  aa_created_by : option string;
  aa_created_at : time
}.

(** [group_desktop_assignments: 014] *)
Record GroupAssignment : Set := MkGroupAssignment {
  ga_group_id : string;
  ga_desktop_vmid : Z;
  ga_created_by : option string;
  ga_created_at : time
}.

(** [identity_groups: 014] *)
Record IdentityGroup : Set := MkIdentityGroup {
  g_id : string;
  g_provider_id : option string;
  g_external_id : option string;
  g_display_name : string;
  g_source : string;
  g_enabled : bool;
  g_created_by : option string;
  g_updated_at : time
}.

(** [identity_group_memberships: 014] *)
Record GroupMembership : Set := MkGroupMembership {
  m_group_id : string;
  m_user_id : string;
  m_source : string;
  m_updated_at : time
}.

(** [identity_profiles: 014] *)
Record IdentityProfile : Set := MkIdentityProfile {
  p_id : string;
  p_platform : string;
  p_mode : string;
  p_enabled : bool;
  p_experimental : bool;
  p_display_name : string;
  p_config : json;
  p_created_by : option string;
  p_updated_at : time
}.

(** [guest_identity_bindings: 014, 022] *)
Record GuestIdentityBinding : Set := MkGuestIdentityBinding {
  b_desktop_vmid : Z;
  b_user_id : string;
  b_profile_id : option string;
  b_guest_username : string;
  b_state : binding_state;
  b_last_error : string;
  b_updated_at : time;
  b_session_expires_at : option time
}.

(** [guest_identity_revocations: 022] *)
Record GuestIdentityRevocation : Set := MkGuestIdentityRevocation {
  q_desktop_vmid : Z;
  q_user_id : string;
  q_guest_username : string;
  q_requested_revision : Z;
  q_completed_revision : Z;
  q_reason : revocation_reason;
  q_last_error : string;
  q_updated_at : time
}.

(** [desktop_connection_sessions: 014, 021, 029] *)
Record DesktopConnectionSession : Set := MkDesktopConnectionSession {
  c_id : string;
  c_user_id : string;
  c_desktop_vmid : Z;
  c_guest_username : string;
  c_state : connection_state;
  c_expires_at : time;
  c_created_at : time;
  c_updated_at : time;
  c_closed_at : option time;
  c_termination_required : bool;
  c_native_session_digest : option bytes
}.

(** [desktop_leases: 001, 004] *)
Record DesktopLease : Set := MkDesktopLease {
  l_id : string;
  l_agent_id : string;
  l_desktop_id : string;
  l_state : lease_state;
  l_control_epoch : Z;
  l_expires_at : time;
  l_created_at : time;
  l_updated_at : time
}.

(** [desktop_computer_epochs: 025] *)
Record ComputerEpoch : Set := MkComputerEpoch {
  e_desktop_vmid : Z;
  e_control_epoch : Z;
  e_updated_at : time
}.

(** [desktop_computer_revocations: 023, 025] *)
Record ComputerRevocation : Set := MkComputerRevocation {
  r_desktop_vmid : Z;
  r_requested_revision : Z;
  r_completed_revision : Z;
  r_control_epoch : Z;
  r_updated_at : time
}.

(** [agent_guest_sessions: 024, 026, 027] *)
Record AgentGuestSession : Set := MkAgentGuestSession {
  s_desktop_vmid : Z;
  s_agent_id : string;
  s_guest_username : string;
  s_os_family : string;
  s_lease_id : string;
  s_control_epoch : Z;
  s_generation : Z;
  s_login_generation : Z;
  s_state : guest_state;
  s_guest_uid : Z;
  s_guest_sid : string;
  s_session_id : string;
  s_instance_id : string;
  s_expires_at : time;
  s_updated_at : time
}.

(** [native_guest_accounts: 028] *)
Record NativeGuestAccount : Set := MkNativeGuestAccount {
  a_desktop_vmid : Z;
  a_user_id : string;
  a_guest_username : string;
  a_os_family : string;
  a_guest_uid : Z;
  a_guest_sid : string;
  a_revision : Z;
  a_operation : native_op;
  a_state : native_state;
  a_connection_id : string;
  a_expires_at : option time;
  a_native_session_digest : option bytes;
  a_updated_at : time
}.

(** [native_guest_credential_ids: 028] *)
Record CredentialID : Set := MkCredentialID {
  ci_connection_id : string;
  ci_desktop_vmid : Z;
  ci_user_id : string;
  ci_revision : Z
}.

(** [native_guest_recoveries: 030] *)
Record NativeRecovery : Set := MkNativeRecovery {
  nr_id : string;
  nr_desktop_vmid : Z;
  nr_user_id : string;
  nr_actor_user_id : string;
  nr_reason : string;
  nr_previous_revision : Z;
  nr_previous_connection_id : string;
  nr_recovered_revision : Z;
  nr_recovered_connection_id : string;
  nr_transaction_id : Z
}.

(** [gateway_session_tickets: 029] *)
Record GatewayTicket : Set := MkGatewayTicket {
  t_token_digest : bytes;
  t_connection_id : string;
  t_gateway_id : string;
  t_target_host : Addr;
  t_target_port : Z;
  t_certificate_sha256 : bytes;
  t_policy_revision : Z;
  t_created_at : time;
  t_expires_at : time;
  t_session_deadline : time;
  t_tunnel_id : option string;
  t_consumed_at : option time;
  t_lease_until : option time;
  t_closed_at : option time
}.

(** [desktop_access_policies: 011, 018] *)
Record DesktopAccessPolicy : Set := MkDesktopAccessPolicy {
  dp_vmid : Z;
  dp_privilege_mode : string;
  dp_clipboard_redirection : bool;
  dp_drive_redirection : bool;
  dp_managed_background : bool;
  dp_desired_revision : Z;
  dp_applied_revision : Z;
  dp_state : policy_state;
  dp_os_family : string;
  dp_last_error : string;
  dp_updated_by : option string;
  dp_updated_at : time
}.

(** [pve_jobs: 001, 002, 009, 020] *)
Record Job : Set := MkJob {
  j_id : string;
  j_idempotency_key : string;
  j_operation : string;
  j_state : string;
  j_source_vmid : option Z;
  j_target_vmid : option Z;
  j_target_node : option string;
  j_task_node : option string;
  j_upid : option string;
  j_request : json;
  j_progress : Z;
  j_detail : string;
  j_error : option string;
  j_created_by : option string;
  j_created_at : time;
  j_updated_at : time;
  j_request_fingerprint : string
}.

(** [audit_events: 001, 012] *)
Record AuditEvent : Set := MkAuditEvent {
  ev_id : Z;
  ev_actor_id : option string;
  ev_event_type : string;
  ev_outcome : string;
  ev_target_type : option string;
  ev_target_id : option string;
  ev_detail : json;
  ev_occurred_at : time
}.

(** [oidc_providers: 001_init.sql] *)
Record OIDCProvider : Set := MkOIDCProvider {
  op_id : string;
  op_name : string;
  op_issuer : string;
  op_client_id : string;
  op_enabled : bool;
  op_updated_at : time
}.

(** [image_profiles: 006, 007, 009] *)
Record ImageProfile : Set := MkImageProfile {
  ip_id : string;
  ip_display_name : string;
  ip_os_family : string;
  ip_os_version : string;
  ip_architecture : string;
  ip_lifecycle : string;
  ip_enabled : bool;
  ip_source_node : string;
  ip_source_iso : string;
  ip_source_iso_checksum : string;
  ip_driver_iso : string;
  ip_driver_iso_checksum : string;
  ip_template_vmid : option Z;
  ip_mirror_url : string;
  ip_security_mirror_url : string;
  ip_storage_pool : string;
  ip_bridge : string;
  ip_windows_image_name : string;
  ip_default_cores : Z;
  ip_default_memory_mb : Z;
  ip_default_disk_gb : Z;
  ip_firmware : string;
  ip_tpm_version : string;
  ip_agent_kind : string;
  ip_desktop_protocol : string;
  ip_default_gpu_profile_id : string;
  ip_build_status : string;
  ip_status_detail : string;
  ip_updated_at : time
}.

(** [gpu_profiles: 006, 008, 010] *)
Record GPUProfile : Set := MkGPUProfile {
  gp_id : string;
  gp_display_name : string;
  gp_mode : string;
  gp_vendor_id : string;
  gp_device_class : string;
  gp_resource_mapping : string;
  gp_mdev_type : string;
  gp_enabled : bool;
  gp_exclusive : bool;
  gp_allow_live_migration : bool;
  gp_updated_at : time
}.

(** ** The database: one list of rows per table *)
Record DB : Set := MkDB {
  users : list User;
  web_sessions : list WebSession;
  native_sessions : list NativeSession;
  native_auth_codes : list AuthCode;
  api_tokens : list APIToken;
  oidc_auth_requests : list OIDCRequest;
  external_identities : list ExternalIdentity;
  managed_desktops : list ManagedDesktop;
  agent_principals : list AgentPrincipal;
  user_desktop_assignments : list UserAssignment;
  agent_desktop_assignments : list AgentAssignment;
  group_desktop_assignments : list GroupAssignment;
  identity_groups : list IdentityGroup;
  identity_group_memberships : list GroupMembership;
  identity_profiles : list IdentityProfile;
  guest_identity_bindings : list GuestIdentityBinding;
  guest_identity_revocations : list GuestIdentityRevocation;
  desktop_connection_sessions : list DesktopConnectionSession;
  desktop_leases : list DesktopLease;
  desktop_computer_epochs : list ComputerEpoch;
  desktop_computer_revocations : list ComputerRevocation;
  agent_guest_sessions : list AgentGuestSession;
  native_guest_accounts : list NativeGuestAccount;
  native_guest_credential_ids : list CredentialID;
  native_guest_recoveries : list NativeRecovery;
  gateway_session_tickets : list GatewayTicket;
  desktop_access_policies : list DesktopAccessPolicy;
  pve_jobs : list Job;
  audit_events : list AuditEvent;
  audit_seq : Z;
  oidc_providers : list OIDCProvider;
  image_profiles : list ImageProfile;
  gpu_profiles : list GPUProfile
}.

#[export] Instance eta_User : Eta User := fun r =>
  MkUser (u_id r) (u_username r) (u_username_normalized r) (u_display_name r) (u_password_hash r) (u_role r) (u_disabled r) (u_created_at r) (u_updated_at r).
#[export] Instance eta_WebSession : Eta WebSession := fun r =>
  MkWebSession (ws_token_digest r) (ws_user_id r) (ws_csrf_token r) (ws_expires_at r) (ws_last_seen_at r).
#[export] Instance eta_NativeSession : Eta NativeSession := fun r =>
  MkNativeSession (ns_token_digest r) (ns_user_id r) (ns_expires_at r) (ns_last_seen_at r).
#[export] Instance eta_AuthCode : Eta AuthCode := fun r =>
  MkAuthCode (nc_code_digest r) (nc_user_id r) (nc_expires_at r).
#[export] Instance eta_APIToken : Eta APIToken := fun r =>
  MkAPIToken (at_id r) (at_user_id r) (at_name r) (at_token_digest r) (at_expires_at r) (at_created_at r) (at_last_used_at r).
#[export] Instance eta_OIDCRequest : Eta OIDCRequest := fun r =>
  MkOIDCRequest (or_state_digest r) (or_nonce r) (or_pkce_verifier r) (or_client_kind r) (or_expires_at r).
#[export] Instance eta_ExternalIdentity : Eta ExternalIdentity := fun r =>
  MkExternalIdentity (ei_provider_id r) (ei_subject r) (ei_user_id r).
#[export] Instance eta_ManagedDesktop : Eta ManagedDesktop := fun r =>
  MkManagedDesktop (d_vmid r) (d_display_name r) (d_node r) (d_os_family r) (d_present r) (d_enabled r) (d_access_mode r) (d_owner_user_id r) (d_identity_profile_id r) (d_identity_state r) (d_applied_identity_profile_id r) (d_identity_last_error r) (d_identity_updated_at r) (d_first_seen_at r) (d_last_seen_at r) (d_updated_at r).
#[export] Instance eta_AgentPrincipal : Eta AgentPrincipal := fun r =>
  MkAgentPrincipal (ap_id r) (ap_display_name r) (ap_token_digest r) (ap_enabled r) (ap_created_by r) (ap_created_at r) (ap_updated_at r) (ap_last_used_at r).
#[export] Instance eta_UserAssignment : Eta UserAssignment := fun r =>
  MkUserAssignment (ua_user_id r) (ua_desktop_vmid r) (ua_created_by r) (ua_created_at r).
#[export] Instance eta_AgentAssignment : Eta AgentAssignment := fun r =>
  MkAgentAssignment (aa_agent_id r) (aa_desktop_vmid r) (aa_created_by r) (aa_created_at r).
#[export] Instance eta_GroupAssignment : Eta GroupAssignment := fun r =>
  MkGroupAssignment (ga_group_id r) (ga_desktop_vmid r) (ga_created_by r) (ga_created_at r).
#[export] Instance eta_IdentityGroup : Eta IdentityGroup := fun r =>
  MkIdentityGroup (g_id r) (g_provider_id r) (g_external_id r) (g_display_name r) (g_source r) (g_enabled r) (g_created_by r) (g_updated_at r).
#[export] Instance eta_GroupMembership : Eta GroupMembership := fun r =>
  MkGroupMembership (m_group_id r) (m_user_id r) (m_source r) (m_updated_at r).
#[export] Instance eta_IdentityProfile : Eta IdentityProfile := fun r =>
  MkIdentityProfile (p_id r) (p_platform r) (p_mode r) (p_enabled r) (p_experimental r) (p_display_name r) (p_config r) (p_created_by r) (p_updated_at r).
#[export] Instance eta_GuestIdentityBinding : Eta GuestIdentityBinding := fun r =>
  MkGuestIdentityBinding (b_desktop_vmid r) (b_user_id r) (b_profile_id r) (b_guest_username r) (b_state r) (b_last_error r) (b_updated_at r) (b_session_expires_at r).
#[export] Instance eta_GuestIdentityRevocation : Eta GuestIdentityRevocation := fun r =>
  MkGuestIdentityRevocation (q_desktop_vmid r) (q_user_id r) (q_guest_username r) (q_requested_revision r) (q_completed_revision r) (q_reason r) (q_last_error r) (q_updated_at r).
#[export] Instance eta_DesktopConnectionSession : Eta DesktopConnectionSession := fun r =>
  MkDesktopConnectionSession (c_id r) (c_user_id r) (c_desktop_vmid r) (c_guest_username r) (c_state r) (c_expires_at r) (c_created_at r) (c_updated_at r) (c_closed_at r) (c_termination_required r) (c_native_session_digest r).
#[export] Instance eta_DesktopLease : Eta DesktopLease := fun r =>
  MkDesktopLease (l_id r) (l_agent_id r) (l_desktop_id r) (l_state r) (l_control_epoch r) (l_expires_at r) (l_created_at r) (l_updated_at r).
#[export] Instance eta_ComputerEpoch : Eta ComputerEpoch := fun r =>
  MkComputerEpoch (e_desktop_vmid r) (e_control_epoch r) (e_updated_at r).
#[export] Instance eta_ComputerRevocation : Eta ComputerRevocation := fun r =>
  MkComputerRevocation (r_desktop_vmid r) (r_requested_revision r) (r_completed_revision r) (r_control_epoch r) (r_updated_at r).
#[export] Instance eta_AgentGuestSession : Eta AgentGuestSession := fun r =>
  MkAgentGuestSession (s_desktop_vmid r) (s_agent_id r) (s_guest_username r) (s_os_family r) (s_lease_id r) (s_control_epoch r) (s_generation r) (s_login_generation r) (s_state r) (s_guest_uid r) (s_guest_sid r) (s_session_id r) (s_instance_id r) (s_expires_at r) (s_updated_at r).
#[export] Instance eta_NativeGuestAccount : Eta NativeGuestAccount := fun r =>
  MkNativeGuestAccount (a_desktop_vmid r) (a_user_id r) (a_guest_username r) (a_os_family r) (a_guest_uid r) (a_guest_sid r) (a_revision r) (a_operation r) (a_state r) (a_connection_id r) (a_expires_at r) (a_native_session_digest r) (a_updated_at r).
#[export] Instance eta_CredentialID : Eta CredentialID := fun r =>
  MkCredentialID (ci_connection_id r) (ci_desktop_vmid r) (ci_user_id r) (ci_revision r).
#[export] Instance eta_NativeRecovery : Eta NativeRecovery := fun r =>
  MkNativeRecovery (nr_id r) (nr_desktop_vmid r) (nr_user_id r) (nr_actor_user_id r) (nr_reason r) (nr_previous_revision r) (nr_previous_connection_id r) (nr_recovered_revision r) (nr_recovered_connection_id r) (nr_transaction_id r).
#[export] Instance eta_GatewayTicket : Eta GatewayTicket := fun r =>
  MkGatewayTicket (t_token_digest r) (t_connection_id r) (t_gateway_id r) (t_target_host r) (t_target_port r) (t_certificate_sha256 r) (t_policy_revision r) (t_created_at r) (t_expires_at r) (t_session_deadline r) (t_tunnel_id r) (t_consumed_at r) (t_lease_until r) (t_closed_at r).
#[export] Instance eta_DesktopAccessPolicy : Eta DesktopAccessPolicy := fun r =>
  MkDesktopAccessPolicy (dp_vmid r) (dp_privilege_mode r) (dp_clipboard_redirection r) (dp_drive_redirection r) (dp_managed_background r) (dp_desired_revision r) (dp_applied_revision r) (dp_state r) (dp_os_family r) (dp_last_error r) (dp_updated_by r) (dp_updated_at r).
#[export] Instance eta_Job : Eta Job := fun r =>
  MkJob (j_id r) (j_idempotency_key r) (j_operation r) (j_state r) (j_source_vmid r) (j_target_vmid r) (j_target_node r) (j_task_node r) (j_upid r) (j_request r) (j_progress r) (j_detail r) (j_error r) (j_created_by r) (j_created_at r) (j_updated_at r) (j_request_fingerprint r).
#[export] Instance eta_AuditEvent : Eta AuditEvent := fun r =>
  MkAuditEvent (ev_id r) (ev_actor_id r) (ev_event_type r) (ev_outcome r) (ev_target_type r) (ev_target_id r) (ev_detail r) (ev_occurred_at r).
#[export] Instance eta_OIDCProvider : Eta OIDCProvider := fun r =>
  MkOIDCProvider (op_id r) (op_name r) (op_issuer r) (op_client_id r) (op_enabled r) (op_updated_at r).
#[export] Instance eta_ImageProfile : Eta ImageProfile := fun r =>
  MkImageProfile (ip_id r) (ip_display_name r) (ip_os_family r) (ip_os_version r) (ip_architecture r) (ip_lifecycle r) (ip_enabled r) (ip_source_node r) (ip_source_iso r) (ip_source_iso_checksum r) (ip_driver_iso r) (ip_driver_iso_checksum r) (ip_template_vmid r) (ip_mirror_url r) (ip_security_mirror_url r) (ip_storage_pool r) (ip_bridge r) (ip_windows_image_name r) (ip_default_cores r) (ip_default_memory_mb r) (ip_default_disk_gb r) (ip_firmware r) (ip_tpm_version r) (ip_agent_kind r) (ip_desktop_protocol r) (ip_default_gpu_profile_id r) (ip_build_status r) (ip_status_detail r) (ip_updated_at r).
#[export] Instance eta_GPUProfile : Eta GPUProfile := fun r =>
  MkGPUProfile (gp_id r) (gp_display_name r) (gp_mode r) (gp_vendor_id r) (gp_device_class r) (gp_resource_mapping r) (gp_mdev_type r) (gp_enabled r) (gp_exclusive r) (gp_allow_live_migration r) (gp_updated_at r).
(** One setter per table. *)
#[export] Instance set_users : Setter users := fun v d =>
  MkDB v (web_sessions d) (native_sessions d) (native_auth_codes d) (api_tokens d) (oidc_auth_requests d) (external_identities d) (managed_desktops d) (agent_principals d) (user_desktop_assignments d) (agent_desktop_assignments d) (group_desktop_assignments d) (identity_groups d) (identity_group_memberships d) (identity_profiles d) (guest_identity_bindings d) (guest_identity_revocations d) (desktop_connection_sessions d) (desktop_leases d) (desktop_computer_epochs d) (desktop_computer_revocations d) (agent_guest_sessions d) (native_guest_accounts d) (native_guest_credential_ids d) (native_guest_recoveries d) (gateway_session_tickets d) (desktop_access_policies d) (pve_jobs d) (audit_events d) (audit_seq d) (oidc_providers d) (image_profiles d) (gpu_profiles d).
#[export] Instance set_web_sessions : Setter web_sessions := fun v d =>
  MkDB (users d) v (native_sessions d) (native_auth_codes d) (api_tokens d) (oidc_auth_requests d) (external_identities d) (managed_desktops d) (agent_principals d) (user_desktop_assignments d) (agent_desktop_assignments d) (group_desktop_assignments d) (identity_groups d) (identity_group_memberships d) (identity_profiles d) (guest_identity_bindings d) (guest_identity_revocations d) (desktop_connection_sessions d) (desktop_leases d) (desktop_computer_epochs d) (desktop_computer_revocations d) (agent_guest_sessions d) (native_guest_accounts d) (native_guest_credential_ids d) (native_guest_recoveries d) (gateway_session_tickets d) (desktop_access_policies d) (pve_jobs d) (audit_events d) (audit_seq d) (oidc_providers d) (image_profiles d) (gpu_profiles d).
#[export] Instance set_native_sessions : Setter native_sessions := fun v d =>
  MkDB (users d) (web_sessions d) v (native_auth_codes d) (api_tokens d) (oidc_auth_requests d) (external_identities d) (managed_desktops d) (agent_principals d) (user_desktop_assignments d) (agent_desktop_assignments d) (group_desktop_assignments d) (identity_groups d) (identity_group_memberships d) (identity_profiles d) (guest_identity_bindings d) (guest_identity_revocations d) (desktop_connection_sessions d) (desktop_leases d) (desktop_computer_epochs d) (desktop_computer_revocations d) (agent_guest_sessions d) (native_guest_accounts d) (native_guest_credential_ids d) (native_guest_recoveries d) (gateway_session_tickets d) (desktop_access_policies d) (pve_jobs d) (audit_events d) (audit_seq d) (oidc_providers d) (image_profiles d) (gpu_profiles d).
#[export] Instance set_native_auth_codes : Setter native_auth_codes := fun v d =>
  MkDB (users d) (web_sessions d) (native_sessions d) v (api_tokens d) (oidc_auth_requests d) (external_identities d) (managed_desktops d) (agent_principals d) (user_desktop_assignments d) (agent_desktop_assignments d) (group_desktop_assignments d) (identity_groups d) (identity_group_memberships d) (identity_profiles d) (guest_identity_bindings d) (guest_identity_revocations d) (desktop_connection_sessions d) (desktop_leases d) (desktop_computer_epochs d) (desktop_computer_revocations d) (agent_guest_sessions d) (native_guest_accounts d) (native_guest_credential_ids d) (native_guest_recoveries d) (gateway_session_tickets d) (desktop_access_policies d) (pve_jobs d) (audit_events d) (audit_seq d) (oidc_providers d) (image_profiles d) (gpu_profiles d).
#[export] Instance set_api_tokens : Setter api_tokens := fun v d =>
  MkDB (users d) (web_sessions d) (native_sessions d) (native_auth_codes d) v (oidc_auth_requests d) (external_identities d) (managed_desktops d) (agent_principals d) (user_desktop_assignments d) (agent_desktop_assignments d) (group_desktop_assignments d) (identity_groups d) (identity_group_memberships d) (identity_profiles d) (guest_identity_bindings d) (guest_identity_revocations d) (desktop_connection_sessions d) (desktop_leases d) (desktop_computer_epochs d) (desktop_computer_revocations d) (agent_guest_sessions d) (native_guest_accounts d) (native_guest_credential_ids d) (native_guest_recoveries d) (gateway_session_tickets d) (desktop_access_policies d) (pve_jobs d) (audit_events d) (audit_seq d) (oidc_providers d) (image_profiles d) (gpu_profiles d).
#[export] Instance set_oidc_auth_requests : Setter oidc_auth_requests := fun v d =>
  MkDB (users d) (web_sessions d) (native_sessions d) (native_auth_codes d) (api_tokens d) v (external_identities d) (managed_desktops d) (agent_principals d) (user_desktop_assignments d) (agent_desktop_assignments d) (group_desktop_assignments d) (identity_groups d) (identity_group_memberships d) (identity_profiles d) (guest_identity_bindings d) (guest_identity_revocations d) (desktop_connection_sessions d) (desktop_leases d) (desktop_computer_epochs d) (desktop_computer_revocations d) (agent_guest_sessions d) (native_guest_accounts d) (native_guest_credential_ids d) (native_guest_recoveries d) (gateway_session_tickets d) (desktop_access_policies d) (pve_jobs d) (audit_events d) (audit_seq d) (oidc_providers d) (image_profiles d) (gpu_profiles d).
#[export] Instance set_external_identities : Setter external_identities := fun v d =>
  MkDB (users d) (web_sessions d) (native_sessions d) (native_auth_codes d) (api_tokens d) (oidc_auth_requests d) v (managed_desktops d) (agent_principals d) (user_desktop_assignments d) (agent_desktop_assignments d) (group_desktop_assignments d) (identity_groups d) (identity_group_memberships d) (identity_profiles d) (guest_identity_bindings d) (guest_identity_revocations d) (desktop_connection_sessions d) (desktop_leases d) (desktop_computer_epochs d) (desktop_computer_revocations d) (agent_guest_sessions d) (native_guest_accounts d) (native_guest_credential_ids d) (native_guest_recoveries d) (gateway_session_tickets d) (desktop_access_policies d) (pve_jobs d) (audit_events d) (audit_seq d) (oidc_providers d) (image_profiles d) (gpu_profiles d).
#[export] Instance set_managed_desktops : Setter managed_desktops := fun v d =>
  MkDB (users d) (web_sessions d) (native_sessions d) (native_auth_codes d) (api_tokens d) (oidc_auth_requests d) (external_identities d) v (agent_principals d) (user_desktop_assignments d) (agent_desktop_assignments d) (group_desktop_assignments d) (identity_groups d) (identity_group_memberships d) (identity_profiles d) (guest_identity_bindings d) (guest_identity_revocations d) (desktop_connection_sessions d) (desktop_leases d) (desktop_computer_epochs d) (desktop_computer_revocations d) (agent_guest_sessions d) (native_guest_accounts d) (native_guest_credential_ids d) (native_guest_recoveries d) (gateway_session_tickets d) (desktop_access_policies d) (pve_jobs d) (audit_events d) (audit_seq d) (oidc_providers d) (image_profiles d) (gpu_profiles d).
#[export] Instance set_agent_principals : Setter agent_principals := fun v d =>
  MkDB (users d) (web_sessions d) (native_sessions d) (native_auth_codes d) (api_tokens d) (oidc_auth_requests d) (external_identities d) (managed_desktops d) v (user_desktop_assignments d) (agent_desktop_assignments d) (group_desktop_assignments d) (identity_groups d) (identity_group_memberships d) (identity_profiles d) (guest_identity_bindings d) (guest_identity_revocations d) (desktop_connection_sessions d) (desktop_leases d) (desktop_computer_epochs d) (desktop_computer_revocations d) (agent_guest_sessions d) (native_guest_accounts d) (native_guest_credential_ids d) (native_guest_recoveries d) (gateway_session_tickets d) (desktop_access_policies d) (pve_jobs d) (audit_events d) (audit_seq d) (oidc_providers d) (image_profiles d) (gpu_profiles d).
#[export] Instance set_user_desktop_assignments : Setter user_desktop_assignments := fun v d =>
  MkDB (users d) (web_sessions d) (native_sessions d) (native_auth_codes d) (api_tokens d) (oidc_auth_requests d) (external_identities d) (managed_desktops d) (agent_principals d) v (agent_desktop_assignments d) (group_desktop_assignments d) (identity_groups d) (identity_group_memberships d) (identity_profiles d) (guest_identity_bindings d) (guest_identity_revocations d) (desktop_connection_sessions d) (desktop_leases d) (desktop_computer_epochs d) (desktop_computer_revocations d) (agent_guest_sessions d) (native_guest_accounts d) (native_guest_credential_ids d) (native_guest_recoveries d) (gateway_session_tickets d) (desktop_access_policies d) (pve_jobs d) (audit_events d) (audit_seq d) (oidc_providers d) (image_profiles d) (gpu_profiles d).
#[export] Instance set_agent_desktop_assignments : Setter agent_desktop_assignments := fun v d =>
  MkDB (users d) (web_sessions d) (native_sessions d) (native_auth_codes d) (api_tokens d) (oidc_auth_requests d) (external_identities d) (managed_desktops d) (agent_principals d) (user_desktop_assignments d) v (group_desktop_assignments d) (identity_groups d) (identity_group_memberships d) (identity_profiles d) (guest_identity_bindings d) (guest_identity_revocations d) (desktop_connection_sessions d) (desktop_leases d) (desktop_computer_epochs d) (desktop_computer_revocations d) (agent_guest_sessions d) (native_guest_accounts d) (native_guest_credential_ids d) (native_guest_recoveries d) (gateway_session_tickets d) (desktop_access_policies d) (pve_jobs d) (audit_events d) (audit_seq d) (oidc_providers d) (image_profiles d) (gpu_profiles d).
#[export] Instance set_group_desktop_assignments : Setter group_desktop_assignments := fun v d =>
  MkDB (users d) (web_sessions d) (native_sessions d) (native_auth_codes d) (api_tokens d) (oidc_auth_requests d) (external_identities d) (managed_desktops d) (agent_principals d) (user_desktop_assignments d) (agent_desktop_assignments d) v (identity_groups d) (identity_group_memberships d) (identity_profiles d) (guest_identity_bindings d) (guest_identity_revocations d) (desktop_connection_sessions d) (desktop_leases d) (desktop_computer_epochs d) (desktop_computer_revocations d) (agent_guest_sessions d) (native_guest_accounts d) (native_guest_credential_ids d) (native_guest_recoveries d) (gateway_session_tickets d) (desktop_access_policies d) (pve_jobs d) (audit_events d) (audit_seq d) (oidc_providers d) (image_profiles d) (gpu_profiles d).
#[export] Instance set_identity_groups : Setter identity_groups := fun v d =>
  MkDB (users d) (web_sessions d) (native_sessions d) (native_auth_codes d) (api_tokens d) (oidc_auth_requests d) (external_identities d) (managed_desktops d) (agent_principals d) (user_desktop_assignments d) (agent_desktop_assignments d) (group_desktop_assignments d) v (identity_group_memberships d) (identity_profiles d) (guest_identity_bindings d) (guest_identity_revocations d) (desktop_connection_sessions d) (desktop_leases d) (desktop_computer_epochs d) (desktop_computer_revocations d) (agent_guest_sessions d) (native_guest_accounts d) (native_guest_credential_ids d) (native_guest_recoveries d) (gateway_session_tickets d) (desktop_access_policies d) (pve_jobs d) (audit_events d) (audit_seq d) (oidc_providers d) (image_profiles d) (gpu_profiles d).
#[export] Instance set_identity_group_memberships : Setter identity_group_memberships := fun v d =>
  MkDB (users d) (web_sessions d) (native_sessions d) (native_auth_codes d) (api_tokens d) (oidc_auth_requests d) (external_identities d) (managed_desktops d) (agent_principals d) (user_desktop_assignments d) (agent_desktop_assignments d) (group_desktop_assignments d) (identity_groups d) v (identity_profiles d) (guest_identity_bindings d) (guest_identity_revocations d) (desktop_connection_sessions d) (desktop_leases d) (desktop_computer_epochs d) (desktop_computer_revocations d) (agent_guest_sessions d) (native_guest_accounts d) (native_guest_credential_ids d) (native_guest_recoveries d) (gateway_session_tickets d) (desktop_access_policies d) (pve_jobs d) (audit_events d) (audit_seq d) (oidc_providers d) (image_profiles d) (gpu_profiles d).
#[export] Instance set_identity_profiles : Setter identity_profiles := fun v d =>
  MkDB (users d) (web_sessions d) (native_sessions d) (native_auth_codes d) (api_tokens d) (oidc_auth_requests d) (external_identities d) (managed_desktops d) (agent_principals d) (user_desktop_assignments d) (agent_desktop_assignments d) (group_desktop_assignments d) (identity_groups d) (identity_group_memberships d) v (guest_identity_bindings d) (guest_identity_revocations d) (desktop_connection_sessions d) (desktop_leases d) (desktop_computer_epochs d) (desktop_computer_revocations d) (agent_guest_sessions d) (native_guest_accounts d) (native_guest_credential_ids d) (native_guest_recoveries d) (gateway_session_tickets d) (desktop_access_policies d) (pve_jobs d) (audit_events d) (audit_seq d) (oidc_providers d) (image_profiles d) (gpu_profiles d).
#[export] Instance set_guest_identity_bindings : Setter guest_identity_bindings := fun v d =>
  MkDB (users d) (web_sessions d) (native_sessions d) (native_auth_codes d) (api_tokens d) (oidc_auth_requests d) (external_identities d) (managed_desktops d) (agent_principals d) (user_desktop_assignments d) (agent_desktop_assignments d) (group_desktop_assignments d) (identity_groups d) (identity_group_memberships d) (identity_profiles d) v (guest_identity_revocations d) (desktop_connection_sessions d) (desktop_leases d) (desktop_computer_epochs d) (desktop_computer_revocations d) (agent_guest_sessions d) (native_guest_accounts d) (native_guest_credential_ids d) (native_guest_recoveries d) (gateway_session_tickets d) (desktop_access_policies d) (pve_jobs d) (audit_events d) (audit_seq d) (oidc_providers d) (image_profiles d) (gpu_profiles d).
#[export] Instance set_guest_identity_revocations : Setter guest_identity_revocations := fun v d =>
  MkDB (users d) (web_sessions d) (native_sessions d) (native_auth_codes d) (api_tokens d) (oidc_auth_requests d) (external_identities d) (managed_desktops d) (agent_principals d) (user_desktop_assignments d) (agent_desktop_assignments d) (group_desktop_assignments d) (identity_groups d) (identity_group_memberships d) (identity_profiles d) (guest_identity_bindings d) v (desktop_connection_sessions d) (desktop_leases d) (desktop_computer_epochs d) (desktop_computer_revocations d) (agent_guest_sessions d) (native_guest_accounts d) (native_guest_credential_ids d) (native_guest_recoveries d) (gateway_session_tickets d) (desktop_access_policies d) (pve_jobs d) (audit_events d) (audit_seq d) (oidc_providers d) (image_profiles d) (gpu_profiles d).
#[export] Instance set_desktop_connection_sessions : Setter desktop_connection_sessions := fun v d =>
  MkDB (users d) (web_sessions d) (native_sessions d) (native_auth_codes d) (api_tokens d) (oidc_auth_requests d) (external_identities d) (managed_desktops d) (agent_principals d) (user_desktop_assignments d) (agent_desktop_assignments d) (group_desktop_assignments d) (identity_groups d) (identity_group_memberships d) (identity_profiles d) (guest_identity_bindings d) (guest_identity_revocations d) v (desktop_leases d) (desktop_computer_epochs d) (desktop_computer_revocations d) (agent_guest_sessions d) (native_guest_accounts d) (native_guest_credential_ids d) (native_guest_recoveries d) (gateway_session_tickets d) (desktop_access_policies d) (pve_jobs d) (audit_events d) (audit_seq d) (oidc_providers d) (image_profiles d) (gpu_profiles d).
#[export] Instance set_desktop_leases : Setter desktop_leases := fun v d =>
  MkDB (users d) (web_sessions d) (native_sessions d) (native_auth_codes d) (api_tokens d) (oidc_auth_requests d) (external_identities d) (managed_desktops d) (agent_principals d) (user_desktop_assignments d) (agent_desktop_assignments d) (group_desktop_assignments d) (identity_groups d) (identity_group_memberships d) (identity_profiles d) (guest_identity_bindings d) (guest_identity_revocations d) (desktop_connection_sessions d) v (desktop_computer_epochs d) (desktop_computer_revocations d) (agent_guest_sessions d) (native_guest_accounts d) (native_guest_credential_ids d) (native_guest_recoveries d) (gateway_session_tickets d) (desktop_access_policies d) (pve_jobs d) (audit_events d) (audit_seq d) (oidc_providers d) (image_profiles d) (gpu_profiles d).
#[export] Instance set_desktop_computer_epochs : Setter desktop_computer_epochs := fun v d =>
  MkDB (users d) (web_sessions d) (native_sessions d) (native_auth_codes d) (api_tokens d) (oidc_auth_requests d) (external_identities d) (managed_desktops d) (agent_principals d) (user_desktop_assignments d) (agent_desktop_assignments d) (group_desktop_assignments d) (identity_groups d) (identity_group_memberships d) (identity_profiles d) (guest_identity_bindings d) (guest_identity_revocations d) (desktop_connection_sessions d) (desktop_leases d) v (desktop_computer_revocations d) (agent_guest_sessions d) (native_guest_accounts d) (native_guest_credential_ids d) (native_guest_recoveries d) (gateway_session_tickets d) (desktop_access_policies d) (pve_jobs d) (audit_events d) (audit_seq d) (oidc_providers d) (image_profiles d) (gpu_profiles d).
#[export] Instance set_desktop_computer_revocations : Setter desktop_computer_revocations := fun v d =>
  MkDB (users d) (web_sessions d) (native_sessions d) (native_auth_codes d) (api_tokens d) (oidc_auth_requests d) (external_identities d) (managed_desktops d) (agent_principals d) (user_desktop_assignments d) (agent_desktop_assignments d) (group_desktop_assignments d) (identity_groups d) (identity_group_memberships d) (identity_profiles d) (guest_identity_bindings d) (guest_identity_revocations d) (desktop_connection_sessions d) (desktop_leases d) (desktop_computer_epochs d) v (agent_guest_sessions d) (native_guest_accounts d) (native_guest_credential_ids d) (native_guest_recoveries d) (gateway_session_tickets d) (desktop_access_policies d) (pve_jobs d) (audit_events d) (audit_seq d) (oidc_providers d) (image_profiles d) (gpu_profiles d).
#[export] Instance set_agent_guest_sessions : Setter agent_guest_sessions := fun v d =>
  MkDB (users d) (web_sessions d) (native_sessions d) (native_auth_codes d) (api_tokens d) (oidc_auth_requests d) (external_identities d) (managed_desktops d) (agent_principals d) (user_desktop_assignments d) (agent_desktop_assignments d) (group_desktop_assignments d) (identity_groups d) (identity_group_memberships d) (identity_profiles d) (guest_identity_bindings d) (guest_identity_revocations d) (desktop_connection_sessions d) (desktop_leases d) (desktop_computer_epochs d) (desktop_computer_revocations d) v (native_guest_accounts d) (native_guest_credential_ids d) (native_guest_recoveries d) (gateway_session_tickets d) (desktop_access_policies d) (pve_jobs d) (audit_events d) (audit_seq d) (oidc_providers d) (image_profiles d) (gpu_profiles d).
#[export] Instance set_native_guest_accounts : Setter native_guest_accounts := fun v d =>
  MkDB (users d) (web_sessions d) (native_sessions d) (native_auth_codes d) (api_tokens d) (oidc_auth_requests d) (external_identities d) (managed_desktops d) (agent_principals d) (user_desktop_assignments d) (agent_desktop_assignments d) (group_desktop_assignments d) (identity_groups d) (identity_group_memberships d) (identity_profiles d) (guest_identity_bindings d) (guest_identity_revocations d) (desktop_connection_sessions d) (desktop_leases d) (desktop_computer_epochs d) (desktop_computer_revocations d) (agent_guest_sessions d) v (native_guest_credential_ids d) (native_guest_recoveries d) (gateway_session_tickets d) (desktop_access_policies d) (pve_jobs d) (audit_events d) (audit_seq d) (oidc_providers d) (image_profiles d) (gpu_profiles d).
#[export] Instance set_native_guest_credential_ids : Setter native_guest_credential_ids := fun v d =>
  MkDB (users d) (web_sessions d) (native_sessions d) (native_auth_codes d) (api_tokens d) (oidc_auth_requests d) (external_identities d) (managed_desktops d) (agent_principals d) (user_desktop_assignments d) (agent_desktop_assignments d) (group_desktop_assignments d) (identity_groups d) (identity_group_memberships d) (identity_profiles d) (guest_identity_bindings d) (guest_identity_revocations d) (desktop_connection_sessions d) (desktop_leases d) (desktop_computer_epochs d) (desktop_computer_revocations d) (agent_guest_sessions d) (native_guest_accounts d) v (native_guest_recoveries d) (gateway_session_tickets d) (desktop_access_policies d) (pve_jobs d) (audit_events d) (audit_seq d) (oidc_providers d) (image_profiles d) (gpu_profiles d).
#[export] Instance set_native_guest_recoveries : Setter native_guest_recoveries := fun v d =>
  MkDB (users d) (web_sessions d) (native_sessions d) (native_auth_codes d) (api_tokens d) (oidc_auth_requests d) (external_identities d) (managed_desktops d) (agent_principals d) (user_desktop_assignments d) (agent_desktop_assignments d) (group_desktop_assignments d) (identity_groups d) (identity_group_memberships d) (identity_profiles d) (guest_identity_bindings d) (guest_identity_revocations d) (desktop_connection_sessions d) (desktop_leases d) (desktop_computer_epochs d) (desktop_computer_revocations d) (agent_guest_sessions d) (native_guest_accounts d) (native_guest_credential_ids d) v (gateway_session_tickets d) (desktop_access_policies d) (pve_jobs d) (audit_events d) (audit_seq d) (oidc_providers d) (image_profiles d) (gpu_profiles d).
#[export] Instance set_gateway_session_tickets : Setter gateway_session_tickets := fun v d =>
  MkDB (users d) (web_sessions d) (native_sessions d) (native_auth_codes d) (api_tokens d) (oidc_auth_requests d) (external_identities d) (managed_desktops d) (agent_principals d) (user_desktop_assignments d) (agent_desktop_assignments d) (group_desktop_assignments d) (identity_groups d) (identity_group_memberships d) (identity_profiles d) (guest_identity_bindings d) (guest_identity_revocations d) (desktop_connection_sessions d) (desktop_leases d) (desktop_computer_epochs d) (desktop_computer_revocations d) (agent_guest_sessions d) (native_guest_accounts d) (native_guest_credential_ids d) (native_guest_recoveries d) v (desktop_access_policies d) (pve_jobs d) (audit_events d) (audit_seq d) (oidc_providers d) (image_profiles d) (gpu_profiles d).
#[export] Instance set_desktop_access_policies : Setter desktop_access_policies := fun v d =>
  MkDB (users d) (web_sessions d) (native_sessions d) (native_auth_codes d) (api_tokens d) (oidc_auth_requests d) (external_identities d) (managed_desktops d) (agent_principals d) (user_desktop_assignments d) (agent_desktop_assignments d) (group_desktop_assignments d) (identity_groups d) (identity_group_memberships d) (identity_profiles d) (guest_identity_bindings d) (guest_identity_revocations d) (desktop_connection_sessions d) (desktop_leases d) (desktop_computer_epochs d) (desktop_computer_revocations d) (agent_guest_sessions d) (native_guest_accounts d) (native_guest_credential_ids d) (native_guest_recoveries d) (gateway_session_tickets d) v (pve_jobs d) (audit_events d) (audit_seq d) (oidc_providers d) (image_profiles d) (gpu_profiles d).
#[export] Instance set_pve_jobs : Setter pve_jobs := fun v d =>
  MkDB (users d) (web_sessions d) (native_sessions d) (native_auth_codes d) (api_tokens d) (oidc_auth_requests d) (external_identities d) (managed_desktops d) (agent_principals d) (user_desktop_assignments d) (agent_desktop_assignments d) (group_desktop_assignments d) (identity_groups d) (identity_group_memberships d) (identity_profiles d) (guest_identity_bindings d) (guest_identity_revocations d) (desktop_connection_sessions d) (desktop_leases d) (desktop_computer_epochs d) (desktop_computer_revocations d) (agent_guest_sessions d) (native_guest_accounts d) (native_guest_credential_ids d) (native_guest_recoveries d) (gateway_session_tickets d) (desktop_access_policies d) v (audit_events d) (audit_seq d) (oidc_providers d) (image_profiles d) (gpu_profiles d).
#[export] Instance set_audit_events : Setter audit_events := fun v d =>
  MkDB (users d) (web_sessions d) (native_sessions d) (native_auth_codes d) (api_tokens d) (oidc_auth_requests d) (external_identities d) (managed_desktops d) (agent_principals d) (user_desktop_assignments d) (agent_desktop_assignments d) (group_desktop_assignments d) (identity_groups d) (identity_group_memberships d) (identity_profiles d) (guest_identity_bindings d) (guest_identity_revocations d) (desktop_connection_sessions d) (desktop_leases d) (desktop_computer_epochs d) (desktop_computer_revocations d) (agent_guest_sessions d) (native_guest_accounts d) (native_guest_credential_ids d) (native_guest_recoveries d) (gateway_session_tickets d) (desktop_access_policies d) (pve_jobs d) v (audit_seq d) (oidc_providers d) (image_profiles d) (gpu_profiles d).
#[export] Instance set_audit_seq : Setter audit_seq := fun v d =>
  MkDB (users d) (web_sessions d) (native_sessions d) (native_auth_codes d) (api_tokens d) (oidc_auth_requests d) (external_identities d) (managed_desktops d) (agent_principals d) (user_desktop_assignments d) (agent_desktop_assignments d) (group_desktop_assignments d) (identity_groups d) (identity_group_memberships d) (identity_profiles d) (guest_identity_bindings d) (guest_identity_revocations d) (desktop_connection_sessions d) (desktop_leases d) (desktop_computer_epochs d) (desktop_computer_revocations d) (agent_guest_sessions d) (native_guest_accounts d) (native_guest_credential_ids d) (native_guest_recoveries d) (gateway_session_tickets d) (desktop_access_policies d) (pve_jobs d) (audit_events d) v (oidc_providers d) (image_profiles d) (gpu_profiles d).
#[export] Instance set_oidc_providers : Setter oidc_providers := fun v d =>
  MkDB (users d) (web_sessions d) (native_sessions d) (native_auth_codes d) (api_tokens d) (oidc_auth_requests d) (external_identities d) (managed_desktops d) (agent_principals d) (user_desktop_assignments d) (agent_desktop_assignments d) (group_desktop_assignments d) (identity_groups d) (identity_group_memberships d) (identity_profiles d) (guest_identity_bindings d) (guest_identity_revocations d) (desktop_connection_sessions d) (desktop_leases d) (desktop_computer_epochs d) (desktop_computer_revocations d) (agent_guest_sessions d) (native_guest_accounts d) (native_guest_credential_ids d) (native_guest_recoveries d) (gateway_session_tickets d) (desktop_access_policies d) (pve_jobs d) (audit_events d) (audit_seq d) v (image_profiles d) (gpu_profiles d).
#[export] Instance set_image_profiles : Setter image_profiles := fun v d =>
  MkDB (users d) (web_sessions d) (native_sessions d) (native_auth_codes d) (api_tokens d) (oidc_auth_requests d) (external_identities d) (managed_desktops d) (agent_principals d) (user_desktop_assignments d) (agent_desktop_assignments d) (group_desktop_assignments d) (identity_groups d) (identity_group_memberships d) (identity_profiles d) (guest_identity_bindings d) (guest_identity_revocations d) (desktop_connection_sessions d) (desktop_leases d) (desktop_computer_epochs d) (desktop_computer_revocations d) (agent_guest_sessions d) (native_guest_accounts d) (native_guest_credential_ids d) (native_guest_recoveries d) (gateway_session_tickets d) (desktop_access_policies d) (pve_jobs d) (audit_events d) (audit_seq d) (oidc_providers d) v (gpu_profiles d).
#[export] Instance set_gpu_profiles : Setter gpu_profiles := fun v d =>
  MkDB (users d) (web_sessions d) (native_sessions d) (native_auth_codes d) (api_tokens d) (oidc_auth_requests d) (external_identities d) (managed_desktops d) (agent_principals d) (user_desktop_assignments d) (agent_desktop_assignments d) (group_desktop_assignments d) (identity_groups d) (identity_group_memberships d) (identity_profiles d) (guest_identity_bindings d) (guest_identity_revocations d) (desktop_connection_sessions d) (desktop_leases d) (desktop_computer_epochs d) (desktop_computer_revocations d) (agent_guest_sessions d) (native_guest_accounts d) (native_guest_credential_ids d) (native_guest_recoveries d) (gateway_session_tickets d) (desktop_access_policies d) (pve_jobs d) (audit_events d) (audit_seq d) (oidc_providers d) (image_profiles d) v.

Definition empty_db : DB :=
  MkDB [] [] [] [] [] [] [] [] [] [] [] [] [] [] [] [] [] [] [] [] [] [] [] [] [] [] [] [] [] 0 [] [] [].

(** ** Effective access ([031_clone_access_fence.sql])

    [desktop_clone_ready]: no platform clone that targets the VM is
    unsettled. *)
Definition unsettled_clone (j : Job) : bool :=
  (j_operation j == "pve.template_clone") && (j_state j != "succeeded").

Definition desktop_clone_ready (s : DB) (vmid : Z) : bool :=
  negb (exists_where (fun j => (j_target_vmid j == Some vmid) && unsettled_clone j) (pve_jobs s)).

Definition desktop_available (s : DB) (d : ManagedDesktop) : bool :=
  d_present d && d_enabled d && desktop_clone_ready s (d_vmid d).

(** The grants of a user on a desktop: owner of a personal one; direct or
    enabled-group assignment of a shared one. *)
Definition desktop_granted (s : DB) (user : string) (d : ManagedDesktop) : bool :=
  ((d_access_mode d == Personal) && (d_owner_user_id d == Some user)) ||
  ((d_access_mode d == Shared) &&
   (exists_where (fun a => (ua_user_id a == user) && (ua_desktop_vmid a == d_vmid d)) (user_desktop_assignments s) ||
    exists_where (fun a => (ga_desktop_vmid a == d_vmid d) &&
      exists_where (fun g => (g_id g == ga_group_id a) && g_enabled g &&
        exists_where (fun m => (m_group_id m == g_id g) && (m_user_id m == user)) (identity_group_memberships s))
        (identity_groups s))
      (group_desktop_assignments s))).

(** The view [effective_user_desktop_access], as the membership test of
    (user, vmid). *)
Definition effective_user_desktop_access (s : DB) (user : string) (vmid : Z) : bool :=
  exists_where (fun u => (u_id u == user) && negb (u_disabled u)) (users s) &&
  exists_where (fun d => (d_vmid d == vmid) && desktop_available s d && desktop_granted s user d)
    (managed_desktops s).

(** The agent counterpart, spelled out in each of its queries: an enabled
    principal assigned to an available desktop; [sel] is the query's selection
    of the desktop (by VMID, or by its text). *)
Definition agent_desktop_access (s : DB) (agent : string) (sel : ManagedDesktop -> bool) : bool :=
  exists_where (fun a => (aa_agent_id a == agent) &&
      exists_where (fun p => (ap_id p == aa_agent_id a) && ap_enabled p) (agent_principals s) &&
      exists_where (fun d => (d_vmid d == aa_desktop_vmid a) && sel d && desktop_available s d) (managed_desktops s))
    (agent_desktop_assignments s).

Definition by_vmid (vmid : Z) (d : ManagedDesktop) : bool := d_vmid d == vmid.
Definition by_text (desktop_id : string) (d : ManagedDesktop) : bool := itoa (d_vmid d) == desktop_id.

(** The tables the two definitions read. *)
Definition authz (s : DB) :=
  (users s, managed_desktops s, user_desktop_assignments s, group_desktop_assignments s,
   identity_groups s, identity_group_memberships s, agent_principals s, agent_desktop_assignments s, pve_jobs s).

Lemma effective_authz s s' u v : authz s' = authz s ->
  effective_user_desktop_access s' u v = effective_user_desktop_access s u v.
Proof.
  unfold authz. intros [= E1 E2 E3 E4 E5 E6 E7 E8 E9].
  unfold effective_user_desktop_access, desktop_available, desktop_granted, desktop_clone_ready.
  rewrite E1, E2, E3, E4, E5, E6, E9. done.
Qed.

Lemma agent_access_authz s s' a sel : authz s' = authz s ->
  agent_desktop_access s' a sel = agent_desktop_access s a sel.
Proof.
  unfold authz. intros [= E1 E2 E3 E4 E5 E6 E7 E8 E9].
  unfold agent_desktop_access, desktop_available, desktop_clone_ready. rewrite E2, E7, E8, E9. done.
Qed.

(** States of a connection that still holds its desktop. *)
Definition conn_open (c : DesktopConnectionSession) : bool :=
  (c_state c == CActive) || (c_state c == CRevoking).

(** A queued revocation that the Guest has not confirmed. *)
Definition q_pending (q : GuestIdentityRevocation) : bool := q_completed_revision q <? q_requested_revision q.
Definition r_pending (r : ComputerRevocation) : bool := r_completed_revision r <? r_requested_revision r.

Definition guest_revocation_pending (s : DB) (vmid : Z) : bool :=
  exists_where (fun q => (q_desktop_vmid q == vmid) && q_pending q) (guest_identity_revocations s).
Definition computer_revocation_pending (s : DB) (vmid : Z) : bool :=
  exists_where (fun r => (r_desktop_vmid r == vmid) && r_pending r) (desktop_computer_revocations s).

(** A native account whose credential work is unsettled or in force. *)
Definition native_reservation (a : NativeGuestAccount) : bool :=
  (a_state a == NPending) || ((a_operation a == NIssue) && (a_state a == NApplied)).

(** The database's text collation (a property of the deployment): the order
    behind [ORDER BY] and comparison of text columns. *)
Class Collation := text_le : string -> string -> bool.
Definition text_lt `{Collation} (a b : string) : bool := text_le a b && (a != b).

(** [INSERT INTO audit_events]: the next value of the table's sequence. *)
Definition insert_audit (now : time) (actor : option string) (event_type outcome : string)
  (target_type target_id : option string) (detail : json) : tx DB unit :=
  tmod (fun s => s <| audit_events := audit_events s ++
      [MkAuditEvent (audit_seq s + 1) actor event_type outcome target_type target_id detail now];
    audit_seq := audit_seq s + 1 |>).
