(* ===== verification/Json.v ===== *)
(** * JSON text ([encoding/json])

    The reader and writer behind every wire message of the program: the whole
    grammar (escapes, surrogate pairs, repair of invalid UTF-8), one document
    per text, and the printer of [Marshal] and [Encoder].  Fuel is the length
    of the text: every recursive call consumes a character.  Go's nesting
    limit of 10000 is out of reach of the bounded messages read here. *)
From stdpp Require Import base strings list.
From Stdlib Require Import ZArith Lia Ascii.
From S2P Require Import Prelude GoStrings Db.

Local Open Scope string_scope.
Local Open Scope list_scope.
Local Open Scope Z_scope.

Definition dquote : ascii := chr 34.
Definition backslash : ascii := chr 92.

(** ** Reading *)
Definition is_space (c : ascii) : bool := (ord c =? 32) || (ord c =? 9) || (ord c =? 10) || (ord c =? 13).

Fixpoint skip_ws (s : string) : string :=
  match s with
  | String c s' => if is_space c then skip_ws s' else s
  | EmptyString => s
  end.

(** Four hexadecimal digits. *)
Definition read_u4 (s : string) : option (Z * string) :=
  match s with
  | String a (String b (String c (String d r))) =>
      match hex_value a, hex_value b, hex_value c, hex_value d with
      | Some x, Some y, Some z, Some w => Some (4096 * x + 256 * y + 16 * z + w, r)
      | _, _, _, _ => None
      end
  | _ => None
  end.

(** The low half of a surrogate pair, after its high half [hi]. *)
Definition read_low_surrogate (hi : Z) (s : string) : option (Z * string) :=
  match s with
  | String b (String u r) =>
      if (b == backslash) && (u == "u"%char) then
        match read_u4 r with
        | Some (lo, r') =>
            if (0xD800 <=? hi) && (hi <? 0xDC00) && (0xDC00 <=? lo) && (lo <? 0xE000)
            then Some (0x10000 + (hi - 0xD800) * 1024 + (lo - 0xDC00), r') else None
        | None => None
        end
      else None
  | _ => None
  end.

Definition is_surrogate (r : Z) : bool := (0xD800 <=? r) && (r <? 0xE000).

(** The character after a backslash, other than [u]. *)
Definition simple_escape (c : ascii) : option ascii :=
  if (c == dquote) || (c == backslash) || (c == "/"%char) then Some c
  else if c == "b"%char then Some (chr 8) else if c == "f"%char then Some (chr 12)
  else if c == "n"%char then Some (chr 10) else if c == "r"%char then Some (chr 13)
  else if c == "t"%char then Some (chr 9) else None.

(** What follows the opening quote, up to the closing one. *)
Fixpoint read_chars (fuel : nat) (s : string) : option (string * string) :=
  match fuel, s with
  | S fuel', String c s' =>
      if c == dquote then Some ("", s')
      else if c == backslash then
        match s' with
        | String e r =>
            if e == "u"%char then
              '(u, r1) ← read_u4 r;
              if is_surrogate u then
                match read_low_surrogate u r1 with
                | Some (full, r2) => '(t, rest) ← read_chars fuel' r2; Some (utf8_encode full +:+ t, rest)
                | None => '(t, rest) ← read_chars fuel' r1; Some (replacement +:+ t, rest)
                end
              else '(t, rest) ← read_chars fuel' r1; Some (utf8_encode u +:+ t, rest)
            else
              x ← simple_escape e;
              '(t, rest) ← read_chars fuel' r;
              Some (String x t, rest)
        | EmptyString => None
        end
      else if ord c <? 0x20 then None
      else
        match rune_width s with
        | Some w => '(t, rest) ← read_chars fuel' (String.substring w (String.length s - w) s); Some (str_take w s +:+ t, rest)
        | None => '(t, rest) ← read_chars fuel' s'; Some (replacement +:+ t, rest)
        end
  | _, _ => None
  end.

Definition read_string (s : string) : option (string * string) :=
  match s with
  | String c s' => if c == dquote then read_chars (String.length s') s' else None
  | EmptyString => None
  end.

(** A run of digits, with the rest. *)
Fixpoint read_digits (s : string) : string * string :=
  match s with
  | String c s' => if is_digit c then let '(d, r) := read_digits s' in (String c d, r) else ("", s)
  | EmptyString => ("", "")
  end.

Definition read_int (s : string) : option (string * string) :=
  let '(d, r) := read_digits s in
  match d with
  | EmptyString => None
  | String c d' => if (c == "0"%char) && (d' != "") then Some ("0", d' +:+ r) else Some (d, r)
  end.

Definition read_fraction (s : string) : option (string * string) :=
  match s with
  | String c s' =>
      if c == "."%char then let '(d, r) := read_digits s' in if d == "" then None else Some ("." +:+ d, r) else Some ("", s)
  | EmptyString => Some ("", s)
  end.

Definition read_exponent (s : string) : option (string * string) :=
  match s with
  | String c s' =>
      if (c == "e"%char) || (c == "E"%char) then
        let '(sign, s1) := match s' with
          | String g s2 => if (g == "+"%char) || (g == "-"%char) then (String g "", s2) else ("", s')
          | EmptyString => ("", s')
          end in
        let '(d, r) := read_digits s1 in
        if d == "" then None else Some (String c (sign +:+ d), r)
      else Some ("", s)
  | EmptyString => Some ("", s)
  end.

(** The literal text of a number. *)
Definition read_number (s : string) : option (string * string) :=
  let '(sign, s1) := match s with
    | String c s' => if c == "-"%char then ("-", s') else ("", s)
    | EmptyString => ("", s)
    end in
  '(i, r1) ← read_int s1;
  '(f, r2) ← read_fraction r1;
  '(e, r3) ← read_exponent r2;
  Some (sign +:+ i +:+ f +:+ e, r3).

Definition read_literal (word : string) (v : json) (s : string) : option (json * string) :=
  r ← cut_prefix word s;
  Some (v, r).

(** A value, the members of an object after its brace or a comma, the
    elements of an array likewise. *)
Fixpoint read_value (fuel : nat) (s : string) : option (json * string) :=
  match fuel with
  | O => None
  | S fuel' =>
      let s := skip_ws s in
      match s with
      | EmptyString => None
      | String c s' =>
          if c == dquote then '(t, r) ← read_string s; Some (JStr t, r)
          else if c == "{"%char then
            match cut_prefix "}" (skip_ws s') with
            | Some r => Some (JObj [], r)
            | None => '(l, r) ← read_members fuel' s'; Some (JObj l, r)
            end
          else if c == "["%char then
            match cut_prefix "]" (skip_ws s') with
            | Some r => Some (JArr [], r)
            | None => '(l, r) ← read_elements fuel' s'; Some (JArr l, r)
            end
          else if c == "t"%char then read_literal "true" (JBool true) s
          else if c == "f"%char then read_literal "false" (JBool false) s
          else if c == "n"%char then read_literal "null" JNull s
          else '(t, r) ← read_number s; Some (JNum t, r)
      end
  end
with read_members (fuel : nat) (s : string) : option (list (string * json) * string) :=
  match fuel with
  | O => None
  | S fuel' =>
      '(k, r) ← read_string (skip_ws s);
      r1 ← cut_prefix ":" (skip_ws r);
      '(v, r2) ← read_value fuel' r1;
      let r3 := skip_ws r2 in
      match cut_prefix "," r3 with
      | Some r4 => '(l, r5) ← read_members fuel' r4; Some ((k, v) :: l, r5)
      | None => r4 ← cut_prefix "}" r3; Some ([(k, v)], r4)
      end
  end
with read_elements (fuel : nat) (s : string) : option (list json * string) :=
  match fuel with
  | O => None
  | S fuel' =>
      '(v, r2) ← read_value fuel' s;
      let r3 := skip_ws r2 in
      match cut_prefix "," r3 with
      | Some r4 => '(l, r5) ← read_elements fuel' r4; Some (v :: l, r5)
      | None => r4 ← cut_prefix "]" r3; Some ([v], r4)
      end
  end.

(** One document and nothing but space after it: [Unmarshal], or a decoder
    whose next [Decode] must meet [io.EOF]. *)
Definition json_document (s : string) : option json :=
  '(v, r) ← read_value (S (String.length s)) s;
  if skip_ws r == "" then Some v else None.

(** ** Writing *)
Definition short_escape (c : ascii) : option ascii :=
  if (c == dquote) || (c == backslash) then Some c
  else if ord c =? 8 then Some "b"%char else if ord c =? 12 then Some "f"%char
  else if ord c =? 10 then Some "n"%char else if ord c =? 13 then Some "r"%char
  else if ord c =? 9 then Some "t"%char else None.

(** A control character or one of the HTML characters [<], [>], [&]. *)
Definition hex_escaped (c : ascii) : bool := (ord c <? 0x20) || (c == "<"%char) || (c == ">"%char) || (c == "&"%char).

Definition quote_char (c : ascii) : string :=
  match short_escape c with
  | Some e => String backslash (String e "")
  | None =>
      if hex_escaped c
      then String backslash ("u00" +:+ String (hex_digit (ord c / 16)) (String (hex_digit (ord c mod 16)) ""))
      else String c ""
  end.

Fixpoint quote_chars (fuel : nat) (s : string) : string :=
  match fuel, s with
  | S fuel', String c s' =>
      if is_ascii c then quote_char c +:+ quote_chars fuel' s'
      else match rune_width s with
           | Some w =>
               let run := str_take w s in
               (if run == byte_string [0xE2; 0x80; 0xA8] then String backslash "u2028"
                else if run == byte_string [0xE2; 0x80; 0xA9] then String backslash "u2029" else run) +:+
               quote_chars fuel' (String.substring w (String.length s - w) s)
           | None => String backslash "ufffd" +:+ quote_chars fuel' s'
           end
  | _, _ => ""
  end.

Definition print_string (s : string) : string :=
  String dquote (quote_chars (String.length s) s +:+ String dquote "").

Fixpoint json_print (v : json) : string :=
  match v with
  | JNull => "null"
  | JBool true => "true"
  | JBool false => "false"
  | JNum t => t
  | JStr s => print_string s
  | JArr l => "[" +:+ join "," (List.map json_print l) +:+ "]"
  | JObj l => "{" +:+ join "," (List.map (fun e => print_string (fst e) +:+ ":" +:+ json_print (snd e)) l) +:+ "}"
  end.

(** ** Objects as Go reads them into structs and maps *)
Definition keys_distinct (l : list (string * json)) : bool := unique_index (fun e => Some (fst e)) l.

(** [foldName] against an ASCII field name: ASCII case, the long s and the
    Kelvin sign fold. *)
Fixpoint fold_name (fuel : nat) (s : string) : string :=
  match fuel, s with
  | S fuel', String c s' =>
      if is_ascii c then String (if is_lower c then chr (ord c - 32) else c) (fold_name fuel' s')
      else match cut_prefix (byte_string [0xC5; 0xBF]) s, cut_prefix (byte_string [0xE2; 0x84; 0xAA]) s with
           | Some r, _ => String "S" (fold_name fuel' r)
           | None, Some r => String "K" (fold_name fuel' r)
           | None, None => String c (fold_name fuel' s')
           end
  | _, _ => ""
  end.
Definition folded (s : string) : string := fold_name (String.length s) s.

(** The struct field a key is stored in: an exact match first. *)
Definition field_of (fields : list string) (k : string) : option string :=
  if existsb (fun f => f == k) fields then Some k else List.find (fun f => folded f == folded k) fields.

(** [DisallowUnknownFields]: every key names a field. *)
Definition known_fields (fields : list string) (l : list (string * json)) : bool :=
  forallb (fun e => match field_of fields (fst e) with Some _ => true | None => false end) l.

(** The values stored into field [f], in order; the last one stays. *)
Definition field_values (fields : list string) (f : string) (l : list (string * json)) : list json :=
  List.map snd (List.filter (fun e => field_of fields (fst e) == Some f) l).

(** Storing into a Go string: null leaves it alone. *)
Definition store_string (old : string) (v : json) : option string :=
  match v with JStr s => Some s | JNull => Some old | _ => None end.

(** A JSON integer literal into an [int64]. *)
Definition int_literal (t : string) : option Z :=
  match cut_prefix "-" t with
  | Some d => match parse_uint 64 d with Some n => Some (- Z.of_N n) | None => None end
  | None => match parse_uint 64 t with Some n => Some (Z.of_N n) | None => None end
  end.

Definition store_int (lo hi : Z) (old : Z) (v : json) : option Z :=
  match v with
  | JNum t => match int_literal t with Some z => if (lo <=? z) && (z <=? hi) then Some z else None | None => None end
  | JNull => Some old
  | _ => None
  end.
Definition store_int64 := store_int (- 2 ^ 63) (2 ^ 63 - 1).

(** Into an unsigned integer: no sign. *)
Definition store_uint (hi : Z) (old : Z) (v : json) : option Z :=
  match v with
  | JNum t => match parse_uint 64 t with Some n => if Z.of_N n <=? hi then Some (Z.of_N n) else None | None => None end
  | JNull => Some old
  | _ => None
  end.
Definition store_bool (old : bool) (v : json) : option bool :=
  match v with JBool b => Some b | JNull => Some old | _ => None end.
(** Through a pointer: null resets it, a value is stored into what it points
    at. *)
Definition store_ptr {A} (store : A -> json -> option A) (zero : A) (old : option A) (v : json) : option (option A) :=
  match v with JNull => Some None | _ => a ← store (default zero old) v; Some (Some a) end.
(** [json.RawMessage]: the value itself, null included. *)
Definition store_raw (old : option json) (v : json) : option (option json) := Some (Some v).

(** Successive stores of the values a field received. *)
Definition decode_field {A} (store : A -> json -> option A) (zero : A) (vs : list json) : option A :=
  fold_left (fun acc v => a ← acc; store a v) vs (Some zero).

(** * Reading back what was written

    [json_document] inverts [json_print] on every object of strings in valid
    UTF-8 and integers, which is what the wire messages of the program are. *)

(** ** Strings *)
Lemma append_assoc_s (a b c : string) : (a +:+ b) +:+ c = a +:+ (b +:+ c).
Proof. induction a as [| x a IH]; [done |]. by rewrite !app_String, IH. Qed.

Lemma append_nil_s (a : string) : a +:+ "" = a.
Proof. induction a as [| x a IH]; [done |]. by rewrite app_String, IH. Qed.

Lemma substring_all t : String.substring 0 (String.length t) t = t.
Proof. induction t as [| c t IH]; simpl; congruence. Qed.

Lemma length_app_s (a b : string) : String.length (a +:+ b) = (String.length a + String.length b)%nat.
Proof. induction a as [| x a IH]; [done |]. rewrite app_String. simpl. lia. Qed.

Lemma str_take_app a t : str_take (String.length a) (a +:+ t) = a.
Proof. unfold str_take. induction a as [| x a IH]; [by destruct t |]. rewrite app_String. simpl. by rewrite IH. Qed.

Lemma substring_app a t : String.substring (String.length a) (String.length (a +:+ t) - String.length a) (a +:+ t) = t.
Proof.
  induction a as [| x a IH]; [rewrite app_EmptyString, Nat.sub_0_r; apply substring_all |].
  rewrite app_String. simpl. apply IH.
Qed.

(** The three ways a character is written. *)
Lemma quote_char_cases c : is_ascii c = true ->
  (exists e, quote_char c = String backslash (String e "") /\ simple_escape e = Some c /\ e <> "u"%char) \/
  (exists x y, quote_char c = String backslash ("u00" +:+ String x (String y "")) /\
     (forall r, read_u4 (String "0" (String "0" (String x (String y r)))) = Some (ord c, r)) /\ is_surrogate (ord c) = false /\
     utf8_encode (ord c) = String c "") \/
  (quote_char c = String c "" /\ (c == dquote) = false /\ (c == backslash) = false /\ (ord c <? 32) = false /\
     forall t, rune_width (String c t) = Some 1%nat).
Proof.
  destruct c as [[] [] [] [] [] [] [] []]; intros Ha; try (exfalso; vm_compute in Ha; discriminate);
  first [ left; eexists; split; [vm_compute; reflexivity |]; split; [vm_compute; reflexivity | vm_compute; discriminate]
        | right; right; split; [vm_compute; reflexivity |]; do 3 (split; [vm_compute; reflexivity |]); intros t; reflexivity
        | right; left; do 2 eexists; split; [vm_compute; reflexivity |]; split; [intros r; vm_compute; reflexivity |];
          split; vm_compute; reflexivity ].
Qed.

Lemma read_quote_char c f t : is_ascii c = true ->
  read_chars (S f) (quote_char c +:+ t) = '(x, rest) ← read_chars f t; Some (String c x, rest).
Proof.
  intros Ha. destruct (quote_char_cases c Ha) as [(e & -> & He & Hu) | [(x & y & -> & Hr & Hs & Hen) | (-> & Hd & Hb & Hlo & Hw)]].
  - rewrite !app_String, app_EmptyString. cbn [read_chars]. rewrite (bool_decide_false (e = "u"%char)) by done. rewrite He. done.
  - rewrite !app_String, !app_EmptyString. cbn [read_chars].
    change (bool_decide (backslash = dquote)) with false. rewrite !eqb_refl.
    change (String x (String y "") +:+ t) with (String x (String y t)). rewrite Hr. cbn [mbind option_bind]. rewrite Hs, Hen.
    destruct (read_chars f t) as [[] |]; done.
  - rewrite app_String, app_EmptyString. cbn [read_chars]. rewrite Hd, Hb, Hlo, Hw. cbn [String.length].
    replace (S (String.length t) - 1)%nat with (String.length t) by lia. cbn [String.substring]. rewrite substring_all.
    destruct (read_chars f t) as [[] |]; [destruct t; done | done].
Qed.

(** *** Text outside ASCII *)
Lemma ascii_width c t : is_ascii c = true -> rune_width (String c t) = Some 1%nat.
Proof. intros H. cbn [rune_width]. unfold byte_range, is_ascii in *. pose proof (ord_range c). by replace (_ && _) with true by (symmetry; b2p; lia). Qed.

(** A rune outside ASCII has its width wherever it stands, and never starts
    like an ASCII character. *)
Lemma rune_width_run s w : rune_width s = Some w ->
  exists run r, s = run +:+ r /\ String.length run = w /\ (1 <= w)%nat /\ forall t, rune_width (run +:+ t) = Some w.
Proof.
  destruct s as [| a [| b [| c [| d r]]]]; cbn [rune_width]; intros H; repeat case_match; try discriminate; injection H as <-;
  match goal with |- context [(1 <= ?n)%nat] =>
    match n with
    | 1%nat => eexists (String a ""), _ | 2%nat => eexists (String a (String b "")), _
    | 3%nat => eexists (String a (String b (String c ""))), _ | 4%nat => eexists (String a (String b (String c (String d "")))), _
    end end;
  (split; [reflexivity |]); (split; [reflexivity |]); (split; [lia |]); intros t; rewrite !app_String, app_EmptyString; cbn [rune_width];
  repeat match goal with H : ?b = _ |- context [?b] => rewrite H end; try reflexivity.
Qed.

(** Text as a sequence of runes. *)
Inductive runs : string -> Prop :=
| runs_nil : runs ""
| runs_cons run s : (1 <= String.length run)%nat -> (forall t, rune_width (run +:+ t) = Some (String.length run)) -> runs s ->
    runs (run +:+ s).

Lemma ValidString_runs s : ValidString s = true -> runs s.
Proof.
  unfold ValidString. generalize (String.length s). intros f. revert s. induction f as [| f IH]; intros [| c s] H; try done; [constructor.. |].
  cbn [utf8_runs] in H. destruct (rune_width (String c s)) as [w |] eqn:E; [| done].
  apply rune_width_run in E as (run & r & Hs & <- & Hlen & Hw). rewrite Hs, substring_app in H. rewrite Hs. constructor; auto.
Qed.

Lemma ascii_ValidString s : str_forall is_ascii s = true -> ValidString s = true.
Proof.
  unfold ValidString. induction s as [| c s IH]; [done |]. simpl. intros [Hc Hs]%andb_true_iff.
  change (match rune_width (String c s) with Some w => utf8_runs (String.length s) (String.substring w (S (String.length s) - w) (String c s)) | None => false end = true).
  rewrite ascii_width by done. change (S (String.length s) - 1)%nat with (String.length s - 0)%nat. rewrite Nat.sub_0_r.
  cbn [String.substring]. rewrite substring_all. auto.
Qed.

Definition quote_run (run : string) : string :=
  if run == byte_string [0xE2; 0x80; 0xA8] then String backslash "u2028"
  else if run == byte_string [0xE2; 0x80; 0xA9] then String backslash "u2029" else run.

Lemma read_run f c run t : is_ascii c = false -> (forall t, rune_width (String c run +:+ t) = Some (String.length (String c run))) ->
  read_chars (S f) (quote_run (String c run) +:+ t) = '(x, rest) ← read_chars f t; Some (String c run +:+ x, rest).
Proof.
  intros Hc Hw. unfold quote_run.
  case_bool_decide as E1; [rewrite E1; reflexivity |]. case_bool_decide as E2; [rewrite E2; reflexivity |].
  assert ((c == dquote) = false /\ (c == backslash) = false /\ (ord c <? 32) = false) as (Hd & Hb & Hlo).
  { clear - Hc. destruct c as [[] [] [] [] [] [] [] []]; vm_compute in Hc; try discriminate; vm_compute; tauto. }
  pose proof (str_take_app (String c run) t) as Ht. pose proof (substring_app (String c run) t) as Hs. specialize (Hw t).
  rewrite app_String in *. cbn [read_chars]. rewrite Hd, Hb, Hlo, Hw, Ht, Hs. done.
Qed.

Lemma quote_chars_run f c run s : is_ascii c = false -> (forall t, rune_width (String c run +:+ t) = Some (String.length (String c run))) ->
  quote_chars (S f) (String c run +:+ s) = quote_run (String c run) +:+ quote_chars f s.
Proof.
  intros Hc Hw. pose proof (str_take_app (String c run) s) as Ht. pose proof (substring_app (String c run) s) as Hs. specialize (Hw s).
  rewrite app_String in *. cbn [quote_chars]. by rewrite Hc, Hw, Ht, Hs.
Qed.

(** An ASCII character is a run of its own. *)
Lemma ascii_run c run : is_ascii c = true -> (forall t, rune_width (String c run +:+ t) = Some (String.length (String c run))) -> run = "".
Proof.
  intros Hc Hw. specialize (Hw ""). rewrite app_String, ascii_width in Hw by done. injection Hw as Hw. by destruct run.
Qed.

Lemma quote_length c run : (1 <= String.length (quote_run (String c run)))%nat /\ (is_ascii c = true -> (1 <= String.length (quote_char c))%nat).
Proof.
  split; [unfold quote_run; repeat case_match; simpl; lia |]. intros Ha.
  destruct (quote_char_cases c Ha) as [(e & -> & _) | [(x & y & -> & _) | (-> & _)]]; simpl; lia.
Qed.

(** Quoting and reading back, with as much fuel as there is text. *)
Lemma read_quoted s : runs s -> forall rest f g, (String.length s <= g)%nat -> (String.length (quote_chars g s) < f)%nat ->
  read_chars f (quote_chars g s +:+ String dquote rest) = Some (s, rest).
Proof.
  induction 1 as [| run s Hl Hw Hs IH]; intros rest f g Hg Hf.
  - destruct f; [lia |]. by destruct g.
  - destruct run as [| c run]; [simpl in Hl; lia |]. destruct g as [| g]; [simpl in Hg; lia |].
    rewrite length_app_s in Hg. simpl in Hg. destruct f as [| f]; [lia |]. destruct (quote_length c run) as [Hq1 Hq2].
    destruct (is_ascii c) eqn:Ha.
    + assert (run = "") as -> by (by apply (ascii_run c)). rewrite app_String, app_EmptyString in *. cbn [quote_chars] in *.
      rewrite Ha in *. specialize (Hq2 eq_refl). rewrite length_app_s in Hf. rewrite append_assoc_s, read_quote_char by done.
      rewrite IH by (simpl in *; lia). done.
    + rewrite quote_chars_run in * by done. rewrite length_app_s in Hf. rewrite append_assoc_s, read_run by done.
      rewrite IH by lia. done.
Qed.

Lemma read_print_string s rest : ValidString s = true -> read_string (print_string s +:+ rest) = Some (s, rest).
Proof.
  intros Ha%ValidString_runs. unfold print_string, read_string. rewrite app_String, eqb_refl, append_assoc_s.
  change (String dquote "" +:+ rest) with (String dquote rest). apply read_quoted; [done | lia |]. rewrite length_app_s. simpl. lia.
Qed.

(** ** Numbers *)
Lemma read_digits_app d r : str_forall is_digit d = true ->
  (match r with String c _ => is_digit c = false | EmptyString => True end) -> read_digits (d +:+ r) = (d, r).
Proof.
  intros Hd Hr. induction d as [| c d IH].
  - destruct r as [| c r]; [done |]. simpl. by rewrite Hr.
  - simpl in Hd. apply andb_true_iff in Hd as [Hc Hd]. rewrite app_String. simpl. by rewrite Hc, (IH Hd).
Qed.

(** What follows a member of an object or an element of an array. *)
Definition delimits (r : string) : Prop := exists c r', r = String c r' /\ (c = ","%char \/ c = "}"%char \/ c = "]"%char).

Lemma format_uint_no_zero n : (0 < n)%N -> exists c d, format_uint n = String c d /\ is_digit c = true /\ (c == "0"%char) = false.
Proof.
  intros Hn. pose proof (format_uint_digits n) as Hd. unfold format_uint in *.
  pose proof (DecimalN.Unsigned.to_of (N.to_uint n)) as H. rewrite DecimalN.Unsigned.of_to in H.
  destruct (N.to_uint n) as [| u | u | u | u | u | u | u | u | u | u] eqn:E; simpl in *;
    try (do 2 eexists; split; [reflexivity |]; done).
  - apply (f_equal N.of_uint) in E. rewrite DecimalN.Unsigned.of_to in E. simpl in E. lia.
  - exfalso. unfold Decimal.unorm in H. destruct (Decimal.nzhead (Decimal.D0 u)) eqn:En; try discriminate.
    + injection H as ->. apply (f_equal N.of_uint) in E. rewrite DecimalN.Unsigned.of_to in E. simpl in E. lia.
    + by apply (DecimalFacts.nzhead_nonzero _ _ En).
Qed.

Lemma delimits_stop r : delimits r -> exists c r', r = String c r' /\ is_digit c = false /\
  (c == "."%char) = false /\ (c == "e"%char) = false /\ (c == "E"%char) = false.
Proof. intros (c & r' & -> & [-> | [-> | ->]]); do 2 eexists; (split; [reflexivity | vm_compute; tauto]). Qed.

Lemma read_int_uint n r : delimits r -> read_int (format_uint n +:+ r) = Some (format_uint n, r).
Proof.
  intros (c & r' & -> & Hc & _)%delimits_stop. unfold read_int. rewrite read_digits_app by (apply format_uint_digits || done).
  destruct (N.eq_0_gt_0_cases n) as [-> | Hn]; [done |]. apply format_uint_no_zero in Hn as (a & d & -> & _ & ->). done.
Qed.

Lemma read_number_int z r : delimits r -> read_number (itoa z +:+ r) = Some (itoa z, r).
Proof.
  intros Hr. pose proof (delimits_stop r Hr) as (c & r' & -> & Hd & Hdot & He & HE). unfold itoa.
  assert (forall n, read_fraction (String c r') = Some ("", String c r') /\ read_exponent (String c r') = Some ("", String c r') /\
    read_int (format_uint n +:+ String c r') = Some (format_uint n, String c r')) as Hall.
  { intros n. split_and!; [simpl; by rewrite Hdot | simpl; by rewrite He, HE | by apply read_int_uint]. }
  unfold read_number. destruct (z <? 0).
  - destruct (Hall (Z.to_N (- z))) as (Hf & Hx & Hi). rewrite app_String.
    rewrite !eqb_refl, Hi. cbn [mbind option_bind]. rewrite Hf. cbn [mbind option_bind]. rewrite Hx. cbn [mbind option_bind]. by rewrite !append_nil_s.
  - destruct (Hall (Z.to_N z)) as (Hf & Hx & Hi). pose proof (format_uint_digits (Z.to_N z)) as Hds.
    pose proof (format_uint_nonempty (Z.to_N z)) as Hne. destruct (format_uint (Z.to_N z)) as [| a d] eqn:Ed; [done |].
    rewrite app_String in *. simpl in Hds. apply andb_true_iff in Hds as [Ha _].
    assert ((a == "-"%char) = false) as Hm by (destruct (a == "-"%char) eqn:E; [b2p; subst; done | done]).
    rewrite Hm, Hi. cbn [mbind option_bind]. rewrite Hf. cbn [mbind option_bind]. rewrite Hx. cbn [mbind option_bind]. by rewrite !append_nil_s.
Qed.

(** ** Flat objects *)
Definition wire_value (v : json) : Prop :=
  match v with JStr s => ValidString s = true | JNum t => exists z, t = itoa z | _ => False end.
Definition wire_member (e : string * json) : Prop := ValidString (fst e) = true /\ wire_value (snd e).
Definition print_member (e : string * json) : string := print_string (fst e) +:+ ":" +:+ json_print (snd e).

(** An integer does not start like another kind of value. *)
Lemma itoa_head z : exists a d, itoa z = String a d /\ (is_digit a || (a == "-"%char)) = true.
Proof.
  unfold itoa. destruct (z <? 0); [do 2 eexists; split; reflexivity |].
  pose proof (format_uint_digits (Z.to_N z)) as Hd. pose proof (format_uint_nonempty (Z.to_N z)) as Hn.
  destruct (format_uint (Z.to_N z)) as [| a d]; [done |]. simpl in Hd. apply andb_true_iff in Hd as [Ha _].
  exists a, d. by rewrite Ha.
Qed.

Lemma number_head a : (is_digit a || (a == "-"%char)) = true ->
  is_space a = false /\ (a == dquote) = false /\ (a == "{"%char) = false /\ (a == "["%char) = false /\
  (a == "t"%char) = false /\ (a == "f"%char) = false /\ (a == "n"%char) = false.
Proof. destruct a as [[] [] [] [] [] [] [] []]; vm_compute; intros H; try discriminate H; tauto. Qed.

Lemma read_wire_value f v r : wire_value v -> delimits r -> read_value (S f) (json_print v +:+ r) = Some (v, r).
Proof.
  destruct v as [| | t | s | |]; cbn [wire_value json_print]; try done.
  - intros [z ->] Hr. destruct (itoa_head z) as (a & d & Ha & Hh). pose proof (read_number_int z r Hr) as Hn.
    rewrite Ha, app_String in *. apply number_head in Hh as (Hs & H1 & H2 & H3 & H4 & H5 & H6).
    cbn [read_value skip_ws]. rewrite Hs. cbn zeta iota. rewrite ?H1, ?H2, ?H3, ?H4, ?H5, ?H6, Hn. done.
  - intros Hs Hr. pose proof (read_print_string s r Hs) as Hp. unfold print_string in *. rewrite app_String in *.
    cbn [read_value skip_ws]. change (is_space dquote) with false. cbn zeta iota. rewrite eqb_refl, Hp. done.
Qed.

Lemma skip_ws_print_string s r : skip_ws (print_string s +:+ r) = print_string s +:+ r.
Proof. done. Qed.

(** ** Nested values *)
Fixpoint writable (v : json) : Prop :=
  match v with
  | JNum t => exists z, t = itoa z
  | JStr s => ValidString s = true
  | JArr l => Forall id (List.map writable l)
  | JObj l => Forall id (List.map (fun e => ValidString (fst e) = true /\ writable (snd e)) l)
  | _ => True
  end.
Definition compound (v : json) : bool := match v with JArr _ | JObj _ => true | _ => false end.
Definition print_len (v : json) : nat := String.length (json_print v).

(** A reader with fuel [f] reads the printed [v], whatever follows. *)
Definition read_back (f : nat) (v : json) : Prop :=
  forall r, delimits r \/ compound v = true -> read_value f (json_print v +:+ r) = Some (v, r).

Lemma Forall_id_map {A} (P : A -> Prop) l : Forall id (List.map P l) <-> Forall P l.
Proof. induction l as [| a l IH]; cbn; [by split |]. rewrite !Forall_cons. unfold id at 1. by rewrite IH. Qed.

Lemma wire_number_head z : exists c t, itoa z = String c t /\ is_space c = false /\ c <> "}"%char /\ c <> "]"%char.
Proof.
  destruct (itoa_head z) as (c & t & -> & Hc). exists c, t. split; [done |].
  revert Hc. destruct c as [[] [] [] [] [] [] [] []]; vm_compute; intros H; try discriminate H; (split; [done |]; split; discriminate).
Qed.

(** A printed value starts neither with a space nor with a closing bracket. *)
Lemma print_head v : writable v -> exists c t, json_print v = String c t /\ is_space c = false /\ c <> "}"%char /\ c <> "]"%char.
Proof.
  destruct v as [| [] | n | s | l | l]; cbn [writable json_print]; [.. | | |];
    try (intros _; do 2 eexists; split; [reflexivity |]; split; [done |]; split; discriminate).
  - intros [z ->]. apply wire_number_head.
Qed.

Lemma delimits_comma t : delimits (String "," t).
Proof. do 2 eexists; split; [reflexivity | by left]. Qed.
Lemma delimits_brace t : delimits (String "}" t).
Proof. do 2 eexists; split; [reflexivity | by right; left]. Qed.
Lemma delimits_bracket t : delimits (String "]" t).
Proof. do 2 eexists; split; [reflexivity | by right; right]. Qed.
#[export] Hint Resolve delimits_comma delimits_brace delimits_bracket : core.

(** One member, and what the text after it decides. *)
Lemma read_member f k v r : ValidString k = true -> read_back f v -> delimits r ->
  read_members (S f) (print_member (k, v) +:+ r) =
  match cut_prefix "," (skip_ws r) with
  | Some r4 => '(l, r5) ← read_members f r4; Some ((k, v) :: l, r5)
  | None => r4 ← cut_prefix "}" (skip_ws r); Some ([(k, v)], r4)
  end.
Proof.
  intros Hk Hv Hr. cbn [read_members]. unfold print_member. cbn [fst snd]. rewrite !append_assoc_s.
  rewrite skip_ws_print_string, read_print_string by done. cbn [mbind option_bind].
  change (cut_prefix ":" (skip_ws (":" +:+ ?t))) with (Some t). cbn [mbind option_bind]. by rewrite Hv by (by left).
Qed.

Lemma read_member_list l : forall e f r, Forall (fun e => ValidString (fst e) = true) (e :: l) ->
  (forall x g, In x (e :: l) -> (f - length l <= S g)%nat -> read_back g (snd x)) -> (length l < f)%nat ->
  read_members f (join "," (List.map print_member (e :: l)) +:+ String "}" r) = Some (e :: l, r).
Proof.
  induction l as [| e' l IH]; intros [k v] [| f] r [He Hl]%Forall_cons Hv Hf; simpl in Hf; try lia.
  - cbn [List.map join]. rewrite read_member; [done | done | | done]. apply (Hv (k, v)); [by left | simpl; lia].
  - change (join "," (List.map print_member ((k, v) :: e' :: l)))
      with (print_member (k, v) +:+ String "," (join "," (List.map print_member (e' :: l)))).
    rewrite append_assoc_s, app_String. rewrite read_member; [| done | | done].
    + change (skip_ws (String "," ?t)) with (String "," t). change (cut_prefix "," (String "," ?t)) with (Some t). cbn iota.
      rewrite IH; [done | done | | lia]. intros x g Hx Hg. apply Hv; [by right |]. simpl. lia.
    + apply (Hv (k, v)); [by left | simpl; lia].
Qed.

Lemma read_element f v r : read_back f v -> delimits r ->
  read_elements (S f) (json_print v +:+ r) =
  match cut_prefix "," (skip_ws r) with
  | Some r4 => '(l, r5) ← read_elements f r4; Some (v :: l, r5)
  | None => r4 ← cut_prefix "]" (skip_ws r); Some ([v], r4)
  end.
Proof. intros Hv Hr. cbn [read_elements]. by rewrite Hv by (by left). Qed.

Lemma read_element_list l : forall v f r,
  (forall x g, In x (v :: l) -> (f - length l <= S g)%nat -> read_back g x) -> (length l < f)%nat ->
  read_elements f (join "," (List.map json_print (v :: l)) +:+ String "]" r) = Some (v :: l, r).
Proof.
  induction l as [| v' l IH]; intros v [| f] r Hv Hf; simpl in Hf; try lia.
  - cbn [List.map join]. rewrite read_element; [done | | done]. apply Hv; [by left | simpl; lia].
  - change (join "," (List.map json_print (v :: v' :: l)))
      with (json_print v +:+ String "," (join "," (List.map json_print (v' :: l)))).
    rewrite append_assoc_s, app_String. rewrite read_element; [| | done].
    + change (skip_ws (String "," ?t)) with (String "," t). change (cut_prefix "," (String "," ?t)) with (Some t). cbn iota.
      rewrite IH; [done | | lia]. intros x g Hx Hg. apply Hv; [by right |]. simpl. lia.
    + apply Hv; [by left | simpl; lia].
Qed.

Lemma join_member_length w l : In w l -> (String.length w + (length l - 1) <= String.length (join "," l))%nat.
Proof.
  induction l as [| a [| b l] IH]; [done | intros [-> | []]; simpl; lia |].
  change (join "," (a :: b :: l)) with (a +:+ String "," (join "," (b :: l))).
  rewrite length_app_s. cbn [String.length length] in *. intros [-> | Hw]; [| specialize (IH Hw); lia].
  assert (length l <= String.length (join "," (b :: l)))%nat; [| lia].
  clear. revert b. induction l as [| c l IH]; intros b; [simpl; lia |].
  change (join "," (b :: c :: l)) with (b +:+ String "," (join "," (c :: l))). rewrite length_app_s. cbn [String.length length].
  specialize (IH c). lia.
Qed.

Lemma print_member_length e : (print_len (snd e) + 3 <= String.length (print_member e))%nat.
Proof. unfold print_member, print_string, print_len. rewrite !length_app_s. cbn [String.length]. rewrite length_app_s. cbn [String.length]. lia. Qed.

Lemma reads_scalar f v : writable v -> compound v = false -> read_back (S f) v.
Proof.
  intros Hw Hc r [Hr |]; [| congruence]. destruct v as [| [] | n | s | l | l]; try discriminate Hc.
  1-3: by cbn.
  1-2: by apply read_wire_value.
Qed.

Lemma read_array f s : read_value (S f) (String "[" s) =
  match cut_prefix "]" (skip_ws s) with Some r => Some (JArr [], r) | None => '(l, r) ← read_elements f s; Some (JArr l, r) end.
Proof. done. Qed.
Lemma read_object f s : read_value (S f) (String "{" s) =
  match cut_prefix "}" (skip_ws s) with Some r => Some (JObj [], r) | None => '(l, r) ← read_members f s; Some (JObj l, r) end.
Proof. done. Qed.

(** The text does not start with the bracket that would end an empty list. *)
Lemma no_bracket b c t : is_space c = false -> c <> b -> cut_prefix (String b "") (skip_ws (String c t)) = None.
Proof. intros Hs Hb. cbn [skip_ws]. rewrite Hs. cbn. by rewrite bool_decide_false by congruence. Qed.

Lemma join_head l c t u : join "," (String c t :: l) +:+ u = String c ((match l with [] => t | _ => t +:+ String "," (join "," l) end) +:+ u).
Proof. by destruct l. Qed.

(** What was printed is read back. *)
Lemma reads_printed v : forall f, writable v -> (print_len v < f)%nat -> read_back f v.
Proof.
  remember (print_len v) as n eqn:Hn. revert v Hn. induction (lt_wf n) as [n _ IH]; intros v -> [| f] Hw Hf; [lia |].
  destruct (compound v) eqn:Hc; [| by apply reads_scalar]. intros r _. unfold print_len in Hf, IH.
  destruct v as [| | | | l | l]; try discriminate Hc; cbn [writable json_print] in *; rewrite !length_app_s in *; cbn [String.length] in *;
    apply (proj1 (Forall_id_map _ _)) in Hw; rewrite Forall_forall in Hw;
    rewrite !append_assoc_s, app_String, ?app_EmptyString; [rewrite read_array | rewrite read_object]; (destruct l as [| v l]; [done |]).
  - destruct (print_head v) as (c & t & Ht & Hs & _ & Hb); [apply Hw; left |].
    change ("]" +:+ r) with (String "]" r).
    assert (cut_prefix "]" (skip_ws (join "," (List.map json_print (v :: l)) +:+ String "]" r)) = None) as ->.
    { cbn [List.map]. rewrite Ht, join_head. by apply no_bracket. }
    rewrite read_element_list; [done | |].
    + intros x g Hx Hg. pose proof (join_member_length _ _ (in_map json_print _ _ Hx)) as Hl. rewrite length_map in Hl. cbn [length] in Hl.
      apply (IH (print_len x)); unfold print_len; [lia | done | by apply Hw, list_elem_of_In | lia].
    + pose proof (join_member_length _ _ (in_map json_print (v :: l) v (or_introl eq_refl))) as Hl. rewrite length_map in Hl. cbn [length] in Hl. lia.
  - change ("}" +:+ r) with (String "}" r). change (List.map (fun e => print_string (fst e) +:+ ":" +:+ json_print (snd e)) (v :: l)) with (List.map print_member (v :: l)) in *.
    assert (cut_prefix "}" (skip_ws (join "," (List.map print_member (v :: l)) +:+ String "}" r)) = None) as ->.
    { cbn [List.map]. unfold print_member at 1, print_string. rewrite !app_String, join_head. by apply no_bracket. }
    rewrite read_member_list; [done | | |].
    + apply Forall_forall. intros x Hx. by apply (Hw x).
    + intros x g Hx Hg. pose proof (join_member_length _ _ (in_map print_member _ _ Hx)) as Hl. rewrite length_map in Hl. cbn [length] in Hl.
      pose proof (print_member_length x). apply (IH (print_len (snd x))); unfold print_len in *; [lia | done | by apply (Hw x), list_elem_of_In | lia].
    + pose proof (join_member_length _ _ (in_map print_member (v :: l) v (or_introl eq_refl))) as Hl. rewrite length_map in Hl. cbn [length] in Hl. lia.
Qed.

(** A printed object or array is one document. *)
Lemma json_document_printed v : writable v -> compound v = true -> json_document (json_print v) = Some v.
Proof.
  intros Hw Hc. unfold json_document. pose proof (reads_printed v (S (String.length (json_print v))) Hw ltac:(unfold print_len; lia) "" (or_intror Hc)) as H.
  rewrite append_nil_s in H. by rewrite H.
Qed.

(** A flat object is read back, whatever space follows it. *)
Lemma writable_flat l : Forall wire_member l -> writable (JObj l).
Proof.
  intros Hl. cbn [writable]. apply Forall_id_map. eapply Forall_impl; [exact Hl |]. intros [k v] [Hk Hv]. split; [done |].
  by destruct v.
Qed.

Lemma json_document_print l ws : Forall wire_member l -> skip_ws ws = "" ->
  json_document (json_print (JObj l) +:+ ws) = Some (JObj l).
Proof.
  intros Hl%writable_flat Hws. unfold json_document. rewrite length_app_s.
  rewrite (reads_printed (JObj l)); [| done | unfold print_len; lia | by right]. cbn. by rewrite Hws.
Qed.

(** ** Members and fields *)
Lemma coerce_valid fuel s : utf8_runs fuel s = true -> coerce_utf8 fuel s = s.
Proof.
  revert s. induction fuel as [| fuel IH]; intros [| c s] Hv; try done. cbn [utf8_runs coerce_utf8] in *.
  destruct (rune_width (String c s)) as [w |] eqn:Ew; [| done]. apply rune_width_run in Ew as (run & r & E & Hl & _).
  rewrite E in *. rewrite <- Hl, str_take_app, substring_app in *. by rewrite IH.
Qed.
Lemma json_text_valid s : ValidString s = true -> json_text s = s.
Proof. apply coerce_valid. Qed.

Lemma cut_prefix_minus a d : is_digit a = true -> cut_prefix "-" (String a d) = None.
Proof. destruct a as [[] [] [] [] [] [] [] []]; vm_compute; congruence. Qed.

Lemma int_literal_itoa z : - 2 ^ 63 <= z < 2 ^ 63 -> int_literal (itoa z) = Some z.
Proof.
  intros Hz. unfold int_literal, itoa. destruct (Z.ltb_spec z 0).
  - change (cut_prefix "-" (String "-" ?d)) with (Some d). cbn iota.
    rewrite (parse_format_uint 64) by lia. f_equal. lia.
  - pose proof (format_uint_digits (Z.to_N z)) as Hd. pose proof (format_uint_nonempty (Z.to_N z)) as Hn.
    pose proof (parse_format_uint 64 (Z.to_N z) ltac:(lia)) as Hp. destruct (format_uint (Z.to_N z)) as [| a d]; [done |].
    simpl in Hd. apply andb_true_iff in Hd as [Ha _]. rewrite cut_prefix_minus, Hp by done. f_equal. lia.
Qed.

Definition int64 (z : Z) : Prop := - 2 ^ 63 <= z < 2 ^ 63.

Lemma store_itoa old z : int64 z -> store_int64 old (JNum (itoa z)) = Some z.
Proof.
  intros Hz. unfold store_int64, store_int. rewrite int_literal_itoa by done. unfold int64 in Hz.
  by replace (_ && _) with true by (symmetry; b2p; lia).
Qed.

Lemma field_values_app fields f l l' : field_values fields f (l ++ l') = field_values fields f l ++ field_values fields f l'.
Proof. unfold field_values. by rewrite List.filter_app, List.map_app. Qed.
Lemma known_fields_app fields l l' : known_fields fields (l ++ l') = known_fields fields l && known_fields fields l'.
Proof. apply forallb_app. Qed.

(** What a member contributes to a field. *)
Lemma field_values_member fields f name v : field_values fields f [(name, v)] = if field_of fields name == Some f then [v] else [].
Proof. unfold field_values. cbn [List.filter fst]. by destruct (field_of fields name == Some f). Qed.
Lemma known_member fields name v : known_fields fields [(name, v)] = match field_of fields name with Some _ => true | None => false end.
Proof. unfold known_fields. cbn [forallb fst]. by rewrite andb_true_r. Qed.
