(* ===== verification/Demo.v ===== *)
(** * A small deployment

    A concrete database on which the hypotheses of the theorems are
    discharged: an administrator, two users, a personal and a shared desktop,
    one agent with an active lease, one open connection. *)
From stdpp Require Import base strings list.
From Stdlib Require Import ZArith Lia Ascii.
From S2P Require Import Prelude GoStrings Auth Net Db.

Local Open Scope string_scope.
Local Open Scope list_scope.
Local Open Scope Z_scope.

#[local] Instance demo_lower : UnicodeLower := fun s => s.

(** A stand-in for SHA-256: the last 32 bytes, padded. *)
Definition demo_sha : Sha256 := fun s => demo_pad 32 (String.substring (String.length s - 32) 32 s).
#[local] Instance demo_collation : Collation := fun a b => String.leb a b.

Definition hour : Z := 3600 * 1000000.
Definition digest (c : ascii) : bytes := String.string_of_list_ascii (repeat c 32).

Definition alice : User := MkUser "alice" "Alice" "alice" "Alice" (Some "hash-a") RegularUser false 0 0.
Definition bob : User := MkUser "bob" "Bob" "bob" "Bob" (Some "hash-b") RegularUser false 0 0.
Definition root : User := MkUser "root" "Root" "root" "Root" (Some "hash-r") PlatformAdmin false 0 0.

Definition desk101 : ManagedDesktop :=
  MkManagedDesktop 101 "Desk A" "pve1" "linux" true true Personal (Some "alice") None IdApplied None "" 0 0 0 0.
Definition desk102 : ManagedDesktop :=
  MkManagedDesktop 102 "Desk B" "pve1" "linux" true true Shared None None IdApplied None "" 0 0 0 0.

Definition agent1 : AgentPrincipal := MkAgentPrincipal "ag1" "Agent" (Some (digest "t")) true None 0 0 None.

Definition bind_alice : GuestIdentityBinding :=
  MkGuestIdentityBinding 101 "alice" None "vcw0123456789ab" BReady "" 0 (Some hour).
Definition conn_alice : DesktopConnectionSession :=
  MkDesktopConnectionSession "conn_aaaaaaaa" "alice" 101 "vcw0123456789ab" CActive hour 0 0 None false (Some (digest "n")).
Definition lease1 : DesktopLease := MkDesktopLease "lease1" "ag1" "102" LActive 1 hour 0 0.
Definition profile_linux : IdentityProfile :=
  MkIdentityProfile "managed-local-linux" "linux" "managed_local" true false "Managed" (JObj []) None 0.
Definition policy101 : DesktopAccessPolicy :=
  MkDesktopAccessPolicy 101 "standard" true false true 1 1 PolApplied "linux" "" None 0.

Definition demo_db : DB := empty_db
  <| users := [alice; bob; root];
     managed_desktops := [desk101; desk102];
     agent_principals := [agent1];
     agent_desktop_assignments := [MkAgentAssignment "ag1" 102 None 0];
     user_desktop_assignments := [MkUserAssignment "bob" 102 None 0] |>
  <| web_sessions := [MkWebSession (digest "w") "alice" "csrf" hour 0];
     native_sessions := [MkNativeSession (digest "n") "alice" hour 0];
     guest_identity_bindings := [bind_alice];
     desktop_connection_sessions := [conn_alice];
     desktop_leases := [lease1];
     desktop_computer_epochs := [MkComputerEpoch 102 1 0];
     desktop_access_policies := [policy101] |>
  <| identity_profiles := [profile_linux] |>.

(** The state and the value a committed transaction leaves. *)
Definition state_of {A} (m : tx DB A) (s : DB) : DB := snd (run m s).
Definition committed {A} (m : tx DB A) (s : DB) : bool :=
  match m s with inr _ => true | inl _ => false end.
