(* ===== verification/Triggers.v ===== *)
(** * Row triggers and CHECK constraints ([internal/store/migrations])

    The PL/pgSQL functions that guard leases, agent guest sessions, native
    guest accounts, identity bindings, connections and gateway tickets, and
    the statements through which every operation of the store writes those
    tables.  A statement runs the BEFORE ROW triggers in the order of their
    names, then the CHECK constraints, then the unique indexes, then the AFTER
    ROW triggers.  Advisory locks inside triggers only serialise transactions
    and have no counterpart here: a [tx] is one serialised transaction. *)
From stdpp Require Import base strings list.
From Stdlib Require Import ZArith Lia Ascii.
From S2P Require Import Prelude GoStrings GuestIdentity Net Db.

Local Open Scope string_scope.
Local Open Scope list_scope.
Local Open Scope Z_scope.

Definition check (ok : bool) : tx DB unit := ensure ok (ErrPg CheckViolation).
Definition raise_if (bad : bool) (c : pgcode) : tx DB unit := ensure (negb bad) (ErrPg c).

(** ** Guest OS identities *)

(** The decimal fields of the SID regular expression:
    [(0|[1-9][0-9]{0,9})]. *)
Definition sql_decimal (zero_ok : bool) (s : string) : bool :=
  (zero_ok && (s == "0")) ||
  (match s with
   | String c _ => (c != "0"%char) && str_forall is_digit s && (slen s <=? 10)
   | EmptyString => false
   end).

Definition sql_bigint (s : string) : Z := match parse_uint 64 s with Some n => Z.of_N n | None => 0 end.

Definition vcw_valid_windows_account_sid (value : string) : bool :=
  match split "-" value with
  | [s; one; five; x21; a; b; c; rid] =>
      (s == "S") && (one == "1") && (five == "5") && (x21 == "21") &&
      sql_decimal true a && sql_decimal true b && sql_decimal true c && sql_decimal false rid &&
      forallb (fun part => sql_bigint part <=? 4294967295) [a; b; c; rid] &&
      (1000 <=? sql_bigint rid)
  | _ => false
  end.

(** [session_id ~ '^windows:[1-9][0-9]*:[0-9a-f]{16}$'] *)
Definition windows_session_re (s : string) : bool :=
  match split ":" s with
  | [w; id; luid] =>
      (w == "windows") && (match id with String c _ => (c != "0"%char) | EmptyString => false end) &&
      str_forall is_digit id && str_forall is_lower_hex luid && (slen luid =? 16)
  | _ => false
  end.

(** The CHECK constraints of [agent_guest_sessions] (024, 026, 027). *)
Definition agent_guest_checks (g : AgentGuestSession) : bool :=
  match_class "vca" is_lower_hex 12 12 (s_guest_username g) &&
  (0 <? s_control_epoch g) && (0 <? s_generation g) && (0 <=? s_login_generation g) &&
  ((s_guest_uid g =? 0) || ((1000 <=? s_guest_uid g) && (s_guest_uid g <=? 4294967295))) &&
  ((s_os_family g == "linux") || (s_os_family g == "windows")) &&
  (((s_os_family g == "linux") && (s_guest_sid g == "")) ||
   ((s_os_family g == "windows") && (s_guest_uid g =? 0) &&
    ((s_guest_sid g == "") || vcw_valid_windows_account_sid (s_guest_sid g)))) &&
  ((s_state g != GReady) ||
   ((s_session_id g != "") && match_class "" is_lower_hex 64 64 (s_instance_id g) &&
    (((s_os_family g == "linux") && (1000 <=? s_guest_uid g) &&
      has_prefix ("linux:" +:+ itoa (s_guest_uid g) +:+ ":") (s_session_id g)) ||
     ((s_os_family g == "windows") && vcw_valid_windows_account_sid (s_guest_sid g) &&
      windows_session_re (s_session_id g))))) &&
  ((s_state g != GReady) || (0 <? s_login_generation g)).

(** Two rows that name the same OS account of one Guest. *)
Definition same_os_account (uid uid' : Z) (sid sid' : string) : bool :=
  ((1000 <=? uid) && (uid' =? uid)) || ((sid != "") && (sid' == sid)).

Section agent_guest_triggers.
Implicit Types (old new : AgentGuestSession).

Definition protect_agent_guest_account_binding old new : tx DB unit :=
  raise_if (negb ((s_desktop_vmid new == s_desktop_vmid old) && (s_agent_id new == s_agent_id old) &&
                  (s_guest_username new == s_guest_username old) && (s_os_family new == s_os_family old)))
    CheckViolation;;
  raise_if (((s_guest_uid old != 0) || (s_guest_sid old != "")) &&
            negb ((s_guest_uid new == s_guest_uid old) && (s_guest_sid new == s_guest_sid old)))
    CheckViolation.

(** The branch of [protect_cross_subject_guest_account] for this table. *)
Definition protect_cross_subject_agent new : tx DB unit :=
  if (s_guest_uid new =? 0) && (s_guest_sid new == "") then mret tt else
  s ← tget;
  raise_if (exists_where (fun a => (a_desktop_vmid a == s_desktop_vmid new) &&
              same_os_account (s_guest_uid new) (a_guest_uid a) (s_guest_sid new) (a_guest_sid a))
            (native_guest_accounts s))
    UniqueViolation.

Definition protect_agent_login_generation old new : tx DB unit :=
  if s_lease_id new == s_lease_id old then
    raise_if ((s_control_epoch new != s_control_epoch old) || (s_generation new != s_generation old) ||
              (s_login_generation new <? s_login_generation old) ||
              (1 <? s_login_generation new - s_login_generation old)) CheckViolation;;
    raise_if ((s_login_generation old <? s_login_generation new) &&
              (negb ((s_state old == GProvisioning) || (s_state old == GReady)) ||
               (s_state new != GProvisioning) || (s_session_id new != "") || (s_instance_id new != "") ||
               ((s_guest_uid new =? 0) && (s_guest_sid new == "")))) CheckViolation
  else
    raise_if ((s_state old != GDisabled) || (s_state new != GProvisioning) || (s_login_generation new != 0) ||
              (s_control_epoch new <=? s_control_epoch old) || (s_generation new - s_generation old != 1))
      CheckViolation.

Definition before_update_agent_guest old new : tx DB AgentGuestSession :=
  protect_agent_guest_account_binding old new;;
  protect_cross_subject_agent new;;
  protect_agent_login_generation old new;;
  check (agent_guest_checks new);;
  mret new.
End agent_guest_triggers.

(** The unique indexes of [agent_guest_sessions]. *)
Definition agent_guest_indexes (t : list AgentGuestSession) : bool :=
  unique_index (fun g => Some (s_desktop_vmid g, s_agent_id g)) t &&
  unique_index (fun g => Some (s_desktop_vmid g, s_guest_username g)) t &&
  unique_index (fun g => if 1000 <=? s_guest_uid g then Some (s_desktop_vmid g, s_guest_uid g) else None) t &&
  unique_index (fun g => if s_guest_sid g == "" then None else Some (s_desktop_vmid g, s_guest_sid g)) t.

(** [UPDATE agent_guest_sessions SET f WHERE p RETURNING *] *)
Definition update_agent_guest_sessions (p : AgentGuestSession -> bool) (f : AgentGuestSession -> AgentGuestSession)
  : tx DB (list AgentGuestSession) :=
  t ← tgets agent_guest_sessions;
  t' ← update_each p (fun old => before_update_agent_guest old (f old)) t;
  ensure (agent_guest_indexes t') (ErrPg UniqueViolation);;
  tmod (fun s => s <| agent_guest_sessions := t' |>);;
  mret (List.map snd (changed p t t')).

Definition insert_agent_guest_session (new : AgentGuestSession) : tx DB AgentGuestSession :=
  protect_cross_subject_agent new;;
  check (agent_guest_checks new);;
  t ← tgets agent_guest_sessions;
  ensure (agent_guest_indexes (t ++ [new])) (ErrPg UniqueViolation);;
  tmod (fun s => s <| agent_guest_sessions := t ++ [new] |>);;
  mret new.

(** ** Desktop leases *)
Definition native_reserved (s : DB) (desktop_id : string) : bool :=
  exists_where (fun a => (itoa (a_desktop_vmid a) == desktop_id) && native_reservation a) (native_guest_accounts s).

Section lease_triggers.
Context (now : time).
Implicit Types (old new : DesktopLease).

Definition protect_agent_lease_from_native_reservation new : tx DB unit :=
  s ← tget;
  raise_if ((l_state new == LActive) && native_reserved s (l_desktop_id new)) UniqueViolation.

(** [INSERT INTO desktop_computer_epochs ... ON CONFLICT DO UPDATE SET
    control_epoch=control_epoch+1 RETURNING control_epoch] *)
Definition current_epoch (s : DB) (vmid : Z) : option Z :=
  e_control_epoch <$> select_one (fun e => e_desktop_vmid e == vmid) (desktop_computer_epochs s).

Definition advance_epoch (vmid : Z) : tx DB Z :=
  s ← tget;
  let next := match current_epoch s vmid with Some e => e + 1 | None => 1 end in
  tmod (fun s => s <| desktop_computer_epochs :=
    upsert (fun e => e_desktop_vmid e == vmid)
           (fun e => e <| e_control_epoch := e_control_epoch e + 1; e_updated_at := now |>)
           (MkComputerEpoch vmid 1 now) (desktop_computer_epochs s) |>);;
  mret next.

Definition assign_desktop_computer_epoch (old : option DesktopLease) new : tx DB DesktopLease :=
  match old with
  | Some old =>
      raise_if ((l_desktop_id new != l_desktop_id old) || (l_agent_id new != l_agent_id old)) RaisedException
  | None => mret tt
  end;;
  match old with
  | Some old =>
      if (l_state new == l_state old) && (l_control_epoch new == l_control_epoch old) then mret new else
      raise_if ((l_state old != LActive) && (l_state new == LActive)) RaisedException;;
      s ← tget;
      d ← trow (select_one (by_text (l_desktop_id new)) (managed_desktops s)) (ErrPg NoDataFound);
      e ← advance_epoch (d_vmid d);
      mret (new <| l_control_epoch := e |>)
  | None =>
      s ← tget;
      d ← trow (select_one (by_text (l_desktop_id new)) (managed_desktops s)) (ErrPg NoDataFound);
      e ← advance_epoch (d_vmid d);
      mret (new <| l_control_epoch := e |>)
  end.

(** What both AFTER triggers react to. *)
Definition lease_closed old new : bool :=
  (l_state old == LActive) && ((l_state new != LActive) || (l_control_epoch new != l_control_epoch old)).

Definition revoke_agent_guest_session old new : tx DB unit :=
  if lease_closed old new then
    update_agent_guest_sessions
      (fun g => (s_lease_id g == l_id old) && ((s_state g == GProvisioning) || (s_state g == GReady)))
      (fun g => g <| s_state := GRevoking; s_updated_at := now |>);;
    mret tt
  else mret tt.

Definition queue_desktop_computer_revocation old new : tx DB unit :=
  if lease_closed old new then
    s ← tget;
    tfold (fun d => tmod (fun s => s <| desktop_computer_revocations :=
        upsert (fun r => r_desktop_vmid r == d_vmid d)
               (fun r => r <| r_requested_revision := r_requested_revision r + 1;
                              r_control_epoch := Z.max (r_control_epoch r) (l_control_epoch new);
                              r_updated_at := now |>)
               (MkComputerRevocation (d_vmid d) 1 0 (l_control_epoch new) now)
               (desktop_computer_revocations s) |>))
      (rows (by_text (l_desktop_id old)) (managed_desktops s))
  else mret tt.

Definition before_update_lease old new : tx DB DesktopLease :=
  protect_agent_lease_from_native_reservation new;;
  assign_desktop_computer_epoch (Some old) new.

Definition after_update_lease (o : DesktopLease * DesktopLease) : tx DB unit :=
  revoke_agent_guest_session (fst o) (snd o);;
  queue_desktop_computer_revocation (fst o) (snd o).

(** [desktop_leases_active_desktop_idx] and the primary key. *)
Definition lease_indexes (t : list DesktopLease) : bool :=
  unique_index (fun l => Some (l_id l)) t &&
  unique_index (fun l => if l_state l == LActive then Some (l_desktop_id l) else None) t.

(** [UPDATE desktop_leases SET f WHERE p RETURNING *] *)
Definition update_desktop_leases (p : DesktopLease -> bool) (f : DesktopLease -> DesktopLease)
  : tx DB (list DesktopLease) :=
  t ← tgets desktop_leases;
  t' ← update_each p (fun old => before_update_lease old (f old)) t;
  ensure (lease_indexes t') (ErrPg UniqueViolation);;
  tmod (fun s => s <| desktop_leases := t' |>);;
  tfold after_update_lease (changed p t t');;
  mret (List.map snd (changed p t t')).

Definition insert_desktop_lease new : tx DB DesktopLease :=
  protect_agent_lease_from_native_reservation new;;
  new' ← assign_desktop_computer_epoch None new;
  t ← tgets desktop_leases;
  ensure (lease_indexes (t ++ [new'])) (ErrPg UniqueViolation);;
  tmod (fun s => s <| desktop_leases := t ++ [new'] |>);;
  mret new'.
End lease_triggers.

(** ** Guest identity bindings *)
Definition protect_native_guest_binding_subject (old new : GuestIdentityBinding) : tx DB unit :=
  s ← tget;
  raise_if (negb ((b_desktop_vmid new == b_desktop_vmid old) && (b_user_id new == b_user_id old) &&
                  (b_guest_username new == b_guest_username old) && (b_profile_id new == b_profile_id old)) &&
            exists_where (fun a => (a_desktop_vmid a == b_desktop_vmid old) && (a_user_id a == b_user_id old))
              (native_guest_accounts s))
    CheckViolation.

Definition binding_indexes (t : list GuestIdentityBinding) : bool :=
  unique_index (fun b => Some (b_desktop_vmid b, b_user_id b)) t &&
  unique_index (fun b => Some (b_desktop_vmid b, b_guest_username b)) t.

Definition update_guest_identity_bindings (p : GuestIdentityBinding -> bool)
  (f : GuestIdentityBinding -> GuestIdentityBinding) : tx DB (list GuestIdentityBinding) :=
  t ← tgets guest_identity_bindings;
  t' ← update_each p (fun old => protect_native_guest_binding_subject old (f old);; mret (f old)) t;
  ensure (binding_indexes t') (ErrPg UniqueViolation);;
  tmod (fun s => s <| guest_identity_bindings := t' |>);;
  mret (List.map snd (changed p t t')).

(** ** Connections *)
Definition connection_indexes (t : list DesktopConnectionSession) : bool :=
  unique_index (fun c => Some (c_id c)) t &&
  unique_index (fun c => if conn_open c then Some (c_desktop_vmid c) else None) t.

Definition protect_connection_native_session (old new : DesktopConnectionSession) : tx DB unit :=
  raise_if (c_native_session_digest new != c_native_session_digest old) CheckViolation.

Definition update_desktop_connections (p : DesktopConnectionSession -> bool)
  (f : DesktopConnectionSession -> DesktopConnectionSession) : tx DB (list DesktopConnectionSession) :=
  t ← tgets desktop_connection_sessions;
  t' ← update_each p (fun old => protect_connection_native_session old (f old);; mret (f old)) t;
  ensure (connection_indexes t') (ErrPg UniqueViolation);;
  tmod (fun s => s <| desktop_connection_sessions := t' |>);;
  mret (List.map snd (changed p t t')).

(** ** Native guest accounts (028, 030) *)
Definition connection_id_re (s : string) : bool := match_class "conn_" is_url_char 8 128 s.

Definition native_account_checks (a : NativeGuestAccount) : bool :=
  match_class "vcw" is_lower_hex 12 12 (a_guest_username a) &&
  (0 <=? a_guest_uid a) && (a_guest_uid a <=? 4294967295) && (0 <=? a_revision a) &&
  (((a_os_family a == "linux") && (1000 <=? a_guest_uid a) && (a_guest_sid a == "")) ||
   ((a_os_family a == "windows") && (a_guest_uid a =? 0) && vcw_valid_windows_account_sid (a_guest_sid a))) &&
  (((a_revision a =? 0) && (a_operation a == NNone) && (a_state a == NIdle) &&
    (a_connection_id a == "") && (a_expires_at a == None)) ||
   ((0 <? a_revision a) && (a_operation a != NNone) && (a_state a != NIdle) &&
    connection_id_re (a_connection_id a) &&
    ((((a_operation a == NIssue) || (a_operation a == NRetire)) && (a_expires_at a != None)) ||
     ((a_operation a == NRevoke) && (a_expires_at a == None))))) &&
  (((a_operation a == NIssue) && (a_state a == NPending) &&
    (match a_native_session_digest a with Some dg => dg != "" | None => false end)) ||
   (((a_operation a != NIssue) || (a_state a != NPending)) && (a_native_session_digest a == None))).

Section native_account_triggers.
Context (now : time) (txid : Z).
Implicit Types (old new : NativeGuestAccount).

(** The branch of [protect_cross_subject_guest_account] for this table. *)
Definition protect_cross_subject_native new : tx DB unit :=
  if (a_guest_uid new =? 0) && (a_guest_sid new == "") then mret tt else
  s ← tget;
  raise_if (exists_where (fun g => (s_desktop_vmid g == a_desktop_vmid new) &&
              same_os_account (a_guest_uid new) (s_guest_uid g) (a_guest_sid new) (s_guest_sid g))
            (agent_guest_sessions s))
    UniqueViolation.

Definition insert_native_credential_id new : tx DB unit :=
  t ← tgets native_guest_credential_ids;
  let row := MkCredentialID (a_connection_id new) (a_desktop_vmid new) (a_user_id new) (a_revision new) in
  ensure (negb (exists_where (fun c => (ci_connection_id c == ci_connection_id row) ||
            ((ci_desktop_vmid c == ci_desktop_vmid row) && (ci_user_id c == ci_user_id row) &&
             (ci_revision c == ci_revision row))) t)) (ErrPg UniqueViolation);;
  tmod (fun s => s <| native_guest_credential_ids := t ++ [row] |>).

Definition expired_by_now (o : option time) : bool := match o with Some e => e <=? now | None => false end.

Definition native_version_insert new : tx DB unit :=
  s ← tget;
  raise_if ((a_revision new != 0) || (a_state new != NIdle) || (a_operation new != NNone) ||
            negb (exists_where (fun b => (b_desktop_vmid b == a_desktop_vmid new) && (b_user_id b == a_user_id new) &&
                    (b_guest_username b == a_guest_username new)) (guest_identity_bindings s)))
    CheckViolation.

(** A recovery receipt of this very transaction licenses the jump. *)
Definition recovery_receipt (s : DB) old new : bool :=
  exists_where (fun r => (nr_desktop_vmid r == a_desktop_vmid old) && (nr_user_id r == a_user_id old) &&
    (nr_previous_revision r == a_revision old) && (nr_previous_connection_id r == a_connection_id old) &&
    (nr_recovered_revision r == a_revision new) && (nr_recovered_connection_id r == a_connection_id new) &&
    (nr_transaction_id r == txid)) (native_guest_recoveries s).

Definition native_version_issue old new : tx DB unit :=
  raise_if (negb ((a_state old == NIdle) ||
                  ((a_state old == NApplied) && ((a_operation old == NRetire) || (a_operation old == NRevoke)))) ||
            (a_connection_id new == a_connection_id old) ||
            ((a_operation old == NRetire) && expired_by_now (a_expires_at old))) CheckViolation;;
  s ← tget;
  raise_if (exists_where (fun l => (l_desktop_id l == itoa (a_desktop_vmid new)) && (l_state l == LActive) &&
              (now <? l_expires_at l)) (desktop_leases s) ||
            exists_where (fun a => (a_desktop_vmid a == a_desktop_vmid new) && (a_user_id a != a_user_id new) &&
              native_reservation a) (native_guest_accounts s)) UniqueViolation;;
  insert_native_credential_id new.

Definition native_version_advance old new : tx DB unit :=
  match a_operation new with
  | NIssue => native_version_issue old new
  | NRetire =>
      raise_if ((a_operation old != NIssue) || (a_state old != NApplied) || expired_by_now (a_expires_at old) ||
                (a_connection_id new != a_connection_id old) || (a_expires_at new != a_expires_at old))
        CheckViolation
  | NRevoke =>
      raise_if ((a_state old == NIdle) || (a_connection_id new != a_connection_id old) ||
                (a_operation old == NRevoke)) CheckViolation
  | NNone => tfail (ErrPg CheckViolation)
  end.

Definition same_native_identity old new : bool :=
  (a_desktop_vmid new == a_desktop_vmid old) && (a_user_id new == a_user_id old) &&
  (a_guest_username new == a_guest_username old) && (a_os_family new == a_os_family old) &&
  (a_guest_uid new == a_guest_uid old) && (a_guest_sid new == a_guest_sid old).

Definition protect_native_guest_account_version old new : tx DB unit :=
  raise_if (negb (same_native_identity old new)) CheckViolation;;
  s ← tget;
  if (a_revision old <? a_revision new) && (a_operation old == NRevoke) && (a_state old == NApplied) &&
     (a_operation new == NRevoke) && (a_state new == NApplied) && (a_expires_at new == None) &&
     (a_native_session_digest new == None) && recovery_receipt s old new
  then insert_native_credential_id new
  else if a_revision new == a_revision old then
    raise_if (negb ((a_operation new == a_operation old) && (a_connection_id new == a_connection_id old) &&
                    (a_expires_at new == a_expires_at old)) ||
              ((a_state new != a_state old) && negb ((a_state old == NPending) && (a_state new == NApplied))) ||
              ((a_native_session_digest new != a_native_session_digest old) &&
               negb ((a_state old == NPending) && (a_state new == NApplied) && (a_native_session_digest new == None))))
      CheckViolation
  else if (a_revision old <? a_revision new) && (a_revision new - a_revision old == 1) && (a_state new == NPending)
  then native_version_advance old new
  else tfail (ErrPg CheckViolation).

(** Trigger names: [native_guest_account_version_guard], then
    [native_guest_cross_subject_guard]. *)
Definition before_update_native old new : tx DB NativeGuestAccount :=
  protect_native_guest_account_version old new;;
  protect_cross_subject_native new;;
  check (native_account_checks new);;
  mret new.

Definition native_indexes (t : list NativeGuestAccount) : bool :=
  unique_index (fun a => Some (a_desktop_vmid a, a_user_id a)) t &&
  unique_index (fun a => Some (a_desktop_vmid a, a_guest_username a)) t &&
  unique_index (fun a => if 1000 <=? a_guest_uid a then Some (a_desktop_vmid a, a_guest_uid a) else None) t &&
  unique_index (fun a => if a_guest_sid a == "" then None else Some (a_desktop_vmid a, a_guest_sid a)) t &&
  unique_index (fun a => if a_connection_id a == "" then None else Some (a_connection_id a)) t.

Definition update_native_guest_accounts (p : NativeGuestAccount -> bool) (f : NativeGuestAccount -> NativeGuestAccount)
  : tx DB (list NativeGuestAccount) :=
  t ← tgets native_guest_accounts;
  t' ← update_each p (fun old => before_update_native old (f old)) t;
  ensure (native_indexes t') (ErrPg UniqueViolation);;
  tmod (fun s => s <| native_guest_accounts := t' |>);;
  mret (List.map snd (changed p t t')).

(** The part of [INSERT] that precedes conflict detection. *)
Definition before_insert_native new : tx DB unit :=
  native_version_insert new;;
  protect_cross_subject_native new;;
  check (native_account_checks new).

Definition insert_native_guest_account new : tx DB NativeGuestAccount :=
  before_insert_native new;;
  t ← tgets native_guest_accounts;
  ensure (native_indexes (t ++ [new])) (ErrPg UniqueViolation);;
  tmod (fun s => s <| native_guest_accounts := t ++ [new] |>);;
  mret new.
End native_account_triggers.

(** ** Gateway tickets (029) *)
Definition micros (seconds : Z) : Z := seconds * 1000000.

Definition gateway_id_re (s : string) : bool :=
  match_class "gw_" (fun c => is_lower c || is_digit c || (c == "_"%char) || (c == "-"%char)) 8 64 s.
Definition tunnel_id_re (s : string) : bool := match_class "tun_" is_url_char 24 128 s.

Definition ticket_checks (t : GatewayTicket) : bool :=
  (slen (t_token_digest t) =? 32) && gateway_id_re (t_gateway_id t) &&
  Is4 (t_target_host t) && IsPrivate (t_target_host t) && (t_target_port t =? 3389) &&
  (slen (t_certificate_sha256 t) =? 32) && (0 <? t_policy_revision t) &&
  (match t_tunnel_id t with Some id => tunnel_id_re id | None => true end) &&
  ((t_created_at t <? t_expires_at t) && (t_expires_at t <=? t_created_at t + micros 30) &&
   (t_expires_at t <=? t_session_deadline t)) &&
  match t_tunnel_id t, t_consumed_at t, t_lease_until t, t_closed_at t with
  | None, None, None, None => true
  | Some _, Some consumed, Some lease, closed =>
      (t_created_at t <=? consumed) && (consumed <=? lease) && (lease <=? t_session_deadline t) &&
      (match closed with Some c => consumed <=? c | None => true end)
  | _, _, _, _ => false
  end.

Definition protect_gateway_ticket (old new : GatewayTicket) : tx DB unit :=
  raise_if (negb ((t_token_digest new == t_token_digest old) && (t_connection_id new == t_connection_id old) &&
                  (t_gateway_id new == t_gateway_id old) && (t_target_host new == t_target_host old) &&
                  (t_target_port new == t_target_port old) && (t_certificate_sha256 new == t_certificate_sha256 old) &&
                  (t_policy_revision new == t_policy_revision old) && (t_created_at new == t_created_at old) &&
                  (t_expires_at new == t_expires_at old) && (t_session_deadline new == t_session_deadline old)))
    CheckViolation;;
  raise_if ((t_consumed_at old != None) &&
            negb ((t_tunnel_id new == t_tunnel_id old) && (t_consumed_at new == t_consumed_at old))) CheckViolation;;
  raise_if ((t_closed_at old != None) &&
            negb ((t_closed_at new == t_closed_at old) && (t_lease_until new == t_lease_until old))) CheckViolation.

Definition ticket_indexes (t : list GatewayTicket) : bool :=
  unique_index (fun g => Some (t_token_digest g)) t && unique_index (fun g => Some (t_connection_id g)) t &&
  unique_index t_tunnel_id t.

Definition update_gateway_tickets (p : GatewayTicket -> bool) (f : GatewayTicket -> GatewayTicket)
  : tx DB (list GatewayTicket) :=
  t ← tgets gateway_session_tickets;
  t' ← update_each p (fun old => protect_gateway_ticket old (f old);; check (ticket_checks (f old));; mret (f old)) t;
  ensure (ticket_indexes t') (ErrPg UniqueViolation);;
  tmod (fun s => s <| gateway_session_tickets := t' |>);;
  mret (List.map snd (changed p t t')).

Definition insert_gateway_ticket (new : GatewayTicket) : tx DB GatewayTicket :=
  check (ticket_checks new);;
  t ← tgets gateway_session_tickets;
  ensure (ticket_indexes (t ++ [new])) (ErrPg UniqueViolation);;
  tmod (fun s => s <| gateway_session_tickets := t ++ [new] |>);;
  mret new.
