(* ===== verification/TriggerLemmas.v ===== *)
(** * What the guarded statements do

    Inversion lemmas for the UPDATE and INSERT statements of [Triggers]: the
    table a successful statement leaves behind, the guards it passed, and the
    tables it cannot have touched. *)
From stdpp Require Import base strings list.
From Stdlib Require Import ZArith Lia Ascii.
From S2P Require Import Prelude GoStrings GuestIdentity Net Db Triggers.

Local Open Scope string_scope.
Local Open Scope list_scope.
Local Open Scope Z_scope.

Lemma check_inr ok s u s' : check ok s = inr (u, s') <-> ok = true /\ s = s'.
Proof. apply ensure_inr. Qed.

Lemma raise_if_inr bad c s u s' : raise_if bad c s = inr (u, s') <-> bad = false /\ s = s'.
Proof. unfold raise_if. rewrite ensure_inr, negb_true_iff. done. Qed.

Ltac inv_sql :=
  repeat first
    [ progress inv_tx
    | match goal with
      | H : check _ _ = inr (_, _) |- _ => let F := fresh "F" in apply check_inr in H as [? F]; keep_left F
      | H : raise_if _ _ _ = inr (_, _) |- _ => let F := fresh "F" in apply raise_if_inr in H as [? F]; keep_left F
      end ].

(** ** Triggers that only look *)
Section pure_update.
Context {S R : Type} (p : R -> bool) (f : R -> R) (before : R -> tx S R) (G : S -> R -> Prop).
Context (Hpure : forall r s r' s', before r s = inr (r', s') -> s' = s /\ r' = f r /\ G s r).

Lemma update_each_pure t s t' s' :
  update_each p before t s = inr (t', s') ->
  s' = s /\ t' = update_where p f t /\ forall r, In r t -> p r = true -> G s r.
Proof.
  revert s t' s'. induction t as [| r t IH]; simpl; intros s t' s' H; inv_tx; [done |].
  apply IH in H0 as (-> & -> & HG). destruct (p r) eqn:E; inv_tx.
  - apply Hpure in H as (-> & -> & ?). repeat split; intros; destruct H0; subst; auto.
  - repeat split; intros ? [] ?; subst; auto. congruence.
Qed.

Lemma changed_update_where t :
  List.map snd (changed p t (update_where p f t)) = List.map f (rows p t).
Proof.
  unfold changed, rows, update_where. induction t as [| r t IH]; simpl; [done |].
  destruct (p r) eqn:E; simpl; rewrite ?E; simpl; congruence.
Qed.
End pure_update.

(** Triggers that also write: each row is checked in some state between. *)
Section logged_update.
Context {S R : Type} (p : R -> bool) (f : R -> R) (before : R -> tx S R) (G : R -> S -> S -> Prop) (Rel : S -> S -> Prop).
Context (Hrefl : forall s, Rel s s) (Htrans : forall a b c, Rel a b -> Rel b c -> Rel a c)
        (Hstep : forall r s r' s', before r s = inr (r', s') -> r' = f r /\ Rel s s' /\ G r s s').

Lemma update_each_logged t s t' s' :
  update_each p before t s = inr (t', s') ->
  Rel s s' /\ t' = update_where p f t /\
  forall r, In r t -> p r = true -> exists s1 s2, Rel s s1 /\ G r s1 s2 /\ Rel s2 s'.
Proof.
  revert s t' s'. induction t as [| r t IH]; simpl; intros s t' s' H; inv_tx; [done |].
  apply IH in H0 as (HR & -> & HG). destruct (p r) eqn:E; inv_tx.
  - apply Hstep in H as (-> & HR1 & Hg). split; [by eapply Htrans |]. split; [done |].
    intros x [<- | Hx] Hp; [by eauto 6 |]. destruct (HG x Hx Hp) as (s1 & s2 & ? & ? & ?). eauto 6.
  - split; [done |]. split; [done |]. intros x [<- | Hx] Hp; [congruence | eauto].
Qed.
End logged_update.

(** ** Bindings, connections, tickets, agent sessions *)
Lemma update_bindings_inr p f s l s' :
  update_guest_identity_bindings p f s = inr (l, s') ->
  s' = s <| guest_identity_bindings := update_where p f (guest_identity_bindings s) |> /\
  l = List.map f (rows p (guest_identity_bindings s)) /\
  binding_indexes (guest_identity_bindings s') = true.
Proof.
  unfold update_guest_identity_bindings. intros H. inv_tx.
  eapply (update_each_pure p f _ (fun _ _ => True)) in H0 as (-> & -> & _).
  - rewrite changed_update_where. done.
  - intros r s1 r' s1' Hb. unfold protect_native_guest_binding_subject in Hb. inv_sql. done.
Qed.

Lemma update_connections_inr p f s l s' :
  update_desktop_connections p f s = inr (l, s') ->
  s' = s <| desktop_connection_sessions := update_where p f (desktop_connection_sessions s) |> /\
  l = List.map f (rows p (desktop_connection_sessions s)) /\
  connection_indexes (desktop_connection_sessions s') = true.
Proof.
  unfold update_desktop_connections. intros H. inv_tx.
  eapply (update_each_pure p f _ (fun _ _ => True)) in H0 as (-> & -> & _).
  - rewrite changed_update_where. done.
  - intros r s1 r' s1' Hb. unfold protect_connection_native_session in Hb. inv_sql. done.
Qed.

(** What [before_update_agent_guest] has checked. *)
Record agent_guest_guard (s : DB) (old new : AgentGuestSession) : Prop := {
  gg_subject : s_desktop_vmid new = s_desktop_vmid old /\ s_agent_id new = s_agent_id old /\
    s_guest_username new = s_guest_username old /\ s_os_family new = s_os_family old;
  gg_identity : s_guest_uid old <> 0 \/ s_guest_sid old <> "" ->
    s_guest_uid new = s_guest_uid old /\ s_guest_sid new = s_guest_sid old;
  gg_cross : forall a, In a (native_guest_accounts s) -> a_desktop_vmid a = s_desktop_vmid new ->
    s_guest_uid new <> 0 \/ s_guest_sid new <> "" ->
    same_os_account (s_guest_uid new) (a_guest_uid a) (s_guest_sid new) (a_guest_sid a) = false;
  gg_login : (s_lease_id new = s_lease_id old /\ s_control_epoch new = s_control_epoch old /\
      s_generation new = s_generation old /\ s_login_generation old <= s_login_generation new <= s_login_generation old + 1) \/
    (s_state old = GDisabled /\ s_control_epoch old < s_control_epoch new /\ s_generation new = s_generation old + 1);
  gg_checks : agent_guest_checks new = true
}.

Lemma protect_binding_inr old new s u s' :
  protect_agent_guest_account_binding old new s = inr (u, s') ->
  s' = s /\ (s_desktop_vmid new = s_desktop_vmid old /\ s_agent_id new = s_agent_id old /\
    s_guest_username new = s_guest_username old /\ s_os_family new = s_os_family old) /\
  (s_guest_uid old <> 0 \/ s_guest_sid old <> "" ->
    s_guest_uid new = s_guest_uid old /\ s_guest_sid new = s_guest_sid old).
Proof.
  unfold protect_agent_guest_account_binding. intros H. inv_sql. b2p. split; [done |].
  split; [tauto |]. intros Ho. tauto.
Qed.

Lemma protect_cross_agent_inr new s u s' :
  protect_cross_subject_agent new s = inr (u, s') ->
  s' = s /\ forall a, In a (native_guest_accounts s) -> a_desktop_vmid a = s_desktop_vmid new ->
    s_guest_uid new <> 0 \/ s_guest_sid new <> "" ->
    same_os_account (s_guest_uid new) (a_guest_uid a) (s_guest_sid new) (a_guest_sid a) = false.
Proof.
  unfold protect_cross_subject_agent. destruct (_ && _) eqn:E; intros H; inv_sql.
  - split; [done |]. b2p. tauto.
  - split; [done |]. intros a Ha Hv _.
    match goal with H : exists_where _ _ = false |- _ =>
      rewrite exists_where_false in H; specialize (H _ Ha) end.
    b2p. tauto.
Qed.

Lemma protect_login_inr old new s u s' :
  protect_agent_login_generation old new s = inr (u, s') -> s' = s /\
  ((s_lease_id new = s_lease_id old /\ s_control_epoch new = s_control_epoch old /\
      s_generation new = s_generation old /\ s_login_generation old <= s_login_generation new <= s_login_generation old + 1) \/
   (s_state old = GDisabled /\ s_control_epoch old < s_control_epoch new /\ s_generation new = s_generation old + 1)).
Proof.
  unfold protect_agent_login_generation. case_bool_decide as Hl; intros H'; inv_sql; (split; [done |]); b2p; destruct_and!;
    [left | right]; split_and!; try done; lia.
Qed.

Lemma before_update_agent_guest_inr old new s r s' :
  before_update_agent_guest old new s = inr (r, s') -> s' = s /\ r = new /\ agent_guest_guard s old new.
Proof.
  unfold before_update_agent_guest. intros H. inv_sql.
  repeat match goal with
  | H : protect_agent_guest_account_binding _ _ _ = _ |- _ => apply protect_binding_inr in H as (-> & ? & ?)
  | H : protect_cross_subject_agent _ _ = _ |- _ => apply protect_cross_agent_inr in H as (-> & ?)
  | H : protect_agent_login_generation _ _ _ = _ |- _ => apply protect_login_inr in H as (-> & ?)
  end.
  repeat split; auto; tauto.
Qed.

Lemma update_agent_guest_inr p f s l s' :
  update_agent_guest_sessions p f s = inr (l, s') ->
  s' = s <| agent_guest_sessions := update_where p f (agent_guest_sessions s) |> /\
  l = List.map f (rows p (agent_guest_sessions s)) /\
  agent_guest_indexes (agent_guest_sessions s') = true /\
  forall g, In g (agent_guest_sessions s) -> p g = true -> agent_guest_guard s g (f g).
Proof.
  unfold update_agent_guest_sessions. intros H. inv_tx.
  eapply (update_each_pure p f _ (fun s g => agent_guest_guard s g (f g))) in H0 as (-> & -> & HG).
  - rewrite changed_update_where. done.
  - intros r s1 r' s1' Hb. apply before_update_agent_guest_inr in Hb. naive_solver.
Qed.

Lemma insert_agent_guest_inr new s r s' :
  insert_agent_guest_session new s = inr (r, s') ->
  r = new /\ s' = s <| agent_guest_sessions := agent_guest_sessions s ++ [new] |> /\
  agent_guest_checks new = true /\ agent_guest_indexes (agent_guest_sessions s') = true /\
  forall a, In a (native_guest_accounts s) -> a_desktop_vmid a = s_desktop_vmid new ->
    s_guest_uid new <> 0 \/ s_guest_sid new <> "" ->
    same_os_account (s_guest_uid new) (a_guest_uid a) (s_guest_sid new) (a_guest_sid a) = false.
Proof.
  unfold insert_agent_guest_session. intros H. inv_sql.
  match goal with H : protect_cross_subject_agent _ _ = _ |- _ => apply protect_cross_agent_inr in H as (-> & ?) end.
  done.
Qed.

(** ** Tickets *)
Record ticket_guard (old new : GatewayTicket) : Prop := {
  tg_authority : t_token_digest new = t_token_digest old /\ t_connection_id new = t_connection_id old /\
    t_gateway_id new = t_gateway_id old /\ t_target_host new = t_target_host old /\
    t_target_port new = t_target_port old /\ t_certificate_sha256 new = t_certificate_sha256 old /\
    t_policy_revision new = t_policy_revision old /\ t_created_at new = t_created_at old /\
    t_expires_at new = t_expires_at old /\ t_session_deadline new = t_session_deadline old;
  tg_consumed : t_consumed_at old <> None -> t_tunnel_id new = t_tunnel_id old /\ t_consumed_at new = t_consumed_at old;
  tg_closed : t_closed_at old <> None -> t_closed_at new = t_closed_at old /\ t_lease_until new = t_lease_until old;
  tg_checks : ticket_checks new = true
}.

Lemma protect_gateway_ticket_inr old new s u s' :
  protect_gateway_ticket old new s = inr (u, s') -> s' = s /\ (ticket_checks new = true -> ticket_guard old new).
Proof.
  unfold protect_gateway_ticket. intros H. inv_sql. b2p. split; [done |]. intros Hc.
  split; [tauto | | | done]; intros Ho; tauto.
Qed.

Lemma update_tickets_inr p f s l s' :
  update_gateway_tickets p f s = inr (l, s') ->
  s' = s <| gateway_session_tickets := update_where p f (gateway_session_tickets s) |> /\
  l = List.map f (rows p (gateway_session_tickets s)) /\
  ticket_indexes (gateway_session_tickets s') = true /\
  forall t, In t (gateway_session_tickets s) -> p t = true -> ticket_guard t (f t).
Proof.
  unfold update_gateway_tickets. intros H. inv_tx.
  eapply (update_each_pure p f _ (fun _ t => ticket_guard t (f t))) in H0 as (-> & -> & HG).
  - rewrite changed_update_where. done.
  - intros r s1 r' s1' Hb. inv_sql.
    match goal with H : protect_gateway_ticket _ _ _ = _ |- _ => apply protect_gateway_ticket_inr in H as [-> ?] end. auto.
Qed.

Lemma insert_ticket_inr new s r s' :
  insert_gateway_ticket new s = inr (r, s') ->
  r = new /\ s' = s <| gateway_session_tickets := gateway_session_tickets s ++ [new] |> /\
  ticket_checks new = true /\ ticket_indexes (gateway_session_tickets s') = true.
Proof. unfold insert_gateway_ticket. intros H. inv_sql. done. Qed.

(** ** Leases *)

(** A lease statement touches four tables and no other: [lease_rest] blanks
    them. *)
Definition lease_rest (s : DB) : DB :=
  s <| desktop_leases := @nil DesktopLease; desktop_computer_epochs := @nil ComputerEpoch;
       agent_guest_sessions := @nil AgentGuestSession;
       desktop_computer_revocations := @nil ComputerRevocation |>.

Definition lease_frame (s s' : DB) : Prop := lease_rest s' = lease_rest s.

Lemma lease_frame_refl s : lease_frame s s.
Proof. done. Qed.

Lemma lease_frame_trans a b c : lease_frame a b -> lease_frame b c -> lease_frame a c.
Proof. unfold lease_frame. congruence. Qed.

(** Any table outside the four is read back unchanged. *)
Lemma lease_frame_get {A} (g : DB -> A) s s' :
  (forall x, g (lease_rest x) = g x) -> lease_frame s s' -> g s' = g s.
Proof. unfold lease_frame. intros Hg H. rewrite <- (Hg s), <- (Hg s'), H. done. Qed.

Lemma lease_frame_authz s s' : lease_frame s s' -> authz s' = authz s.
Proof. by apply (lease_frame_get authz). Qed.

#[export] Hint Resolve lease_frame_refl : vcw.

Ltac inv_desktop :=
  match goal with H : select_one (by_text _) _ = Some _ |- _ =>
    let Hd := fresh "Hd" in let Ht := fresh "Ht" in
    apply select_one_some in H as [Hd Ht]; unfold by_text in Ht; b2p end.

Section lease_lemmas.
Context (now : time).

Lemma advance_epoch_inr vmid s e s' :
  advance_epoch now vmid s = inr (e, s') ->
  e = match current_epoch s vmid with Some e => e + 1 | None => 1 end /\
  s' = s <| desktop_computer_epochs :=
    upsert (fun e => e_desktop_vmid e == vmid)
           (fun e => e <| e_control_epoch := e_control_epoch e + 1; e_updated_at := now |>)
           (MkComputerEpoch vmid 1 now) (desktop_computer_epochs s) |>.
Proof. unfold advance_epoch. intros H. inv_tx. done. Qed.

Lemma assign_epoch_inr old new s r s' :
  assign_desktop_computer_epoch now old new s = inr (r, s') ->
  (exists o, old = Some o /\ r = new /\ s' = s /\ l_state new = l_state o /\
     l_control_epoch new = l_control_epoch o /\ l_desktop_id new = l_desktop_id o /\
     l_agent_id new = l_agent_id o) \/
  exists d e, In d (managed_desktops s) /\ itoa (d_vmid d) = l_desktop_id new /\
    advance_epoch now (d_vmid d) s = inr (e, s') /\ r = new <| l_control_epoch := e |> /\
    forall o, old = Some o -> l_desktop_id new = l_desktop_id o /\ l_agent_id new = l_agent_id o /\
      (l_state o <> LActive -> l_state new <> LActive).
Proof.
  unfold assign_desktop_computer_epoch. destruct old as [o |]; intros H; inv_sql.
  - destruct ((l_state new == l_state o) && _) eqn:E; inv_sql.
    + left. exists o. b2p. tauto.
    + right. inv_desktop. do 2 eexists. split_and!; eauto. intros ? [= <-]. tauto.
  - right. inv_desktop. do 2 eexists. split_and!; eauto. discriminate.
Qed.

Lemma advance_epoch_frame vmid s e s' : advance_epoch now vmid s = inr (e, s') -> lease_frame s s'.
Proof. intros H. apply advance_epoch_inr in H as [_ ->]. done. Qed.

Lemma assign_epoch_frame old new s r s' :
  assign_desktop_computer_epoch now old new s = inr (r, s') -> lease_frame s s'.
Proof.
  intros H. apply assign_epoch_inr in H as [(o & _ & _ & -> & _) | (d & e & _ & _ & H & _)];
    [done | by eapply advance_epoch_frame].
Qed.

Lemma before_update_lease_inr old new s r s' :
  before_update_lease now old new s = inr (r, s') ->
  (l_state new = LActive -> native_reserved s (l_desktop_id new) = false) /\
  assign_desktop_computer_epoch now (Some old) new s = inr (r, s').
Proof.
  unfold before_update_lease, protect_agent_lease_from_native_reservation. intros H. inv_sql.
  split; [| done]. intros Hs. b2p. intuition congruence.
Qed.

(** Only the state of an updated lease and its epoch can differ from what
    the statement asked for. *)
Lemma before_update_lease_row old new s r s' :
  before_update_lease now old new s = inr (r, s') ->
  (exists e, r = new <| l_control_epoch := e |>) /\
  l_desktop_id new = l_desktop_id old /\ l_agent_id new = l_agent_id old.
Proof.
  intros H. apply before_update_lease_inr in H as [_ H].
  apply assign_epoch_inr in H as [(o & [= <-] & -> & _ & _ & _ & ? & ?) | (d & e & _ & _ & _ & -> & Ho)].
  - split; [| done]. exists (l_control_epoch new). by destruct new.
  - destruct (Ho _ eq_refl) as (? & ? & _). eauto.
Qed.

Lemma revoke_agent_guest_frame old new s u s' :
  revoke_agent_guest_session now old new s = inr (u, s') ->
  lease_frame s s' /\ desktop_leases s' = desktop_leases s /\
  desktop_computer_epochs s' = desktop_computer_epochs s /\
  desktop_computer_revocations s' = desktop_computer_revocations s.
Proof.
  unfold revoke_agent_guest_session. destruct (lease_closed old new); intros H; inv_tx; [| done].
  match goal with H : update_agent_guest_sessions _ _ _ = _ |- _ => apply update_agent_guest_inr in H as (-> & _) end.
  done.
Qed.

Lemma queue_revocation_frame old new s u s' :
  queue_desktop_computer_revocation now old new s = inr (u, s') ->
  lease_frame s s' /\ desktop_leases s' = desktop_leases s /\
  desktop_computer_epochs s' = desktop_computer_epochs s /\
  agent_guest_sessions s' = agent_guest_sessions s.
Proof.
  unfold queue_desktop_computer_revocation. destruct (lease_closed old new); intros H; inv_tx; [| done].
  match goal with H : tfold _ _ _ = _ |- _ => revert H end.
  apply (tfold_preserves (fun s s' => lease_frame s s' /\ desktop_leases s' = desktop_leases s /\
    desktop_computer_epochs s' = desktop_computer_epochs s /\ agent_guest_sessions s' = agent_guest_sessions s)).
  - done.
  - intros a b c (Hab & ? & ? & ?) (Hbc & ? & ? & ?). split; [by eapply lease_frame_trans |]. split_and!; congruence.
  - intros d s1 v s1' _ H. inv_tx. done.
Qed.

Lemma after_update_lease_frame o s u s' :
  after_update_lease now o s = inr (u, s') ->
  lease_frame s s' /\ desktop_leases s' = desktop_leases s /\
  desktop_computer_epochs s' = desktop_computer_epochs s.
Proof.
  unfold after_update_lease. intros H. inv_tx.
  match goal with H : revoke_agent_guest_session _ _ _ _ = _ |- _ =>
    apply revoke_agent_guest_frame in H as (Hr & ? & ? & _) end.
  match goal with H : queue_desktop_computer_revocation _ _ _ _ = _ |- _ =>
    apply queue_revocation_frame in H as (Hq & ? & ? & _) end.
  split; [by eapply lease_frame_trans |]. split; congruence.
Qed.

Lemma after_update_leases_frame l s u s' :
  tfold (after_update_lease now) l s = inr (u, s') ->
  lease_frame s s' /\ desktop_leases s' = desktop_leases s /\
  desktop_computer_epochs s' = desktop_computer_epochs s.
Proof.
  apply (tfold_preserves (fun s s' => lease_frame s s' /\ desktop_leases s' = desktop_leases s /\
    desktop_computer_epochs s' = desktop_computer_epochs s)).
  - done.
  - intros a b c (Hab & ? & ?) (Hbc & ? & ?). split; [by eapply lease_frame_trans |]. split; congruence.
  - intros o s1 v s1' _. apply after_update_lease_frame.
Qed.

(** The lease table after an UPDATE, row by row, and the frame. *)
Lemma update_leases_inr p f s l s' :
  update_desktop_leases now p f s = inr (l, s') ->
  lease_frame s s' /\ lease_indexes (desktop_leases s') = true /\
  l = List.map snd (changed p (desktop_leases s) (desktop_leases s')) /\
  Forall2 (fun r r' => if p r then exists s1 s2, before_update_lease now r (f r) s1 = inr (r', s2) else r' = r)
    (desktop_leases s) (desktop_leases s').
Proof.
  unfold update_desktop_leases. intros H. inv_tx.
  match goal with H : update_each _ _ _ _ = _ |- _ => pose proof H as He; apply update_each_rows in H end.
  match goal with H : tfold _ _ _ = _ |- _ => apply after_update_leases_frame in H as (Hf & Hl & _) end.
  simpl in Hl. rewrite Hl. split_and!; [| done | done | done].
  eapply lease_frame_trans; [| exact Hf]. lazymatch type of He with _ = inr (_, ?m) => apply (lease_frame_trans _ m _); [| done] end.
  revert He. apply (update_each_preserves lease_frame); [done | apply lease_frame_trans |].
  intros r s1 r' s2 Hb. apply before_update_lease_inr in Hb as [_ Hb]. by eapply assign_epoch_frame.
Qed.

Lemma insert_lease_inr new s r s' :
  insert_desktop_lease now new s = inr (r, s') ->
  lease_frame s s' /\ lease_indexes (desktop_leases s') = true /\
  (l_state new = LActive -> native_reserved s (l_desktop_id new) = false) /\
  desktop_leases s' = desktop_leases s ++ [r] /\ agent_guest_sessions s' = agent_guest_sessions s /\
  desktop_computer_revocations s' = desktop_computer_revocations s /\
  exists d, In d (managed_desktops s) /\ itoa (d_vmid d) = l_desktop_id new /\
    r = new <| l_control_epoch := match current_epoch s (d_vmid d) with Some e => e + 1 | None => 1 end |> /\
    advance_epoch now (d_vmid d) s = inr (l_control_epoch r, s' <| desktop_leases := desktop_leases s |>).
Proof.
  unfold insert_desktop_lease, protect_agent_lease_from_native_reservation. intros H. inv_sql.
  match goal with H : assign_desktop_computer_epoch _ _ _ _ = _ |- _ =>
    pose proof H as Ha; apply assign_epoch_frame in H; apply assign_epoch_inr in Ha end.
  destruct Ha as [(? & ? & _) | (d & e & Hd & Ht & He & -> & _)]; [done |].
  pose proof (advance_epoch_inr _ _ _ _ He) as [Hn ->]. split_and!; try done.
  - intros Hs. b2p. intuition congruence.
  - exists d. simpl. rewrite <- Hn. split_and!; done.
Qed.
End lease_lemmas.

(** ** Native guest accounts *)

(** A native account statement touches two tables. *)
Definition native_rest (s : DB) : DB :=
  s <| native_guest_accounts := @nil NativeGuestAccount; native_guest_credential_ids := @nil CredentialID |>.
Definition native_frame (s s' : DB) : Prop := native_rest s' = native_rest s.

Lemma native_frame_get {A} (g : DB -> A) s s' :
  (forall x, g (native_rest x) = g x) -> native_frame s s' -> g s' = g s.
Proof. unfold native_frame. intros Hg H. rewrite <- (Hg s), <- (Hg s'), H. done. Qed.

(** [ci] was never used as the connection of an issue, nor was this revision
    of the account. *)
Definition credential_fresh (s : DB) (a : NativeGuestAccount) : Prop :=
  forall ci, In ci (native_guest_credential_ids s) -> ci_connection_id ci <> a_connection_id a /\
    ~ (ci_desktop_vmid ci = a_desktop_vmid a /\ ci_user_id ci = a_user_id a /\ ci_revision ci = a_revision a).

(** The legal transitions of an account: the state machine that 028 and 030
    enforce on every UPDATE, whoever issues it. *)
Inductive native_step (now : time) (txid : Z) (s : DB) (old new : NativeGuestAccount) : Prop :=
| NStepRefresh :
    a_revision new = a_revision old -> a_operation new = a_operation old -> a_state new = a_state old ->
    a_connection_id new = a_connection_id old -> a_expires_at new = a_expires_at old ->
    a_native_session_digest new = a_native_session_digest old -> native_step now txid s old new
| NStepAcknowledge :
    a_revision new = a_revision old -> a_operation new = a_operation old ->
    a_state old = NPending -> a_state new = NApplied ->
    a_connection_id new = a_connection_id old -> a_expires_at new = a_expires_at old ->
    a_native_session_digest new = None -> native_step now txid s old new
| NStepIssue :
    a_revision new = a_revision old + 1 -> a_operation new = NIssue -> a_state new = NPending ->
    a_state old = NIdle \/ (a_state old = NApplied /\ (a_operation old = NRetire \/ a_operation old = NRevoke)) ->
    (a_operation old = NRetire -> expired_by_now now (a_expires_at old) = false) ->
    a_connection_id new <> a_connection_id old -> credential_fresh s new ->
    (forall l, In l (desktop_leases s) -> l_desktop_id l = itoa (a_desktop_vmid new) -> l_state l = LActive ->
       l_expires_at l <= now) ->
    (forall a, In a (native_guest_accounts s) -> a_desktop_vmid a = a_desktop_vmid new -> a_user_id a <> a_user_id new ->
       native_reservation a = false) -> native_step now txid s old new
| NStepRetire :
    a_revision new = a_revision old + 1 -> a_operation new = NRetire -> a_state new = NPending ->
    a_operation old = NIssue -> a_state old = NApplied -> expired_by_now now (a_expires_at old) = false ->
    a_connection_id new = a_connection_id old -> a_expires_at new = a_expires_at old -> native_step now txid s old new
| NStepRevoke :
    a_revision new = a_revision old + 1 -> a_operation new = NRevoke -> a_state new = NPending ->
    a_state old <> NIdle -> a_operation old <> NRevoke -> a_connection_id new = a_connection_id old ->
    native_step now txid s old new
| NStepRecover :
    a_revision old < a_revision new -> a_operation old = NRevoke -> a_state old = NApplied ->
    a_operation new = NRevoke -> a_state new = NApplied -> a_expires_at new = None ->
    recovery_receipt txid s old new = true -> credential_fresh s new -> native_step now txid s old new.

Section native_lemmas.
Context (now : time) (txid : Z).

Lemma insert_credential_inr new s u s' : insert_native_credential_id new s = inr (u, s') ->
  native_frame s s' /\ native_guest_accounts s' = native_guest_accounts s /\ credential_fresh s new /\
  native_guest_credential_ids s' = native_guest_credential_ids s ++
    [MkCredentialID (a_connection_id new) (a_desktop_vmid new) (a_user_id new) (a_revision new)].
Proof.
  unfold insert_native_credential_id. intros H. inv_sql. split_and!; try done.
  intros ci Hci. b2p. rewrite exists_where_false in *.
  match goal with H : forall r, In r _ -> _ |- _ => specialize (H ci Hci) end. simpl in *. b2p. naive_solver.
Qed.

Lemma cross_native_inr new s u s' : protect_cross_subject_native new s = inr (u, s') ->
  s' = s /\ forall g, In g (agent_guest_sessions s) -> s_desktop_vmid g = a_desktop_vmid new ->
    a_guest_uid new <> 0 \/ a_guest_sid new <> "" ->
    same_os_account (a_guest_uid new) (s_guest_uid g) (a_guest_sid new) (s_guest_sid g) = false.
Proof.
  unfold protect_cross_subject_native. destruct (_ && _) eqn:E; intros H; inv_sql.
  - split; [done |]. b2p. tauto.
  - split; [done |]. intros a Ha Hv _.
    match goal with H : exists_where _ _ = false |- _ => rewrite exists_where_false in H; specialize (H _ Ha) end.
    b2p. tauto.
Qed.

Lemma native_issue_inr old new s u s' : native_version_issue now old new s = inr (u, s') ->
  a_operation new = NIssue -> a_state new = NPending -> a_revision new = a_revision old + 1 ->
  native_frame s s' /\ native_guest_accounts s' = native_guest_accounts s /\ native_step now txid s old new.
Proof.
  unfold native_version_issue. intros H Ho Hs Hr. inv_sql.
  match goal with H : insert_native_credential_id _ _ = _ |- _ => apply insert_credential_inr in H as (? & ? & ? & _) end.
  split_and!; try done. b2p. destruct_and!. rewrite !exists_where_false in *.
  apply NStepIssue; auto.
  - naive_solver.
  - intros l Hl Hd Hst. match goal with H : forall r, In r (desktop_leases _) -> _ |- _ => specialize (H l Hl) end.
    b2p. destruct_or!; [done.. | lia].
  - intros a Ha Hv Hu. match goal with H : forall r, In r (native_guest_accounts _) -> _ |- _ => specialize (H a Ha) end.
    b2p. naive_solver.
Qed.

Lemma native_checks_settled a : native_account_checks a = true -> a_state a <> NPending -> a_native_session_digest a = None.
Proof. unfold native_account_checks. intros H Hs. b2p. naive_solver. Qed.

Lemma native_version_inr old new s u s' : native_account_checks new = true -> protect_native_guest_account_version now txid old new s = inr (u, s') ->
  native_frame s s' /\ native_guest_accounts s' = native_guest_accounts s /\ same_native_identity old new = true /\
  native_step now txid s old new.
Proof.
  unfold protect_native_guest_account_version. intros Hc H. inv_sql.
  match goal with H : negb (same_native_identity _ _) = false |- _ => apply negb_false_iff in H as Hid end.
  destruct (_ && _) eqn:E1 in H1.
  { apply insert_credential_inr in H1 as (? & ? & ? & _). b2p. destruct_and!. split_and!; try done. by apply NStepRecover. }
  destruct (a_revision new == a_revision old) eqn:E2.
  { inv_sql. b2p. destruct_and!. split_and!; try done.
    destruct (decide (a_state new = a_state old)), (decide (a_native_session_digest new = a_native_session_digest old));
      [apply NStepRefresh; auto | apply NStepAcknowledge; destruct_or?; destruct_and?; try done..];
      apply native_checks_settled; congruence. }
  destruct (_ && _) eqn:E3 in H1; [| by inv_sql]. b2p. destruct_and!.
  unfold native_version_advance in H1. destruct (a_operation new) eqn:Eo; inv_sql.
  - apply native_issue_inr in H1 as (? & ? & ?); [done | done | done | lia].
  - b2p. destruct_and!. split_and!; try done. apply NStepRetire; auto. lia.
  - b2p. destruct_and!. split_and!; try done. apply NStepRevoke; auto. lia.
Qed.

Lemma before_update_native_inr old new s r s' : before_update_native now txid old new s = inr (r, s') ->
  r = new /\ native_frame s s' /\ native_guest_accounts s' = native_guest_accounts s /\
  same_native_identity old new = true /\ native_step now txid s old new /\ native_account_checks new = true.
Proof.
  unfold before_update_native. intros H. inv_sql.
  match goal with H : protect_native_guest_account_version _ _ _ _ _ = _ |- _ => eapply native_version_inr in H as (? & ? & ? & ?) end; [| eassumption].
  match goal with H : protect_cross_subject_native _ _ = _ |- _ => apply cross_native_inr in H as (-> & _) end.
  done.
Qed.

(** The credential log only grows. *)
Definition native_log (s s' : DB) : Prop :=
  native_frame s s' /\ native_guest_accounts s' = native_guest_accounts s /\
  forall ci, In ci (native_guest_credential_ids s) -> In ci (native_guest_credential_ids s').

Lemma native_log_refl s : native_log s s.
Proof. by split_and!. Qed.
Lemma native_log_trans a b c : native_log a b -> native_log b c -> native_log a c.
Proof. intros (? & ? & ?) (? & ? & ?). unfold native_log, native_frame in *. split_and!; [congruence.. | auto]. Qed.

Lemma native_step_earlier s s1 old new : native_log s s1 -> native_step now txid s1 old new -> native_step now txid s old new.
Proof.
  intros (Hf & Ha & Hc) Hs. pose proof (native_frame_get desktop_leases s s1 ltac:(done) Hf) as Hl.
  pose proof (native_frame_get native_guest_recoveries s s1 ltac:(done) Hf) as Hr.
  unfold recovery_receipt, credential_fresh in *.
  destruct Hs; rewrite ?Hl, ?Ha in *;
    [by apply NStepRefresh | by apply NStepAcknowledge | apply NStepIssue; unfold credential_fresh; auto
    | by apply NStepRetire | by apply NStepRevoke | apply NStepRecover; unfold recovery_receipt, credential_fresh; auto].
  by rewrite <- Hr.
Qed.

(** A changed connection is on the log. *)
Definition native_logged (s : DB) (old new : NativeGuestAccount) : Prop :=
  a_connection_id new <> a_connection_id old ->
  In (MkCredentialID (a_connection_id new) (a_desktop_vmid new) (a_user_id new) (a_revision new)) (native_guest_credential_ids s).

Lemma native_version_log old new s u s' : protect_native_guest_account_version now txid old new s = inr (u, s') ->
  native_log s s' /\ native_logged s' old new.
Proof.
  assert (forall u s', insert_native_credential_id new s = inr (u, s') -> native_log s s' /\ native_logged s' old new) as Hins.
  { intros u' s1 Hu. apply insert_credential_inr in Hu as (? & ? & _ & Hids). split.
    - split_and!; [done.. |]. intros ci ?. rewrite Hids, in_app_iff. auto.
    - intros _. rewrite Hids, in_app_iff. right. by left. }
  unfold protect_native_guest_account_version. intros H. inv_sql.
  destruct (_ && _) eqn:E1 in H1; [by eapply Hins |].
  assert (a_connection_id new = a_connection_id old -> native_log s s /\ native_logged s old new) as Hsame by (intros; split; [apply native_log_refl | by intros ?]).
  destruct (a_revision new == a_revision old) eqn:E2.
  { inv_sql. b2p. destruct_and!. auto. }
  destruct (_ && _) eqn:E3 in H1; [| by inv_sql].
  unfold native_version_advance in H1. destruct (a_operation new) eqn:Eo; inv_sql.
  - unfold native_version_issue in H1. inv_sql. by eapply Hins.
  - b2p. destruct_and!. auto.
  - b2p. destruct_and!. auto.
Qed.

Lemma before_update_native_log old new s r s' : before_update_native now txid old new s = inr (r, s') ->
  r = new /\ native_log s s' /\ (same_native_identity old new = true /\ native_account_checks new = true /\
    native_step now txid s old new /\ native_logged s' old new).
Proof.
  intros H. pose proof H as (-> & Hf & Ha & Hi & Hs & Hc)%before_update_native_inr. split; [done |].
  unfold before_update_native in H. inv_sql.
  match goal with H : protect_cross_subject_native _ _ = _ |- _ => apply cross_native_inr in H as (-> & _) end.
  match goal with H : protect_native_guest_account_version _ _ _ _ _ = _ |- _ => apply native_version_log in H as [? ?] end.
  done.
Qed.

Lemma update_native_inr p f s l s' :
  update_native_guest_accounts now txid p f s = inr (l, s') ->
  native_frame s s' /\ native_guest_accounts s' = update_where p f (native_guest_accounts s) /\
  l = List.map f (rows p (native_guest_accounts s)) /\ native_indexes (native_guest_accounts s') = true /\
  (forall ci, In ci (native_guest_credential_ids s) -> In ci (native_guest_credential_ids s')) /\
  forall a, In a (native_guest_accounts s) -> p a = true ->
    same_native_identity a (f a) = true /\ native_account_checks (f a) = true /\
    native_step now txid s a (f a) /\ native_logged s' a (f a).
Proof.
  unfold update_native_guest_accounts. intros H. inv_tx.
  eapply (update_each_logged p f _ _ native_log native_log_refl native_log_trans) in H0 as (HR & -> & HG);
    [| intros; by apply before_update_native_log].
  rewrite changed_update_where. destruct HR as (Hf & Ha & Hids). split_and!; try done.
  intros a Hin Hp. destruct (HG a Hin Hp) as (s1 & s2 & Hr1 & (? & ? & ? & Hl) & (_ & _ & Hr2)). split_and!; [done.. | |].
  - by eapply native_step_earlier.
  - intros Hn. apply Hr2. by apply Hl.
Qed.

Lemma before_insert_native_inr new s u s' : before_insert_native new s = inr (u, s') ->
  s' = s /\ a_revision new = 0 /\ a_state new = NIdle /\ a_operation new = NNone /\ native_account_checks new = true /\
  forall g, In g (agent_guest_sessions s) -> s_desktop_vmid g = a_desktop_vmid new ->
    a_guest_uid new <> 0 \/ a_guest_sid new <> "" ->
    same_os_account (a_guest_uid new) (s_guest_uid g) (a_guest_sid new) (s_guest_sid g) = false.
Proof.
  unfold before_insert_native, native_version_insert. intros H. inv_sql.
  match goal with H : protect_cross_subject_native _ _ = _ |- _ => apply cross_native_inr in H as (-> & ?) end.
  b2p. destruct_and!. done.
Qed.

Lemma insert_native_inr new s r s' : insert_native_guest_account new s = inr (r, s') ->
  r = new /\ s' = s <| native_guest_accounts := native_guest_accounts s ++ [new] |> /\
  native_indexes (native_guest_accounts s') = true /\ native_account_checks new = true /\
  a_revision new = 0 /\ a_state new = NIdle /\ a_operation new = NNone /\
  forall g, In g (agent_guest_sessions s) -> s_desktop_vmid g = a_desktop_vmid new ->
    a_guest_uid new <> 0 \/ a_guest_sid new <> "" ->
    same_os_account (a_guest_uid new) (s_guest_uid g) (a_guest_sid new) (s_guest_sid g) = false.
Proof.
  unfold insert_native_guest_account. intros H. inv_sql.
  match goal with H : before_insert_native _ _ = _ |- _ => apply before_insert_native_inr in H as (-> & ? & ? & ? & ? & ?) end.
  done.
Qed.
End native_lemmas.
