(* ===== verification/StoreAccess.v ===== *)
(** * Authorization changes ([internal/store/store.go], [access_transaction.go], [guest_revocation.go])

    Users, the desktop inventory, assignments, identity groups and the closing
    step [commitAccessChange] that every access-shrinking transaction runs:
    bindings, connections and leases whose grant is gone are revoked in the
    same transaction.  [now] is the transaction's [now()]. *)
From stdpp Require Import base strings list.
From Stdlib Require Import ZArith Lia.
From S2P Require Import Prelude GoStrings Db Triggers TriggerLemmas.

Local Open Scope string_scope.
Local Open Scope list_scope.
Local Open Scope Z_scope.

(** ** The structs the operations take and return *)
Record UserInfo : Set := MkUserInfo {
  UserID : string;
  Username : string;
  UserDisplayName : string;
  PasswordHash : string;
  UserRole : role;
  UserDisabled : bool;
  UserCreatedAt : time
}.

Record UserAccount : Set := MkUserAccount {
  AccountID : string;
  AccountUsername : string;
  AccountDisplayName : string;
  AccountRole : role;
  AccountDisabled : bool;
  IdentityKind : string;
  AccountCreatedAt : time
}.

Record DesktopInfo : Set := MkDesktopInfo {
  VMID : Z;
  DisplayName : string;
  Node : string;
  OSFamily : string;
  Present : bool;
  Enabled : bool;
  AccessMode : access_mode;
  OwnerUserID : string;
  IdentityProfileID : string;
  IdentityState : identity_state;
  AppliedIdentityProfileID : string;
  IdentityLastError : string;
  IdentityUpdatedAt : time;
  FirstSeenAt : time;
  LastSeenAt : time;
  UpdatedAt : time
}.

Record DesktopAssignment : Set := MkDesktopAssignment {
  SubjectType : string;
  SubjectID : string;
  DesktopVMID : Z;
  CreatedBy : string;
  AssignedAt : time
}.

Definition user_info (u : User) : UserInfo :=
  MkUserInfo (u_id u) (u_username u) (u_display_name u) (coalesce (u_password_hash u)) (u_role u) (u_disabled u)
    (u_created_at u).

Definition user_account (u : User) : UserAccount :=
  MkUserAccount (u_id u) (u_username u) (u_display_name u) (u_role u) (u_disabled u)
    (match u_password_hash u with Some _ => "local" | None => "oidc" end) (u_created_at u).

Definition scanManagedDesktop (d : ManagedDesktop) : DesktopInfo :=
  MkDesktopInfo (d_vmid d) (d_display_name d) (d_node d) (d_os_family d) (d_present d) (d_enabled d)
    (d_access_mode d) (coalesce (d_owner_user_id d)) (coalesce (d_identity_profile_id d)) (d_identity_state d)
    (coalesce (d_applied_identity_profile_id d)) (d_identity_last_error d) (d_identity_updated_at d)
    (d_first_seen_at d) (d_last_seen_at d) (d_updated_at d).

(** [UPDATE ... RETURNING] read with [QueryRow]: the updated row, or [e]. *)
Definition update_returning {R} (get : DB -> list R) (put : list R -> DB -> DB)
  (p : R -> bool) (f : R -> R) (e : error) : tx DB R :=
  t ← tgets get;
  r ← trow (select_one p t) e;
  tmod (put (update_where p f t));;
  mret (f r).

(** A foreign key of an inserted row: [23503] unless the referenced row exists. *)
Definition references (ok : bool) : tx DB unit := ensure ok (ErrPg ForeignKeyViolation).
Definition user_exists (s : DB) (id : string) : bool := exists_where (fun u => u_id u == id) (users s).
Definition ref_user_opt (s : DB) (o : option string) : bool :=
  match o with Some id => user_exists s id | None => true end.

Definition isForeignKeyViolation (e : error) : bool := e == ErrPg ForeignKeyViolation.
Definition fk_not_found (e : error) : error := if isForeignKeyViolation e then ErrNotFound else e.
Definition unique_conflict (e : error) : error := if e == ErrPg UniqueViolation then ErrConflict else e.

Section access.
Context `{UnicodeLower} (now : time).

(** ** The revocation queue *)
Definition queue_revocation (reason : revocation_reason) (b : GuestIdentityBinding) : tx DB unit :=
  tmod (fun s => s <| guest_identity_revocations :=
    upsert (fun q => (q_desktop_vmid q == b_desktop_vmid b) && (q_user_id q == b_user_id b) &&
                     (q_guest_username q == b_guest_username b))
           (fun q => q <| q_requested_revision := q_requested_revision q + 1; q_reason := reason;
                          q_last_error := ""; q_updated_at := now |>)
           (MkGuestIdentityRevocation (b_desktop_vmid b) (b_user_id b) (b_guest_username b) 1 0 reason "" now)
           (guest_identity_revocations s) |>).

Definition queueGuestIdentityRevocations (p : GuestIdentityBinding -> bool) (reason : revocation_reason) : tx DB unit :=
  affected ← update_guest_identity_bindings p (fun b => b <| b_state := BDisabled; b_updated_at := now |>);
  tfold (queue_revocation reason) affected.

(** ** [commitAccessChange] *)
Definition commitAccessChange : tx DB unit :=
  s ← tget;
  queueGuestIdentityRevocations (fun b => (b_state b != BDisabled) &&
    negb (effective_user_desktop_access s (b_user_id b) (b_desktop_vmid b))) AccessRemoved;;
  s ← tget;
  update_desktop_connections
    (fun c => conn_open c && negb (effective_user_desktop_access s (c_user_id c) (c_desktop_vmid c)))
    (fun c => c <| c_state := CRevoking; c_termination_required := true; c_updated_at := now |>);;
  s ← tget;
  update_desktop_leases now
    (fun l => (l_state l == LActive) && negb (agent_desktop_access s (l_agent_id l) (by_text (l_desktop_id l))))
    (fun l => l <| l_state := LRevoked; l_control_epoch := l_control_epoch l + 1; l_updated_at := now |>);;
  mret tt.

Definition DesktopConnectionTerminationRequired (id : string) : tx DB bool :=
  s ← tget;
  c ← trow (select_one (fun c => c_id c == id) (desktop_connection_sessions s)) ErrNoRows;
  mret (c_termination_required c || (c_expires_at c <=? now)).

(** ** Users *)
Definition insert_user (u : User) : tx DB unit :=
  t ← tgets users;
  ensure (negb (exists_where (fun v => (u_id v == u_id u) || (u_username_normalized v == u_username_normalized u)) t))
    (ErrPg UniqueViolation);;
  tmod (fun s => s <| users := t ++ [u] |>).

Definition IsInitialized : tx DB bool := tgets (fun s => exists_where (fun _ => true) (users s)).

Definition CreateInitialAdmin (user : UserInfo) : tx DB unit :=
  exists' ← IsInitialized;
  ensure (negb exists') ErrAlreadyInitialized;;
  insert_user (MkUser (UserID user) (Username user) (ToLower (Username user)) (UserDisplayName user)
                      (Some (PasswordHash user)) PlatformAdmin false now now).

Definition UserByUsername (username : string) : tx DB UserInfo :=
  s ← tget;
  u ← trow (select_one (fun u => u_username_normalized u == ToLower username) (users s)) ErrNotFound;
  mret (user_info u).

Definition CreateLocalUser (user : UserInfo) : tx DB UserAccount :=
  tcatch (insert_user (MkUser (UserID user) (Username user) (ToLower (Username user)) (UserDisplayName user)
                              (Some (PasswordHash user)) RegularUser false now now)) unique_conflict;;
  mret (MkUserAccount (UserID user) (Username user) (UserDisplayName user) RegularUser false "local" now).

Definition SetUserDisabled (id : string) (disabled : bool) : tx DB UserAccount :=
  u ← update_returning users (fun t s => s <| users := t |>) (fun u => u_id u == id)
        (fun u => u <| u_disabled := disabled; u_updated_at := now |>) ErrNotFound;
  (if disabled then
     tmod (fun s => s <| web_sessions := delete_where (fun w => ws_user_id w == id) (web_sessions s) |>);;
     tmod (fun s => s <| native_sessions := delete_where (fun n => ns_user_id n == id) (native_sessions s) |>);;
     tmod (fun s => s <| native_auth_codes := delete_where (fun n => nc_user_id n == id) (native_auth_codes s) |>);;
     update_desktop_connections (fun c => (c_user_id c == id) && (c_state c == CActive))
       (fun c => c <| c_state := CRevoking; c_termination_required := true; c_updated_at := now |>);;
     mret tt
   else mret tt);;
  commitAccessChange;;
  mret (user_account u).

Definition SetUserPassword (id passwordHash : string) (retainedWebSessionDigest : bytes) : tx DB UserAccount :=
  ensure (negb ((TrimSpace id == "") || (TrimSpace passwordHash == ""))) ErrInvalid;;
  s ← tget;
  u ← update_returning users (fun t s => s <| users := t |>)
        (fun u => (u_id u == id) && (u_password_hash u != None))
        (fun u => u <| u_password_hash := Some passwordHash; u_updated_at := now |>)
        (if user_exists s id then ErrConflict else ErrNotFound);
  tmod (fun s => s <| web_sessions :=
    delete_where (fun w => (ws_user_id w == id) &&
      (if slen retainedWebSessionDigest =? 0 then true else ws_token_digest w != retainedWebSessionDigest))
      (web_sessions s) |>);;
  tmod (fun s => s <| native_sessions := delete_where (fun n => ns_user_id n == id) (native_sessions s) |>);;
  tmod (fun s => s <| native_auth_codes := delete_where (fun n => nc_user_id n == id) (native_auth_codes s) |>);;
  update_desktop_connections (fun c => (c_user_id c == id) && conn_open c)
    (fun c => c <| c_state := CRevoking; c_termination_required := true; c_updated_at := now |>);;
  queueGuestIdentityRevocations (fun b => b_user_id b == id) CredentialRevoked;;
  commitAccessChange;;
  mret (user_account u).

(** ** The desktop inventory *)
Definition normalizeManagedDesktopOSFamily (value : string) : string :=
  let v := ToLower (TrimSpace value) in
  if v == "linux" then "linux" else if v == "windows" then "windows" else "unknown".

Definition ManagedDesktopByVMID (vmid : Z) : tx DB DesktopInfo :=
  s ← tget;
  d ← trow (select_one (by_vmid vmid) (managed_desktops s)) ErrNotFound;
  mret (scanManagedDesktop d).

(** A row with the column defaults of 013..016. *)
Definition new_desktop (vmid : Z) (name node os : string) (enabled : bool) : ManagedDesktop :=
  MkManagedDesktop vmid name node os true enabled Personal None None IdPending None "" now now now now.

Definition upsert_desktop (desktop : DesktopInfo) : tx DB unit :=
  let os := normalizeManagedDesktopOSFamily (OSFamily desktop) in
  let name := TrimSpace (DisplayName desktop) in
  let node := TrimSpace (Node desktop) in
  tmod (fun s => s <| managed_desktops :=
    upsert (by_vmid (VMID desktop))
           (fun d => d <| d_display_name := name; d_node := node;
                          d_os_family := if os == "unknown" then d_os_family d else os;
                          d_present := true; d_last_seen_at := now; d_updated_at := now |>)
           (new_desktop (VMID desktop) name node os true) (managed_desktops s) |>).

Definition valid_desktop (desktop : DesktopInfo) : bool :=
  negb ((VMID desktop <=? 0) || (TrimSpace (DisplayName desktop) == "")).

Definition ReconcileManagedDesktops (desktops : list DesktopInfo) : tx DB unit :=
  tmod (fun s => s <| managed_desktops :=
    update_where d_present (fun d => d <| d_present := false; d_updated_at := now |>) (managed_desktops s) |>);;
  tfold (fun desktop => ensure (valid_desktop desktop) ErrInvalid;; upsert_desktop desktop) desktops;;
  commitAccessChange.

Definition UpsertManagedDesktop (desktop : DesktopInfo) : tx DB unit :=
  ensure (valid_desktop desktop) ErrInvalid;;
  upsert_desktop desktop.

Definition QuarantineClonedDesktop (desktop : DesktopInfo) : tx DB unit :=
  ensure (valid_desktop desktop) ErrInvalid;;
  tmod (fun s => s <| managed_desktops :=
    upsert (by_vmid (VMID desktop))
           (fun d => d <| d_enabled := false; d_updated_at := now |>)
           (new_desktop (VMID desktop) (TrimSpace (DisplayName desktop)) (TrimSpace (Node desktop))
              (normalizeManagedDesktopOSFamily (OSFamily desktop)) false)
           (managed_desktops s) |>);;
  commitAccessChange.

(** ** Access questions *)
Definition UserCanAccessDesktop (userID : string) (vmid : Z) : tx DB bool :=
  tgets (fun s => effective_user_desktop_access s userID vmid).
Definition AgentCanAccessDesktop (agentID : string) (vmid : Z) : tx DB bool :=
  tgets (fun s => agent_desktop_access s agentID (by_vmid vmid)).

(** ** Agent principals *)
Definition CreateAgentPrincipal (id displayName createdBy : string) (tokenDigest : bytes) : tx DB AgentPrincipal :=
  s ← tget;
  let row := MkAgentPrincipal id displayName (Some tokenDigest) true (nullif createdBy) now now None in
  ensure (negb (exists_where (fun p => (ap_id p == id) || (ap_token_digest p == Some tokenDigest)) (agent_principals s)))
    ErrConflict;;
  references (ref_user_opt s (ap_created_by row));;
  tmod (fun s => s <| agent_principals := agent_principals s ++ [row] |>);;
  mret row.

Definition RotateAgentToken (id : string) (tokenDigest : bytes) : tx DB AgentPrincipal :=
  s ← tget;
  ensure (negb (exists_where (fun p => ap_id p == id) (agent_principals s)) ||
          negb (exists_where (fun p => (ap_id p != id) && (ap_token_digest p == Some tokenDigest)) (agent_principals s)))
    (ErrPg UniqueViolation);;
  update_returning agent_principals (fun t s => s <| agent_principals := t |>) (fun p => ap_id p == id)
    (fun p => p <| ap_token_digest := Some tokenDigest; ap_updated_at := now |>) ErrNotFound.

Definition SetAgentEnabled (id : string) (enabled : bool) : tx DB AgentPrincipal :=
  a ← update_returning agent_principals (fun t s => s <| agent_principals := t |>) (fun p => ap_id p == id)
        (fun p => p <| ap_enabled := enabled; ap_updated_at := now |>) ErrNotFound;
  (if enabled then mret tt else
     update_desktop_leases now (fun l => (l_agent_id l == id) && (l_state l == LActive))
       (fun l => l <| l_state := LRevoked; l_control_epoch := l_control_epoch l + 1; l_updated_at := now |>);;
     mret tt);;
  mret a.

Definition AgentByTokenDigest (tokenDigest : bytes) : tx DB AgentPrincipal :=
  update_returning agent_principals (fun t s => s <| agent_principals := t |>)
    (fun p => (ap_token_digest p == Some tokenDigest) && ap_enabled p)
    (fun p => p <| ap_last_used_at := Some now |>) ErrNotFound.

(** ** Desktop identity and assignments *)
Definition parse_access_mode (m : string) : option access_mode :=
  if m == "personal" then Some Personal else if m == "shared" then Some Shared else None.

Definition profile_exists (s : DB) (o : option string) : bool :=
  match o with Some id => exists_where (fun p => p_id p == id) (identity_profiles s) | None => true end.

Definition UpdateManagedDesktopIdentity (vmid : Z) (accessMode ownerUserID profileID : string) : tx DB DesktopInfo :=
  mode ← trow (parse_access_mode accessMode) ErrInvalid;
  ensure (negb ((mode == Personal) && (ownerUserID == ""))) ErrInvalid;;
  let owner := nullif (if mode == Shared then "" else ownerUserID) in
  let profile := nullif profileID in
  s ← tget;
  d ← update_returning managed_desktops (fun t s => s <| managed_desktops := t |>) (by_vmid vmid)
        (fun d => d <| d_access_mode := mode; d_owner_user_id := owner; d_identity_profile_id := profile;
                       d_identity_state := IdPending; d_identity_last_error := ""; d_identity_updated_at := now;
                       d_updated_at := now |>) ErrNotFound;
  tcatch (references (ref_user_opt s owner && profile_exists s profile)) fk_not_found;;
  (if mode == Personal then
     tmod (fun s => s <| user_desktop_assignments :=
       delete_where (fun a => ua_desktop_vmid a == vmid) (user_desktop_assignments s) |>);;
     tmod (fun s => s <| group_desktop_assignments :=
       delete_where (fun a => ga_desktop_vmid a == vmid) (group_desktop_assignments s) |>)
   else mret tt);;
  commitAccessChange;;
  mret (scanManagedDesktop d).

(** [INSERT ... ON CONFLICT DO NOTHING], with the foreign keys of a row that
    is really inserted; the result is [RowsAffected() == 1]. *)
Definition insert_ignore {R} (get : DB -> list R) (put : list R -> DB -> DB) (same : R -> bool)
  (refs : DB -> bool) (row : R) : tx DB bool :=
  s ← tget;
  if exists_where same (get s) then mret false else
  references (refs s);;
  tmod (put (get s ++ [row]));;
  mret true.

Definition put_assignment (mode : access_mode) (a : DesktopAssignment) : tx DB bool :=
  let creator := nullif (CreatedBy a) in
  let vmid := DesktopVMID a in
  let id := SubjectID a in
  if SubjectType a == "user" then
    insert_ignore user_desktop_assignments (fun t s => s <| user_desktop_assignments := t |>)
      (fun r => (ua_user_id r == id) && (ua_desktop_vmid r == vmid))
      (fun s => user_exists s id && ref_user_opt s creator) (MkUserAssignment id vmid creator now)
  else if SubjectType a == "agent" then
    insert_ignore agent_desktop_assignments (fun t s => s <| agent_desktop_assignments := t |>)
      (fun r => (aa_agent_id r == id) && (aa_desktop_vmid r == vmid))
      (fun s => exists_where (fun p => ap_id p == id) (agent_principals s) && ref_user_opt s creator)
      (MkAgentAssignment id vmid creator now)
  else if SubjectType a == "group" then
    ensure (mode == Shared) ErrConflict;;
    insert_ignore group_desktop_assignments (fun t s => s <| group_desktop_assignments := t |>)
      (fun r => (ga_group_id r == id) && (ga_desktop_vmid r == vmid))
      (fun s => exists_where (fun g => g_id g == id) (identity_groups s) && ref_user_opt s creator)
      (MkGroupAssignment id vmid creator now)
  else tfail ErrInvalid.

Definition PutDesktopAssignment (a : DesktopAssignment) : tx DB bool :=
  s ← tget;
  d ← trow (select_one (by_vmid (DesktopVMID a)) (managed_desktops s)) ErrNotFound;
  if (SubjectType a == "user") && (d_access_mode d == Personal) then
    let owner := coalesce (d_owner_user_id d) in
    ensure (negb ((owner != "") && (owner != SubjectID a))) ErrConflict;;
    if owner == "" then
      tcatch (references (user_exists s (SubjectID a))) fk_not_found;;
      tmod (fun s => s <| managed_desktops :=
        update_where (by_vmid (DesktopVMID a))
          (fun d => d <| d_owner_user_id := Some (SubjectID a); d_updated_at := now |>) (managed_desktops s) |>);;
      commitAccessChange;;
      mret (bool_decide (rows_affected (by_vmid (DesktopVMID a)) (managed_desktops s) = 1%nat))
    else commitAccessChange;; mret false
  else
    inserted ← tcatch (put_assignment (d_access_mode d) a) fk_not_found;
    commitAccessChange;;
    mret inserted.

(** [DELETE], with the number of rows it removed. *)
Definition delete_count {R} (get : DB -> list R) (put : list R -> DB -> DB) (p : R -> bool) : tx DB nat :=
  t ← tgets get;
  tmod (put (delete_where p t));;
  mret (rows_affected p t).

Definition delete_user_assignment (subjectID : string) (vmid : Z) (mode : access_mode) : tx DB nat :=
  if mode == Personal then
    t ← tgets managed_desktops;
    let p d := by_vmid vmid d && (d_owner_user_id d == Some subjectID) in
    tmod (fun s => s <| managed_desktops :=
      update_where p (fun d => d <| d_owner_user_id := @None string; d_updated_at := now |>) t |>);;
    mret (rows_affected p t)
  else
    delete_count user_desktop_assignments (fun t s => s <| user_desktop_assignments := t |>)
      (fun a => (ua_user_id a == subjectID) && (ua_desktop_vmid a == vmid)).

Definition DeleteDesktopAssignment (subjectType subjectID : string) (vmid : Z) : tx DB bool :=
  if subjectType == "user" then
    s ← tget;
    d ← trow (select_one (by_vmid vmid) (managed_desktops s)) ErrNotFound;
    if (d_access_mode d == Personal) && (coalesce (d_owner_user_id d) != subjectID) then
      commitAccessChange;; mret false
    else
      n ← delete_user_assignment subjectID vmid (d_access_mode d);
      commitAccessChange;;
      mret (bool_decide (n = 1%nat))
  else if subjectType == "agent" then
    n ← delete_count agent_desktop_assignments (fun t s => s <| agent_desktop_assignments := t |>)
          (fun a => (aa_agent_id a == subjectID) && (aa_desktop_vmid a == vmid));
    (if bool_decide (n = 0%nat) then mret tt else
       update_desktop_leases now
         (fun l => (l_agent_id l == subjectID) && (l_desktop_id l == itoa vmid) && (l_state l == LActive))
         (fun l => l <| l_state := LRevoked; l_control_epoch := l_control_epoch l + 1; l_updated_at := now |>);;
       mret tt);;
    commitAccessChange;;
    mret (bool_decide (n = 1%nat))
  else if subjectType == "group" then
    n ← delete_count group_desktop_assignments (fun t s => s <| group_desktop_assignments := t |>)
          (fun a => (ga_group_id a == subjectID) && (ga_desktop_vmid a == vmid));
    commitAccessChange;;
    mret (bool_decide (n = 1%nat))
  else tfail ErrInvalid.

(** ** Identity profiles *)
Definition IdentityProfileByID (id : string) : tx DB IdentityProfile :=
  s ← tget;
  trow (select_one (fun p => p_id p == id) (identity_profiles s)) ErrNotFound.

(** The CHECK constraints of [identity_profiles] (014). *)
Definition profile_checks (p : IdentityProfile) : bool :=
  let modes := ["managed_local"; "linux_sssd_ad"; "linux_sssd_freeipa"; "linux_sssd_ldap"; "linux_sssd_oidc";
                "windows_ad"; "windows_entra"] in
  ((p_platform p == "linux") || (p_platform p == "windows")) &&
  existsb (fun m => m == p_mode p) modes &&
  (((p_platform p == "linux") && has_prefix "linux" (p_mode p)) ||
   ((p_platform p == "windows") && has_prefix "windows" (p_mode p)) || (p_mode p == "managed_local")).

Definition PutIdentityProfile (profile : IdentityProfile) (config : option json) : tx DB IdentityProfile :=
  let row := profile <| p_config := default (JObj []) config; p_updated_at := now |> in
  s ← tget;
  check (profile_checks row);;
  references (exists_where (fun p => p_id p == p_id row) (identity_profiles s) || ref_user_opt s (p_created_by row));;
  tmod (fun s => s <| identity_profiles :=
    upsert (fun p => p_id p == p_id row) (fun p => row <| p_created_by := p_created_by p |>) row
      (identity_profiles s) |>);;
  tmod (fun s => s <| managed_desktops :=
    update_where (fun d => d_identity_profile_id d == Some (p_id row))
      (fun d => d <| d_identity_state := IdPending; d_identity_last_error := ""; d_identity_updated_at := now;
                     d_updated_at := now |>) (managed_desktops s) |>);;
  IdentityProfileByID (p_id row).

Definition markManagedDesktopIdentity (vmid : Z) (state : identity_state) (appliedProfileID message : string)
  : tx DB DesktopInfo :=
  let message := if 500 <? slen message then str_take 500 message else message in
  s ← tget;
  d ← update_returning managed_desktops (fun t s => s <| managed_desktops := t |>) (by_vmid vmid)
        (fun d => d <| d_identity_state := state; d_applied_identity_profile_id := nullif appliedProfileID;
                       d_identity_last_error := message; d_identity_updated_at := now; d_updated_at := now |>)
        ErrNotFound;
  references (profile_exists s (nullif appliedProfileID));;
  mret (scanManagedDesktop d).

Definition MarkManagedDesktopIdentityApplied (vmid : Z) (profileID : string) : tx DB DesktopInfo :=
  markManagedDesktopIdentity vmid IdApplied profileID "".
Definition MarkManagedDesktopIdentityRestartRequired (vmid : Z) (profileID : string) : tx DB DesktopInfo :=
  markManagedDesktopIdentity vmid IdRestartRequired profileID "".
Definition MarkManagedDesktopIdentityFailed (vmid : Z) (message : string) : tx DB DesktopInfo :=
  markManagedDesktopIdentity vmid IdFailed "" message.

(** ** Identity groups *)
Definition source_ok (source : string) : bool := (source == "local") || (source == "oidc") || (source == "scim").
Definition provider_exists (s : DB) (o : option string) : bool :=
  match o with Some id => exists_where (fun p => op_id p == id) (oidc_providers s) | None => true end.

(** [UNIQUE (provider_id, external_id)] ignores NULLs. *)
Definition same_external (p e : option string) (g : IdentityGroup) : bool :=
  (p != None) && (e != None) && (g_provider_id g == p) && (g_external_id g == e).

Definition member_count (s : DB) (group : string) : nat :=
  rows_affected (fun m => m_group_id m == group) (identity_group_memberships s).

Definition PutIdentityGroup (id providerID externalID displayName source : string) (enabled : bool)
  (createdBy : string) : tx DB IdentityGroup :=
  let row := MkIdentityGroup id (nullif providerID) (nullif externalID) displayName source enabled
               (nullif createdBy) now in
  s ← tget;
  check (source_ok source);;
  ensure (negb (exists_where (fun g => (g_id g == id) || same_external (g_provider_id row) (g_external_id row) g)
                  (identity_groups s))) ErrConflict;;
  references (provider_exists s (g_provider_id row) && ref_user_opt s (g_created_by row));;
  tmod (fun s => s <| identity_groups := identity_groups s ++ [row] |>);;
  mret row.

Definition SetIdentityGroupEnabled (id : string) (enabled : bool) : tx DB (IdentityGroup * nat) :=
  g ← update_returning identity_groups (fun t s => s <| identity_groups := t |>) (fun g => g_id g == id)
        (fun g => g <| g_enabled := enabled; g_updated_at := now |>) ErrNotFound;
  s ← tget;
  commitAccessChange;;
  mret (g, member_count s id).

(** [INSERT INTO identity_group_memberships ... ON CONFLICT(group_id,user_id)
    DO UPDATE SET source=..., updated_at=now()] *)
Definition upsert_membership (group user source : string) : tx DB GroupMembership :=
  s ← tget;
  let same m := (m_group_id m == group) && (m_user_id m == user) in
  let row := MkGroupMembership group user source now in
  check (source_ok source);;
  references (exists_where same (identity_group_memberships s) ||
              (exists_where (fun g => g_id g == group) (identity_groups s) && user_exists s user));;
  tmod (fun s => s <| identity_group_memberships :=
    upsert same (fun m => m <| m_source := source; m_updated_at := now |>) row (identity_group_memberships s) |>);;
  mret row.

Definition PutIdentityGroupMembership (group user source : string) : tx DB GroupMembership :=
  s ← tget;
  if exists_where (fun g => (g_id g == group) && (g_source g != "oidc")) (identity_groups s)
  then tcatch (upsert_membership group user source) fk_not_found
  else tfail (if exists_where (fun g => g_id g == group) (identity_groups s) then ErrConflict else ErrNotFound).

Definition DeleteIdentityGroupMembership (groupID userID : string) : tx DB bool :=
  n ← delete_count identity_group_memberships (fun t s => s <| identity_group_memberships := t |>)
        (fun m => (m_group_id m == groupID) && (m_user_id m == userID) && (m_source m != "oidc"));
  commitAccessChange;;
  mret (bool_decide (n = 1%nat)).

(** The claims of one group in an OIDC login. *)
Record GroupClaim : Set := MkGroupClaim { ClaimID : string; ExternalID : string; ClaimName : string }.

Definition sync_oidc_group (providerID userID : string) (group : GroupClaim) : tx DB string :=
  ensure (negb ((ClaimID group == "") || (ExternalID group == "") || (ClaimName group == ""))) ErrInvalid;;
  s ← tget;
  let same g := (g_provider_id g == Some providerID) && (g_external_id g == Some (ExternalID group)) in
  (if exists_where same (identity_groups s) then
     tmod (fun s => s <| identity_groups :=
       update_where same (fun g => g <| g_display_name := ClaimName group; g_updated_at := now |>)
         (identity_groups s) |>)
   else
     ensure (negb (exists_where (fun g => g_id g == ClaimID group) (identity_groups s))) (ErrPg UniqueViolation);;
     references (provider_exists s (Some providerID));;
     tmod (fun s => s <| identity_groups := identity_groups s ++
       [MkIdentityGroup (ClaimID group) (Some providerID) (Some (ExternalID group)) (ClaimName group) "oidc" true
          None now] |>));;
  s ← tget;
  g ← trow (select_one same (identity_groups s)) ErrNoRows;
  upsert_membership (g_id g) userID "oidc";;
  mret (g_id g).

Fixpoint sync_oidc_groups (providerID userID : string) (groups : list GroupClaim) : tx DB (list string) :=
  match groups with
  | [] => mret []
  | g :: rest =>
      id ← sync_oidc_group providerID userID g;
      ids ← sync_oidc_groups providerID userID rest;
      mret (id :: ids)
  end.

Definition SyncOIDCGroupMemberships (providerID userID : string) (groups : list GroupClaim) : tx DB unit :=
  groupIDs ← sync_oidc_groups providerID userID groups;
  tmod (fun s => s <| identity_group_memberships :=
    delete_where (fun m => (m_user_id m == userID) && (m_source m == "oidc") &&
        exists_where (fun g => (g_id g == m_group_id m) && (g_provider_id g == Some providerID)) (identity_groups s) &&
        negb (existsb (fun id => id == m_group_id m) groupIDs))
      (identity_group_memberships s) |>);;
  commitAccessChange.
End access.
