(* ===== verification/StoreLease.v ===== *)
(** * Agent leases and computer authority ([internal/store/store.go], [computer_revocation.go])

    Exclusive agent leases of a desktop, the per-VM control epoch that fences
    them, and the queue that revokes an agent's authority in the Guest. *)
From stdpp Require Import base strings list.
From Stdlib Require Import ZArith Lia.
From S2P Require Import Prelude GoStrings Db Triggers TriggerLemmas StoreAccess.

Local Open Scope string_scope.
Local Open Scope list_scope.
Local Open Scope Z_scope.

Record ComputerRevocationItem : Set := MkComputerRevocationItem { CRVMID : Z; CRRevision : Z }.

Section leases.
Context `{Collation} (now : time).

Definition expire_leases (l : DesktopLease) : bool := (l_state l == LActive) && (l_expires_at l <=? now).

Definition CreateDesktopLease (id agentID desktopID : string) (expiresAt : time) : tx DB DesktopLease :=
  s ← tget;
  let allowed := agent_desktop_access s agentID (by_text desktopID) in
  let humanControlled := exists_where (fun c => (itoa (c_desktop_vmid c) == desktopID) && conn_open c)
                           (desktop_connection_sessions s) in
  ensure allowed ErrNotFound;;
  ensure (negb humanControlled) ErrAlreadyLeased;;
  update_desktop_leases now expire_leases (fun l => l <| l_state := LExpired; l_updated_at := now |>);;
  tcatch (insert_desktop_lease now (MkDesktopLease id agentID desktopID LActive 1 expiresAt now now))
    (fun e => if e == ErrPg UniqueViolation then ErrAlreadyLeased else e).

(** The projection [DesktopLeaseByID] reports. *)
Definition lease_view (l : DesktopLease) : DesktopLease :=
  if expire_leases l then l <| l_state := LExpired |> else l.

Definition DesktopLeaseByID (id : string) : tx DB DesktopLease :=
  s ← tget;
  l ← trow (select_one (fun l => l_id l == id) (desktop_leases s)) ErrNotFound;
  mret (lease_view l).

Definition ActiveDesktopLeases : tx DB (list DesktopLease) :=
  tgets (fun s => order_by (then_by (asc l_expires_at) (fun a b => text_le (l_id a) (l_id b)))
    (rows (fun l => (l_state l == LActive) && (now <? l_expires_at l)) (desktop_leases s))).

Definition close_leases (p : DesktopLease -> bool) (st : lease_state) : tx DB (list DesktopLease) :=
  update_desktop_leases now (fun l => p l && (l_state l == LActive))
    (fun l => l <| l_state := st; l_control_epoch := l_control_epoch l + 1; l_updated_at := now |>).

Definition ReleaseDesktopLease (id : string) : tx DB DesktopLease :=
  l ← close_leases (fun l => l_id l == id) LReleased;
  trow (head l) ErrNotFound.

Definition RevokeDesktopLeases (vmid : Z) : tx DB (list DesktopLease) :=
  ensure (0 <? vmid) ErrInvalid;;
  close_leases (fun l => l_desktop_id l == itoa vmid) LRevoked.

Definition QueueExpiredComputerLeases (vmid : Z) : tx DB unit :=
  close_leases (fun l => (l_expires_at l <=? now) && ((vmid =? 0) || (l_desktop_id l == itoa vmid))) LExpired;;
  mret tt.

(** ** Epochs and the computer revocation queue *)
Definition ComputerControlEpoch (vmid : Z) : tx DB Z :=
  s ← tget;
  ensure (exists_where (by_vmid vmid) (managed_desktops s)) ErrNotFound;;
  tmod (fun s => s <| desktop_computer_epochs :=
    upsert (fun e => e_desktop_vmid e == vmid) (fun e => e) (MkComputerEpoch vmid 1 now) (desktop_computer_epochs s) |>);;
  s ← tget;
  trow (current_epoch s vmid) ErrNotFound.

Definition ComputerRevocationEpoch (vmid : Z) : tx DB Z :=
  s ← tget;
  r ← trow (select_one (fun r => r_desktop_vmid r == vmid) (desktop_computer_revocations s)) ErrNotFound;
  mret (r_control_epoch r).

Definition PendingComputerRevocations (vmid : Z) : tx DB (list ComputerRevocationItem) :=
  tgets (fun s => List.map (fun r => MkComputerRevocationItem (r_desktop_vmid r) (r_requested_revision r)) (take 100
    (order_by (then_by (asc r_updated_at) (asc_le r_desktop_vmid))
       (rows (fun r => r_pending r && ((vmid =? 0) || (r_desktop_vmid r == vmid))) (desktop_computer_revocations s))))).

Definition computer_item_current (item : ComputerRevocationItem) (r : ComputerRevocation) : bool :=
  (r_desktop_vmid r == CRVMID item) && (r_requested_revision r == CRRevision item) &&
  (r_completed_revision r <? CRRevision item).

Definition CompleteComputerRevocation (item : ComputerRevocationItem) : tx DB unit :=
  t ← tgets desktop_computer_revocations;
  tmod (fun s => s <| desktop_computer_revocations :=
    update_where (computer_item_current item)
      (fun r => r <| r_completed_revision := CRRevision item; r_updated_at := now |>) t |>);;
  tfold (fun r => insert_audit now None "agent.computer_authority_revoked" "success" (Some "virtual_machine")
      (Some (itoa (r_desktop_vmid r)))
      (JObj [("revision", JNum (itoa (CRRevision item))); ("vmid", JNum (itoa (r_desktop_vmid r)))]))
    (rows (computer_item_current item) t);;
  ensure (bool_decide (rows_affected (computer_item_current item) t = 1%nat)) ErrConflict.

Definition DeferComputerRevocation (item : ComputerRevocationItem) : tx DB unit :=
  tmod (fun s => s <| desktop_computer_revocations :=
    update_where (computer_item_current item) (fun r => r <| r_updated_at := now |>)
      (desktop_computer_revocations s) |>).
End leases.
