(* ===== verification/StoreAgent.v ===== *)
(** * Agent guest sessions ([internal/store/agent_guest_session.go], [agent_guest_login.go])

    The OS login an agent's lease owns in a Guest: registration before any
    Guest work, binding of the observed UID/SID, reservation of login
    versions, readiness and durable cleanup.  SHA-256 is a parameter. *)
From stdpp Require Import base strings list.
From Stdlib Require Import ZArith Lia.
From S2P Require Import Prelude GoStrings Auth GuestIdentity Db Triggers TriggerLemmas StoreAccess.

Local Open Scope string_scope.
Local Open Scope list_scope.
Local Open Scope Z_scope.


Definition max_int64 : Z := 2 ^ 63 - 1.

Section agent_sessions.
Context `{Sha256} (now : time).

Definition AgentGuestUsername (agentID : string) : string := "vca" +:+ hex_encode (str_take 6 (sha256 agentID)).

Definition guest_live (g : AgentGuestSession) : bool := (s_state g == GProvisioning) || (s_state g == GReady).

(** The lease of a session still authorizes it: active, unexpired, of the
    same epoch, its agent enabled and assigned to this available desktop of
    the same platform. *)
Definition lease_authorizes (s : DB) (g : AgentGuestSession) : bool :=
  exists_where (fun l => (l_id l == s_lease_id g) && (l_control_epoch l == s_control_epoch g) &&
      (l_state l == LActive) && (now <? l_expires_at l) &&
      agent_desktop_access s (l_agent_id l)
        (fun d => (d_vmid d == s_desktop_vmid g) && (d_os_family d == s_os_family g)))
    (desktop_leases s).

(** ** Registration *)
Definition begin_lease (s : DB) (lease : DesktopLease) : option DesktopLease :=
  select_one (fun l => (l_id l == l_id lease) && (l_agent_id l == l_agent_id lease) &&
    (l_control_epoch l == l_control_epoch lease) && (l_state l == LActive) && (now <? l_expires_at l)) (desktop_leases s).

Definition begin_desktop (s : DB) (l : DesktopLease) : option ManagedDesktop :=
  select_one (fun d => by_text (l_desktop_id l) d && ((d_os_family d == "linux") || (d_os_family d == "windows")) &&
    agent_desktop_access s (l_agent_id l) (by_vmid (d_vmid d)) &&
    negb (exists_where (fun c => (c_desktop_vmid c == d_vmid d) && conn_open c) (desktop_connection_sessions s)) &&
    negb (computer_revocation_pending s (d_vmid d)) &&
    negb (exists_where (fun g => (s_desktop_vmid g == d_vmid d) &&
            ((s_state g == GRevoking) || (guest_live g && (s_lease_id g != l_id l)))) (agent_guest_sessions s)))
    (managed_desktops s).

Definition new_guest_session (vmid : Z) (l : DesktopLease) (platform : string) : AgentGuestSession :=
  MkAgentGuestSession vmid (l_agent_id l) (AgentGuestUsername (l_agent_id l)) platform (l_id l) (l_control_epoch l)
    1 0 GProvisioning 0 "" "" "" (l_expires_at l) now.

(** [INSERT ... ON CONFLICT(desktop_vmid,agent_id) DO UPDATE ... WHERE
    state='disabled' AND os_family=excluded.os_family RETURNING] *)
Definition upsert_guest_session (row : AgentGuestSession) : tx DB AgentGuestSession :=
  s ← tget;
  let same g := (s_desktop_vmid g == s_desktop_vmid row) && (s_agent_id g == s_agent_id row) in
  if exists_where same (agent_guest_sessions s) then
    protect_cross_subject_agent row;;
    check (agent_guest_checks row);;
    l ← update_agent_guest_sessions (fun g => same g && (s_state g == GDisabled) && (s_os_family g == s_os_family row))
          (fun g => g <| s_lease_id := s_lease_id row; s_control_epoch := s_control_epoch row;
                         s_generation := s_generation g + 1; s_login_generation := 0; s_state := GProvisioning;
                         s_session_id := ""; s_instance_id := "" |>
                      <| s_expires_at := s_expires_at row; s_updated_at := now |>);
    trow (head l) ErrNotFound
  else insert_agent_guest_session row.

Definition BeginAgentGuestSession (lease : DesktopLease) : tx DB AgentGuestSession :=
  s ← tget;
  l ← trow (begin_lease s lease) ErrConflict;
  d ← trow (begin_desktop s l) ErrConflict;
  let item := select_one (fun g => (s_desktop_vmid g == d_vmid d) && (s_agent_id g == l_agent_id lease))
                (agent_guest_sessions s) in
  match item with
  | Some g =>
      ensure (s_os_family g == d_os_family d) ErrConflict;;
      if (s_lease_id g == l_id lease) && (s_control_epoch g == l_control_epoch lease) && guest_live g then mret g
      else upsert_guest_session (new_guest_session (d_vmid d) l (d_os_family d))
  | None => upsert_guest_session (new_guest_session (d_vmid d) l (d_os_family d))
  end.

(** The row an item names, at its exact lease, generation, login and
    immutable subject. *)
Definition same_attempt (item g : AgentGuestSession) : bool :=
  (s_desktop_vmid g == s_desktop_vmid item) && (s_agent_id g == s_agent_id item) &&
  (s_lease_id g == s_lease_id item) && (s_generation g == s_generation item) &&
  (s_login_generation g == s_login_generation item) && (s_control_epoch g == s_control_epoch item).

Definition same_subject (item g : AgentGuestSession) : bool :=
  (s_os_family g == s_os_family item) && (s_guest_username g == s_guest_username item).

Definition same_account (item g : AgentGuestSession) : bool :=
  (s_guest_uid g == s_guest_uid item) && (s_guest_sid g == s_guest_sid item).

Definition one_row (l : list AgentGuestSession) : tx DB AgentGuestSession :=
  match l with [g] => mret g | _ => tfail ErrConflict end.

Definition MarkAgentGuestSessionReady (item : AgentGuestSession) : tx DB unit :=
  ensure (negb ((s_login_generation item <? 1) || (s_guest_username item != AgentGuestUsername (s_agent_id item)) ||
            negb (ValidSession (s_os_family item) (s_guest_username item) (s_guest_uid item) (s_guest_sid item)
                    (s_session_id item) (s_instance_id item)))) ErrConflict;;
  s ← tget;
  l ← update_agent_guest_sessions
        (fun g => same_attempt item g && same_subject item g && same_account item g && guest_live g &&
                  lease_authorizes s g)
        (fun g => g <| s_state := GReady; s_guest_uid := s_guest_uid item; s_session_id := s_session_id item;
                       s_instance_id := s_instance_id item; s_guest_sid := s_guest_sid item; s_updated_at := now |>);
  one_row l;;
  mret tt.

(** ** Identity binding and login reservation *)
Definition bindAgentGuestAccount (item : AgentGuestSession) (revoking : bool) : tx DB unit :=
  ensure (negb ((s_guest_username item != AgentGuestUsername (s_agent_id item)) ||
            negb (ValidAccount (s_os_family item) (s_guest_uid item) (s_guest_sid item)))) ErrConflict;;
  s ← tget;
  l ← update_agent_guest_sessions
        (fun g => same_attempt item g && same_subject item g &&
           (((s_guest_uid g =? 0) && (s_guest_sid g == "")) || same_account item g) &&
           ((revoking && (s_state g == GRevoking)) || (negb revoking && guest_live g && lease_authorizes s g)))
        (fun g => g <| s_guest_uid := s_guest_uid item; s_guest_sid := s_guest_sid item; s_updated_at := now |>);
  one_row l;;
  mret tt.

Definition BindAgentGuestAccount (item : AgentGuestSession) := bindAgentGuestAccount item false.
Definition BindRevokingAgentGuestAccount (item : AgentGuestSession) := bindAgentGuestAccount item true.

Definition BeginAgentGuestLogin (item : AgentGuestSession) : tx DB AgentGuestSession :=
  ensure (negb ((s_login_generation item <? 0) || (s_login_generation item =? max_int64) ||
            (s_guest_username item != AgentGuestUsername (s_agent_id item)) ||
            negb (ValidAccount (s_os_family item) (s_guest_uid item) (s_guest_sid item)))) ErrConflict;;
  s ← tget;
  l ← update_agent_guest_sessions
        (fun g => same_attempt item g && same_subject item g && same_account item g && guest_live g &&
                  lease_authorizes s g)
        (fun g => g <| s_login_generation := s_login_generation g + 1; s_state := GProvisioning; s_session_id := "";
                       s_instance_id := ""; s_updated_at := now |>);
  trow (head l) ErrConflict.

(** ** Cleanup *)
Definition QueueAgentGuestSessionRevocation (item : AgentGuestSession) : tx DB unit :=
  s ← tget;
  update_desktop_leases now
    (fun l => (l_id l == s_lease_id item) && (l_state l == LActive) &&
       exists_where (fun g => same_attempt item g && guest_live g) (agent_guest_sessions s))
    (fun l => l <| l_state := LRevoked; l_updated_at := now |>);;
  mret tt.

Definition CompleteAgentGuestSessionRevocation (item : AgentGuestSession) : tx DB unit :=
  l ← update_agent_guest_sessions (fun g => same_attempt item g && same_account item g && (s_state g == GRevoking))
        (fun g => g <| s_state := GDisabled; s_session_id := ""; s_instance_id := ""; s_updated_at := now |>);
  tfold (fun g => insert_audit now None "agent.guest_session_revoked" "success" (Some "virtual_machine")
      (Some (itoa (s_desktop_vmid g)))
      (JObj [("agent_id", JStr (s_agent_id g)); ("generation", JNum (itoa (s_generation g)));
             ("lease_id", JStr (s_lease_id g)); ("login_generation", JNum (itoa (s_login_generation g)))])) l;;
  one_row l;;
  mret tt.

Definition AgentGuestSessions `{Collation} (vmid : Z) : tx DB (list AgentGuestSession) :=
  tgets (fun s => order_by (then_by (asc s_desktop_vmid) (fun a b => text_le (s_agent_id a) (s_agent_id b)))
    (rows (fun g => (vmid =? 0) || (s_desktop_vmid g == vmid)) (agent_guest_sessions s))).
End agent_sessions.
