(* ===== verification/StoreLeaseProofs.v ===== *)
(** * Control epochs fence leases

    The per-VM epoch only grows, the active lease of a desktop holds the
    current epoch, and the revocation queue never fences a newer lease. *)
From stdpp Require Import base strings list.
From Stdlib Require Import ZArith Lia Ascii.
From S2P Require Import Prelude GoStrings Db Demo Triggers TriggerLemmas StoreAccess StoreLease.

Local Open Scope string_scope.
Local Open Scope list_scope.
Local Open Scope Z_scope.

(** ** The epoch ledger *)
Definition next_epoch (s : DB) (v : Z) : Z := match current_epoch s v with Some e => e + 1 | None => 1 end.

Lemma select_upsert {R} (p q : R -> bool) f new t :
  (forall r, q (f r) = q r) -> q new = p new -> (forall r, q r = true -> p r = true) -> p new = true ->
  (forall r, p r = true -> q r = true) ->
  select_one q (upsert p f new t) = Some (match select_one q t with Some r => f r | None => new end).
Proof.
  intros Hqf Hqn Hqp Hpn Hpq. unfold upsert, select_one.
  assert (forall t, List.find q (update_where p f t) = match List.find q t with Some r => Some (f r) | None => None end) as HU.
  { clear t. induction t as [| r t IH]; simpl; [done |]. destruct (p r) eqn:Ep.
    - rewrite Hqf, (Hpq _ Ep). done.
    - destruct (q r) eqn:Eq; [apply Hqp in Eq; congruence | apply IH]. }
  destruct (exists_where p t) eqn:E.
  - rewrite HU. destruct (List.find q t) eqn:Ef; [done |]. apply exists_where_true in E as (r & Hr & Hp).
    apply Hpq in Hp. by rewrite (find_none _ _ Ef _ Hr) in Hp.
  - assert (List.find q t = None) as ->.
    { apply select_one_none, exists_where_false. intros r Hr. apply not_true_iff_false. intros Hq.
      apply (proj1 (exists_where_false p t)) with (r := r) in E; [| done]. by rewrite (Hqp _ Hq) in E. }
    clear HU. induction t as [| r t IH]; simpl; [by rewrite Hqn, Hpn |].
    simpl in E. apply orb_false_iff in E as [E1 E2]. destruct (q r) eqn:Eq; [apply Hqp in Eq; congruence | auto].
Qed.

Lemma select_upsert_other {R} (p q : R -> bool) f new t :
  (forall r, p r = true -> q r = false) -> (forall r, p r = true -> q (f r) = false) -> q new = false ->
  select_one q (upsert p f new t) = select_one q t.
Proof.
  intros Hpq Hpf Hqn. unfold upsert, select_one. destruct (exists_where p t).
  - induction t as [| r t IH]; simpl; [done |]. destruct (p r) eqn:Ep; [by rewrite (Hpf _ Ep), (Hpq _ Ep) |].
    destruct (q r); auto.
  - induction t as [| r t IH]; simpl; [by rewrite Hqn |]. destruct (q r); auto.
Qed.

Lemma current_epoch_advance now v s e s' v' :
  advance_epoch now v s = inr (e, s') ->
  e = next_epoch s v /\ current_epoch s' v' = if decide (v' = v) then Some (next_epoch s v) else current_epoch s v'.
Proof.
  intros H. apply advance_epoch_inr in H as [-> ->]. split; [done |]. unfold current_epoch at 1, next_epoch. simpl.
  destruct (decide (v' = v)) as [-> | Hne].
  - rewrite select_upsert; try done.
    + unfold current_epoch. destruct (select_one _ _); done.
    + simpl. by rewrite bool_decide_true.
  - rewrite select_upsert_other; [done | | |]; intros; b2p; subst; simpl; b2p; congruence.
Qed.

(** ** One UPDATE that closes leases *)
Lemma itoa_pos_inj a b : 0 < a -> 0 < b -> itoa a = itoa b -> a = b.
Proof. intros. apply itoa_inj; [lia | lia | done]. Qed.

Section closing.
Context (now : time) (p : DesktopLease -> bool) (f : DesktopLease -> DesktopLease).
Context (Hact : forall l, p l = true -> l_state l = LActive)
        (Hf : forall l, l_state (f l) <> LActive /\ l_id (f l) = l_id l /\ l_expires_at (f l) = l_expires_at l).

Definition pos_desktops (s : DB) : Prop := forall d, In d (managed_desktops s) -> 0 < d_vmid d.

Lemma before_close_inr r s r' s' :
  p r = true -> before_update_lease now r (f r) s = inr (r', s') ->
  exists d, In d (managed_desktops s) /\ itoa (d_vmid d) = l_desktop_id r /\
    r' = (f r) <| l_control_epoch := next_epoch s (d_vmid d) |> /\
    l_desktop_id (f r) = l_desktop_id r /\ l_agent_id (f r) = l_agent_id r /\
    advance_epoch now (d_vmid d) s = inr (next_epoch s (d_vmid d), s').
Proof.
  intros Hp H. apply before_update_lease_inr in H as [_ H]. specialize (Hf r) as (Hs & _).
  apply assign_epoch_inr in H as [(o & [= <-] & _ & _ & E & _) | (d & e & Hd & Ht & He & -> & Ho)].
  - apply Hact in Hp. congruence.
  - destruct (Ho _ eq_refl) as (E1 & E2 & _). exists d.
    destruct (current_epoch_advance _ _ _ _ _ (d_vmid d) He) as [-> _]. rewrite <- E1. split_and!; done.
Qed.

(** The rows of one pass, given that no two of them close the same desktop. *)
Lemma close_pass t s t' s' :
  pos_desktops s ->
  unique_index (fun l => if l_state l == LActive then Some (l_desktop_id l) else None) t = true ->
  update_each p (fun old => before_update_lease now old (f old)) t s = inr (t', s') ->
  lease_frame s s' /\ agent_guest_sessions s' = agent_guest_sessions s /\
  desktop_computer_revocations s' = desktop_computer_revocations s /\
  Forall2 (fun r r' => if p r then exists d, In d (managed_desktops s) /\ itoa (d_vmid d) = l_desktop_id r /\
      r' = (f r) <| l_control_epoch := next_epoch s (d_vmid d) |> /\
      l_desktop_id (f r) = l_desktop_id r /\ l_agent_id (f r) = l_agent_id r else r' = r) t t' /\
  forall v, 0 < v -> current_epoch s' v =
    if existsb (fun r => p r && (l_desktop_id r == itoa v)) t then Some (next_epoch s v) else current_epoch s v.
Proof.
  revert s t' s'. induction t as [| r t IH]; simpl; intros s t' s' Hpos HU H; inv_tx.
  { split_and!; done. }
  assert (unique_index (fun l => if l_state l == LActive then Some (l_desktop_id l) else None) t = true) as HU'.
  { destruct (l_state r == LActive); [apply andb_true_iff in HU as [_ ?] |]; done. }
  destruct (p r) eqn:Ep; inv_tx; rename select (update_each _ _ _ _ = _) into Hrest.
  - rename select (before_update_lease _ _ _ _ = _) into Hb.
    apply before_close_inr in Hb as (d & Hd & Ht & -> & Hdid & Haid & He); [| done].
    pose proof (advance_epoch_frame _ _ _ _ _ He) as Hfr.
    pose proof (lease_frame_get managed_desktops _ _ (fun _ => eq_refl) Hfr) as HD.
    pose proof (advance_epoch_inr _ _ _ _ _ He) as [_ Hs1].
    assert (forall r0, In r0 t -> p r0 = true -> l_desktop_id r0 <> l_desktop_id r) as Hno.
    { intros r0 Hr0 Hp0 E. apply Hact in Ep, Hp0. rewrite Ep, bool_decide_true in HU by done.
      apply andb_true_iff in HU as [HU _]. apply negb_true_iff in HU. rewrite exists_where_false in HU.
      specialize (HU _ Hr0). rewrite Hp0, E in HU. b2p. done. }
    apply IH in Hrest as (Hfr' & Hag & Hrv & HF & He'); [| unfold pos_desktops; by rewrite HD | done].
    split_and!.
    + by eapply lease_frame_trans.
    + rewrite Hag, Hs1. done.
    + rewrite Hrv, Hs1. done.
    + constructor; [rewrite Ep; eauto 10 |]. apply (Forall2_impl_in _ _ _ _ HF). intros a b Ha. rewrite HD.
      destruct (p a) eqn:Ea; [| done]. intros (d' & Hd' & Ht' & -> & ?). exists d'. split_and!; try tauto.
      unfold next_epoch. destruct (current_epoch_advance _ _ _ _ _ (d_vmid d') He) as [_ ->].
      destruct (decide (d_vmid d' = d_vmid d)) as [E |]; [| done].
      destruct (Hno _ Ha Ea). congruence.
    + intros v Hv. rewrite (He' _ Hv). unfold next_epoch at 1.
      destruct (current_epoch_advance _ _ _ _ _ v He) as [_ Hcur]. rewrite Hcur.
      destruct (decide (v = d_vmid d)) as [-> | Hne].
      * rewrite <- Ht, bool_decide_true by done. simpl.
        destruct (existsb _ t) eqn:Ex; [| done]. apply existsb_exists in Ex as (r0 & Hr0 & Ex). b2p.
        destruct (Hno _ Hr0 (proj1 Ex)). destruct Ex. congruence.
      * rewrite bool_decide_false; [done |]. rewrite <- Ht. intros E. apply itoa_pos_inj in E; auto.
  - apply IH in Hrest as (Hfr' & Hag & Hrv & HF & He'); [| done | done]. split_and!; try done.
    constructor; [by rewrite Ep | done].
Qed.
End closing.

(** ** The invariant *)
Definition rev_ok (s : DB) (r : ComputerRevocation) : Prop :=
  0 < r_desktop_vmid r /\
  0 <= r_completed_revision r <= r_requested_revision r /\
  exists e, current_epoch s (r_desktop_vmid r) = Some e /\ 0 < r_control_epoch r <= e /\
    forall l, In l (desktop_leases s) -> l_state l = LActive -> l_desktop_id l = itoa (r_desktop_vmid r) ->
      r_control_epoch r < l_control_epoch l.

Definition lease_ok (s : DB) (l : DesktopLease) : Prop :=
  exists d e, In d (managed_desktops s) /\ itoa (d_vmid d) = l_desktop_id l /\
    current_epoch s (d_vmid d) = Some e /\ 0 < l_control_epoch l <= e /\
    (l_state l = LActive -> l_control_epoch l = e).

Record lease_inv (s : DB) : Prop := {
  li_pos : pos_desktops s;
  li_epoch : forall v e, 0 < v -> current_epoch s v = Some e -> 0 < e;
  li_index : lease_indexes (desktop_leases s) = true;
  li_leases : forall l, In l (desktop_leases s) -> lease_ok s l;
  li_queue : forall r, In r (desktop_computer_revocations s) -> rev_ok s r
}.

(** A revocation of VM [v] is pending and fences at least epoch [e]. *)
Definition fenced (v e : Z) (R : list ComputerRevocation) : bool :=
  exists_where (fun r => (r_desktop_vmid r == v) && r_pending r && (e <=? r_control_epoch r)) R.

Definition requeue (now : time) (v e : Z) (R : list ComputerRevocation) : list ComputerRevocation :=
  upsert (fun r => r_desktop_vmid r == v)
    (fun r => r <| r_requested_revision := r_requested_revision r + 1;
                   r_control_epoch := Z.max (r_control_epoch r) e; r_updated_at := now |>)
    (MkComputerRevocation v 1 0 e now) R.

Section requeue_lemmas.
Context (now : time).

Definition queue_ok (R : list ComputerRevocation) : Prop :=
  forall r, In r R -> 0 <= r_completed_revision r <= r_requested_revision r.

Lemma requeue_ok v e R : queue_ok R -> queue_ok (requeue now v e R).
Proof.
  intros HR r Hr. apply in_upsert in Hr as [[Hr _] | [(q & Hq & _ & ->) | [-> _]]]; simpl; [auto | | lia].
  specialize (HR _ Hq). lia.
Qed.

Lemma requeue_fenced v e R : queue_ok R -> fenced v e (requeue now v e R) = true.
Proof.
  intros HR. unfold fenced, requeue, upsert. destruct (exists_where _ R) eqn:E.
  - rewrite exists_where_update. apply exists_where_true in E as (r & Hr & Hv). apply exists_where_true.
    exists r. split; [done |]. rewrite Hv. specialize (HR _ Hr). unfold r_pending. simpl.
    rewrite Hv. simpl. apply andb_true_iff. split; [apply Z.ltb_lt | apply Z.leb_le]; lia.
  - rewrite exists_where_app. simpl. rewrite bool_decide_true by done. unfold r_pending. simpl.
    rewrite Z.leb_refl. by rewrite orb_true_r.
Qed.

Lemma requeue_keeps v e v' e' R : fenced v' e' R = true -> fenced v' e' (requeue now v e R) = true.
Proof.
  unfold fenced, requeue, upsert. destruct (exists_where (fun r => r_desktop_vmid r == v) R).
  - rewrite exists_where_update, !exists_where_true. intros (r & Hr & Hp). exists r. split; [done |].
    destruct (r_desktop_vmid r == v); [| done]. unfold r_pending in *. simpl. b2p. split_and!; [tauto | lia | lia].
  - rewrite exists_where_app. by intros ->.
Qed.
End requeue_lemmas.

(** What the AFTER triggers of one closed lease leave behind. *)
Section after.
Context (now : time).

(** The closed lease [o] of epoch [e] is fenced and its guest sessions end. *)
Definition closed_out (o n : DesktopLease) (s : DB) : Prop :=
  (forall d, In d (managed_desktops s) -> itoa (d_vmid d) = l_desktop_id o ->
     fenced (d_vmid d) (l_control_epoch n) (desktop_computer_revocations s) = true) /\
  (forall g, In g (agent_guest_sessions s) -> s_lease_id g = l_id o -> s_state g <> GProvisioning /\ s_state g <> GReady).

Definition after_frame (s s' : DB) : Prop :=
  lease_frame s s' /\ desktop_leases s' = desktop_leases s /\ desktop_computer_epochs s' = desktop_computer_epochs s.

Lemma after_frame_trans a b c : after_frame a b -> after_frame b c -> after_frame a c.
Proof. intros (? & ? & ?) (? & ? & ?). split; [by eapply lease_frame_trans |]. split; congruence. Qed.

Lemma queue_step o n s u s' :
  lease_closed o n = true -> queue_desktop_computer_revocation now o n s = inr (u, s') ->
  s' = s <| desktop_computer_revocations :=
    fold_left (fun R d => requeue now (d_vmid d) (l_control_epoch n) R)
      (rows (by_text (l_desktop_id o)) (managed_desktops s)) (desktop_computer_revocations s) |>.
Proof.
  unfold queue_desktop_computer_revocation, mbind, tx_bind, tget. intros ->. rewrite tfold_tmod. intros [= <- <-].
  generalize (rows (by_text (l_desktop_id o)) (managed_desktops s)). intros L.
  assert (forall R, fold_left (fun x (d : ManagedDesktop) => x <| desktop_computer_revocations :=
      requeue now (d_vmid d) (l_control_epoch n) (desktop_computer_revocations x) |>) L
      (s <| desktop_computer_revocations := R |>) =
    s <| desktop_computer_revocations :=
      fold_left (fun R d => requeue now (d_vmid d) (l_control_epoch n) R) L R |>) as Hgen.
  { induction L as [| d L IH]; intros R; simpl; [done | apply (IH (requeue now (d_vmid d) (l_control_epoch n) R))]. }
  transitivity (fold_left (fun x (d : ManagedDesktop) => x <| desktop_computer_revocations :=
      requeue now (d_vmid d) (l_control_epoch n) (desktop_computer_revocations x) |>) L
      (s <| desktop_computer_revocations := desktop_computer_revocations s |>)); [| apply Hgen].
  f_equal. by destruct s.
Qed.

Lemma requeue_fold_ok e L R : queue_ok R -> queue_ok (fold_left (fun R d => requeue now (d_vmid d) e R) L R).
Proof. revert R. induction L as [| d L IH]; simpl; intros R HR; [done | by apply IH, requeue_ok]. Qed.

Lemma requeue_fold_keeps e L R v' e' : fenced v' e' R = true ->
  fenced v' e' (fold_left (fun R (d : ManagedDesktop) => requeue now (d_vmid d) e R) L R) = true.
Proof. revert R. induction L as [| d L IH]; simpl; intros R HR; [done | by apply IH, requeue_keeps]. Qed.

Lemma requeue_fold_fenced e L R d : queue_ok R -> In d L ->
  fenced (d_vmid d) e (fold_left (fun R d => requeue now (d_vmid d) e R) L R) = true.
Proof.
  revert R. induction L as [| d' L IH]; simpl; intros R HR; [done |].
  intros [-> | Hin]; [by apply requeue_fold_keeps, requeue_fenced | apply IH; [by apply requeue_ok | done]].
Qed.

(** Entries of the queue after a fold come from the old queue, raised to at
    most [max], or are new. *)
Lemma requeue_fold_in e L R r : In r (fold_left (fun R d => requeue now (d_vmid d) e R) L R) ->
  (exists r0, In r0 R /\ r_desktop_vmid r = r_desktop_vmid r0 /\
     (r_control_epoch r = r_control_epoch r0 \/
      (r_control_epoch r = Z.max (r_control_epoch r0) e /\ exists d, In d L /\ d_vmid d = r_desktop_vmid r))) \/
  (r_control_epoch r = e /\ exists d, In d L /\ d_vmid d = r_desktop_vmid r).
Proof.
  revert R. induction L as [| d L IH]; simpl; intros R Hr; [left; eauto |].
  apply IH in Hr as [(r0 & Hr0 & Ev & He) | (He & d' & ? & ?)]; [| right; eauto].
  apply in_upsert in Hr0 as [[Hr0 _] | [(q & Hq & Hv & ->) | [-> _]]]; simpl in *.
  - left. exists r0. split_and!; try done. destruct He as [| (? & d' & ? & ?)]; eauto 7.
  - b2p. left. exists q. split_and!; [done | congruence |]. right.
    destruct He as [He | (He & d' & ? & ?)]; (split; [lia |]); eauto. exists d. split; [auto | congruence].
  - right. destruct He as [He | (He & d' & ? & ?)]; (split; [lia |]); eauto.
Qed.
End after.

Section after_fold.
Context (now : time).

Definition live (g : AgentGuestSession) : Prop := s_state g = GProvisioning \/ s_state g = GReady.

Lemma revoke_step o n s u s' :
  lease_closed o n = true -> revoke_agent_guest_session now o n s = inr (u, s') ->
  desktop_computer_revocations s' = desktop_computer_revocations s /\
  forall g, In g (agent_guest_sessions s') -> live g ->
    In g (agent_guest_sessions s) /\ s_lease_id g <> l_id o.
Proof.
  unfold revoke_agent_guest_session. intros -> H. inv_tx.
  match goal with H : update_agent_guest_sessions _ _ _ = _ |- _ => apply update_agent_guest_inr in H as (-> & _) end.
  split; [done |]. intros g Hg Hl. simpl in Hg. apply in_update_where in Hg as (g0 & Hg0 & E).
  destruct (_ && _) eqn:Ep; subst g; [by destruct Hl |]. split; [done |]. intros El. rewrite El in Ep.
  b2p. destruct Ep as [| Ep]; [done |]. destruct Hl; tauto.
Qed.

(** One closed pair: the frame, the queue and the fencing of this lease. *)
Definition pair_ok (s : DB) (o n : DesktopLease) : Prop :=
  lease_closed o n = true /\ 0 < l_control_epoch n /\
  (forall l, In l (desktop_leases s) -> l_state l = LActive -> l_desktop_id l <> l_desktop_id o) /\
  forall d, In d (managed_desktops s) -> itoa (d_vmid d) = l_desktop_id o ->
    0 < d_vmid d /\ current_epoch s (d_vmid d) = Some (l_control_epoch n).

Lemma after_step o n s u s' :
  pair_ok s o n -> (forall r, In r (desktop_computer_revocations s) -> rev_ok s r) ->
  after_update_lease now (o, n) s = inr (u, s') ->
  after_frame s s' /\ (forall r, In r (desktop_computer_revocations s') -> rev_ok s' r) /\ closed_out o n s' /\
  (forall g, In g (agent_guest_sessions s') -> live g -> In g (agent_guest_sessions s)) /\
  (forall v e, fenced v e (desktop_computer_revocations s) = true ->
     fenced v e (desktop_computer_revocations s') = true).
Proof.
  intros (Hc & Hpos & Hno & Hd) HR H. pose proof (after_update_lease_frame _ _ _ _ _ H) as Hfr.
  unfold after_update_lease in H. simpl in H. inv_tx.
  rename select (revoke_agent_guest_session _ _ _ _ = _) into Hr.
  rename select (queue_desktop_computer_revocation _ _ _ _ = _) into Hq.
  pose proof (revoke_agent_guest_frame _ _ _ _ _ _ Hr) as (Hf1 & Hl1 & He1 & _).
  apply revoke_step in Hr as [ER Hg]; [| done]. apply queue_step in Hq as ->; [| done]. simpl.
  pose proof (lease_frame_get managed_desktops _ _ (fun _ => eq_refl) Hf1) as HD. rewrite HD, ER.
  assert (queue_ok (desktop_computer_revocations s)) as HQ by (intros r Hr; by apply HR).
  split_and!; [done | | | intros g Hin Hl; by apply Hg | intros; by apply requeue_fold_keeps].
  - intros r Hr. pose proof (requeue_fold_ok now _ _ _ HQ _ Hr) as Hb.
    unfold rev_ok, current_epoch. simpl. rewrite Hl1, He1.
    apply requeue_fold_in in Hr as [(r0 & Hr0 & Ev & He) | (He & d & Hin & Ev)].
    + destruct (HR _ Hr0) as (Hp0 & _ & e & Ee & Hbe & Hlt). rewrite Ev. split_and!; [done | lia | lia |].
      exists e. split; [done |].
      destruct He as [-> | (-> & d & Hin & Ed)]; [done |]. apply filter_In in Hin as [Hin Ht]. unfold by_text in Ht.
      b2p. pose proof (Hd _ Hin Ht) as [_ E]. rewrite Ed, Ev in E. unfold current_epoch in Ee, E. rewrite Ee in E.
      injection E as ->. split; [lia |]. intros l Hl Ha Hdl. destruct (Hno _ Hl Ha). rewrite <- Ht, Ed, Ev. done.
    + apply filter_In in Hin as [Hin Ht]. unfold by_text in Ht. b2p. pose proof (Hd _ Hin Ht) as [Hp0 E].
      rewrite Ev in Hp0, E. split_and!; [done | lia | lia |]. exists (l_control_epoch n). split; [exact E |].
      split; [lia |]. intros l Hl Ha Hdl. destruct (Hno _ Hl Ha). rewrite <- Ht, Ev. done.
  - split; simpl.
    + intros d Hin Ht. rewrite HD in Hin. apply requeue_fold_fenced; [done |]. apply filter_In. split; [done |].
      unfold by_text. by rewrite bool_decide_true.
    + intros g Hin El. assert (~ live g) as Hn by (intros Hl; by destruct (Hg _ Hin Hl)). unfold live in Hn. tauto.
Qed.

Lemma pair_ok_frame s s' o n : after_frame s s' -> pair_ok s o n -> pair_ok s' o n.
Proof.
  intros (Hf & Hl & He) (? & ? & Hno & Hd). unfold pair_ok, current_epoch. rewrite Hl, He.
  rewrite (lease_frame_get managed_desktops _ _ (fun _ => eq_refl) Hf). done.
Qed.

Lemma closed_out_frame s s' o n : after_frame s s' ->
  (forall g, In g (agent_guest_sessions s') -> live g -> In g (agent_guest_sessions s)) ->
  (forall v e, fenced v e (desktop_computer_revocations s) = true -> fenced v e (desktop_computer_revocations s') = true) ->
  closed_out o n s -> closed_out o n s'.
Proof.
  intros (Hf & _) Hg Hq [Hd Hs]. split.
  - intros d. rewrite (lease_frame_get managed_desktops _ _ (fun _ => eq_refl) Hf). auto.
  - intros g Hin El. assert (~ live g) as Hn.
    { intros Hl. destruct (Hs g (Hg _ Hin Hl) El). by destruct Hl. }
    unfold live in Hn. tauto.
Qed.

Lemma after_fold L s u s' :
  (forall o n, In (o, n) L -> pair_ok s o n) -> (forall r, In r (desktop_computer_revocations s) -> rev_ok s r) ->
  tfold (after_update_lease now) L s = inr (u, s') ->
  after_frame s s' /\ (forall r, In r (desktop_computer_revocations s') -> rev_ok s' r) /\
  (forall o n, In (o, n) L -> closed_out o n s') /\
  (forall g, In g (agent_guest_sessions s') -> live g -> In g (agent_guest_sessions s)) /\
  (forall v e, fenced v e (desktop_computer_revocations s) = true -> fenced v e (desktop_computer_revocations s') = true).
Proof.
  revert s. induction L as [| [o n] L IH]; simpl; intros s HL HR H; inv_tx.
  { split_and!; (done || naive_solver). }
  rename select (after_update_lease _ _ _ = _) into H1. rename select (tfold _ _ _ = _) into H2.
  apply after_step in H1 as (Hf1 & HR1 & Hc1 & Hg1 & Hq1); [| by apply HL; left | done].
  apply IH in H2 as (Hf2 & HR2 & Hc2 & Hg2 & Hq2);
    [| intros o' n' Hin; eapply pair_ok_frame; [exact Hf1 |]; apply HL; by right | done].
  split_and!; eauto using after_frame_trans. intros o' n' [[= <- <-] | Hin]; [| auto].
  by eapply closed_out_frame.
Qed.
End after_fold.

(** ** Closing leases *)
Definition epochs_grow (s s' : DB) : Prop :=
  forall v e, 0 < v -> current_epoch s v = Some e -> exists e', current_epoch s' v = Some e' /\ e <= e'.

Lemma epochs_grow_refl s : epochs_grow s s.
Proof. intros v e _ E. exists e. split; [done | lia]. Qed.

Lemma epochs_grow_trans a b c : epochs_grow a b -> epochs_grow b c -> epochs_grow a c.
Proof.
  intros H1 H2 v e Hv E. destruct (H1 _ _ Hv E) as (e1 & E1 & ?). destruct (H2 _ _ Hv E1) as (e2 & E2 & ?). exists e2. split; [done | lia].
Qed.

Section close.
Context (now : time) (p : DesktopLease -> bool) (f : DesktopLease -> DesktopLease).
Context (Hact : forall l, p l = true -> l_state l = LActive)
        (Hf : forall l, l_state (f l) <> LActive /\ l_id (f l) = l_id l /\ l_expires_at (f l) = l_expires_at l).

(** The relation between the lease table before and after. *)
Definition closed_row (s : DB) (r r' : DesktopLease) : Prop :=
  if p r then exists d, In d (managed_desktops s) /\ itoa (d_vmid d) = l_desktop_id r /\
      r' = (f r) <| l_control_epoch := next_epoch s (d_vmid d) |> /\
      l_desktop_id (f r) = l_desktop_id r /\ l_agent_id (f r) = l_agent_id r
  else r' = r.

Lemma active_unique s l1 l2 : lease_inv s -> In l1 (desktop_leases s) -> In l2 (desktop_leases s) ->
  l_state l1 = LActive -> l_state l2 = LActive -> l_desktop_id l1 = l_desktop_id l2 -> l1 = l2.
Proof.
  intros HI H1 H2 A1 A2 E. pose proof (li_index _ HI) as HX. unfold lease_indexes in HX.
  apply andb_true_iff in HX as [_ HX].
  eapply (unique_index_inj _ _ l1 l2 (l_desktop_id l1)) in HX; eauto; simpl; rewrite bool_decide_true by done; congruence.
Qed.

Lemma closed_active s t' r' : Forall2 (closed_row s) (desktop_leases s) t' -> In r' t' -> l_state r' = LActive ->
  In r' (desktop_leases s) /\ p r' = false.
Proof.
  intros HF Hin Ha. eapply Forall2_in_r in Hin as (r & Hr & Hrel); [| exact HF]. unfold closed_row in Hrel.
  destruct (p r) eqn:Ep; [| by subst]. destruct Hrel as (d & _ & _ & -> & _). by destruct (Hf r).
Qed.

(** [s2]: the rows are rewritten and the epochs advanced, the AFTER triggers
    have not run yet. *)
Section mid.
Context (s s2 : DB) (HI : lease_inv s)
  (HF : Forall2 (closed_row s) (desktop_leases s) (desktop_leases s2))
  (HD : managed_desktops s2 = managed_desktops s)
  (HR : desktop_computer_revocations s2 = desktop_computer_revocations s)
  (Hidx : lease_indexes (desktop_leases s2) = true)
  (Hep : forall v, 0 < v -> current_epoch s2 v =
     if existsb (fun r => p r && (l_desktop_id r == itoa v)) (desktop_leases s)
     then Some (next_epoch s v) else current_epoch s v).

Lemma mid_no_active r l : In r (desktop_leases s) -> p r = true ->
  In l (desktop_leases s2) -> l_state l = LActive -> l_desktop_id l <> l_desktop_id r.
Proof.
  intros Hr Hp Hl Hla E. destruct (closed_active _ _ _ HF Hl Hla) as [Hl' Hpl].
  assert (l = r) as -> by (eapply (active_unique s); eauto). congruence.
Qed.

Lemma mid_grow : epochs_grow s s2.
Proof.
  intros v e Hv E. rewrite (Hep _ Hv). destruct (existsb _ _); [| exists e; split; [done | lia]].
  unfold next_epoch. rewrite E. eexists. split; [done | lia].
Qed.

Lemma next_epoch_pos v : 0 < v -> 0 < next_epoch s v.
Proof.
  intros Hv. unfold next_epoch. destruct (current_epoch s v) as [e |] eqn:E; [| lia].
  pose proof (li_epoch _ HI _ _ Hv E). lia.
Qed.

Lemma mid_epoch_pos v e : 0 < v -> current_epoch s2 v = Some e -> 0 < e.
Proof.
  intros Hv. rewrite (Hep _ Hv). destruct (existsb _ _).
  - intros [= <-]. by apply next_epoch_pos.
  - by apply HI.
Qed.

Lemma mid_epoch r d : In r (desktop_leases s) -> p r = true -> In d (managed_desktops s) ->
  itoa (d_vmid d) = l_desktop_id r ->
  exists e, current_epoch s (d_vmid d) = Some e /\ l_control_epoch r = e /\ 0 < e /\
    next_epoch s (d_vmid d) = e + 1 /\ current_epoch s2 (d_vmid d) = Some (e + 1).
Proof.
  intros Hr Hp Hd Ht. pose proof (li_pos _ HI _ Hd) as Hpos.
  destruct (li_leases _ HI _ Hr) as (d' & e & Hd' & Ht' & Ee & He & Heq). specialize (Heq (Hact _ Hp)).
  assert (d_vmid d' = d_vmid d) as E by (apply itoa_pos_inj; [by apply HI | done | congruence]).
  rewrite E in Ee. exists e. unfold next_epoch. rewrite Hep, Ee by done. split_and!; try (done || lia).
  replace (existsb _ _) with true; [by unfold next_epoch; rewrite Ee |]. symmetry. apply existsb_exists.
  exists r. split; [done |]. rewrite Hp, Ht. by apply bool_decide_true.
Qed.

Lemma mid_pair r r' : In r (desktop_leases s) -> p r = true -> closed_row s r r' -> pair_ok s2 r r'.
Proof.
  intros Hr Hp Hrel. unfold closed_row in Hrel. rewrite Hp in Hrel. destruct Hrel as (d & Hd & Ht & -> & _).
  destruct (mid_epoch r d) as (e & _ & _ & He & -> & Hc); try done.
  split_and!; [| simpl; lia | intros l Hl Hla; by apply mid_no_active |].
  - unfold lease_closed. rewrite (Hact _ Hp). destruct (Hf r) as (Hs & _). simpl.
    by rewrite bool_decide_false.
  - intros d' Hd' Ht'. rewrite HD in Hd'. pose proof (li_pos _ HI _ Hd) as Hpos.
    assert (d_vmid d' = d_vmid d) as -> by (apply itoa_pos_inj; [by apply HI | done | congruence]). done.
Qed.

Lemma mid_lease r' : In r' (desktop_leases s2) -> lease_ok s2 r'.
Proof.
  intros Hin. eapply Forall2_in_r in Hin as (r & Hr & Hrel); [| exact HF]. unfold closed_row in Hrel.
  unfold lease_ok. rewrite HD. destruct (p r) eqn:Ep.
  - destruct Hrel as (d & Hd & Ht & -> & Hid & _). destruct (mid_epoch r d) as (e & _ & _ & He & -> & Hc); try done.
    exists d, (e + 1). simpl. split_and!; (congruence || lia).
  - subst r'. destruct (li_leases _ HI _ Hr) as (d & e & Hd & Ht & Ee & Hb & Heq).
    pose proof (li_pos _ HI _ Hd) as Hpos. destruct (mid_grow _ _ Hpos Ee) as (e' & Ee' & Hle).
    exists d, e'. split_and!; try (done || lia). intros Ha. specialize (Heq Ha).
    rewrite (Hep _ Hpos) in Ee'. destruct (existsb _ _) eqn:Ex; [| congruence].
    apply existsb_exists in Ex as (r0 & Hr0 & Ex). b2p. destruct Ex as [Hp0 E0].
    assert (r = r0) as <- by (eapply (active_unique s); eauto; congruence). congruence.
Qed.

Lemma mid_rev r : In r (desktop_computer_revocations s2) -> rev_ok s2 r.
Proof.
  rewrite HR. intros Hr. destruct (li_queue _ HI _ Hr) as (Hv & Hb & e & Ee & He & Hlt). split; [done |]. split; [done |].
  destruct (mid_grow _ _ Hv Ee) as (e' & Ee' & Hle). exists e'. split; [done |]. split; [lia |].
  intros l Hl Ha Hd. destruct (closed_active _ _ _ HF Hl Ha) as [Hl' _]. auto.
Qed.
End mid.

Lemma close_inv s l s' :
  lease_inv s -> update_desktop_leases now p f s = inr (l, s') ->
  lease_inv s' /\ lease_frame s s' /\ epochs_grow s s' /\
  Forall2 (closed_row s) (desktop_leases s) (desktop_leases s') /\
  (forall o n, In (o, n) (changed p (desktop_leases s) (desktop_leases s')) ->
     closed_out o n s' /\ l_control_epoch o < l_control_epoch n) /\
  (forall g, In g (agent_guest_sessions s') -> live g -> In g (agent_guest_sessions s)) /\
  (forall v e, fenced v e (desktop_computer_revocations s) = true -> fenced v e (desktop_computer_revocations s') = true).
Proof.
  intros HI H. unfold update_desktop_leases in H. inv_tx.
  rename select (update_each _ _ _ _ = _) into He. rename select (tfold _ _ _ = _) into Ha.
  rename select (lease_indexes _ = true) into Hidx.
  match type of He with _ = inr (?a, ?b) => rename a into t'; rename b into s1 end.
  apply close_pass in He as (Hfr & Hag & Hrv & HF & Hep);
    [| done | done | apply HI | by destruct (andb_prop _ _ (li_index _ HI))].
  pose proof (lease_frame_get managed_desktops _ _ (fun _ => eq_refl) Hfr) as HD.
  set (s2 := s1 <| desktop_leases := t' |>) in *.
  assert (forall o n, In (o, n) (changed p (desktop_leases s) t') ->
            In o (desktop_leases s) /\ p o = true /\ closed_row s o n) as Hch.
  { intros o n Hin. apply (changed_in _ _ _ _ _ _ HF) in Hin. tauto. }
  apply (after_fold now) in Ha as (Haf & HR & Hco & Hlive & Hkeep).
  - destruct Haf as (Hf2 & Hl2 & He2). simpl in Hl2. rewrite Hl2. split_and!; try done.
    + constructor.
      * intros d Hd. apply HI. rewrite <- HD. by rewrite (lease_frame_get managed_desktops _ _ (fun _ => eq_refl) Hf2) in Hd.
      * intros v e Hv E. apply (mid_epoch_pos s s2 HI Hep v e Hv). unfold current_epoch in E. by rewrite He2 in E.
      * by rewrite Hl2.
      * intros r Hr. rewrite Hl2 in Hr. destruct (mid_lease s s2) with (r' := r) as (d & e & Hd & Ht & Ee & Hb); try done.
        exists d, e. unfold current_epoch. rewrite He2. rewrite (lease_frame_get managed_desktops _ _ (fun _ => eq_refl) Hf2). done.
      * done.
    + eapply lease_frame_trans; [| exact Hf2]. exact Hfr.
    + eapply epochs_grow_trans; [apply (mid_grow s s2); done |]. intros v e _ E. exists e. unfold current_epoch.
      rewrite He2. split; [exact E | lia].
    + intros o n Hin. split; [auto |]. destruct (Hch _ _ Hin) as (Ho & Hp & Hrel). unfold closed_row in Hrel.
      rewrite Hp in Hrel. destruct Hrel as (d & Hd & Ht & -> & _).
      destruct (mid_epoch s s2) with (r := o) (d := d) as (e & _ & -> & _ & -> & _); try done. simpl. lia.
    + intros g Hg Hl. rewrite <- Hag. by apply Hlive.
    + intros v e Hve. apply Hkeep. by rewrite <- Hrv in Hve.
  - intros o n Hin. destruct (Hch _ _ Hin) as (Ho & Hp & Hrel). by apply (mid_pair s s2).
  - by apply (mid_rev s s2).
Qed.
End close.

(** ** Preservation *)
Lemma lease_inv_ext s s' :
  desktop_leases s' = desktop_leases s -> desktop_computer_epochs s' = desktop_computer_epochs s ->
  desktop_computer_revocations s' = desktop_computer_revocations s ->
  pos_desktops s' ->
  (forall d, In d (managed_desktops s) -> exists d', In d' (managed_desktops s') /\ d_vmid d' = d_vmid d) ->
  lease_inv s -> lease_inv s'.
Proof.
  intros HL HE HR Hpos HD HI. constructor; [done | unfold current_epoch; rewrite HE; apply HI | by rewrite HL; apply HI | |].
  - intros l Hl. rewrite HL in Hl. destruct (li_leases _ HI _ Hl) as (d & e & Hd & Ht & Ee & Hb).
    destruct (HD _ Hd) as (d' & Hd' & E). exists d', e. unfold current_epoch. rewrite HE, E. done.
  - intros r Hr. rewrite HR in Hr. destruct (li_queue _ HI _ Hr) as (Hv & Hb & e & Ee & He & Hlt).
    split; [done |]. split; [done |]. exists e. unfold current_epoch. rewrite HE, HL. done.
Qed.

(** Everything issued on a VM so far is below its next epoch. *)
Lemma lease_below_next s l v : lease_inv s -> In l (desktop_leases s) -> 0 < v -> l_desktop_id l = itoa v ->
  l_control_epoch l < next_epoch s v.
Proof.
  intros HI Hl Hv E. destruct (li_leases _ HI _ Hl) as (d' & e & Hd' & Ht' & Ee & Hb & _).
  assert (d_vmid d' = v) as <- by (apply itoa_pos_inj; [by apply HI | done | congruence]).
  unfold next_epoch. rewrite Ee. lia.
Qed.

Lemma rev_below_next s q v : lease_inv s -> In q (desktop_computer_revocations s) -> r_desktop_vmid q = v ->
  r_control_epoch q < next_epoch s v.
Proof.
  intros HI Hq <-. destruct (li_queue _ HI _ Hq) as (Hv & _ & e & Ee & Hb & _). unfold next_epoch. rewrite Ee. lia.
Qed.

Section insertion.
Context (now : time).

(** The effect of an accepted INSERT on the fences. *)
Section inserted.
Context (s s' : DB) (r : DesktopLease) (d : ManagedDesktop) (HI : lease_inv s)
  (Hfr : lease_frame s s') (Hidx : lease_indexes (desktop_leases s') = true)
  (HL : desktop_leases s' = desktop_leases s ++ [r])
  (HR : desktop_computer_revocations s' = desktop_computer_revocations s)
  (Hd : In d (managed_desktops s)) (Ht : l_desktop_id r = itoa (d_vmid d)) (Ha : l_state r = LActive)
  (He : l_control_epoch r = next_epoch s (d_vmid d))
  (Hc : forall v, current_epoch s' v = if decide (v = d_vmid d) then Some (next_epoch s (d_vmid d)) else current_epoch s v).

Lemma inserted_grow : epochs_grow s s'.
Proof.
  intros v e Hv E. rewrite Hc. destruct (decide (v = d_vmid d)) as [-> |]; [| exists e; split; [done | lia]].
  unfold next_epoch. rewrite E. eexists. split; [done | lia].
Qed.

Lemma inserted_next_pos v : 0 < v -> 0 < next_epoch s v.
Proof.
  intros Hv. unfold next_epoch. destruct (current_epoch s v) as [e |] eqn:E; [| lia].
  pose proof (li_epoch _ HI _ _ Hv E). lia.
Qed.

Lemma inserted_old_lease l : In l (desktop_leases s) -> lease_ok s' l.
Proof.
  intros Hl. destruct (li_leases _ HI _ Hl) as (d' & e & Hd' & Ht' & Ee & Hb & Heq).
  destruct (inserted_grow _ _ (li_pos _ HI _ Hd') Ee) as (e' & Ee' & Hle).
  exists d', e'. rewrite (lease_frame_get managed_desktops _ _ (fun _ => eq_refl) Hfr). split_and!; try (done || lia).
  intros Hla. specialize (Heq Hla). rewrite Hc in Ee'.
  destruct (decide (d_vmid d' = d_vmid d)) as [E |]; [| congruence].
  apply andb_true_iff in Hidx as [_ HX]. rewrite HL in HX.
  assert (l = r) as ->.
  { eapply (unique_index_inj _ _ _ _ (l_desktop_id r) HX); [apply in_app_iff; auto | apply in_app_iff; simpl; auto | |];
      cbv beta; rewrite bool_decide_true by done; congruence. }
  pose proof (lease_below_next s r _ HI Hl (li_pos _ HI _ Hd) Ht). lia.
Qed.

Lemma inserted_inv : lease_inv s'.
Proof.
  pose proof (lease_frame_get managed_desktops _ _ (fun _ => eq_refl) Hfr) as HD.
  pose proof (li_pos _ HI _ Hd) as Hpos. pose proof (inserted_next_pos _ Hpos) as Hnp.
  constructor; [intros x; rewrite HD; apply HI | | done | |].
  - intros v e Hv. rewrite Hc. destruct (decide _); [intros [= <-]; done | by apply HI].
  - intros l Hl. rewrite HL in Hl. apply in_app_iff in Hl as [Hl | [<- | []]]; [by apply inserted_old_lease |].
    exists d, (next_epoch s (d_vmid d)). rewrite HD, Hc, decide_True by done. split_and!; try (done || lia).
  - intros q Hq. rewrite HR in Hq. destruct (li_queue _ HI _ Hq) as (Hv & Hb & e & Ee & Hbe & Hl').
    destruct (inserted_grow _ _ Hv Ee) as (e' & Ee' & Hle). split; [done |]. split; [done |]. exists e'.
    split_and!; try (done || lia). intros l Hl Hla Hdl. rewrite HL in Hl. apply in_app_iff in Hl as [Hl | [<- | []]]; [by apply Hl' |].
    rewrite He. apply rev_below_next; try done. apply itoa_pos_inj; try done. congruence.
Qed.
End inserted.

Lemma insert_lease_ok new s r s' :
  lease_inv s -> l_state new = LActive -> insert_desktop_lease now new s = inr (r, s') ->
  lease_inv s' /\ epochs_grow s s' /\ lease_frame s s' /\ desktop_leases s' = desktop_leases s ++ [r] /\
  (exists e, r = new <| l_control_epoch := e |>) /\ native_reserved s (l_desktop_id new) = false /\
  (forall l, In l (desktop_leases s) -> l_desktop_id l = l_desktop_id r -> l_control_epoch l < l_control_epoch r) /\
  (forall q, In q (desktop_computer_revocations s') -> itoa (r_desktop_vmid q) = l_desktop_id r ->
     r_control_epoch q < l_control_epoch r) /\ agent_guest_sessions s' = agent_guest_sessions s.
Proof.
  intros HI Hnew H. apply insert_lease_inr in H as (Hfr & Hidx & Hnat & HL & Hag & HR & d & Hd & Ht & Er & He).
  assert (forall v, current_epoch s' v = if decide (v = d_vmid d) then Some (next_epoch s (d_vmid d)) else current_epoch s v) as Hc.
  { intros v. by destruct (current_epoch_advance _ _ _ _ _ v He) as [_ Hc]. }
  destruct (current_epoch_advance _ _ _ _ _ (d_vmid d) He) as [He1 _].
  assert (l_state r = LActive /\ l_desktop_id r = itoa (d_vmid d)) as [Hra Hrd] by (rewrite Er; by split).
  pose proof (li_pos _ HI _ Hd) as Hpos.
  split_and!; eauto using inserted_inv, inserted_grow.
  - intros l Hl E. rewrite He1. apply lease_below_next; try done. congruence.
  - intros q Hq E. rewrite He1. rewrite HR in Hq. apply rev_below_next; try done.
    apply itoa_pos_inj; [by apply (li_queue _ HI) | done | congruence].
Qed.
End insertion.

(** ** The operations *)
Section operations.
Context (now : time).

(** The statement of [ReleaseDesktopLease], [RevokeDesktopLeases] and
    [QueueExpiredComputerLeases]. *)
Lemma close_leases_inv q st s l s' :
  st <> LActive -> lease_inv s -> close_leases now q st s = inr (l, s') ->
  lease_inv s' /\ lease_frame s s' /\ epochs_grow s s' /\
  l = List.map snd (changed (fun l => q l && (l_state l == LActive)) (desktop_leases s) (desktop_leases s')) /\
  (forall o, In o (desktop_leases s) -> q o = true -> l_state o = LActive ->
     exists n, In n (desktop_leases s') /\ l_id n = l_id o /\ l_state n = st /\
       l_desktop_id n = l_desktop_id o /\ l_control_epoch o < l_control_epoch n /\ closed_out o n s').
Proof.
  intros Hst HI H. unfold close_leases in H. pose proof H as H0. apply update_leases_inr in H0 as (_ & _ & El & _).
  apply close_inv in H as (HI' & Hfr & Hg & HF & Hco & _); [| | | done].
  - split_and!; try done. intros o Ho Hq Ha.
    destruct (changed_in_l _ (fun l => q l && (l_state l == LActive)) _ _ _ HF Ho) as (n & Hn);
      [by rewrite Hq, Ha |].
    exists n. destruct (Hco _ _ Hn) as [Hout Hlt]. apply (changed_in _ _ _ _ _ _ HF) in Hn as (_ & Hin & Hp & Hrow).
    unfold closed_row in Hrow. rewrite Hp in Hrow. destruct Hrow as (d & _ & _ & -> & _). split_and!; done.
  - intros l0 Hp. b2p. tauto.
  - intros l0. simpl. done.
Qed.

Lemma expire_inv s l s' :
  lease_inv s ->
  update_desktop_leases now (expire_leases now) (fun l => l <| l_state := LExpired; l_updated_at := now |>) s = inr (l, s') ->
  lease_inv s' /\ lease_frame s s' /\ epochs_grow s s' /\
  Forall2 (closed_row (expire_leases now) (fun l => l <| l_state := LExpired; l_updated_at := now |>) s)
    (desktop_leases s) (desktop_leases s').
Proof.
  intros HI H. apply close_inv in H as (? & ? & ? & ? & _); [done | | | done].
  - intros l0. unfold expire_leases. b2p. tauto.
  - intros l0. simpl. done.
Qed.

Lemma CreateDesktopLease_inr id agent desktop expires s l s' :
  CreateDesktopLease now id agent desktop expires s = inr (l, s') ->
  exists L s1, agent_desktop_access s agent (by_text desktop) = true /\
    exists_where (fun c => (itoa (c_desktop_vmid c) == desktop) && conn_open c) (desktop_connection_sessions s) = false /\
    update_desktop_leases now (expire_leases now) (fun l => l <| l_state := LExpired; l_updated_at := now |>) s = inr (L, s1) /\
    insert_desktop_lease now (MkDesktopLease id agent desktop LActive 1 expires now now) s1 = inr (l, s').
Proof.
  unfold CreateDesktopLease. intros H. inv_tx. rewrite negb_true_iff in *. eauto 10.
Qed.
End operations.

(** An agent lease is exclusive and fenced (C9): when [CreateDesktopLease]
    succeeds the desktop is assigned to the agent, held by no human connection
    and by no native credential; the new lease is the only active one of the
    desktop and its control epoch exceeds that of every earlier lease and of
    every queued revocation of the VM; the epoch ledger never moved back. *)
Theorem CreateDesktopLease_fenced now id agent desktop expires s l s' :
  lease_inv s -> CreateDesktopLease now id agent desktop expires s = inr (l, s') ->
  lease_inv s' /\ epochs_grow s s' /\
  agent_desktop_access s agent (by_text desktop) = true /\
  (forall c, In c (desktop_connection_sessions s) -> itoa (c_desktop_vmid c) = desktop -> conn_open c = false) /\
  native_reserved s desktop = false /\
  In l (desktop_leases s') /\ l_id l = id /\ l_agent_id l = agent /\ l_desktop_id l = desktop /\ l_state l = LActive /\
  (forall o, In o (desktop_leases s') -> l_desktop_id o = desktop -> o <> l ->
     l_state o <> LActive /\ l_control_epoch o < l_control_epoch l) /\
  (forall q, In q (desktop_computer_revocations s') -> itoa (r_desktop_vmid q) = desktop ->
     r_control_epoch q < l_control_epoch l).
Proof.
  intros HI H. apply CreateDesktopLease_inr in H as (L & s1 & Hacc & Hconn & He & Hins).
  apply expire_inv in He as (HI1 & Hfr1 & Hg1 & _); [| done].
  apply insert_lease_ok in Hins as (HI2 & Hg2 & _ & HL & (e & Er) & Hnat & Hlt & Hq & _); [| done | done]. simpl in Hnat.
  rewrite (lease_frame_get (fun s => native_reserved s desktop) _ _ (fun _ => eq_refl) Hfr1) in Hnat.
  assert (l_id l = id /\ l_agent_id l = agent /\ l_desktop_id l = desktop /\ l_state l = LActive) as (E1 & E2 & E3 & E4)
    by (rewrite Er; split_and!; done).
  assert (In l (desktop_leases s')) as Hin by (rewrite HL; apply in_app_iff; simpl; auto).
  split_and!; try done; [by eapply epochs_grow_trans | | | by rewrite <- E3].
  - intros c Hc Ht. rewrite exists_where_false in Hconn. specialize (Hconn _ Hc). rewrite Ht, bool_decide_true in Hconn; done.
  - intros o Ho Hd Hne. split.
    + intros Ha. apply Hne. eapply active_unique; eauto; congruence.
    + rewrite HL in Ho. apply in_app_iff in Ho as [Ho | [<- | []]]; [apply Hlt; [done | congruence] | done].
Qed.

Lemma demo_lease_inv : lease_inv demo_db.
Proof.
  constructor.
  - intros d [<- | [<- | []]]; reflexivity.
  - intros v e _ E. unfold current_epoch in E. simpl in E. destruct (_ == v); simplify_eq/=; lia.
  - reflexivity.
  - intros l [<- | []]. exists desk102, 1. split_and!; try (reflexivity || lia); simpl; auto.
  - intros r [].
Qed.

Lemma CreateDesktopLease_fenced_witness :
  exists l s', CreateDesktopLease (2 * hour) "lease2" "ag1" "102" (3 * hour) demo_db = inr (l, s') /\
    lease_inv s' /\ l_control_epoch l = 3.
Proof.
  eexists _, _. split; [vm_compute; reflexivity |]. split; [| reflexivity].
  refine (proj1 (CreateDesktopLease_fenced (2 * hour) "lease2" "ag1" "102" (3 * hour) demo_db _ _ demo_lease_inv _)).
  vm_compute. reflexivity.
Defined.

(** ** Closing as a relation between databases *)

(** The lease [o] was closed at a strictly higher epoch, and in [s'] the VM has
    a pending revocation fencing that epoch while no guest session of the lease
    is live. *)
Definition closed_and_fenced (s' : DB) (o : DesktopLease) (st : lease_state) : Prop :=
  exists n, In n (desktop_leases s') /\ l_id n = l_id o /\ l_state n = st /\ l_desktop_id n = l_desktop_id o /\
    l_control_epoch o < l_control_epoch n /\ closed_out o n s'.

(** Exactly the active leases that [q] names are closed, each with its fence;
    every other row stays, and so does every earlier fence. *)
Record closing (st : lease_state) (q : DesktopLease -> bool) (s s' : DB) : Prop := {
  cl_inv : lease_inv s';
  cl_grow : epochs_grow s s';
  cl_closed : forall o, In o (desktop_leases s) -> l_state o = LActive -> q o = true -> closed_and_fenced s' o st;
  cl_kept : forall o, In o (desktop_leases s) -> l_state o <> LActive \/ q o = false -> In o (desktop_leases s');
  cl_out : forall o n, closed_out o n s -> closed_out o n s'
}.

Lemma closing_trans st q1 q2 a b c : st <> LActive -> closing st q1 a b -> closing st q2 b c -> closing st (fun o => q1 o || q2 o) a c.
Proof.
  intros Hst H1 H2. constructor.
  - apply H2.
  - eapply epochs_grow_trans; [apply H1 | apply H2].
  - intros o Ho Ha Hq. destruct (q1 o) eqn:E1.
    + destruct (cl_closed _ _ _ _ H1 o Ho Ha E1) as (n & Hn & Hid & Hs & Hd & He & Hout). exists n.
      split_and!; try done; [apply (cl_kept _ _ _ _ H2); [done | left; congruence] | by apply (cl_out _ _ _ _ H2)].
    + apply (cl_closed _ _ _ _ H2); [apply (cl_kept _ _ _ _ H1); auto | done | done].
  - intros o Ho Hq. assert (l_state o <> LActive \/ q1 o = false /\ q2 o = false) as Hq'.
    { destruct Hq as [| Hq]; [by left | right; by apply orb_false_iff]. }
    apply (cl_kept _ _ _ _ H2); [apply (cl_kept _ _ _ _ H1); [done |] |]; tauto.
  - intros o n Hout. by apply (cl_out _ _ _ _ H2), (cl_out _ _ _ _ H1).
Qed.

Lemma closing_ext st q q' s s' : (forall o, In o (desktop_leases s) -> l_state o = LActive -> q' o = q o) -> closing st q s s' -> closing st q' s s'.
Proof.
  intros Hq H. constructor; [apply H | apply H | | | apply H].
  - intros o Ho Ha Hq'. apply (cl_closed _ _ _ _ H); [done.. |]. by rewrite <- Hq.
  - intros o Ho Hq'. apply (cl_kept _ _ _ _ H); [done |]. destruct (decide (l_state o = LActive)) as [Ha |]; [right | by left].
    rewrite <- Hq by done. by destruct Hq'.
Qed.

(** What leaves leases, epochs, fences and guest sessions alone. *)
Lemma closing_quiet st s s' :
  desktop_leases s' = desktop_leases s -> desktop_computer_epochs s' = desktop_computer_epochs s ->
  desktop_computer_revocations s' = desktop_computer_revocations s -> agent_guest_sessions s' = agent_guest_sessions s ->
  List.map d_vmid (managed_desktops s') = List.map d_vmid (managed_desktops s) ->
  lease_inv s -> closing st (fun _ => false) s s'.
Proof.
  intros HL HE HR HG HD HI.
  assert (forall x y, List.map d_vmid (managed_desktops x) = List.map d_vmid (managed_desktops y) ->
    forall d, In d (managed_desktops x) -> exists d', In d' (managed_desktops y) /\ d_vmid d' = d_vmid d) as Hd.
  { intros x y Hxy d Hd. assert (In (d_vmid d) (List.map d_vmid (managed_desktops y))) as (d' & ? & ?)%in_map_iff; [| eauto].
    rewrite <- Hxy. by apply in_map. }
  constructor.
  - apply (lease_inv_ext s s' HL HE HR); [| by apply Hd | done]. intros d Hin. destruct (Hd s' s HD d Hin) as (d' & Hin' & <-). by apply HI.
  - intros v e _ E. exists e. unfold current_epoch. rewrite HE. split; [exact E | lia].
  - done.
  - intros o Ho _. by rewrite HL.
  - intros o n [Ho1 Ho2]. split; [| by rewrite HG]. intros d Hin Ht. destruct (Hd s' s HD d Hin) as (d' & Hin' & E). rewrite HR, <- E. apply Ho1; [done |]. by rewrite E.
Qed.

(** One UPDATE that closes what [p] selects. *)
Lemma closing_update now st p f s l s' : st <> LActive -> (forall l, p l = true -> l_state l = LActive) ->
  (forall l, l_state (f l) = st /\ l_id (f l) = l_id l /\ l_expires_at (f l) = l_expires_at l) ->
  lease_inv s -> update_desktop_leases now p f s = inr (l, s') -> closing st p s s'.
Proof.
  intros Hst Hact Hf HI H. apply close_inv in H as (HI' & Hfr & Hg & HF & Hco & Hlive & Hkeep); [| done | | done].
  2: { intros l0. destruct (Hf l0) as (-> & ? & ?). done. }
  constructor; [done | done | | |].
  - intros o Ho _ Hp. destruct (changed_in_l _ p _ _ _ HF Ho Hp) as (n & Hn). exists n.
    destruct (Hco _ _ Hn) as [Hout Hlt]. apply (changed_in _ _ _ _ _ _ HF) in Hn as (_ & Hin & _ & Hrow).
    unfold closed_row in Hrow. rewrite Hp in Hrow. destruct Hrow as (d & _ & _ & -> & Hd & _).
    destruct (Hf o) as (? & ? & _). split_and!; done.
  - intros o Ho Hp. assert (p o = false) as Hpo.
    { destruct (p o) eqn:E; [| done]. destruct Hp as [Hp |]; [| done]. by destruct Hp; apply Hact. }
    eapply Forall2_in_l in Ho as (n & Hn & Hrow); [| exact HF]. unfold closed_row in Hrow. rewrite Hpo in Hrow. by subst.
  - intros o n [Ho1 Ho2]. split.
    + intros d. rewrite (lease_frame_get managed_desktops _ _ (fun _ => eq_refl) Hfr). auto.
    + intros g Hin El. assert (~ live g) as Hn.
      { intros Hl. destruct (Ho2 g (Hlive _ Hin Hl) El). by destruct Hl. }
      unfold live in Hn. tauto.
Qed.

Lemma closing_insert now st new s r s' : l_state new = LActive -> lease_inv s -> insert_desktop_lease now new s = inr (r, s') ->
  closing st (fun _ => false) s s'.
Proof.
  intros Hnew HI H. pose proof H as H0. apply insert_lease_ok in H0 as (HI' & Hg & Hfr & HL & _ & _ & _ & _ & HG); [| done | done].
  constructor; [done | done | done | intros o Ho _; rewrite HL; apply in_app_iff; by left |].
  intros o n [Ho1 Ho2]. split; [| by rewrite HG]. intros d. rewrite (lease_frame_get managed_desktops _ _ (fun _ => eq_refl) Hfr).
  apply insert_lease_inr in H as (_ & _ & _ & _ & _ & -> & _). apply Ho1.
Qed.
