(* ===== verification/StoreAccessProofs.v ===== *)
(** * Revocation closes over every access change

    [commitAccessChange] terminates exactly the open connections, the live
    bindings and the active agent leases that have no grant; every binding it
    disables is in the durable revocation queue and every lease it closes is
    fenced.  So does every statement of the store that closes leases. *)
From stdpp Require Import base strings list.
From Stdlib Require Import ZArith Lia Ascii.
From S2P Require Import Prelude GoStrings Auth GuestIdentity Db Triggers TriggerLemmas StoreAccess StoreLease StoreAgent StoreLeaseProofs Demo.

Local Open Scope string_scope.
Local Open Scope list_scope.
Local Open Scope Z_scope.

(** ** The queue of guest revocations *)

(** [CHECK(completed_revision >= 0 AND requested_revision >= completed_revision)] *)
Definition queue_wf (Q : list GuestIdentityRevocation) : Prop :=
  forall q, In q Q -> 0 <= q_completed_revision q <= q_requested_revision q.

Definition q_names (b : GuestIdentityBinding) (q : GuestIdentityRevocation) : bool :=
  (q_desktop_vmid q == b_desktop_vmid b) && (q_user_id q == b_user_id b) && (q_guest_username q == b_guest_username b).

(** The account of binding [b] has an unconfirmed revocation in the queue. *)
Definition queued (b : GuestIdentityBinding) (Q : list GuestIdentityRevocation) : bool :=
  exists_where (fun q => q_names b q && q_pending q) Q.

Definition enqueue (now : time) (reason : revocation_reason) (b : GuestIdentityBinding)
  (Q : list GuestIdentityRevocation) : list GuestIdentityRevocation :=
  upsert (q_names b)
    (fun q => q <| q_requested_revision := q_requested_revision q + 1; q_reason := reason; q_last_error := "";
                   q_updated_at := now |>)
    (MkGuestIdentityRevocation (b_desktop_vmid b) (b_user_id b) (b_guest_username b) 1 0 reason "" now) Q.

Section queue.
Context (now : time) (reason : revocation_reason).

Lemma enqueue_wf b Q : queue_wf Q -> queue_wf (enqueue now reason b Q).
Proof.
  intros HQ q Hq. apply in_upsert in Hq as [[Hq _] | [(q0 & Hq & _ & ->) | [-> _]]]; simpl.
  - auto.
  - specialize (HQ _ Hq). lia.
  - lia.
Qed.

Lemma enqueue_queued b Q : queue_wf Q -> queued b (enqueue now reason b Q) = true.
Proof.
  intros HQ. unfold queued, enqueue, upsert. destruct (exists_where (q_names b) Q) eqn:E.
  - rewrite exists_where_update. apply exists_where_true in E as (q & Hq & Hn).
    apply exists_where_true. exists q. split; [done |]. rewrite Hn. specialize (HQ _ Hq).
    apply andb_true_iff. split; [exact Hn |]. unfold q_pending. simpl. apply Z.ltb_lt. lia.
  - rewrite exists_where_app. simpl. unfold q_names. simpl. rewrite !bool_decide_true by done.
    by rewrite orb_true_r.
Qed.

(** Queueing never makes another pending entry disappear. *)
Lemma enqueue_keeps b b' Q : queued b' Q = true -> queued b' (enqueue now reason b Q) = true.
Proof.
  unfold queued, enqueue, upsert. destruct (exists_where (q_names b) Q).
  - rewrite exists_where_update, !exists_where_true. intros (q & Hq & Hp). exists q. split; [done |].
    destruct (q_names b q); [| done]. apply andb_true_iff in Hp as [Hn Hp]. apply andb_true_iff.
    split; [exact Hn |]. unfold q_pending in *. simpl. rewrite Z.ltb_lt in *. lia.
  - rewrite exists_where_app. intros ->. done.
Qed.

Definition enqueue_all (l : list GuestIdentityBinding) (Q : list GuestIdentityRevocation) :=
  fold_left (fun Q b => enqueue now reason b Q) l Q.

Lemma enqueue_all_wf l Q : queue_wf Q -> queue_wf (enqueue_all l Q).
Proof. revert Q. induction l as [| b l IH]; simpl; intros Q HQ; [done | by apply IH, enqueue_wf]. Qed.

Lemma enqueue_all_keeps l b Q : queued b Q = true -> queued b (enqueue_all l Q) = true.
Proof. revert Q. induction l as [| a l IH]; simpl; intros Q HQ; [done | by apply IH, enqueue_keeps]. Qed.

Lemma enqueue_all_queued l b Q : queue_wf Q -> In b l -> queued b (enqueue_all l Q) = true.
Proof.
  revert Q. induction l as [| a l IH]; simpl; intros Q HQ; [done |].
  intros [-> | Hin]; [by apply enqueue_all_keeps, enqueue_queued | by apply IH; [apply enqueue_wf |]].
Qed.

(** What [queueGuestIdentityRevocations] commits. *)
Lemma queue_inr p s u s' :
  queueGuestIdentityRevocations now p reason s = inr (u, s') ->
  let f (b : GuestIdentityBinding) := b <| b_state := BDisabled; b_updated_at := now |> in
  s' = s <| guest_identity_bindings := update_where p f (guest_identity_bindings s);
            guest_identity_revocations :=
              enqueue_all (List.map f (rows p (guest_identity_bindings s))) (guest_identity_revocations s) |>.
Proof.
  unfold queueGuestIdentityRevocations. intros H. inv_tx.
  match goal with H : update_guest_identity_bindings _ _ _ = _ |- _ => apply update_bindings_inr in H as (-> & -> & _) end.
  match goal with H : tfold _ _ _ = _ |- _ => unfold queue_revocation in H; rewrite tfold_tmod in H;
    injection H as <- <- end.
  generalize (List.map (fun b : GuestIdentityBinding => b <| b_state := BDisabled; b_updated_at := now |>)
                (rows p (guest_identity_bindings s))).
  generalize (update_where p (fun b => b <| b_state := BDisabled; b_updated_at := now |>) (guest_identity_bindings s)).
  intros B l. destruct s. simpl. revert guest_identity_revocations.
  induction l as [| b l IH]; intros Q; simpl; [done | apply (IH (enqueue now reason b Q))].
Qed.
End queue.

Lemma update_returning_inr {R} (get : DB -> list R) put p f e s r s' :
  update_returning get put p f e s = inr (r, s') ->
  s' = put (update_where p f (get s)) s /\ exists r0, In r0 (get s) /\ p r0 = true /\ r = f r0.
Proof.
  unfold update_returning. intros H. inv_tx. split; [done |].
  match goal with H : select_one _ _ = Some ?x |- _ => apply select_one_some in H; exists x end. tauto.
Qed.

(** ** Nothing live without a grant *)
Definition user_granted (s : DB) (user : string) (vmid : Z) : bool := effective_user_desktop_access s user vmid.
Definition lease_granted (s : DB) (l : DesktopLease) : bool := agent_desktop_access s (l_agent_id l) (by_text (l_desktop_id l)).

Definition conns_authorized (s : DB) : Prop :=
  forall c, In c (desktop_connection_sessions s) -> c_state c = CActive -> user_granted s (c_user_id c) (c_desktop_vmid c) = true.
Definition bindings_authorized (s : DB) : Prop :=
  forall b, In b (guest_identity_bindings s) -> b_state b <> BDisabled -> user_granted s (b_user_id b) (b_desktop_vmid b) = true.

(** [c] is on its way out: it stays in the table until its Guest session is
    gone, but carries the order to terminate. *)
Definition terminating (c : DesktopConnectionSession) : Prop := c_state c = CRevoking /\ c_termination_required c = true.

(** Open connections without a grant are terminating, the others stay. *)
Definition connections_closed (s s' : DB) : Prop :=
  (forall c, In c (desktop_connection_sessions s') -> conn_open c = true ->
     user_granted s' (c_user_id c) (c_desktop_vmid c) = true \/ terminating c) /\
  (forall c, In c (desktop_connection_sessions s) ->
     if conn_open c && negb (user_granted s' (c_user_id c) (c_desktop_vmid c))
     then exists c', In c' (desktop_connection_sessions s') /\ c_id c' = c_id c /\ terminating c'
     else In c (desktop_connection_sessions s')).

(** Live bindings without a grant are disabled and queued, the others stay. *)
Definition bindings_closed (s s' : DB) : Prop :=
  bindings_authorized s' /\
  (forall b, In b (guest_identity_bindings s) ->
     if (b_state b != BDisabled) && negb (user_granted s' (b_user_id b) (b_desktop_vmid b))
     then exists b', In b' (guest_identity_bindings s') /\ b_state b' = BDisabled /\ b_desktop_vmid b' = b_desktop_vmid b /\
            b_user_id b' = b_user_id b /\ b_guest_username b' = b_guest_username b /\ queued b (guest_identity_revocations s') = true
     else In b (guest_identity_bindings s')).

Section commit.
Context (now : time).

Lemma commit_inr s u s' :
  commitAccessChange now s = inr (u, s') ->
  exists s1 s2,
    queueGuestIdentityRevocations now (fun b => (b_state b != BDisabled) &&
      negb (effective_user_desktop_access s (b_user_id b) (b_desktop_vmid b))) AccessRemoved s = inr (tt, s1) /\
    s2 = s1 <| desktop_connection_sessions := update_where
           (fun c => conn_open c && negb (effective_user_desktop_access s (c_user_id c) (c_desktop_vmid c)))
           (fun c => c <| c_state := CRevoking; c_termination_required := true; c_updated_at := now |>)
           (desktop_connection_sessions s) |> /\
    (exists l, update_desktop_leases now
      (fun l => (l_state l == LActive) && negb (agent_desktop_access s2 (l_agent_id l) (by_text (l_desktop_id l))))
      (fun l => l <| l_state := LRevoked; l_control_epoch := l_control_epoch l + 1; l_updated_at := now |>) s2
      = inr (l, s')) /\
    lease_frame s2 s' /\ authz s' = authz s.
Proof.
  unfold commitAccessChange. intros H. inv_tx.
  match goal with H : queueGuestIdentityRevocations _ _ _ _ = inr (?u, ?x) |- _ => destruct u; exists x;
    pose proof (queue_inr _ _ _ _ _ _ H) as Hq end.
  match goal with H : update_desktop_connections _ _ _ = _ |- _ => apply update_connections_inr in H as (-> & _ & _) end.
  eexists. split_and!; [done | | eexists; done | |].
  - by rewrite Hq.
  - match goal with H : update_desktop_leases _ _ _ _ = _ |- _ => by apply update_leases_inr in H as (? & _) end.
  - match goal with H : update_desktop_leases _ _ _ _ = _ |- _ => apply update_leases_inr in H as (Hf & _) end.
    apply lease_frame_authz in Hf. rewrite Hf, Hq. done.
Qed.

Lemma commit_conns s u s' : commitAccessChange now s = inr (u, s') -> connections_closed s s'.
Proof.
  intros H. apply commit_inr in H as (s1 & s2 & _ & -> & _ & Hf & Ha).
  pose proof (lease_frame_get desktop_connection_sessions _ _ (fun _ => eq_refl) Hf) as HC. simpl in HC.
  assert (forall user v, user_granted s' user v = effective_user_desktop_access s user v) as Hg by (intros; by apply effective_authz).
  split; intros c Hc; [intros Ho |]; rewrite !Hg.
  - rewrite HC in Hc. apply in_update_where in Hc as (c0 & _ & ->). destruct (_ && _) eqn:E; [by right |].
    rewrite Ho in E. left. by apply negb_false_iff in E.
  - destruct (_ && _) eqn:E.
    + exists (c <| c_state := CRevoking; c_termination_required := true; c_updated_at := now |>). split; [| done].
      rewrite HC. apply in_update_where. exists c. by rewrite E.
    + rewrite HC. apply in_update_where. exists c. by rewrite E.
Qed.

Lemma closed_conns_authorized s s' : connections_closed s s' -> conns_authorized s'.
Proof. intros [Hc _] c Hin Ha. destruct (Hc c Hin) as [| [Hs _]]; [by unfold conn_open; rewrite Ha | done | congruence]. Qed.

Lemma commit_bindings_authorized s u s' : commitAccessChange now s = inr (u, s') -> bindings_authorized s'.
Proof.
  intros H. apply commit_inr in H as (s1 & s2 & Hq & -> & _ & Hf & Ha). apply queue_inr in Hq as ->.
  pose proof (lease_frame_get guest_identity_bindings _ _ (fun _ => eq_refl) Hf) as HB. simpl in HB.
  intros b Hb Hd. unfold user_granted. rewrite (effective_authz s s') by done.
  rewrite HB in Hb. apply in_update_where in Hb as (b0 & _ & ->). destruct (_ && _) eqn:E; [done |]. b2p. destruct E; [done | assumption].
Qed.

Lemma commit_bindings s u s' : queue_wf (guest_identity_revocations s) -> commitAccessChange now s = inr (u, s') ->
  bindings_closed s s' /\ queue_wf (guest_identity_revocations s').
Proof.
  intros HW H. pose proof (commit_bindings_authorized _ _ _ H) as Hauth.
  apply commit_inr in H as (s1 & s2 & Hq & -> & _ & Hf & Ha). apply queue_inr in Hq as ->.
  pose proof (lease_frame_get guest_identity_bindings _ _ (fun _ => eq_refl) Hf) as HB.
  pose proof (lease_frame_get guest_identity_revocations _ _ (fun _ => eq_refl) Hf) as HQ. simpl in HB, HQ.
  assert (forall user v, user_granted s' user v = effective_user_desktop_access s user v) as Hg by (intros; by apply effective_authz).
  split; [split; [done |]; intros b Hb; rewrite !Hg | rewrite HQ; by apply enqueue_all_wf].
  destruct (_ && _) eqn:E.
    + exists (b <| b_state := BDisabled; b_updated_at := now |>). split; [rewrite HB; apply in_update_where; exists b; by rewrite E |].
      split_and!; try done. rewrite HQ. apply (enqueue_all_queued now AccessRemoved _ (b <| b_state := BDisabled; b_updated_at := now |>)); [done |].
      apply (in_map (fun b : GuestIdentityBinding => b <| b_state := BDisabled; b_updated_at := now |>)). by apply filter_In.
    + rewrite HB. apply in_update_where. exists b. by rewrite E.
Qed.

Lemma commit_leases s u s' : lease_inv s -> commitAccessChange now s = inr (u, s') ->
  closing LRevoked (fun l => negb (lease_granted s' l)) s s'.
Proof.
  intros HI H. apply commit_inr in H as (s1 & s2 & Hq & Hs2 & (l & Hl) & _ & Ha). apply queue_inr in Hq. subst s1.
  assert (closing LRevoked (fun _ => false) s s2) as H1 by (rewrite Hs2; by apply closing_quiet).
  apply (closing_update now LRevoked) in Hl; [| done | intros ? ?; b2p; tauto | done | apply H1].
  eapply closing_ext; [| by eapply closing_trans]. intros o _ Hact. cbn. rewrite Hact, bool_decide_true by done. cbn.
  f_equal. rewrite Hs2. by apply agent_access_authz.
Qed.
End commit.

(** The tables a commit leaves alone: everything but bindings, their queue,
    connections and the four lease tables. *)
Definition access_rest (s : DB) : DB :=
  (lease_rest s) <| guest_identity_bindings := @nil GuestIdentityBinding;
                    guest_identity_revocations := @nil GuestIdentityRevocation;
                    desktop_connection_sessions := @nil DesktopConnectionSession |>.

Lemma commit_rest now s u s' : commitAccessChange now s = inr (u, s') -> access_rest s' = access_rest s.
Proof.
  intros H. apply commit_inr in H as (s1 & s2 & Hq & -> & _ & Hf & _). apply queue_inr in Hq as ->.
  unfold access_rest. rewrite Hf. lazy. reflexivity.
Qed.

Lemma commit_get {A} (g : DB -> A) now s u s' :
  (forall x, g (access_rest x) = g x) -> commitAccessChange now s = inr (u, s') -> g s' = g s.
Proof. intros Hg H. rewrite <- (Hg s), <- (Hg s'), (commit_rest _ _ _ _ H). done. Qed.

(** [commitAccessChange] closes over the whole database (C1): once it commits,
    an open connection has its user's effective access or is revoking with the
    order to terminate, a live binding has its user's access, an active lease
    has its agent's.  Nothing goes unnoticed: every connection, binding and
    lease that lost its grant is closed this way - the binding with an
    unconfirmed entry in the revocation queue, the lease at a higher epoch that
    a queued revocation of the agent fences - and every one that has its grant
    is left as it was. *)
Theorem commitAccessChange_closes now s u s' (Hqueue : queue_wf (guest_identity_revocations s)) (Hleases : lease_inv s)
    (Hcommit : commitAccessChange now s = inr (u, s')) :
  connections_closed s s' /\ bindings_closed s s' /\
  (forall l, In l (desktop_leases s') -> l_state l = LActive -> lease_granted s' l = true) /\
  (forall l, In l (desktop_leases s) -> l_state l = LActive ->
     if lease_granted s' l then In l (desktop_leases s') else closed_and_fenced s' l LRevoked) /\
  authz s' = authz s.
Proof.
  pose proof (commit_leases _ _ _ _ Hleases Hcommit) as HL.
  split; [by eapply commit_conns |]. split; [by eapply commit_bindings |]. split; [| split].
  - intros l Hl Hact. pose proof Hcommit as H. apply commit_inr in H as (s1 & s2 & _ & _ & (l' & Hu) & _ & Ha).
    apply update_leases_inr in Hu as (Hf & _ & _ & HF). eapply Forall2_in_r in Hl as (r & _ & Hrel); [| exact HF]. cbv beta in Hrel.
    destruct (_ && _) eqn:E in Hrel.
    + destruct Hrel as (x & y & Hb). by apply before_update_lease_row in Hb as ((e & ->) & _).
    + subst r. rewrite Hact, bool_decide_true in E by done. apply negb_false_iff in E. rewrite <- E. by apply agent_access_authz, lease_frame_authz.
  - intros l Hl Hact. destruct (lease_granted s' l) eqn:E.
    + apply (cl_kept _ _ _ _ HL); [done |]. right. by rewrite E.
    + apply (cl_closed _ _ _ _ HL); [done.. |]. by rewrite E.
  - apply commit_inr in Hcommit as (? & ? & _ & _ & _ & _ & Ha). exact Ha.
Qed.

(** Alice's desktop is given to Bob, and the agent is disabled: her binding and
    connection go, and the agent's lease. *)
Definition demo_reassigned : DB :=
  demo_db <| managed_desktops := [desk101 <| d_owner_user_id := Some "bob" |>; desk102];
             agent_principals := [agent1 <| ap_enabled := false |>] |>.

Lemma commitAccessChange_closes_witness : exists s',
  commitAccessChange 5 demo_reassigned = inr (tt, s') /\ connections_closed demo_reassigned s' /\
  List.map c_state (desktop_connection_sessions s') = [CRevoking] /\ List.map l_state (desktop_leases s') = [LRevoked].
Proof.
  eexists. split; [vm_compute; reflexivity |]. split; [| split; reflexivity].
  refine (proj1 (commitAccessChange_closes 5 demo_reassigned tt _ _ _ _)); [| | vm_compute; reflexivity].
  - intros q [].
  - exact (cl_inv _ _ _ _ (closing_quiet LRevoked demo_db demo_reassigned eq_refl eq_refl eq_refl eq_refl eq_refl demo_lease_inv)).
Defined.

(** * Every statement that closes leases *)
Section closings.
Context `{Lower : UnicodeLower} `{Order : Collation}.

(** The operations of the store whose SQL moves a lease out of the active
    state: [commitAccessChange] stands for every authorization change that
    ends with it. *)
Inductive lease_closing : Set :=
| ByAccessChange
| ByDisabledAgent (id : string)
| ByDeletedAssignment (subjectType subjectID : string) (vmid : Z)
| ByNewLease (id agentID desktopID : string) (expiresAt : time)
| ByRelease (id : string)
| ByRevocation (vmid : Z)
| ByExpiry (vmid : Z)
| ByFailedGuestSession (item : AgentGuestSession).

Definition run_closing (now : time) (c : lease_closing) : tx DB unit :=
  match c with
  | ByAccessChange => commitAccessChange now
  | ByDisabledAgent id => SetAgentEnabled now id false;; mret tt
  | ByDeletedAssignment subjectType subjectID vmid => DeleteDesktopAssignment now subjectType subjectID vmid;; mret tt
  | ByNewLease id agentID desktopID expiresAt => CreateDesktopLease now id agentID desktopID expiresAt;; mret tt
  | ByRelease id => ReleaseDesktopLease now id;; mret tt
  | ByRevocation vmid => RevokeDesktopLeases now vmid;; mret tt
  | ByExpiry vmid => QueueExpiredComputerLeases now vmid
  | ByFailedGuestSession item => QueueAgentGuestSessionRevocation now item
  end.

(** The leases that each of them has to close, and the state they get. *)
Definition must_close (now : time) (c : lease_closing) (s s' : DB) (l : DesktopLease) : bool :=
  match c with
  | ByAccessChange | ByDeletedAssignment _ _ _ => negb (lease_granted s' l)
  | ByDisabledAgent id => l_agent_id l == id
  | ByNewLease _ _ _ _ => l_expires_at l <=? now
  | ByRelease id => l_id l == id
  | ByRevocation vmid => l_desktop_id l == itoa vmid
  | ByExpiry vmid => (l_expires_at l <=? now) && ((vmid =? 0) || (l_desktop_id l == itoa vmid))
  | ByFailedGuestSession item =>
      (l_id l == s_lease_id item) && exists_where (fun g => same_attempt item g && guest_live g) (agent_guest_sessions s)
  end.
Definition closed_state (c : lease_closing) : lease_state :=
  match c with
  | ByRelease _ => LReleased
  | ByNewLease _ _ _ _ | ByExpiry _ => LExpired
  | _ => LRevoked
  end.

(** Where a statement leaves the four tables of leases alone. *)
Definition beside (s s' : DB) : Prop :=
  desktop_leases s' = desktop_leases s /\ desktop_computer_epochs s' = desktop_computer_epochs s /\
  desktop_computer_revocations s' = desktop_computer_revocations s /\ agent_guest_sessions s' = agent_guest_sessions s /\
  List.map d_vmid (managed_desktops s') = List.map d_vmid (managed_desktops s).

Lemma closing_beside st s s' : beside s s' -> lease_inv s -> closing st (fun _ => false) s s'.
Proof. intros (? & ? & ? & ? & ?). by apply closing_quiet. Qed.

Lemma closing_after st q s s1 s' : st <> LActive -> beside s s1 -> lease_inv s -> (lease_inv s1 -> closing st q s1 s') -> closing st q s s'.
Proof.
  intros Hst Hb HI H. pose proof (closing_beside st s s1 Hb HI) as H1.
  exact (closing_trans st (fun _ => false) q s s1 s' Hst H1 (H (cl_inv _ _ _ _ H1))).
Qed.

Lemma delete_user_assignment_beside now subjectID vmid mode s n s' : delete_user_assignment now subjectID vmid mode s = inr (n, s') -> beside s s'.
Proof.
  unfold delete_user_assignment. destruct (mode == Personal); intros H; [inv_tx | unfold delete_count in H; inv_tx]; split_and!; try done.
  cbn. unfold update_where. rewrite List.map_map. apply map_ext. intros d. by destruct (_ && _).
Qed.

Lemma itoa_injective a b : itoa a = itoa b -> a = b.
Proof.
  intros E. destruct (Z.ltb_spec a 0) as [Ha | Ha], (Z.ltb_spec b 0) as [Hb | Hb]; [| | | by apply itoa_inj].
  - unfold itoa in E. apply Z.ltb_lt in Ha as Ha', Hb as Hb'. rewrite Ha', Hb' in E. injection E as E%format_uint_inj. lia.
  - pose proof (itoa_digits b Hb) as Hd. rewrite <- E in Hd. unfold itoa in Hd. apply Z.ltb_lt in Ha. by rewrite Ha in Hd.
  - pose proof (itoa_digits a Ha) as Hd. rewrite E in Hd. unfold itoa in Hd. apply Z.ltb_lt in Hb. by rewrite Hb in Hd.
Qed.

Lemma unassigned s agent vmid :
  agent_desktop_access (s <| agent_desktop_assignments := delete_where (fun a => (aa_agent_id a == agent) && (aa_desktop_vmid a == vmid)) (agent_desktop_assignments s) |>)
    agent (by_text (itoa vmid)) = false.
Proof.
  unfold agent_desktop_access. apply exists_where_false. intros a Ha. cbn in Ha. apply in_delete_where in Ha as [_ Ha].
  destruct (aa_agent_id a == agent); [| done]. cbn in *. apply andb_false_iff. right. apply exists_where_false. intros d _.
  unfold by_text. destruct (d_vmid d == aa_desktop_vmid a) eqn:E1; [| done]. destruct (itoa (d_vmid d) == itoa vmid) eqn:E2; [| done].
  apply bool_decide_eq_true in E1, E2. apply itoa_injective in E2. apply bool_decide_eq_false in Ha. congruence.
Qed.

(** The UPDATE of an agent's assignment closes leases that have no grant left. *)
Lemma deleted_assignment_inv now subjectType subjectID vmid b s s' : lease_inv s ->
  DeleteDesktopAssignment now subjectType subjectID vmid s = inr (b, s') -> closing LRevoked (fun l => negb (lease_granted s' l)) s s'.
Proof.
  intros HI H. unfold DeleteDesktopAssignment in H. destruct (subjectType == "user"); [| destruct (subjectType == "agent"); [| destruct (subjectType == "group"); [| done]]].
  - inv_tx. destruct (_ && _) in *; inv_tx; [by eapply commit_leases |].
    eapply closing_after; [done | by eapply delete_user_assignment_beside | done |]. intros HI'. by eapply commit_leases.
  - inv_tx. rename select (delete_count _ _ _ _ = _) into Hd. unfold delete_count in Hd. inv_tx.
    destruct (_ == 0%nat) in *; inv_tx; [eapply closing_after; [done | | done |]; [| intros HI'; by eapply commit_leases]; by split_and! |].
    rename select (update_desktop_leases _ _ _ _ = _) into Hu. rename select (commitAccessChange _ _ = _) into Hc.
    match type of Hu with update_desktop_leases _ _ _ ?x = _ => set (s1 := x) in * end. match type of Hc with _ = inr (_, ?x) => rename x into s' end.
    assert (beside s s1) as Hb by by split_and!. assert (lease_inv s1) as HI1 by apply (closing_beside LRevoked _ _ Hb HI).
    assert (authz s' = authz s1) as Ha.
    { apply commit_inr in Hc as (? & ? & _ & _ & _ & _ & ->). apply update_leases_inr in Hu as (Hf & _). by apply lease_frame_authz. }
    eapply closing_after; [done | exact Hb | done | intros _].
    apply (closing_update now LRevoked) in Hu; [| done | intros ? ?; b2p; tauto | done | done].
    apply commit_leases in Hc; [| apply Hu]. eapply closing_ext; [| by eapply closing_trans].
    intros o _ Hact. cbn. rewrite Hact. destruct (_ && _) eqn:E; [| done]. b2p. destruct E as [[Hag Hd] _].
    unfold lease_granted. rewrite (agent_access_authz s1 s' _ _ Ha), Hag, Hd. unfold s1. by rewrite unassigned.
  - inv_tx. rename select (delete_count _ _ _ _ = _) into Hd. unfold delete_count in Hd. inv_tx.
    eapply closing_after; [done | | done |]; [| intros HI'; by eapply commit_leases]. by split_and!.
Qed.

(** An UPDATE of active leases closes those. *)
Ltac close_by st Hu :=
  apply (closing_update _ st) in Hu; [| done | intros ? ?; b2p; tauto | done | done];
  eapply closing_ext; [| exact Hu]; intros o _ Ha; cbn; rewrite ?Ha, ?(bool_decide_true (LActive = LActive)), ?andb_true_r by done; try done.

Lemma closing_inv now c s s' : lease_inv s -> run_closing now c s = inr (tt, s') -> closing (closed_state c) (must_close now c s s') s s'.
Proof.
  intros HI. destruct c as [| id | st sid vmid | id agent desktop expires | id | vmid | vmid | item]; cbn [run_closing closed_state]; intros E.
  - eapply closing_ext; [| by eapply commit_leases]. done.
  - unfold SetAgentEnabled in E. inv_tx. rename select (update_returning _ _ _ _ _ _ = _) into Hr. apply update_returning_inr in Hr as (-> & _).
    rename select (update_desktop_leases _ _ _ _ = _) into Hu.
    match type of Hu with update_desktop_leases _ _ _ ?x = _ => apply (closing_after _ _ s x) end; [done | by split_and! | done | intros HI1]. close_by LRevoked Hu.
  - inv_tx. eapply closing_ext; [| by eapply deleted_assignment_inv]. done.
  - inv_tx. rename select (CreateDesktopLease _ _ _ _ _ _ = _) into Hc. apply CreateDesktopLease_inr in Hc as (L & s1 & _ & _ & Hu & Hi).
    apply (closing_update now LExpired) in Hu; [| done | unfold expire_leases; intros ? ?; b2p; tauto | done | done].
    apply (closing_insert now LExpired) in Hi; [| done | apply Hu]. eapply closing_ext; [| by eapply closing_trans].
    intros o _ Ha. cbn. unfold expire_leases. by rewrite Ha, orb_false_r.
  - unfold ReleaseDesktopLease, close_leases in E. inv_tx. rename select (update_desktop_leases _ _ _ _ = _) into Hu. close_by LReleased Hu.
  - unfold RevokeDesktopLeases, close_leases in E. inv_tx. rename select (update_desktop_leases _ _ _ _ = _) into Hu. close_by LRevoked Hu.
  - unfold QueueExpiredComputerLeases, close_leases in E. inv_tx. rename select (update_desktop_leases _ _ _ _ = _) into Hu. close_by LExpired Hu.
  - unfold QueueAgentGuestSessionRevocation in E. inv_tx. rename select (update_desktop_leases _ _ _ _ = _) into Hu. close_by LRevoked Hu.
Qed.

(** Closing a lease fences it (C10), whichever operation of the store does it:
    an authorization change, the disabling of an agent, a deleted assignment,
    a new lease that displaces expired ones, a release, a revocation, the scan
    for expired leases, or a failed Guest session.  Exactly the active leases
    that the operation is about are closed; each gets a strictly higher epoch,
    a queued revocation of the agent's authority for at least that epoch, and
    no live guest session; the fencing invariant holds again. *)
Theorem lease_closures_fence now c s s' (Hinv : lease_inv s) (Hrun : run_closing now c s = inr (tt, s')) :
  lease_inv s' /\ epochs_grow s s' /\
  forall o, In o (desktop_leases s) -> l_state o = LActive ->
    if must_close now c s s' o then closed_and_fenced s' o (closed_state c) else In o (desktop_leases s').
Proof.
  destruct (closing_inv now c s s' Hinv Hrun) as [HI Hg Hc Hk _]. split_and!; [done.. |].
  intros o Ho Ha. destruct (must_close now c s s' o) eqn:E; [by apply Hc | apply Hk; [done | by right]].
Qed.
End closings.

#[local] Existing Instance demo_collation.

Definition demo_unassigned : DB := state_of (run_closing 5 (ByDeletedAssignment "agent" "ag1" 102)) demo_db.

Lemma lease_closures_fence_witness :
  run_closing 5 (ByDeletedAssignment "agent" "ag1" 102) demo_db = inr (tt, demo_unassigned) /\
  must_close 5 (ByDeletedAssignment "agent" "ag1" 102) demo_db demo_unassigned lease1 = true /\
  if must_close 5 (ByDeletedAssignment "agent" "ag1" 102) demo_db demo_unassigned lease1
  then closed_and_fenced demo_unassigned lease1 LRevoked else In lease1 (desktop_leases demo_unassigned).
Proof.
  split; [vm_compute; reflexivity |]. split; [vm_compute; reflexivity |].
  apply (lease_closures_fence 5 (ByDeletedAssignment "agent" "ag1" 102) demo_db demo_unassigned demo_lease_inv);
    [vm_compute; reflexivity | left; reflexivity | reflexivity].
Defined.
