(* ===== verification/StoreSession.v ===== *)
(** * Login sessions, tokens and one-time codes ([internal/store/session_issuance.go], [store.go])

    Web and native sessions, API tokens, OIDC requests and native
    authorization codes.  [now] is the database clock; [clock] is Go's
    [time.Now()] where the code consults it. *)
From stdpp Require Import base strings list.
From Stdlib Require Import ZArith Lia Ascii.
From S2P Require Import Prelude GoStrings Db Demo Triggers TriggerLemmas StoreAccess StoreAccessProofs.

Local Open Scope string_scope.
Local Open Scope list_scope.
Local Open Scope Z_scope.

Record Session : Set := MkSession {
  SessionUser : UserInfo;
  CSRFToken : string;
  SessionExpiresAt : time;
  AuthKind : string;
  CredentialID : string
}.

Record APITokenInfo : Set := MkAPITokenInfo {
  TokenID : string;
  TokenName : string;
  TokenExpiresAt : time;
  TokenCreatedAt : time;
  LastUsedAt : option time
}.

Definition api_token_info (t : APIToken) : APITokenInfo :=
  MkAPITokenInfo (at_id t) (at_name t) (at_expires_at t) (at_created_at t) (at_last_used_at t).

Section sessions.
Context `{UnicodeLower} (now : time).

Definition insert_web_session (w : WebSession) : tx DB unit :=
  s ← tget;
  ensure (negb (exists_where (fun v => ws_token_digest v == ws_token_digest w) (web_sessions s))) (ErrPg UniqueViolation);;
  references (user_exists s (ws_user_id w));;
  tmod (fun s => s <| web_sessions := web_sessions s ++ [w] |>).

Definition insert_native_session (n : NativeSession) : tx DB unit :=
  s ← tget;
  ensure (negb (exists_where (fun v => ns_token_digest v == ns_token_digest n) (native_sessions s)))
    (ErrPg UniqueViolation);;
  references (user_exists s (ns_user_id n));;
  tmod (fun s => s <| native_sessions := native_sessions s ++ [n] |>).

(** ** Issuing a session for a verified login *)
Definition createVerifiedLoginSession (clock : time) (digest : bytes) (user : UserInfo) (csrf : string)
  (expiresAt : time) (native : bool) : tx DB unit :=
  s ← tget;
  let current := exists_where (fun u => (u_id u == UserID user) && negb (u_disabled u) &&
                    (coalesce (u_password_hash u) == PasswordHash user)) (users s) in
  ensure (current && (clock <? expiresAt)) ErrNotFound;;
  if native then insert_native_session (MkNativeSession digest (UserID user) expiresAt now)
  else insert_web_session (MkWebSession digest (UserID user) csrf expiresAt now).

Definition CreateSessionForVerifiedUser (clock : time) (digest : bytes) (user : UserInfo) (csrf : string)
  (expiresAt : time) : tx DB unit := createVerifiedLoginSession clock digest user csrf expiresAt false.
Definition CreateNativeSessionForVerifiedUser (clock : time) (digest : bytes) (user : UserInfo)
  (expiresAt : time) : tx DB unit := createVerifiedLoginSession clock digest user "" expiresAt true.

Definition CreateSession (tokenDigest : bytes) (userID csrfToken : string) (expiresAt : time) : tx DB unit :=
  insert_web_session (MkWebSession tokenDigest userID csrfToken expiresAt now).
Definition CreateNativeSession (tokenDigest : bytes) (userID : string) (expiresAt : time) : tx DB unit :=
  insert_native_session (MkNativeSession tokenDigest userID expiresAt now).

(** ** Looking sessions up *)
Definition enabled_user (s : DB) (id : string) : option User :=
  select_one (fun u => (u_id u == id) && negb (u_disabled u)) (users s).

Definition web_session_row (s : DB) (digest : bytes) : option (WebSession * User) :=
  w ← select_one (fun w => (ws_token_digest w == digest) && (now <? ws_expires_at w)) (web_sessions s);
  u ← enabled_user s (ws_user_id w);
  Some (w, u).

Definition SessionByToken (tokenDigest : bytes) : tx DB Session :=
  s ← tget;
  r ← trow (web_session_row s tokenDigest) ErrNotFound;
  tmod (fun s => s <| web_sessions :=
    update_where (fun w => ws_token_digest w == tokenDigest) (fun w => w <| ws_last_seen_at := now |>)
      (web_sessions s) |>);;
  mret (MkSession (user_info (snd r)) (ws_csrf_token (fst r)) (ws_expires_at (fst r)) "web" "").

Definition DeleteSession (tokenDigest : bytes) : tx DB unit :=
  tmod (fun s => s <| web_sessions := delete_where (fun w => ws_token_digest w == tokenDigest) (web_sessions s) |>).

Definition native_session_row (s : DB) (digest : bytes) : option (NativeSession * User) :=
  n ← select_one (fun n => (ns_token_digest n == digest) && (now <? ns_expires_at n)) (native_sessions s);
  u ← enabled_user s (ns_user_id n);
  Some (n, u).

Definition NativeSessionByToken (tokenDigest : bytes) : tx DB UserInfo :=
  s ← tget;
  r ← trow (native_session_row s tokenDigest) ErrNotFound;
  tmod (fun s => s <| native_sessions :=
    update_where (fun n => ns_token_digest n == tokenDigest) (fun n => n <| ns_last_seen_at := now |>)
      (native_sessions s) |>);;
  mret (user_info (snd r)).

(** ** API tokens *)
Definition CreateAPIToken (userID id name : string) (expiresAt : time) (tokenDigest : bytes) : tx DB APITokenInfo :=
  let row := MkAPIToken id userID name tokenDigest expiresAt now None in
  s ← tget;
  check ((1 <=? slen name) && (slen name <=? 80));;
  ensure (negb (exists_where (fun t => (at_id t == id) || (at_token_digest t == tokenDigest)) (api_tokens s)))
    ErrConflict;;
  references (user_exists s userID);;
  tmod (fun s => s <| api_tokens := api_tokens s ++ [row] |>);;
  mret (api_token_info row).

Definition DeleteAPIToken (userID id : string) : tx DB bool :=
  n ← delete_count api_tokens (fun t s => s <| api_tokens := t |>)
        (fun t => (at_id t == id) && (at_user_id t == userID));
  mret (bool_decide (n = 1%nat)).

(** The [matched] CTE marks the token used even when the join with an
    enabled user finds no row: the statement commits, the lookup fails. *)
Definition SessionByAPIToken (tokenDigest : bytes) : tx DB (result Session) :=
  s ← tget;
  let p t := (at_token_digest t == tokenDigest) && (now <? at_expires_at t) in
  tmod (fun s => s <| api_tokens := update_where p (fun t => t <| at_last_used_at := Some now |>) (api_tokens s) |>);;
  mret (match (t ← select_one p (api_tokens s); u ← enabled_user s (at_user_id t); Some (t, u)) with
        | Some (t, u) => inr (MkSession (user_info u) "" (at_expires_at t) "api_token" (at_id t))
        | None => inl ErrNotFound
        end).

(** ** One-time requests and codes *)
Definition EnsureOIDCProvider (id name issuer clientID : string) : tx DB unit :=
  s ← tget;
  ensure (negb (exists_where (fun p => (op_id p != id) && (op_issuer p == issuer)) (oidc_providers s)))
    (ErrPg UniqueViolation);;
  tmod (fun s => s <| oidc_providers :=
    upsert (fun p => op_id p == id)
      (fun p => p <| op_name := name; op_issuer := issuer; op_client_id := clientID; op_enabled := true;
                     op_updated_at := now |>)
      (MkOIDCProvider id name issuer clientID true now) (oidc_providers s) |>).

Definition CreateOIDCRequest (stateDigest : bytes) (nonce pkceVerifier clientKind : string) (expiresAt : time)
  : tx DB (result unit) :=
  tmod (fun s => s <| oidc_auth_requests := delete_where (fun r => or_expires_at r <=? now) (oidc_auth_requests s) |>);;
  attempt (
    s ← tget;
    ensure (negb (exists_where (fun r => or_state_digest r == stateDigest) (oidc_auth_requests s)))
      (ErrPg UniqueViolation);;
    tmod (fun s => s <| oidc_auth_requests := oidc_auth_requests s ++
      [MkOIDCRequest stateDigest nonce pkceVerifier clientKind expiresAt] |>)).

Definition ConsumeOIDCRequest (stateDigest : bytes) : tx DB (string * string * string) :=
  t ← tgets oidc_auth_requests;
  let p r := (or_state_digest r == stateDigest) && (now <? or_expires_at r) in
  r ← trow (select_one p t) ErrNotFound;
  tmod (fun s => s <| oidc_auth_requests := delete_where p t |>);;
  mret (or_nonce r, or_pkce_verifier r, or_client_kind r).

Definition CreateNativeAuthCode (codeDigest : bytes) (userID : string) (expiresAt : time) : tx DB (result unit) :=
  tmod (fun s => s <| native_auth_codes := delete_where (fun c => nc_expires_at c <=? now) (native_auth_codes s) |>);;
  attempt (
    s ← tget;
    ensure (negb (exists_where (fun c => nc_code_digest c == codeDigest) (native_auth_codes s))) (ErrPg UniqueViolation);;
    references (user_exists s userID);;
    tmod (fun s => s <| native_auth_codes := native_auth_codes s ++ [MkAuthCode codeDigest userID expiresAt] |>)).

(** The [consumed] CTE deletes the code whether or not its user is found. *)
Definition ConsumeNativeAuthCode (codeDigest : bytes) : tx DB (result UserInfo) :=
  s ← tget;
  let p c := (nc_code_digest c == codeDigest) && (now <? nc_expires_at c) in
  tmod (fun s => s <| native_auth_codes := delete_where p (native_auth_codes s) |>);;
  mret (match (c ← select_one p (native_auth_codes s);
               select_one (fun u => u_id u == nc_user_id c) (users s)) with
        | Some u => inr (user_info u)
        | None => inl ErrNotFound
        end).

(** ** OIDC accounts *)
Definition oidc_username (s : DB) (proposed : UserInfo) : string :=
  if exists_where (fun u => u_username_normalized u == ToLower (Username proposed)) (users s)
  then Username proposed +:+ "-" +:+
       ToLower (if 8 <? slen (UserID proposed) then str_take 8 (UserID proposed) else UserID proposed)
  else Username proposed.

Definition ResolveOIDCUser (providerID subject : string) (proposed : UserInfo) : tx DB UserInfo :=
  s ← tget;
  match (e ← select_one (fun e => (ei_provider_id e == providerID) && (ei_subject e == subject)) (external_identities s);
         select_one (fun u => u_id u == ei_user_id e) (users s)) with
  | Some u => mret (user_info u)
  | None =>
      let username := oidc_username s proposed in
      insert_user (MkUser (UserID proposed) username (ToLower username) (UserDisplayName proposed) None RegularUser
                     false now now);;
      s ← tget;
      ensure (negb (exists_where (fun e => (ei_provider_id e == providerID) && (ei_subject e == subject))
                      (external_identities s))) (ErrPg UniqueViolation);;
      references (provider_exists s (Some providerID) && user_exists s (UserID proposed));;
      tmod (fun s => s <| external_identities := external_identities s ++
        [MkExternalIdentity providerID subject (UserID proposed)] |>);;
      mret (MkUserInfo (UserID proposed) username (UserDisplayName proposed) (PasswordHash proposed) RegularUser
              (UserDisabled proposed) (UserCreatedAt proposed))
  end.
End sessions.

(** * Credentials die with the account

    Disabling a user, resetting a password and consuming a one-time secret:
    after the transaction commits the old credential can neither be looked up
    nor turned into a new session. *)

Section lockout.
Implicit Types (s : DB) (id : string).

(** Every account lookup goes through an enabled user row. *)
Lemma enabled_user_some s id u : enabled_user s id = Some u -> In u (users s) /\ u_id u = id /\ u_disabled u = false.
Proof. intros Hu. apply select_one_some in Hu. b2p. tauto. Qed.

Definition no_enabled_user s id : Prop := forall u, In u (users s) -> u_id u = id -> u_disabled u = true.

Lemma no_enabled_user_none s id : no_enabled_user s id -> enabled_user s id = None.
Proof.
  intros Hn. destruct (enabled_user s id) as [u |] eqn:E; [| done]. apply enabled_user_some in E as (Hu & Hi & Hd).
  rewrite (Hn _ Hu Hi) in Hd. done.
Qed.

Lemma no_enabled_user_access s id v : no_enabled_user s id -> effective_user_desktop_access s id v = false.
Proof.
  intros Hn. unfold effective_user_desktop_access. apply andb_false_iff. left. apply exists_where_false.
  intros u Hu. apply andb_false_iff. case_bool_decide as E; [right | by left]. rewrite (Hn _ Hu E). done.
Qed.

(** A user without an enabled row opens no session by any door. *)
Definition locked_out s id : Prop :=
  (forall t dg x s', SessionByToken t dg s = inr (x, s') -> UserID (SessionUser x) <> id) /\
  (forall t dg x s', NativeSessionByToken t dg s = inr (x, s') -> UserID x <> id) /\
  (forall t dg x s', SessionByAPIToken t dg s = inr (inr x, s') -> UserID (SessionUser x) <> id) /\
  (forall t clock dg x csrf e native, UserID x = id ->
     createVerifiedLoginSession t clock dg x csrf e native s = inl ErrNotFound).

Lemma no_enabled_user_locked_out s id : no_enabled_user s id -> locked_out s id.
Proof.
  intros Hn. assert (forall u i, enabled_user s i = Some u -> u_id u <> id) as Hu.
  { intros u i E Hi. apply enabled_user_some in E as (Hin & <- & Hd). rewrite (Hn _ Hin Hi) in Hd. done. }
  split_and!.
  - intros t dg x s' E. unfold SessionByToken in E. inv_tx.
    match goal with E : web_session_row _ _ _ = Some _ |- _ =>
      unfold web_session_row in E; apply bind_Some in E as (w & _ & E); apply bind_Some in E as (u & E & [= <-]) end.
    simpl. eauto.
  - intros t dg x s' E. unfold NativeSessionByToken in E. inv_tx.
    match goal with E : native_session_row _ _ _ = Some _ |- _ =>
      unfold native_session_row in E; apply bind_Some in E as (w & _ & E); apply bind_Some in E as (u & E & [= <-]) end.
    simpl. eauto.
  - intros t dg x s' E. unfold SessionByAPIToken in E. inv_tx.
    match goal with E : match ?o with _ => _ end = inr _ |- _ => destruct o as [[w u] |] eqn:Eo; [| done];
      injection E as <- end.
    apply bind_Some in Eo as (w' & _ & Eo). apply bind_Some in Eo as (u' & Eo & [= <- <-]). simpl. eauto.
  - intros t clock dg x csrf e native Hx. unfold createVerifiedLoginSession, mbind, tx_bind, tget.
    match goal with |- context [exists_where ?p ?l] => destruct (exists_where p l) eqn:E; [exfalso | done] end.
    apply exists_where_true in E as (u & Hin & Hp). b2p. destruct Hp as [[Hi Hd] _].
    rewrite (Hn u) in Hd by congruence. done.
Qed.

(** Nothing the user once obtained by logging in is left. *)
Definition no_credential s id : Prop :=
  (forall w, In w (web_sessions s) -> ws_user_id w <> id) /\
  (forall n, In n (native_sessions s) -> ns_user_id n <> id) /\
  (forall n, In n (native_auth_codes s) -> nc_user_id n <> id).

Lemma disable_users id f t : (forall u, u_id (f u) = u_id u /\ u_disabled (f u) = true) ->
  forall u, In u (update_where (fun u => u_id u == id) f t) -> u_id u = id -> u_disabled u = true.
Proof.
  intros Hf u Hu Hi. apply in_update_where in Hu as (u0 & _ & ->). case_bool_decide as E; [apply Hf | done].
Qed.

Lemma SetUserDisabled_users now id s a s' :
  SetUserDisabled now id true s = inr (a, s') -> no_enabled_user s' id /\ no_credential s' id /\ conns_authorized s' /\ bindings_authorized s'.
Proof.
  unfold SetUserDisabled. intros E. inv_tx.
  match goal with E : update_returning _ _ _ _ _ _ = _ |- _ => apply update_returning_inr in E as (-> & _) end.
  match goal with E : update_desktop_connections _ _ _ = _ |- _ => apply update_connections_inr in E as (-> & _) end.
  match goal with E : commitAccessChange _ _ = _ |- _ => rename E into Hc end. split_and!.
  - intros u Hu Hi. pose proof (commit_get users _ _ _ _ (fun _ => eq_refl) Hc) as EU.
    rewrite EU in Hu. simpl in Hu. eapply disable_users; [| exact Hu | exact Hi]. done.
  - pose proof (commit_get web_sessions _ _ _ _ (fun _ => eq_refl) Hc) as EW.
    pose proof (commit_get native_sessions _ _ _ _ (fun _ => eq_refl) Hc) as EN.
    pose proof (commit_get native_auth_codes _ _ _ _ (fun _ => eq_refl) Hc) as EC.
    split_and!; intros r Hr Hi; [rewrite EW in Hr | rewrite EN in Hr | rewrite EC in Hr];
      apply in_delete_where in Hr as [_ Hr]; b2p; done.
  - by eapply closed_conns_authorized, commit_conns.
  - by eapply commit_bindings_authorized.
Qed.
End lockout.

(** Disabling a user locks the account out of every door at once (C8): its web
    sessions, native sessions and pending login codes are deleted, no web,
    native or API-token lookup returns it, no verified login mints a session
    for it, it keeps no active connection and no live guest binding. *)
Theorem SetUserDisabled_locks_out now id s a s' :
  SetUserDisabled now id true s = inr (a, s') ->
  locked_out s' id /\ no_credential s' id /\
  (forall c, In c (desktop_connection_sessions s') -> c_user_id c = id -> c_state c <> CActive) /\
  (forall b, In b (guest_identity_bindings s') -> b_user_id b = id -> b_state b = BDisabled).
Proof.
  intros E. apply SetUserDisabled_users in E as (Hn & Hg & Hc & Hb). split; [| split; [exact Hg |]; split].
  - by apply no_enabled_user_locked_out.
  - intros c Hin Hid Ha. specialize (Hc c Hin Ha). rewrite Hid, no_enabled_user_access in Hc by done. done.
  - intros b Hin Hid. destruct (decide (b_state b = BDisabled)) as [| Hd]; [done |].
    specialize (Hb b Hin Hd). rewrite Hid, no_enabled_user_access in Hb by done. done.
Qed.

Lemma SetUserDisabled_locks_out_witness :
  exists a s', SetUserDisabled 5 "alice" true demo_db = inr (a, s') /\
    locked_out s' "alice" /\ length (desktop_connection_sessions s') = 1%nat.
Proof.
  eexists _, _. split; [vm_compute; reflexivity |]. split; [| reflexivity].
  refine (proj1 (SetUserDisabled_locks_out 5 "alice" demo_db _ _ _)). vm_compute. reflexivity.
Defined.

(** ** Password reset *)
Lemma commit_keeps_queued now s u s' b :
  commitAccessChange now s = inr (u, s') ->
  queued b (guest_identity_revocations s) = true -> queued b (guest_identity_revocations s') = true.
Proof.
  intros H Hq. apply commit_inr in H as (s1 & s2 & H & -> & _ & Hf & _). apply queue_inr in H as ->.
  rewrite (lease_frame_get guest_identity_revocations _ _ (fun _ => eq_refl) Hf). by apply enqueue_all_keeps.
Qed.

(** A commit only ever disables bindings, never renames or revives them. *)
Lemma commit_binding_origin now s u s' b :
  commitAccessChange now s = inr (u, s') -> In b (guest_identity_bindings s') ->
  exists b0, In b0 (guest_identity_bindings s) /\ b_user_id b = b_user_id b0 /\ b_desktop_vmid b = b_desktop_vmid b0 /\
    b_guest_username b = b_guest_username b0 /\ (b_state b0 = BDisabled -> b_state b = BDisabled).
Proof.
  intros H Hb. apply commit_inr in H as (s1 & s2 & H & -> & _ & Hf & _). apply queue_inr in H as ->.
  rewrite (lease_frame_get guest_identity_bindings _ _ (fun _ => eq_refl) Hf) in Hb. simpl in Hb.
  apply in_update_where in Hb as (b0 & Hb0 & ->). exists b0. destruct (_ && _); split_and!; done.
Qed.

Lemma commit_conn_origin now s u s' c :
  commitAccessChange now s = inr (u, s') -> In c (desktop_connection_sessions s') ->
  exists c0, In c0 (desktop_connection_sessions s) /\ c_user_id c = c_user_id c0 /\ c_id c = c_id c0 /\
    c_desktop_vmid c = c_desktop_vmid c0 /\ (c_state c = CActive -> c = c0).
Proof.
  intros H Hc. apply commit_inr in H as (s1 & s2 & H & -> & _ & Hf & _).
  rewrite (lease_frame_get desktop_connection_sessions _ _ (fun _ => eq_refl) Hf) in Hc. simpl in Hc.
  apply in_update_where in Hc as (c0 & Hc0 & ->). exists c0. destruct (_ && _); split_and!; done.
Qed.

Section password.
Context (now : time) (id passwordHash : string) (retained : bytes).

Lemma SetUserPassword_inr s a s' :
  SetUserPassword now id passwordHash retained s = inr (a, s') ->
  exists s1, commitAccessChange now s1 = inr (tt, s') /\
    users s1 = update_where (fun u => (u_id u == id) && (u_password_hash u != None))
      (fun u => u <| u_password_hash := Some passwordHash; u_updated_at := now |>) (users s) /\
    (exists u, In u (users s) /\ u_id u = id /\ u_password_hash u <> None) /\
    web_sessions s1 = delete_where (fun w => (ws_user_id w == id) &&
      (if slen retained =? 0 then true else ws_token_digest w != retained)) (web_sessions s) /\
    native_sessions s1 = delete_where (fun n => ns_user_id n == id) (native_sessions s) /\
    native_auth_codes s1 = delete_where (fun n => nc_user_id n == id) (native_auth_codes s) /\
    desktop_connection_sessions s1 = update_where (fun c => (c_user_id c == id) && conn_open c)
      (fun c => c <| c_state := CRevoking; c_termination_required := true; c_updated_at := now |>)
      (desktop_connection_sessions s) /\
    (let f (b : GuestIdentityBinding) := b <| b_state := BDisabled; b_updated_at := now |> in
     let p (b : GuestIdentityBinding) := b_user_id b == id in
     guest_identity_bindings s1 = update_where p f (guest_identity_bindings s) /\
     guest_identity_revocations s1 = enqueue_all now CredentialRevoked
       (List.map f (rows p (guest_identity_bindings s))) (guest_identity_revocations s)).
Proof.
  unfold SetUserPassword. intros E. inv_tx.
  match goal with E : update_returning _ _ _ _ _ _ = _ |- _ => apply update_returning_inr in E as (-> & Hu) end.
  match goal with E : update_desktop_connections _ _ _ = _ |- _ => apply update_connections_inr in E as (-> & _) end.
  match goal with E : queueGuestIdentityRevocations _ _ _ _ = _ |- _ => apply queue_inr in E as -> end.
  match goal with E : commitAccessChange _ _ = inr (?u, _) |- _ => destruct u; eexists; split; [exact E |] end.
  split_and!; try done. destruct Hu as (u & Hu & Hp & _). b2p. exists u. tauto.
Qed.

(** A login verified against another hash does not become a session. *)
Lemma SetUserPassword_stale s a s' t clock dg x csrf e native :
  unique u_id (users s) ->
  SetUserPassword now id passwordHash retained s = inr (a, s') ->
  UserID x = id -> PasswordHash x <> passwordHash ->
  createVerifiedLoginSession t clock dg x csrf e native s' = inl ErrNotFound.
Proof.
  intros HU E Hid Hh. apply SetUserPassword_inr in E as (s1 & Hc & Hu & (u0 & Hu0 & Hi0 & Hp0) & _).
  unfold createVerifiedLoginSession, mbind, tx_bind, tget.
  match goal with |- context [exists_where ?p ?l] => destruct (exists_where p l) eqn:E; [exfalso | done] end.
  apply exists_where_true in E as (u & Hin & Hp). b2p. destruct Hp as [[Hi _] Hh'].
  rewrite (commit_get users _ _ _ _ (fun _ => eq_refl) Hc), Hu in Hin.
  apply in_update_where in Hin as (u1 & Hin & ->). destruct (_ && _) eqn:E; simpl in *; [congruence |].
  assert (u1 = u0) as -> by (eapply unique_inj; eauto; congruence). b2p. destruct E; congruence.
Qed.
End password.

(** A password reset revokes everything but the retained web session: no
    other web session, no native session, no pending login code survives, a
    login checked against the old hash mints nothing, no connection stays
    active, and every guest account of the user is disabled and queued. *)
Theorem SetUserPassword_revokes now id hash retained s a s' :
  unique u_id (users s) -> queue_wf (guest_identity_revocations s) ->
  SetUserPassword now id hash retained s = inr (a, s') ->
  (forall w, In w (web_sessions s') -> ws_user_id w = id -> retained <> "" /\ ws_token_digest w = retained) /\
  (forall n, In n (native_sessions s') -> ns_user_id n <> id) /\
  (forall n, In n (native_auth_codes s') -> nc_user_id n <> id) /\
  (forall t clock dg x csrf e native, UserID x = id -> PasswordHash x <> hash ->
     createVerifiedLoginSession t clock dg x csrf e native s' = inl ErrNotFound) /\
  (forall c, In c (desktop_connection_sessions s') -> c_user_id c = id -> c_state c <> CActive) /\
  (forall b, In b (guest_identity_bindings s') -> b_user_id b = id ->
     b_state b = BDisabled /\ queued b (guest_identity_revocations s') = true).
Proof.
  intros HU HW E. pose proof E as E0. apply SetUserPassword_inr in E as (s1 & Hc & _ & _ & Hws & Hns & Hnc & Hcs & Hb & Hq).
  split_and!.
  - intros w Hw Hi. rewrite (commit_get web_sessions _ _ _ _ (fun _ => eq_refl) Hc), Hws in Hw.
    apply in_delete_where in Hw as [_ Hw]. rewrite Hi, bool_decide_true in Hw by done. simpl in Hw.
    destruct (Z.eqb_spec (slen retained) 0) as [| Hr]; [done |]. b2p. split; [intros -> | done]. by apply Hr.
  - intros n Hn Hi. rewrite (commit_get native_sessions _ _ _ _ (fun _ => eq_refl) Hc), Hns in Hn.
    apply in_delete_where in Hn as [_ Hn]. b2p. done.
  - intros n Hn Hi. rewrite (commit_get native_auth_codes _ _ _ _ (fun _ => eq_refl) Hc), Hnc in Hn.
    apply in_delete_where in Hn as [_ Hn]. b2p. done.
  - intros. by eapply SetUserPassword_stale.
  - intros c Hin Hi Ha. eapply commit_conn_origin in Hin as (c0 & Hc0 & _ & _ & _ & E); [| exact Hc].
    specialize (E Ha). subst c0. rewrite Hcs in Hc0. apply in_update_where in Hc0 as (c1 & _ & Ec).
    destruct ((c_user_id c1 == id) && conn_open c1) eqn:Ep; [by rewrite Ec in Ha |]. subst c1.
    unfold conn_open in Ep. rewrite Ha, Hi, bool_decide_true in Ep by done. discriminate.
  - intros b Hin Hi. eapply commit_binding_origin in Hin as (b0 & Hb0 & Eu & Ev & En & Ed); [| exact Hc].
    rewrite Hb in Hb0. apply in_update_where in Hb0 as (b1 & Hb1 & ->).
    destruct (b_user_id b1 == id) eqn:Ep; [| b2p; congruence]. split; [by apply Ed |].
    eapply commit_keeps_queued; [exact Hc |]. rewrite Hq. simpl in *.
    assert (forall Q, queued b Q = queued (b1 <| b_state := BDisabled; b_updated_at := now |>) Q) as Hsame.
    { intros Q. unfold queued, q_names. simpl. by rewrite Ev, Eu, En. }
    rewrite Hsame. apply enqueue_all_queued; [done |].
    apply (in_map (fun b : GuestIdentityBinding => b <| b_state := BDisabled; b_updated_at := now |>)).
    by apply filter_In.
Qed.

Lemma SetUserPassword_revokes_witness :
  exists a s', SetUserPassword 5 "alice" "hash-new" (digest "w") demo_db = inr (a, s') /\
    (forall w, In w (web_sessions s') -> ws_user_id w = "alice" -> digest "w" <> "" /\ ws_token_digest w = digest "w") /\
    length (web_sessions s') = 1%nat.
Proof.
  eexists _, _. split; [vm_compute; reflexivity |]. split; [| reflexivity].
  refine (proj1 (SetUserPassword_revokes 5 "alice" "hash-new" (digest "w") demo_db _ _ _ _ _)).
  - repeat constructor; simpl; intuition discriminate.
  - intros q [].
  - vm_compute. reflexivity.
Defined.

(** ** One-time secrets *)
Lemma delete_where_gone {R} (p p' : R -> bool) t :
  (forall r, p' r = true -> p r = true) -> select_one p' (delete_where p t) = None.
Proof.
  intros Hp. apply select_one_none, exists_where_false. intros r Hr. apply in_delete_where in Hr as [_ Hr].
  apply not_true_iff_false. intros E. rewrite (Hp _ E) in Hr. done.
Qed.

(** A state parameter of an OIDC login and a native authorization code are
    consumed at most once: once a consumption has committed, the same
    secret is refused at every later time. *)
Theorem one_time_secrets now now' dg s :
  now <= now' ->
  (forall r s', ConsumeOIDCRequest now dg s = inr (r, s') -> ConsumeOIDCRequest now' dg s' = inl ErrNotFound) /\
  (forall r s', ConsumeNativeAuthCode now dg s = inr (inr r, s') ->
     exists s'', ConsumeNativeAuthCode now' dg s' = inr (inl ErrNotFound, s'')).
Proof.
  intros Hle. split.
  - intros r s' E. unfold ConsumeOIDCRequest in E. inv_tx.
    unfold ConsumeOIDCRequest, mbind, tx_bind, tgets. simpl. rewrite delete_where_gone; [done |].
    intros x. rewrite !andb_true_iff, !Z.ltb_lt. intros []. split; [done | lia].
  - intros r s' E. unfold ConsumeNativeAuthCode in E. inv_tx.
    eexists. unfold ConsumeNativeAuthCode, mbind, tx_bind, tget, tmod. simpl. rewrite delete_where_gone; [done |].
    intros x. rewrite !andb_true_iff, !Z.ltb_lt. intros []. split; [done | lia].
Qed.

Lemma one_time_secrets_witness :
  let s := demo_db <| oidc_auth_requests := [MkOIDCRequest (digest "o") "nonce" "pkce" "web" hour] |> in
  exists r s', ConsumeOIDCRequest 5 (digest "o") s = inr (r, s') /\ ConsumeOIDCRequest 7 (digest "o") s' = inl ErrNotFound.
Proof.
  intros s. eexists _, _. split; [vm_compute; reflexivity |].
  eapply (proj1 (one_time_secrets 5 7 (digest "o") s ltac:(lia))). vm_compute. reflexivity.
Defined.
