(* ===== verification/StoreConn.v ===== *)
(** * Desktop connections and guest revocation ([internal/store/store.go], [guest_revocation.go])

    The life of a logical desktop connection
    (active -> revoking -> revoked/expired), and the durable queue that tells
    Guests to end an OS login.  [now] is the transaction time, [stmt] the
    statement timestamp, [clock] Go's [time.Now()]. *)
From stdpp Require Import base strings list.
From Stdlib Require Import ZArith Lia.
From S2P Require Import Prelude GoStrings Db Triggers TriggerLemmas StoreAccess.

Local Open Scope string_scope.
Local Open Scope list_scope.
Local Open Scope Z_scope.

(** The identity of a connection the caller asks for. *)
Record ConnectionRequest : Set := MkConnectionRequest {
  ConnID : string;
  ConnUserID : string;
  ConnVMID : Z;
  ConnGuestUsername : string;
  ConnExpiresAt : time
}.

Record RevocationItem : Set := MkRevocationItem {
  RevVMID : Z;
  RevUserID : string;
  RevGuestUsername : string;
  Revision : Z;
  Reason : revocation_reason
}.

Definition revocation_item (q : GuestIdentityRevocation) : RevocationItem :=
  MkRevocationItem (q_desktop_vmid q) (q_user_id q) (q_guest_username q) (q_requested_revision q) (q_reason q).

Definition reason_text (r : revocation_reason) : string :=
  match r with AccessRemoved => "access_removed" | CredentialRevoked => "credential_revoked" | ExpiredSession => "expired" end.

Section connections.
Context `{Collation} (now : time).

(** ** Creation *)
Definition insert_desktop_connection (row : DesktopConnectionSession) : tx DB DesktopConnectionSession :=
  check (match c_native_session_digest row with
         | Some dg => (1 <=? slen dg) && (slen dg <=? 128) | None => true end);;
  t ← tgets desktop_connection_sessions;
  ensure (connection_indexes (t ++ [row])) (ErrPg UniqueViolation);;
  tmod (fun s => s <| desktop_connection_sessions := t ++ [row] |>);;
  mret row.

Definition connection_allowed (s : DB) (r : ConnectionRequest) (nativeDigest : option bytes) (boundNative : bool) : bool :=
  effective_user_desktop_access s (ConnUserID r) (ConnVMID r) &&
  (match nativeDigest with
   | None => true
   | Some dg => exists_where (fun n => (ns_token_digest n == dg) && (ns_user_id n == ConnUserID r) &&
                  (now <? ns_expires_at n)) (native_sessions s)
   end) &&
  negb (guest_revocation_pending s (ConnVMID r)) &&
  (boundNative ||
   negb (exists_where (fun a => (a_desktop_vmid a == ConnVMID r) &&
           ((a_user_id a == ConnUserID r) || native_reservation a)) (native_guest_accounts s))).

Definition insertDesktopConnectionSession (r : ConnectionRequest) (nativeDigest : option bytes) (boundNative : bool)
  : tx DB DesktopConnectionSession :=
  s ← tget;
  ensure (connection_allowed s r nativeDigest boundNative) ErrNotFound;;
  c ← tcatch (insert_desktop_connection
        (MkDesktopConnectionSession (ConnID r) (ConnUserID r) (ConnVMID r) (ConnGuestUsername r) CActive
           (ConnExpiresAt r) now now None false nativeDigest)) unique_conflict;
  update_guest_identity_bindings (fun b => (b_desktop_vmid b == ConnVMID r) && (b_user_id b == ConnUserID r))
    (fun b => b <| b_session_expires_at := Some (ConnExpiresAt r); b_updated_at := now |>);;
  mret c.

Definition createDesktopConnectionSession (r : ConnectionRequest) (nativeDigest : option bytes) :=
  insertDesktopConnectionSession r nativeDigest false.
Definition CreateDesktopConnectionSession (r : ConnectionRequest) := createDesktopConnectionSession r None.

Definition CreateNativeDesktopConnectionSession (clock : time) (r : ConnectionRequest) (nativeDigest : bytes) :=
  ensure (negb ((slen nativeDigest =? 0) || negb (clock <? ConnExpiresAt r))) ErrNotFound;;
  createDesktopConnectionSession r (Some nativeDigest).

(** ** Revocation *)
Definition begin_revoke (p : DesktopConnectionSession -> bool) : tx DB (list DesktopConnectionSession) :=
  update_desktop_connections (fun c => p c && conn_open c)
    (fun c => c <| c_state := CRevoking; c_updated_at := now |>).

Definition BeginRevokeDesktopConnections (vmid : Z) := begin_revoke (fun c => c_desktop_vmid c == vmid).
Definition BeginRevokeUserDesktopConnections (userID : string) := begin_revoke (fun c => c_user_id c == userID).

Definition DesktopConnectionByID (id : string) : tx DB DesktopConnectionSession :=
  s ← tget;
  trow (select_one (fun c => c_id c == id) (desktop_connection_sessions s)) ErrNotFound.

Definition BeginRevokeDesktopConnection (id userID : string) : tx DB DesktopConnectionSession :=
  l ← begin_revoke (fun c => (c_id c == id) && (c_user_id c == userID));
  match l with
  | c :: _ => mret c
  | [] =>
      s ← tget;
      trow (select_one (fun c => (c_id c == id) && (c_user_id c == userID) &&
              ((c_state c == CRevoked) || (c_state c == CExpired))) (desktop_connection_sessions s)) ErrNotFound
  end.

(** A connection whose transport is gone: its own deadline, an unredeemed
    expired ticket, or a redeemed tunnel that closed or lost its lease. *)
Definition ticket_spent (stmt : time) (t : GatewayTicket) : bool :=
  match t_consumed_at t with
  | None => t_expires_at t <=? stmt
  | Some _ => (t_closed_at t != None) || (match t_lease_until t with Some l => l <=? stmt | None => false end)
  end.

Definition connection_due (stmt : time) (s : DB) (c : DesktopConnectionSession) : bool :=
  (c_state c == CRevoking) ||
  ((c_state c == CActive) &&
   ((c_expires_at c <=? stmt) ||
    exists_where (fun t => (t_connection_id t == c_id c) && ticket_spent stmt t) (gateway_session_tickets s))).

Definition due_limit (limit : Z) : Z := if (limit <=? 0) || (1000 <? limit) then 100 else limit.

Definition due_connections (stmt : time) (limit : Z) (s : DB) : list DesktopConnectionSession :=
  take (Z.to_nat (due_limit limit))
    (order_by (then_by (asc c_expires_at) (fun a b => text_le (c_id a) (c_id b)))
       (rows (connection_due stmt s) (desktop_connection_sessions s))).

Definition DesktopConnectionsDueForRevocation (stmt : time) (limit : Z) : tx DB (list DesktopConnectionSession) :=
  s ← tget;
  let due := due_connections stmt limit s in
  update_desktop_connections (fun c => existsb (fun d => c_id d == c_id c) due)
    (fun c => c <| c_state := CRevoking; c_updated_at := now |>).

Definition parse_terminal (state : string) : option connection_state :=
  if state == "revoked" then Some CRevoked else if state == "expired" then Some CExpired else None.

Definition MarkDesktopConnectionClosed (id state : string) : tx DB unit :=
  st ← trow (parse_terminal state) ErrInvalid;
  update_desktop_connections (fun c => (c_id c == id) && (c_state c == CRevoking))
    (fun c => c <| c_state := st; c_closed_at := Some now; c_updated_at := now |>);;
  mret tt.

(** ** Guest identity bindings *)
Definition PutGuestIdentityBinding (vmid : Z) (userID profileID guestUsername : string)
  (state : option binding_state) (lastError : string) : tx DB GuestIdentityBinding :=
  let st := default BProvisioning state in
  let row := MkGuestIdentityBinding vmid userID (nullif profileID) guestUsername st lastError now None in
  s ← tget;
  let same b := (b_desktop_vmid b == vmid) && (b_user_id b == userID) in
  if exists_where same (guest_identity_bindings s) then
    references (profile_exists s (nullif profileID));;
    l ← update_guest_identity_bindings same
          (fun b => b <| b_profile_id := nullif profileID; b_guest_username := guestUsername; b_state := st;
                         b_last_error := lastError; b_updated_at := now |>);
    trow (head l) ErrNoRows
  else
    let t := guest_identity_bindings s ++ [row] in
    ensure (binding_indexes t) (ErrPg UniqueViolation);;
    references (exists_where (by_vmid vmid) (managed_desktops s) && user_exists s userID &&
                profile_exists s (nullif profileID));;
    tmod (fun s => s <| guest_identity_bindings := t |>);;
    mret row.

Definition GuestIdentityBindingsForDesktop (vmid : Z) : tx DB (list GuestIdentityBinding) :=
  tgets (fun s => order_by (fun a b => text_le (b_guest_username a) (b_guest_username b))
                    (rows (fun b => b_desktop_vmid b == vmid) (guest_identity_bindings s))).

(** ** The guest revocation queue *)
Definition QueueExpiredGuestIdentitiesForDesktop (vmid : Z) : tx DB unit :=
  queueGuestIdentityRevocations now
    (fun b => (b_state b != BDisabled) &&
              (match b_session_expires_at b with Some e => e <=? now | None => false end) &&
              ((vmid =? 0) || (b_desktop_vmid b == vmid))) ExpiredSession.
Definition QueueExpiredGuestIdentities : tx DB unit := QueueExpiredGuestIdentitiesForDesktop 0.

Definition PendingGuestIdentityRevocations (vmid : Z) : tx DB (list RevocationItem) :=
  tgets (fun s => List.map revocation_item (take 100
    (order_by (then_by (asc q_updated_at) (then_by (asc q_desktop_vmid) (fun a b => text_le (q_user_id a) (q_user_id b))))
       (rows (fun q => q_pending q && ((vmid =? 0) || (q_desktop_vmid q == vmid))) (guest_identity_revocations s))))).

Definition item_current (item : RevocationItem) (q : GuestIdentityRevocation) : bool :=
  (q_desktop_vmid q == RevVMID item) && (q_user_id q == RevUserID item) &&
  (q_guest_username q == RevGuestUsername item) && (q_requested_revision q == Revision item) &&
  (q_completed_revision q <? Revision item).

Definition CompleteGuestIdentityRevocation (item : RevocationItem) : tx DB unit :=
  Q ← tgets guest_identity_revocations;
  tmod (fun s => s <| guest_identity_revocations :=
    update_where (item_current item)
      (fun q => q <| q_completed_revision := Revision item; q_last_error := ""; q_updated_at := now |>) Q |>);;
  ensure (bool_decide (rows_affected (item_current item) Q = 1%nat)) ErrConflict;;
  update_guest_identity_bindings
    (fun b => (b_desktop_vmid b == RevVMID item) && (b_user_id b == RevUserID item) &&
              (b_guest_username b == RevGuestUsername item))
    (fun b => b <| b_session_expires_at := @None time; b_state := BDisabled; b_updated_at := now |>);;
  update_desktop_connections
    (fun c => (c_desktop_vmid c == RevVMID item) && (c_user_id c == RevUserID item) &&
              (c_guest_username c == RevGuestUsername item) && conn_open c)
    (fun c => c <| c_state := if c_expires_at c <=? now then CExpired else CRevoked; c_closed_at := Some now;
                   c_updated_at := now; c_termination_required := true |>);;
  insert_audit now None "guest_identity.revoked" "success" (Some "virtual_machine") (Some (itoa (RevVMID item)))
    (JObj [("reason", JStr (reason_text (Reason item))); ("revision", JNum (itoa (Revision item)));
           ("user_id", JStr (RevUserID item)); ("vmid", JNum (itoa (RevVMID item)))]).

Definition RecordGuestIdentityRevocationFailure (item : RevocationItem) : tx DB unit :=
  tmod (fun s => s <| guest_identity_revocations :=
    update_where (item_current item)
      (fun q => q <| q_last_error := "Guest revocation is pending"; q_updated_at := now |>)
      (guest_identity_revocations s) |>).

Definition RevokeNativeSession (digest : bytes) : tx DB unit :=
  t ← tgets native_sessions;
  match select_one (fun n => ns_token_digest n == digest) t with
  | None => mret tt
  | Some n =>
      let userID := ns_user_id n in
      tmod (fun s => s <| native_sessions := delete_where (fun n => ns_token_digest n == digest) t |>);;
      update_desktop_connections (fun c => (c_user_id c == userID) && conn_open c)
        (fun c => c <| c_state := CRevoking; c_termination_required := true; c_updated_at := now |>);;
      queueGuestIdentityRevocations now (fun b => b_user_id b == userID) CredentialRevoked
  end.
Definition DeleteNativeSession (tokenDigest : bytes) : tx DB unit := RevokeNativeSession tokenDigest.
End connections.
