(* ===== verification/StoreNative.v ===== *)
(** * Native guest accounts ([internal/store/native_guest_account.go], [native_guest_recovery.go])

    The credential life of a user's OS account in a Guest: bind an identity,
    reserve an issue, retire or revoke it, acknowledge the Guest's receipt, and
    recover from a lost fence.  Pending intents are durable; every operation is
    a compare-and-swap on the exact revision.  [now] is the transaction time,
    [clock] Go's [time.Now()], [txid] PostgreSQL's [txid_current()]. *)
From stdpp Require Import base strings list.
From Stdlib Require Import ZArith Lia.
From S2P Require Import Prelude GoStrings Auth GuestIdentity Db Triggers TriggerLemmas StoreAccess StoreConn StoreAgent.

Local Open Scope string_scope.
Local Open Scope list_scope.
Local Open Scope Z_scope.

Section native.
Context `{Sha256} (now : time) (txid : Z).
Implicit Types (a : NativeGuestAccount).

Definition NativeGuestUsername (userID : string) : string := "vcw" +:+ hex_encode (str_take 6 (sha256 userID)).

Definition validIdentity a : bool :=
  (0 <? a_desktop_vmid a) && (a_user_id a != "") && (a_guest_username a == NativeGuestUsername (a_user_id a)) &&
  ValidAccount (a_os_family a) (a_guest_uid a) (a_guest_sid a).

Definition native_row (vmid : Z) (userID : string) (x : NativeGuestAccount) : bool :=
  (a_desktop_vmid x == vmid) && (a_user_id x == userID).

Definition NativeGuestAccount_ (vmid : Z) (userID : string) : tx DB NativeGuestAccount :=
  s ← tget;
  trow (select_one (native_row vmid userID) (native_guest_accounts s)) ErrNotFound.

Definition NativeGuestAccountsForDesktop `{Collation} (vmid : Z) : tx DB (list NativeGuestAccount) :=
  ensure (0 <? vmid) ErrConflict;;
  tgets (fun s => order_by (fun a b => text_le (a_user_id a) (a_user_id b))
    (rows (fun a => a_desktop_vmid a == vmid) (native_guest_accounts s))).

(** The identity columns of an item. *)
Definition same_native a x : bool :=
  (a_desktop_vmid x == a_desktop_vmid a) && (a_user_id x == a_user_id a) &&
  (a_guest_username x == a_guest_username a) && (a_os_family x == a_os_family a) &&
  (a_guest_uid x == a_guest_uid a) && (a_guest_sid x == a_guest_sid a).

(** [COALESCE(profile,'managed-local-'||os_family)] *)
Definition effective_profile (profile : option string) (d : ManagedDesktop) : string :=
  match profile with Some id => id | None => "managed-local-" +:+ d_os_family d end.

(** The binding's desktop and enabled managed-local profile, as the desktop
    has it; [os] is the platform the account was created for. *)
Definition profile_current (s : DB) (b : GuestIdentityBinding) (os : string) : bool :=
  exists_where (fun d => (d_vmid d == b_desktop_vmid b) && (d_os_family d == os) && d_enabled d && d_present d &&
      exists_where (fun p => (p_id p == effective_profile (b_profile_id b) d) && (p_platform p == os) &&
          (p_mode p == "managed_local") && p_enabled p &&
          (p_id p == effective_profile (d_identity_profile_id d) d)) (identity_profiles s))
    (managed_desktops s).

Definition native_session_live (s : DB) (user : string) (digest : bytes) : bool :=
  exists_where (fun n => (ns_user_id n == user) && (ns_token_digest n == digest) && (now <? ns_expires_at n))
    (native_sessions s).

Definition binding_live (b : GuestIdentityBinding) : bool := (b_state b == BProvisioning) || (b_state b == BReady).

(** [nativeAccountAuthorization] *)
Definition nativeAccountAuthorization (s : DB) a (nativeDigest : bytes) : bool :=
  exists_where (fun b => (b_desktop_vmid b == a_desktop_vmid a) && (b_user_id b == a_user_id a) &&
      (b_guest_username b == a_guest_username a) && binding_live b && profile_current s b (a_os_family a) &&
      effective_user_desktop_access s (b_user_id b) (b_desktop_vmid b) &&
      native_session_live s (b_user_id b) nativeDigest) (guest_identity_bindings s) &&
  negb (guest_revocation_pending s (a_desktop_vmid a)).

(** ** Binding *)
Definition fresh_account a : NativeGuestAccount :=
  MkNativeGuestAccount (a_desktop_vmid a) (a_user_id a) (a_guest_username a) (a_os_family a) (a_guest_uid a)
    (a_guest_sid a) 0 NNone NIdle "" None None now.

Definition not_found_conflict (e : error) : error := if e == ErrNotFound then ErrConflict else e.

Definition BindNativeGuestAccount a (nativeDigest : bytes) : tx DB NativeGuestAccount :=
  ensure (negb (negb (validIdentity a) || (slen nativeDigest =? 0))) ErrConflict;;
  s ← tget;
  ensure (nativeAccountAuthorization s a nativeDigest) ErrConflict;;
  let row := fresh_account a in
  if exists_where (native_row (a_desktop_vmid a) (a_user_id a)) (native_guest_accounts s) then
    before_insert_native row;;
    l ← update_native_guest_accounts now txid (fun x => native_row (a_desktop_vmid a) (a_user_id a) x && same_native a x)
          (fun x => x <| a_updated_at := now |>);
    trow (head l) ErrConflict
  else insert_native_guest_account row.

(** ** Issue, retire, revoke *)
Definition one_account (l : list NativeGuestAccount) : tx DB NativeGuestAccount := trow (head l) ErrNotFound.

Definition issue_ready (s : DB) a (connectionID : string) (x : NativeGuestAccount) : bool :=
  same_native a x && (a_revision x == a_revision a) && (a_operation x == a_operation a) && (a_state x == a_state a) &&
  ((a_state x == NIdle) || ((a_state x == NApplied) && ((a_operation x == NRetire) || (a_operation x == NRevoke)))) &&
  ((a_operation x != NRetire) || (match a_expires_at x with Some e => now <? e | None => false end)) &&
  negb (exists_where (fun c => (c_id c == connectionID) || ((c_desktop_vmid c == a_desktop_vmid a) && conn_open c))
          (desktop_connection_sessions s)) &&
  negb (computer_revocation_pending s (a_desktop_vmid a)) &&
  negb (exists_where (fun g => (s_desktop_vmid g == a_desktop_vmid a) && (guest_live g || (s_state g == GRevoking)))
          (agent_guest_sessions s)).

(** [subsec] is [expiresAt.Nanosecond()]. *)
Definition BeginNativeGuestCredential (clock : time) (subsec : Z) a (connectionID : string) (expiresAt : time)
  (nativeDigest : bytes) : tx DB NativeGuestAccount :=
  ensure (negb (negb (validIdentity a) || (a_revision a <? 0) || (a_revision a =? max_int64) ||
            negb (connection_id_re connectionID) || (connectionID == a_connection_id a) || (slen nativeDigest =? 0) ||
            negb (clock <? expiresAt) || (clock + micros (8 * 3600) <? expiresAt) || (subsec != 0))) ErrConflict;;
  s ← tget;
  let p x := issue_ready s a connectionID x && nativeAccountAuthorization s a nativeDigest in
  l ← tcatch (update_native_guest_accounts now txid p
        (fun x => x <| a_revision := a_revision x + 1; a_operation := NIssue; a_state := NPending;
                       a_connection_id := connectionID; a_expires_at := Some expiresAt;
                       a_native_session_digest := Some nativeDigest; a_updated_at := now |>)) unique_conflict;
  trow (head l) ErrConflict.

Definition cleanup_ready a (op : native_op) (x : NativeGuestAccount) : bool :=
  same_native a x && (a_revision x == a_revision a) && (a_operation x == a_operation a) && (a_state x == a_state a) &&
  (a_connection_id x == a_connection_id a) && (a_expires_at x == a_expires_at a) &&
  ((op != NRetire) || (match a_expires_at x with Some e => now <? e | None => false end)).

Definition beginNativeGuestCleanup a (op : native_op) : tx DB NativeGuestAccount :=
  ensure (negb (negb (validIdentity a) || (a_revision a <=? 0) || (a_revision a =? max_int64))) ErrConflict;;
  l ← update_native_guest_accounts now txid (cleanup_ready a op)
        (fun x => x <| a_revision := a_revision x + 1; a_operation := op; a_state := NPending;
                       a_expires_at := if op == NRevoke then None else a_expires_at x;
                       a_native_session_digest := @None bytes; a_updated_at := now |>);
  trow (head l) ErrConflict.

Definition RetireNativeGuestCredential a : tx DB NativeGuestAccount :=
  ensure ((a_operation a == NIssue) && (a_state a == NApplied)) ErrConflict;;
  beginNativeGuestCleanup a NRetire.

Definition RevokeNativeGuestAccount a : tx DB NativeGuestAccount :=
  ensure (negb ((a_state a == NIdle) || (a_operation a == NRevoke))) ErrConflict;;
  beginNativeGuestCleanup a NRevoke.

(** ** Acknowledging the Guest *)
Definition completion_ready (s : DB) a (x : NativeGuestAccount) : bool :=
  same_native a x && (a_revision x == a_revision a) && (a_operation x == a_operation a) && (a_state x == NPending) &&
  (a_connection_id x == a_connection_id a) && (a_expires_at x == a_expires_at a) &&
  ((a_operation x != NIssue) ||
   ((match a_expires_at x with Some e => now <? e | None => false end) &&
    (match a_native_session_digest x with Some dg => native_session_live s (a_user_id x) dg | None => false end) &&
    effective_user_desktop_access s (a_user_id x) (a_desktop_vmid x) &&
    exists_where (fun b => (b_desktop_vmid b == a_desktop_vmid x) && (b_user_id b == a_user_id x) &&
        (b_guest_username b == a_guest_username x) && binding_live b && profile_current s b (a_os_family x))
      (guest_identity_bindings s) &&
    negb (guest_revocation_pending s (a_desktop_vmid x)))).

(** The connection a cleanup ends. *)
Definition named_connection a (c : DesktopConnectionSession) : bool :=
  (c_id c == a_connection_id a) && (c_desktop_vmid c == a_desktop_vmid a) && (c_user_id c == a_user_id a) &&
  (c_guest_username c == a_guest_username a) && conn_open c.

Definition end_connection a : tx DB unit :=
  update_desktop_connections (named_connection a)
    (fun c => c <| c_state := if c_expires_at c <=? now then CExpired else CRevoked; c_closed_at := Some now;
                   c_updated_at := now; c_termination_required := c_termination_required c || (a_operation a == NRevoke) |>);;
  if a_operation a == NRevoke then
    update_guest_identity_bindings (fun b => (b_desktop_vmid b == a_desktop_vmid a) && (b_user_id b == a_user_id a) &&
        (b_guest_username b == a_guest_username a))
      (fun b => b <| b_session_expires_at := @None time; b_updated_at := now |>);;
    mret tt
  else mret tt.

(** [finalize] runs inside the transaction, after the connection exists. *)
Definition completeNativeGuestAccountOperation {X} a
  (finalize : option DesktopConnectionSession -> tx DB X) : tx DB (option DesktopConnectionSession * X) :=
  ensure (negb (negb (validIdentity a) || (a_revision a <=? 0) || (a_state a != NPending))) ErrConflict;;
  s ← tget;
  initiating ← (if a_operation a == NIssue then
                  x ← trow (select_one (native_row (a_desktop_vmid a) (a_user_id a)) (native_guest_accounts s)) ErrConflict;
                  mret (a_native_session_digest x)
                else mret None);
  l ← update_native_guest_accounts now txid (completion_ready s a)
        (fun x => x <| a_state := NApplied; a_native_session_digest := @None bytes; a_updated_at := now |>);
  ensure (bool_decide (length l = 1%nat)) ErrConflict;;
  connection ← (if a_operation a == NIssue then
      e ← trow (a_expires_at a) ErrConflict;
      c ← insertDesktopConnectionSession now
            (MkConnectionRequest (a_connection_id a) (a_user_id a) (a_desktop_vmid a) (a_guest_username a) e)
            initiating true;
      mret (Some c)
    else end_connection a;; mret None);
  x ← finalize connection;
  mret (connection, x).

Definition CompleteNativeGuestAccountOperation a : tx DB unit :=
  completeNativeGuestAccountOperation a (fun _ => mret tt);;
  mret tt.

Definition CompleteNativeGuestConnection a : tx DB (option DesktopConnectionSession) :=
  ensure (a_operation a == NIssue) ErrConflict;;
  r ← completeNativeGuestAccountOperation a (fun _ => mret tt);
  mret (fst r).

(** ** What a restarted broker must look at *)
Definition needs_recovery (s : DB) (x : NativeGuestAccount) : bool :=
  (a_state x == NPending) ||
  (((a_operation x == NIssue) || (a_operation x == NRetire)) &&
   (match a_expires_at x with Some e => e <=? now | None => false end)) ||
  ((a_operation x == NIssue) && (a_state x == NApplied) &&
   negb (exists_where (fun c => (c_id c == a_connection_id x) && conn_open c) (desktop_connection_sessions s))).

Definition NativeGuestAccountsNeedingRecovery `{Collation} (limit : Z) : tx DB (list NativeGuestAccount) :=
  ensure (negb ((limit <? 1) || (1000 <? limit))) ErrConflict;;
  tgets (fun s => take (Z.to_nat limit) (order_by
    (then_by (asc a_updated_at) (then_by (asc a_desktop_vmid) (fun a b => text_le (a_user_id a) (a_user_id b))))
    (rows (needs_recovery s) (native_guest_accounts s)))).

(** ** Recovery *)
Definition nativeRecoveryError (e : error) : error :=
  if (e == ErrNotFound) || (e == ErrPg UniqueViolation) || (e == ErrPg CheckViolation) || (e == ErrPg ForeignKeyViolation)
  then ErrConflict else e.

Definition recovery_safe (s : DB) (vmid : Z) (actorID : string) : bool :=
  exists_where (fun u => (u_id u == actorID) && (u_role u == PlatformAdmin) && negb (u_disabled u)) (users s) &&
  negb (exists_where (fun c => (c_desktop_vmid c == vmid) && conn_open c) (desktop_connection_sessions s)) &&
  negb (exists_where (fun a => (a_desktop_vmid a == vmid) &&
          ((a_state a == NPending) || (a_operation a == NIssue) || (a_operation a == NRetire))) (native_guest_accounts s)) &&
  negb (exists_where (fun l => (l_desktop_id l == itoa vmid) && (l_state l == LActive)) (desktop_leases s)) &&
  negb (exists_where (fun g => (s_desktop_vmid g == vmid) && (guest_live g || (s_state g == GRevoking)))
          (agent_guest_sessions s)) &&
  negb (guest_revocation_pending s vmid) && negb (computer_revocation_pending s vmid).

(** The CHECK constraints and keys of [native_guest_recoveries];
    [reason_len] is PostgreSQL's [length(btrim(reason))], a count of
    characters. *)
Definition insert_recovery (r : NativeRecovery) (reason_len : Z) : tx DB unit :=
  s ← tget;
  check ((1 <=? reason_len) && (reason_len <=? 500) && (0 <? nr_previous_revision r) &&
         (nr_previous_revision r <? nr_recovered_revision r) && connection_id_re (nr_recovered_connection_id r));;
  ensure (negb (exists_where (fun x => (nr_id x == nr_id r) ||
            ((nr_desktop_vmid x == nr_desktop_vmid r) && (nr_user_id x == nr_user_id r) &&
             (nr_recovered_revision x == nr_recovered_revision r))) (native_guest_recoveries s))) (ErrPg UniqueViolation);;
  references (exists_where (native_row (nr_desktop_vmid r) (nr_user_id r)) (native_guest_accounts s) &&
              user_exists s (nr_actor_user_id r));;
  tmod (fun s => s <| native_guest_recoveries := native_guest_recoveries s ++ [r] |>).

Definition recovery_ready a (x : NativeGuestAccount) : bool :=
  same_native a x && (a_revision x == a_revision a) && (a_connection_id x == a_connection_id a) &&
  (a_operation x == NRevoke) && (a_state x == a_state a).

(** [runes] is [utf8.RuneCountInString]. *)
Definition CommitNativeGuestRecovery (runes : string -> Z) (expected : NativeGuestAccount) (revision : Z)
  (connectionID actorID receiptID reason : string) : tx DB NativeGuestAccount :=
  let reason := TrimSpace reason in
  ensure (negb (negb (validIdentity expected) || (a_os_family expected != "linux") || (a_operation expected != NRevoke) ||
            (a_state expected != NApplied) || (a_revision expected <? 1) || (revision <=? a_revision expected) ||
            (revision =? max_int64) || negb (connection_id_re connectionID) ||
            (connectionID == a_connection_id expected) || (actorID == "") || (receiptID == "") ||
            (128 <? slen receiptID) || (reason == "") || (500 <? runes reason))) ErrConflict;;
  s ← tget;
  ensure (recovery_safe s (a_desktop_vmid expected) actorID) ErrConflict;;
  tcatch (
    insert_recovery (MkNativeRecovery receiptID (a_desktop_vmid expected) (a_user_id expected) actorID reason
      (a_revision expected) (a_connection_id expected) revision connectionID txid) (runes reason);;
    l ← update_native_guest_accounts now txid (recovery_ready expected)
          (fun x => x <| a_revision := revision; a_connection_id := connectionID; a_updated_at := now |>);
    trow (head l) ErrNotFound) nativeRecoveryError.
End native.
