(* ===== verification/StoreGateway.v ===== *)
(** * Gateway tickets and tunnel grants ([internal/store/gateway_ticket.go])

    One-time tickets that bind a native session's open connection to a gateway,
    a pinned target and an applied policy revision; their redemption into a
    tunnel, its renewal in five second leases and its closure.  [stmt] is
    [statement_timestamp()]; [secret] and [random] are what [crypto/rand]
    delivered. *)
From stdpp Require Import base strings list.
From Stdlib Require Import ZArith Lia.
From S2P Require Import Prelude GoStrings Auth GuestIdentity Net Db Triggers TriggerLemmas StoreAccess StoreConn StoreAgent StoreNative.

Local Open Scope string_scope.
Local Open Scope list_scope.
Local Open Scope Z_scope.

Definition GatewayAuthorizationWindow : Z := micros 5.

Record NativeGatewayTicketRequest : Set := MkTicketRequest {
  TicketConnectionID : string;
  TicketNativeDigest : bytes;
  TicketGatewayID : string;
  TicketTarget : Addr;
  TicketCertificateSHA256 : bytes;
  TicketPolicyRevision : Z
}.

Record NativeGatewayTicket : Set := MkTicket { TicketToken : string; TicketExpiresAt : time }.

(** [ValidFor] in microseconds, the resolution of the query. *)
Record NativeGatewayGrant : Set := MkGrant {
  GrantConnectionID : string;
  GrantGatewayID : string;
  GrantTunnelID : string;
  GrantTarget : Addr;
  GrantCertificateSHA256 : bytes;
  GrantPolicyRevision : Z;
  ValidFor : Z
}.

(** A row of the query [gatewayAccess]. *)
Record AccessRow : Set := MkAccessRow {
  ac_id : string;
  ac_user_id : string;
  ac_native_session_digest : bytes;
  ac_policy_revision : Z;
  ac_deadline : time
}.

Section gateway.
Context `{Sha256} (now stmt : time) (txid : Z).

(** The Guest's own desktop state: the user's live binding with its current
    profile. *)
Definition access_binding (s : DB) (c : DesktopConnectionSession) (d : ManagedDesktop) : bool :=
  exists_where (fun b => (b_desktop_vmid b == c_desktop_vmid c) && (b_user_id b == c_user_id c) &&
      (b_guest_username b == c_guest_username c) && binding_live b &&
      exists_where (fun p => (p_id p == effective_profile (b_profile_id b) d) && p_enabled p &&
          (p_platform p == d_os_family d) && (p_id p == effective_profile (d_identity_profile_id d) d))
        (identity_profiles s))
    (guest_identity_bindings s).

(** An account whose credential work is not this connection's applied
    issue. *)
Definition access_native_conflict (c : DesktopConnectionSession) (a : NativeGuestAccount) : bool :=
  (a_desktop_vmid a == c_desktop_vmid c) &&
  ((a_state a == NPending) ||
   ((a_user_id a == c_user_id c) &&
    ((a_connection_id a != c_id c) || (a_operation a != NIssue) || (a_state a != NApplied)))).

Definition policy_current (c : DesktopConnectionSession) (d : ManagedDesktop) (p : DesktopAccessPolicy) : bool :=
  (dp_vmid p == c_desktop_vmid c) && (dp_state p == PolApplied) && (dp_desired_revision p == dp_applied_revision p) &&
  (dp_os_family p == d_os_family d).

(** [gatewayAccess], as the row it yields for a connection. *)
Definition gatewayAccess (s : DB) (c : DesktopConnectionSession) : option AccessRow :=
  if (c_state c == CActive) && (c_closed_at c == None) && negb (c_termination_required c) && (stmt <? c_expires_at c) &&
     effective_user_desktop_access s (c_user_id c) (c_desktop_vmid c) &&
     negb (guest_revocation_pending s (c_desktop_vmid c)) &&
     negb (exists_where (access_native_conflict c) (native_guest_accounts s))
  then
    n ← select_one (fun n => (Some (ns_token_digest n) == c_native_session_digest c) && (ns_user_id n == c_user_id c) &&
          (stmt <? ns_expires_at n)) (native_sessions s);
    d ← select_one (by_vmid (c_desktop_vmid c)) (managed_desktops s);
    if access_binding s c d then
      p ← select_one (policy_current c d) (desktop_access_policies s);
      Some (MkAccessRow (c_id c) (c_user_id c) (ns_token_digest n) (dp_desired_revision p)
              (Z.min (c_expires_at c) (ns_expires_at n)))
    else None
  else None.

(** The rows of the query, for all connections. *)
Definition gateway_access_rows (s : DB) : list AccessRow :=
  omap (gatewayAccess s) (desktop_connection_sessions s).
Definition access_for (s : DB) (connectionID : string) : option AccessRow :=
  select_one (fun a => ac_id a == connectionID) (gateway_access_rows s).

Definition gatewayError (e : error) : error :=
  if (e == ErrNoRows) then ErrNotFound else if e == ErrPg UniqueViolation then ErrConflict else e.

Definition auditGatewayTicket (connectionID gatewayID tunnelID event : string) : tx DB unit :=
  s ← tget;
  tfold (fun c => insert_audit now (Some (c_user_id c)) event "success" (Some "desktop_connection") (Some (c_id c))
      (JObj [("gateway_id", JStr gatewayID); ("tunnel_id", JStr tunnelID)]))
    (rows (fun c => c_id c == connectionID) (desktop_connection_sessions s)).

(** ** Tickets *)
Definition ticket_request_ok (r : NativeGatewayTicketRequest) : bool :=
  negb ((slen (TicketNativeDigest r) != 32) || negb (gateway_id_re (TicketGatewayID r)) ||
    negb (Is4 (TicketTarget r)) || negb (IsPrivate (TicketTarget r)) ||
    (slen (TicketCertificateSHA256 r) != 32) || (140 <? slen (TicketConnectionID r)) ||
    (TicketConnectionID r == "") || (TicketPolicyRevision r <=? 0)).

Definition createNativeGatewayTicket (secret : bytes) (r : NativeGatewayTicketRequest) : tx DB NativeGatewayTicket :=
  ensure (ticket_request_ok r) ErrNotFound;;
  let token := "gwt_" +:+ OpaqueToken secret in
  s ← tget;
  t ← tcatch (
    a ← trow (select_one (fun a => (ac_id a == TicketConnectionID r) &&
            (ac_native_session_digest a == TicketNativeDigest r) && (ac_policy_revision a == TicketPolicyRevision r))
          (gateway_access_rows s)) ErrNoRows;
    insert_gateway_ticket (MkGatewayTicket (TokenDigest token) (ac_id a) (TicketGatewayID r) (TicketTarget r) 3389
      (TicketCertificateSHA256 r) (ac_policy_revision a) stmt (Z.min (ac_deadline a) (stmt + micros 30)) (ac_deadline a)
      None None None None)) gatewayError;
  auditGatewayTicket (TicketConnectionID r) (TicketGatewayID r) "" "gateway.ticket_created";;
  mret (MkTicket token (t_expires_at t)).

Definition CreateNativeGatewayTicket := createNativeGatewayTicket.

(** [CompleteNativeGuestGatewayConnection] of native_guest_account.go *)
Definition CompleteNativeGuestGatewayConnection (secret : bytes) (a : NativeGuestAccount) (r : NativeGatewayTicketRequest)
  : tx DB (option DesktopConnectionSession * NativeGatewayTicket) :=
  ensure ((a_operation a == NIssue) && (TicketConnectionID r == a_connection_id a)) ErrConflict;;
  completeNativeGuestAccountOperation now txid a (fun _ => createNativeGatewayTicket secret r).

Definition gatewayTokenDigest (token : string) : option bytes :=
  if negb (has_prefix "gwt_" token) || (slen token != 47) then None else
  match cut_prefix "gwt_" token with
  | None => None
  | Some encoded =>
      match b64_decode UrlAlphabet true encoded with
      | Some value => if slen value == 32 then Some (TokenDigest token) else None
      | None => None
      end
  end.

(** ** Grants *)
Definition grant_of (t : GatewayTicket) : option NativeGatewayGrant :=
  tunnel ← t_tunnel_id t;
  lease ← t_lease_until t;
  Some (MkGrant (t_connection_id t) (t_gateway_id t) tunnel (t_target_host t) (t_certificate_sha256 t)
          (t_policy_revision t) (lease - stmt)).

Definition grant_ok (g : NativeGatewayGrant) : bool :=
  Is4 (GrantTarget g) && IsPrivate (GrantTarget g) && (slen (GrantCertificateSHA256 g) == 32) &&
  (0 <? ValidFor g) && (ValidFor g <=? GatewayAuthorizationWindow).

Definition scanGatewayGrant (l : list GatewayTicket) : tx DB NativeGatewayGrant :=
  t ← trow (head l) ErrNotFound;
  g ← trow (grant_of t) ErrNotFound;
  ensure (grant_ok g) ErrNotFound;;
  mret g.

(** [LEAST(session_deadline,deadline,statement_timestamp()+interval '5 seconds')] *)
Definition lease_end (s : DB) (t : GatewayTicket) : time :=
  match access_for s (t_connection_id t) with
  | Some a => Z.min (t_session_deadline t) (Z.min (ac_deadline a) (stmt + GatewayAuthorizationWindow))
  | None => t_session_deadline t
  end.

(** The join with [access], with the pinned policy revision. *)
Definition ticket_access (s : DB) (t : GatewayTicket) : bool :=
  match access_for s (t_connection_id t) with
  | Some a => t_policy_revision t == ac_policy_revision a
  | None => false
  end.

Definition redeemable (s : DB) (digest : bytes) (gatewayID : string) (t : GatewayTicket) : bool :=
  (t_token_digest t == digest) && (t_gateway_id t == gatewayID) && (t_consumed_at t == None) &&
  (stmt <? t_expires_at t) && (stmt <? t_session_deadline t) && ticket_access s t.

Definition RedeemNativeGatewayTicket (random : bytes) (gatewayID token : string) : tx DB NativeGatewayGrant :=
  digest ← trow (gatewayTokenDigest token) ErrNotFound;
  ensure (gateway_id_re gatewayID) ErrNotFound;;
  s ← tget;
  l ← tcatch (update_gateway_tickets (redeemable s digest gatewayID)
        (fun t => t <| t_tunnel_id := Some ("tun_" +:+ OpaqueToken random); t_consumed_at := Some stmt;
                       t_lease_until := Some (lease_end s t) |>)) gatewayError;
  grant ← scanGatewayGrant l;
  auditGatewayTicket (GrantConnectionID grant) gatewayID (GrantTunnelID grant) "gateway.tunnel_authorized";;
  mret grant.

Definition renewable (s : DB) (gatewayID tunnelID : string) (t : GatewayTicket) : bool :=
  (t_tunnel_id t == Some tunnelID) && (t_gateway_id t == gatewayID) && (t_closed_at t == None) &&
  (match t_lease_until t with Some l => stmt <? l | None => false end) && (stmt <? t_session_deadline t) &&
  ticket_access s t.

Definition RenewNativeGatewayGrant (gatewayID tunnelID : string) : tx DB NativeGatewayGrant :=
  ensure (negb (negb (gateway_id_re gatewayID) || negb (tunnel_id_re tunnelID))) ErrNotFound;;
  s ← tget;
  l ← tcatch (update_gateway_tickets (renewable s gatewayID tunnelID)
        (fun t => t <| t_lease_until := Some (lease_end s t) |>)) gatewayError;
  scanGatewayGrant l.

Definition closable (gatewayID tunnelID : string) (t : GatewayTicket) : bool :=
  (t_gateway_id t == gatewayID) && (t_tunnel_id t == Some tunnelID) && (t_consumed_at t != None) &&
  (t_closed_at t == None).

Definition CloseNativeGatewayGrant (gatewayID tunnelID : string) : tx DB unit :=
  ensure (negb (negb (gateway_id_re gatewayID) || negb (tunnel_id_re tunnelID))) ErrNotFound;;
  s ← tget;
  l ← update_gateway_tickets (closable gatewayID tunnelID) (fun t => t <| t_closed_at := Some stmt |>);
  tfold (fun t => auditGatewayTicket (t_connection_id t) gatewayID tunnelID "gateway.tunnel_closed") l.
End gateway.
