(* ===== verification/StoreNativeProofs.v ===== *)
(** * The life of a native guest account

    Every transaction of the program moves an account along the state machine
    [native_step], logs the connection it names and never names it again; a
    request that quotes an old revision is refused; a credential is reserved
    and acknowledged only for an authorized user of a free desktop. *)
From stdpp Require Import base strings list relations.
From Stdlib Require Import ZArith Lia Ascii.
From S2P Require Import Prelude GoStrings GuestIdentity Auth Net Db Demo Triggers TriggerLemmas StoreAccess StoreConn StoreAgent StoreNative StoreGateway.

Local Open Scope string_scope.
Local Open Scope list_scope.
Local Open Scope Z_scope.

(** * What the gateway's statements leave alone

    Ticket statements write the ticket table and the audit log, audit
    statements only the log: every other table is read off the frame. *)

Section frames.
Implicit Types (s : DB).

(** Everything but the audit log. *)
Definition audit_rest s : DB := s <| audit_events := @nil AuditEvent; audit_seq := 0 |>.
Definition audit_frame s s' : Prop := audit_rest s' = audit_rest s.

Lemma audit_frame_get {A} (g : DB -> A) s s' :
  (forall x, g (audit_rest x) = g x) -> audit_frame s s' -> g s' = g s.
Proof. unfold audit_frame. intros Hg Hf. rewrite <- (Hg s), <- (Hg s'), Hf. done. Qed.

Lemma insert_audit_frame now actor ev outcome ty id detail s u s' :
  insert_audit now actor ev outcome ty id detail s = inr (u, s') -> audit_frame s s'.
Proof. unfold insert_audit. intros E. by inv_tx. Qed.

Lemma audit_ticket_frame now c gw tn ev s u s' :
  auditGatewayTicket now c gw tn ev s = inr (u, s') -> audit_frame s s'.
Proof.
  unfold auditGatewayTicket. intros E. inv_tx. match goal with H : tfold _ _ _ = _ |- _ => revert H end.
  apply tfold_preserves; [done | unfold audit_frame; congruence |].
  intros x s1 v s2 _ Ha. by eapply insert_audit_frame.
Qed.

(** Everything but the tickets and the audit log. *)
Definition gateway_rest s : DB :=
  s <| gateway_session_tickets := @nil GatewayTicket; audit_events := @nil AuditEvent; audit_seq := 0 |>.
Definition gateway_frame s s' : Prop := gateway_rest s' = gateway_rest s.

Lemma gateway_frame_get {A} (g : DB -> A) s s' :
  (forall x, g (gateway_rest x) = g x) -> gateway_frame s s' -> g s' = g s.
Proof. unfold gateway_frame. intros Hg Hf. rewrite <- (Hg s), <- (Hg s'), Hf. done. Qed.

Lemma audit_gateway_frame s s' : audit_frame s s' -> gateway_frame s s'.
Proof. apply (audit_frame_get gateway_rest). done. Qed.

Lemma create_ticket_frame `{Sha256} now stmt secret r s t s' :
  createNativeGatewayTicket now stmt secret r s = inr (t, s') -> gateway_frame s s'.
Proof.
  unfold createNativeGatewayTicket, insert_gateway_ticket. intros E. inv_sql.
  match goal with H : auditGatewayTicket _ _ _ _ _ _ = _ |- _ => apply audit_ticket_frame, audit_gateway_frame in H end.
  done.
Qed.

End frames.

Section native_life.
Context `{Sha256}.
Implicit Types (s : DB) (a x : NativeGuestAccount).

(** The program's transactions that write the account table. *)
Inductive native_tx s : DB -> Prop :=
| op_bind now txid a dg : native_tx s (state_of (BindNativeGuestAccount now txid a dg) s)
| op_begin now txid clock subsec a c e dg :
    native_tx s (state_of (BeginNativeGuestCredential now txid clock subsec a c e dg) s)
| op_retire now txid a : native_tx s (state_of (RetireNativeGuestCredential now txid a) s)
| op_revoke now txid a : native_tx s (state_of (RevokeNativeGuestAccount now txid a) s)
| op_complete now txid a : native_tx s (state_of (CompleteNativeGuestAccountOperation now txid a) s)
| op_connection now txid a : native_tx s (state_of (CompleteNativeGuestConnection now txid a) s)
| op_gateway now stmt txid secret a r :
    native_tx s (state_of (CompleteNativeGuestGatewayConnection now stmt txid secret a r) s)
| op_recover now txid runes a rev c actor receipt reason :
    native_tx s (state_of (CommitNativeGuestRecovery now txid runes a rev c actor receipt reason) s)
| op_other s' : native_guest_accounts s' = native_guest_accounts s ->
    native_guest_credential_ids s' = native_guest_credential_ids s -> native_tx s s'.

Definition native_trace : DB -> DB -> Prop := rtc native_tx.

(** ** What one transaction does to the two tables *)
Definition same_key a x : Prop := a_desktop_vmid x = a_desktop_vmid a /\ a_user_id x = a_user_id a.

Definition account_moves (s' : DB) a a' : Prop :=
  a' = a \/ (same_native_identity a a' = true /\ native_logged s' a a' /\ exists now txid s0, native_step now txid s0 a a').

Definition natives_move s s' : Prop :=
  (forall ci, In ci (native_guest_credential_ids s) -> In ci (native_guest_credential_ids s')) /\
  (native_indexes (native_guest_accounts s) = true -> native_indexes (native_guest_accounts s') = true) /\
  (forall a, In a (native_guest_accounts s) -> exists a', In a' (native_guest_accounts s') /\ account_moves s' a a') /\
  (forall a', In a' (native_guest_accounts s') ->
     (exists a, In a (native_guest_accounts s) /\ account_moves s' a a') \/
     (a_revision a' = 0 /\ a_state a' = NIdle /\ a_operation a' = NNone)).

(** The two tables of the machine. *)
Definition native_tables s := (native_guest_accounts s, native_guest_credential_ids s).

Lemma natives_move_tables s s1 s2 : natives_move s s1 -> native_tables s2 = native_tables s1 -> natives_move s s2.
Proof. unfold natives_move, account_moves, native_logged. intros Hm [= -> ->]. done. Qed.

Lemma natives_move_from s s0 s1 : native_tables s0 = native_tables s -> natives_move s0 s1 -> natives_move s s1.
Proof. unfold natives_move, account_moves, native_logged. intros [= <- <-]. done. Qed.

Lemma natives_still s s' : native_tables s' = native_tables s -> natives_move s s'.
Proof.
  intros [= Ha Hc]. unfold natives_move, account_moves. rewrite Ha, Hc. split_and!; eauto 6.
Qed.

Lemma update_native_moves now txid p f s l s' :
  update_native_guest_accounts now txid p f s = inr (l, s') -> natives_move s s'.
Proof.
  intros Hu. apply update_native_inr in Hu as (_ & Ha & _ & Hi & Hc & Hs).
  assert (forall a, In a (native_guest_accounts s) -> account_moves s' a (if p a then f a else a)) as Hmv.
  { intros a Hin. destruct (p a) eqn:Ep; [right | by left]. destruct (Hs a Hin Ep) as (? & _ & ? & ?). eauto 6. }
  split_and!; [done | done | |].
  - intros a Hin. exists (if p a then f a else a). split; [| auto]. rewrite Ha. apply in_update_where. eauto.
  - intros a' Hin. rewrite Ha in Hin. apply in_update_where in Hin as (a & Hin & ->). left. eauto.
Qed.

Lemma insert_native_moves new s r s' : insert_native_guest_account new s = inr (r, s') -> natives_move s s'.
Proof.
  intros Hi. apply insert_native_inr in Hi as (_ & -> & Hx & _ & ? & ? & ? & _). split_and!; [done | done | |]; simpl.
  - intros a Ha. exists a. split; [apply in_app_iff; auto | by left].
  - intros a Ha. apply in_app_iff in Ha as [Ha | [<- | []]]; [left | by right]. exists a. split; [done | by left].
Qed.

Lemma end_connection_tables now a s u s' : end_connection now a s = inr (u, s') -> native_tables s' = native_tables s.
Proof.
  unfold end_connection. intros E. inv_tx.
  match goal with H : update_desktop_connections _ _ _ = _ |- _ => apply update_connections_inr in H as (-> & _) end.
  destruct (a_operation a == NRevoke); inv_tx; [| done].
  match goal with H : update_guest_identity_bindings _ _ _ = _ |- _ => apply update_bindings_inr in H as (-> & _) end. done.
Qed.

Lemma insert_connection_tables now r dg b s c s' :
  insertDesktopConnectionSession now r dg b s = inr (c, s') -> native_tables s' = native_tables s.
Proof.
  unfold insertDesktopConnectionSession, insert_desktop_connection. intros E. inv_sql.
  match goal with H : update_guest_identity_bindings _ _ _ = _ |- _ => apply update_bindings_inr in H as (-> & _) end. done.
Qed.

Lemma create_ticket_tables now stmt secret r s t s' :
  createNativeGatewayTicket now stmt secret r s = inr (t, s') -> native_tables s' = native_tables s.
Proof. intros E. apply create_ticket_frame in E. by eapply (gateway_frame_get native_tables). Qed.

(** What follows the account update leaves the two tables alone. *)
Lemma complete_tables {X} now txid a (fin : option DesktopConnectionSession -> tx DB X) s r s' :
  (forall c s (y : X) s', fin c s = inr (y, s') -> native_tables s' = native_tables s) ->
  completeNativeGuestAccountOperation now txid a fin s = inr (r, s') ->
  exists l s1, update_native_guest_accounts now txid (completion_ready now s a)
      (fun x => x <| a_state := NApplied; a_native_session_digest := @None bytes; a_updated_at := now |>) s = inr (l, s1) /\
    length l = 1%nat /\ native_tables s' = native_tables s1 /\ a_state a = NPending.
Proof.
  unfold completeNativeGuestAccountOperation. intros Hfin E. destruct (a_operation a == NIssue); inv_tx; b2p; destruct_and!;
    (eexists _, _; split; [eassumption |]; split; [done |]; split; [| done];
     match goal with H : fin _ _ = _ |- _ => apply Hfin in H as -> end);
    eauto using insert_connection_tables, end_connection_tables.
Qed.

Lemma complete_moves {X} now txid a (fin : option DesktopConnectionSession -> tx DB X) s r s' :
  (forall c s (y : X) s', fin c s = inr (y, s') -> native_tables s' = native_tables s) ->
  completeNativeGuestAccountOperation now txid a fin s = inr (r, s') -> natives_move s s'.
Proof.
  intros Hfin E. destruct (complete_tables _ _ _ _ _ _ _ Hfin E) as (l & s1 & Hu & _ & Ht & _).
  eapply natives_move_tables; [by eapply update_native_moves | done].
Qed.

Lemma insert_recovery_tables r n s u s' : insert_recovery r n s = inr (u, s') -> native_tables s' = native_tables s.
Proof. unfold insert_recovery, references. intros E. inv_sql. done. Qed.

Lemma state_of_moves {A} (m : tx DB A) s :
  (forall r s', m s = inr (r, s') -> natives_move s s') -> natives_move s (state_of m s).
Proof.
  unfold state_of, run. intros Hm. destruct (m s) as [| [a s']]; simpl; [by apply natives_still | eauto].
Qed.

Lemma native_tx_moves s s' : native_tx s s' -> natives_move s s'.
Proof.
  destruct 1; [apply state_of_moves; intros y s' E .. |].
  - unfold BindNativeGuestAccount in E. inv_tx. destruct (exists_where _ _); inv_tx; [| by eapply insert_native_moves].
    match goal with H : before_insert_native _ _ = _ |- _ => apply before_insert_native_inr in H as (-> & _) end.
    by eapply update_native_moves.
  - unfold BeginNativeGuestCredential in E. inv_tx. by eapply update_native_moves.
  - unfold RetireNativeGuestCredential, beginNativeGuestCleanup in E. inv_tx. by eapply update_native_moves.
  - unfold RevokeNativeGuestAccount, beginNativeGuestCleanup in E. inv_tx. by eapply update_native_moves.
  - unfold CompleteNativeGuestAccountOperation in E. inv_tx. eapply complete_moves; [| eassumption]. intros ? ? ? ? Hf. cbv beta in Hf. by inv_tx.
  - unfold CompleteNativeGuestConnection in E. inv_tx. eapply complete_moves; [| eassumption]. intros ? ? ? ? Hf. cbv beta in Hf. by inv_tx.
  - unfold CompleteNativeGuestGatewayConnection in E. inv_tx. eapply complete_moves; [| eassumption].
    intros ? ? ? ? Hf. exact (create_ticket_tables _ _ _ _ _ _ _ Hf).
  - unfold CommitNativeGuestRecovery in E. inv_tx.
    match goal with H : insert_recovery _ _ _ = _ |- _ => apply insert_recovery_tables in H end.
    eapply natives_move_from; [eassumption |]. by eapply update_native_moves.
  - apply natives_still. unfold native_tables. congruence.
Qed.

(** ** Along a trace *)
Lemma native_step_revision now txid s a b : native_step now txid s a b ->
  a_revision a <= a_revision b /\
  (a_revision b = a_revision a -> a_state a <> NPending -> a_state b <> NPending).
Proof. destruct 1; split; try lia; congruence. Qed.

Lemma moves_key s' a a' : account_moves s' a a' -> same_key a a'.
Proof.
  intros [-> | (Hi & _)]; [done |]. unfold same_native_identity in Hi. b2p. destruct_and!. done.
Qed.

(** The item [a] is out of date: its account has a later revision, or has
    settled the operation that [a] describes. *)
Definition superseded s a : Prop :=
  exists x, In x (native_guest_accounts s) /\ same_key a x /\ a_revision a < a_revision x.
Definition settled s a : Prop :=
  exists x, In x (native_guest_accounts s) /\ same_key a x /\
    (a_revision a < a_revision x \/ (a_revision a = a_revision x /\ a_state x <> NPending)).

Lemma trace_keeps_native (P : DB -> Prop) :
  (forall s s', natives_move s s' -> P s -> P s') -> forall s s', native_trace s s' -> P s -> P s'.
Proof.
  intros HP s s'. induction 1 as [| s s1 s' Hs _ IH]; [done |]. intros Hp. apply IH. eapply HP; [| done].
  by apply native_tx_moves.
Qed.

Lemma superseded_moves a s s' : natives_move s s' -> superseded s a -> superseded s' a.
Proof.
  intros (_ & _ & Hf & _) (x & Hx & [Hv Hu] & Hr). destruct (Hf x Hx) as (x' & Hx' & Hm). exists x'.
  destruct (moves_key _ _ _ Hm) as [Hv' Hu']. split_and!; [done | split; congruence |].
  destruct Hm as [-> | (_ & _ & now & txid & s0 & Hs)]; [done |]. apply native_step_revision in Hs as [? _]. lia.
Qed.

Lemma settled_moves a s s' : natives_move s s' -> settled s a -> settled s' a.
Proof.
  intros (_ & _ & Hf & _) (x & Hx & [Hv Hu] & Hr). destruct (Hf x Hx) as (x' & Hx' & Hm). exists x'.
  destruct (moves_key _ _ _ Hm) as [Hv' Hu']. split_and!; [done | split; congruence |].
  destruct Hm as [-> | (_ & _ & now & txid & s0 & Hs)]; [done |]. apply native_step_revision in Hs as [Hle Hst].
  destruct Hr as [Hr | [Hr Hp]]; [left; lia |]. destruct (decide (a_revision x' = a_revision x)); [right | left; lia].
  split; [lia | auto].
Qed.

Lemma indexes_moves s s' : natives_move s s' ->
  native_indexes (native_guest_accounts s) = true -> native_indexes (native_guest_accounts s') = true.
Proof. by intros (_ & Hi & _). Qed.

Lemma logged_moves ci s s' : natives_move s s' ->
  In ci (native_guest_credential_ids s) -> In ci (native_guest_credential_ids s').
Proof. intros (Hc & _). apply Hc. Qed.

(** ** The compare-and-swap every operation performs *)
Lemma one_account_row T x y : native_indexes T = true -> In x T -> In y T -> same_key x y -> x = y.
Proof.
  unfold native_indexes. intros Hi Hx Hy [Hv Hu]. b2p. destruct_and!.
  eapply (unique_index_inj (fun a => Some (a_desktop_vmid a, a_user_id a))); eauto. simpl. congruence.
Qed.

Lemma same_native_key a x : same_native a x = true -> same_key a x.
Proof. unfold same_native. intros Hs. b2p. destruct_and!. done. Qed.

Lemma update_native_head now txid p f s l s' x :
  update_native_guest_accounts now txid p f s = inr (l, s') -> head l = Some x ->
  exists x0, In x0 (native_guest_accounts s) /\ p x0 = true /\ x = f x0 /\ In x (native_guest_accounts s') /\
    native_step now txid s x0 x.
Proof.
  intros Hu Hh. apply update_native_inr in Hu as (_ & Ha & -> & _ & _ & Hs).
  destruct (rows p (native_guest_accounts s)) as [| x0 r] eqn:E; [done |]. injection Hh as <-.
  assert (In x0 (rows p (native_guest_accounts s))) as Hin by (rewrite E; by left).
  apply filter_In in Hin as [Hin Hp]. destruct (Hs x0 Hin Hp) as (_ & _ & ? & _). exists x0. split_and!; try done.
  rewrite Ha. apply in_update_where. exists x0. by rewrite Hp.
Qed.

(** The row an operation on [a] updates is the account at [a]'s revision. *)
Definition cas_row s a x : Prop :=
  In x (native_guest_accounts s) /\ same_key a x /\ a_revision x = a_revision a.

Lemma cas_superseded s a x : native_indexes (native_guest_accounts s) = true -> cas_row s a x -> superseded s a -> False.
Proof.
  intros Hi (Hx & [Hv Hu] & Hr) (y & Hy & [Hv' Hu'] & Hlt).
  assert (x = y) as -> by (eapply one_account_row; eauto; split; congruence). lia.
Qed.

Lemma cas_settled s a x : native_indexes (native_guest_accounts s) = true -> cas_row s a x -> a_state x = NPending ->
  settled s a -> False.
Proof.
  intros Hi (Hx & [Hv Hu] & Hr) Hp (y & Hy & [Hv' Hu'] & Hs).
  assert (x = y) as -> by (eapply one_account_row; eauto; split; congruence). destruct Hs as [| [_ ?]]; [lia | done].
Qed.

Ltac native_head row :=
  match goal with H : update_native_guest_accounts _ _ _ _ _ = inr (?l, _), Hh : head ?l = Some _ |- _ =>
    destruct (update_native_head _ _ _ _ _ _ _ _ H Hh) as (row & Hin & Hp & -> & Hin' & Hs) end.

Lemma begin_inr now txid clock subsec a c e dg s x s' :
  BeginNativeGuestCredential now txid clock subsec a c e dg s = inr (x, s') ->
  exists x0, cas_row s a x0 /\ issue_ready now s a c x0 = true /\ nativeAccountAuthorization now s a dg = true /\
    clock < e <= clock + micros (8 * 3600) /\
    x = x0 <| a_revision := a_revision x0 + 1; a_operation := NIssue; a_state := NPending; a_connection_id := c;
              a_expires_at := Some e; a_native_session_digest := Some dg; a_updated_at := now |> /\
    In x (native_guest_accounts s') /\ native_step now txid s x0 x.
Proof.
  unfold BeginNativeGuestCredential. intros E. inv_tx.
  native_head row.
  exists row. b2p. destruct Hp as [Hr Ha]. pose proof Hr as Hr'. unfold issue_ready in Hr. b2p. destruct_and!.
  split_and!; try done. unfold cas_row. auto using same_native_key.
Qed.

Lemma cleanup_inr now txid a op s x s' : beginNativeGuestCleanup now txid a op s = inr (x, s') ->
  exists x0, cas_row s a x0 /\ In x (native_guest_accounts s') /\ native_step now txid s x0 x.
Proof.
  unfold beginNativeGuestCleanup. intros E. inv_tx.
  native_head row.
  exists row. unfold cleanup_ready in Hp. b2p. destruct_and!. split_and!; try done.
  unfold cas_row. auto using same_native_key.
Qed.

Lemma recover_inr now txid runes a rev c actor receipt reason s x s' :
  CommitNativeGuestRecovery now txid runes a rev c actor receipt reason s = inr (x, s') ->
  exists x0 s0, native_tables s0 = native_tables s /\ cas_row s a x0 /\ a_state x0 = NApplied /\ a_operation x0 = NRevoke /\
    recovery_safe s (a_desktop_vmid a) actor = true /\ a_revision a < rev /\
    x = x0 <| a_revision := rev; a_connection_id := c; a_updated_at := now |> /\
    In x (native_guest_accounts s') /\ native_step now txid s0 x0 x.
Proof.
  unfold CommitNativeGuestRecovery. intros E. inv_tx.
  match goal with H : insert_recovery _ _ _ = _ |- _ => apply insert_recovery_tables in H as Ht; clear H end.
  native_head row.
  unfold recovery_ready in Hp. b2p. destruct_and!. eexists row, _. pose proof Ht as [= Ha _].
  split_and!; try done; [| congruence]. unfold cas_row. rewrite <- Ha. auto using same_native_key.
Qed.

(** An acknowledgement settles the pending operation it describes. *)
Lemma complete_cas {X} now txid a (fin : option DesktopConnectionSession -> tx DB X) s r s' :
  (forall c s (y : X) s', fin c s = inr (y, s') -> native_tables s' = native_tables s) ->
  completeNativeGuestAccountOperation now txid a fin s = inr (r, s') ->
  exists x, cas_row s a x /\ a_state x = NPending /\ completion_ready now s a x = true /\ settled s' a.
Proof.
  intros Hfin E. destruct (complete_tables _ _ _ _ _ _ _ Hfin E) as (l & s1 & Hu & Hl & [= Ha _] & _).
  destruct l as [| y [|]]; try done. destruct (update_native_head _ _ _ _ _ _ _ y Hu eq_refl) as (x & Hin & Hp & Hy & Hin' & _).
  exists x. pose proof Hp as Hp'. unfold completion_ready in Hp'. b2p. destruct_and!.
  match goal with H : same_native _ _ = true |- _ => apply same_native_key in H as Hk end.
  split_and!; try done. exists y. rewrite Ha. destruct Hk. subst y. split_and!; try done. right. by split.
Qed.

(** ** Refusals *)
(** No request on the item [a] commits. *)
Definition requests_refused s a : Prop :=
  (forall now txid clock subsec c e dg, committed (BeginNativeGuestCredential now txid clock subsec a c e dg) s = false) /\
  (forall now txid, committed (RetireNativeGuestCredential now txid a) s = false) /\
  (forall now txid, committed (RevokeNativeGuestAccount now txid a) s = false) /\
  (forall now txid runes rev c actor receipt reason,
     committed (CommitNativeGuestRecovery now txid runes a rev c actor receipt reason) s = false).

Definition receipts_refused s a : Prop :=
  (forall now txid, committed (CompleteNativeGuestAccountOperation now txid a) s = false) /\
  (forall now txid, committed (CompleteNativeGuestConnection now txid a) s = false) /\
  (forall now stmt txid secret r, committed (CompleteNativeGuestGatewayConnection now stmt txid secret a r) s = false).

Lemma not_committed {A} (m : tx DB A) s : (forall r s', m s = inr (r, s') -> False) -> committed m s = false.
Proof. unfold committed. destruct (m s) as [| [r s']]; [done | intros Hm; by destruct (Hm r s')]. Qed.

Lemma receipts_cas s a : ~ (exists x, cas_row s a x /\ a_state x = NPending) -> receipts_refused s a.
Proof.
  intros Hno. split_and!; intros; apply not_committed; intros y s' E; apply Hno.
  - unfold CompleteNativeGuestAccountOperation in E. inv_tx.
    edestruct @complete_cas as (row & ? & ? & _); [| eassumption | eauto]. intros ? ? ? ? Hf. cbv beta in Hf. by inv_tx.
  - unfold CompleteNativeGuestConnection in E. inv_tx.
    edestruct @complete_cas as (row & ? & ? & _); [| eassumption | eauto]. intros ? ? ? ? Hf. cbv beta in Hf. by inv_tx.
  - unfold CompleteNativeGuestGatewayConnection in E. inv_tx.
    edestruct @complete_cas as (row & ? & ? & _); [| eassumption | eauto].
    intros ? ? ? ? Hf. exact (create_ticket_tables _ _ _ _ _ _ _ Hf).
Qed.

Lemma requests_cas s a : ~ (exists x, cas_row s a x) -> requests_refused s a.
Proof.
  intros Hno. split_and!; intros; apply not_committed; intros y s' E; apply Hno.
  - apply begin_inr in E as (x & ? & _). eauto.
  - unfold RetireNativeGuestCredential in E. inv_tx. edestruct cleanup_inr as (row & ? & _); eauto.
  - unfold RevokeNativeGuestAccount in E. inv_tx. edestruct cleanup_inr as (row & ? & _); eauto.
  - apply recover_inr in E as (x & s0 & _ & ? & _). eauto.
Qed.

(** A request that quotes an account's earlier revision is refused in every
    later state, and so is every receipt for it. *)
Theorem stale_native_item_refused s s' a :
  native_indexes (native_guest_accounts s) = true -> superseded s a -> native_trace s s' ->
  requests_refused s' a /\ receipts_refused s' a.
Proof.
  intros Hi Hsup Htr.
  pose proof (trace_keeps_native _ indexes_moves s s' Htr Hi) as Hi'.
  pose proof (trace_keeps_native _ (superseded_moves a) s s' Htr Hsup) as Hs'.
  split; [apply requests_cas; intros [x Hx] | apply receipts_cas; intros (x & Hx & _)]; exact (cas_superseded _ _ _ Hi' Hx Hs').
Qed.

(** A Guest's receipt is accepted once: after an acknowledgement has
    committed, the same receipt is refused in every later state, whatever
    became of the account. *)
Theorem native_receipt_once s s' s'' now txid a u :
  native_indexes (native_guest_accounts s) = true ->
  CompleteNativeGuestAccountOperation now txid a s = inr (u, s') -> native_trace s' s'' ->
  receipts_refused s'' a.
Proof.
  intros Hi E Htr. assert (natives_move s s' /\ settled s' a) as [Hm Hs].
  { unfold CompleteNativeGuestAccountOperation in E. inv_tx.
    match goal with H : completeNativeGuestAccountOperation _ _ _ _ _ = _ |- _ => split;
      [eapply complete_moves; [| exact H] | edestruct @complete_cas as (row & _ & _ & _ & ?); [| exact H | done]] end;
    intros ? ? ? ? Hf; cbv beta in Hf; by inv_tx. }
  pose proof (trace_keeps_native _ indexes_moves _ _ Htr (indexes_moves _ _ Hm Hi)) as Hi'.
  pose proof (trace_keeps_native _ (settled_moves a) _ _ Htr Hs) as Hs'.
  apply receipts_cas. intros (x & Hx & Hp). exact (cas_settled _ _ _ Hi' Hx Hp Hs').
Qed.

(** A credential's connection name is used once: a name on the log is
    refused by every later issue and every later recovery, for any account. *)
Theorem credential_never_reissued s s' ci a :
  In ci (native_guest_credential_ids s) -> native_trace s s' ->
  (forall now txid clock subsec e dg,
     committed (BeginNativeGuestCredential now txid clock subsec a (ci_connection_id ci) e dg) s' = false) /\
  (forall now txid runes rev actor receipt reason,
     committed (CommitNativeGuestRecovery now txid runes a rev (ci_connection_id ci) actor receipt reason) s' = false).
Proof.
  intros Hci Htr. pose proof (trace_keeps_native _ (logged_moves ci) _ _ Htr Hci) as Hci'. cbv beta in Hci'.
  assert (forall now txid s0 x0 x, native_step now txid s0 x0 x -> native_tables s0 = native_tables s' ->
    a_connection_id x = ci_connection_id ci -> a_revision x <> a_revision x0 -> a_operation x = NIssue \/ a_operation x0 = NRevoke ->
    a_state x0 <> NPending -> a_operation x <> NRetire -> (a_operation x = NRevoke -> a_operation x0 = NRevoke) -> False) as Hno.
  { intros now txid s0 x0 x Hs [= _ Hc] Hn. rewrite <- Hc in Hci'.
    destruct Hs; intros; first [congruence | by auto |
      match goal with H : credential_fresh _ _ |- _ => destruct (H ci Hci') as [? _]; congruence end]. }
  split; intros; apply not_committed; intros x s2 E.
  - apply begin_inr in E as (x0 & _ & Hr & _ & _ & -> & _ & Hs). unfold issue_ready in Hr. b2p. destruct_and!.
    eapply Hno; [exact Hs | done | done | simpl; lia | by left | | done | done].
    match goal with H : _ \/ _ |- _ => destruct H as [H | [H _]]; rewrite H; done end.
  - apply recover_inr in E as (x0 & s0 & Ht & (_ & _ & Hr) & Hst & Hop & _ & Hlt & -> & _ & Hs).
    eapply Hno; [exact Hs | done | done | simpl; lia | by right | congruence | simpl; congruence | done].
Qed.

(** ** What an issue certifies *)
Definition user_authorized now s a (dg : bytes) : Prop :=
  (exists b, In b (guest_identity_bindings s) /\ b_desktop_vmid b = a_desktop_vmid a /\ b_user_id b = a_user_id a /\
     b_guest_username b = a_guest_username a /\ b_state b <> BDisabled /\ profile_current s b (a_os_family a) = true) /\
  effective_user_desktop_access s (a_user_id a) (a_desktop_vmid a) = true /\
  native_session_live now s (a_user_id a) dg = true /\ guest_revocation_pending s (a_desktop_vmid a) = false.

(** Nobody else holds the desktop: no open connection, no unexpired agent
    lease, no agent OS session, no other user's credential. *)
Definition desktop_free now s a : Prop :=
  (forall c, In c (desktop_connection_sessions s) -> c_desktop_vmid c = a_desktop_vmid a -> conn_open c = false) /\
  (forall l, In l (desktop_leases s) -> l_desktop_id l = itoa (a_desktop_vmid a) -> l_state l = LActive ->
     l_expires_at l <= now) /\
  (forall g, In g (agent_guest_sessions s) -> s_desktop_vmid g = a_desktop_vmid a -> guest_live g = false /\ s_state g <> GRevoking) /\
  (forall x, In x (native_guest_accounts s) -> a_desktop_vmid x = a_desktop_vmid a -> a_user_id x <> a_user_id a ->
     native_reservation x = false) /\
  computer_revocation_pending s (a_desktop_vmid a) = false.

Lemma authorization_spec now s a dg : nativeAccountAuthorization now s a dg = true -> user_authorized now s a dg.
Proof.
  unfold nativeAccountAuthorization, user_authorized, exists_where, binding_live. intros E. b2p.
  destruct E as [(b & Hb & Hp) Hr]. b2p. destruct_and!. split_and!; try congruence.
  exists b. split_and!; try done. intros Hd. rewrite Hd in *. naive_solver.
Qed.

(** Reserving a credential is an authorized and exclusive act: the
    account is pending at the next revision under the given connection name
    and deadline (at most eight hours ahead), the user's whole authority holds
    and nobody else holds the desktop. *)
Theorem BeginNativeGuestCredential_exclusive now txid clock subsec a c e dg s x s' :
  BeginNativeGuestCredential now txid clock subsec a c e dg s = inr (x, s') ->
  In x (native_guest_accounts s') /\ same_key a x /\ a_revision x = a_revision a + 1 /\ a_operation x = NIssue /\
  a_state x = NPending /\ a_connection_id x = c /\ a_expires_at x = Some e /\ clock < e <= clock + micros (8 * 3600) /\
  user_authorized now s a dg /\ desktop_free now s a.
Proof.
  intros E. apply begin_inr in E as (x0 & (Hin & [Hv Hu] & Hr) & Hready & Ha & He & -> & Hin' & Hs).
  apply authorization_spec in Ha. unfold issue_ready in Hready. b2p. destruct_and!. rewrite !exists_where_false in *.
  split_and!; try done; [simpl; lia.. |]. inversion Hs as [| | _ _ _ _ _ _ _ Hl Hn | | | ]; simpl in *; try lia; try congruence.
  rewrite Hv, Hu in *. unfold desktop_free. split_and!; try done.
  - intros c0 Hc Hvm. match goal with H : forall r, In r (desktop_connection_sessions s) -> _ |- _ => specialize (H c0 Hc) end.
    b2p. naive_solver.
  - match goal with H : forall r, In r (agent_guest_sessions s) -> _ |- _ => rename H into Hg end.
    intros g Hg'. specialize (Hg g Hg'). b2p. naive_solver.
Qed.

Lemma insert_connection_inr now r dg b s c s' : insertDesktopConnectionSession now r dg b s = inr (c, s') ->
  connection_allowed now s r dg b = true /\ In c (desktop_connection_sessions s') /\
  connection_indexes (desktop_connection_sessions s') = true /\
  c = MkDesktopConnectionSession (ConnID r) (ConnUserID r) (ConnVMID r) (ConnGuestUsername r) CActive
        (ConnExpiresAt r) now now None false dg.
Proof.
  unfold insertDesktopConnectionSession, insert_desktop_connection. intros E. inv_sql.
  match goal with H : update_guest_identity_bindings _ _ _ = _ |- _ => apply update_bindings_inr in H as (-> & _) end.
  simpl. split_and!; try done. apply in_app_iff. right. by left.
Qed.

Lemma open_connection_unique T c c' : connection_indexes T = true -> In c T -> In c' T -> conn_open c = true ->
  conn_open c' = true -> c_desktop_vmid c = c_desktop_vmid c' -> c = c'.
Proof.
  unfold connection_indexes. intros Hi Hc Hc' Ho Ho' Hv. b2p. destruct Hi as [_ Hi].
  eapply (unique_index_inj (fun c => if conn_open c then Some (c_desktop_vmid c) else None) _ _ _ (c_desktop_vmid c));
    eauto; simpl; rewrite ?Ho, ?Ho'; congruence.
Qed.

(** What the acknowledgement of an issue checks on the pending row. *)
Lemma completion_issue now s a x : completion_ready now s a x = true -> a_operation a = NIssue ->
  a_operation x = NIssue /\ a_connection_id x = a_connection_id a /\ a_expires_at x = a_expires_at a /\
  (exists e, a_expires_at a = Some e /\ now < e) /\
  exists dg, a_native_session_digest x = Some dg /\ user_authorized now s a dg.
Proof.
  unfold completion_ready, user_authorized, exists_where, binding_live. intros E Hop. b2p. destruct_and!.
  match goal with H : a_operation x <> _ \/ _ |- _ => destruct H as [H |]; [congruence |] end. destruct_and!.
  match goal with H : same_native _ _ = true |- _ => unfold same_native in H end. b2p. destruct_and!.
  destruct (a_expires_at x) as [e |] eqn:Ee; [| done]. destruct (a_native_session_digest x) as [dg |] eqn:Ed; [| done]. b2p.
  match goal with H : ex _ |- _ => destruct H as (b & Hb & Hp) end. b2p. destruct_and!.
  split_and!; try congruence; [exists e; split; congruence |].
  exists dg. split; [done |]. split_and!; try congruence. exists b. split_and!; try congruence.
  intros Hd. rewrite Hd in *. naive_solver.
Qed.

(** Acknowledging an issue opens exactly the connection that was reserved
   : active, named, bounded and bound as the pending account says, for a
    user who still has access, with the desktop to itself. *)
Theorem CompleteNativeGuestConnection_authorized now txid a s r s' :
  native_indexes (native_guest_accounts s) = true -> CompleteNativeGuestConnection now txid a s = inr (r, s') ->
  exists c e dg, r = Some c /\ a_expires_at a = Some e /\ now < e /\
    (exists x, cas_row s a x /\ a_state x = NPending /\ a_operation x = NIssue /\ a_connection_id x = a_connection_id a /\
       a_native_session_digest x = Some dg) /\
    c = MkDesktopConnectionSession (a_connection_id a) (a_user_id a) (a_desktop_vmid a) (a_guest_username a) CActive e
          now now None false (Some dg) /\
    In c (desktop_connection_sessions s') /\ user_authorized now s a dg /\
    (forall c', In c' (desktop_connection_sessions s') -> c_desktop_vmid c' = a_desktop_vmid a -> conn_open c' = true -> c' = c).
Proof.
  unfold CompleteNativeGuestConnection. intros Hi E. inv_tx.
  match goal with H : (a_operation a == NIssue) = true |- _ => rename H into Hop end.
  match goal with H : completeNativeGuestAccountOperation _ _ _ _ _ = _ |- _ => pose proof H as Hc; rename H into E end.
  apply complete_cas in Hc as (row & Hx & Hst & Hready & _); [| intros ? ? ? ? Hf; cbv beta in Hf; by inv_tx].
  unfold completeNativeGuestAccountOperation in E. rewrite Hop in E. inv_tx. b2p.
  apply completion_issue in Hready as (Hox & Hcx & Hex & (e & He & Hlt) & dg & Hdg & Hauth); [| done].
  match goal with H : select_one _ _ = Some ?y |- _ => apply select_one_some in H as [Hiny Hy]; unfold native_row in Hy;
    assert (y = row) as -> by (destruct Hx as (? & [? ?] & _); b2p; eapply one_account_row; eauto; split; intuition congruence) end.
  match goal with H : insertDesktopConnectionSession _ _ _ _ _ = _ |- _ => apply insert_connection_inr in H as (_ & Hc & Hci & ->) end.
  simpl in *. rewrite Hdg in *. rewrite He in *. simplify_eq.
  eexists _, _, dg. split_and!; [done | done | done | by eauto 8 | done | done | done |].
  intros c' Hin Hv Ho. symmetry. eapply open_connection_unique; eauto.
Qed.
End native_life.

(** ** A run *)
Section demo.
#[local] Existing Instance demo_sha.

Definition native_binding : GuestIdentityBinding :=
  MkGuestIdentityBinding 101 "alice" None (NativeGuestUsername "alice") BReady "" 0 None.
Definition native_item (rev : Z) (op : native_op) (st : native_state) (c : string) (e : option time) : NativeGuestAccount :=
  MkNativeGuestAccount 101 "alice" (NativeGuestUsername "alice") "linux" 1001 "" rev op st c e None 0.

Definition demo_native : DB := demo_db
  <| guest_identity_bindings := [native_binding]; desktop_connection_sessions := @nil DesktopConnectionSession |>.
Definition item0 : NativeGuestAccount := native_item 0 NNone NIdle "" None.
Definition item1 : NativeGuestAccount := native_item 1 NIssue NPending "conn_00000001" (Some (hour / 2)).

Definition demo_bound : DB := state_of (BindNativeGuestAccount 1 1 item0 (digest "n")) demo_native.
Definition demo_issued : DB :=
  state_of (BeginNativeGuestCredential 2 2 2 0 item0 "conn_00000001" (hour / 2) (digest "n")) demo_bound.
Definition demo_connected : DB := state_of (CompleteNativeGuestAccountOperation 3 3 item1) demo_issued.

Lemma stale_native_item_refused_witness : requests_refused demo_connected item0 /\ receipts_refused demo_connected item0.
Proof.
  apply (stale_native_item_refused demo_issued).
  - vm_compute. reflexivity.
  - eexists. split; [left; reflexivity |]. split; [split; reflexivity | vm_compute; reflexivity].
  - apply rtc_once. apply op_complete.
Defined.

Lemma native_receipt_once_witness : exists u s',
  CompleteNativeGuestAccountOperation 3 3 item1 demo_issued = inr (u, s') /\
  receipts_refused (state_of (RetireNativeGuestCredential 4 4 item1) s') item1.
Proof.
  eexists _, _. split; [vm_compute; reflexivity |].
  eapply (native_receipt_once demo_issued _ _ 3 3 item1).
  - vm_compute. reflexivity.
  - vm_compute. reflexivity.
  - apply rtc_once. apply op_retire.
Defined.

Definition logged1 : CredentialID := MkCredentialID "conn_00000001" 101 "alice" 1.

Lemma credential_never_reissued_witness : In logged1 (native_guest_credential_ids demo_issued) /\
  committed (BeginNativeGuestCredential 9 9 9 0 item1 (ci_connection_id logged1) hour (digest "n")) demo_connected = false.
Proof.
  assert (In logged1 (native_guest_credential_ids demo_issued)) as Hin by (vm_compute; left; reflexivity).
  split; [exact Hin |].
  refine (proj1 (credential_never_reissued demo_issued demo_connected logged1 item1 Hin _) 9 9 9 0 hour (digest "n")).
  apply rtc_once. apply op_complete.
Defined.

Lemma BeginNativeGuestCredential_exclusive_witness : exists x s',
  BeginNativeGuestCredential 2 2 2 0 item0 "conn_00000001" (hour / 2) (digest "n") demo_bound = inr (x, s') /\
  desktop_free 2 demo_bound item0.
Proof.
  eexists _, _. split; [vm_compute; reflexivity |].
  edestruct (BeginNativeGuestCredential_exclusive 2 2 2 0 item0 "conn_00000001" (hour / 2) (digest "n") demo_bound)
    as (_ & _ & _ & _ & _ & _ & _ & _ & _ & Hf); [vm_compute; reflexivity | exact Hf].
Defined.

Lemma CompleteNativeGuestConnection_authorized_witness : exists r s',
  CompleteNativeGuestConnection 3 3 item1 demo_issued = inr (r, s') /\
  exists c, r = Some c /\ c_state c = CActive /\ c_native_session_digest c = Some (digest "n").
Proof.
  eexists _, _. split; [vm_compute; reflexivity |].
  edestruct (CompleteNativeGuestConnection_authorized 3 3 item1 demo_issued) as (c & e & dg & Hc & _ & _ & _ & E & _);
    [vm_compute; reflexivity | vm_compute; reflexivity |].
  injection Hc as <-. eexists. split; [reflexivity |]. split; reflexivity.
Defined.
End demo.
