(* ===== verification/StoreConnProofs.v ===== *)
(** * The life of a desktop connection

    Every statement of the program moves a connection from active to revoking
    to revoked or expired, never back; a closed connection is final.  The
    revocation queue is a compare-and-swap on revisions: a Guest's receipt for
    an outdated or already confirmed revocation changes nothing. *)
From stdpp Require Import base strings list relations.
From Stdlib Require Import ZArith Lia Ascii Permutation.
From S2P Require Import Prelude GoStrings Auth Net Db Demo Triggers TriggerLemmas StoreAccess StoreAccessProofs StoreSession StoreConn StoreAgent StoreNative StoreGateway StoreNativeProofs.

Local Open Scope string_scope.
Local Open Scope list_scope.
Local Open Scope Z_scope.

Section connection_life.
Context `{Sha256} `{Collation}.
Implicit Types (s : DB) (c : DesktopConnectionSession).

(** ** One row *)
Definition same_connection c c' : Prop :=
  c_id c' = c_id c /\ c_user_id c' = c_user_id c /\ c_desktop_vmid c' = c_desktop_vmid c /\
  c_guest_username c' = c_guest_username c /\ c_expires_at c' = c_expires_at c /\ c_created_at c' = c_created_at c /\
  c_native_session_digest c' = c_native_session_digest c /\
  (c_termination_required c = true -> c_termination_required c' = true).

Inductive conn_edge : connection_state -> connection_state -> Prop :=
| EdgeStay st : conn_edge st st
| EdgeRevoke : conn_edge CActive CRevoking
| EdgeClose st st' : (st = CActive \/ st = CRevoking) -> (st' = CRevoked \/ st' = CExpired) -> conn_edge st st'.

Definition conn_evolves c c' : Prop :=
  same_connection c c' /\ conn_edge (c_state c) (c_state c') /\ (conn_open c = false -> c' = c).

Lemma conn_evolves_refl c : conn_evolves c c.
Proof. split; [by split_and! | split; [constructor | done]]. Qed.

Lemma conn_edge_trans (a b d : connection_state) : conn_edge a b -> conn_edge b d -> conn_edge a d.
Proof. destruct 1 as [| | ? ? [-> | ->] [-> | ->]]; inversion 1; subst; try constructor; naive_solver. Qed.

Lemma conn_edge_open c c' : conn_edge (c_state c) (c_state c') -> conn_open c = false -> conn_open c' = false.
Proof.
  unfold conn_open. intros He Ho. inversion He as [st Hst Heq | Ha Hb | st st' Ha Hb Hc Hd]; subst;
    [congruence | rewrite <- Ha in Ho; done |]. by destruct Hb as [-> | ->].
Qed.

Lemma conn_evolves_trans a b c : conn_evolves a b -> conn_evolves b c -> conn_evolves a c.
Proof.
  intros ((?&?&?&?&?&?&?&?) & He & Hc) ((?&?&?&?&?&?&?&?) & He' & Hc'). split; [split_and!; try congruence; tauto |].
  split; [by eapply conn_edge_trans |]. intros Ho. rewrite <- (Hc Ho). apply Hc'. by rewrite (Hc Ho).
Qed.

(** ** One statement *)
Definition conns_evolve s s' : Prop :=
  forall c, In c (desktop_connection_sessions s) ->
    exists c', In c' (desktop_connection_sessions s') /\ conn_evolves c c'.

Lemma conns_same s s' : desktop_connection_sessions s' = desktop_connection_sessions s -> conns_evolve s s'.
Proof. intros E c Hc. exists c. rewrite E. split; [done | apply conn_evolves_refl]. Qed.

Lemma conns_trans s1 s2 s3 : conns_evolve s1 s2 -> conns_evolve s2 s3 -> conns_evolve s1 s3.
Proof.
  intros H1 H2 c Hc. destruct (H1 c Hc) as (c' & Hc' & He). destruct (H2 c' Hc') as (c'' & Hc'' & He').
  exists c''. split; [done | by eapply conn_evolves_trans].
Qed.

Lemma update_conns p f s l s' : update_desktop_connections p f s = inr (l, s') ->
  (forall c, In c (desktop_connection_sessions s) -> p c = true -> conn_evolves c (f c)) -> conns_evolve s s'.
Proof.
  intros Hu Hf c Hc. apply update_connections_inr in Hu as (-> & _). exists (if p c then f c else c).
  split; [apply in_update_where; eauto |]. destruct (p c) eqn:E; [auto | apply conn_evolves_refl].
Qed.

Lemma evolves_revoking c now t : conn_open c = true ->
  (c_termination_required c = true -> t = true) ->
  conn_evolves c (c <| c_state := CRevoking; c_termination_required := t; c_updated_at := now |>).
Proof.
  intros Ho Ht. split; [by split_and! |]. split; [| congruence]. unfold conn_open in Ho. simpl. b2p.
  destruct Ho as [-> | ->]; constructor.
Qed.

Lemma evolves_closed c now st t : conn_open c = true -> (st = CRevoked \/ st = CExpired) ->
  (c_termination_required c = true -> t = true) ->
  conn_evolves c (c <| c_state := st; c_closed_at := Some now; c_termination_required := t; c_updated_at := now |>).
Proof.
  intros Ho Hst Ht. split; [by split_and! |]. split; [| congruence]. unfold conn_open in Ho. simpl. b2p.
  apply EdgeClose; done.
Qed.

(** ** The program's transactions *)
Inductive conn_tx s : DB -> Prop :=
| ct_create now r : conn_tx s (state_of (CreateDesktopConnectionSession now r) s)
| ct_create_native now clock r dg : conn_tx s (state_of (CreateNativeDesktopConnectionSession now clock r dg) s)
| ct_revoke_desktop now vmid : conn_tx s (state_of (BeginRevokeDesktopConnections now vmid) s)
| ct_revoke_user now user : conn_tx s (state_of (BeginRevokeUserDesktopConnections now user) s)
| ct_revoke now id user : conn_tx s (state_of (BeginRevokeDesktopConnection now id user) s)
| ct_due now stmt limit : connection_indexes (desktop_connection_sessions s) = true ->
    conn_tx s (state_of (DesktopConnectionsDueForRevocation now stmt limit) s)
| ct_closed now id state : conn_tx s (state_of (MarkDesktopConnectionClosed now id state) s)
| ct_receipt now item : conn_tx s (state_of (CompleteGuestIdentityRevocation now item) s)
| ct_logout now dg : conn_tx s (state_of (RevokeNativeSession now dg) s)
| ct_disable now id d : conn_tx s (state_of (SetUserDisabled now id d) s)
| ct_password now id hash retained : conn_tx s (state_of (SetUserPassword now id hash retained) s)
| ct_access now s1 : desktop_connection_sessions s1 = desktop_connection_sessions s ->
    conn_tx s (state_of (commitAccessChange now) s1)
| ct_native now txid a : conn_tx s (state_of (CompleteNativeGuestAccountOperation now txid a) s)
| ct_native_connection now txid a : conn_tx s (state_of (CompleteNativeGuestConnection now txid a) s)
| ct_gateway now stmt txid secret a r :
    conn_tx s (state_of (CompleteNativeGuestGatewayConnection now stmt txid secret a r) s)
| ct_other s' : desktop_connection_sessions s' = desktop_connection_sessions s -> conn_tx s s'.

Lemma state_of_conns {A} (m : tx DB A) s :
  (forall r s', m s = inr (r, s') -> conns_evolve s s') -> conns_evolve s (state_of m s).
Proof. unfold state_of, run. intros Hm. destruct (m s) as [| [a s']]; simpl; [by apply conns_same | eauto]. Qed.

Lemma insert_conns now r dg b s c s' : insertDesktopConnectionSession now r dg b s = inr (c, s') -> conns_evolve s s'.
Proof.
  unfold insertDesktopConnectionSession, insert_desktop_connection. intros E. inv_sql.
  match goal with H : update_guest_identity_bindings _ _ _ = _ |- _ => apply update_bindings_inr in H as (-> & _) end.
  intros c Hc. exists c. split; [simpl; apply in_app_iff; auto | apply conn_evolves_refl].
Qed.

Lemma begin_revoke_conns now p s l s' : begin_revoke now p s = inr (l, s') -> conns_evolve s s'.
Proof.
  unfold begin_revoke. intros E. eapply update_conns; [exact E |]. intros c _ Hp. b2p.
  apply evolves_revoking; tauto.
Qed.

Lemma terminate_conns now p s l s' :
  update_desktop_connections p (fun c => c <| c_state := CRevoking; c_termination_required := true; c_updated_at := now |>) s = inr (l, s') ->
  (forall c, p c = true -> conn_open c = true) -> conns_evolve s s'.
Proof. intros E Hp. eapply update_conns; [exact E |]. intros c _ Hc. apply evolves_revoking; auto. Qed.

Lemma close_conns now p (t : DesktopConnectionSession -> bool) s l s' :
  update_desktop_connections p (fun c => c <| c_state := if c_expires_at c <=? now then CExpired else CRevoked;
    c_closed_at := Some now; c_updated_at := now; c_termination_required := t c |>) s = inr (l, s') ->
  (forall c, p c = true -> conn_open c = true /\ (c_termination_required c = true -> t c = true)) -> conns_evolve s s'.
Proof.
  intros E Hp. eapply update_conns; [exact E |]. intros c _ Hc. destruct (Hp c Hc).
  apply evolves_closed; [done | destruct (_ <=? _); auto | done].
Qed.

Lemma commit_conns_evolve now s u s' : commitAccessChange now s = inr (u, s') -> conns_evolve s s'.
Proof.
  intros E c Hc. apply commit_inr in E as (s1 & s2 & Hq & -> & _ & Hf & _). apply queue_inr in Hq as ->.
  rewrite (lease_frame_get desktop_connection_sessions _ _ (fun _ => eq_refl) Hf). simpl.
  match goal with |- context [update_where ?p ?f _] => exists (if p c then f c else c) end.
  split; [apply in_update_where; eauto |]. destruct (_ && _) eqn:Ep; [| apply conn_evolves_refl]. b2p.
  apply evolves_revoking; tauto.
Qed.

Lemma end_connection_conns now a s u s' : end_connection now a s = inr (u, s') -> conns_evolve s s'.
Proof.
  unfold end_connection. intros E. inv_tx. match goal with H : update_desktop_connections _ _ _ = _ |- _ => apply close_conns in H end.
  - destruct (a_operation a == NRevoke); inv_tx; [| done].
    match goal with H : update_guest_identity_bindings _ _ _ = _ |- _ => apply update_bindings_inr in H as (-> & _) end. done.
  - intros c. unfold named_connection. intros Hp. b2p. tauto.
Qed.

Lemma complete_conns {X} now txid a (fin : option DesktopConnectionSession -> tx DB X) s r s' :
  (forall o s (y : X) s', fin o s = inr (y, s') -> desktop_connection_sessions s' = desktop_connection_sessions s) ->
  completeNativeGuestAccountOperation now txid a fin s = inr (r, s') -> conns_evolve s s'.
Proof.
  unfold completeNativeGuestAccountOperation. intros Hfin E. destruct (a_operation a == NIssue); inv_tx;
    (match goal with H : update_native_guest_accounts _ _ _ _ _ = _ |- _ => apply update_native_inr in H as (Hf & _) end;
     apply (native_frame_get desktop_connection_sessions) in Hf; [| done];
     match goal with H : fin _ _ = _ |- _ => apply Hfin in H end; apply conns_same in Hf;
     eapply conns_trans; [exact Hf |]; eapply conns_trans; [| apply conns_same; eassumption]);
    eauto using insert_conns, end_connection_conns.
Qed.

Lemma create_ticket_conns now stmt secret r s t s' : createNativeGatewayTicket now stmt secret r s = inr (t, s') ->
  desktop_connection_sessions s' = desktop_connection_sessions s.
Proof. intros E. apply create_ticket_frame in E. by eapply (gateway_frame_get desktop_connection_sessions). Qed.

Lemma receipt_conns now item s u s' : CompleteGuestIdentityRevocation now item s = inr (u, s') -> conns_evolve s s'.
Proof.
  unfold CompleteGuestIdentityRevocation, insert_audit. intros E. inv_tx.
  match goal with H : update_guest_identity_bindings _ _ _ = _ |- _ => apply update_bindings_inr in H as (-> & _) end.
  match goal with H : update_desktop_connections _ _ _ = _ |- _ => apply (close_conns _ _ (fun _ => true)) in H end; [done |].
  intros c Hp. b2p. tauto.
Qed.

Lemma in_due stmt limit s c : connection_indexes (desktop_connection_sessions s) = true ->
  In c (desktop_connection_sessions s) ->
  existsb (fun d => c_id d == c_id c) (due_connections stmt limit s) = true -> connection_due stmt s c = true.
Proof.
  intros Hi Hc Hp. apply existsb_exists in Hp as (d & Hd & Hid). b2p.
  unfold due_connections in Hd. apply in_take, order_by_in, filter_In in Hd as [Hin Hdue].
  unfold connection_indexes in Hi. b2p. destruct Hi as [Hi _].
  assert (d = c) as <-; [| done]. eapply (unique_index_inj (fun c => Some (c_id c))); eauto. simpl. congruence.
Qed.

Lemma due_conns now stmt limit s l s' : connection_indexes (desktop_connection_sessions s) = true ->
  DesktopConnectionsDueForRevocation now stmt limit s = inr (l, s') -> conns_evolve s s'.
Proof.
  unfold DesktopConnectionsDueForRevocation. intros Hi E. inv_tx. eapply update_conns; [eassumption |].
  intros c Hc Hp. apply (in_due stmt limit) in Hp; [| done | done].
  apply evolves_revoking; [| done]. unfold connection_due in Hp. unfold conn_open. b2p. tauto.
Qed.

Lemma conn_tx_evolve s s' : conn_tx s s' -> conns_evolve s s'.
Proof.
  destruct 1 as [now r | now clock r dg | now vmid | now user | now id user | now stmt limit Hi | now id state | now item
    | now dg | now id d | now id hash retained | now s1 Hs | now txid a | now txid a | now stmt txid secret a r | s' Hs];
    try (apply state_of_conns; intros y s' E).
  - by eapply insert_conns.
  - unfold CreateNativeDesktopConnectionSession, createDesktopConnectionSession in E. inv_tx. by eapply insert_conns.
  - by eapply begin_revoke_conns.
  - by eapply begin_revoke_conns.
  - unfold BeginRevokeDesktopConnection in E. inv_tx. eapply conns_trans; [by eapply begin_revoke_conns |].
    match goal with H : (match ?l with _ => _ end) _ = _ |- _ => destruct l end; inv_tx; by apply conns_same.
  - by eapply due_conns.
  - unfold MarkDesktopConnectionClosed, parse_terminal in E. inv_tx. eapply update_conns; [eassumption |].
    intros c _ Hp. b2p. destruct Hp as [_ Hr]. apply evolves_closed; [unfold conn_open; by rewrite Hr, orb_true_r | | done].
    repeat case_bool_decide; naive_solver.
  - by eapply receipt_conns.
  - unfold RevokeNativeSession in E. inv_tx.
    match goal with H : (match ?o with _ => _ end) _ = _ |- _ => destruct o end; inv_tx; [| by apply conns_same].
    match goal with H : queueGuestIdentityRevocations _ _ _ _ = inr (?u, _) |- _ => destruct u; apply queue_inr in H as -> end.
    match goal with H : update_desktop_connections _ _ _ = _ |- _ => apply terminate_conns in H end; [done |].
    intros c Hp. b2p. tauto.
  - unfold SetUserDisabled in E. destruct d; inv_tx;
      match goal with H : update_returning _ _ _ _ _ _ = _ |- _ => apply update_returning_inr in H as (-> & _) end;
      match goal with H : commitAccessChange _ _ = _ |- _ => apply commit_conns_evolve in H end; [| done].
    match goal with H : update_desktop_connections _ _ _ = _ |- _ => apply terminate_conns in H end;
      [by eapply conns_trans |]. intros c Hp. unfold conn_open. b2p. tauto.
  - apply SetUserPassword_inr in E as (s1 & Hc & _ & _ & _ & _ & _ & Hcs & _). apply commit_conns_evolve in Hc.
    eapply conns_trans; [| exact Hc]. intros c Hin. rewrite Hcs.
    match goal with |- context [update_where ?p ?f _] => exists (if p c then f c else c) end.
    split; [apply in_update_where; eauto |]. destruct (_ && _) eqn:Ep; [| apply conn_evolves_refl]. b2p.
    apply evolves_revoking; tauto.
  - intros c Hc. rewrite <- Hs in Hc. revert c Hc. apply state_of_conns. intros y s' E. by eapply commit_conns_evolve.
  - unfold CompleteNativeGuestAccountOperation in E. inv_tx. eapply complete_conns; [| eassumption].
    intros ? ? ? ? Hf. cbv beta in Hf. by inv_tx.
  - unfold CompleteNativeGuestConnection in E. inv_tx. eapply complete_conns; [| eassumption].
    intros ? ? ? ? Hf. cbv beta in Hf. by inv_tx.
  - unfold CompleteNativeGuestGatewayConnection in E. inv_tx. eapply complete_conns; [| eassumption].
    intros ? ? ? ? Hf. exact (create_ticket_conns _ _ _ _ _ _ _ Hf).
  - by apply conns_same.
Qed.

Definition conn_trace : DB -> DB -> Prop := rtc conn_tx.

(** A connection never reopens: along every execution it keeps its
    identity, owner, deadline and native session, moves only from active to
    revoking to revoked or expired, keeps a required termination required,
    and is final once closed. *)
Theorem connection_lifecycle s s' c :
  conn_trace s s' -> In c (desktop_connection_sessions s) ->
  exists c', In c' (desktop_connection_sessions s') /\ conn_evolves c c'.
Proof.
  intros Htr. revert c. induction Htr as [| s s1 s' Hs _ IH]; intros c Hc; [by exists c; eauto using conn_evolves_refl |].
  destruct (conn_tx_evolve _ _ Hs c Hc) as (c1 & Hc1 & He). destruct (IH c1 Hc1) as (c' & Hc' & He').
  exists c'. split; [done | by eapply conn_evolves_trans].
Qed.

(** ** The sweep *)
(** The sweep takes exactly the connections that are due: if they fit
    its limit, every one of them is revoking afterwards and is returned;
    no other connection is touched, and what is returned is revoking. *)
Theorem DesktopConnectionsDueForRevocation_exact now stmt limit s l s' :
  connection_indexes (desktop_connection_sessions s) = true ->
  DesktopConnectionsDueForRevocation now stmt limit s = inr (l, s') ->
  (forall c, In c l -> c_state c = CRevoking) /\
  (forall c, In c (desktop_connection_sessions s) -> connection_due stmt s c = false -> In c (desktop_connection_sessions s')) /\
  (Z.of_nat (rows_affected (connection_due stmt s) (desktop_connection_sessions s)) <= due_limit limit ->
   forall c, In c (desktop_connection_sessions s) -> connection_due stmt s c = true ->
     exists c', In c' (desktop_connection_sessions s') /\ In c' l /\ c_id c' = c_id c /\ c_state c' = CRevoking).
Proof.
  unfold DesktopConnectionsDueForRevocation. intros Hi E. inv_tx.
  match goal with H : update_desktop_connections _ _ _ = _ |- _ => apply update_connections_inr in H as (-> & -> & _) end.
  split_and!.
  - intros c Hc. apply in_map_iff in Hc as (c0 & <- & _). done.
  - intros c Hc Hn. apply in_update_where. exists c. split; [done |].
    destruct (existsb _ _) eqn:Ep; [| done]. by rewrite (in_due stmt limit) in Hn.
  - intros Hfit c Hc Hd. assert (existsb (fun d => c_id d == c_id c) (due_connections stmt limit s) = true) as Hp.
    { apply existsb_exists. exists c. split; [| apply eqb_refl]. unfold due_connections.
      rewrite take_ge by (rewrite order_by_length; unfold rows_affected in Hfit; lia).
      by apply order_by_in, filter_In. }
    exists (c <| c_state := CRevoking; c_updated_at := now |>). split_and!; try done.
    + apply in_update_where. exists c. by rewrite Hp.
    + apply (in_map (fun c : DesktopConnectionSession => c <| c_state := CRevoking; c_updated_at := now |>)).
      by apply filter_In.
Qed.

(** ** The receipt of a revocation *)
Definition revoked_subject (item : RevocationItem) vmid user guest : Prop :=
  vmid = RevVMID item /\ user = RevUserID item /\ guest = RevGuestUsername item.

(** Nothing is current for a receipt: the revocation was confirmed, or a
    newer one was requested. *)
Lemma receipt_refused now item s : (forall q, In q (guest_identity_revocations s) -> item_current item q = false) ->
  CompleteGuestIdentityRevocation now item s = inl ErrConflict.
Proof.
  intros Hn. unfold CompleteGuestIdentityRevocation, mbind, tx_bind, tgets, tmod, ensure, tfail.
  assert (rows_affected (item_current item) (guest_identity_revocations s) = 0%nat) as ->; [| done].
  by apply rows_affected_0, exists_where_false.
Qed.

(** A Guest's receipt confirms one revision, once: it is accepted only
    while that revision is the latest requested and unconfirmed; then the
    subject's bindings are disabled, its connections closed, one audit event
    written, and the same receipt is refused from then on.  A receipt that is
    not current changes nothing. *)
Theorem CompleteGuestIdentityRevocation_once now item s :
  ((forall q, In q (guest_identity_revocations s) -> item_current item q = false) ->
   CompleteGuestIdentityRevocation now item s = inl ErrConflict) /\
  forall u s', CompleteGuestIdentityRevocation now item s = inr (u, s') ->
    (exists q, In q (guest_identity_revocations s) /\ item_current item q = true) /\
    (forall b, In b (guest_identity_bindings s') -> revoked_subject item (b_desktop_vmid b) (b_user_id b) (b_guest_username b) ->
       b_state b = BDisabled /\ b_session_expires_at b = None) /\
    (forall c, In c (desktop_connection_sessions s') ->
       revoked_subject item (c_desktop_vmid c) (c_user_id c) (c_guest_username c) -> conn_open c = false) /\
    (exists e, audit_events s' = audit_events s ++ [e] /\ ev_event_type e = "guest_identity.revoked") /\
    forall now', CompleteGuestIdentityRevocation now' item s' = inl ErrConflict.
Proof.
  split; [apply receipt_refused |]. intros u s' E. unfold CompleteGuestIdentityRevocation, insert_audit in E. inv_tx. b2p.
  match goal with H : update_guest_identity_bindings _ _ _ = _ |- _ => apply update_bindings_inr in H as (-> & _) end.
  match goal with H : update_desktop_connections _ _ _ = _ |- _ => apply update_connections_inr in H as (-> & _) end.
  simpl. split_and!.
  - by apply rows_affected_pos.
  - intros b Hb. apply in_update_where in Hb as (b0 & _ & ->). destruct (_ && _) eqn:Ep; [done |].
    intros (Ev & Eu & Eg). by rewrite Ev, Eu, Eg, !eqb_refl in Ep.
  - intros c Hc. apply in_update_where in Hc as (c0 & _ & ->). destruct (_ && _) eqn:Ep.
    + intros _. unfold conn_open. simpl. by destruct (_ <=? _).
    + intros (Ev & Eu & Eg). by rewrite Ev, Eu, Eg, !eqb_refl in Ep.
  - by eexists.
  - intros now'. apply receipt_refused. intros q Hq. simpl in Hq. apply in_update_where in Hq as (q0 & _ & ->).
    destruct (item_current item q0) eqn:Ec; [| done]. unfold item_current. simpl. by rewrite Z.ltb_irrefl, andb_false_r.
Qed.
End connection_life.

(** ** A run *)
Section demo.
#[local] Existing Instance demo_sha.
#[local] Existing Instance demo_collation.

Definition demo_expired : DB := state_of (DesktopConnectionsDueForRevocation hour (hour + 1) 100) demo_db.

Lemma connection_lifecycle_witness : exists c', In c' (desktop_connection_sessions demo_expired) /\
  conn_evolves conn_alice c' /\ c_state c' = CRevoking.
Proof.
  destruct (connection_lifecycle demo_db demo_expired conn_alice) as (c' & Hc & He).
  - apply rtc_once. apply ct_due. vm_compute. reflexivity.
  - left. reflexivity.
  - exists c'. split; [exact Hc |]. split; [exact He |]. vm_compute in Hc. destruct Hc as [<- | []]. reflexivity.
Defined.

Lemma DesktopConnectionsDueForRevocation_exact_witness : exists l s',
  DesktopConnectionsDueForRevocation hour (hour + 1) 100 demo_db = inr (l, s') /\
  exists c', In c' l /\ c_id c' = c_id conn_alice.
Proof.
  eexists _, _. split; [vm_compute; reflexivity |].
  edestruct (DesktopConnectionsDueForRevocation_exact hour (hour + 1) 100 demo_db) as (_ & _ & Hall);
    [vm_compute; reflexivity | vm_compute; reflexivity |].
  destruct (Hall ltac:(vm_compute; discriminate) conn_alice ltac:(left; reflexivity) ltac:(vm_compute; reflexivity))
    as (c' & _ & Hl & Hid & _).
  exists c'. split; [exact Hl | exact Hid].
Defined.

Definition demo_item : RevocationItem := MkRevocationItem 101 "alice" "vcw0123456789ab" 1 CredentialRevoked.
Definition demo_logged_out : DB := state_of (RevokeNativeSession 5 (digest "n")) demo_db.

Lemma CompleteGuestIdentityRevocation_once_witness : exists u s',
  CompleteGuestIdentityRevocation 6 demo_item demo_logged_out = inr (u, s') /\
  CompleteGuestIdentityRevocation 7 demo_item s' = inl ErrConflict.
Proof.
  eexists _, _. split; [vm_compute; reflexivity |].
  edestruct (proj2 (CompleteGuestIdentityRevocation_once 6 demo_item demo_logged_out)) as (_ & _ & _ & _ & Hno);
    [vm_compute; reflexivity | exact (Hno 7)].
Defined.
End demo.
