(* ===== verification/StoreAgentProofs.v ===== *)
(** * Agent logins in a Guest

    Two guarantees that the triggers keep against every statement: a person
    and an agent never share an OS account, and a login attempt that has been
    overtaken is refused from then on. *)
From stdpp Require Import base strings list relations.
From Stdlib Require Import ZArith Lia Ascii.
From S2P Require Import Prelude GoStrings Auth GuestIdentity Db Triggers TriggerLemmas StoreAccess StoreConn StoreAgent StoreNative StoreNativeProofs Demo.

Local Open Scope string_scope.
Local Open Scope list_scope.
Local Open Scope Z_scope.

Implicit Types (s : DB) (g : AgentGuestSession) (a : NativeGuestAccount).

(** ** Statements on the two account tables

    Whatever its predicate and its assignments, a statement of any
    transaction writes these tables through one of these forms. *)
Inductive account_stmt s s' : Prop :=
| st_update_agent p f l : update_agent_guest_sessions p f s = inr (l, s') -> account_stmt s s'
| st_insert_agent row r : insert_agent_guest_session row s = inr (r, s') -> account_stmt s s'
| st_update_native now txid p f l : update_native_guest_accounts now txid p f s = inr (l, s') -> account_stmt s s'
| st_insert_native row r : insert_native_guest_account row s = inr (r, s') -> account_stmt s s'
| st_elsewhere : agent_guest_sessions s' = agent_guest_sessions s -> native_guest_accounts s' = native_guest_accounts s ->
    account_stmt s s'.

Definition account_trace : DB -> DB -> Prop := rtc account_stmt.

Lemma account_trace_trans s1 s2 s3 : account_trace s1 s2 -> account_trace s2 s3 -> account_trace s1 s3.
Proof. unfold account_trace. intros. by transitivity s2. Qed.

(** An UPDATE of leases is a sequence of such statements: its AFTER trigger
    revokes the sessions of a closed lease. *)
Lemma after_lease_trace now o s u s' : after_update_lease now o s = inr (u, s') -> account_trace s s'.
Proof.
  unfold after_update_lease, revoke_agent_guest_session, queue_desktop_computer_revocation.
  destruct (lease_closed (fst o) (snd o)); intros E; inv_tx; [| apply rtc_refl].
  match goal with H : update_agent_guest_sessions _ _ _ = _ |- _ => eapply rtc_l; [by eapply st_update_agent |] end.
  match goal with H : tfold _ _ _ = inr (?v, _) |- _ => revert H; generalize v end.
  intros v Ht. apply rtc_once. apply st_elsewhere;
    revert Ht; apply (tfold_preserves (fun s s' => _ s' = _ s)); try done; try congruence; intros; by inv_tx.
Qed.

Lemma tfold_trace {A} (f : A -> tx DB unit) l s u s' :
  (forall x s v s', f x s = inr (v, s') -> account_trace s s') -> tfold f l s = inr (u, s') -> account_trace s s'.
Proof. intros Hf. apply tfold_preserves; [apply rtc_refl | intros ? ? ?; apply account_trace_trans |]. intros ? ? ? ? _. apply Hf. Qed.

Lemma trace_elsewhere s s' : agent_guest_sessions s' = agent_guest_sessions s ->
  native_guest_accounts s' = native_guest_accounts s -> account_trace s s'.
Proof. intros. apply rtc_once. by apply st_elsewhere. Qed.

Lemma update_leases_trace now p f s l s' : update_desktop_leases now p f s = inr (l, s') -> account_trace s s'.
Proof.
  unfold update_desktop_leases. intros E. inv_tx.
  match goal with H : update_each _ _ _ _ = inr (_, ?x) |- _ => apply (account_trace_trans _ x) end.
  - match goal with H : update_each _ _ _ _ = _ |- _ => revert H end.
    apply update_each_preserves; [apply rtc_refl | intros ? ? ?; apply account_trace_trans |].
    intros r s1 r' s2 Hb. apply before_update_lease_inr in Hb as [_ Hb].
    unfold assign_desktop_computer_epoch, advance_epoch in Hb. inv_sql.
    destruct (_ && _); inv_sql; by apply trace_elsewhere.
  - match goal with H : tfold _ _ ?m = _ |- _ => apply (account_trace_trans _ m); [by apply trace_elsewhere |]; revert H end.
    apply tfold_trace. intros ? ? ? ? Ha. exact (after_lease_trace _ _ _ _ _ Ha).
Qed.

(** ** Nobody shares an OS account *)
Definition accounts_apart s : Prop :=
  forall g a, In g (agent_guest_sessions s) -> In a (native_guest_accounts s) -> a_desktop_vmid a = s_desktop_vmid g ->
    same_os_account (s_guest_uid g) (a_guest_uid a) (s_guest_sid g) (a_guest_sid a) = false.

Lemma same_os_account_sym uid uid' sid sid' : same_os_account uid uid' sid sid' = same_os_account uid' uid sid' sid.
Proof.
  apply eq_true_iff_eq. unfold same_os_account. b2p. split; intros [[? ->] | [? ->]]; auto.
Qed.

Lemma same_os_account_named uid uid' sid sid' : same_os_account uid uid' sid sid' = true -> uid <> 0 \/ sid <> "".
Proof. unfold same_os_account. intros E. b2p. destruct E as [[? _] | [? _]]; [left; lia | by right]. Qed.

(** The check of a trigger needs only be read where it applies. *)
Lemma apart_named uid uid' sid sid' :
  (uid <> 0 \/ sid <> "" -> same_os_account uid uid' sid sid' = false) -> same_os_account uid uid' sid sid' = false.
Proof. intros Hn. destruct (same_os_account uid uid' sid sid') eqn:E; [| done]. by apply Hn, (same_os_account_named uid uid' sid sid'). Qed.

Lemma account_stmt_apart s s' : account_stmt s s' -> accounts_apart s -> accounts_apart s'.
Proof.
  intros [p f l E | row r E | now txid p f l E | row r E | Hg Ha] Hs g a Hgin Hain Hv.
  - apply update_agent_guest_inr in E as (-> & _ & _ & Hg). simpl in *. apply in_update_where in Hgin as (g0 & Hg0 & ->).
    destruct (p g0) eqn:Ep; [| by apply Hs]. apply apart_named. intros Hn. by apply (gg_cross _ _ _ (Hg g0 Hg0 Ep)).
  - apply insert_agent_guest_inr in E as (-> & -> & _ & _ & Hx). simpl in *. apply in_app_iff in Hgin as [Hgin | [<- | []]]; [by apply Hs |].
    apply apart_named. intros Hn. by apply Hx.
  - apply update_native_inr in E as (Hf & Ha & _ & _ & _ & Hstep).
    rewrite (native_frame_get agent_guest_sessions _ _ (fun _ => eq_refl) Hf) in Hgin.
    rewrite Ha in Hain. apply in_update_where in Hain as (a0 & Ha0 & ->). destruct (p a0) eqn:Ep; [| by apply Hs].
    destruct (Hstep a0 Ha0 Ep) as (Hid & _). unfold same_native_identity in Hid. b2p. destruct_and!.
    replace (a_guest_uid (f a0)) with (a_guest_uid a0) by done. replace (a_guest_sid (f a0)) with (a_guest_sid a0) by done.
    apply Hs; [done | done | congruence].
  - apply insert_native_inr in E as (-> & -> & _ & _ & _ & _ & _ & Hx). simpl in *. apply in_app_iff in Hain as [Hain | [<- | []]]; [by apply Hs |].
    rewrite same_os_account_sym. apply apart_named. intros Hn. by apply Hx.
  - rewrite Hg in Hgin. rewrite Ha in Hain. by apply Hs.
Qed.

(** A person and an agent never share an OS account: if no Guest account
    is named by both tables, none ever will be, whatever statements run. *)
Theorem guest_accounts_apart s s' : accounts_apart s -> account_trace s s' -> accounts_apart s'.
Proof. intros Hs Htr. revert Hs. induction Htr as [| s s1 s' Hst _ IH]; [done | eauto using account_stmt_apart]. Qed.

(** ** Overtaken attempts *)
Definition attempt_before (g g' : AgentGuestSession) : Prop :=
  s_generation g < s_generation g' \/ (s_generation g = s_generation g' /\ s_login_generation g < s_login_generation g').

Definition overtaken s item : Prop :=
  exists g, In g (agent_guest_sessions s) /\ s_desktop_vmid g = s_desktop_vmid item /\ s_agent_id g = s_agent_id item /\
    attempt_before item g.

Lemma account_stmt_overtaken item s s' : account_stmt s s' -> overtaken s item -> overtaken s' item.
Proof.
  intros [p f l E | row r E | now txid p f l E | row r E | Hg Ha] (g & Hin & Hv & Hid & Hlt).
  - apply update_agent_guest_inr in E as (-> & _ & _ & Hg). exists (if p g then f g else g). split.
    { simpl. apply in_update_where. eauto. }
    destruct (p g) eqn:Ep; [| done]. destruct (Hg g Hin Ep) as [(? & ? & _) _ _ Hlogin _].
    split_and!; [congruence.. |]. unfold attempt_before in *. destruct Hlogin as [(_ & _ & ? & ?) | (_ & _ & ?)]; lia.
  - apply insert_agent_guest_inr in E as (_ & -> & _). exists g. split; [simpl; apply in_app_iff; by left | done].
  - apply update_native_inr in E as (Hf & _). exists g.
    by rewrite (native_frame_get agent_guest_sessions _ _ (fun _ => eq_refl) Hf).
  - apply insert_native_inr in E as (_ & -> & _). by exists g.
  - exists g. by rewrite Hg.
Qed.

Definition one_session s : Prop := agent_guest_indexes (agent_guest_sessions s) = true.

Lemma account_stmt_indexes s s' : account_stmt s s' -> one_session s -> one_session s'.
Proof.
  unfold one_session. intros [p f l E | row r E | now txid p f l E | row r E | Hg Ha] Hi.
  - by apply update_agent_guest_inr in E as (_ & _ & ? & _).
  - by apply insert_agent_guest_inr in E as (_ & _ & _ & ? & _).
  - apply update_native_inr in E as (Hf & _). by rewrite (native_frame_get agent_guest_sessions _ _ (fun _ => eq_refl) Hf).
  - by apply insert_native_inr in E as (_ & -> & _).
  - by rewrite Hg.
Qed.

Section attempts.
Context `{Sha256}.

(** Every answer to an attempt is refused. *)
Definition attempt_refused s item : Prop :=
  (forall now, committed (MarkAgentGuestSessionReady now item) s = false) /\
  (forall now, committed (BindAgentGuestAccount now item) s = false) /\
  (forall now, committed (BindRevokingAgentGuestAccount now item) s = false) /\
  (forall now, committed (BeginAgentGuestLogin now item) s = false) /\
  (forall now, committed (CompleteAgentGuestSessionRevocation now item) s = false).

Lemma attempt_rows s item g : one_session s -> overtaken s item -> In g (agent_guest_sessions s) -> same_attempt item g = true -> False.
Proof.
  unfold one_session, agent_guest_indexes, same_attempt. intros Hi (x & Hx & Hv & Hid & Hlt) Hg Hs. b2p. destruct_and!.
  assert (g = x) as ->; [| unfold attempt_before in Hlt; lia].
  eapply (unique_index_inj (fun g => Some (s_desktop_vmid g, s_agent_id g))); eauto. simpl. congruence.
Qed.

Lemma attempt_update s item p f l s' : one_session s -> overtaken s item ->
  (forall g, p g = true -> same_attempt item g = true) ->
  update_agent_guest_sessions p f s = inr (l, s') -> l = [].
Proof.
  intros Hi Ho Hp E. apply update_agent_guest_inr in E as (_ & -> & _).
  destruct (rows p (agent_guest_sessions s)) as [| g r] eqn:Er; [done | exfalso].
  assert (In g (rows p (agent_guest_sessions s))) as Hg by (rewrite Er; by left). apply filter_In in Hg as [Hg Hpg].
  by eapply (attempt_rows s item g); auto.
Qed.
Ltac no_rows item Ho :=
  match goal with E : update_agent_guest_sessions _ _ _ = inr (?l, _) |- _ =>
    eapply (attempt_update _ item) in E; [subst l | done | exact Ho | intros g Hp; b2p; tauto] end.

(** An overtaken login attempt stays refused: once an account's
    generation or login generation is past the attempt's, no readiness report,
    identity binding, further login or cleanup receipt of the attempt is
    accepted, whatever statements run in between. *)
Theorem overtaken_attempt_refused s s' item :
  one_session s -> overtaken s item -> account_trace s s' -> attempt_refused s' item.
Proof.
  intros Hi Ho Htr. assert (one_session s' /\ overtaken s' item) as [Hi' Ho'].
  { revert Hi Ho. induction Htr as [| s s1 s' Hst _ IH]; [done |]. eauto using account_stmt_indexes, account_stmt_overtaken. }
  clear Hi Ho Htr. split_and!; intros now; apply not_committed; intros r s2 E.
  - unfold MarkAgentGuestSessionReady in E. inv_tx. no_rows item Ho'. done.
  - unfold BindAgentGuestAccount, bindAgentGuestAccount in E. inv_tx. no_rows item Ho'. done.
  - unfold BindRevokingAgentGuestAccount, bindAgentGuestAccount in E. inv_tx. no_rows item Ho'. done.
  - unfold BeginAgentGuestLogin in E. inv_tx. no_rows item Ho'. done.
  - unfold CompleteAgentGuestSessionRevocation in E. inv_tx. no_rows item Ho'. done.
Qed.
End attempts.

(** ** A run *)
Section demo.
#[local] Existing Instance demo_sha.

Definition agent_item (uid login : Z) (st : guest_state) : AgentGuestSession :=
  MkAgentGuestSession 102 "ag1" (AgentGuestUsername "ag1") "linux" "lease1" 1 1 login st uid "" "" "" hour 0.

Definition demo_login : DB := demo_db <| agent_guest_sessions := [agent_item 2001 1 GProvisioning] |>.
Definition demo_relogin : DB := state_of (BeginAgentGuestLogin 5 (agent_item 2001 1 GProvisioning)) demo_login.

Lemma relogin_trace now item s : account_trace s (state_of (BeginAgentGuestLogin now item) s).
Proof.
  unfold state_of, run. destruct (BeginAgentGuestLogin now item s) as [| [r s']] eqn:E; [apply rtc_refl |].
  unfold BeginAgentGuestLogin in E. inv_tx. apply rtc_once. by eapply st_update_agent.
Qed.

Lemma guest_accounts_apart_witness : accounts_apart demo_relogin /\
  exists g, In g (agent_guest_sessions demo_relogin) /\ s_login_generation g = 2.
Proof.
  split; [| eexists; split; [vm_compute; left; reflexivity | reflexivity]].
  apply (guest_accounts_apart demo_login).
  - intros g a _ [].
  - apply relogin_trace.
Defined.

Lemma overtaken_attempt_refused_witness : attempt_refused demo_relogin (agent_item 2001 0 GProvisioning).
Proof.
  apply (overtaken_attempt_refused demo_login).
  - vm_compute. reflexivity.
  - exists (agent_item 2001 1 GProvisioning). split; [left; reflexivity |]. split; [reflexivity |]. split; [reflexivity |].
    right. split; reflexivity.
  - apply relogin_trace.
Defined.
End demo.
