(* ===== verification/StoreGatewayProofs.v ===== *)
(** * What a tunnel grant certifies

    Redemption and renewal re-establish the user's whole authority; a ticket
    is redeemed once; a closed tunnel stays closed. *)
From stdpp Require Import base strings list relations.
From Stdlib Require Import ZArith Lia Ascii.
From S2P Require Import Prelude GoStrings GuestIdentity Auth Net Db Demo Triggers TriggerLemmas StoreAccess StoreConn StoreAgent StoreNative StoreGateway StoreNativeProofs.

Local Open Scope string_scope.
Local Open Scope list_scope.
Local Open Scope Z_scope.

(** The authority behind a tunnel, stated without the query: who may use which
    connection under which policy, until when. *)
Record tunnel_authority (stmt : time) (s : DB) (c : DesktopConnectionSession) (rev : Z) (deadline : time) : Prop := {
  ta_open : In c (desktop_connection_sessions s) /\ c_state c = CActive /\ c_closed_at c = None /\
    c_termination_required c = false /\ stmt < c_expires_at c;
  ta_access : effective_user_desktop_access s (c_user_id c) (c_desktop_vmid c) = true;
  ta_session : exists n, In n (native_sessions s) /\ c_native_session_digest c = Some (ns_token_digest n) /\
    ns_user_id n = c_user_id c /\ stmt < ns_expires_at n /\ deadline = Z.min (c_expires_at c) (ns_expires_at n);
  ta_policy : exists p, In p (desktop_access_policies s) /\ dp_vmid p = c_desktop_vmid c /\ dp_state p = PolApplied /\
    dp_desired_revision p = rev /\ dp_applied_revision p = rev;
  ta_binding : exists b, In b (guest_identity_bindings s) /\ b_desktop_vmid b = c_desktop_vmid c /\
    b_user_id b = c_user_id c /\ b_guest_username b = c_guest_username c /\ (b_state b = BReady \/ b_state b = BProvisioning);
  ta_revocation : forall q, In q (guest_identity_revocations s) -> q_desktop_vmid q = c_desktop_vmid c ->
    q_requested_revision q <= q_completed_revision q;
  ta_native : forall a, In a (native_guest_accounts s) -> a_desktop_vmid a = c_desktop_vmid c ->
    a_state a <> NPending /\
    (a_user_id a = c_user_id c -> a_connection_id a = c_id c /\ a_operation a = NIssue /\ a_state a = NApplied)
}.

Section gateway_lemmas.
Context `{Sha256} (now stmt : time).
Implicit Types (s : DB) (t : GatewayTicket).

Lemma gatewayAccess_authority s c a : In c (desktop_connection_sessions s) -> gatewayAccess stmt s c = Some a ->
  ac_id a = c_id c /\ ac_user_id a = c_user_id c /\ Some (ac_native_session_digest a) = c_native_session_digest c /\
  tunnel_authority stmt s c (ac_policy_revision a) (ac_deadline a).
Proof.
  intros Hc. unfold gatewayAccess. destruct (_ && _) eqn:E; [| done]. intros Ha.
  apply bind_Some in Ha as (n & Hn & Ha). apply bind_Some in Ha as (d & Hd & Ha).
  destruct (access_binding s c d) eqn:Eb; [| done].
  apply bind_Some in Ha as (p & Hp & [= <-]). simpl.
  apply select_one_some in Hn as [Hn1 Hn2], Hd as [Hd1 Hd2], Hp as [Hp1 Hp2].
  unfold policy_current, by_vmid, guest_revocation_pending in *. b2p. destruct_and!.
  split_and!; auto. split; simpl; auto.
  - exists n. split_and!; auto.
  - exists p. split_and!; congruence.
  - unfold access_binding in Eb. apply exists_where_true in Eb as (b & Hb & E'). exists b.
    unfold binding_live in E'. b2p. tauto.
  - intros q Hq Hv. match goal with H : exists_where _ (guest_identity_revocations _) = false |- _ =>
      rewrite exists_where_false in H; specialize (H q Hq) end. unfold q_pending in *. b2p.
    match goal with H : _ \/ _ |- _ => destruct H; [done | lia] end.
  - intros x Hx Hv. match goal with H : exists_where _ (native_guest_accounts _) = false |- _ =>
      rewrite exists_where_false in H; specialize (H x Hx) end. unfold access_native_conflict in *. b2p.
    match goal with H : _ \/ _ |- _ => destruct H as [| [Hp' Hq']]; [done |] end. split; [done |].
    intros Hu. destruct Hq' as [| [[? ?] ?]]; [done |]. auto.
Qed.

Lemma access_rows_in s a : In a (gateway_access_rows stmt s) ->
  exists c, In c (desktop_connection_sessions s) /\ gatewayAccess stmt s c = Some a.
Proof.
  unfold gateway_access_rows. rewrite <- list_elem_of_In, list_elem_of_omap. intros (c & Hc & Ha).
  exists c. by rewrite <- list_elem_of_In.
Qed.

Lemma access_for_authority s id a : access_for stmt s id = Some a ->
  exists c, c_id c = id /\ Some (ac_native_session_digest a) = c_native_session_digest c /\
    tunnel_authority stmt s c (ac_policy_revision a) (ac_deadline a).
Proof.
  intros Ha. apply select_one_some in Ha as [Ha Hi]. b2p. apply access_rows_in in Ha as (c & Hc & Ha).
  apply gatewayAccess_authority in Ha as (? & _ & ? & ?); [| done]. exists c. split_and!; congruence.
Qed.

Lemma audit_ticket_tickets c g u e s x s' : auditGatewayTicket now c g u e s = inr (x, s') ->
  gateway_session_tickets s' = gateway_session_tickets s.
Proof. intros Ha. apply audit_ticket_frame in Ha. by eapply (audit_frame_get gateway_session_tickets). Qed.

Lemma head_map_rows {R} (p : R -> bool) (f : R -> R) l r :
  head (List.map f (rows p l)) = Some r -> exists r0, In r0 l /\ p r0 = true /\ r = f r0.
Proof.
  unfold rows. destruct (List.filter p l) as [| r0 l'] eqn:E; [done |]. intros [= <-].
  assert (In r0 (List.filter p l)) as Hin by (rewrite E; left; done). apply filter_In in Hin as []. eauto.
Qed.

Lemma scan_grant_inr l s g s' : scanGatewayGrant stmt l s = inr (g, s') ->
  s' = s /\ exists t, head l = Some t /\ grant_of stmt t = Some g /\ grant_ok g = true.
Proof. unfold scanGatewayGrant. intros H1. inv_tx. eauto 6. Qed.

(** What a successful redemption did. *)
Lemma redeem_inr random gw token s g s' :
  RedeemNativeGatewayTicket now stmt random gw token s = inr (g, s') ->
  exists dg t, gatewayTokenDigest token = Some dg /\ In t (gateway_session_tickets s) /\
    redeemable stmt s dg gw t = true /\
    let t' := t <| t_tunnel_id := Some ("tun_" +:+ OpaqueToken random); t_consumed_at := Some stmt;
                   t_lease_until := Some (lease_end stmt s t) |> in
    grant_of stmt t' = Some g /\ grant_ok g = true /\ In t' (gateway_session_tickets s') /\
    ticket_indexes (gateway_session_tickets s') = true.
Proof.
  unfold RedeemNativeGatewayTicket. intros Hr. inv_tx.
  match goal with H : update_gateway_tickets _ _ _ = _ |- _ => apply update_tickets_inr in H as (-> & -> & Hi & _) end.
  match goal with H : scanGatewayGrant _ _ _ = _ |- _ => apply scan_grant_inr in H as (-> & t0 & Hh & Hg & Hok) end.
  match goal with H : auditGatewayTicket _ _ _ _ _ _ = _ |- _ => apply audit_ticket_tickets in H as Ht end.
  apply head_map_rows in Hh as (t & Hin & Hp & ->).
  do 2 eexists. split_and!; eauto.
  - rewrite Ht. simpl. apply in_update_where. exists t. rewrite Hp. done.
  - rewrite Ht. done.
Qed.

Lemma renew_inr gw tn s g s' :
  RenewNativeGatewayGrant stmt gw tn s = inr (g, s') ->
  exists t, In t (gateway_session_tickets s) /\ renewable stmt s gw tn t = true /\
    let t' := t <| t_lease_until := Some (lease_end stmt s t) |> in
    grant_of stmt t' = Some g /\ grant_ok g = true /\ In t' (gateway_session_tickets s').
Proof.
  unfold RenewNativeGatewayGrant. intros Hr. inv_tx.
  match goal with H : update_gateway_tickets _ _ _ = _ |- _ => apply update_tickets_inr in H as (-> & -> & Hi & _) end.
  match goal with H : scanGatewayGrant _ _ _ = _ |- _ => apply scan_grant_inr in H as (-> & t0 & Hh & Hg & Hok) end.
  apply head_map_rows in Hh as (t & Hin & Hp & ->). exists t. split_and!; eauto.
  simpl. apply in_update_where. exists t. rewrite Hp. done.
Qed.

Lemma ticket_access_authority s t : ticket_access stmt s t = true ->
  exists c deadline, c_id c = t_connection_id t /\ tunnel_authority stmt s c (t_policy_revision t) deadline /\
    lease_end stmt s t = Z.min (t_session_deadline t) (Z.min deadline (stmt + GatewayAuthorizationWindow)).
Proof.
  unfold ticket_access, lease_end. destruct (access_for stmt s (t_connection_id t)) as [a |] eqn:E; [| done].
  apply access_for_authority in E as (c & Hc & _ & Ha). intros Hr. b2p. rewrite Hr. eauto.
Qed.
End gateway_lemmas.

(** ** The life of the ticket table *)
Section trace.
Context `{Sha256}.
Implicit Types (s : DB) (T : list GatewayTicket).

(** Everything the program does to the ticket table: the gateway operations
    at any time with any arguments, and any change that leaves the table
    alone (no other statement of the store names it). *)
Inductive gateway_step s : DB -> Prop :=
| step_create now stmt secret r :
    gateway_step s (state_of (CreateNativeGatewayTicket now stmt secret r) s)
| step_complete now stmt txid secret a r :
    gateway_step s (state_of (CompleteNativeGuestGatewayConnection now stmt txid secret a r) s)
| step_redeem now stmt random gw token :
    gateway_step s (state_of (RedeemNativeGatewayTicket now stmt random gw token) s)
| step_renew stmt gw tn : gateway_step s (state_of (RenewNativeGatewayGrant stmt gw tn) s)
| step_close now stmt gw tn : gateway_step s (state_of (CloseNativeGatewayGrant now stmt gw tn) s)
| step_other s' : gateway_session_tickets s' = gateway_session_tickets s -> gateway_step s s'.

Definition gateway_trace : DB -> DB -> Prop := rtc gateway_step.

(** Rows keep their authority and their past; keys stay unique. *)
Definition evolves T T' : Prop :=
  T' = T \/ (ticket_indexes T' = true /\
    forall t, In t T -> exists t', In t' T' /\ (t' = t \/ ticket_guard t t')).

Lemma update_evolves p f s l s' : update_gateway_tickets p f s = inr (l, s') ->
  evolves (gateway_session_tickets s) (gateway_session_tickets s').
Proof.
  intros Hu. apply update_tickets_inr in Hu as (-> & _ & Hi & Hg). right. split; [done |]. simpl.
  intros t Ht. exists (if p t then f t else t). split; [apply in_update_where; eauto |].
  destruct (p t) eqn:E; auto.
Qed.

Lemma insert_evolves t s r s' : insert_gateway_ticket t s = inr (r, s') ->
  evolves (gateway_session_tickets s) (gateway_session_tickets s').
Proof.
  intros Hi. apply insert_ticket_inr in Hi as (_ & -> & _ & Hi). right. split; [done |]. simpl.
  intros x Hx. exists x. rewrite in_app_iff. auto.
Qed.

Lemma create_evolves now stmt secret r s x s' : createNativeGatewayTicket now stmt secret r s = inr (x, s') ->
  evolves (gateway_session_tickets s) (gateway_session_tickets s').
Proof.
  unfold createNativeGatewayTicket. intros Hc. inv_tx.
  match goal with H : auditGatewayTicket _ _ _ _ _ _ = _ |- _ => apply audit_ticket_tickets in H as -> end.
  by eapply insert_evolves.
Qed.

(** Acknowledging a credential leaves the tickets to [finalize]. *)
Lemma complete_inr {X} now txid a (fin : option DesktopConnectionSession -> tx DB X) s r s' :
  completeNativeGuestAccountOperation now txid a fin s = inr (r, s') ->
  exists s1, gateway_session_tickets s1 = gateway_session_tickets s /\ fin (fst r) s1 = inr (snd r, s').
Proof.
  unfold completeNativeGuestAccountOperation. intros Hc. inv_tx.
  match goal with H : update_native_guest_accounts _ _ _ _ _ = _ |- _ => apply update_native_inr in H as (Hf & _) end.
  apply (native_frame_get gateway_session_tickets) in Hf; [| done].
  match goal with H : (fin _) ?x = _ |- _ => exists x; split; [| exact H] end.
  destruct (a_operation a == NIssue); inv_tx.
  - unfold insertDesktopConnectionSession, insert_desktop_connection in *. inv_sql.
    match goal with H : update_guest_identity_bindings _ _ _ = _ |- _ => apply update_bindings_inr in H as (-> & _) end.
    simpl. congruence.
  - unfold end_connection in *. inv_tx.
    match goal with H : update_desktop_connections _ _ _ = _ |- _ => apply update_connections_inr in H as (-> & _) end.
    destruct (a_operation a == NRevoke); inv_tx; [| simpl; congruence].
    match goal with H : update_guest_identity_bindings _ _ _ = _ |- _ => apply update_bindings_inr in H as (-> & _) end.
    simpl. congruence.
Qed.

Lemma state_of_evolves {A} (m : tx DB A) s :
  (forall a s', m s = inr (a, s') -> evolves (gateway_session_tickets s) (gateway_session_tickets s')) ->
  evolves (gateway_session_tickets s) (gateway_session_tickets (state_of m s)).
Proof. unfold state_of, run. intros Hm. destruct (m s) as [| [a s']]; simpl; [by left | eauto]. Qed.

Lemma gateway_step_evolves s s' : gateway_step s s' ->
  evolves (gateway_session_tickets s) (gateway_session_tickets s').
Proof.
  destruct 1 as [now stmt secret r | now stmt txid secret a r | now stmt random gw token | stmt gw tn
    | now stmt gw tn | s' Hs]; [apply state_of_evolves; intros x s' Hx .. | by left].
  - by eapply create_evolves.
  - unfold CompleteNativeGuestGatewayConnection in Hx. inv_tx.
    match goal with H : completeNativeGuestAccountOperation _ _ _ _ _ = _ |- _ => apply complete_inr in H as (s1 & <- & ?) end.
    by eapply create_evolves.
  - unfold RedeemNativeGatewayTicket in Hx. inv_tx.
    match goal with H : auditGatewayTicket _ _ _ _ _ _ = _ |- _ => apply audit_ticket_tickets in H as -> end.
    match goal with H : scanGatewayGrant _ _ _ = _ |- _ => apply scan_grant_inr in H as (-> & _) end.
    by eapply update_evolves.
  - unfold RenewNativeGatewayGrant in Hx. inv_tx.
    match goal with H : scanGatewayGrant _ _ _ = _ |- _ => apply scan_grant_inr in H as (-> & _) end.
    by eapply update_evolves.
  - unfold CloseNativeGatewayGrant in Hx. inv_tx.
    match goal with H : update_gateway_tickets _ _ _ = inr (_, ?m) |- _ => apply update_evolves in H;
      assert (gateway_session_tickets s' = gateway_session_tickets m) as ->; [| done] end.
    match goal with H : tfold _ _ _ = _ |- _ => revert H end.
    apply (tfold_preserves (fun s s' => gateway_session_tickets s' = gateway_session_tickets s)); [done | congruence |].
    intros t s1 v s2 _ Ha. by apply audit_ticket_tickets in Ha.
Qed.
End trace.

(** ** The theorems *)
Section theorems.
Context `{Sha256}.
Implicit Types (s : DB) (t : GatewayTicket) (T : list GatewayTicket).

(** A redeemed (C6) grant certifies the whole authority chain at redemption:
    an open active connection of a user with effective access, a live native
    session, an applied policy of exactly the pinned revision, a live Guest
    binding, no pending revocation and no competing credential; it is bound
    to the redeeming gateway and to the ticket's pinned target and
    certificate, and lasts at most five seconds and never past the earliest
    deadline. *)
Theorem RedeemNativeGatewayTicket_authorized now stmt random gw token s g s' :
  RedeemNativeGatewayTicket now stmt random gw token s = inr (g, s') ->
  exists c deadline t dg, gatewayTokenDigest token = Some dg /\ In t (gateway_session_tickets s) /\ t_token_digest t = dg /\
    t_consumed_at t = None /\ t_gateway_id t = gw /\ c_id c = t_connection_id t /\
    tunnel_authority stmt s c (GrantPolicyRevision g) deadline /\
    GrantConnectionID g = c_id c /\ GrantGatewayID g = gw /\ GrantTarget g = t_target_host t /\
    GrantCertificateSHA256 g = t_certificate_sha256 t /\ GrantPolicyRevision g = t_policy_revision t /\
    0 < ValidFor g <= micros 5 /\ stmt + ValidFor g <= Z.min deadline (t_session_deadline t).
Proof.
  intros Hr. apply redeem_inr in Hr as (dg & t & Hdg & Hin & Hp & Hg & Hok & _).
  unfold redeemable in Hp. b2p. destruct_and!.
  match goal with H : ticket_access _ _ _ = true |- _ => apply ticket_access_authority in H as (c & dl & Hc & Ha & Hl) end.
  unfold grant_of in Hg. simpl in Hg. injection Hg as <-. unfold grant_ok in Hok. b2p. simpl in *. destruct_and!.
  exists c, dl, t, dg. unfold GatewayAuthorizationWindow in *. split_and!; auto; lia.
Qed.

(** Renewal grants no more than redemption: the whole authority chain is
    re-established at the renewal's own time, the tunnel is not closed and
    its lease has not lapsed, and the new lease is again at most five
    seconds and never past the connection's, the session's or the ticket's
    deadline. *)
Theorem RenewNativeGatewayGrant_authorized stmt gw tn s g s' :
  RenewNativeGatewayGrant stmt gw tn s = inr (g, s') ->
  exists c deadline t lease, In t (gateway_session_tickets s) /\ t_tunnel_id t = Some tn /\ t_gateway_id t = gw /\
    t_closed_at t = None /\ t_lease_until t = Some lease /\ stmt < lease /\
    c_id c = t_connection_id t /\ tunnel_authority stmt s c (t_policy_revision t) deadline /\
    g = MkGrant (c_id c) gw tn (t_target_host t) (t_certificate_sha256 t) (t_policy_revision t) (ValidFor g) /\
    0 < ValidFor g <= micros 5 /\ stmt + ValidFor g <= Z.min deadline (t_session_deadline t).
Proof.
  intros Hr. apply renew_inr in Hr as (t & Hin & Hp & Hg & Hok & _).
  unfold renewable in Hp. b2p. destruct_and!. destruct (t_lease_until t) as [lease |] eqn:El; [| done]. b2p.
  match goal with H : ticket_access _ _ _ = true |- _ => apply ticket_access_authority in H as (c & dl & Hc & Ha & Hl) end.
  unfold grant_of in Hg. simpl in Hg.
  match goal with H : t_tunnel_id t = Some _ |- _ => rewrite H in Hg end. injection Hg as <-.
  unfold grant_ok in Hok. b2p. simpl in *. destruct_and!.
  exists c, dl, t, lease. unfold GatewayAuthorizationWindow in *. split_and!; auto; [congruence | lia..].
Qed.

Definition spent_ticket (dg : bytes) T : Prop :=
  ticket_indexes T = true /\ exists t, In t T /\ t_token_digest t = dg /\ t_consumed_at t <> None.

Lemma spent_evolves dg T T' : evolves T T' -> spent_ticket dg T -> spent_ticket dg T'.
Proof.
  intros [-> | [Hi He]]; [done |]. intros (_ & t & Ht & Hd & Hc). split; [done |].
  destruct (He t Ht) as (t' & Ht' & [-> | Hg]); [eauto |]. exists t'. split; [done |].
  destruct Hg as [Ha Hcons _ _]. destruct (Hcons Hc) as [_ Hc']. destruct Ha as (-> & _). rewrite Hc'. done.
Qed.

Definition closed_tunnel (tn : string) T : Prop :=
  ticket_indexes T = true /\ exists t, In t T /\ t_tunnel_id t = Some tn /\ t_consumed_at t <> None /\ t_closed_at t <> None.

Lemma closed_evolves tn T T' : evolves T T' -> closed_tunnel tn T -> closed_tunnel tn T'.
Proof.
  intros [-> | [Hi He]]; [done |]. intros (_ & t & Ht & Hd & Hc & Hcl). split; [done |].
  destruct (He t Ht) as (t' & Ht' & [-> | Hg]); [eauto |]. exists t'. split; [done |].
  destruct Hg as [_ Hcons Hclosed _]. destruct (Hcons Hc) as [Ht2 Hc2]. destruct (Hclosed Hcl) as [Hc3 _].
  rewrite Ht2, Hc2, Hc3. done.
Qed.

Lemma trace_keeps (P : list GatewayTicket -> Prop) s s' :
  (forall T T', evolves T T' -> P T -> P T') -> gateway_trace s s' ->
  P (gateway_session_tickets s) -> P (gateway_session_tickets s').
Proof. intros HP. induction 1 as [| s s1 s' Hs _ IH]; [done |]. intros Ht. apply IH. eapply HP; [| done]. by apply gateway_step_evolves. Qed.

Lemma spent_not_redeemable stmt s dg gw : spent_ticket dg (gateway_session_tickets s) ->
  forall t, In t (gateway_session_tickets s) -> redeemable stmt s dg gw t = false.
Proof.
  intros (Hi & t & Ht & Hd & Hc) x Hx. apply not_true_iff_false. intros Hp. unfold redeemable in Hp. b2p. destruct_and!.
  unfold ticket_indexes in Hi. b2p. destruct_and!.
  assert (x = t) as ->; [| done]. eapply (unique_index_inj (fun g => Some (t_token_digest g)) _ _ _ dg); simpl; eauto; congruence.
Qed.

(** A statement whose new rows the constraints accept succeeds. *)
Lemma update_tickets_ok p f s :
  (forall t, In t (gateway_session_tickets s) -> p t = true ->
     protect_gateway_ticket t (f t) s = inr (tt, s) /\ ticket_checks (f t) = true) ->
  ticket_indexes (update_where p f (gateway_session_tickets s)) = true ->
  update_gateway_tickets p f s = inr (List.map f (rows p (gateway_session_tickets s)),
    s <| gateway_session_tickets := update_where p f (gateway_session_tickets s) |>).
Proof.
  intros Hp Hi. unfold update_gateway_tickets. rewrite (tbind_ok _ _ _ (gateway_session_tickets s) s) by done.
  erewrite (tbind_ok (update_each _ _ _)); [| apply (update_each_ok _ f)].
  - rewrite Hi. rewrite (tbind_ok _ _ _ tt s) by done. rewrite (tbind_ok _ _ _ tt _ eq_refl), changed_update_where. done.
  - intros t Ht Hpt. destruct (Hp t Ht Hpt) as [Hg Hc]. rewrite (tbind_ok _ _ _ _ _ Hg), Hc. done.
Qed.

Lemma update_tickets_noop p f s : (forall t, In t (gateway_session_tickets s) -> p t = false) ->
  ticket_indexes (gateway_session_tickets s) = true ->
  exists s', update_gateway_tickets p f s = inr ([], s').
Proof.
  intros Hno Hi. assert (rows p (gateway_session_tickets s) = []) as Hr.
  { unfold rows. clear Hi. induction (gateway_session_tickets s) as [| t T IH]; [done |]. simpl. rewrite (Hno t) by (left; done).
    apply IH. intros. apply Hno. by right. }
  eexists. rewrite (update_tickets_ok p f s), Hr; [done | |].
  - intros t Ht Hpt. rewrite Hno in Hpt; done.
  - by rewrite update_where_id.
Qed.

(** A ticket is redeemed at most once (C7): after a successful redemption, in
    every later state of the program the same token is refused, by every
    gateway, at any time and with any randomness. *)
Theorem ticket_redeemed_once now stmt random gw token s g s1 s2 now' stmt' random' gw' :
  RedeemNativeGatewayTicket now stmt random gw token s = inr (g, s1) -> gateway_trace s1 s2 ->
  RedeemNativeGatewayTicket now' stmt' random' gw' token s2 = inl ErrNotFound.
Proof.
  intros Hr Htr. apply redeem_inr in Hr as (dg & t & Hdg & Hin & Hp & _ & _ & Hin' & Hi).
  assert (spent_ticket dg (gateway_session_tickets s2)) as Hspent.
  { eapply (trace_keeps (spent_ticket dg)); [apply spent_evolves | exact Htr |]. split; [done |].
    eexists. split; [exact Hin' |]. unfold redeemable in Hp. b2p. simpl. split; [tauto | done]. }
  pose proof (spent_not_redeemable stmt' s2 dg gw' Hspent) as Hno.
  destruct (update_tickets_noop (redeemable stmt' s2 dg gw') (fun t => t <| t_tunnel_id := Some ("tun_" +:+ OpaqueToken random');
      t_consumed_at := Some stmt'; t_lease_until := Some (lease_end stmt' s2 t) |>) s2 Hno (proj1 Hspent)) as [s3 Hs3].
  unfold RedeemNativeGatewayTicket. rewrite Hdg. unfold trow, tcatch, tget, ensure, mbind, tx_bind, mret, tx_ret.
  destruct (gateway_id_re gw'); [| done]. by rewrite Hs3.
Qed.

(** A closed tunnel is never renewed again, whatever happens in between
    and whoever asks. *)
Theorem closed_tunnel_never_renewed now stmt gw tn s u s1 s2 stmt' gw' :
  (exists t, In t (gateway_session_tickets s) /\ t_tunnel_id t = Some tn /\ t_gateway_id t = gw /\ t_consumed_at t <> None) ->
  CloseNativeGatewayGrant now stmt gw tn s = inr (u, s1) -> gateway_trace s1 s2 ->
  RenewNativeGatewayGrant stmt' gw' tn s2 = inl ErrNotFound.
Proof.
  intros (t & Hin & Htn & Hgw & Hc) Hcl Htr.
  assert (closed_tunnel tn (gateway_session_tickets s1)) as Hclosed.
  { unfold CloseNativeGatewayGrant in Hcl. inv_tx.
    match goal with H : update_gateway_tickets _ _ _ = inr (_, ?m) |- _ => 
      assert (gateway_session_tickets s1 = gateway_session_tickets m) as -> end.
    { match goal with H : tfold _ _ _ = _ |- _ => revert H end.
      apply (tfold_preserves (fun s s' => gateway_session_tickets s' = gateway_session_tickets s)); [done | congruence |].
      intros t' s3 v s4 _ Ha. by apply audit_ticket_tickets in Ha. }
    match goal with H : update_gateway_tickets _ _ _ = inr (_, ?m) |- _ => apply update_tickets_inr in H as (-> & _ & Hi & _) end.
    split; [done |]. simpl. eexists. split; [apply in_update_where; by exists t |].
    destruct (closable gw tn t) eqn:Ecl; [done |]. split_and!; [done.. |].
    unfold closable in Ecl. b2p. intros Hnone. destruct_or!; done. }
  eapply (trace_keeps (closed_tunnel tn)) in Hclosed; [| apply closed_evolves | exact Htr].
  assert (forall x, In x (gateway_session_tickets s2) -> renewable stmt' s2 gw' tn x = false) as Hno.
  { destruct Hclosed as (Hi & y & Hy & Hty & _ & Hcy). intros x Hx. apply not_true_iff_false. intros Hp.
    unfold renewable in Hp. b2p. destruct_and!. unfold ticket_indexes in Hi. b2p. destruct_and!.
    assert (x = y) as ->; [| done]. eapply (unique_index_inj t_tunnel_id _ _ _ tn); eauto. }
  destruct (update_tickets_noop (renewable stmt' s2 gw' tn) (fun t => t <| t_lease_until := Some (lease_end stmt' s2 t) |>) s2 Hno
    (proj1 Hclosed)) as [s3 Hs3].
  unfold RenewNativeGatewayGrant, tcatch, tget, ensure, mbind, tx_bind, mret, tx_ret.
  destruct (negb _); [| done]. by rewrite Hs3.
Qed.

(** ** From ticket to tunnel *)

Lemma access_rest stmt s s' : gateway_rest s' = gateway_rest s ->
  gateway_access_rows stmt s' = gateway_access_rows stmt s.
Proof.
  intros Hs. assert (forall x, gateway_access_rows stmt (gateway_rest x) = gateway_access_rows stmt x) as Hg by done.
  by rewrite <- (Hg s), <- (Hg s'), Hs.
Qed.

Lemma tfold_total {A} (f : A -> tx DB unit) l s : (forall a s, exists s', f a s = inr (tt, s')) ->
  exists s', tfold f l s = inr (tt, s').
Proof.
  intros Hf. revert s. induction l as [| a l IH]; intros s; [by eexists |]. simpl. destruct (Hf a s) as [s1 H1].
  rewrite (tbind_ok _ _ _ _ _ H1). apply IH.
Qed.

Lemma audit_ticket_total now c g u e s : exists s', auditGatewayTicket now c g u e s = inr (tt, s').
Proof. unfold auditGatewayTicket. rewrite (tbind_ok _ _ _ s s) by done. apply tfold_total. intros. by eexists. Qed.

(** Access does not lapse before its deadline. *)
Lemma gatewayAccess_lasts stmt stmt' s c a : gatewayAccess stmt s c = Some a -> stmt' < ac_deadline a ->
  exists a', gatewayAccess stmt' s c = Some a' /\ ac_id a' = ac_id a /\ ac_policy_revision a' = ac_policy_revision a /\
    stmt' < ac_deadline a'.
Proof.
  unfold gatewayAccess. destruct (_ && _) eqn:E; [| done]. intros Ha Hd.
  apply bind_Some in Ha as (n & Hn & Ha). apply bind_Some in Ha as (d & Hds & Ha).
  destruct (access_binding s c d) eqn:Eb; [| done].
  apply bind_Some in Ha as (p & Hp & [= <-]). simpl in Hd. apply select_one_some in Hn as [Hn1 Hn2]. b2p. destruct_and!.
  set (q := fun n : NativeSession => _ && _ && (stmt' <? ns_expires_at n)).
  destruct (select_one q (native_sessions s)) as [n' |] eqn:En.
  - exists (MkAccessRow (c_id c) (c_user_id c) (ns_token_digest n') (dp_desired_revision p) (Z.min (c_expires_at c) (ns_expires_at n'))).
    apply select_one_some in En as [_ Hq]. unfold q in Hq. b2p.
    destruct (_ && _) eqn:E' in |- *.
    + cbn [mbind option_bind]. rewrite Hds. cbn [mbind option_bind]. rewrite Eb, Hp. simpl. split_and!; [done.. | lia].
    + rewrite <- not_true_iff_false in E'. destruct E'. rewrite !andb_true_iff, !negb_true_iff, !bool_decide_eq_true, Z.ltb_lt.
      split_and!; done || lia.
  - apply select_one_none in En. rewrite exists_where_false in En. specialize (En n Hn1). unfold q in En. b2p.
    destruct_or!; done || lia.
Qed.

Lemma select_ac_id stmt s a : unique_index (fun c => Some (c_id c)) (desktop_connection_sessions s) = true ->
  In a (gateway_access_rows stmt s) -> access_for stmt s (ac_id a) = Some a.
Proof.
  intros Hu Ha. unfold access_for. destruct (select_one _ _) as [a' |] eqn:E.
  - apply select_one_some in E as [Ha' Hi]. b2p. f_equal.
    apply access_rows_in in Ha as (c & Hc & Hca), Ha' as (c' & Hc' & Hca').
    pose proof (gatewayAccess_authority _ _ _ _ Hc Hca) as [Hi1 _].
    pose proof (gatewayAccess_authority _ _ _ _ Hc' Hca') as [Hi2 _].
    assert (c = c') as <-; [| congruence].
    eapply (unique_index_inj (fun c => Some (c_id c)) _ _ _ (c_id c)); eauto. congruence.
  - apply select_one_none in E. rewrite exists_where_false in E. specialize (E a Ha). b2p. done.
Qed.

Lemma token_digest_minted secret : slen secret = 32 ->
  gatewayTokenDigest ("gwt_" +:+ OpaqueToken secret) = Some (TokenDigest ("gwt_" +:+ OpaqueToken secret)).
Proof.
  intros Hs. unfold gatewayTokenDigest.
  assert (cut_prefix "gwt_" ("gwt_" +:+ OpaqueToken secret) = Some (OpaqueToken secret)) as Hc by (by apply cut_prefix_some).
  assert (slen (OpaqueToken secret) = 43) as Hl by (unfold OpaqueToken; rewrite b64_encode_len, Hs; done).
  assert (b64_decode UrlAlphabet true (OpaqueToken secret) = Some secret) as Hd by apply b64_decode_encode.
  unfold has_prefix. rewrite Hc, slen_app, Hl, Hd, Hs. done.
Qed.

Lemma tunnel_id_minted random : slen random = 24 -> tunnel_id_re ("tun_" +:+ OpaqueToken random) = true.
Proof.
  intros Hr. apply match_class_spec. exists (OpaqueToken random). split; [done |]. split; [apply b64_encode_url |].
  assert (slen (OpaqueToken random) = 32) as -> by (unfold OpaqueToken; rewrite b64_encode_len, Hr; done). done.
Qed.

(** What a minted ticket is, and that nothing else changed. *)
Lemma create_inr now stmt secret r s tk s' : createNativeGatewayTicket now stmt secret r s = inr (tk, s') ->
  exists a, In a (gateway_access_rows stmt s) /\ ac_id a = TicketConnectionID r /\
    ac_policy_revision a = TicketPolicyRevision r /\ gateway_id_re (TicketGatewayID r) = true /\
    let t := MkGatewayTicket (TokenDigest ("gwt_" +:+ OpaqueToken secret)) (ac_id a) (TicketGatewayID r) (TicketTarget r) 3389
      (TicketCertificateSHA256 r) (ac_policy_revision a) stmt (Z.min (ac_deadline a) (stmt + micros 30)) (ac_deadline a)
      None None None None in
    tk = MkTicket ("gwt_" +:+ OpaqueToken secret) (t_expires_at t) /\ ticket_checks t = true /\
    gateway_session_tickets s' = gateway_session_tickets s ++ [t] /\
    ticket_indexes (gateway_session_tickets s') = true /\ gateway_rest s' = gateway_rest s.
Proof.
  unfold createNativeGatewayTicket. intros Hc. inv_tx.
  match goal with H : select_one _ _ = Some ?x |- _ => apply select_one_some in H as [Ha Hp]; exists x end. b2p. destruct_and!.
  match goal with H : insert_gateway_ticket _ _ = _ |- _ => apply insert_ticket_inr in H as (-> & -> & Hck & Hi) end.
  match goal with H : auditGatewayTicket _ _ _ _ _ _ = _ |- _ =>
    pose proof (audit_ticket_tickets _ _ _ _ _ _ _ _ H) as Ht; apply audit_ticket_frame, audit_gateway_frame in H as Hr end.
  rewrite Ht, Hr. unfold ticket_request_ok in *. b2p. destruct_and!. split_and!; done.
Qed.

Lemma protect_ticket_open t tn cons lease s : t_consumed_at t = None -> t_closed_at t = None ->
  protect_gateway_ticket t (t <| t_tunnel_id := tn; t_consumed_at := cons; t_lease_until := lease |>) s = inr (tt, s).
Proof.
  intros Hc Hcl. unfold protect_gateway_ticket. cbn [t_token_digest t_connection_id t_gateway_id t_target_host t_target_port
    t_certificate_sha256 t_policy_revision t_created_at t_expires_at t_session_deadline].
  rewrite (bool_decide_true (t_consumed_at t = None)), (bool_decide_true (t_closed_at t = None)), !eqb_refl by done. done.
Qed.

(** The redemption of an unconsumed ticket whose connection has access. *)
Lemma redeem_unconsumed stmt a secret r s a' now' stmt' random :
  let t := MkGatewayTicket (TokenDigest ("gwt_" +:+ OpaqueToken secret)) (ac_id a) (TicketGatewayID r) (TicketTarget r) 3389
      (TicketCertificateSHA256 r) (ac_policy_revision a) stmt (Z.min (ac_deadline a) (stmt + micros 30)) (ac_deadline a)
      None None None None in
  ticket_checks t = true -> In t (gateway_session_tickets s) -> ticket_indexes (gateway_session_tickets s) = true ->
  ac_id a = TicketConnectionID r -> ac_policy_revision a = TicketPolicyRevision r -> gateway_id_re (TicketGatewayID r) = true ->
  access_for stmt' s (ac_id a) = Some a' -> ac_policy_revision a' = TicketPolicyRevision r -> stmt' < ac_deadline a' ->
  slen secret = 32 -> slen random = 24 -> stmt <= stmt' < Z.min (ac_deadline a) (stmt + micros 30) ->
  (forall t, In t (gateway_session_tickets s) -> t_tunnel_id t <> Some ("tun_" +:+ OpaqueToken random)) ->
  exists v s3, RedeemNativeGatewayTicket now' stmt' random (TicketGatewayID r) ("gwt_" +:+ OpaqueToken secret) s =
    inr (MkGrant (TicketConnectionID r) (TicketGatewayID r) ("tun_" +:+ OpaqueToken random) (TicketTarget r)
           (TicketCertificateSHA256 r) (TicketPolicyRevision r) v, s3) /\ 0 < v <= micros 5.
Proof.
  intros t Hck Hin Hi Hid Hrev Hgw Hfor Hrev' Hd' Hs Hr Ht Hfresh.
  set (dg := TokenDigest _) in *.
  assert (forall x, In x (gateway_session_tickets s) -> redeemable stmt' s dg (TicketGatewayID r) x = true -> x = t) as Honly.
  { intros x Hx Hp. unfold redeemable in Hp. unfold ticket_indexes in Hi. b2p. destruct_and!.
    apply (unique_index_inj (fun g => Some (t_token_digest g)) (gateway_session_tickets s) x t dg);
      [done | done | exact Hin | by f_equal | done]. }
  assert (redeemable stmt' s dg (TicketGatewayID r) t = true) as Hred.
  { unfold redeemable, ticket_access. cbn [t t_token_digest t_gateway_id t_consumed_at t_expires_at t_session_deadline
      t_connection_id t_policy_revision]. rewrite Hfor, !andb_true_iff, !bool_decide_eq_true, !Z.ltb_lt. split_and!; done || lia. }
  assert (lease_end stmt' s t = Z.min (ac_deadline a) (Z.min (ac_deadline a') (stmt' + micros 5))) as Hle.
  { unfold lease_end. cbn [t t_connection_id t_session_deadline]. by rewrite Hfor. }
  set (f := fun t : GatewayTicket => t <| t_tunnel_id := Some ("tun_" +:+ OpaqueToken random); t_consumed_at := Some stmt';
    t_lease_until := Some (lease_end stmt' s t) |>).
  assert (rows (redeemable stmt' s dg (TicketGatewayID r)) (gateway_session_tickets s) = [t]) as Hrows.
  { unfold ticket_indexes in Hi. b2p. destruct_and!.
    pose proof (rows_at_most_one (fun g => Some (t_token_digest g)) dg (redeemable stmt' s dg (TicketGatewayID r))
      (gateway_session_tickets s) ltac:(done) ltac:(intros x Hx; unfold redeemable in Hx; b2p; destruct_and!; by f_equal)) as Hl.
    assert (In t (rows (redeemable stmt' s dg (TicketGatewayID r)) (gateway_session_tickets s))) as Hrow.
    { apply filter_In. split; [exact Hin | done]. }
    destruct (rows _ _) as [| x [| y l]]; [done | | simpl in Hl; lia]. by destruct Hrow as [-> | []]. }
  assert (update_gateway_tickets (redeemable stmt' s dg (TicketGatewayID r)) f s = inr ([f t],
    s <| gateway_session_tickets := update_where (redeemable stmt' s dg (TicketGatewayID r)) f (gateway_session_tickets s) |>)) as Hu.
  { rewrite (update_tickets_ok _ f s), Hrows; [done | |].
    - intros x Hx Hp. rewrite (Honly x Hx Hp). split; [by apply protect_ticket_open |].
      unfold ticket_checks in *. cbn [f t t_token_digest t_gateway_id t_target_host t_target_port t_certificate_sha256
        t_policy_revision t_tunnel_id t_created_at t_expires_at t_session_deadline t_consumed_at t_lease_until t_closed_at] in *.
      rewrite tunnel_id_minted, Hle by done. rewrite !andb_true_iff, !Z.leb_le, !Z.ltb_lt, !Z.eqb_eq in *. 
      unfold micros in *. destruct_and!. split_and!; done || lia.
    - unfold ticket_indexes in *. rewrite !andb_true_iff in *. destruct Hi as [[Hi1 Hi2] Hi3].
      rewrite !unique_index_same by done. split_and!; [done.. |].
      apply (unique_index_fresh _ ("tun_" +:+ OpaqueToken random)); [done | by rewrite Hrows | | done].
      intros x Hx. by apply Hfresh. }
  exists (lease_end stmt' s t - stmt').
  set (s2 := set_gateway_session_tickets _ s) in Hu.
  destruct (audit_ticket_total now' (TicketConnectionID r) (TicketGatewayID r) ("tun_" +:+ OpaqueToken random)
    "gateway.tunnel_authorized" s2) as [s3 Hs3].
  exists s3. split; [| unfold micros in *; lia].
  unfold RedeemNativeGatewayTicket. rewrite token_digest_minted by done. fold dg.
  rewrite (tbind_ok _ _ _ dg s) by done. rewrite Hgw, (tbind_ok _ _ _ tt s) by done. rewrite (tbind_ok _ _ _ s s) by done.
  rewrite (tbind_ok _ _ _ [f t] s2)
    by (unfold tcatch; change (update_gateway_tickets _ _ s) with (update_gateway_tickets (redeemable stmt' s dg (TicketGatewayID r)) f s);
        by rewrite Hu).
  set (g := MkGrant _ _ _ _ _ _ _).
  assert (scanGatewayGrant stmt' [f t] s2 = inr (g, s2)) as Hscan.
  { unfold scanGatewayGrant. rewrite (tbind_ok _ _ _ (f t) s2) by done.
    rewrite (tbind_ok _ _ _ g s2) by (unfold g; rewrite <- Hid, <- Hrev; done).
    assert (grant_ok g = true) as ->; [| done].
    unfold ticket_checks in Hck. unfold grant_ok, g. cbn [t t_token_digest t_gateway_id t_target_host t_target_port
      t_certificate_sha256 GrantTarget GrantCertificateSHA256 ValidFor] in *. rewrite Hle.
    rewrite !andb_true_iff, !bool_decide_eq_true, ?Z.leb_le, ?Z.ltb_lt, ?Z.eqb_eq in *. unfold GatewayAuthorizationWindow, micros in *.
    destruct_and!. split_and!; done || lia. }
  rewrite (tbind_ok _ _ _ _ _ Hscan). cbn [g GrantConnectionID GrantTunnelID].
  rewrite (tbind_ok _ _ _ _ _ Hs3). done.
Qed.
(** The authority that a ticket was minted with stands until the ticket
    expires when the other tables stay as they are. *)
Lemma minted_authority_stands now stmt secret r s tk s1 s2 stmt' :
  createNativeGatewayTicket now stmt secret r s = inr (tk, s1) -> gateway_rest s2 = gateway_rest s1 ->
  unique_index (fun c => Some (c_id c)) (desktop_connection_sessions s) = true -> stmt' < TicketExpiresAt tk ->
  exists a, access_for stmt' s2 (TicketConnectionID r) = Some a /\ ac_policy_revision a = TicketPolicyRevision r.
Proof.
  intros Hc Hrest2 Hci Ht. apply create_inr in Hc as (a & Ha & Hid & Hrev & _ & Hc). cbv zeta in Hc.
  destruct Hc as (-> & _ & _ & _ & Hrest). cbn [TicketExpiresAt t_expires_at] in *.
  apply access_rows_in in Ha as (c & Hc & Hca).
  destruct (gatewayAccess_lasts stmt stmt' s c a Hca ltac:(lia)) as (a' & Hca' & Hid' & Hrev' & Hd').
  exists a'. split; [| congruence]. unfold access_for. rewrite (access_rest stmt' s s2), <- Hid, <- Hid' by congruence.
  apply (select_ac_id stmt' s); [done |].
  unfold gateway_access_rows. apply list_elem_of_In, list_elem_of_omap. exists c. by rewrite list_elem_of_In.
Qed.

Lemma access_for_live stmt s id a : access_for stmt s id = Some a -> stmt < ac_deadline a.
Proof.
  unfold access_for. intros Hs. apply select_one_some in Hs as [Ha _]. apply access_rows_in in Ha as (c & _ & Ha).
  unfold gatewayAccess in Ha. destruct (_ && _) eqn:E; [| done].
  apply bind_Some in Ha as (n & Hn & Ha). apply bind_Some in Ha as (d & _ & Ha). destruct (access_binding s c d); [| done].
  apply bind_Some in Ha as (p & _ & [= <-]). apply select_one_some in Hn as [_ Hn]. b2p. destruct_and!. simpl. lia.
Qed.

(** Whatever the program does, the row of a ticket stays, and while it is
    unconsumed it is as it was inserted. *)
Definition ticket_kept t T : Prop :=
  ticket_indexes T = true /\ exists t', In t' T /\ ticket_checks t' = true /\
    (t_token_digest t' = t_token_digest t /\ t_connection_id t' = t_connection_id t /\ t_gateway_id t' = t_gateway_id t /\
     t_target_host t' = t_target_host t /\ t_target_port t' = t_target_port t /\ t_certificate_sha256 t' = t_certificate_sha256 t /\
     t_policy_revision t' = t_policy_revision t /\ t_created_at t' = t_created_at t /\ t_expires_at t' = t_expires_at t /\
     t_session_deadline t' = t_session_deadline t).

Lemma kept_evolves t T T' : evolves T T' -> ticket_kept t T -> ticket_kept t T'.
Proof.
  intros [-> | [Hi He]]; [done |]. intros (_ & x & Hx & Hck & Hs). split; [done |].
  destruct (He x Hx) as (x' & Hx' & [-> | Hg]); [by exists x |]. exists x'. split; [done |]. destruct Hg as [Ha _ _ Hck']. split; [done |].
  destruct_and!. split_and!; congruence.
Qed.

Lemma kept_unconsumed t T : t_tunnel_id t = None -> t_consumed_at t = None -> t_lease_until t = None -> t_closed_at t = None ->
  (forall x, In x T -> t_token_digest x = t_token_digest t -> t_consumed_at x = None) -> ticket_kept t T -> In t T.
Proof.
  intros H1 H2 H3 H4 Hun (_ & x & Hx & Hck & Hs). destruct_and!. assert (x = t) as <-; [| done].
  specialize (Hun x Hx ltac:(done)). unfold ticket_checks in Hck. apply andb_true_iff in Hck as [_ Hck].
  destruct x, t. cbn in *. subst. destruct t_tunnel_id, t_lease_until, t_closed_at; done.
Qed.

(** (C31) A minted ticket works until it expires: in every later state of the
    program - after gateway operations of any kind and whatever else
    happened to the other tables - in which it was not redeemed yet and its
    connection still has access at the policy revision it was minted for,
    the gateway it names redeems it for the pinned connection, target,
    certificate and revision, with a positive lease of at most five seconds.
    The random tunnel id must be new. *)
Theorem minted_ticket_redeems now stmt secret r s tk s1 s2 a' now' stmt' random :
  createNativeGatewayTicket now stmt secret r s = inr (tk, s1) -> gateway_trace s1 s2 ->
  (forall t, In t (gateway_session_tickets s2) -> t_token_digest t = TokenDigest (TicketToken tk) -> t_consumed_at t = None) ->
  access_for stmt' s2 (TicketConnectionID r) = Some a' -> ac_policy_revision a' = TicketPolicyRevision r ->
  slen secret = 32 -> slen random = 24 -> stmt <= stmt' < TicketExpiresAt tk ->
  (forall t, In t (gateway_session_tickets s2) -> t_tunnel_id t <> Some ("tun_" +:+ OpaqueToken random)) ->
  exists v s3, RedeemNativeGatewayTicket now' stmt' random (TicketGatewayID r) (TicketToken tk) s2 =
    inr (MkGrant (TicketConnectionID r) (TicketGatewayID r) ("tun_" +:+ OpaqueToken random) (TicketTarget r)
           (TicketCertificateSHA256 r) (TicketPolicyRevision r) v, s3) /\ 0 < v <= micros 5.
Proof.
  intros Hc Htr Hun Hfor Hrev' Hs Hr Ht Hfresh. apply create_inr in Hc as (a & Ha & Hid & Hrev & Hgw & Hc). cbv zeta in Hc.
  destruct Hc as (-> & Hck & HT & Hi & _). cbn [TicketToken TicketExpiresAt t_expires_at] in *.
  pose proof (access_for_live _ _ _ _ Hfor) as Hlive. rewrite <- Hid in Hfor.
  set (t := MkGatewayTicket _ _ _ _ _ _ _ _ _ _ _ _ _ _) in *.
  assert (ticket_kept t (gateway_session_tickets s2)) as Hkept.
  { eapply (trace_keeps (ticket_kept t)); [apply kept_evolves | exact Htr |]. split; [done |]. exists t.
    rewrite HT, in_app_iff. split_and!; try done. right. by left. }
  assert (In t (gateway_session_tickets s2)) as Hin by (by apply kept_unconsumed).
  destruct Hkept as [Hi2 _]. exact (redeem_unconsumed stmt a secret r s2 a' now' stmt' random Hck Hin Hi2 Hid Hrev Hgw Hfor Hrev' Hlive Hs Hr Ht Hfresh).
Qed.
End theorems.

(** ** A tunnel of the demo deployment *)
Section demo.
#[local] Existing Instance demo_sha.

Definition demo_request : NativeGatewayTicketRequest :=
  MkTicketRequest "conn_aaaaaaaa" (digest "n") "gw_gateway01" (ipv4 10 0 0 7) (digest "c") 1.
Definition demo_secret : bytes := digest "s".
Definition demo_random : bytes := demo_pad 24 "r".
Definition demo_token : string := "gwt_" +:+ OpaqueToken demo_secret.
Definition demo_tunnel : string := "tun_" +:+ OpaqueToken demo_random.
Definition demo_ticketed : DB := state_of (createNativeGatewayTicket 1 1 demo_secret demo_request) demo_db.
Definition demo_redeemed : DB := state_of (RedeemNativeGatewayTicket 2 2 demo_random "gw_gateway01" demo_token) demo_ticketed.

Lemma RedeemNativeGatewayTicket_authorized_witness : exists g s',
  RedeemNativeGatewayTicket 2 2 demo_random "gw_gateway01" demo_token demo_ticketed = inr (g, s') /\ 0 < ValidFor g <= micros 5.
Proof.
  eexists _, _. split; [vm_compute; reflexivity |].
  edestruct (RedeemNativeGatewayTicket_authorized 2 2 demo_random "gw_gateway01" demo_token demo_ticketed)
    as (c & deadline & t & dg & H); [vm_compute; reflexivity |]. tauto.
Defined.

Lemma RenewNativeGatewayGrant_authorized_witness : exists g s',
  RenewNativeGatewayGrant 3 "gw_gateway01" demo_tunnel demo_redeemed = inr (g, s') /\ 0 < ValidFor g <= micros 5.
Proof.
  eexists _, _. split; [vm_compute; reflexivity |].
  edestruct (RenewNativeGatewayGrant_authorized 3 "gw_gateway01" demo_tunnel demo_redeemed)
    as (c & deadline & t & dg & H); [vm_compute; reflexivity |]. tauto.
Defined.

(** Redeem, renew and try again. *)
Lemma ticket_redeemed_once_witness :
  RedeemNativeGatewayTicket 4 4 (digest "q") "gw_gateway01" demo_token
    (state_of (RenewNativeGatewayGrant 3 "gw_gateway01" demo_tunnel) demo_redeemed) = inl ErrNotFound.
Proof.
  eapply (ticket_redeemed_once 2 2 demo_random "gw_gateway01" demo_token demo_ticketed _ demo_redeemed).
  - vm_compute. reflexivity.
  - apply rtc_once. apply step_renew.
Defined.

Lemma closed_tunnel_never_renewed_witness :
  RenewNativeGatewayGrant 4 "gw_gateway01" demo_tunnel
    (state_of (CloseNativeGatewayGrant 3 3 "gw_gateway01" demo_tunnel) demo_redeemed) = inl ErrNotFound.
Proof.
  eapply (closed_tunnel_never_renewed 3 3 "gw_gateway01" demo_tunnel demo_redeemed).
  - eexists. split; [left; reflexivity |]. vm_compute. split_and!; done.
  - vm_compute. reflexivity.
  - apply rtc_refl.
Defined.

(** In between another gateway tries the ticket and the portal sessions end. *)
Definition demo_tried : DB := state_of (RedeemNativeGatewayTicket 2 2 demo_random "gw_gateway02" demo_token) demo_ticketed.
Definition demo_later : DB := demo_tried <| web_sessions := @nil WebSession |>.

Lemma minted_ticket_redeems_witness : exists v s3,
  RedeemNativeGatewayTicket 3 3 demo_random "gw_gateway01" demo_token demo_later =
    inr (MkGrant "conn_aaaaaaaa" "gw_gateway01" demo_tunnel (ipv4 10 0 0 7) (digest "c") 1 v, s3) /\ 0 < v <= micros 5.
Proof.
  refine (minted_ticket_redeems 1 1 demo_secret demo_request demo_db (MkTicket demo_token (1 + micros 30)) demo_ticketed demo_later
    (MkAccessRow "conn_aaaaaaaa" "alice" (digest "n") 1 hour) 3 3 demo_random _ _ _ _ _ _ _ _ _).
  - vm_compute. reflexivity.
  - apply (rtc_l _ _ demo_tried); [apply step_redeem | by apply rtc_once, step_other].
  - intros t [<- | []] _. vm_compute. reflexivity.
  - vm_compute. reflexivity.
  - reflexivity.
  - vm_compute. reflexivity.
  - vm_compute. reflexivity.
  - vm_compute. split; congruence.
  - intros t [<- | []]. vm_compute. discriminate.
Defined.
End demo.
