(* ===== verification/GatewayRelay.v ===== *)
(** * The relay of a gateway ([internal/gateway/relay.go])

    [Relay.serve] owns one client socket: it takes a slot, redeems the ticket,
    dials the pinned target, and copies bytes under a deadline that only a
    successful renewal moves.  Everything outside the process - the answers of
    the authority, the clock, the dial, the order in which the select
    statement wakes up - is a [script]; the model returns what [serve] did, in
    order, and its result.  Times are points of one monotonic clock. *)
From stdpp Require Import base strings list.
From Stdlib Require Import ZArith Lia.
From S2P Require Import Prelude GoStrings Net Db Triggers StoreGateway.

Local Open Scope string_scope.
Local Open Scope list_scope.
Local Open Scope Z_scope.

Inductive gw_error : Set :=
| GwConfiguration | GwCapacity | GwAuthorization | GwLeaseExpired | GwTransport | GwClosure
| GwCanceled.  (* context.Canceled and the like *)

#[export] Instance gw_error_eq_dec : EqDecision gw_error.
Proof. solve_decision. Defined.

Definition controlTimeout : Z := micros 2.

(** ** The authority behind the relay

    [Authority]: an answer is the pair that the Go methods return.  Of an
    error only one thing is ever asked: whether it is [store.ErrNotFound] or
    [store.ErrConflict]. *)
Inductive rpc_error : Set := RpcRefused | RpcFailed.

#[export] Instance rpc_error_eq_dec : EqDecision rpc_error.
Proof. solve_decision. Defined.

Record reply : Set := MkReply { rp_grant : NativeGatewayGrant; rp_error : option rpc_error }.
Definition rp_err (rp : reply) : bool := rp_error rp != None.

Definition zero_grant : NativeGatewayGrant := MkGrant "" "" "" (V4 0) "" 0 0.
Definition failed_reply : reply := MkReply zero_grant (Some RpcFailed).

Class Authority (S : Type) := {
  redeem : time -> string -> string -> S -> reply * S;
  renew : time -> string -> string -> S -> reply * S;
  close_grant : time -> string -> string -> S -> option rpc_error * S
}.

(** A grant whose fields survive the wire: text in valid UTF-8, an IPv4
    address, a 64-bit revision. *)
Definition wire_safe (g : NativeGatewayGrant) : Prop :=
  ValidString (GrantConnectionID g) = true /\ ValidString (GrantGatewayID g) = true /\ ValidString (GrantTunnelID g) = true /\
  Is4 (GrantTarget g) = true /\ Addr_wf (GrantTarget g) /\ 0 < GrantPolicyRevision g < 2 ^ 63.

(** What a client of the interface may rely on, in the states that the engine
    below admits: an answer without an error is a grant of this gateway, for
    at most the authorization window, that the authority could certify when it
    answered. *)
Class AuthorityLaws (S : Type) `{Authority S} := {
  admissible : S -> Prop;
  holds : S -> time -> NativeGatewayGrant -> Prop;
  certified s t gw g := holds s t g /\ GrantGatewayID g = gw /\ ValidFor g <= GatewayAuthorizationWindow /\ wire_safe g;
  redeem_certifies : forall t gw ticket s r s', admissible s -> redeem t gw ticket s = (r, s') -> rp_err r = false ->
    certified s t gw (rp_grant r);
  renew_certifies : forall t gw tunnel s r s', admissible s -> renew t gw tunnel s = (r, s') -> rp_err r = false ->
    certified s t gw (rp_grant r)
}.

(** ** Configuration *)
Record RelayConfig : Set := MkRelayConfig {
  CfgGatewayID : string;
  CfgAllowedTargets : list Prefix;
  CfgMaxConnections : Z
}.

Record Relay : Set := MkRelay { r_id : string; r_allowed : list Prefix; r_capacity : Z }.

(** [authority == nil] is the caller's [has_authority]. *)
Definition New (has_authority : bool) (config : RelayConfig) : gw_error + Relay :=
  if negb has_authority || negb (gateway_id_re (CfgGatewayID config)) ||
     negb (validTargetPrefixes (CfgAllowedTargets config)) ||
     (CfgMaxConnections config <? 1) || (4096 <? CfgMaxConnections config)
  then inl GwConfiguration
  else inr (MkRelay (CfgGatewayID config) (CfgAllowedTargets config) (CfgMaxConnections config)).

Section relay.
Variable r : Relay.

Definition validGrant (g : NativeGatewayGrant) : bool :=
  negb ((GrantGatewayID g != r_id r) || negb (tunnel_id_re (GrantTunnelID g)) || (GrantConnectionID g == "") ||
    (140 <? slen (GrantConnectionID g)) || negb (Is4 (GrantTarget g)) || negb (IsPrivate (GrantTarget g)) ||
    (slen (GrantCertificateSHA256 g) != 32) || (GrantPolicyRevision g <=? 0) ||
    (ValidFor g <=? 0) || (GatewayAuthorizationWindow <? ValidFor g)) &&
  existsb (fun prefix => Contains prefix (GrantTarget g)) (r_allowed r).

(** ** Observable actions *)
Inductive action : Set :=
| AcquireSlot
| ReleaseSlot
| Redeem (gatewayID ticket : string)
| Renew (gatewayID tunnel : string)
| CloseGrant (gatewayID tunnel : string)
| Dial (target : Addr) (port : Z)
| SetDeadline (deadline : time)
| SendReady
| StartCopy
| JoinCopy
| CloseClient
| CloseGuest.

(** ** The tunnel's loop *)
Record tunnel : Set := MkTunnel {
  tn_grant : NativeGatewayGrant;
  tn_deadline : time;
  tn_pending : option time   (* the start of the renewal in flight *)
}.

(** A wake-up of the select statement. *)
Inductive event : Set :=
| EvDone
| EvExpiry
| EvCopy (failed : bool)
| EvRenew (requestStart : time)
| EvReply (rp : reply) (rpc_err : bool) (now now' : time) (set_failed : bool).

Definition same_endpoint (next grant : NativeGatewayGrant) : bool :=
  (GrantTunnelID next == GrantTunnelID grant) && (GrantConnectionID next == GrantConnectionID grant) &&
  (GrantTarget next == GrantTarget grant) && (GrantPolicyRevision next == GrantPolicyRevision grant) &&
  (GrantCertificateSHA256 next == GrantCertificateSHA256 grant).

Inductive outcome : Set :=
| Running (t : tunnel)
| Stopped (e : option gw_error).

(** A renewal timer fires only when no renewal is in flight, and a reply
    arrives only when one is. *)
Definition loop_step (t : tunnel) (e : event) : list action * outcome :=
  match e with
  | EvDone => ([], Stopped (Some GwCanceled))
  | EvExpiry => ([], Stopped (Some GwLeaseExpired))
  | EvCopy failed => ([], Stopped (if failed then Some GwTransport else None))
  | EvRenew requestStart =>
      match tn_pending t with
      | None => ([Renew (r_id r) (GrantTunnelID (tn_grant t))], Running (MkTunnel (tn_grant t) (tn_deadline t) (Some requestStart)))
      | Some _ => ([], Running t)
      end
  | EvReply rp rpc_err now now' set_failed =>
      match tn_pending t with
      | None => ([], Running t)
      | Some started =>
          let next := rp_grant rp in
          let nextDeadline := started + ValidFor next in
          if (rp_err rp || rpc_err) || negb (validGrant next) || negb (same_endpoint next (tn_grant t))
          then ([], Stopped (Some GwAuthorization))
          else if negb (now <? tn_deadline t) || negb (now' <? nextDeadline) then ([], Stopped (Some GwLeaseExpired))
          else if set_failed then ([SetDeadline nextDeadline], Stopped (Some GwTransport))
          else ([SetDeadline nextDeadline], Running (MkTunnel (tn_grant t) nextDeadline None))
      end
  end.

(** The loop ends with the connection's context at the latest. *)
Fixpoint run_loop (t : tunnel) (evs : list event) : list action * option gw_error :=
  match evs with
  | [] => ([], Some GwCanceled)
  | e :: evs' =>
      match loop_step t e with
      | (acts, Stopped res) => (acts, res)
      | (acts, Running t') => let '(rest, res) := run_loop t' evs' in (acts ++ rest, res)
      end
  end.

(** ** [serve] *)
Record script : Set := MkScript {
  sc_client : bool;              (* client != nil *)
  sc_slot_free : bool;
  sc_canceled : bool;            (* ctx.Err() != nil before the redemption *)
  sc_started : time;
  sc_redeemed : reply;
  sc_rpc_err : bool;
  sc_now1 : time;
  sc_guest : bool;               (* the dial returned a connection *)
  sc_dial_failed : bool;
  sc_now2 : time;
  sc_set_failed : bool;
  sc_ready : option (bool * time);  (* the ready callback: failed, and the time after it *)
  sc_events : list event;
  sc_close_failed : bool
}.

(** The loop and the teardown of its copies. *)
Definition serve_tunnel (sc : script) (g : NativeGatewayGrant) (deadline : time) : list action * option gw_error :=
  let '(acts, res) := run_loop (MkTunnel g deadline None) (sc_events sc) in
  ([StartCopy] ++ acts ++ [CloseClient; CloseGuest; JoinCopy], res).

(** From the dial on; the guest's deferred close comes last. *)
Definition serve_dialed (sc : script) (g : NativeGatewayGrant) (deadline : time) : list action * option gw_error :=
  if negb (sc_now2 sc <? deadline) then ([], Some GwLeaseExpired)
  else if sc_set_failed sc then ([SetDeadline deadline], Some GwTransport)
  else match sc_ready sc with
       | Some (failed, now3) =>
           if failed || negb (now3 <? deadline) then ([SetDeadline deadline; SendReady], Some GwTransport)
           else let '(acts, res) := serve_tunnel sc g deadline in ([SetDeadline deadline; SendReady] ++ acts, res)
       | None => let '(acts, res) := serve_tunnel sc g deadline in ([SetDeadline deadline] ++ acts, res)
       end.

Definition serve_granted (sc : script) (g : NativeGatewayGrant) : list action * option gw_error :=
  if rp_err (sc_redeemed sc) || sc_rpc_err sc || negb (validGrant g) then ([], Some GwAuthorization)
  else
    let deadline := sc_started sc + ValidFor g in
    if negb (sc_now1 sc <? deadline) then ([], Some GwLeaseExpired)
    else
      let guest_close := if sc_guest sc then [CloseGuest] else [] in
      let '(acts, res) :=
        if sc_dial_failed sc || negb (sc_guest sc) then ([], Some GwTransport) else serve_dialed sc g deadline in
      ([Dial (GrantTarget g) 3389] ++ acts ++ guest_close, res).

(** [serve]'s result, with [errors.Join(result, ErrClosure)] as a flag. *)
Record served : Set := MkServed { sv_actions : list action; sv_result : option gw_error; sv_unacknowledged : bool }.

Definition recognized (g : NativeGatewayGrant) : bool :=
  (GrantGatewayID g == r_id r) && tunnel_id_re (GrantTunnelID g).

Definition serve (sc : script) (ticket : string) : served :=
  if negb (sc_client sc) then MkServed [] (Some GwTransport) false
  else if negb (sc_slot_free sc) then MkServed [CloseClient] (Some GwCapacity) false
  else if sc_canceled sc then MkServed [AcquireSlot; ReleaseSlot; CloseClient] (Some GwCanceled) false
  else
    let g := rp_grant (sc_redeemed sc) in
    let '(acts, res) := serve_granted sc g in
    let closing := if recognized g then [CloseClient; CloseGrant (r_id r) (GrantTunnelID g)] else [] in
    MkServed ([AcquireSlot; Redeem (r_id r) ticket] ++ acts ++ closing ++ [ReleaseSlot; CloseClient]) res
      (recognized g && sc_close_failed sc).
End relay.
