(* ===== verification/GatewayRelayProofs.v ===== *)
(** * What the relay guarantees

    The order of its actions is that of a small protocol monitor; it dials
    only the pinned, allowed target of a live grant; and the deadline it sets
    on its sockets never outlasts what the authority certified. *)
From stdpp Require Import base strings list.
From Stdlib Require Import ZArith Lia Ascii.
From S2P Require Import Prelude GoStrings Auth Net Db Triggers StoreGateway StoreGatewayProofs GatewayRelay Demo.

Local Open Scope string_scope.
Local Open Scope list_scope.
Local Open Scope Z_scope.

(** ** The protocol

    Traffic flows only between armed sockets; both copies are joined before
    the grant is closed; the slot is the last thing to be given back. *)
Inductive phase : Set :=
| PIdle | PSlot | PRedeemed | PDialed | PArmed | PCopying | PStopClient | PStopGuest | PJoined | PGuestClosed
| PClosing | PGrantClosed | PReleased | PFinished.

Definition relay_protocol (p : phase) (a : action) : option phase :=
  match p, a with
  | PIdle, AcquireSlot => Some PSlot
  | PIdle, CloseClient => Some PFinished
  | PSlot, Redeem _ _ => Some PRedeemed
  | PSlot, ReleaseSlot => Some PReleased
  | PRedeemed, Dial _ 3389 => Some PDialed
  | PDialed, SetDeadline _ => Some PArmed
  | PArmed, SendReady => Some PArmed
  | PArmed, StartCopy => Some PCopying
  | PCopying, Renew _ _ => Some PCopying
  | PCopying, SetDeadline _ => Some PCopying
  | PCopying, CloseClient => Some PStopClient
  | PStopClient, CloseGuest => Some PStopGuest
  | PStopGuest, JoinCopy => Some PJoined
  | (PDialed | PArmed | PJoined), CloseGuest => Some PGuestClosed
  | (PRedeemed | PDialed | PGuestClosed), CloseClient => Some PClosing
  | PClosing, CloseGrant _ _ => Some PGrantClosed
  | (PRedeemed | PDialed | PGuestClosed | PGrantClosed), ReleaseSlot => Some PReleased
  | PReleased, CloseClient => Some PFinished
  | _, _ => None
  end.

Fixpoint follows (p : phase) (l : list action) : option phase :=
  match l with
  | [] => Some p
  | a :: l' => match relay_protocol p a with Some p' => follows p' l' | None => None end
  end.

Lemma follows_app p l l' : follows p (l ++ l') = match follows p l with Some p' => follows p' l' | None => None end.
Proof. revert p. induction l as [| a l IH]; intros p; simpl; [done |]. destruct (relay_protocol p a); [apply IH | done]. Qed.

Section relay.
Variable r : Relay.

Lemma loop_step_follows t e acts o : loop_step r t e = (acts, o) -> follows PCopying acts = Some PCopying.
Proof.
  destruct e as [| | f | s | rp re n n' sf]; simpl; try by intros [= <- _].
  - destruct (tn_pending t); by intros [= <- _].
  - destruct (tn_pending t); [| by intros [= <- _]]. repeat (case_match; try by intros [= <- _]).
Qed.

Lemma run_loop_follows t evs acts res : run_loop r t evs = (acts, res) -> follows PCopying acts = Some PCopying.
Proof.
  revert t acts res. induction evs as [| e evs IH]; simpl; intros t acts res; [by intros [= <- _] |].
  destruct (loop_step r t e) as [a o] eqn:Es. apply loop_step_follows in Es. destruct o as [t' | e'].
  - destruct (run_loop r t' evs) as [rest res'] eqn:El. intros [= <- _]. rewrite follows_app, Es. by eapply IH.
  - by intros [= <- _].
Qed.

Lemma serve_tunnel_follows sc g d acts res : serve_tunnel r sc g d = (acts, res) -> follows PArmed acts = Some PJoined.
Proof.
  unfold serve_tunnel. destruct (run_loop _ _ _) as [a e] eqn:El. intros [= <- _]. simpl.
  by rewrite follows_app, (run_loop_follows _ _ _ _ El).
Qed.

(** From the dial on: the guest socket is open in the phase reached, so the
    deferred close applies. *)
Lemma serve_dialed_follows sc g d acts res : serve_dialed r sc g d = (acts, res) ->
  exists p, follows PDialed acts = Some p /\ (p = PDialed \/ p = PArmed \/ p = PJoined).
Proof.
  unfold serve_dialed. destruct (negb _); [intros [= <- _]; eauto |]. destruct (sc_set_failed sc); [intros [= <- _]; eauto |].
  destruct (sc_ready sc) as [[failed now3] |].
  - destruct (_ || _); [intros [= <- _]; eauto |].
    destruct (serve_tunnel r sc g d) as [a e] eqn:Et. intros [= <- _]. exists PJoined.
    simpl. split; [by eapply serve_tunnel_follows | auto].
  - destruct (serve_tunnel r sc g d) as [a e] eqn:Et. intros [= <- _]. exists PJoined.
    simpl. split; [by eapply serve_tunnel_follows | auto].
Qed.

Lemma serve_granted_follows sc g acts res : serve_granted r sc g = (acts, res) ->
  exists p, follows PRedeemed acts = Some p /\ (p = PRedeemed \/ p = PDialed \/ p = PGuestClosed).
Proof.
  unfold serve_granted. destruct (_ || _); [intros [= <- _]; eauto |]. destruct (negb _); [intros [= <- _]; eauto |].
  destruct (sc_guest sc) eqn:Eg.
  - destruct (sc_dial_failed sc || negb true) eqn:Ed.
    + intros [= <- _]. simpl. eauto.
    + destruct (serve_dialed r sc g _) as [a e] eqn:Et. intros [= <- _]. exists PGuestClosed. split; [| auto].
      apply serve_dialed_follows in Et as (p & Hp & Hc). cbn [app follows relay_protocol]. rewrite follows_app, Hp.
      by destruct Hc as [-> | [-> | ->]].
  - rewrite orb_true_r. intros [= <- _]. simpl. eauto.
Qed.
End relay.

Lemma serve_follows r sc ticket : sc_client sc = true -> follows PIdle (sv_actions (serve r sc ticket)) = Some PFinished.
Proof.
  intros Hc. unfold serve. rewrite Hc. destruct (sc_slot_free sc); [| done]. destruct (sc_canceled sc); [done |].
  destruct (serve_granted r sc _) as [acts res] eqn:E. apply serve_granted_follows in E as (p & Hp & Hcase).
  cbn [negb sv_actions app follows relay_protocol]. rewrite !follows_app, Hp.
  destruct (recognized r _), Hcase as [-> | [-> | ->]]; done.
Qed.

(** Whatever the network, the clock and the authority do, [serve] follows the
    relay's protocol to its end (C23): a slot is taken before the ticket is
    redeemed, bytes flow only between sockets with a deadline, both copies are
    joined before the grant is closed, and the slot is released and the client
    closed on every path. *)
Theorem serve_follows_protocol r sc ticket : sc_client sc = true ->
  follows PIdle (sv_actions (serve r sc ticket)) = Some PFinished.
Proof. apply serve_follows. Qed.

(** ** Bytes

    What passes between the two sockets while the relay acts.  A copy moves
    bytes from [StartCopy] until it is joined, and an operation on a socket
    fails from the moment of its deadline on; a socket without a deadline is
    never stopped.  An attempt to set a deadline may fail, so any deadline set
    so far is taken for one that can be in force. *)
Inductive wire_event : Set := Acted (a : action) | Bytes (t : time).

Definition acted (l : list wire_event) : list action := List.concat (List.map (fun e => match e with Acted a => [a] | Bytes _ => [] end) l).

Definition copies_after (a : action) (copying : bool) : bool := match a with StartCopy => true | JoinCopy => false | _ => copying end.
Definition deadlines_after (a : action) (deadlines : list time) : list time := match a with SetDeadline d => d :: deadlines | _ => deadlines end.

Fixpoint carried (copying : bool) (deadlines : list time) (l : list wire_event) : Prop :=
  match l with
  | [] => True
  | Acted a :: l' => carried (copies_after a copying) (deadlines_after a deadlines) l'
  | Bytes t :: l' => copying = true /\ (deadlines = [] \/ exists d, In d deadlines /\ t < d) /\ carried copying deadlines l'
  end.

(** In every phase in which the copies run the sockets have a deadline. *)
Definition copy_phase (p : phase) : bool := match p with PCopying | PStopClient | PStopGuest => true | _ => false end.
Definition armed_phase (p : phase) : bool := match p with PArmed => true | _ => copy_phase p end.

Lemma protocol_armed p a p' copying deadlines : relay_protocol p a = Some p' ->
  (copying = true -> copy_phase p = true) -> (armed_phase p = true -> deadlines <> []) ->
  (copies_after a copying = true -> copy_phase p' = true) /\ (armed_phase p' = true -> deadlines_after a deadlines <> []).
Proof.
  intros Hs Hc Hd. destruct p, a; cbn in Hs; repeat (case_match; try discriminate); try discriminate Hs; injection Hs as <-; cbn in *; split; auto;
    intros; try discriminate; auto.
Qed.

Lemma carried_deadline l : forall p p' copying deadlines t, follows p (acted l) = Some p' ->
  (copying = true -> copy_phase p = true) -> (armed_phase p = true -> deadlines <> []) ->
  carried copying deadlines l -> In (Bytes t) l -> exists d, (In d deadlines \/ In (SetDeadline d) (acted l)) /\ t < d.
Proof.
  induction l as [| e l IH]; [done |]. intros p p' copying deadlines t Hf Hc Hd Hl [-> | Hin].
  - destruct Hl as (Hcopy & Hlim & _). destruct Hlim as [-> | (d & Hdd & Ht)]; [| by exists d; split; [left |]].
    exfalso. apply Hd; [| done]. specialize (Hc Hcopy). by destruct p.
  - destruct e as [a | t0]; cbn [carried] in Hl.
    + change (acted (Acted a :: l)) with (a :: acted l) in *. cbn [follows] in Hf. destruct (relay_protocol p a) as [q |] eqn:Hq; [| done].
      destruct (protocol_armed p a q copying deadlines Hq Hc Hd) as [Hc' Hd']. destruct (IH _ _ _ _ t Hf Hc' Hd' Hl Hin) as (d & Hdd & Ht).
      exists d. split; [| done]. destruct Hdd as [Hdd | Hdd]; [| by right; right]. destruct a; try (by left). destruct Hdd as [-> | Hdd]; [right; by left | by left].
    + destruct Hl as (_ & _ & Hl). change (acted (Bytes t0 :: l)) with (acted l) in *. by eapply IH.
Qed.

(** A byte passes only before a deadline that the relay set. *)
Lemma bytes_before_deadline r sc ticket l t : acted l = sv_actions (serve r sc ticket) -> carried false [] l -> In (Bytes t) l ->
  exists d, In (SetDeadline d) (sv_actions (serve r sc ticket)) /\ t < d.
Proof.
  intros Hl Hc Hin. destruct (sc_client sc) eqn:Hcl.
  - pose proof (serve_follows r sc ticket Hcl) as Hf. rewrite <- Hl in *.
    destruct (carried_deadline l _ _ false [] t Hf) as (d & [[] | Hd] & Ht); eauto; done.
  - exfalso. unfold serve in Hl. rewrite Hcl in Hl. cbn in Hl. revert Hl Hc Hin. induction l as [| [a | t0] l IH]; [done | done |]. by intros _ [? _].
Qed.

(** ** Where the relay dials *)
Section dial.
Variable r : Relay.

Definition past_dial (p : phase) : bool := match p with PIdle | PSlot | PRedeemed => false | _ => true end.

Lemma one_dial p l p' a port : follows p l = Some p' -> past_dial p = true -> ~ In (Dial a port) l.
Proof.
  revert p. induction l as [| x l IH]; simpl; intros p Hf Hp; [tauto |].
  destruct (relay_protocol p x) as [q |] eqn:E; [| done]. intros [-> | Hin].
  - destruct p; simpl in *; try discriminate.
  - apply (IH q Hf); [| done]. destruct p, x; simpl in *; simplify_eq; done.
Qed.

Definition pinned (sc : script) (a : Addr) (port : Z) : Prop :=
  let g := rp_grant (sc_redeemed sc) in
  a = GrantTarget g /\ port = 3389 /\ rp_err (sc_redeemed sc) = false /\ sc_rpc_err sc = false /\ validGrant r g = true /\
  sc_now1 sc < sc_started sc + ValidFor g.

Lemma serve_granted_dial sc acts res a port : serve_granted r sc (rp_grant (sc_redeemed sc)) = (acts, res) ->
  In (Dial a port) acts -> pinned sc a port.
Proof.
  unfold serve_granted, pinned. destruct (_ || _) eqn:E1; [intros [= <- _]; by intros [] |].
  destruct (negb (_ <? _)) eqn:E2; [intros [= <- _]; by intros [] |]. b2p. destruct_and!.
  match goal with |- context [if ?b then _ else serve_dialed r sc ?g ?d] =>
    destruct (if b then _ else serve_dialed r sc g d) as [l e] eqn:E3 end.
  assert (~ In (Dial a port) l) as Hno.
  { destruct (_ || _) in E3; [injection E3 as <- _; by intros [] |].
    apply serve_dialed_follows in E3 as (p & Hp & _). by eapply one_dial. }
  intros [= <- _] [Hd | Hd]; [injection Hd as <- <-; split_and!; [done.. | lia] |].
  exfalso. apply in_app_iff in Hd as [Hd | Hd]; [by apply Hno |]. by destruct (sc_guest sc); [destruct Hd as [? | []] |].
Qed.

Lemma serve_actions_granted sc ticket a : In a (sv_actions (serve r sc ticket)) ->
  (exists acts res, serve_granted r sc (rp_grant (sc_redeemed sc)) = (acts, res) /\ In a acts) \/
  a = AcquireSlot \/ a = ReleaseSlot \/ a = CloseClient \/ a = Redeem (r_id r) ticket \/
  (recognized r (rp_grant (sc_redeemed sc)) = true /\ a = CloseGrant (r_id r) (GrantTunnelID (rp_grant (sc_redeemed sc)))).
Proof.
  unfold serve. destruct (sc_client sc); [| by intros []]. destruct (sc_slot_free sc); [| simpl; naive_solver].
  destruct (sc_canceled sc); [simpl; naive_solver |]. destruct (serve_granted r sc _) as [acts res] eqn:E. simpl.
  intros [<- | [<- | Ha]]; [auto 10.. |]. rewrite !in_app_iff in Ha. destruct Ha as [Ha | [Ha | Ha]].
  - left. eauto.
  - right. destruct (recognized r _); simpl in Ha; naive_solver.
  - right. simpl in Ha. naive_solver.
Qed.
End dial.

(** The relay dials TCP/3389 of exactly one address: the target of a
    grant that was redeemed for this gateway without error, is not yet
    expired, and lies inside a configured private prefix. *)
Theorem serve_dials_pinned has config r sc ticket a port :
  New has config = inr r -> Addr_wf a -> In (Dial a port) (sv_actions (serve r sc ticket)) ->
  pinned r sc a port /\ Is4 a = true /\ IsPrivate a = true /\
  exists p, In p (CfgAllowedTargets config) /\ Contains p a = true.
Proof.
  unfold New. destruct (_ || _) eqn:E; [done |]. intros [= <-] Hwf Hd.
  apply serve_actions_granted in Hd as [(acts & res & Hg & Hin) | Hd]; [| naive_solver].
  pose proof (serve_granted_dial _ _ _ _ _ _ Hg Hin) as Hp. split; [done |].
  destruct Hp as (-> & -> & _ & _ & Hv & _). unfold validGrant in Hv. apply andb_true_iff in Hv as [Hv Hc].
  apply existsb_exists in Hc as (p & Hp & Hcon). split_and!; [| | by exists p]; clear - Hv; b2p; tauto.
Qed.

(** ** The deadline and the authority *)
Section certified.
(** [history t s]: the authority is in state [s] at time [t]. *)
Context {St : Type} `{AuthorityLaws St} (history : time -> St -> Prop) (r : Relay).
Hypothesis history_admissible : forall t s, history t s -> admissible s.

(** The answers in a script are the authority's: each successful one was given
    at some time after its request was started. *)
Definition redeem_answered (sc : script) (ticket : string) : Prop :=
  rp_err (sc_redeemed sc) = true \/ sc_rpc_err sc = true \/
  exists stmt s s', sc_started sc <= stmt /\ history stmt s /\ redeem stmt (r_id r) ticket s = (sc_redeemed sc, s').

Fixpoint renewals_answered (tunnel : string) (pending : option time) (evs : list event) : Prop :=
  match evs with
  | [] => True
  | EvRenew t :: evs' => renewals_answered tunnel (Some (default t pending)) evs'
  | EvReply rp rpc_err _ _ _ :: evs' =>
      match pending with
      | Some started => rp_err rp = true \/ rpc_err = true \/
          exists stmt s s', started <= stmt /\ history stmt s /\ renew stmt (r_id r) tunnel s = (rp, s')
      | None => True
      end /\ renewals_answered tunnel None evs'
  | _ :: evs' => renewals_answered tunnel pending evs'
  end.

Definition execution (sc : script) (ticket : string) : Prop :=
  redeem_answered sc ticket /\ renewals_answered (GrantTunnelID (rp_grant (sc_redeemed sc))) None (sc_events sc).

(** [d] is covered by an answer about the endpoint of [g0]. *)
Definition covered (g0 : NativeGatewayGrant) (d : time) : Prop :=
  exists stmt s g, history stmt s /\ holds s stmt g /\ same_endpoint g g0 = true /\ d <= stmt + ValidFor g /\
    ValidFor g <= GatewayAuthorizationWindow.

Lemma run_loop_covered t evs acts res d :
  renewals_answered (GrantTunnelID (tn_grant t)) (tn_pending t) evs -> run_loop r t evs = (acts, res) ->
  In (SetDeadline d) acts -> covered (tn_grant t) d.
Proof.
  revert t acts res. induction evs as [| e evs IH]; simpl; intros t acts res Ha; [intros [= <- _]; by intros [] |].
  destruct (loop_step r t e) as [l o] eqn:Es. intros Er Hin.
  destruct e as [| | f | s | rp re n n' sf]; simpl in Es; try (simplify_eq; done).
  - destruct (tn_pending t) as [p |] eqn:Ep; simplify_eq; simpl in Er; destruct (run_loop _ _ evs) as [rest res'] eqn:El;
      simplify_eq; simpl in Ha.
    + eapply (IH t); [by rewrite Ep | done | done].
    + destruct Hin as [? | Hin]; [done |]. by apply (IH (MkTunnel _ _ _) _ _ Ha El) in Hin.
  - destruct (tn_pending t) as [p |] eqn:Ep; destruct Ha as [Hr Ha].
    + destruct (_ || _) eqn:E1 in Es; [simplify_eq; done |]. b2p. destruct_and!.
      destruct (_ || _) eqn:E2 in Es; [simplify_eq; done |].
      assert (covered (tn_grant t) (p + ValidFor (rp_grant rp))) as Hc.
      { destruct Hr as [? | [? | (stmt & s & s' & Hle & Hs & Hr)]]; [congruence.. |].
        apply renew_certifies in Hr as (Hh & _ & Hw & _); [| by eauto | congruence].
        exists stmt, s, (rp_grant rp). split_and!; [done | done | done | lia | done]. }
      destruct sf; simplify_eq; simpl in Hin.
      * destruct Hin as [[= <-] | []]. done.
      * destruct (run_loop _ _ evs) as [rest res'] eqn:El. simplify_eq. destruct Hin as [[= <-] | Hin]; [done |].
        by apply (IH (MkTunnel _ _ _) _ _ Ha El) in Hin.
    + simplify_eq. destruct (run_loop _ _ evs) as [rest res'] eqn:El. simplify_eq. simpl in Hin.
      eapply (IH t); [by rewrite Ep | done | done].
Qed.

Lemma serve_granted_covered sc ticket acts res d : execution sc ticket ->
  serve_granted r sc (rp_grant (sc_redeemed sc)) = (acts, res) -> In (SetDeadline d) acts ->
  covered (rp_grant (sc_redeemed sc)) d.
Proof.
  set (g := rp_grant (sc_redeemed sc)). intros [Hr Hev]. unfold serve_granted. destruct (_ || _) eqn:E1; [intros [= <- _]; by intros [] |].
  destruct (negb (_ <? _)) eqn:E2; [intros [= <- _]; by intros [] |]. b2p. destruct_and!.
  assert (covered g (sc_started sc + ValidFor g)) as Hc.
  { destruct Hr as [? | [? | (stmt & s & s' & Hle & Hs & Hr)]]; [congruence.. |].
    apply redeem_certifies in Hr as (Hh & _ & Hw & _); [| by eauto | congruence].
    exists stmt, s, g. split_and!; [done | done | | lia | done]. unfold same_endpoint. by rewrite !eqb_refl. }
  assert (forall l e d, serve_tunnel r sc g (sc_started sc + ValidFor g) = (l, e) -> In (SetDeadline d) l -> covered g d) as Ht.
  { intros l e d' Hl Hin. unfold serve_tunnel in Hl. destruct (run_loop _ _ _) as [a x] eqn:El. injection Hl as <- <-.
    simpl in Hin. destruct Hin as [? | Hin]; [done |]. apply in_app_iff in Hin as [Hin | Hin]; [| simpl in Hin; naive_solver].
    by eapply (run_loop_covered (MkTunnel g _ None)) in El. }
  match goal with |- context [if ?b then _ else serve_dialed r sc ?g ?d] =>
    destruct (if b then _ else serve_dialed r sc g d) as [l e] eqn:E3 end.
  intros [= <- _] [? | Hin]; [done |]. apply in_app_iff in Hin as [Hin | Hin]; [| destruct (sc_guest sc); simpl in Hin; naive_solver].
  destruct (_ || _) in E3; [injection E3 as <- _; done |]. unfold serve_dialed in E3.
  repeat case_match; simplify_eq; simpl in Hin; repeat destruct Hin as [Hin | Hin]; try done; try (injection Hin as <-; done);
    eauto.
Qed.

Lemma serve_covered sc ticket d : execution sc ticket -> In (SetDeadline d) (sv_actions (serve r sc ticket)) ->
  covered (rp_grant (sc_redeemed sc)) d.
Proof.
  intros Hx Hd. apply serve_actions_granted in Hd as [(acts & res & Hg & Hin) | Hd]; [by eapply serve_granted_covered |].
  naive_solver.
Qed.
End certified.

(** ** A run *)
Section demo.
#[local] Existing Instance demo_sha.

Definition demo_relay : Relay := MkRelay "gw_gateway01" [MkPrefix (ipv4 10 0 0 0) 24] 8.
Definition demo_config : RelayConfig := MkRelayConfig "gw_gateway01" [MkPrefix (ipv4 10 0 0 0) 24] 8.
Definition demo_answer : reply :=
  match RedeemNativeGatewayTicket 2 2 demo_random "gw_gateway01" demo_token demo_ticketed with
  | inr (g, _) => MkReply g None
  | inl _ => failed_reply
  end.
(** Redeemed at 2, dialed, copying; the renewal is refused. *)
Definition demo_script : script :=
  MkScript true true false 1 demo_answer false 3 true false 4 false (Some (false, 5))
    [EvRenew 2500000; EvReply failed_reply false 2600000 2600000 false] false.

Lemma serve_follows_protocol_witness : follows PIdle (sv_actions (serve demo_relay demo_script demo_token)) = Some PFinished.
Proof. apply (serve_follows_protocol demo_relay demo_script demo_token). reflexivity. Defined.

Lemma serve_dials_pinned_witness : IsPrivate (ipv4 10 0 0 7) = true /\ pinned demo_relay demo_script (ipv4 10 0 0 7) 3389.
Proof.
  destruct (serve_dials_pinned true demo_config demo_relay demo_script demo_token (ipv4 10 0 0 7) 3389) as (Hp & _ & Hpr & _).
  - vm_compute. reflexivity.
  - vm_compute. split; [discriminate | reflexivity].
  - vm_compute. tauto.
  - split; [exact Hpr | exact Hp].
Defined.

End demo.
