(* ===== verification/GatewayTls.v ===== *)
(** * The gateway's TLS material ([tls.go], [tls_reload.go])

    Enrolled peers, the identity of a verified client certificate, the
    loading of mounted key and CA files, and the control transport that
    rebuilds its connection pool whenever those files change.  [crypto/x509]
    and [encoding/pem] are the parameter [X509]; a snapshot of the file system
    is a function from paths to contents. *)
From stdpp Require Import base strings list gmap.
From Stdlib Require Import ZArith Lia Ascii.
From S2P Require Import Prelude GoStrings GuestIdentity Auth Db Json Triggers.

Local Open Scope string_scope.
Local Open Scope list_scope.
Local Open Scope Z_scope.

(** ** Certificates *)
Inductive ExtKeyUsage : Set := UsageAny | UsageServerAuth | UsageClientAuth | UsageOther (n : Z).

#[export] Instance ExtKeyUsage_eq_dec : EqDecision ExtKeyUsage.
Proof. solve_decision. Defined.

Record Certificate : Set := MkCertificate {
  Raw : bytes;
  NotBefore : time;
  NotAfter : time;
  IsCA : bool;
  BasicConstraintsValid : bool;
  KeyUsageCertSign : bool;
  ExtKeyUsages : list ExtKeyUsage
}.

(** [tls.ConnectionState]; of the verified chains only their number counts. *)
Record ConnectionState : Set := MkConnectionState {
  HandshakeComplete : bool;
  Version : Z;
  VerifiedChains : nat;
  PeerCertificates : list Certificate
}.
Definition VersionTLS13 : Z := 0x0304.

Record PemBlock : Set := MkPemBlock { BlockType : string; BlockHeaders : nat; BlockBytes : bytes }.

Class X509 := {
  ParseCertificate : bytes -> option Certificate;
  X509KeyPair : bytes -> bytes -> option (list bytes);   (* the chain, leaf first *)
  pem_decode : bytes -> option (PemBlock * bytes);
  verify : time -> list Certificate -> list Certificate -> string -> ExtKeyUsage -> Certificate -> bool
}.

Definition within_validity (now : time) (leaf : Certificate) : bool :=
  negb ((now <? NotBefore leaf) || negb (now <? NotAfter leaf)).

(** ** Enrolled peers *)
Definition PeerPins := gmap string string.

Definition uniqueObject (data : bytes) : bool :=
  match json_document data with Some (JObj l) => keys_distinct l | _ => false end.

(** [json.Unmarshal] into a [map[string][]string]: null is the nil slice, and
    a null element the empty string. *)
Definition string_list (v : json) : option (list string) :=
  match v with JArr l => mapM (store_string "") l | JNull => Some [] | _ => None end.
Definition unmarshal_lists (data : bytes) : option (list (string * list string)) :=
  match json_document data with
  | Some (JObj l) => mapM (fun e => v ← string_list (snd e); Some (fst e, v)) l
  | _ => None
  end.

(** One pin; [text] has been read as hexadecimal, so its upper case letters
    are ASCII. *)
Definition add_pin (id text : string) (pins : PeerPins) : option PeerPins :=
  decoded ← hex_decode text;
  if (slen decoded != 32) || str_exists is_upper text then None
  else match pins !! decoded with Some _ => None | None => Some (<[decoded := id]> pins) end.

Fixpoint add_pins (id : string) (l : list string) (pins : PeerPins) : option PeerPins :=
  match l with [] => Some pins | text :: l' => add_pin id text pins ≫= add_pins id l' end.

Definition add_peer (pins : PeerPins) (peer : string * list string) : option PeerPins :=
  let '(id, l) := peer in
  if negb (gateway_id_re id) || (length l =? 0)%nat || (2 <? length l)%nat then None else add_pins id l pins.

Fixpoint add_peers (l : list (string * list string)) (pins : PeerPins) : option PeerPins :=
  match l with [] => Some pins | p :: l' => add_peer pins p ≫= add_peers l' end.

(** The loop over the Go map visits its entries in some order; a pin that
    occurs twice fails in every order. *)
Definition ParsePeerPins (data : bytes) : option PeerPins :=
  if (64 * 1024 <? slen data) || negb (uniqueObject data) then None else
  configured ← unmarshal_lists data;
  if (length configured =? 0)%nat || (128 <? length configured)%nat then None else add_peers configured ∅.

Section identity.
Context `{Sha256}.

Definition peerIdentity (now : time) (state : option ConnectionState) (pins : PeerPins) : string :=
  match state with
  | None => ""
  | Some st =>
      if negb (HandshakeComplete st) || (Version st <? VersionTLS13) || (VerifiedChains st =? 0)%nat then "" else
      match PeerCertificates st with
      | [] => ""
      | leaf :: _ => if negb (within_validity now leaf) then "" else default "" (pins !! sha256 (Raw leaf))
      end
  end.
End identity.

(** ** Files *)
Definition FileSystem := string -> option bytes.

Definition ReadConfigFile (fs : FileSystem) (path : string) : option bytes :=
  data ← fs path;
  if 1024 * 1024 <? slen data then None else Some data.

Definition validLeaf (now : time) (leaf : Certificate) (usage : ExtKeyUsage) : bool :=
  if IsCA leaf || negb (within_validity now leaf) then false
  else (length (ExtKeyUsages leaf) =? 0)%nat ||
       existsb (fun allowed => (allowed == usage) || (allowed == UsageAny)) (ExtKeyUsages leaf).

(** [bytes.Count] for a separator without self-overlap. *)
Fixpoint count_sub (sub s : string) : nat :=
  match s with
  | EmptyString => 0
  | String _ s' => ((if has_prefix sub s then 1 else 0) + count_sub sub s')%nat
  end.

Definition pem_begin : string := "-----BEGIN CERTIFICATE-----".

Section pool.
Context `{X509}.

Definition authority_certificate (block : PemBlock) : option Certificate :=
  cert ← ParseCertificate (BlockBytes block);
  if negb (IsCA cert) || negb (BasicConstraintsValid cert) || negb (KeyUsageCertSign cert) then None else Some cert.

(** One turn of the loop: the certificate at the head, and the rest. *)
Definition next_authority (data : bytes) : option (Certificate * bytes) :=
  if negb (has_prefix pem_begin data) then None else
  '(block, rest) ← pem_decode data;
  if (BlockType block != "CERTIFICATE") || negb (BlockHeaders block =? 0)%nat ||
     negb (count_sub "-----BEGIN " (str_take (String.length data - String.length rest) data) =? 1)%nat then None
  else cert ← authority_certificate block; Some (cert, rest).

(** The outer [None] is a loop that ran out of fuel. *)
Fixpoint read_pool (fuel : nat) (data : bytes) : option (option (list Certificate)) :=
  let data := TrimSpace data in
  if data == "" then Some (Some []) else
  match fuel with
  | O => None
  | S fuel' =>
      match next_authority data with
      | None => Some None
      | Some (cert, rest) =>
          match read_pool fuel' rest with
          | Some (Some pool) => Some (Some (cert :: pool))
          | other => other
          end
      end
  end.

Definition strictCAPool (data : bytes) : option (option (list Certificate)) :=
  match read_pool (String.length data) data with
  | Some (Some []) => Some None
  | other => other
  end.
End pool.

(** ** Configurations loaded from files *)
Record tlsFiles : Set := MkTlsFiles { f_cert : string; f_key : string; f_ca : string; f_peers : string }.

(** [tls.Config] as [load] fills it; [cfg_cas] is [RootCAs] of a client and
    [ClientCAs], with a required client certificate, of a server. *)
Record TlsConfig : Set := MkTlsConfig { cfg_chain : list bytes; cfg_cas : option (list Certificate) }.

Section load.
Context `{Sha256, X509} (now : time) (fs : FileSystem).

Definition LoadCertificate (certFile keyFile : string) : option (list bytes) :=
  cert ← ReadConfigFile fs certFile;
  key ← ReadConfigFile fs keyFile;
  X509KeyPair cert key.

Definition load_chain (f : tlsFiles) (client : bool) : option (list bytes) :=
  pair ← LoadCertificate (f_cert f) (f_key f);
  der ← head pair;
  leaf ← ParseCertificate der;
  if validLeaf now leaf (if client then UsageClientAuth else UsageServerAuth) then Some pair else None.

Definition load (f : tlsFiles) (client : bool) : option (TlsConfig * bytes) :=
  chain ← load_chain f client;
  let hashed := fold_right String.append "" chain in
  if f_ca f == "" then
    if client then None else Some (MkTlsConfig chain None, sha256 hashed)
  else
    data ← ReadConfigFile fs (f_ca f);
    pool ← mjoin (strictCAPool data);
    Some (MkTlsConfig chain (Some pool), sha256 (hashed +:+ data)).

(** The check of every request, not only of a handshake. *)
Definition verifyCurrentPeer (state : option ConnectionState) (roots : option (list Certificate)) (name : string) (usage : ExtKeyUsage) : bool :=
  match state, roots with
  | Some st, Some pool =>
      if negb (HandshakeComplete st) || (Version st <? VersionTLS13) || (VerifiedChains st =? 0)%nat then false else
      match PeerCertificates st with
      | [] => false
      | leaf :: intermediates => verify now pool intermediates name usage leaf
      end
  | _, _ => false
  end.

(** The identity of a peer under the files of this moment. *)
Definition identity (f : tlsFiles) (state : option ConnectionState) : string :=
  match load f false with
  | Some (MkTlsConfig _ (Some pool), _) =>
      match ReadConfigFile fs (f_peers f) ≫= ParsePeerPins with
      | Some pins => if verifyCurrentPeer state (Some pool) "" UsageClientAuth then peerIdentity now state pins else ""
      | None => ""
      end
  | _ => ""
  end.
End load.
