(* ===== verification/GatewayControl.v ===== *)
(** * The control channel ([control.go], [control_client.go])

    How a gateway reaches the authority: the client writes a small JSON
    request, the service checks the peer's certificate, the request and the
    backend's answer, and the client checks the answer again before the relay
    may use it.  An HTTP exchange is a request record and a response record;
    what can happen to it on the way is a [delivery]. *)
From stdpp Require Import base strings list gmap.
From Stdlib Require Import ZArith Lia Ascii.
From S2P Require Import Prelude GoStrings Auth Net Db Json Triggers StoreGateway GatewayRelay GatewayTls.

Local Open Scope string_scope.
Local Open Scope list_scope.
Local Open Scope Z_scope.

Definition ControlRedeemPath : string := "/internal/gateway/v1/redeem".
Definition ControlRenewPath : string := "/internal/gateway/v1/renew".
Definition ControlClosePath : string := "/internal/gateway/v1/close".
Definition ControlReadyPath : string := "/internal/gateway/v1/ready".

Definition validTicket (ticket : string) : bool :=
  if (slen ticket != 47) || negb (has_prefix "gwt_" ticket) then false else
  match cut_prefix "gwt_" ticket with
  | None => false
  | Some encoded => match b64_decode UrlAlphabet true encoded with Some decoded => slen decoded == 32 | None => false end
  end.

(** ** HTTP *)
Record Request : Set := MkRequest {
  rq_tls : option ConnectionState;
  rq_method : string;
  rq_path : string;
  rq_raw_query : string;
  rq_force_query : bool;
  rq_raw_path : string;
  rq_content_type : string;
  rq_content_length : Z;
  rq_body : option string   (* [None]: reading it fails *)
}.

Record Response : Set := MkResponse { rs_status : Z; rs_content_type : string; rs_body : string }.

Definition StatusOK : Z := 200.
Definition StatusNoContent : Z := 204.
Definition StatusBadRequest : Z := 400.
Definition StatusForbidden : Z := 403.
Definition StatusNotFound : Z := 404.
Definition StatusServiceUnavailable : Z := 503.

Definition newline : string := String (chr 10) "".

(** [http.Error], [http.NotFound], [w.WriteHeader] *)
Definition http_error (message : string) (status : Z) : Response :=
  MkResponse status "text/plain; charset=utf-8" (message +:+ newline).
Definition not_found : Response := http_error "404 page not found" StatusNotFound.
Definition write_header (status : Z) : Response := MkResponse status "" "".

(** ** The service *)

(** [ControlBackend]: an [Authority] that can be pinged. *)
Class ControlBackend (S : Type) `{Authority S} := ping : time -> S -> bool.

Record wireGrant : Set := MkWireGrant {
  WireConnectionID : string;
  WireGatewayID : string;
  WireTunnelID : string;
  WireTarget : string;
  WireCertificateSHA256 : string;
  WirePolicyRevision : Z;
  WireValidForMS : Z
}.

Definition wire_json (w : wireGrant) : json := JObj [
  ("connection_id", JStr (WireConnectionID w)); ("gateway_id", JStr (WireGatewayID w)); ("tunnel_id", JStr (WireTunnelID w));
  ("target", JStr (WireTarget w)); ("certificate_sha256", JStr (WireCertificateSHA256 w));
  ("policy_revision", JNum (itoa (WirePolicyRevision w))); ("valid_for_ms", JNum (itoa (WireValidForMS w)))].

(** [time.Duration.Milliseconds] of a span in microseconds. *)
Definition Milliseconds (d : Z) : Z := Z.quot d 1000.

Definition wire_grant (g : NativeGatewayGrant) : wireGrant :=
  MkWireGrant (GrantConnectionID g) (GrantGatewayID g) (GrantTunnelID g) (AddrString (GrantTarget g))
    (hex_encode (GrantCertificateSHA256 g)) (GrantPolicyRevision g) (Milliseconds (ValidFor g)).

(** The body [{"field": value}] and nothing else, of at most 1024 bytes. *)
Definition singleStringBody (r : Request) (field : string) : option string :=
  if (rq_content_type r != "application/json") || (1024 <? rq_content_length r) then None else
  body ← rq_body r;
  if 1024 <? slen body then None else
  match json_document body with
  | Some (JObj [(k, v)]) => if k == field then store_string "" v else None
  | _ => None
  end.

(** [NewControlHandler]: [has_backend] is [backend != nil]. *)
Definition NewControlHandler (has_backend : bool) (pins : PeerPins) : gw_error + PeerPins :=
  if negb has_backend || (size pins =? 0)%nat || (256 <? size pins)%nat then inl GwConfiguration
  else if forallb (fun e => gateway_id_re (snd e)) (map_to_list pins) then inr pins else inl GwConfiguration.

(** What a request meets besides the backend: the identity of its peer, a
    free slot of the 64, and the deadline of its context. *)
Record arrival : Set := MkArrival { ar_identity : string; ar_slot_free : bool; ar_ctx_err : bool }.

Section service.
Context {S : Type} `{ControlBackend S}.

Definition control_field (path : string) : string := if path == ControlRedeemPath then "ticket" else "tunnel_id".
Definition control_value_ok (path value : string) : bool :=
  if path == ControlRedeemPath then validTicket value else tunnel_id_re value.

(** The call of the backend that a path selects. *)
Definition control_call (now : time) (id path value : string) (s : S) : reply * S :=
  if path == ControlRedeemPath then redeem now id value s
  else if path == ControlRenewPath then renew now id value s
  else let '(e, s') := close_grant now id value s in (MkReply zero_grant e, s').

Definition control_answer (id path : string) (ctx_err : bool) (rp : reply) : Response :=
  if rp_err rp || ctx_err then
    http_error "Gateway authorization unavailable"
      (if rp_error rp == Some RpcRefused then StatusForbidden else StatusServiceUnavailable)
  else if path == ControlClosePath then write_header StatusNoContent
  else
    let grant := rp_grant rp in
    if (GrantGatewayID grant != id) || (Milliseconds (ValidFor grant) <? 1) || (GatewayAuthorizationWindow <? ValidFor grant)
    then http_error "Gateway grant unavailable" StatusServiceUnavailable
    else MkResponse StatusOK "application/json" (json_print (wire_json (wire_grant grant)) +:+ newline).

Definition ControlServeHTTP (now : time) (ar : arrival) (r : Request) (s : S) : Response * S :=
  let id := ar_identity ar in
  if id == "" then (http_error "Gateway identity rejected" StatusForbidden, s)
  else if (rq_raw_query r != "") || rq_force_query r || (rq_raw_path r != "") then (not_found, s)
  else if negb (ar_slot_free ar) then (http_error "Gateway authority unavailable" StatusServiceUnavailable, s)
  else if (rq_path r == ControlReadyPath) && (rq_method r == "GET") && (rq_content_length r =? 0) then
    if ping now s then (write_header StatusNoContent, s)
    else (http_error "Gateway authority unavailable" StatusServiceUnavailable, s)
  else if (rq_method r != "POST") ||
    ((rq_path r != ControlRedeemPath) && (rq_path r != ControlRenewPath) && (rq_path r != ControlClosePath)) then (not_found, s)
  else
    match singleStringBody r (control_field (rq_path r)) with
    | None => (http_error "Invalid Gateway request" StatusBadRequest, s)
    | Some value =>
        if negb (control_value_ok (rq_path r) value) then (http_error "Invalid Gateway request" StatusBadRequest, s) else
        let '(rp, s') := control_call now id (rq_path r) value s in
        (control_answer id (rq_path r) (ar_ctx_err ar) rp, s')
    end.
End service.

(** ** The client *)
Definition wire_fields : list string :=
  ["connection_id"; "gateway_id"; "tunnel_id"; "target"; "certificate_sha256"; "policy_revision"; "valid_for_ms"].

(** [Decode(&wire)] with [DisallowUnknownFields]. *)
Definition decode_wire (l : list (string * json)) : option wireGrant :=
  if negb (known_fields wire_fields l) then None else
  let text f := decode_field store_string "" (field_values wire_fields f l) in
  let int f := decode_field store_int64 0 (field_values wire_fields f l) in
  connection ← text "connection_id"; gateway ← text "gateway_id"; tunnel ← text "tunnel_id";
  target ← text "target"; certificate ← text "certificate_sha256";
  revision ← int "policy_revision"; valid_for ← int "valid_for_ms";
  Some (MkWireGrant connection gateway tunnel target certificate revision valid_for).

Section client.
Variable c_id : string.

Definition wire_ok (w : wireGrant) : bool :=
  negb ((WireGatewayID w != c_id) || negb (tunnel_id_re (WireTunnelID w)) || (WireConnectionID w == "") ||
    (140 <? slen (WireConnectionID w)) || (WirePolicyRevision w <=? 0) || (WireValidForMS w <=? 0) ||
    (Milliseconds GatewayAuthorizationWindow <? WireValidForMS w)).

(** The grant in a response body. [netip.ParseAddr] followed by [Is4]. *)
Definition client_grant (data : string) : option NativeGatewayGrant :=
  match json_document data with
  | Some (JObj l) =>
      if negb (keys_distinct l) then None else
      w ← decode_wire l;
      target ← parse_ipv4 (WireTarget w);
      pin ← hex_decode (WireCertificateSHA256 w);
      if IsPrivate target && (slen pin == 32) && wire_ok w
      then Some (MkGrant (WireConnectionID w) (WireGatewayID w) (WireTunnelID w) target pin (WirePolicyRevision w) (WireValidForMS w * 1000))
      else None
  | _ => None
  end.

Definition request_of (tls : option ConnectionState) (method path field value : string) : Request :=
  let body := if field == "" then "" else json_print (JObj [(field, JStr (json_text value))]) in
  MkRequest tls method path "" false "" (if field == "" then "" else "application/json") (slen body) (Some body).

(** [request]: the body of an expected response. *)
Definition response_body (expected : Z) (res : option Response) : option string :=
  res ← res;
  if rs_status res != expected then None
  else if expected == StatusNoContent then Some ""
  else if (rs_content_type res != "application/json") || (4096 <? slen (rs_body res)) then None
  else Some (rs_body res).
End client.

(** ** Both ends

    A request is lost, answered in vain, or answered. *)
Inductive delivery : Set := Lost | AnswerLost (ar : arrival) | Answered (ar : arrival).

Section channel.
Context {S : Type} `{ControlBackend S} (c_id : string) (tls : option ConnectionState) (net : time -> delivery).

Definition exchange (t : time) (r : Request) (s : S) : option Response * S :=
  match net t with
  | Lost => (None, s)
  | AnswerLost ar => (None, snd (ControlServeHTTP t ar r s))
  | Answered ar => let '(res, s') := ControlServeHTTP t ar r s in (Some res, s')
  end.

Definition grant_reply (g : option NativeGatewayGrant) : reply :=
  match g with Some g => MkReply g None | None => failed_reply end.

Definition client_call (path field value : string) (t : time) (s : S) : reply * S :=
  let '(res, s') := exchange t (request_of tls "POST" path field value) s in
  (grant_reply (response_body StatusOK res ≫= client_grant c_id), s').

(** [ControlClient] as the relay's authority; its only error is
    [ErrAuthorization]. *)
Definition control_authority : Authority S := {|
  redeem := fun t id ticket s =>
    if (id != c_id) || negb (validTicket ticket) then (failed_reply, s) else client_call ControlRedeemPath "ticket" ticket t s;
  renew := fun t id tunnel s =>
    if (id != c_id) || negb (tunnel_id_re tunnel) then (failed_reply, s) else client_call ControlRenewPath "tunnel_id" tunnel t s;
  close_grant := fun t id tunnel s =>
    if (id != c_id) || negb (tunnel_id_re tunnel) then (Some RpcFailed, s) else
    let '(res, s') := exchange t (request_of tls "POST" ControlClosePath "tunnel_id" tunnel) s in
    (if response_body StatusNoContent res == None then Some RpcFailed else None, s')
|}.

Definition ControlPing (t : time) (s : S) : bool :=
  let '(res, _) := exchange t (request_of tls "GET" ControlReadyPath "" "") s in response_body StatusNoContent res != None.
End channel.
