(* ===== verification/GatewayControlProofs.v ===== *)
(** * The control channel is transparent

    A grant crosses the wire unchanged up to the rounding of its validity to
    milliseconds; an answer that the client accepts is the backend's answer
    for the same gateway, whatever the network did; so the laws of the
    authority hold at the relay's end, and the relay's guarantee about traffic
    holds for the whole stack: relay, control client, control service,
    store.  The store comes first: it implements [ControlBackend] with one
    database transaction per call, [random t] being the entropy drawn at time
    [t], and its theorems discharge the laws of the interface. *)
From stdpp Require Import base strings list gmap.
From Stdlib Require Import ZArith Lia Ascii.
From S2P Require Import Prelude GoStrings Auth Net Db Json Demo Triggers StoreGateway StoreGatewayProofs GatewayRelay GatewayRelayProofs GatewayTls GatewayControl.

Local Open Scope string_scope.
Local Open Scope list_scope.
Local Open Scope Z_scope.

(** ** The store as the authority *)
Section store.
Context `{Sha256} (random : time -> bytes).

Definition rpc_error_of (e : error) : rpc_error :=
  if (e == ErrNotFound) || (e == ErrConflict) then RpcRefused else RpcFailed.

Definition answer_of (m : tx DB NativeGatewayGrant) (s : DB) : reply * DB :=
  match m s with inl e => (MkReply zero_grant (Some (rpc_error_of e)), s) | inr (g, s') => (MkReply g None, s') end.

#[local] Instance store_authority : Authority DB := {
  redeem t gw ticket s := answer_of (RedeemNativeGatewayTicket t t (random t) gw ticket) s;
  renew t gw tunnel s := answer_of (RenewNativeGatewayGrant t gw tunnel) s;
  close_grant t gw tunnel s :=
    match CloseNativeGatewayGrant t t gw tunnel s with inl e => (Some (rpc_error_of e), s) | inr (_, s') => (None, s') end
}.

(** A pool that answers. *)
#[local] Instance store_backend : ControlBackend DB := fun _ _ => true.

(** The user's whole authority over the connection, past the end of the
    grant. *)
Definition store_holds (s : DB) (stmt : time) (g : NativeGatewayGrant) : Prop :=
  exists c deadline, c_id c = GrantConnectionID g /\ tunnel_authority stmt s c (GrantPolicyRevision g) deadline /\
    stmt + ValidFor g <= deadline.

(** What PostgreSQL guarantees of its columns: [text] is valid UTF-8, [inet]
    an address, [bigint] has 64 bits. *)
Definition typed_tickets (s : DB) : Prop :=
  forall t, In t (gateway_session_tickets s) ->
    ValidString (t_connection_id t) = true /\ Addr_wf (t_target_host t) /\ 0 < t_policy_revision t < 2 ^ 63.

Lemma url_ascii c : is_url_char c = true -> is_ascii c = true.
Proof. destruct c as [[] [] [] [] [] [] [] []]; vm_compute; congruence. Qed.

Lemma opaque_valid random' : ValidString ("tun_" +:+ OpaqueToken random') = true.
Proof.
  apply ascii_ValidString. rewrite str_forall_app. change (str_forall is_ascii "tun_") with true.
  eapply str_forall_impl; [apply url_ascii | apply b64_encode_url].
Qed.

Lemma class_ascii p cls lo hi s : str_forall is_ascii p = true -> (forall c, cls c = true -> is_ascii c = true) ->
  match_class p cls lo hi s = true -> ValidString s = true.
Proof.
  intros Hp Hc (r & -> & Hr & _)%match_class_spec. apply ascii_ValidString. rewrite str_forall_app, Hp.
  by eapply str_forall_impl.
Qed.

Lemma tunnel_valid s : tunnel_id_re s = true -> ValidString s = true.
Proof. apply class_ascii; [done | apply url_ascii]. Qed.
Lemma gateway_valid s : gateway_id_re s = true -> ValidString s = true.
Proof. apply class_ascii; [done |]. intros c. destruct c as [[] [] [] [] [] [] [] []]; vm_compute; congruence. Qed.

Lemma grant_certified stmt s t t' g : typed_tickets s -> In t (gateway_session_tickets s) ->
  ticket_access stmt s t = true -> t_lease_until t' = Some (lease_end stmt s t) ->
  t_connection_id t' = t_connection_id t -> t_policy_revision t' = t_policy_revision t -> t_target_host t' = t_target_host t ->
  grant_of stmt t' = Some g -> grant_ok g = true ->
  gateway_id_re (t_gateway_id t') = true -> (forall tn, t_tunnel_id t' = Some tn -> ValidString tn = true) ->
  store_holds s stmt g /\ GrantGatewayID g = t_gateway_id t' /\ ValidFor g <= GatewayAuthorizationWindow /\ wire_safe g.
Proof.
  intros Hty Hin Ha Hl Hc Hp Htg Hg Hok Hgw Htn. apply ticket_access_authority in Ha as (c & d & Hid & Hauth & Hend).
  apply Hty in Hin as (Hv & Hw & Hr).
  unfold grant_of in Hg. destruct (t_tunnel_id t') as [tn |]; [| done]. rewrite Hl in Hg. injection Hg as <-.
  unfold grant_ok in Hok. simpl in *. b2p. destruct_and!. specialize (Htn tn eq_refl). split_and!; [| done | lia |].
  - exists c, d. simpl. split_and!; [congruence | by rewrite Hp | lia].
  - unfold wire_safe. simpl. rewrite Hc, Hp, Htg in *. split_and!; try done; [by apply gateway_valid | lia..].
Qed.

#[local] Instance store_laws : AuthorityLaws DB.
Proof.
  refine {| admissible := typed_tickets; holds := store_holds |}.
  - intros t gw ticket s r s' Hty. simpl. unfold answer_of.
    destruct (RedeemNativeGatewayTicket _ _ _ _ _ s) as [e | [g s1]] eqn:E; intros [= <- <-]; [done | intros _].
    assert (gateway_id_re gw = true) as Hre by (clear - E; unfold RedeemNativeGatewayTicket in E; inv_tx; done).
    apply redeem_inr in E as (dg & x & _ & Hin & Hr & Hg & Hok & _). unfold redeemable in Hr. b2p. destruct_and!.
    cbn [rp_grant]. edestruct grant_certified as (Hh & Hgw & Hw); [done | exact Hin | .. | exact Hg | exact Hok | | |]; try done.
    + simpl. congruence.
    + simpl. intros tn [= <-]. apply opaque_valid.
    + simpl in Hgw. split_and!; [done | congruence | tauto..].
  - intros t gw tunnel s r s' Hty. simpl. unfold answer_of.
    destruct (RenewNativeGatewayGrant _ _ _ s) as [e | [g s1]] eqn:E; intros [= <- <-]; [done | intros _].
    assert (gateway_id_re gw = true /\ tunnel_id_re tunnel = true) as [Hre Htn0] by (clear - E; unfold RenewNativeGatewayGrant in E; inv_tx; b2p; tauto).
    apply renew_inr in E as (x & Hin & Hr & Hg & Hok & _). unfold renewable in Hr. b2p. destruct_and!.
    cbn [rp_grant]. edestruct grant_certified as (Hh & Hgw & Hw); [done | exact Hin | .. | exact Hg | exact Hok | | |]; try done.
    + simpl. congruence.
    + simpl. intros tn Htn. assert (tn = tunnel) as -> by congruence. by apply tunnel_valid.
    + simpl in Hgw. split_and!; [done | congruence | tauto..].
Defined.
End store.

(** ** The wire *)
Definition wire_members (w : wireGrant) : list (string * json) := match wire_json w with JObj l => l | _ => [] end.

Lemma decode_wire_members w : int64 (WirePolicyRevision w) -> int64 (WireValidForMS w) -> decode_wire (wire_members w) = Some w.
Proof.
  intros Hr Hv. destruct w as [a b c d e r v]. unfold decode_wire.
  change (known_fields wire_fields (wire_members _)) with true.
  change (field_values wire_fields "connection_id" _) with [JStr a]. change (field_values wire_fields "gateway_id" _) with [JStr b].
  change (field_values wire_fields "tunnel_id" _) with [JStr c]. change (field_values wire_fields "target" _) with [JStr d].
  change (field_values wire_fields "certificate_sha256" _) with [JStr e].
  change (field_values wire_fields "policy_revision" _) with [JNum (itoa r)].
  change (field_values wire_fields "valid_for_ms" _) with [JNum (itoa v)].
  cbn [negb decode_field fold_left mbind option_bind store_string]. simpl in Hr, Hv. by rewrite !store_itoa by done.
Qed.

(** ** The wire form of a grant *)
Definition truncated (g : NativeGatewayGrant) : NativeGatewayGrant :=
  MkGrant (GrantConnectionID g) (GrantGatewayID g) (GrantTunnelID g) (GrantTarget g) (GrantCertificateSHA256 g)
    (GrantPolicyRevision g) (Milliseconds (ValidFor g) * 1000).

Lemma truncated_le g : 0 <= ValidFor g -> ValidFor (truncated g) <= ValidFor g.
Proof. intros H. simpl. unfold Milliseconds. rewrite Z.quot_div_nonneg by lia. Z.div_mod_to_equations. lia. Qed.

Lemma hex_ascii c : is_lower_hex c = true -> is_ascii c = true.
Proof. destruct c as [[] [] [] [] [] [] [] []]; vm_compute; congruence. Qed.
Lemma digit_ascii c : is_digit c = true -> is_ascii c = true.
Proof. destruct c as [[] [] [] [] [] [] [] []]; vm_compute; congruence. Qed.

Lemma addr_string4_ascii n : str_forall is_ascii (addr_string4 n) = true.
Proof.
  unfold addr_string4. cbn [join]. rewrite !str_forall_app. cbn [str_forall]. rewrite !str_forall_app. cbn [str_forall].
  rewrite !str_forall_app. cbn [str_forall]. change (is_ascii ".") with true.
  assert (forall m, str_forall is_ascii (format_uint m) = true) as Hd
    by (intros m; eapply str_forall_impl; [apply digit_ascii | apply format_uint_digits]).
  by rewrite !Hd.
Qed.

Lemma wire_members_ok g : wire_safe g -> Forall wire_member (wire_members (wire_grant g)).
Proof.
  intros (Hc & Hg & Ht & H4 & _). destruct (GrantTarget g) as [n | n z] eqn:E; [| done].
  unfold wire_members, wire_grant, wire_json, wire_member. rewrite E.
  repeat apply Forall_cons_2; [.. | apply Forall_nil_2];
    (split; [vm_compute; reflexivity |]); cbn [snd wire_value WireConnectionID WireGatewayID WireTunnelID WireTarget
      WireCertificateSHA256 WirePolicyRevision WireValidForMS AddrString]; try done; eauto.
  - apply ascii_ValidString, addr_string4_ascii.
  - apply ascii_ValidString. eapply str_forall_impl; [apply hex_ascii | apply hex_encode_lower].
Qed.

Definition wire_text (g : NativeGatewayGrant) : string := json_print (wire_json (wire_grant g)) +:+ newline.

(** What the client reads from the service's text: the grant itself, or
    nothing. *)
Lemma client_grant_text c_id g : wire_safe g -> int64 (Milliseconds (ValidFor g)) ->
  client_grant c_id (wire_text g) =
  if IsPrivate (GrantTarget g) && (slen (GrantCertificateSHA256 g) == 32) && wire_ok c_id (wire_grant g) then Some (truncated g) else None.
Proof.
  intros Hs Hv. pose proof (wire_members_ok g Hs) as Hm. destruct Hs as (_ & _ & _ & H4 & Hw & Hr).
  unfold client_grant, wire_text. change (wire_json (wire_grant g)) with (JObj (wire_members (wire_grant g))).
  rewrite json_document_print by done. change (negb (keys_distinct (wire_members (wire_grant g)))) with false.
  rewrite decode_wire_members by (done || (unfold int64, wire_grant; simpl; lia)). cbn [mbind option_bind].
  change (WireTarget (wire_grant g)) with (AddrString (GrantTarget g)).
  change (WireCertificateSHA256 (wire_grant g)) with (hex_encode (GrantCertificateSHA256 g)). rewrite hex_decode_encode.
  destruct (GrantTarget g) as [n | n z] eqn:E; [| done]. cbn [AddrString]. rewrite parse_addr_string4 by done.
  cbn [mbind option_bind]. destruct (_ && _); [| done]. unfold truncated. by rewrite E.
Qed.

(** ** Requests *)
Lemma coerce_ascii f s : str_forall is_ascii s = true -> (String.length s <= f)%nat -> coerce_utf8 f s = s.
Proof.
  revert f. induction s as [| c s IH]; intros [| f] Ha Hf; simpl in Hf; try lia; try done.
  simpl in Ha. apply andb_true_iff in Ha as [Hc Ha]. cbn [coerce_utf8]. rewrite ascii_width by done.
  cbn [String.length]. replace (S (String.length s) - 1)%nat with (String.length s) by lia.
  cbn [String.substring]. rewrite substring_all, IH by (done || lia). by destruct s.
Qed.

Lemma json_text_ascii s : str_forall is_ascii s = true -> json_text s = s.
Proof. intros H. by apply coerce_ascii. Qed.

(** Tickets and tunnel names are made of URL characters, which JSON does not
    escape. *)
Lemma ticket_url ticket : validTicket ticket = true -> str_forall is_url_char ticket = true /\ slen ticket = 47.
Proof.
  unfold validTicket. destruct (_ || _) eqn:E; [done |]. b2p. destruct E as [Hl Hp].
  destruct (cut_prefix "gwt_" ticket) as [e |] eqn:Ec; [| done]. apply cut_prefix_some in Ec as ->.
  destruct (b64_decode _ _ e) as [d |] eqn:Ed; [| done]. intros Hd. b2p. rewrite slen_app in Hl. change (slen "gwt_") with 4 in Hl.
  split; [| rewrite slen_app; change (slen "gwt_") with 4; lia].
  rewrite str_forall_app. change (str_forall is_url_char "gwt_") with true.
  apply b64_encode_decode in Ed as ->; [apply b64_encode_url |]. rewrite Hd. change ((4 * 32 + 2) / 3) with 43. lia.
Qed.

Lemma tunnel_url tunnel : tunnel_id_re tunnel = true -> str_forall is_url_char tunnel = true /\ slen tunnel <= 132.
Proof.
  intros (r & -> & Hr & Hl)%match_class_spec. rewrite str_forall_app, slen_app, Hr. change (slen "tun_") with 4. split; [done | lia].
Qed.

Lemma url_unescaped c : is_url_char c = true -> is_ascii c = true /\ quote_char c = String c "".
Proof. destruct c as [[] [] [] [] [] [] [] []]; vm_compute; try congruence; tauto. Qed.

Lemma quote_url f s : str_forall is_url_char s = true -> (String.length s <= f)%nat -> quote_chars f s = s.
Proof.
  revert f. induction s as [| c s IH]; intros [| f] Ha Hf; simpl in Hf; try lia; try done.
  simpl in Ha. apply andb_true_iff in Ha as [Hc Ha]. apply url_unescaped in Hc as [Hc Hq]. cbn [quote_chars].
  by rewrite Hc, Hq, IH by (done || lia).
Qed.

Lemma url_forall_ascii s : str_forall is_url_char s = true -> str_forall is_ascii s = true.
Proof. apply str_forall_impl, url_ascii. Qed.

(** The service reads the value that the client wrote. *)
Lemma singleStringBody_request tls path field value : In field ["ticket"; "tunnel_id"] ->
  str_forall is_url_char value = true -> slen value <= 256 ->
  singleStringBody (request_of tls "POST" path field value) field = Some value.
Proof.
  intros Hf Hv Hl. unfold singleStringBody, request_of. rewrite json_text_ascii by (by apply url_forall_ascii).
  assert ((field == "") = false /\ ValidString field = true /\ slen field <= 9 /\ str_forall is_url_char field = true) as (-> & Hvf & Hlf & Huf)
    by (destruct Hf as [<- | [<- | []]]; vm_compute; split_and!; congruence).
  assert (json_document (json_print (JObj [(field, JStr value)])) = Some (JObj [(field, JStr value)])) as Hdoc.
  { rewrite <- (append_nil_s (json_print _)), json_document_print; [done | | done].
    apply Forall_cons_2; [| apply Forall_nil_2]. split; [done |]. by apply ascii_ValidString, url_forall_ascii. }
  remember (json_print _) as text eqn:Et. cbn [rq_content_type rq_content_length rq_body].
  assert (slen text <= 300) as Hlen.
  { subst text. cbn [json_print List.map join fst snd]. unfold print_string.
    rewrite !quote_url by (done || lia). repeat rewrite ?slen_app, ?slen_String. change (slen "") with 0.
    change (slen "{") with 1. change (slen ":") with 1. change (slen "}") with 1. lia. }
  replace (1024 <? slen text) with false by lia. cbn [orb mbind option_bind].
  replace (1024 <? slen text) with false by lia. by rewrite Hdoc, !eqb_refl.
Qed.

(** ** The size of an answer *)
Lemma quote_char_le c : (String.length (quote_char c) <= 6)%nat.
Proof. unfold quote_char. repeat case_match; simpl; lia. Qed.

Lemma quote_chars_le f s : (String.length (quote_chars f s) <= 6 * String.length s)%nat.
Proof.
  revert s. induction f as [| f IH]; intros [| c s]; [simpl; lia.. |]. cbn [quote_chars].
  destruct (is_ascii c).
  - rewrite length_app_s. specialize (IH s). pose proof (quote_char_le c). simpl. lia.
  - destruct (rune_width _) as [w |] eqn:Ew; rewrite length_app_s.
    + apply rune_width_run in Ew as (run & r & -> & Hl & H1 & _). rewrite <- Hl, str_take_app, substring_app.
      specialize (IH r). rewrite length_app_s. repeat case_bool_decide; simpl; lia.
    + specialize (IH s). simpl in *. lia.
Qed.

Lemma print_string_le s : slen (print_string s) <= 6 * slen s + 2.
Proof.
  unfold print_string. rewrite slen_String, slen_app, slen_String. change (slen "") with 0.
  pose proof (quote_chars_le (String.length s) s). unfold slen in *. lia.
Qed.

Lemma itoa_le z : int64 z -> slen (itoa z) <= 20.
Proof.
  intros Hz. unfold int64 in Hz. unfold itoa. destruct (Z.ltb_spec z 0).
  - rewrite slen_String. pose proof (format_uint_len (Z.to_N (- z)) 19 ltac:(lia) ltac:(lia)). lia.
  - pose proof (format_uint_len (Z.to_N z) 19 ltac:(lia) ltac:(lia)). lia.
Qed.

Lemma v4_octet n i : (Z.to_N (v4 n i) < 10 ^ 3)%N.
Proof. rewrite v4_byte. pose proof (Z.mod_pos_bound (Z.shiftr n (24 - 8 * i)) 256 ltac:(lia)). lia. Qed.

Lemma addr_string4_le n : slen (addr_string4 n) <= 15.
Proof.
  unfold addr_string4. cbn [join]. repeat rewrite ?slen_app, ?slen_String.
  pose proof (fun i => format_uint_len _ 3 (v4_octet n i) ltac:(lia)) as H.
  pose proof (H 0). pose proof (H 1). pose proof (H 2). pose proof (H 3). lia.
Qed.

Lemma wire_text_le c_id g : gateway_id_re c_id = true -> Is4 (GrantTarget g) = true -> slen (GrantCertificateSHA256 g) = 32 ->
  int64 (GrantPolicyRevision g) -> int64 (Milliseconds (ValidFor g)) -> wire_ok c_id (wire_grant g) = true -> slen (wire_text g) <= 4096.
Proof.
  intros Hid H4 Hpin Hr Hv Hok. unfold wire_ok, wire_grant in Hok. cbn in Hok. b2p. destruct_and!.
  apply match_class_spec in Hid as (x & -> & _ & Hx).
  assert (slen (GrantTunnelID g) <= 132) as Ht by (by apply tunnel_url).
  destruct (GrantTarget g) as [n | n z] eqn:E; [| done].
  unfold wire_text, wire_json, wire_grant. rewrite E. cbn [json_print List.map join fst snd AddrString WireConnectionID WireGatewayID WireTunnelID
    WireTarget WireCertificateSHA256 WirePolicyRevision WireValidForMS].
  repeat rewrite ?slen_app, ?slen_String.
  pose proof (print_string_le (GrantConnectionID g)). pose proof (print_string_le (GrantGatewayID g)).
  pose proof (print_string_le (GrantTunnelID g)). pose proof (print_string_le (addr_string4 n)).
  pose proof (print_string_le (hex_encode (GrantCertificateSHA256 g))). pose proof (addr_string4_le n).
  pose proof (hex_encode_len (GrantCertificateSHA256 g)). pose proof (itoa_le _ Hr). pose proof (itoa_le _ Hv).
  repeat match goal with |- context [slen (print_string ?k)] =>
    lazymatch k with String _ _ => let v := eval vm_compute in (slen (print_string k)) in change (slen (print_string k)) with v end end.
  assert (slen (GrantGatewayID g) <= 67) as Hgw
    by (match goal with E : GrantGatewayID g = _ |- _ => rewrite E end; rewrite slen_app; change (slen "gw_") with 3; lia).
  change (slen "") with 0. change (slen newline) with 1. lia.
Qed.

(** ** The service *)
Section channel.
Context {St : Type} `{ControlBackend St}.

(** Whether the client accepts a backend's answer. *)
Definition acceptable (c_id : string) (ar : arrival) (rp : reply) : bool :=
  negb (rp_err rp) && negb (ar_ctx_err ar) && (GrantGatewayID (rp_grant rp) == ar_identity ar) &&
  (1 <=? Milliseconds (ValidFor (rp_grant rp))) && (ValidFor (rp_grant rp) <=? GatewayAuthorizationWindow) &&
  IsPrivate (GrantTarget (rp_grant rp)) && (slen (GrantCertificateSHA256 (rp_grant rp)) == 32) &&
  wire_ok c_id (wire_grant (rp_grant rp)).

Lemma control_grant_path path : path = ControlRedeemPath \/ path = ControlRenewPath -> (path == ControlClosePath) = false.
Proof. by intros [-> | ->]. Qed.

Lemma control_path path : In path [ControlRedeemPath; ControlRenewPath; ControlClosePath] ->
  (path == ControlReadyPath) = false /\
  ((path != ControlRedeemPath) && (path != ControlRenewPath) && (path != ControlClosePath)) = false /\
  In (control_field path) ["ticket"; "tunnel_id"].
Proof. intros [<- | [<- | [<- | []]]]; vm_compute; tauto. Qed.

Lemma ControlServeHTTP_request now ar tls path value s :
  In path [ControlRedeemPath; ControlRenewPath; ControlClosePath] -> control_value_ok path value = true ->
  ControlServeHTTP now ar (request_of tls "POST" path (control_field path) value) s =
  if ar_identity ar == "" then (http_error "Gateway identity rejected" StatusForbidden, s)
  else if negb (ar_slot_free ar) then (http_error "Gateway authority unavailable" StatusServiceUnavailable, s)
  else let '(rp, s') := control_call now (ar_identity ar) path value s in
       (control_answer (ar_identity ar) path (ar_ctx_err ar) rp, s').
Proof.
  intros Hp Hv. pose proof (control_path path Hp) as (Hr & Hn & Hf).
  assert (str_forall is_url_char value = true /\ slen value <= 256) as [Hu Hl].
  { unfold control_value_ok in Hv. destruct (path == _); [apply ticket_url in Hv | apply tunnel_url in Hv]; split; [tauto | lia | tauto | lia]. }
  unfold ControlServeHTTP. rewrite singleStringBody_request by done. unfold request_of. cbn [rq_raw_query rq_force_query rq_raw_path rq_path rq_method].
  rewrite Hr, Hn, Hv, !eqb_refl. done.
Qed.

Lemma response_body_error message status : status <> StatusOK -> response_body StatusOK (Some (http_error message status)) = None.
Proof. intros Hs. unfold response_body. cbn. by rewrite (bool_decide_false (status = StatusOK)). Qed.

(** The client's reading of the service's answer. *)
Lemma client_reads_answer c_id path ar rp : gateway_id_re c_id = true -> path = ControlRedeemPath \/ path = ControlRenewPath ->
  (rp_err rp = false -> wire_safe (rp_grant rp)) ->
  (response_body StatusOK (Some (control_answer (ar_identity ar) path (ar_ctx_err ar) rp)) ≫= client_grant c_id) =
  if acceptable c_id ar rp then Some (truncated (rp_grant rp)) else None.
Proof.
  intros Hid Hp Hs. pose proof (control_grant_path path Hp) as Hc. unfold control_answer, acceptable.
  destruct (rp_err rp) eqn:Ee; [cbn [orb]; rewrite response_body_error by (destruct (rp_error rp == Some RpcRefused); discriminate); done |]. specialize (Hs eq_refl) as Hw.
  destruct (ar_ctx_err ar) eqn:Ex; [cbn [orb]; rewrite response_body_error by (destruct (rp_error rp == Some RpcRefused); discriminate); done |]. cbn [orb negb andb]. rewrite Hc.
  set (g := rp_grant rp) in *. destruct (_ || _) eqn:E1; cycle 1.
  - b2p. destruct E1 as [[Hg Hms] Hwin]. rewrite Hg. rewrite (bool_decide_true (ar_identity ar = _)) by done.
    replace (1 <=? Milliseconds (ValidFor g)) with true by lia. replace (ValidFor g <=? GatewayAuthorizationWindow) with true by lia.
    cbn [andb].
    assert (int64 (Milliseconds (ValidFor g))) as Hv.
    { unfold int64, GatewayAuthorizationWindow, micros, Milliseconds in *. Z.quot_rem_to_equations. lia. }
    pose proof (client_grant_text c_id g Hw Hv) as Ht. change (json_print (wire_json (wire_grant g)) +:+ newline) with (wire_text g).
    unfold response_body. cbn [mbind option_bind rs_status rs_content_type rs_body].
    change (StatusOK != StatusOK) with false. change (StatusOK == StatusNoContent) with false. rewrite !eqb_refl. cbn [negb orb].
    destruct (_ && wire_ok c_id (wire_grant g)) eqn:Eok; [| by destruct (4096 <? slen (wire_text g))].
    b2p. destruct Eok as [[_ Hpin] Hok]. destruct Hw as (_ & _ & _ & H4 & _ & Hr).
    pose proof (wire_text_le c_id g Hid H4 Hpin ltac:(unfold int64; lia) Hv Hok) as Hl.
    by replace (4096 <? slen (wire_text g)) with false by lia.
  - rewrite response_body_error by discriminate. cbn [mbind option_bind].
    destruct ((GrantGatewayID g == ar_identity ar) && _ && _) eqn:E2; [| done]. exfalso. b2p. destruct_and!. destruct E1 as [[? | ?] | ?]; [done | lia | lia].
Qed.

(** ** The abstract channel

    What the channel comes to: a call of the backend under the identity of the
    peer's certificate, whose answer may be withheld. *)
Definition remote_call (d : delivery) (ok : arrival -> reply -> bool) (call : string -> St -> reply * St) (s : St) : reply * St :=
  match d with
  | Lost => (failed_reply, s)
  | AnswerLost ar | Answered ar =>
      if (ar_identity ar == "") || negb (ar_slot_free ar) then (failed_reply, s) else
      let '(rp, s') := call (ar_identity ar) s in
      (match d with
       | Answered _ => if ok ar rp then MkReply (truncated (rp_grant rp)) None else failed_reply
       | _ => failed_reply
       end, s')
  end.

Definition remote_close (d : delivery) (call : string -> St -> option rpc_error * St) (s : St) : option rpc_error * St :=
  match d with
  | Lost => (Some RpcFailed, s)
  | AnswerLost ar | Answered ar =>
      if (ar_identity ar == "") || negb (ar_slot_free ar) then (Some RpcFailed, s) else
      let '(e, s') := call (ar_identity ar) s in
      (match d with Answered _ => if (e == None) && negb (ar_ctx_err ar) then None else Some RpcFailed | _ => Some RpcFailed end, s')
  end.

Context (c_id : string) (tls : option ConnectionState) (net : time -> delivery).

Lemma client_call_remote path field value t s : gateway_id_re c_id = true -> path = ControlRedeemPath \/ path = ControlRenewPath ->
  field = control_field path -> control_value_ok path value = true ->
  (forall id rp s', control_call t id path value s = (rp, s') -> rp_err rp = false -> wire_safe (rp_grant rp)) ->
  client_call c_id tls net path field value t s = remote_call (net t) (acceptable c_id) (fun id => control_call t id path value) s.
Proof.
  intros Hid Hp -> Hv Hs. assert (In path [ControlRedeemPath; ControlRenewPath; ControlClosePath]) as Hin by (destruct Hp as [-> | ->]; simpl; tauto).
  unfold client_call, exchange, remote_call. destruct (net t) as [| ar | ar]; [done | |].
  - rewrite ControlServeHTTP_request by done. destruct (ar_identity ar == ""); [done |]. destruct (ar_slot_free ar); [| done].
    cbn [negb orb]. destruct (control_call _ _ _ _ _) as [rp s']. done.
  - rewrite ControlServeHTTP_request by done. destruct (ar_identity ar == ""); [done |]. destruct (ar_slot_free ar); [| done].
    cbn [negb orb]. destruct (control_call _ _ _ _ _) as [rp s'] eqn:E.
    rewrite client_reads_answer by eauto. by destruct (acceptable c_id ar rp).
Qed.
End channel.

(** The control channel refines the authority behind it (C24): whatever
    happens to a request, the client's answer is that of the backend, called
    at most once, under the identity of the peer's certificate and with the
    very ticket or tunnel of the request; a grant arrives with its validity
    rounded down to milliseconds, or not at all; and nothing is asked for
    another gateway or a malformed secret. *)
Theorem control_channel_refines {St : Type} `{ControlBackend St, !AuthorityLaws St} c_id tls net t id value s :
  gateway_id_re c_id = true -> admissible s ->
  let refused := (failed_reply, s) in
  redeem (Authority := control_authority c_id tls net) t id value s =
    (if (id == c_id) && validTicket value
     then remote_call (net t) (acceptable c_id) (fun peer => redeem t peer value) s else refused) /\
  renew (Authority := control_authority c_id tls net) t id value s =
    (if (id == c_id) && tunnel_id_re value
     then remote_call (net t) (acceptable c_id) (fun peer => renew t peer value) s else refused) /\
  close_grant (Authority := control_authority c_id tls net) t id value s =
    (if (id == c_id) && tunnel_id_re value
     then remote_close (net t) (fun peer => close_grant t peer value) s else (Some RpcFailed, s)).
Proof.
  intros Hid Hs. cbn [redeem renew close_grant control_authority]. unfold andb.
  split_and!; (case_bool_decide; [| done]); cbn [negb orb];
    [destruct (validTicket value) eqn:Hv | destruct (tunnel_id_re value) eqn:Hv..]; try done; cbn [negb].
  - rewrite client_call_remote; try done; [by left |]. intros peer rp s' Hc He.
    apply redeem_certifies in Hc as (_ & _ & _ & Hw); done.
  - rewrite client_call_remote; try done; [by right |]. intros peer rp s' Hc He.
    apply renew_certifies in Hc as (_ & _ & _ & Hw); done.
  - unfold exchange, remote_close. destruct (net t) as [| ar | ar]; [done | |];
      rewrite (ControlServeHTTP_request t ar tls ControlClosePath) by (done || (simpl; tauto));
      (destruct (ar_identity ar == ""); [done |]); (destruct (ar_slot_free ar); [| done]); cbn [negb orb];
      change (control_call t ?p ControlClosePath value s) with (let '(e, s') := close_grant t p value s in (MkReply zero_grant e, s'));
      destruct (close_grant t (ar_identity ar) value s) as [[[] |] s']; try done; by destruct (ar_ctx_err ar).
Qed.

(** ** The laws at the relay's end *)
Section laws.
Context {St : Type} `{ControlBackend St, !AuthorityLaws St} (c_id : string) (tls : option ConnectionState) (net : time -> delivery).
Hypothesis id_ok : gateway_id_re c_id = true.

(** A grant that arrives is the rounded form of one that the backend
    certified. *)
Definition channel_holds (s : St) (t : time) (g : NativeGatewayGrant) : Prop :=
  exists g0, holds s t g0 /\ g = truncated g0 /\ 0 <= ValidFor g0.

Lemma remote_call_certifies t s r s' (call : string -> St -> reply * St) :
  (forall id rp s1, call id s = (rp, s1) -> rp_err rp = false ->
     holds s t (rp_grant rp) /\ wire_safe (rp_grant rp)) ->
  remote_call (net t) (acceptable c_id) call s = (r, s') -> rp_err r = false ->
  channel_holds s t (rp_grant r) /\ GrantGatewayID (rp_grant r) = c_id /\ ValidFor (rp_grant r) <= GatewayAuthorizationWindow /\ wire_safe (rp_grant r).
Proof.
  intros Hc. unfold remote_call. destruct (net t) as [| ar | ar]; [by intros [= <- _] | |];
    (destruct (_ || _); [by intros [= <- _] |]); destruct (call (ar_identity ar) s) as [rp s1] eqn:Ec; [by intros [= <- _] |].
  destruct (acceptable c_id ar rp) eqn:Ea; intros [= <- _]; [intros _ | done]. cbn [rp_grant].
  unfold acceptable, wire_ok, wire_grant in Ea. cbn in Ea. b2p. destruct_and!.
  assert (rp_err rp = false) as He by done. destruct (Hc _ _ _ Ec He) as [Hh Hw].
  assert (0 <= ValidFor (rp_grant rp)) as Hv by (unfold Milliseconds in *; Z.quot_rem_to_equations; lia).
  pose proof (truncated_le _ Hv). split_and!; [| done | lia | done]. eexists. split_and!; done.
Qed.

#[local] Instance control_laws : @AuthorityLaws St (control_authority c_id tls net).
Proof.
  refine (@Build_AuthorityLaws St (control_authority c_id tls net) admissible channel_holds _ _).
  - intros t gw ticket s r s' Hs. destruct (control_channel_refines c_id tls net t gw ticket s id_ok Hs) as (-> & _).
    case_bool_decide as E; [| by intros [= <- _]]. subst gw. destruct (validTicket ticket); [| by intros [= <- _]]. cbn [andb].
    intros Hr He. eapply remote_call_certifies; [| exact Hr | exact He]. intros id rp s1 Hc Hf.
    apply redeem_certifies in Hc as (Hh & _ & _ & Hw); done.
  - intros t gw tunnel s r s' Hs. destruct (control_channel_refines c_id tls net t gw tunnel s id_ok Hs) as (_ & -> & _).
    case_bool_decide as E; [| by intros [= <- _]]. subst gw. destruct (tunnel_id_re tunnel); [| by intros [= <- _]]. cbn [andb].
    intros Hr He. eapply remote_call_certifies; [| exact Hr | exact He]. intros id rp s1 Hc Hf.
    apply renew_certifies in Hc as (Hh & _ & _ & Hw); done.
Defined.
End laws.

(** ** The whole stack *)

(** Traffic ends with the user's authority (C22): consider a run of a relay
    whose authority is the store behind the control channel, and any stream of
    bytes between the sockets while it acts - a copy that runs moves bytes at
    any time, unless a deadline set on its sockets has passed.  If from time
    [T] on no state of the store holds the user's authority over the
    connection, then no byte passes at [T] plus five seconds or later, however
    renewals, timers and the network behave. *)
Theorem traffic_ends_with_authority `{Sha256} random c_id tls net history r sc ticket T stream t :
  gateway_id_re c_id = true -> (forall t s, history t s -> typed_tickets s) ->
  execution (H := control_authority (H := store_authority random) (H0 := store_backend random) c_id tls net) history r sc ticket ->
  (forall stmt s c rev deadline, T <= stmt -> history stmt s -> Db.c_id c = GrantConnectionID (rp_grant (sc_redeemed sc)) ->
     ~ tunnel_authority stmt s c rev deadline) ->
  acted stream = sv_actions (serve r sc ticket) -> carried false [] stream -> In (Bytes t) stream ->
  t < T + GatewayAuthorizationWindow.
Proof.
  intros Hid Hty Hx Hno Hacts Hcar Hin. destruct (bytes_before_deadline _ _ _ _ _ Hacts Hcar Hin) as (d & Hd & Ht).
  eapply (serve_covered (H0 := control_laws (AuthorityLaws0 := store_laws random) c_id tls net Hid) history r Hty sc ticket d Hx) in Hd
    as (stmt & s & g & Hs & (g0 & (c & dl & Hcid & Hauth & _) & -> & Hv) & Hsame & Hle & Hw).
  unfold same_endpoint in Hsame. b2p. destruct_and!. simpl in *.
  destruct (Z.lt_ge_cases stmt T) as [| Hge]; [lia |]. apply (Hno stmt s c (GrantPolicyRevision g0) dl) in Hauth; [done | done | done | congruence].
Qed.

(** ** Who may call *)
Definition pins_ok (pins : PeerPins) : Prop := forall (key : bytes) id, pins !! key = Some id -> slen key = 32 /\ gateway_id_re id = true.

Lemma add_pins_ok id l pins pins' : gateway_id_re id = true -> pins_ok pins -> add_pins id l pins = Some pins' -> pins_ok pins'.
Proof.
  intros Hid. revert pins. induction l as [| text l IH]; simpl; intros pins Hp; [by intros [= <-] |].
  unfold add_pin. destruct (hex_decode text) as [d |]; [| done]. cbn [mbind option_bind]. destruct (_ || _) eqn:E; [done |].
  case_match; cbn [mbind option_bind]; [done |]. apply IH. b2p. destruct E as [Hl _].
  intros key i [[<- <-] | [_ ?]]%lookup_insert_Some; [done | by apply Hp].
Qed.

Lemma add_peers_ok l pins pins' : pins_ok pins -> add_peers l pins = Some pins' -> pins_ok pins'.
Proof.
  revert pins. induction l as [| [id texts] l IH]; simpl; intros pins Hp; [by intros [= <-] |].
  destruct (_ || _) eqn:E; [done |]. destruct (add_pins id texts pins) as [p1 |] eqn:Ea; [| done]. cbn [mbind option_bind].
  apply IH. eapply add_pins_ok; [| done | done]. b2p. tauto.
Qed.

Lemma ParsePeerPins_ok data pins : ParsePeerPins data = Some pins -> pins_ok pins.
Proof.
  unfold ParsePeerPins. destruct (_ || _); [done |]. destruct (unmarshal_lists data) as [l |]; [| done]. cbn [mbind option_bind].
  destruct (_ || _); [done |]. apply add_peers_ok. intros key id H. by apply lookup_empty_Some in H.
Qed.

(** The leaf of a connection, enrolled under [id] by the files of this
    moment. *)
Definition enrolled `{Sha256, X509} (now : time) (fs : FileSystem) (f : tlsFiles) (state : option ConnectionState) (id : string) : Prop :=
  exists st leaf rest pool pins data, state = Some st /\ HandshakeComplete st = true /\ VersionTLS13 <= Version st /\
    PeerCertificates st = leaf :: rest /\ NotBefore leaf <= now < NotAfter leaf /\
    verify now pool rest "" UsageClientAuth leaf = true /\
    ReadConfigFile fs (f_peers f) = Some data /\ ParsePeerPins data = Some pins /\ pins !! sha256 (Raw leaf) = Some id.

Lemma identity_enrolled `{Sha256, X509} now fs f state : identity now fs f state <> "" -> enrolled now fs f state (identity now fs f state).
Proof.
  unfold identity. destruct (load now fs f false) as [[[chain [pool |]] g] |]; try done.
  destruct (ReadConfigFile fs (f_peers f)) as [data |] eqn:Ed; [| done]. cbn [mbind option_bind].
  destruct (ParsePeerPins data) as [pins |] eqn:Ep; [| done]. destruct (verifyCurrentPeer _ _ _ _ _) eqn:Ev; [| done].
  unfold verifyCurrentPeer in Ev. destruct state as [st |]; [| done]. unfold peerIdentity. destruct (_ || _) eqn:E1; [done |].
  destruct (PeerCertificates st) as [| leaf rest] eqn:El; [done |]. destruct (negb (within_validity now leaf)) eqn:Ew; [done |].
  destruct (pins !! sha256 (Raw leaf)) as [id |] eqn:Ei; [| done]. intros _. exists st, leaf, rest, pool, pins, data.
  unfold within_validity in Ew. b2p. simpl. split_and!; (done || tauto || lia).
Qed.

(** Only enrolled gateways act, each under its own name: if the control
    service changes anything or answers with more than a refusal, the request
    came over TLS 1.3 with a certificate that the present files enroll and
    trust; the backend was called with the name the certificate is enrolled
    under, whatever the request says, on exactly one ticket or tunnel; and a
    grant is only ever sent to the gateway it names. *)
Theorem control_service_authenticated {St : Type} `{ControlBackend St, Sha256, X509} now fs f slot ctx_err r s res s' :
  ControlServeHTTP now (MkArrival (identity now fs f (rq_tls r)) slot ctx_err) r s = (res, s') ->
  s' <> s \/ rs_status res = StatusOK ->
  exists id value rp, enrolled now fs f (rq_tls r) id /\ gateway_id_re id = true /\
    rq_method r = "POST" /\ singleStringBody r (control_field (rq_path r)) = Some value /\
    control_value_ok (rq_path r) value = true /\ control_call now id (rq_path r) value s = (rp, s') /\
    (rs_status res = StatusOK -> rp_err rp = false /\ GrantGatewayID (rp_grant rp) = id /\
       0 < ValidFor (rp_grant rp) <= GatewayAuthorizationWindow).
Proof.
  unfold ControlServeHTTP. cbn [ar_identity ar_slot_free ar_ctx_err]. set (id := identity now fs f (rq_tls r)).
  assert (forall x : Response, (x, s) = (res, s') -> rs_status x <> StatusOK -> s' <> s \/ rs_status res = StatusOK -> False) as Hno
    by (intros x [= <- <-]; tauto).
  destruct (id == "") eqn:Eid; [intros Hr Hc; by destruct (Hno _ Hr) |].
  destruct (_ || _); [intros Hr Hc; by destruct (Hno _ Hr) |]. destruct (negb slot); [intros Hr Hc; by destruct (Hno _ Hr) |].
  destruct (_ && _); [destruct (ping now s); intros Hr Hc; by destruct (Hno _ Hr) |].
  destruct (_ || _) eqn:Em; [intros Hr Hc; by destruct (Hno _ Hr) |].
  destruct (singleStringBody _ _) as [value |] eqn:Ev; [| intros Hr Hc; by destruct (Hno _ Hr)].
  destruct (negb (control_value_ok (rq_path r) value)) eqn:Eok; [intros Hr Hc; by destruct (Hno _ Hr) |].
  destruct (control_call now id (rq_path r) value s) as [rp s1] eqn:Ec. intros [= <- <-] _. exists id, value, rp. b2p.
  pose proof (identity_enrolled now fs f (rq_tls r) Eid) as Hen. split_and!; [done | | tauto | done | done | done |].
  - destruct Hen as (st & leaf & rest & pool & pins & data & _ & _ & _ & _ & _ & _ & _ & Hp & Hi). by apply (ParsePeerPins_ok _ _ Hp) in Hi as [_ ?].
  - unfold control_answer. repeat case_match; try done; b2p; intros _; unfold Milliseconds in *; split_and!; try tauto; Z.quot_rem_to_equations; lia.
Qed.

(** ** A run *)
Section demo.
#[local] Existing Instance demo_sha.

Definition demo_ca : Certificate := MkCertificate "ca" 0 hour true true true [].
Definition demo_leaf : Certificate := MkCertificate "leaf" 0 hour false true false [UsageClientAuth; UsageServerAuth].

(** Certificates whose DER form is one character; a PEM block is the header
    and that character. *)
#[local] Instance demo_x509 : X509 := {
  ParseCertificate der := if der == "A" then Some demo_ca else if der == "L" then Some demo_leaf else None;
  X509KeyPair cert key := if cert == key then Some [cert] else None;
  pem_decode data := match cut_prefix pem_begin data with
    | Some (String c rest) => Some (MkPemBlock "CERTIFICATE" 0 (String c ""), rest)
    | _ => None
    end;
  verify now roots inter name usage leaf := true
}.

Definition demo_peers : bytes :=
  json_print (JObj [("gw_gateway01", JArr [JStr (hex_encode (sha256 (Raw demo_leaf)))])]).
Definition demo_bundle : bytes := " " +:+ pem_begin +:+ "A " +:+ pem_begin +:+ "A ".
Definition demo_files : tlsFiles := MkTlsFiles "cert" "key" "ca" "peers".
Definition demo_fs (fs_ca : bytes) : FileSystem := fun path =>
  if path == "ca" then Some fs_ca else if path == "peers" then Some demo_peers else if (path == "cert") || (path == "key") then Some "L" else None.

Definition demo_net : time -> delivery := fun _ => Answered (MkArrival "gw_gateway01" true false).
Definition demo_history : time -> DB -> Prop := fun t s => t = 2 /\ s = demo_ticketed.

Lemma demo_typed : typed_tickets demo_ticketed.
Proof. intros t [<- | []]. vm_compute. split_and!; congruence. Qed.

Lemma control_channel_refines_witness :
  redeem (Authority := control_authority (H := store_authority (fun _ => demo_random)) (H0 := store_backend (fun _ => demo_random))
            "gw_gateway01" None demo_net) 2 "gw_gateway01" demo_token demo_ticketed = (demo_answer, demo_redeemed).
Proof.
  destruct (control_channel_refines (AuthorityLaws0 := store_laws (fun _ => demo_random)) (H0 := store_backend (fun _ => demo_random))
    "gw_gateway01" None demo_net 2 "gw_gateway01" demo_token demo_ticketed eq_refl demo_typed) as [-> _].
  vm_compute. reflexivity.
Defined.

(** Bytes pass just before the copies are stopped. *)
Definition demo_stream : list wire_event :=
  List.concat (List.map (fun a => match a with StartCopy => [Acted a; Bytes 2400000] | _ => [Acted a] end)
    (sv_actions (serve demo_relay demo_script demo_token))).

Lemma traffic_ends_with_authority_witness :
  In (Bytes 2400000) demo_stream /\ carried false [] demo_stream /\ 2400000 < 3 + GatewayAuthorizationWindow.
Proof.
  assert (In (Bytes 2400000) demo_stream) as Hb by (vm_compute; tauto).
  assert (carried false [] demo_stream) as Hc.
  { vm_compute. split; [reflexivity |]. split; [| exact I]. right. eexists. split; [left; reflexivity | reflexivity]. }
  split; [exact Hb |]. split; [exact Hc |].
  refine (traffic_ends_with_authority (fun _ => demo_random) "gw_gateway01" None demo_net demo_history demo_relay demo_script demo_token 3 demo_stream 2400000
    eq_refl _ _ _ _ Hc Hb).
  - intros t s [_ ->]. exact demo_typed.
  - split.
    + right. right. exists 2, demo_ticketed. eexists. split; [vm_compute; discriminate |].
      split; [split; reflexivity |]. vm_compute. reflexivity.
    + simpl. split; [left; reflexivity | exact I].
  - intros stmt s c rev dl Hge [-> _]. destruct (Hge eq_refl).
  - vm_compute. reflexivity.
Defined.

Definition demo_tls : option ConnectionState := Some (MkConnectionState true VersionTLS13 1 [demo_leaf]).
Definition demo_call : Request := request_of demo_tls "POST" ControlRedeemPath "ticket" demo_token.

Lemma control_service_authenticated_witness :
  let '(res, s') := ControlServeHTTP (H := store_authority (fun _ => demo_random)) (H0 := store_backend (fun _ => demo_random)) 2
    (MkArrival (identity 2 (demo_fs demo_bundle) demo_files demo_tls) true false) demo_call demo_ticketed in
  rs_status res = StatusOK /\ exists id, enrolled 2 (demo_fs demo_bundle) demo_files demo_tls id.
Proof.
  destruct (ControlServeHTTP _ _ _ _) as [res s'] eqn:E. assert (rs_status res = StatusOK) as Hok.
  { apply (f_equal (fun x => rs_status (fst x))) in E. cbn [fst] in E. rewrite <- E. vm_compute. reflexivity. }
  split; [exact Hok |].
  destruct (control_service_authenticated 2 (demo_fs demo_bundle) demo_files true false demo_call demo_ticketed res s' E (or_intror Hok))
    as (id & value & rp & Hen & _). exists id. exact Hen.
Defined.
End demo.
