(* ===== verification/GatewayTransport.v ===== *)
(** * The gateway's public transport ([transport.go], [runtime.go])

    The checks of a tunnel request, the life of the hijacked connections under
    [Close], the first frame and the hand-over to the relay, and the bounded
    listener in front of it all.  The parts guarded by a mutex or a channel
    are step relations: a step is what one critical section does. *)
From stdpp Require Import base strings list gmap.
From Stdlib Require Import ZArith Lia Ascii.
From S2P Require Import Prelude GoStrings GuestIdentity Auth Net Db Triggers StoreGateway GatewayRelay GatewayTls GatewayControl.

Local Open Scope string_scope.
Local Open Scope list_scope.
Local Open Scope Z_scope.

Definition TunnelPath : string := "/gateway/v1/rdp".
Definition TunnelSubprotocol : string := "vc-workspace-rdp.v1".
Definition MaxFrameBytes : Z := 64 * 1024.

(** [NewTransport]; the slots are as many as the relay's. *)
Record Transport : Set := MkTransport { tp_host : string; tp_capacity : nat }.

Definition host_separators : string := "/\@?# " +:+ byte_string [13; 10; 9].

Definition NewTransport (relay : option Relay) (host : string) (has_ready : bool) : gw_error + Transport :=
  match relay with
  | Some r =>
      if (host == "") || (255 <? slen host) || contains_any host host_separators || negb has_ready then inl GwConfiguration
      else inr (MkTransport host (Z.to_nat (r_capacity r)))
  | None => inl GwConfiguration
  end.

(** ** Requests *)
Record TunnelRequest : Set := MkTunnelRequest {
  tq_tls : option ConnectionState;
  tq_host : string;
  tq_raw_query : string;
  tq_force_query : bool;
  tq_raw_path : string;
  tq_method : string;
  tq_content_length : Z;
  tq_transfer_encodings : nat;
  tq_path : string;
  tq_origins : nat;
  tq_cookies : nat;
  tq_authorizations : nat;
  tq_subprotocols : list string
}.

Inductive disposition : Set :=
| Respond (r : Response)
| AskReady      (* the backend's readiness decides *)
| Admit.        (* a tunnel, if there is room *)

Definition transport_route (t : Transport) (r : TunnelRequest) : disposition :=
  let tls13 := match tq_tls r with
               | Some st => HandshakeComplete st && negb (Version st <? VersionTLS13)
               | None => false
               end in
  if negb tls13 || (tq_host r != tp_host t) || (tq_raw_query r != "") || tq_force_query r || (tq_raw_path r != "") ||
     (tq_method r != "GET") || (tq_content_length r != 0) || negb (tq_transfer_encodings r =? 0)%nat
  then Respond (http_error "Invalid Gateway transport" StatusBadRequest)
  else if tq_path r == "/health" then Respond (write_header StatusNoContent)
  else if tq_path r == "/ready" then AskReady
  else if (tq_path r != TunnelPath) || negb (tq_origins r =? 0)%nat || negb (tq_cookies r =? 0)%nat ||
     negb (tq_authorizations r =? 0)%nat || (tq_subprotocols r != [TunnelSubprotocol])
  then Respond (http_error "Gateway protocol rejected" StatusBadRequest)
  else Admit.

Definition ready_response (canceled backend_ready : bool) : Response :=
  if canceled || negb backend_ready then http_error "Gateway unavailable" StatusServiceUnavailable else write_header StatusNoContent.

(** ** Admission and [Close] *)
Record TransportState : Set := MkTransportState {
  ts_closing : bool;
  ts_canceled : bool;
  ts_slots : nat;
  ts_workers : nat     (* the WaitGroup *)
}.
Definition transport_start : TransportState := MkTransportState false false 0 0.

(** The critical section of [ServeHTTP]: [None] admits. *)
Definition admit_tunnel (t : Transport) (s : TransportState) : option Response * TransportState :=
  if ts_closing s || ts_canceled s then (Some (http_error "Gateway unavailable" StatusServiceUnavailable), s)
  else if (ts_slots s <? tp_capacity t)%nat
  then (None, MkTransportState (ts_closing s) (ts_canceled s) (S (ts_slots s)) (S (ts_workers s)))
  else (Some (http_error "Gateway capacity exhausted" StatusServiceUnavailable), s).

(** [defer func() { <-t.slots; t.workers.Done() }()]: the slot comes back
    before the worker is gone. *)
Inductive transport_step (t : Transport) : TransportState -> TransportState -> Prop :=
| step_serve s r s' : admit_tunnel t s = (r, s') -> transport_step t s s'
| step_slot s : (0 < ts_slots s)%nat -> transport_step t s (MkTransportState (ts_closing s) (ts_canceled s) (ts_slots s - 1) (ts_workers s))
| step_done s : (ts_slots s < ts_workers s)%nat ->
    transport_step t s (MkTransportState (ts_closing s) (ts_canceled s) (ts_slots s) (ts_workers s - 1))
| step_parent s : transport_step t s (MkTransportState (ts_closing s) true (ts_slots s) (ts_workers s))
| step_close s : transport_step t s (MkTransportState true true (ts_slots s) (ts_workers s)).

(** [Close] returned nil: the wait group was empty after [closing] was set. *)
Definition close_returned (s : TransportState) : Prop := ts_closing s = true /\ ts_workers s = 0%nat.

(** ** A worker *)
Inductive message_type : Set := MessageText | MessageBinary.

Record opening : Set := MkOpening {
  op_accepted : bool;                          (* websocket.Accept *)
  op_first : option (message_type * string)    (* the first frame of at most 47 bytes, if it came in time *)
}.

Definition first_ticket (o : opening) : option string :=
  if negb (op_accepted o) then None else
  match op_first o with
  | Some (MessageText, data) => if (slen data <=? 47) && validTicket data then Some data else None
  | _ => None
  end.

(** What the worker does with the relay; the "ready" text is the relay's
    callback. *)
Definition tunnel_worker (r : Relay) (o : opening) (sc : script) : option served :=
  ticket ← first_ticket o;
  Some (serve r (MkScript true (sc_slot_free sc) (sc_canceled sc) (sc_started sc) (sc_redeemed sc) (sc_rpc_err sc) (sc_now1 sc)
    (sc_guest sc) (sc_dial_failed sc) (sc_now2 sc) (sc_set_failed sc) (Some (default (true, 0) (sc_ready sc))) (sc_events sc)
    (sc_close_failed sc)) ticket).

(** [transportCloseReason], by [errors.Is] on a result that may be joined
    with [ErrClosure]. *)
Definition transportCloseReason (s : served) : string :=
  match sv_result s, sv_unacknowledged s with
  | None, false => "eof"
  | Some GwAuthorization, _ => "authorization"
  | Some GwLeaseExpired, _ => "lease_expired"
  | Some GwTransport, _ => "transport"
  | Some GwCapacity, _ => "capacity"
  | Some GwCanceled, _ => "shutdown"
  | _, _ => "internal"
  end.

(** ** The bounded listener *)
Record ListenerState : Set := MkListenerState {
  ls_slots : nat;
  ls_done : bool;
  ls_accepting : nat;       (* callers of Accept that hold a slot *)
  ls_conns : list bool      (* the accepted connections: still open *)
}.
Definition listener_start : ListenerState := MkListenerState 0 false 0 [].

Definition open_conns (l : list bool) : nat := length (List.filter id l).

(** [limitedConn.Close]: only the first one releases the slot. *)
Definition close_conn (i : nat) (s : ListenerState) : ListenerState :=
  match ls_conns s !! i with
  | Some true => MkListenerState (ls_slots s - 1) (ls_done s) (ls_accepting s) (<[i := false]> (ls_conns s))
  | _ => s
  end.

Inductive listener_step (capacity : nat) : ListenerState -> ListenerState -> Prop :=
| step_accept s : (ls_slots s < capacity)%nat ->
    listener_step capacity s (MkListenerState (S (ls_slots s)) (ls_done s) (S (ls_accepting s)) (ls_conns s))
| step_accepted s : (0 < ls_accepting s)%nat ->
    listener_step capacity s (MkListenerState (ls_slots s) (ls_done s) (ls_accepting s - 1) (ls_conns s ++ [true]))
| step_accept_failed s : (0 < ls_accepting s)%nat ->
    listener_step capacity s (MkListenerState (ls_slots s - 1) (ls_done s) (ls_accepting s - 1) (ls_conns s))
| step_close_conn s i : listener_step capacity s (close_conn i s)
| step_close_listener s : listener_step capacity s (MkListenerState (ls_slots s) true (ls_accepting s) (ls_conns s)).

(** ** The reloading control transport ([tls_reload.go])

    A pool is an [http.Transport]: [CloseIdleConnections] closes its idle
    connections and keeps it from parking others until the next request. *)
Record Pool : Set := MkPool { pl_config : TlsConfig; pl_idle : nat; pl_active : nat; pl_close_idle : bool }.

(** A request between its two critical sections holds the pool it was given. *)
Record ReloadState : Set := MkReloadState {
  rl_closed : bool;
  rl_generation : bytes;
  rl_current : nat;
  rl_pools : list Pool;
  rl_requests : list nat
}.

Definition close_idle (p : Pool) : Pool := MkPool (pl_config p) 0 (pl_active p) true.
Definition fresh_pool (cfg : TlsConfig) : Pool := MkPool cfg 0 0 false.

Definition reload_start (cfg : TlsConfig) (generation : bytes) : ReloadState :=
  MkReloadState false generation 0 [fresh_pool cfg] [].

(** The first critical section of [RoundTrip]: [loaded] is what the files
    gave; the result is the pool to use. *)
Definition round_trip_begin (loaded : option (TlsConfig * bytes)) (s : ReloadState) : option nat * ReloadState :=
  if rl_closed s then (None, s) else
  match loaded with
  | None => (None, MkReloadState (rl_closed s) (rl_generation s) (rl_current s) (alter close_idle (rl_current s) (rl_pools s)) (rl_requests s))
  | Some (cfg, generation) =>
      let s1 :=
        if rl_generation s == generation then s
        else MkReloadState (rl_closed s) generation (length (rl_pools s))
               (alter close_idle (rl_current s) (rl_pools s) ++ [fresh_pool cfg]) (rl_requests s) in
      (Some (rl_current s1), MkReloadState (rl_closed s1) (rl_generation s1) (rl_current s1) (rl_pools s1) (rl_current s1 :: rl_requests s1))
  end.

(** The deferred one, of the [i]-th request under way. *)
Definition round_trip_end (i : nat) (s : ReloadState) : ReloadState :=
  match rl_requests s !! i with
  | None => s
  | Some p =>
      MkReloadState (rl_closed s) (rl_generation s) (rl_current s)
        (if rl_closed s || (rl_current s != p) then alter close_idle p (rl_pools s) else rl_pools s)
        (delete i (rl_requests s))
  end.

Definition with_pools (s : ReloadState) (l : list Pool) : ReloadState :=
  MkReloadState (rl_closed s) (rl_generation s) (rl_current s) l (rl_requests s).

(** [http.Transport]: a request takes an idle connection or a new one; a
    released connection is parked unless idle ones are being closed. *)
Definition pool_send (p : Pool) : Pool := MkPool (pl_config p) (pl_idle p - 1) (S (pl_active p)) false.
Definition pool_release (p : Pool) : Pool :=
  MkPool (pl_config p) (if pl_close_idle p then pl_idle p else S (pl_idle p)) (pl_active p - 1) (pl_close_idle p).

Definition CloseIdleConnections (s : ReloadState) : ReloadState :=
  MkReloadState true (rl_generation s) (rl_current s) (alter close_idle (rl_current s) (rl_pools s)) (rl_requests s).

(** Each request loads the files as it begins. *)
Inductive reload_step `{Sha256, X509} (files : tlsFiles) : ReloadState -> ReloadState -> Prop :=
| step_begin s now fs r s' : round_trip_begin (load now fs files true) s = (r, s') -> reload_step files s s'
| step_send s i p : rl_requests s !! i = Some p -> reload_step files s (with_pools s (alter pool_send p (rl_pools s)))
| step_untrusted s i p : rl_requests s !! i = Some p -> reload_step files s (with_pools s (alter close_idle p (rl_pools s)))
| step_end s i : reload_step files s (round_trip_end i s)
| step_release s p : reload_step files s (with_pools s (alter pool_release p (rl_pools s)))
| step_close_idle s : reload_step files s (CloseIdleConnections s).

(** * Routing a native endpoint through a gateway ([broker.go], [NewControlClient])

    The deployment configuration that the API accepts for its broker, and the
    endpoint that a gateway accepts for its control channel.  [net/url] is a
    parameter: a URL is what [url.Parse] returned for a text. *)

Record URL : Set := MkURL {
  Scheme : string;
  Host : string;
  Hostname : string;
  Port : string;
  HasUser : bool;
  Opaque : string;
  RawQuery : string;
  ForceQuery : bool;
  Fragment : string;
  RawPath : string;
  Path : string
}.

Class UrlParser := { url_parse : string -> option URL; url_string : URL -> string }.

Definition root_path (u : URL) : bool := (Path u == "") || (Path u == "/").

Record BrokerRoute : Set := MkBrokerRoute { br_id : string; br_url : string; br_allowed : list Prefix }.

(** [strconv.Atoi] of the port, in range. *)
Definition port_ok (port : string) : bool :=
  match parse_uint 63 port with Some n => (1 <=? Z.of_N n) && (Z.of_N n <=? 65535) | None => false end.

(** [netip.ParsePrefix]; an IPv6 prefix, which [validTargetPrefixes] refuses
    with the same error, is a failure here. *)
Definition ParsePrefix4 (s : string) : option Prefix :=
  match split "/" s with
  | [addr; bits] =>
      a ← parse_ipv4 addr;
      n ← parse_canonical 8 bits;
      if (Z.of_N n <=? 32) then Some (MkPrefix a (Z.of_N n)) else None
  | _ => None
  end.

Section broker.
Context `{UrlParser}.

Definition NewBrokerRoute (id publicURL : string) (allowed : list Prefix) (peers : PeerPins) : option BrokerRoute :=
  u ← url_parse publicURL;
  if negb (existsb (fun e => snd e == id) (map_to_list peers)) || negb (gateway_id_re id) || negb (validTargetPrefixes allowed) ||
     (Scheme u != "https") || (Hostname u == "") || HasUser u || (Opaque u != "") || (RawQuery u != "") || ForceQuery u ||
     (Fragment u != "") || (RawPath u != "") || negb (root_path u) || contains "%" (Host u) || has_suffix ":" (Host u)
  then None
  else if (Port u != "") && negb (port_ok (Port u)) then None
  else Some (MkBrokerRoute id
    (url_string (MkURL "wss" (Host u) (Hostname u) (Port u) (HasUser u) (Opaque u) (RawQuery u) (ForceQuery u) (Fragment u)
                   (RawPath u) TunnelPath)) allowed).

Definition Allows (r : option BrokerRoute) (target : Addr) : bool :=
  match r with
  | None => false
  | Some r => Is4 target && IsPrivate target && existsb (fun prefix => Contains prefix target) (br_allowed r)
  end.

(** The outer option is the error, the inner one a route that is not
    configured. *)
Definition LoadBrokerRoute (id public targets : string) (control : option PeerPins) : option (option BrokerRoute) :=
  if (id == "") && (public == "") && (targets == "") then Some None else
  peers ← control;
  allowed ← mapM (fun raw => ParsePrefix4 (TrimSpace raw)) (split "," targets);
  r ← NewBrokerRoute id public allowed peers;
  Some (Some r).

(** The parts of the client's [tls.Config] that [NewControlClient] inspects. *)
Record ClientTls : Set := MkClientTls {
  InsecureSkipVerify : bool;
  RootSubjects : option nat;      (* [RootCAs], and how many subjects it has *)
  ClientCertificates : list (nat * bool);   (* chain length, has a private key *)
  HasKeyLogWriter : bool;
  ServerName : string
}.

(** The name that the server's certificate must carry, when the endpoint is
    accepted. *)
Definition NewControlClient (endpoint id : string) (config : option ClientTls) : option string :=
  u ← url_parse endpoint;
  c ← config;
  if (Scheme u != "https") || (Hostname u == "") || HasUser u || (RawQuery u != "") || ForceQuery u || (Fragment u != "") ||
     negb (root_path u) || (RawPath u != "") || negb (gateway_id_re id) || InsecureSkipVerify c ||
     match RootSubjects c with Some n => (n =? 0)%nat | None => true end ||
     negb match ClientCertificates c with [(n, key)] => negb (n =? 0)%nat && key | _ => false end ||
     HasKeyLogWriter c || ((ServerName c != "") && (ServerName c != Hostname u))
  then None else Some (Hostname u).

(** The broker promises only what the relay accepts: an address that a loaded
    route allows is a private IPv4 address inside the prefixes of a relay
    with the same configuration. *)
Lemma LoadBrokerRoute_private id public targets control r target :
  LoadBrokerRoute id public targets control = Some (Some r) -> Addr_wf target -> Allows (Some r) target = true ->
  br_id r = id /\ gateway_id_re id = true /\ (exists peers key, control = Some peers /\ peers !! key = Some id) /\
  validTargetPrefixes (br_allowed r) = true /\ IsPrivate target = true.
Proof.
  unfold LoadBrokerRoute. destruct (_ && _) in |- *; [done |]. destruct control as [peers |]; [| done]. cbn [mbind option_bind].
  destruct (mapM _ _) as [allowed |]; [| done]. cbn [mbind option_bind].
  destruct (NewBrokerRoute id public allowed peers) as [r' |] eqn:E; [| done]. intros [= ->] Hw Ha.
  unfold NewBrokerRoute in E. destruct (url_parse public) as [u |]; [| done]. cbn [mbind option_bind] in E.
  destruct (_ || _) eqn:Ec in E; [done |]. destruct (_ && _) in E; [done |]. injection E as <-. simpl in *.
  b2p. destruct_and!. split_and!; try done.
  match goal with H : exists x : string * string, _ |- _ => destruct H as ([key x] & Hin & Hx) end.
  simpl in Hx. b2p. subst x. exists peers, key. split; [done |]. by apply elem_of_map_to_list, list_elem_of_In.
Qed.
End broker.
