(* ===== verification/GatewayTransportProofs.v ===== *)
(** * Closing, draining, bounding

    No tunnel outlives a returned [Close]; the listener never holds more
    sockets than its capacity; a connection pool whose credentials were
    replaced ends up empty; and the reading of a CA bundle terminates. *)
From stdpp Require Import base strings list gmap relations.
From Stdlib Require Import ZArith Lia Ascii.
From S2P Require Import Prelude GoStrings Net Auth Db Json Triggers StoreGateway StoreGatewayProofs GatewayRelay GatewayRelayProofs GatewayTls GatewayControl GatewayControlProofs GatewayTransport Demo.

Local Open Scope string_scope.
Local Open Scope list_scope.
Local Open Scope Z_scope.

(** Rule induction: what every step preserves, every run does. *)
Lemma rtc_preserves {A} (R : A -> A -> Prop) (P : A -> Prop) x y :
  (forall a b, P a -> R a b -> P b) -> P x -> rtc R x y -> P y.
Proof. intros HP Hx. induction 1 as [| ? ? ? ? ? IH]; eauto. Qed.

(** ** Tunnels *)
Definition transport_inv (t : Transport) (s : TransportState) : Prop :=
  (ts_slots s <= ts_workers s)%nat /\ (ts_slots s <= tp_capacity t)%nat /\ (ts_closing s = true -> ts_canceled s = true).

Lemma admit_cases t s r s' : admit_tunnel t s = (r, s') ->
  (s' = s /\ r <> None) \/
  (r = None /\ ts_closing s = false /\ ts_canceled s = false /\ (ts_slots s < tp_capacity t)%nat /\
   s' = MkTransportState false false (S (ts_slots s)) (S (ts_workers s))).
Proof.
  unfold admit_tunnel. destruct s as [c k n w]; simpl. destruct c, k; simpl; try (intros [= <- <-]; left; done).
  destruct (Nat.ltb_spec n (tp_capacity t)); intros [= <- <-]; [right; split_and!; (done || lia) | left; done].
Qed.

Lemma transport_step_inv t s s' : transport_inv t s -> transport_step t s s' -> transport_inv t s'.
Proof.
  unfold transport_inv. intros (H1 & H2 & H3). inversion 1 as [? r ? Ha | | | |]; subst; [| simpl; split_and!; (done || lia || auto)..].
  apply admit_cases in Ha as [[-> _] | (_ & Hc & Hk & Hlt & ->)]; [done | simpl; split_and!; (done || lia)].
Qed.

Lemma closed_stays t s s' : close_returned s -> transport_step t s s' -> close_returned s'.
Proof.
  intros [Hcl Hw]. inversion 1 as [? r ? Ha | | | |]; subst; [| split; simpl; (done || lia)..].
  apply admit_cases in Ha as [[-> ?] | (_ & ? & _)]; [done | congruence].
Qed.

(** No tunnel outlives [Close] (C26): at every moment the tunnels are at most
    as many as the relay's slots and none is admitted once the transport is
    closing or its context is cancelled; and once [Close] has returned
    without error no tunnel is running, then or at any later time. *)
Theorem transport_close_joins t s : rtc (transport_step t) transport_start s ->
  (ts_slots s <= tp_capacity t)%nat /\
  (ts_closing s = true -> forall r s', admit_tunnel t s = (r, s') -> r <> None /\ s' = s) /\
  (close_returned s -> forall s', rtc (transport_step t) s s' -> ts_workers s' = 0%nat /\ ts_slots s' = 0%nat).
Proof.
  intros Hr. assert (transport_inv t s) as Hi.
  { refine (rtc_preserves _ _ _ _ (transport_step_inv t) _ Hr). split_and!; simpl; (lia || done). }
  split_and!; [by apply Hi | |].
  - intros Hc r s' Ha. apply admit_cases in Ha as [[-> ?] | (_ & ? & _)]; [done | congruence].
  - intros Hc s' Hs. assert (transport_inv t s' /\ close_returned s') as [(H1 & _ & _) [_ Hw]]; [| split; [done | lia]].
    refine (rtc_preserves _ (fun s => transport_inv t s /\ close_returned s) _ _ _ (conj Hi Hc) Hs).
    intros a b [Ha Hca] Hst. split; [by eapply transport_step_inv | by eapply closed_stays].
Qed.

(** ** The listener *)
Definition listener_inv (capacity : nat) (s : ListenerState) : Prop :=
  ls_slots s = (ls_accepting s + open_conns (ls_conns s))%nat /\ (ls_slots s <= capacity)%nat.

Lemma open_conns_app l l' : open_conns (l ++ l') = (open_conns l + open_conns l')%nat.
Proof. unfold open_conns. by rewrite List.filter_app, length_app. Qed.

Lemma open_conns_close l i : l !! i = Some true -> (open_conns (<[i := false]> l) + 1)%nat = open_conns l.
Proof.
  unfold open_conns. revert i. induction l as [| b l IH]; intros [| i] H; simpl in *; try done.
  - injection H as ->. simpl. lia.
  - specialize (IH i H). destruct b; simpl; lia.
Qed.

Lemma listener_step_inv capacity s s' : listener_inv capacity s -> listener_step capacity s s' -> listener_inv capacity s'.
Proof.
  unfold listener_inv. intros [H1 H2]. inversion 1; subst; simpl; rewrite ?open_conns_app; change (open_conns [true]) with 1%nat; try lia.
  unfold close_conn. destruct (ls_conns s !! i) as [[] |] eqn:E; simpl; try lia. apply open_conns_close in E. lia.
Qed.

(** Sockets are bounded before anything is parsed: every open connection and
    every pending [Accept] holds exactly one slot, however often a connection
    is closed. *)
Lemma listener_bounded capacity s : rtc (listener_step capacity) listener_start s ->
  ls_slots s = (ls_accepting s + open_conns (ls_conns s))%nat /\ (ls_slots s <= capacity)%nat.
Proof. intros Hr. refine (rtc_preserves _ _ _ _ (listener_step_inv capacity) _ Hr). split; [done | simpl; lia]. Qed.

(** ** Pools *)
Definition retired (s : ReloadState) (p : nat) : Prop := rl_closed s = true \/ p <> rl_current s.

Definition reload_inv (s : ReloadState) : Prop :=
  (rl_current s < length (rl_pools s))%nat /\
  (forall p, In p (rl_requests s) -> (p < length (rl_pools s))%nat) /\
  (forall p x, rl_pools s !! p = Some x -> pl_close_idle x = true -> pl_idle x = 0%nat) /\
  (forall p x, rl_pools s !! p = Some x -> retired s p -> ~ In p (rl_requests s) -> pl_close_idle x = true).

Lemma alter_lookup_cases {A} (f : A -> A) i (l : list A) j x : alter f i l !! j = Some x ->
  (i = j /\ exists y, l !! j = Some y /\ x = f y) \/ (i <> j /\ l !! j = Some x).
Proof.
  destruct (decide (i = j)) as [-> | Hn]; [rewrite list_lookup_alter_eq | rewrite list_lookup_alter_ne by done]; [| by right].
  intros (y & Hy & ->)%fmap_Some. left. eauto.
Qed.

(** A step that changes one pool keeps the invariant if the pool is left
    closed to idle connections, or need not be. *)
Lemma with_pools_inv s p f : reload_inv s ->
  (forall x, (pl_close_idle x = true -> pl_idle x = 0%nat) -> pl_close_idle (f x) = true -> pl_idle (f x) = 0%nat) ->
  (In p (rl_requests s) \/ forall x, pl_close_idle x = true -> pl_close_idle (f x) = true) ->
  reload_inv (with_pools s (alter f p (rl_pools s))).
Proof.
  intros (H1 & H2 & H3 & H4) Hf Hr. unfold reload_inv, with_pools, retired. simpl. rewrite length_alter. split_and!; [done | done | |].
  - intros q x Hx. apply alter_lookup_cases in Hx as [(-> & y & Hy & ->) | (_ & Hx)]; eauto.
  - intros q x Hx Hq Hn. apply alter_lookup_cases in Hx as [(-> & y & Hy & ->) | (_ & Hx)]; [| by eapply H4].
    destruct Hr as [? | Hr]; [done |]. apply Hr. by eapply H4.
Qed.

Lemma in_delete {A} (l : list A) i x : In x (delete i l) -> In x l.
Proof. revert i. induction l as [| y l IH]; intros [| i]; simpl; [done.. | auto |]. intros [-> | H]; eauto. Qed.

Lemma in_delete_ne {A} (l : list A) i x y : l !! i = Some y -> In x l -> x <> y -> In x (delete i l).
Proof.
  revert i. induction l as [| z l IH]; intros [| i] Hi Hx Hn; simpl in *; [done.. | |].
  - injection Hi as ->. destruct Hx as [-> | Hx]; [done | done].
  - destruct Hx as [-> | Hx]; [by left | right; eauto].
Qed.

Section reload.
Context {sha : Sha256} {x509 : X509} (files : tlsFiles).

(** The current pool was built from files with the current digest. *)
Definition current_loaded (s : ReloadState) : Prop :=
  exists now fs x, rl_pools s !! rl_current s = Some x /\ load now fs files true = Some (pl_config x, rl_generation s).

Lemma round_trip_begin_inv s loaded r s' : reload_inv s -> round_trip_begin loaded s = (r, s') -> reload_inv s'.
Proof.
  intros Hi. unfold round_trip_begin. destruct (rl_closed s) eqn:Ec; [by intros [= <- <-] |].
  destruct loaded as [[cfg g] |]; cycle 1.
  { intros [= <- <-]. apply (with_pools_inv s (rl_current s) close_idle) in Hi; [| done | by right]. unfold with_pools in Hi. by rewrite Ec in Hi. }
  destruct Hi as (H1 & H2 & H3 & H4). destruct (rl_generation s == g); intros [= <- <-]; unfold reload_inv, retired in *; simpl in *.
  - split_and!; [done | intros p [<- | Hp]; auto | done |]. intros p x Hx Hp Hn. apply (H4 p x); tauto.
  - rewrite length_app, length_alter. simpl. split_and!; [lia | intros p [<- | Hp%H2]; lia | |].
    + intros p x [Hx | [_ Hx]]%lookup_app_Some.
      * apply alter_lookup_cases in Hx as [(_ & y & _ & ->) | (_ & Hx)]; [done | eauto].
      * apply list_lookup_singleton_Some in Hx as [_ <-]. done.
    + intros p x [Hx | [Hge Hx]]%lookup_app_Some Hp Hn.
      * apply alter_lookup_cases in Hx as [(_ & y & _ & ->) | (Hne & Hx)]; [done |]. apply (H4 p x); [done | by right; congruence | tauto].
      * rewrite length_alter in *. apply list_lookup_singleton_Some in Hx as [Hz _]. exfalso. apply Hn. left. lia.
Qed.

Lemma reload_step_inv s s' : reload_inv s -> reload_step files s s' -> reload_inv s'.
Proof.
  intros Hi. inversion 1 as [? now fs r ? Hb | ? i p Hp | ? i p Hp | ? i | ? p |]; subst.
  - by eapply round_trip_begin_inv.
  - apply with_pools_inv; [done | done |]. left. by eapply list_elem_of_In, list_elem_of_lookup_2.
  - apply with_pools_inv; [done | done | by right].
  - unfold round_trip_end. destruct (rl_requests s !! i) as [p |] eqn:E; [| done]. destruct Hi as (H1 & H2 & H3 & H4).
    assert (forall q, In q (delete i (rl_requests s)) -> In q (rl_requests s)) as Hd by (intros q; apply in_delete).
    unfold reload_inv, retired. simpl. destruct (rl_closed s || (rl_current s != p)) eqn:Eb; rewrite ?length_alter.
    + split_and!; [done | auto | |].
      * intros q x Hx. apply alter_lookup_cases in Hx as [(_ & y & _ & ->) | (_ & Hx)]; [done | eauto].
      * intros q x Hx Hq Hn. apply alter_lookup_cases in Hx as [(_ & y & _ & ->) | (Hne & Hx)]; [done |].
        apply (H4 q x); [done | done |]. intros Hin. apply Hn. eapply in_delete_ne; eauto.
    + b2p. destruct Eb as [Ec <-]. split_and!; [done | auto | done |]. intros q x Hx Hq Hn.
      apply (H4 q x); [done | done |]. intros Hin. apply Hn. eapply in_delete_ne; eauto. destruct Hq; congruence.
  - apply with_pools_inv; [done | | by right]. intros x Hx Hc. unfold pool_release in *. simpl in *. rewrite Hc. auto.
  - destruct Hi as (H1 & H2 & H3 & H4). unfold reload_inv, retired, CloseIdleConnections. simpl. rewrite length_alter. split_and!; [done | done | |].
    + intros q x Hx. apply alter_lookup_cases in Hx as [(_ & y & _ & ->) | (_ & Hx)]; [done | eauto].
    + intros q x Hx Hq Hn. apply alter_lookup_cases in Hx as [(_ & y & _ & ->) | (Hne & Hx)]; [done |].
      apply (H4 q x); [done | by right; congruence | done].
Qed.

Lemma pool_config_alter f p s x : (forall y, pl_config (f y) = pl_config y) -> rl_pools s !! rl_current s = Some x ->
  exists y, alter f p (rl_pools s) !! rl_current s = Some y /\ pl_config y = pl_config x.
Proof.
  intros Hf Hx. destruct (decide (p = rl_current s)) as [-> | Hn].
  - rewrite list_lookup_alter_eq, Hx. simpl. eauto.
  - rewrite list_lookup_alter_ne by done. eauto.
Qed.

Lemma reload_step_loaded s s' : reload_inv s -> current_loaded s -> reload_step files s s' -> current_loaded s'.
Proof.
  intros (Hlen & _) (now & fs & x & Hx & Hl).
  assert (forall f p c, (forall y, pl_config (f y) = pl_config y) ->
    current_loaded (MkReloadState c (rl_generation s) (rl_current s) (alter f p (rl_pools s)) (rl_requests s))) as Halter.
  { intros f p c Hf. destruct (pool_config_alter f p s x Hf Hx) as (y & Hy & Hc). exists now, fs, y. simpl. by rewrite Hc. }
  inversion 1 as [? now1 fs1 r ? Hb | | | ? i | |]; subst; try (by apply Halter).
  - unfold round_trip_begin in Hb. destruct (rl_closed s) eqn:Ec; [injection Hb as <- <-; by exists now, fs, x |].
    destruct (load now1 fs1 files true) as [[cfg g] |] eqn:El; [| injection Hb as <- <-; rewrite <- Ec; by apply Halter].
    destruct (rl_generation s == g) eqn:E; injection Hb as <- <-; [by exists now, fs, x |].
    exists now1, fs1, (fresh_pool cfg). simpl. rewrite lookup_app_r by (rewrite length_alter; lia).
    by rewrite length_alter, Nat.sub_diag.
  - unfold round_trip_end. destruct (rl_requests s !! i) as [p |]; [| by exists now, fs, x].
    destruct (rl_closed s || _); [by destruct (Halter close_idle p true ltac:(done)) as (? & ? & ? & ?); eexists _, _, _ | by exists now, fs, x].
Qed.

(** Replaced credentials keep no connection: in every interleaving of
    control requests, rotations of the files and closings, a pool that is no
    longer current, or any pool once the transport is closed, has no idle
    connection left, and parks none that is released later, as soon as no
    request is using it.  A request begins only while the files load, and on
    a pool that was built from files with the digest of the present ones. *)
Theorem retired_pools_drain now0 fs0 cfg g s :
  load now0 fs0 files true = Some (cfg, g) -> rtc (reload_step files) (reload_start cfg g) s ->
  (forall p x, rl_pools s !! p = Some x -> retired s p -> ~ In p (rl_requests s) ->
     pl_idle x = 0%nat /\ pl_idle (pool_release x) = 0%nat) /\
  (forall now fs p s', round_trip_begin (load now fs files true) s = (Some p, s') ->
     rl_closed s = false /\ exists cfg' g' x now1 fs1, load now fs files true = Some (cfg', g') /\
       rl_pools s' !! p = Some x /\ load now1 fs1 files true = Some (pl_config x, g')).
Proof.
  intros Hl0 Hr. assert (reload_inv s /\ current_loaded s) as [Hi Hc].
  { refine (rtc_preserves _ (fun s => reload_inv s /\ current_loaded s) _ _ _ _ Hr).
    - intros a b [Ha Hb] Hst. split; [by eapply reload_step_inv | by eapply reload_step_loaded].
    - split; [| by exists now0, fs0, (fresh_pool cfg)]. unfold reload_inv, retired. simpl. split_and!; [lia | done | |].
      + intros [| p] x [= <-]. done.
      + intros [| p] x [= <-] [? | ?]; done. }
  split.
  - destruct Hi as (_ & _ & H3 & H4). intros p x Hx Hp Hn. pose proof (H4 p x Hx Hp Hn) as Hcl. pose proof (H3 p x Hx Hcl) as Hz.
    simpl. by rewrite Hcl.
  - intros now fs p s' Hb. assert (current_loaded s') as (now1 & fs1 & x & Hx & Hl)
      by (eapply reload_step_loaded; [exact Hi | exact Hc | by eapply step_begin]).
    revert Hb. unfold round_trip_begin. destruct (rl_closed s); [done |]. destruct (load now fs files true) as [[cfg' g'] |]; [| done].
    intros Hb. split; [done |]. exists cfg', g', x, now1, fs1.
    destruct (rl_generation s == g') eqn:E; injection Hb as <- <-; simpl in *; [b2p; subst |]; done.
Qed.
End reload.

(** ** CA bundles *)
Lemma first_cut_shorter seqs s r : first_cut seqs s = Some r -> slen r <= slen s.
Proof.
  induction seqs as [| p seqs IH]; simpl; [done |]. destruct (cut_prefix p s) as [r' |] eqn:E; [| done].
  intros [= <-]. apply cut_prefix_some in E as ->. rewrite slen_app. pose proof (slen_nonneg p). lia.
Qed.

Lemma trim_prefixes_shorter fuel seqs s : slen (trim_prefixes fuel seqs s) <= slen s.
Proof.
  revert s. induction fuel as [| f IH]; intros s; simpl; [lia |]. destruct (first_cut seqs s) as [r |] eqn:E; [| lia].
  apply first_cut_shorter in E. specialize (IH r). lia.
Qed.

Lemma slen_list l : slen (String.string_of_list_ascii l) = Z.of_nat (length l).
Proof. induction l as [| c l IH]; [done |]. cbn [String.string_of_list_ascii length]. rewrite slen_String, IH. lia. Qed.

Lemma str_rev_slen s : slen (str_rev s) = slen s.
Proof.
  unfold str_rev. rewrite slen_list, length_rev. rewrite <- (String.string_of_list_ascii_of_string s) at 2. by rewrite slen_list.
Qed.

Lemma TrimSpace_shorter s : slen (TrimSpace s) <= slen s.
Proof.
  unfold TrimSpace, trim_right, trim_left. rewrite str_rev_slen. etransitivity; [apply trim_prefixes_shorter |].
  rewrite str_rev_slen. apply trim_prefixes_shorter.
Qed.

Section pool.
Context {x509 : X509}.

(** [pem.Decode]: the rest comes after the block. *)
Hypothesis pem_consumes : forall data block rest, pem_decode data = Some (block, rest) -> slen rest < slen data.

Definition is_authority (c : Certificate) : Prop := IsCA c = true /\ BasicConstraintsValid c = true /\ KeyUsageCertSign c = true.

Lemma next_authority_inv data c rest : next_authority data = Some (c, rest) -> slen rest < slen data /\ is_authority c.
Proof.
  unfold next_authority. destruct (negb _); [done |]. destruct (pem_decode data) as [[block r] |] eqn:E; [| done]. cbn [mbind option_bind].
  destruct (_ || _); [done |]. unfold authority_certificate. destruct (ParseCertificate _) as [cert |]; [| done]. cbn [mbind option_bind].
  destruct (_ || _) eqn:Ec; [done |]. intros [= <- <-]. split; [by eapply pem_consumes |]. unfold is_authority. b2p. tauto.
Qed.

Lemma read_pool_total fuel data : slen data <= Z.of_nat fuel ->
  exists r, read_pool fuel data = Some r /\ forall pool, r = Some pool -> Forall is_authority pool.
Proof.
  revert data. induction fuel as [| f IH]; intros data Hd; pose proof (TrimSpace_shorter data) as Ht; pose proof (slen_nonneg (TrimSpace data)).
  - cbn [read_pool]. assert (TrimSpace data = "") as -> by (destruct (TrimSpace data); [done | rewrite slen_String in *; pose proof (slen_nonneg s); lia]).
    exists (Some []). split; [done |]. intros pool [= <-]. constructor.
  - cbn [read_pool]. destruct (TrimSpace data == ""); [exists (Some []); split; [done |]; intros pool [= <-]; constructor |].
    destruct (next_authority (TrimSpace data)) as [[c rest] |] eqn:En; [| by exists None].
    apply next_authority_inv in En as [Hr Hc]. destruct (IH rest ltac:(lia)) as (r & -> & Hp).
    destruct r as [pool |]; [| by exists None]. exists (Some (c :: pool)). split; [done |]. intros q [= <-]. constructor; auto.
Qed.
End pool.

(** A bundle is read to its end: on every input the loop over the PEM
    blocks stops, and a pool that it returns is not empty and holds only
    certificates marked as authorities that may sign. *)
Theorem strictCAPool_terminates `{X509} data :
  (forall d block rest, pem_decode d = Some (block, rest) -> slen rest < slen d) ->
  exists r, strictCAPool data = Some r /\ forall pool, r = Some pool -> pool <> [] /\ Forall is_authority pool.
Proof.
  intros Hp. unfold strictCAPool. destruct (read_pool_total Hp (String.length data) data) as (r & -> & Hr); [unfold slen; lia |].
  destruct r as [[| c pool] |]; eexists; (split; [reflexivity |]); [done | | done]. intros q [= <-]. split; [done | by apply Hr].
Qed.

(** ** A concrete deployment *)
Section demo.
#[local] Existing Instance demo_sha.

#[local] Existing Instance demo_x509.

Lemma strictCAPool_terminates_witness : exists pool, strictCAPool demo_bundle = Some (Some pool) /\ pool = [demo_ca; demo_ca] /\ Forall is_authority pool.
Proof.
  destruct (strictCAPool_terminates demo_bundle) as (r & Hr & Hp).
  - intros d block rest. cbn [pem_decode demo_x509]. destruct (cut_prefix pem_begin d) as [[| c r] |] eqn:E; intros [= <- <-].
    apply cut_prefix_some in E as ->. rewrite slen_app, slen_String. change (slen pem_begin) with 27. lia.
  - vm_compute in Hr. injection Hr as <-. destruct (Hp _ eq_refl) as [_ Hf]. eexists. split; [vm_compute; reflexivity |]. split; [reflexivity | exact Hf].
Defined.

(** A request, a rotation under way, and the end of the first request. *)
Definition demo_cfg : TlsConfig := MkTlsConfig ["L"] (Some [demo_ca]).
Definition demo_gen (ca : bytes) : bytes := sha256 ("L" +:+ ca).
Definition demo_ca1 : bytes := pem_begin +:+ "A".
Definition demo_reload (s : ReloadState) (ca : bytes) : ReloadState := snd (round_trip_begin (load 1 (demo_fs ca) demo_files true) s).
Definition demo_rotated : ReloadState :=
  round_trip_end 1 (demo_reload (demo_reload (reload_start demo_cfg (demo_gen demo_ca1)) demo_ca1) demo_bundle).

Lemma retired_pools_drain_witness : exists x, rl_pools demo_rotated !! 0%nat = Some x /\ rl_current demo_rotated = 1%nat /\ pl_idle (pool_release x) = 0%nat.
Proof.
  eexists. split; [vm_compute; reflexivity |]. split; [reflexivity |].
  destruct (retired_pools_drain demo_files 1 (demo_fs demo_ca1) demo_cfg (demo_gen demo_ca1) demo_rotated) as [Hd _].
  - vm_compute. reflexivity.
  - eapply rtc_l; [eapply (step_begin _ _ 1 (demo_fs demo_ca1)); vm_compute; reflexivity |].
    eapply rtc_l; [eapply (step_begin _ _ 1 (demo_fs demo_bundle)); vm_compute; reflexivity |].
    eapply rtc_l; [apply (step_end _ _ 1) | apply rtc_refl].
  - refine (proj2 (Hd 0%nat _ _ _ _)).
    + vm_compute. reflexivity.
    + right. vm_compute. discriminate.
    + vm_compute. intros [H | []]. discriminate H.
Defined.

Definition demo_transport : Transport := MkTransport "gw.example" 8.
Lemma transport_close_joins_witness : close_returned (MkTransportState true true 0 0) /\
  (forall s', rtc (transport_step demo_transport) (MkTransportState true true 0 0) s' -> ts_workers s' = 0%nat /\ ts_slots s' = 0%nat).
Proof.
  assert (close_returned (MkTransportState true true 0 0)) as Hc by (split; reflexivity). split; [exact Hc |].
  refine (proj2 (proj2 (transport_close_joins demo_transport _ _)) Hc).
  eapply rtc_l; [eapply (step_serve _ _ None); vm_compute; reflexivity |].
  eapply rtc_l; [apply step_close |].
  eapply rtc_l; [apply step_slot; vm_compute; lia |]. eapply rtc_l; [apply step_done; vm_compute; lia | apply rtc_refl].
Defined.
End demo.
