(* ===== verification/Computer.v ===== *)
(** * The computer-use protocol ([internal/computer/protocol.go])

    The request of an agent to a desktop: defaults, validation, and the detail
    that goes to the audit log.  Times are nanoseconds of the Unix clock. *)
From stdpp Require Import base strings list.
From Stdlib Require Import ZArith Lia Ascii.
From S2P Require Import Prelude GoStrings GuestIdentity Db Triggers.

Local Open Scope string_scope.
Local Open Scope list_scope.
Local Open Scope Z_scope.

Definition nanos := Z.
Definition second : nanos := 1000000000.
Definition millisecond : nanos := 1000000.
(** [time.UnixMilli(ms)], [t.UnixMilli()], [t.Unix()] *)
Definition of_unix_milli (ms : Z) : nanos := ms * millisecond.
Definition UnixMilli (t : nanos) : Z := t / millisecond.
Definition Unix (t : nanos) : Z := t / second.

Definition SchemaVersion : Z := 1.

(** [Operation] is a string type; only five values are operations. *)
Definition OperationScreenshot : string := "screenshot".
Definition OperationAccessibility : string := "accessibility_snapshot".
Definition OperationMouse : string := "mouse".
Definition OperationKey : string := "key".
Definition OperationTypeText : string := "type_text".

Record Screenshot : Set := MkScreenshot { MaxWidth : Z }.
Record Accessibility : Set := MkAccessibility { MaxDepth : Z; MaxNodes : Z }.
Record Mouse : Set := MkMouse { MouseAction : string; MouseX : Z; MouseY : Z; Button : string; DeltaX : Z; DeltaY : Z }.
Record Key : Set := MkKey { KeyName : string; Modifiers : list string }.
Record Text : Set := MkText { TextValue : string; Sensitive : bool }.

(** A pointer is an option. *)
Record ActionRequest : Set := MkActionRequest {
  ReqSchemaVersion : Z;
  RequestID : string;
  LeaseID : string;
  ControlEpoch : Z;
  ExpiresUnixMS : Z;
  ReqOperation : string;
  ReqScreenshot : option Screenshot;
  ReqAccessibility : option Accessibility;
  ReqMouse : option Mouse;
  ReqKey : option Key;
  ReqText : option Text
}.

Definition request_id_re : string -> bool := match_class "action_" is_url_char 20 80.

Definition zero_default (d v : Z) : Z := if v =? 0 then d else v.

Definition ApplyDefaults (r : ActionRequest) : ActionRequest :=
  MkActionRequest (zero_default SchemaVersion (ReqSchemaVersion r)) (RequestID r) (LeaseID r) (ControlEpoch r) (ExpiresUnixMS r)
    (ReqOperation r)
    (match ReqScreenshot r with Some p => Some (MkScreenshot (zero_default 1600 (MaxWidth p))) | None => None end)
    (match ReqAccessibility r with
     | Some p => Some (MkAccessibility (zero_default 6 (MaxDepth p)) (zero_default 300 (MaxNodes p)))
     | None => None
     end)
    (ReqMouse r) (ReqKey r) (ReqText r).

Definition oneOf (value : string) (allowed : list string) : bool := existsb (fun candidate => value == candidate) allowed.

Definition in_bounds (lo hi v : Z) : bool := negb ((v <? lo) || (hi <? v)).

Definition validateMouse (input : option Mouse) : bool :=
  match input with
  | None => false
  | Some m =>
      if MouseAction m == "move" then in_bounds 0 16384 (MouseX m) && in_bounds 0 16384 (MouseY m)
      else if MouseAction m == "click" then
        in_bounds 0 16384 (MouseX m) && in_bounds 0 16384 (MouseY m) && oneOf (Button m) ["left"; "right"; "middle"]
      else if MouseAction m == "scroll" then
        in_bounds (-100) 100 (DeltaX m) && in_bounds (-100) 100 (DeltaY m) && negb ((DeltaX m =? 0) && (DeltaY m =? 0))
      else false
  end.

Definition named_keys : list string :=
  ["enter"; "escape"; "tab"; "backspace"; "delete"; "space"; "up"; "down"; "left"; "right"; "home"; "end"; "page_up"; "page_down";
   "f1"; "f2"; "f3"; "f4"; "f5"; "f6"; "f7"; "f8"; "f9"; "f10"; "f11"; "f12"].

Definition modifier_names : list string := ["control"; "alt"; "shift"; "meta"].

Section keys.
Context `{UnicodeLower}.

(** A letter or digit needs a modifier. *)
Definition shortcut_key (key : string) (modifiers : list string) : bool :=
  match key with
  | String c EmptyString => (is_lower c || is_digit c) && negb (length modifiers =? 0)%nat
  | _ => false
  end.

Fixpoint modifiers_ok (seen l : list string) : bool :=
  match l with
  | [] => true
  | m :: l' =>
      let m := ToLower m in
      if negb (oneOf m modifier_names) || existsb (fun x => x == m) seen then false else modifiers_ok (m :: seen) l'
  end.

Definition validateKey (input : option Key) : bool :=
  match input with
  | None => false
  | Some k =>
      let normalizedKey := ToLower (KeyName k) in
      if negb (oneOf normalizedKey named_keys) && negb (shortcut_key normalizedKey (Modifiers k)) then false
      else modifiers_ok [] (Modifiers k)
  end.

Definition present {A} (o : option A) : nat := match o with Some _ => 1 | None => 0 end.

Definition payloads (r : ActionRequest) : nat :=
  (present (ReqScreenshot r) + present (ReqAccessibility r) + present (ReqMouse r) + present (ReqKey r) + present (ReqText r))%nat.

Definition validateText (input : option Text) : bool :=
  match input with
  | None => false
  | Some t => negb ((TextValue t == "") || (4096 <? slen (TextValue t)) || str_exists (fun c => ord c =? 0) (TextValue t))
  end.

Definition validateOperation (r : ActionRequest) : bool :=
  if ReqOperation r == OperationScreenshot then
    match ReqScreenshot r with Some p => in_bounds 320 3840 (MaxWidth p) | None => false end
  else if ReqOperation r == OperationAccessibility then
    match ReqAccessibility r with Some p => in_bounds 1 10 (MaxDepth p) && in_bounds 1 500 (MaxNodes p) | None => false end
  else if ReqOperation r == OperationMouse then validateMouse (ReqMouse r)
  else if ReqOperation r == OperationKey then validateKey (ReqKey r)
  else if ReqOperation r == OperationTypeText then validateText (ReqText r)
  else false.

(** Every failure is [ErrInvalid]. *)
Definition Validate (now : nanos) (r : ActionRequest) : bool :=
  if (ReqSchemaVersion r != SchemaVersion) || negb (request_id_re (RequestID r)) || negb (has_prefix "lease_" (LeaseID r)) ||
     (ControlEpoch r <? 1) then false
  else
    let expiresAt := of_unix_milli (ExpiresUnixMS r) in
    if (ExpiresUnixMS r <=? 0) || negb (now <? expiresAt) || (now + 20 * second <? expiresAt) then false
    else if negb (payloads r =? 1)%nat then false
    else validateOperation r.

(** The detail of an audit event; [None] is the panic of a nil pointer. *)
Definition detail_fields (r : ActionRequest) : option (list (string * json)) :=
  let num z := JNum (itoa z) in
  if ReqOperation r == OperationScreenshot then p ← ReqScreenshot r; Some [("max_width", num (MaxWidth p))]
  else if ReqOperation r == OperationAccessibility then
    p ← ReqAccessibility r; Some [("max_depth", num (MaxDepth p)); ("max_nodes", num (MaxNodes p))]
  else if ReqOperation r == OperationMouse then
    m ← ReqMouse r;
    Some ([("action", JStr (MouseAction m))] ++
      (if (MouseAction m == "move") || (MouseAction m == "click") then [("x", num (MouseX m)); ("y", num (MouseY m))] else []) ++
      (if MouseAction m == "click" then [("button", JStr (Button m))] else []) ++
      (if MouseAction m == "scroll" then [("delta_x", num (DeltaX m)); ("delta_y", num (DeltaY m))] else []))
  else if ReqOperation r == OperationKey then
    k ← ReqKey r;
    Some [("key", JStr (ToLower (KeyName k))); ("modifiers", JArr (List.map (fun m => JStr (ToLower m)) (Modifiers k)))]
  else if ReqOperation r == OperationTypeText then
    t ← ReqText r; Some [("text_bytes", num (slen (TextValue t))); ("sensitive", JBool (Sensitive t))]
  else Some [].

Definition AuditDetail (r : ActionRequest) : option json :=
  l ← detail_fields r;
  Some (JObj ([("operation", JStr (ReqOperation r)); ("control_epoch", JNum (itoa (ControlEpoch r)))] ++ l)).
End keys.

(** ** Control authority *)
Record ComputerAuthority : Set := MkComputerAuthority {
  AuthSchemaVersion : Z;
  AuthLeaseID : string;
  AuthControlEpoch : Z;
  AuthState : string;
  AuthExpiresUnixMS : Z
}.

Definition validAuthority (a : ComputerAuthority) : bool :=
  (AuthSchemaVersion a =? SchemaVersion) && has_prefix "lease_" (AuthLeaseID a) && (1 <=? AuthControlEpoch a) &&
  ((AuthState a == "active") || (AuthState a == "revoked")).

(** * What a validated action is, and what is recorded of it *)

Section computer.
Context `{UnicodeLower}.

(** The same request with every typed character blanked. *)
Definition blank (s : string) : string := str_map (fun _ => "x"%char) s.
Definition redacted (r : ActionRequest) : ActionRequest :=
  MkActionRequest (ReqSchemaVersion r) (RequestID r) (LeaseID r) (ControlEpoch r) (ExpiresUnixMS r) (ReqOperation r)
    (ReqScreenshot r) (ReqAccessibility r) (ReqMouse r) (ReqKey r)
    (match ReqText r with Some t => Some (MkText (blank (TextValue t)) (Sensitive t)) | None => None end).

Lemma blank_slen s : slen (blank s) = slen s.
Proof. unfold blank. induction s as [| c s IH]; [done |]. simpl. by rewrite !slen_String, IH. Qed.

Lemma AuditDetail_redacted r : AuditDetail (redacted r) = AuditDetail r.
Proof.
  unfold AuditDetail, detail_fields. cbn [ReqOperation ReqScreenshot ReqAccessibility ReqMouse ReqKey ReqText ControlEpoch redacted].
  destruct (ReqText r) as [[v s] |]; [| done]. cbn [TextValue Sensitive mbind option_bind]. by rewrite blank_slen.
Qed.

(** The payload that an operation reads. *)
Definition has_payload (r : ActionRequest) : bool :=
  if ReqOperation r == OperationScreenshot then bool_decide (is_Some (ReqScreenshot r))
  else if ReqOperation r == OperationAccessibility then bool_decide (is_Some (ReqAccessibility r))
  else if ReqOperation r == OperationMouse then bool_decide (is_Some (ReqMouse r))
  else if ReqOperation r == OperationKey then bool_decide (is_Some (ReqKey r))
  else if ReqOperation r == OperationTypeText then bool_decide (is_Some (ReqText r))
  else false.

Lemma validateOperation_payload r : validateOperation r = true -> has_payload r = true.
Proof.
  unfold validateOperation, has_payload, validateMouse, validateKey, validateText.
  repeat (destruct (ReqOperation r == _); [intros Hv; repeat case_match; try done; by rewrite bool_decide_true by eauto |]). done.
Qed.

Lemma AuditDetail_total r : has_payload r = true -> is_Some (AuditDetail r).
Proof.
  unfold has_payload, AuditDetail, detail_fields.
  repeat (destruct (ReqOperation r == _); [intros Hp; apply bool_decide_eq_true in Hp as [x ->]; cbn [mbind option_bind]; eauto |]).
  done.
Qed.

(** The audit trail of computer use: a validated action has exactly one
    payload, the one its operation reads, and expires within the next twenty
    seconds; its audit detail exists - no nil payload is dereferenced - names
    the operation and the control epoch, and is a function of the request
    with every typed character blanked: the log learns the length of typed
    text and nothing else of it. *)
Theorem AuditDetail_reveals_no_text now r : Validate now r = true ->
  payloads r = 1%nat /\ has_payload r = true /\ 0 < ExpiresUnixMS r /\ now < of_unix_milli (ExpiresUnixMS r) <= now + 20 * second /\
  exists l, AuditDetail r = Some (JObj (("operation", JStr (ReqOperation r)) :: ("control_epoch", JNum (itoa (ControlEpoch r))) :: l)) /\
    AuditDetail (redacted r) = AuditDetail r /\
    forall r', redacted r' = redacted r -> AuditDetail r' = AuditDetail r.
Proof.
  unfold Validate. destruct (_ || _); [done |]. destruct (_ || _) eqn:Et; [done |]. destruct (negb (payloads r =? 1)%nat) eqn:Ep; [done |].
  intros Hv%validateOperation_payload. apply negb_false_iff, Nat.eqb_eq in Ep. b2p. split_and!; [done | done | lia.. |].
  pose proof (AuditDetail_total r Hv) as [j Hj]. unfold AuditDetail in Hj. destruct (detail_fields r) as [l |] eqn:El; [| done].
  exists l. split_and!; [unfold AuditDetail; by rewrite El | apply AuditDetail_redacted |].
  intros r' Hr'. by rewrite <- (AuditDetail_redacted r'), Hr', AuditDetail_redacted.
Qed.
End computer.

Section demo.
#[local] Instance demo_lower : UnicodeLower := fun s => s.

Definition demo_action : ActionRequest :=
  MkActionRequest 1 "action_aaaaaaaaaaaaaaaaaaaa" "lease_1" 3 1005 "type_text" None None None None (Some (MkText "secret" true)).

Lemma AuditDetail_reveals_no_text_witness : Validate (1000 * millisecond) demo_action = true /\
  AuditDetail demo_action = Some (JObj [("operation", JStr "type_text"); ("control_epoch", JNum "3"); ("text_bytes", JNum "6"); ("sensitive", JBool true)]) /\
  AuditDetail (redacted demo_action) = AuditDetail demo_action.
Proof.
  assert (Validate (1000 * millisecond) demo_action = true) as Hv by (vm_compute; reflexivity). split; [exact Hv |].
  destruct (AuditDetail_reveals_no_text (1000 * millisecond) demo_action Hv) as (_ & _ & _ & _ & l & _ & Hr & _).
  split; [vm_compute; reflexivity | exact Hr].
Defined.
End demo.
