(* ===== verification/Rdp.v ===== *)
(** * The headless RDP session ([internal/rdpsession/session.go])

    The request frame that the supervisor writes to its worker, the decoder on
    the worker's side ([apps/session-worker/protocol.c]), the receipts that
    come back, and the loop that turns them into readiness or failure. *)
From stdpp Require Import base strings list.
From Stdlib Require Import ZArith Lia Ascii.
From S2P Require Import Prelude GoStrings Net Db Json Triggers Computer.

Local Open Scope string_scope.
Local Open Scope list_scope.
Local Open Scope Z_scope.

Inductive rdp_error : Set :=
| RdpInvalid | RdpUnavailable (setup : option Z) | RdpProtocol | RdpClosed | RdpCertificate | RdpRedirect | RdpConnect (code : Z)
| RdpContext.   (* ctx.Err() *)

#[export] Instance rdp_error_eq_dec : EqDecision rdp_error.
Proof. solve_decision. Defined.

Record RdpConfig : Set := MkRdpConfig {
  Endpoint : Addr;
  EndpointPort : Z;
  Username : string;
  Domain : string;
  Password : string;
  CertificateSHA256 : string;
  Width : Z;
  Height : Z;
  ExpiresAt : nanos
}.

Definition user_re : string -> bool := match_class "vca" is_lower_hex 12 12.
Definition domain_char (c : ascii) : bool := is_upper c || is_lower c || is_digit c || (c == "-"%char).
Definition domain_re : string -> bool := match_class "" domain_char 1 15.
Definition printable (c : ascii) : bool := negb ((ord c <? 33) || (126 <? ord c)).

(** [binary.BigEndian.PutUint16] and its like: the low [8k] bits of [n]. *)
Fixpoint be (k : nat) (n : Z) : bytes :=
  match k with O => "" | S k' => String (chr (n / 256 ^ Z.of_nat k' mod 256)) (be k' n) end.

Definition frame_body (c : RdpConfig) (digest host : bytes) : bytes :=
  "VCW1" +:+ be 8 (UnixMilli (ExpiresAt c)) +:+ be 2 (EndpointPort c) +:+ be 2 (Width c) +:+ be 2 (Height c) +:+
  be 1 (slen host) +:+ be 1 (slen (Username c)) +:+ be 1 (slen (Domain c)) +:+ be 2 (slen (Password c)) +:+
  digest +:+ host +:+ Username c +:+ Domain c +:+ Password c.

Definition frame (now : nanos) (c : RdpConfig) : option bytes :=
  if negb (Is4 (Endpoint c)) || negb (IsPrivate (Endpoint c)) || (EndpointPort c =? 0) ||
     negb (user_re (Username c)) || negb (domain_re (Domain c)) ||
     (slen (Password c) <? 24) || (256 <? slen (Password c)) ||
     (Width c <? 640) || (1920 <? Width c) || (Height c <? 480) || (1200 <? Height c) ||
     negb (now <? ExpiresAt c) || (8 * 3600 * second <? ExpiresAt c - now) then None
  else if negb (str_forall printable (Password c)) then None
  else
    digest ← hex_decode (CertificateSHA256 c);
    if slen digest != 32 then None else
    let body := frame_body c digest (AddrString (Endpoint c)) in
    Some (be 4 (slen body) +:+ body).

(** ** The worker's decoder *)
Record vcw_request : Set := MkVcwRequest {
  vcw_expires_unix_ms : Z;
  vcw_port : Z;
  vcw_width : Z;
  vcw_height : Z;
  vcw_host : string;
  vcw_username : string;
  vcw_domain : string;
  vcw_password : string;
  vcw_fingerprint : string
}.

Definition byte_at (data : bytes) (i : nat) : Z := match String.get i data with Some c => ord c | None => 0 end.
Definition u16 (data : bytes) (i : nat) : Z := byte_at data i * 256 + byte_at data (i + 1).
Fixpoint big_endian (acc : Z) (s : bytes) : Z :=
  match s with EmptyString => acc | String c s' => big_endian (acc * 256 + ord c) s' end.

Definition VCW_MAX_FRAME : Z := 1024.
Definition VCW_MAX_LIFETIME_MS : Z := 8 * 60 * 60 * 1000.

(** [inet_pton] and the three private ranges. *)
Definition private_host (host : string) : bool :=
  match parse_ipv4 host with
  | Some (V4 ip) => negb ((Z.shiftr ip 24 != 10) && (Z.shiftr ip 20 != 0xac1) && (Z.shiftr ip 16 != 0xc0a8))
  | _ => false
  end.

Definition vcw_decode (data : bytes) (now : Z) : option vcw_request :=
  if (slen data <? 55) || (VCW_MAX_FRAME <? slen data) || negb (has_prefix "VCW1" data) then None else
  let expires := big_endian 0 (String.substring 4 8 data) in
  if (expires <=? now) || (VCW_MAX_LIFETIME_MS <? expires - now) then None else
  let port := u16 data 12 in let width := u16 data 14 in let height := u16 data 16 in
  let host := byte_at data 18 in let user := byte_at data 19 in let domain := byte_at data 20 in let password := u16 data 21 in
  if (port =? 0) || (width <? 640) || (height <? 480) || (1920 <? width) || (1200 <? height) ||
     (host <? 7) || (15 <? host) || (user != 15) || (domain =? 0) || (15 <? domain) || (password <? 24) || (256 <? password) ||
     (slen data != 55 + host + user + domain + password) then None else
  let field offset n := String.substring (Z.to_nat offset) (Z.to_nat n) data in
  let h := field 55 host in let u := field (55 + host) user in
  let d := field (55 + host + user) domain in let p := field (55 + host + user + domain) password in
  if str_exists (fun c => ord c =? 0) h || negb (private_host h) || negb (has_prefix "vca" u) ||
     negb (str_forall is_lower_hex (String.substring 3 12 u)) || negb (str_forall domain_char d) || negb (str_forall printable p) then None
  else Some (MkVcwRequest expires port width height h u d p ("sha256:" +:+ hex_encode (String.substring 23 32 data))).

(** ** Receipts *)
Record Receipt : Set := MkReceipt { RcVersion : Z; RcEvent : string; RcWidth : Z; RcHeight : Z; RcReason : string; RcCode : Z }.

Definition receipt_fields : list string := ["version"; "event"; "width"; "height"; "reason"; "code"].

Definition decode_receipt (raw : string) : option Receipt :=
  match json_document raw with
  | Some (JObj l) =>
      if negb (known_fields receipt_fields l) then None else
      let text f := decode_field store_string "" (field_values receipt_fields f l) in
      let int f := decode_field store_int64 0 (field_values receipt_fields f l) in
      version ← int "version"; event ← text "event"; width ← int "width"; height ← int "height"; reason ← text "reason";
      code ← decode_field (store_uint (2 ^ 32 - 1)) 0 (field_values receipt_fields "code" l);
      Some (MkReceipt version event width height reason code)
  | Some JNull => Some (MkReceipt 0 "" 0 0 "" 0)
  | _ => None
  end.

Definition receipt_ok (r : Receipt) : bool :=
  if RcVersion r != 1 then false
  else if RcEvent r == "connected" then
    negb ((RcWidth r != 0) || (RcHeight r != 0) || (RcReason r != "") || (RcCode r != 0))
  else if RcEvent r == "frame" then
    negb ((RcWidth r <? 320) || (RcHeight r <? 240) || (4096 <? RcWidth r) || (2160 <? RcHeight r) || (RcReason r != "") || (RcCode r != 0))
  else if RcEvent r == "failed" then
    negb ((RcWidth r != 0) || (RcHeight r != 0) ||
      ((RcReason r != "certificate") && (RcReason r != "redirect") && (RcReason r != "connect") && (RcReason r != "setup"))) &&
    negb ((RcReason r == "setup") && ((RcCode r <? 1) || (4 <? RcCode r)))
  else false.

Definition parseReceipt (raw : string) : option Receipt :=
  if (raw == "") || (1024 <? slen raw) then None else
  r ← decode_receipt raw;
  if receipt_ok r then Some r else None.

(** ** Reading them *)

(** A [ReadSlice]: a whole line, or what was left with [io.EOF] or another
    error, a full buffer among them. *)
Inductive read : Set := ReadLine (raw : string) | ReadEOF (raw : string) | ReadError (raw : string).

Inductive rdp_action : Set :=
| SetError (e : rdp_error)
| SetDimensions (width height : Z)
| CloseReady
| CloseInput
| StopWorker.

Definition failure_of (r : Receipt) : rdp_error :=
  if RcReason r == "certificate" then RdpCertificate
  else if RcReason r == "redirect" then RdpRedirect
  else if RcReason r == "connect" then RdpConnect (RcCode r)
  else RdpUnavailable (Some (RcCode r)).

Definition read_raw (x : read) : string := match x with ReadLine raw | ReadEOF raw | ReadError raw => raw end.
Definition read_ok (x : read) : bool := match x with ReadLine _ => true | _ => false end.

(** One turn: what is done, and the flags if the loop goes on. *)
Definition receipt_step (connected framed : bool) (x : read) : list rdp_action * option (bool * bool) :=
  match x with
  | ReadEOF "" => if connected && framed then ([SetError RdpClosed; StopWorker], None) else ([SetError RdpProtocol; CloseInput; StopWorker], None)
  | _ =>
      match parseReceipt (read_raw x) with
      | Some r =>
          if read_ok x && (RcEvent r == "failed") then ([SetError (failure_of r); StopWorker], None)
          else if negb (read_ok x) || ((RcEvent r == "connected") && connected) || ((RcEvent r == "frame") && framed)
          then ([SetError RdpProtocol; CloseInput; StopWorker], None)
          else
            let '(acts, connected', framed') :=
              if RcEvent r == "connected" then ([], true, framed) else ([SetDimensions (RcWidth r) (RcHeight r)], connected, true) in
            (acts ++ (if connected' && framed' then [CloseReady] else []), Some (connected', framed'))
      | None => ([SetError RdpProtocol; CloseInput; StopWorker], None)
      end
  end.

(** The loop blocks where the reads end. *)
Fixpoint readReceipts (connected framed : bool) (l : list read) : list rdp_action :=
  match l with
  | [] => []
  | x :: l' =>
      match receipt_step connected framed x with
      | (acts, None) => acts
      | (acts, Some (c, f)) => acts ++ readReceipts c f l'
      end
  end.

(** * The worker understands its supervisor; readiness happens once *)

(** ** Big-endian numbers *)
Lemma big_endian_be k acc n : big_endian acc (be k n) = acc * 256 ^ Z.of_nat k + n mod 256 ^ Z.of_nat k.
Proof.
  revert acc. induction k as [| k IH]; intros acc; [simpl; rewrite Z.mod_1_r; lia |].
  cbn [be big_endian]. rewrite IH, ord_chr by (apply Z.mod_pos_bound; lia).
  replace (Z.of_nat (S k)) with (Z.of_nat k + 1) by lia. rewrite Z.pow_add_r by lia.
  set (p := 256 ^ Z.of_nat k). assert (0 < p) by (apply Z.pow_pos_nonneg; lia).
  change (256 ^ 1) with 256. rewrite (Z.rem_mul_r n p 256) by lia. ring.
Qed.

Lemma be_value k n : 0 <= n < 256 ^ Z.of_nat k -> big_endian 0 (be k n) = n.
Proof. intros Hn. rewrite big_endian_be, Z.mod_small by done. lia. Qed.

Lemma be_length k n : String.length (be k n) = k.
Proof. induction k as [| k IH]; [done |]. cbn [be String.length]. by rewrite IH. Qed.

(** ** Reading at an offset *)
Lemma get_app (a b : string) i : String.get (String.length a + i) (a +:+ b) = String.get i b.
Proof. induction a as [| c a IH]; [done |]. rewrite app_String. exact IH. Qed.

Lemma get_app_l (a b : string) i : (i < String.length a)%nat -> String.get i (a +:+ b) = String.get i a.
Proof.
  revert i. induction a as [| c a IH]; intros i Hi; [simpl in Hi; lia |]. rewrite app_String. destruct i as [| i]; [done |].
  simpl. apply IH. simpl in Hi. lia.
Qed.

Lemma substring_at (a b c : string) : String.substring (String.length a) (String.length b) (a +:+ b +:+ c) = b.
Proof.
  induction a as [| x a IH]; [| rewrite app_String; exact IH]. rewrite app_EmptyString. cbn [String.length].
  induction b as [| y b IH]; [by destruct c |]. rewrite app_String. cbn [String.length String.substring]. by rewrite IH.
Qed.

Lemma field_at (a b c : string) offset n : offset = slen a -> n = slen b ->
  String.substring (Z.to_nat offset) (Z.to_nat n) (a +:+ b +:+ c) = b.
Proof. intros -> ->. unfold slen. rewrite !Nat2Z.id. apply substring_at. Qed.

Lemma u16_be n s a b : String.get a s = String.get 0 (be 2 n) -> b = (a + 1)%nat -> String.get b s = String.get 1 (be 2 n) ->
  0 <= n < 65536 -> u16 s a = n.
Proof.
  intros H0 -> H1 Hn. unfold u16, byte_at. rewrite H0, H1. cbn [be String.get]. rewrite !ord_chr by (apply Z.mod_pos_bound; lia).
  change (256 ^ Z.of_nat 1) with 256. change (256 ^ Z.of_nat 0) with 1. Z.div_mod_to_equations. lia.
Qed.

(** ** The host *)
Definition host_char (c : ascii) : bool := is_digit c || (c == "."%char).

Lemma addr_string4_host n : str_forall host_char (addr_string4 n) = true /\ 7 <= slen (addr_string4 n) <= 15.
Proof.
  assert (forall i, str_forall host_char (format_uint (Z.to_N (v4 n i))) = true /\ 1 <= slen (format_uint (Z.to_N (v4 n i))) <= 3) as H.
  { intros i. split; [eapply str_forall_impl; [| apply format_uint_digits]; intros c Hc; unfold host_char; by rewrite Hc |].
    split; [pose proof (format_uint_nonempty (Z.to_N (v4 n i))) as Hn; destruct (format_uint _) as [| c s]; [done |];
            rewrite slen_String; pose proof (slen_nonneg s); lia |].
    apply (format_uint_len _ 3); [| lia]. rewrite v4_byte. pose proof (Z.mod_pos_bound (Z.shiftr n (24 - 8 * i)) 256 ltac:(lia)). lia. }
  destruct (H 0) as [A0 B0], (H 1) as [A1 B1], (H 2) as [A2 B2], (H 3) as [A3 B3].
  unfold addr_string4. cbn [join]. repeat rewrite ?str_forall_app, ?slen_app, ?slen_String. cbn [str_forall].
  repeat rewrite ?str_forall_app, ?slen_app, ?slen_String. cbn [str_forall].
  repeat rewrite ?str_forall_app, ?slen_app, ?slen_String. cbn [str_forall].
  rewrite A0, A1, A2, A3. split; [done | lia].
Qed.

Lemma land_240 x : 0 <= x < 256 -> Z.land x 240 = 16 -> x / 16 = 1.
Proof.
  intros Hx H. apply (f_equal (fun z => Z.shiftr z 4)) in H. rewrite Z.shiftr_land in H. change (Z.shiftr 240 4) with (Z.ones 4) in H.
  rewrite Z.land_ones, Z.shiftr_div_pow2 in H by lia. change (Z.shiftr 16 4) with 1 in H. change (2 ^ 4) with 16 in H.
  Z.div_mod_to_equations. lia.
Qed.

Lemma private_host_addr n : 0 <= n < 2 ^ 32 -> private4 n = true -> private_host (addr_string4 n) = true.
Proof.
  intros Hn Hp. unfold private_host. rewrite parse_addr_string4 by done. unfold private4 in Hp. rewrite !v4_byte in Hp.
  rewrite !Z.shiftr_div_pow2 in * by lia. change (24 - 8 * 0) with 24 in Hp. change (24 - 8 * 1) with 16 in Hp.
  rewrite !orb_true_iff, !andb_true_iff, !Z.eqb_eq in Hp.
  destruct (_ && _) eqn:E; [| done]. exfalso. b2p. destruct_and!.
  destruct Hp as [[Hp | [Hp Hq]] | [Hp Hq]]; [| apply land_240 in Hq; [| apply Z.mod_pos_bound; lia] |]; Z.div_mod_to_equations; lia.
Qed.

Lemma host_no_nul s : str_forall host_char s = true -> str_exists (fun c => ord c =? 0) s = false.
Proof.
  intros H. rewrite str_exists_forall. apply negb_false_iff. eapply str_forall_impl; [| exact H].
  intros c. destruct c as [[] [] [] [] [] [] [] []]; vm_compute; congruence.
Qed.

(** ** The layout of a frame *)
Section layout.
Context (c : RdpConfig) (digest host : bytes).
Hypothesis digest_len : slen digest = 32.
Hypothesis port_ok : 0 <= EndpointPort c < 65536.
Hypothesis size_ok : 0 <= Width c < 65536 /\ 0 <= Height c < 65536.
Hypothesis names_ok : slen host < 256 /\ slen (Username c) < 256 /\ slen (Domain c) < 256 /\ slen (Password c) < 65536.
Hypothesis expiry_ok : 0 <= UnixMilli (ExpiresAt c) < 2 ^ 64.

Let pre : bytes :=
  "VCW1" +:+ be 8 (UnixMilli (ExpiresAt c)) +:+ be 2 (EndpointPort c) +:+ be 2 (Width c) +:+ be 2 (Height c) +:+
  be 1 (slen host) +:+ be 1 (slen (Username c)) +:+ be 1 (slen (Domain c)) +:+ be 2 (slen (Password c)).
Let body := frame_body c digest host.

Lemma body_pre : body = pre +:+ digest +:+ host +:+ Username c +:+ Domain c +:+ Password c.
Proof. unfold body, frame_body, pre. by rewrite !append_assoc_s. Qed.

Lemma pre_length : String.length pre = 23%nat.
Proof. unfold pre. by rewrite !length_app_s, !be_length. Qed.

Lemma body_slen : slen body = 55 + slen host + slen (Username c) + slen (Domain c) + slen (Password c).
Proof. rewrite body_pre, !slen_app, digest_len. unfold slen at 1. rewrite pre_length. lia. Qed.

Lemma body_get i : (i < 23)%nat -> String.get i body = String.get i pre.
Proof. intros Hi. rewrite body_pre. apply get_app_l. by rewrite pre_length. Qed.

Lemma body_u16 a n : (a + 1 < 23)%nat -> String.get a pre = String.get 0 (be 2 n) -> String.get (a + 1) pre = String.get 1 (be 2 n) ->
  0 <= n < 65536 -> u16 body a = n.
Proof. intros Ha H0 H1 Hn. apply (u16_be n body a (a + 1)); [rewrite body_get by lia; done | done | rewrite body_get by lia; done | done]. Qed.

Lemma body_byte a n : (a < 23)%nat -> String.get a pre = String.get 0 (be 1 n) -> 0 <= n < 256 -> byte_at body a = n.
Proof.
  intros Ha H Hn. unfold byte_at. rewrite body_get, H by done. cbn [be String.get]. rewrite ord_chr by (apply Z.mod_pos_bound; lia).
  change (256 ^ Z.of_nat 0) with 1. Z.div_mod_to_equations. lia.
Qed.

Lemma body_header :
  big_endian 0 (String.substring 4 8 body) = UnixMilli (ExpiresAt c) /\
  u16 body 12 = EndpointPort c /\ u16 body 14 = Width c /\ u16 body 16 = Height c /\
  byte_at body 18 = slen host /\ byte_at body 19 = slen (Username c) /\ byte_at body 20 = slen (Domain c) /\ u16 body 21 = slen (Password c).
Proof.
  pose proof (slen_nonneg host). pose proof (slen_nonneg (Username c)). pose proof (slen_nonneg (Domain c)). pose proof (slen_nonneg (Password c)).
  destruct names_ok as (? & ? & ? & ?), size_ok.
  split; [| split_and!; first [apply body_u16 | apply body_byte]; try (reflexivity || lia)].
  unfold body, frame_body. rewrite <- (be_value 8 (UnixMilli (ExpiresAt c))) at 2 by (exact expiry_ok).
  f_equal.
Qed.

Lemma body_fields :
  String.substring 23 32 body = digest /\
  String.substring (Z.to_nat 55) (Z.to_nat (slen host)) body = host /\
  String.substring (Z.to_nat (55 + slen host)) (Z.to_nat (slen (Username c))) body = Username c /\
  String.substring (Z.to_nat (55 + slen host + slen (Username c))) (Z.to_nat (slen (Domain c))) body = Domain c /\
  String.substring (Z.to_nat (55 + slen host + slen (Username c) + slen (Domain c))) (Z.to_nat (slen (Password c))) body = Password c.
Proof.
  assert (slen pre = 23) as Hpre by (unfold slen; by rewrite pre_length). rewrite body_pre. split_and!.
  - pose proof (substring_at pre digest (host +:+ Username c +:+ Domain c +:+ Password c)) as H. rewrite pre_length in H.
    unfold slen in digest_len. by replace (String.length digest) with 32%nat in H by lia.
  - rewrite <- append_assoc_s. apply field_at; [rewrite slen_app; lia | done].
  - rewrite <- !append_assoc_s. rewrite (append_assoc_s _ (Domain c)), (append_assoc_s _ (Username c)).
    apply field_at; [rewrite !slen_app; lia | done].
  - rewrite <- !append_assoc_s. rewrite (append_assoc_s _ (Domain c)). apply field_at; [rewrite !slen_app; lia | done].
  - replace (pre +:+ _) with ((pre +:+ digest +:+ host +:+ Username c +:+ Domain c) +:+ Password c +:+ "")
      by (by rewrite append_nil_s, !append_assoc_s).
    apply field_at; [rewrite !slen_app; lia | done].
Qed.
End layout.

(** ** The round trip *)
Definition worker_request (c : RdpConfig) (digest : bytes) : vcw_request :=
  MkVcwRequest (UnixMilli (ExpiresAt c)) (EndpointPort c) (Width c) (Height c) (AddrString (Endpoint c)) (Username c) (Domain c) (Password c)
    ("sha256:" +:+ hex_encode digest).

(** What [frame] has checked. *)
Lemma frame_inv now c payload : frame now c = Some payload -> exists n digest,
  Endpoint c = V4 n /\ private4 n = true /\ EndpointPort c <> 0 /\ user_re (Username c) = true /\ domain_re (Domain c) = true /\
  24 <= slen (Password c) <= 256 /\ 640 <= Width c <= 1920 /\ 480 <= Height c <= 1200 /\
  now < ExpiresAt c <= now + 8 * 3600 * second /\ str_forall printable (Password c) = true /\
  hex_decode (CertificateSHA256 c) = Some digest /\ slen digest = 32 /\
  payload = be 4 (slen (frame_body c digest (addr_string4 n))) +:+ frame_body c digest (addr_string4 n).
Proof.
  unfold frame. destruct (_ || _) eqn:E; [done |]. destruct (str_forall printable (Password c)); [| done]. cbn [negb].
  destruct (hex_decode (CertificateSHA256 c)) as [d |]; [| done]. cbn [mbind option_bind]. case_bool_decide as Hd; [| done]. cbn [negb].
  intros [= <-]. destruct (Endpoint c) as [n | n z]; [| done]. exists n, d. cbn [IsPrivate Is4 AddrString] in *.
  rewrite !orb_false_iff, !negb_false_iff, !Z.ltb_ge, !Z.eqb_neq, !Z.ltb_lt in E. destruct_and!. split_and!; (done || lia).
Qed.

(** A frame is understood (C40): whatever configuration the supervisor
    accepts, its frame carries its own length, fits the worker's buffer, and
    the worker's decoder - at any time before the expiry, on a clock that is
    not behind the supervisor's - reads exactly that configuration from it,
    and refuses it from the expiry on. *)
Theorem vcw_decode_frame now c payload :
  frame now c = Some payload -> Addr_wf (Endpoint c) -> 0 <= EndpointPort c < 65536 -> 0 <= now -> UnixMilli (ExpiresAt c) < 2 ^ 63 ->
  exists body digest, payload = be 4 (slen body) +:+ body /\ big_endian 0 (be 4 (slen body)) = slen body /\ slen body <= VCW_MAX_FRAME /\
    hex_decode (CertificateSHA256 c) = Some digest /\
    (forall clock, UnixMilli now <= clock < UnixMilli (ExpiresAt c) -> vcw_decode body clock = Some (worker_request c digest)) /\
    (forall clock, UnixMilli (ExpiresAt c) <= clock -> vcw_decode body clock = None).
Proof.
  intros Hf Hw Hport Hnow Hexp. apply frame_inv in Hf as (n & d & He & Hpriv & Hp0 & Hu & Hdom & Hpw & Hwd & Hht & Hlife & Hpr & Hhex & Hd & ->).
  rewrite He in Hw. cbn [Addr_wf] in Hw. destruct (addr_string4_host n) as [Hhc Hhl].
  pose proof Hu as (ru & Hu1 & Hu2 & Hu3)%match_class_spec. pose proof Hdom as (rd & Hd1 & Hd2 & Hd3)%match_class_spec.
  assert (slen (Username c) = 15) as Hul by (rewrite Hu1, slen_app; change (slen "vca") with 3; lia).
  assert (slen (Domain c) = slen rd) as Hdl by (by rewrite Hd1).
  assert (0 <= UnixMilli (ExpiresAt c) < 2 ^ 64) as Hexp' by (unfold UnixMilli, millisecond in *; Z.div_mod_to_equations; lia).
  set (body := frame_body c d (addr_string4 n)).
  assert (slen body = 55 + slen (addr_string4 n) + slen (Username c) + slen (Domain c) + slen (Password c)) as Hlen
    by (apply body_slen; try done; lia).
  assert (slen body <= 356) as Hle by lia. pose proof (slen_nonneg body).
  exists body, d. split; [done |]. split; [apply be_value; change (256 ^ Z.of_nat 4) with (2 ^ 32); lia |].
  split; [unfold VCW_MAX_FRAME; lia |]. split; [done |].
  destruct (body_header c d (addr_string4 n) Hport ltac:(lia) ltac:(lia) Hexp') as (B1 & B2 & B3 & B4 & B5 & B6 & B7 & B8).
  destruct (body_fields c d (addr_string4 n) Hd) as (F1 & F2 & F3 & F4 & F5). fold body in B1, B2, B3, B4, B5, B6, B7, B8, F1, F2, F3, F4, F5.
  unfold vcw_decode. replace (_ || _ || _) with false by (symmetry; unfold VCW_MAX_FRAME; rewrite !orb_false_iff, negb_false_iff, !Z.ltb_ge; split_and!; [lia | lia | reflexivity]).
  rewrite B1, B2, B3, B4, B5, B6, B7, B8. split; intros clock Hc; cycle 1.
  { by replace (UnixMilli (ExpiresAt c) <=? clock) with true by lia. }
  replace ((UnixMilli (ExpiresAt c) <=? clock) || _) with false.
  2: { symmetry. rewrite orb_false_iff, Z.leb_gt, Z.ltb_ge. split; [lia |].
       unfold VCW_MAX_LIFETIME_MS, UnixMilli, millisecond, second in *. Z.div_mod_to_equations. lia. }
  rewrite F1, F2, F3, F4, F5. rewrite (host_no_nul _ Hhc), (private_host_addr n Hw Hpriv), Hpr.
  assert (has_prefix "vca" (Username c) = true) as -> by (by rewrite Hu1).
  assert (str_forall domain_char (Domain c) = true) as -> by (by rewrite Hd1).
  assert (String.substring 3 12 (Username c) = ru) as ->.
  { rewrite Hu1. pose proof (substring_at "vca" ru "") as H1. rewrite append_nil_s in H1. cbn [String.length] in H1. unfold slen in Hu3.
    by replace (String.length ru) with 12%nat in H1 by lia. }
  rewrite Hu2.
  match goal with |- (if ?b then _ else _) = _ => replace b with false end.
  2: { symmetry. rewrite !orb_false_iff, !Z.eqb_neq, !Z.ltb_ge, !negb_false_iff, !bool_decide_eq_true. split_and!; lia. }
  cbn [orb negb]. unfold worker_request. by rewrite He.
Qed.

(** ** Receipts *)
#[export] Instance rdp_action_eq_dec : EqDecision rdp_action.
Proof. solve_decision. Defined.

Definition count_ready (l : list rdp_action) : nat := length (List.filter (fun a => a == CloseReady) l).
Definition good_dimensions (w h : Z) : Prop := 320 <= w <= 4096 /\ 240 <= h <= 2160.

(** The three endings of the loop. *)
Definition ending (acts : list rdp_action) : Prop :=
  exists e, acts = [SetError e; StopWorker] \/ acts = [SetError e; CloseInput; StopWorker].

(** What the loop has still to do, from the flags it is at. *)
Definition receipts_run (connected framed : bool) (acts : list rdp_action) : Prop :=
  exists dims ready fin, acts = dims ++ ready ++ fin /\ (fin = [] \/ ending fin) /\
    (dims = [] \/ (framed = false /\ exists w h, dims = [SetDimensions w h] /\ good_dimensions w h)) /\
    (ready = [] \/ (ready = [CloseReady] /\ (connected && framed = false) /\ (framed = true \/ dims <> []))).

Lemma parseReceipt_frame raw r : parseReceipt raw = Some r -> RcEvent r = "frame" -> good_dimensions (RcWidth r) (RcHeight r).
Proof.
  unfold parseReceipt. destruct (_ || _); [done |]. destruct (decode_receipt raw) as [x |]; [| done]. cbn [mbind option_bind].
  destruct (receipt_ok x) eqn:E; [| done]. intros [= <-] He. unfold receipt_ok in E. rewrite He in E.
  destruct (_ != 1); [done |]. change ("frame" == "connected") with false in E. rewrite eqb_refl in E. cbn iota in E. unfold good_dimensions. b2p. lia.
Qed.

Lemma parseReceipt_event raw r : parseReceipt raw = Some r -> RcEvent r = "connected" \/ RcEvent r = "frame" \/ RcEvent r = "failed".
Proof.
  unfold parseReceipt. destruct (_ || _); [done |]. destruct (decode_receipt raw) as [x |]; [| done]. cbn [mbind option_bind].
  destruct (receipt_ok x) eqn:E; [| done]. intros [= <-]. unfold receipt_ok in E. repeat (case_match; b2p; try tauto); done.
Qed.

(** A turn: it ends the loop, or it is a first connection or a first frame. *)
Lemma receipt_step_cases connected framed x acts o : receipt_step connected framed x = (acts, o) ->
  (o = None /\ ending acts) \/
  (connected = false /\ o = Some (true, framed) /\ acts = if framed then [CloseReady] else []) \/
  (framed = false /\ o = Some (connected, true) /\ exists w h, good_dimensions w h /\
     acts = SetDimensions w h :: if connected then [CloseReady] else []).
Proof.
  assert (forall e, ending [SetError e; StopWorker]) as Hs by (intros e; exists e; by left).
  assert (forall e, ending [SetError e; CloseInput; StopWorker]) as Hl by (intros e; exists e; by right).
  unfold receipt_step. intros H.
  assert (forall r, parseReceipt (read_raw x) = Some r ->
    (if read_ok x && (RcEvent r == "failed") then ([SetError (failure_of r); StopWorker], None)
     else if negb (read_ok x) || ((RcEvent r == "connected") && connected) || ((RcEvent r == "frame") && framed)
     then ([SetError RdpProtocol; CloseInput; StopWorker], None)
     else let '(acts, connected', framed') :=
            if RcEvent r == "connected" then ([], true, framed) else ([SetDimensions (RcWidth r) (RcHeight r)], connected, true) in
          (acts ++ (if connected' && framed' then [CloseReady] else []), Some (connected', framed'))) = (acts, o) ->
    (o = None /\ ending acts) \/
    (connected = false /\ o = Some (true, framed) /\ acts = if framed then [CloseReady] else []) \/
    (framed = false /\ o = Some (connected, true) /\ exists w h, good_dimensions w h /\
       acts = SetDimensions w h :: if connected then [CloseReady] else [])) as Hstep.
  { intros r Hr. pose proof (parseReceipt_event _ _ Hr) as Hev. destruct (read_ok x); cbn [andb negb orb]; cycle 1.
    - intros [= <- <-]. left. auto.
    - destruct Hev as [He | [He | He]]; rewrite He; cbn [bool_decide].
      + change ("connected" == "failed") with false. change ("connected" == "frame") with false. rewrite !eqb_refl. cbn [andb orb].
        destruct connected; cbn [orb]; intros [= <- <-]; [left; auto | right; left; by destruct framed].
      + change ("frame" == "failed") with false. change ("frame" == "connected") with false. rewrite !eqb_refl. cbn [andb orb].
        destruct framed; intros [= <- <-]; [left; auto | right; right]. split_and!; [done | done |].
        exists (RcWidth r), (RcHeight r). split; [by eapply parseReceipt_frame | by destruct connected].
      + rewrite !eqb_refl. intros [= <- <-]. left. auto. }
  destruct x as [raw | [| a raw] | raw]; [| destruct (connected && framed); injection H as <- <-; left; auto | |];
    (match type of H with context [parseReceipt ?y] => destruct (parseReceipt y) as [r |] eqn:Er end;
     [by eapply Hstep | injection H as <- <-; left; auto]).
Qed.

Lemma receipt_step_end connected framed x : read_ok x = false -> snd (receipt_step connected framed x) = None.
Proof.
  destruct x as [raw | [| a raw] | raw]; [done | unfold receipt_step; by destruct (connected && framed) | |]; intros _; unfold receipt_step;
    cbn [read_raw read_ok]; (destruct (parseReceipt _); [| done]); done.
Qed.

Lemma receipts_run_spec l connected framed : receipts_run connected framed (readReceipts connected framed l) /\
  ((exists x, In x l /\ read_ok x = false) -> exists pre fin, readReceipts connected framed l = pre ++ fin /\ ending fin).
Proof.
  revert connected framed. induction l as [| x l IH]; intros connected framed.
  { split; [exists [], [], []; split_and!; auto |]. by intros (x & [] & _). }
  simpl. destruct (receipt_step connected framed x) as [acts o] eqn:E.
  pose proof (receipt_step_end connected framed x) as Hend. rewrite E in Hend. cbn [snd] in Hend.
  apply receipt_step_cases in E as [[-> Hf] | [(-> & -> & ->) | (-> & -> & w & h & Hg & ->)]].
  - split; [exists [], [], acts; split_and!; auto | intros _; by exists [], acts].
  - destruct (IH true framed) as [(d & r & f & Heq & Hf & Hd & Hr) Hfin]. split.
    + rewrite Heq. destruct framed; [| by exists d, r, f].
      destruct Hd as [-> | [? _]]; [| done]. destruct Hr as [-> | (_ & ? & _)]; [| done]. exists [], [CloseReady], f. split_and!; auto.
    + intros (y & [-> | Hy] & Hn); [by specialize (Hend Hn) |]. destruct (Hfin ltac:(eauto)) as (pre & fin & -> & He).
      eexists (_ ++ pre), fin. split; [by rewrite app_assoc | done].
  - destruct (IH connected true) as [(d & r & f & Heq & Hf & Hd & Hr) Hfin]. destruct Hd as [-> | [? _]]; [| done]. split.
    + rewrite Heq. exists [SetDimensions w h]. destruct connected.
      * destruct Hr as [-> | (_ & ? & _)]; [| done]. exists [CloseReady], f. split_and!; try done; [right; eauto | right; split_and!; [done | done | by right]].
      * exists r, f. split_and!; try done; [right; eauto |]. destruct Hr as [-> | (-> & _ & _)]; [by left | right; split_and!; [done | done | by right]].
    + intros (y & [-> | Hy] & Hn); [by specialize (Hend Hn) |]. destruct (Hfin ltac:(eauto)) as (pre & fin & -> & He).
      eexists (_ ++ pre), fin. split; [by rewrite app_assoc | done].
Qed.

(** Readiness happens once: whatever a worker writes, the supervisor
    records the size of at most one picture, within the decoder's bounds;
    closes the ready channel at most once - a second close would panic - and
    only after that picture; records at most one failure, as its last act
    but for stopping the worker; and does record one as soon as the output
    ends, breaks or overruns the buffer. *)
Theorem readReceipts_ready_once l :
  (exists dims ready fin, readReceipts false false l = dims ++ ready ++ fin /\
     (dims = [] \/ exists w h, dims = [SetDimensions w h] /\ good_dimensions w h) /\
     (ready = [] \/ ready = [CloseReady] /\ dims <> []) /\ (fin = [] \/ ending fin)) /\
  (count_ready (readReceipts false false l) <= 1)%nat /\
  ((exists x, In x l /\ read_ok x = false) -> exists pre fin, readReceipts false false l = pre ++ fin /\ ending fin).
Proof.
  destruct (receipts_run_spec l false false) as [(d & r & f & Heq & Hf & Hd & Hr) Hfin]. split_and!; [| | exact Hfin].
  - exists d, r, f. split_and!; [done | | | done]; [destruct Hd as [| [_ ?]]; auto |]. destruct Hr as [| (? & _ & [? | ?])]; [by left | done | by right].
  - rewrite Heq. unfold count_ready. rewrite !List.filter_app, !length_app.
    assert (length (List.filter (fun a => a == CloseReady) d) = 0)%nat as -> by (destruct Hd as [-> | (_ & w & h & -> & _)]; done).
    assert (length (List.filter (fun a => a == CloseReady) f) = 0)%nat as -> by (destruct Hf as [-> | [e [-> | ->]]]; done).
    destruct Hr as [-> | (-> & _)]; simpl; lia.
Qed.

Section demo.
Definition demo_rdp : RdpConfig :=
  MkRdpConfig (ipv4 10 31 0 2) 3389 "vca0123456789ab" "VCW-PC" "Abc1!2345678901234567890"
    "00112233445566778899AABBCCDDEEFF00112233445566778899aabbccddeeff" 1280 720 (10 * second).
Definition demo_frame : bytes := default "" (frame (1 * second) demo_rdp).

Lemma vcw_decode_frame_witness : exists body request, demo_frame = be 4 109 +:+ body /\ vcw_decode body 2000 = Some request /\
  vcw_host request = "10.31.0.2" /\ vcw_decode body 10000 = None.
Proof.
  destruct (vcw_decode_frame (1 * second) demo_rdp demo_frame) as (body & digest & Hp & _ & _ & _ & Hd & He);
    [vm_compute; reflexivity | vm_compute; split; congruence | vm_compute; split; congruence | vm_compute; congruence | vm_compute; reflexivity |].
  assert (slen body = 109) as Hb.
  { apply (f_equal slen) in Hp. rewrite slen_app in Hp. assert (slen (be 4 (slen body)) = 4) as E by (unfold slen; by rewrite be_length).
    rewrite E in Hp. change (slen demo_frame) with 113 in Hp. lia. }
  rewrite Hb in Hp. exists body, (worker_request demo_rdp digest). split; [exact Hp |].
  split; [apply Hd; vm_compute; split; congruence |]. split; [vm_compute; reflexivity |]. apply He. vm_compute. congruence.
Defined.
End demo.
