(* ===== verification/Guest.v ===== *)
(** * Talking to a Guest

    The control plane reaches a Guest through a narrow channel: it asks for
    the VM's configuration and runs fixed commands, some with an input.  A
    program over that channel is a tree of questions whose answers, with the
    clock and the state of the context, come from outside; running it against
    an environment yields its result and the trace of what was asked and
    answered.  [wp] is the weakest precondition over all environments.

    The texts that go through the channel: [pve.MarshalGuestJSON]. *)
From stdpp Require Import base strings list.
From Stdlib Require Import ZArith Lia Ascii.
From S2P Require Import Prelude GoStrings Db Json Computer.

Local Open Scope string_scope.
Local Open Scope list_scope.
Local Open Scope Z_scope.

(** The sentinel errors of [package computer]. *)
Inductive context_end : Set := DeadlineExceeded | Canceled.
Inductive comp_error : Set := CompInvalid | CompUnavailable | CompTimeout | CompContext (c : context_end) | CompRejected
| CompStuck.   (* a loop of the model out of rounds: shown unreachable *)

#[export] Instance context_end_eq_dec : EqDecision context_end.
Proof. solve_decision. Defined.
#[export] Instance comp_error_eq_dec : EqDecision comp_error.
Proof. solve_decision. Defined.

Record GuestExecResult : Set := MkExecResult { ExitCode : Z; Stdout : string; Stderr : string }.

(** An error of the channel: what [errors.Is] finds in it, and its text. *)
Record guest_failure : Set := MkFailure { FailContext : option context_end; FailMessage : string }.
Definition guest_answer : Set := guest_failure + GuestExecResult.

(** The context of a call, or the shorter one of a single observation. *)
Inductive context_name : Set := WholeContext | Observation.

Inductive prog (A : Type) : Type :=
| Done (r : comp_error + A)
| AskConfig (k : option string -> prog A)                        (* VMConfiguration: the OS type *)
| AskExec (cmd : list string) (k : guest_answer -> prog A)
| AskInput (cmd : list string) (input : bytes) (k : guest_answer -> prog A)
| AskWrite (path : string) (payload : bytes) (k : option guest_failure -> prog A)
| AskNow (k : nanos -> prog A)
| AskContext (c : context_name) (k : option context_end -> prog A)   (* ctx.Err() *)
| AskRandom (n : nat) (k : option bytes -> prog A)
| AskTimer (d : nanos) (k : option context_end -> prog A).           (* a timer, or the context's end first *)
Arguments Done {A} r.
Arguments AskConfig {A} k.
Arguments AskExec {A} cmd k.
Arguments AskInput {A} cmd input k.
Arguments AskWrite {A} path payload k.
Arguments AskNow {A} k.
Arguments AskContext {A} c k.
Arguments AskRandom {A} n k.
Arguments AskTimer {A} d k.

Fixpoint prog_bind {A B} (f : A -> prog B) (p : prog A) : prog B :=
  match p with
  | Done (inl e) => Done (inl e)
  | Done (inr a) => f a
  | AskConfig k => AskConfig (fun x => prog_bind f (k x))
  | AskExec cmd k => AskExec cmd (fun x => prog_bind f (k x))
  | AskInput cmd input k => AskInput cmd input (fun x => prog_bind f (k x))
  | AskWrite path payload k => AskWrite path payload (fun x => prog_bind f (k x))
  | AskNow k => AskNow (fun x => prog_bind f (k x))
  | AskContext c k => AskContext c (fun x => prog_bind f (k x))
  | AskRandom n k => AskRandom n (fun x => prog_bind f (k x))
  | AskTimer d k => AskTimer d (fun x => prog_bind f (k x))
  end.

#[export] Instance prog_ret : MRet prog := fun A a => Done (inr a).
#[export] Instance prog_mbind : MBind prog := fun A B f p => prog_bind f p.

Definition pfail {A} (e : comp_error) : prog A := Done (inl e).
Definition pensure (ok : bool) (e : comp_error) : prog unit := if ok then mret tt else pfail e.
Definition psome {A} (o : option A) (e : comp_error) : prog A := match o with Some a => mret a | None => pfail e end.
Definition now_ : prog nanos := AskNow (fun t => mret t).
Definition config_ : prog (option string) := AskConfig (fun x => mret x).
Definition success {A} (x : guest_failure + A) : option A := match x with inl _ => None | inr a => Some a end.
Definition exec_ (cmd : list string) : prog (option GuestExecResult) := AskExec cmd (fun x => mret (success x)).
Definition input_ (cmd : list string) (input : bytes) : prog (option GuestExecResult) := AskInput cmd input (fun x => mret (success x)).
Definition alive (x : option context_end) : prog unit := match x with Some c => pfail (CompContext c) | None => mret tt end.
Definition context_ : prog unit := AskContext WholeContext alive.
Definition timer_ (d : nanos) : prog unit := AskTimer d alive.

(** The result as a value, error included. *)
Fixpoint ptry {A} (p : prog A) : prog (comp_error + A) :=
  match p with
  | Done r => Done (inr r)
  | AskConfig k => AskConfig (fun x => ptry (k x))
  | AskExec cmd k => AskExec cmd (fun x => ptry (k x))
  | AskInput cmd input k => AskInput cmd input (fun x => ptry (k x))
  | AskWrite path payload k => AskWrite path payload (fun x => ptry (k x))
  | AskNow k => AskNow (fun x => ptry (k x))
  | AskContext c k => AskContext c (fun x => ptry (k x))
  | AskRandom n k => AskRandom n (fun x => ptry (k x))
  | AskTimer d k => AskTimer d (fun x => ptry (k x))
  end.

(** [fmt.Errorf] with another sentinel. *)
Definition pcatch {A} (p : prog A) (e : comp_error) : prog A :=
  r ← ptry p; match r with inl _ => pfail e | inr a => mret a end.

(** A [for] loop: a round that returns nothing goes again. *)
Fixpoint loop {A} (rounds : nat) (body : prog (option A)) : prog A :=
  match rounds with
  | O => pfail CompStuck
  | S rounds' => r ← body; match r with Some a => mret a | None => loop rounds' body end
  end.

(** ** Running *)
Inductive exchange_event : Set :=
| EConfig (os : option string)
| EExec (cmd : list string) (res : guest_answer)
| EInput (cmd : list string) (input : bytes) (res : guest_answer)
| EWrite (path : string) (payload : bytes) (res : option guest_failure)
| ENow (t : nanos)
| EContext (c : context_name) (ended : option context_end)
| ERandom (r : option bytes)
| ETimer (d : nanos) (ended : option context_end).

Record environment (S : Type) := MkEnvironment {
  env_config : S -> option string * S;
  env_exec : list string -> S -> guest_answer * S;
  env_input : list string -> bytes -> S -> guest_answer * S;
  env_write : string -> bytes -> S -> option guest_failure * S;
  env_now : S -> nanos * S;
  env_context : context_name -> S -> option context_end * S;
  env_random : nat -> S -> option bytes * S;
  env_timer : nanos -> S -> option context_end * S
}.
Arguments MkEnvironment {S}.
Arguments env_config {S}.
Arguments env_exec {S}.
Arguments env_input {S}.
Arguments env_write {S}.
Arguments env_now {S}.
Arguments env_context {S}.
Arguments env_random {S}.
Arguments env_timer {S}.

Fixpoint run_prog {S A} (e : environment S) (p : prog A) (s : S) (tr : list exchange_event) : (comp_error + A) * S * list exchange_event :=
  match p with
  | Done r => (r, s, tr)
  | AskConfig k => let '(x, s') := env_config e s in run_prog e (k x) s' (tr ++ [EConfig x])
  | AskExec cmd k => let '(x, s') := env_exec e cmd s in run_prog e (k x) s' (tr ++ [EExec cmd x])
  | AskInput cmd i k => let '(x, s') := env_input e cmd i s in run_prog e (k x) s' (tr ++ [EInput cmd i x])
  | AskWrite path payload k => let '(x, s') := env_write e path payload s in run_prog e (k x) s' (tr ++ [EWrite path payload x])
  | AskNow k => let '(x, s') := env_now e s in run_prog e (k x) s' (tr ++ [ENow x])
  | AskContext c k => let '(x, s') := env_context e c s in run_prog e (k x) s' (tr ++ [EContext c x])
  | AskRandom n k => let '(x, s') := env_random e n s in run_prog e (k x) s' (tr ++ [ERandom x])
  | AskTimer d k => let '(x, s') := env_timer e d s in run_prog e (k x) s' (tr ++ [ETimer d x])
  end.

Fixpoint wp {A} (p : prog A) (tr : list exchange_event) (Q : comp_error + A -> list exchange_event -> Prop) : Prop :=
  match p with
  | Done r => Q r tr
  | AskConfig k => forall x, wp (k x) (tr ++ [EConfig x]) Q
  | AskExec cmd k => forall x, wp (k x) (tr ++ [EExec cmd x]) Q
  | AskInput cmd i k => forall x, wp (k x) (tr ++ [EInput cmd i x]) Q
  | AskWrite path payload k => forall x, wp (k x) (tr ++ [EWrite path payload x]) Q
  | AskNow k => forall x, wp (k x) (tr ++ [ENow x]) Q
  | AskContext c k => forall x, wp (k x) (tr ++ [EContext c x]) Q
  | AskRandom n k => forall x, wp (k x) (tr ++ [ERandom x]) Q
  | AskTimer d k => forall x, wp (k x) (tr ++ [ETimer d x]) Q
  end.

Lemma wp_sound {S A} (e : environment S) (p : prog A) s tr Q : wp p tr Q ->
  let '(r, _, tr') := run_prog e p s tr in Q r tr'.
Proof.
  revert s tr. induction p as [r | k IH | cmd k IH | cmd i k IH | path payload k IH | k IH | c k IH | n k IH | d k IH]; intros s tr Hw; simpl in *; [done | ..].
  - destruct (env_config e s). apply IH, Hw.
  - destruct (env_exec e cmd s). apply IH, Hw.
  - destruct (env_input e cmd i s). apply IH, Hw.
  - destruct (env_write e path payload s). apply IH, Hw.
  - destruct (env_now e s). apply IH, Hw.
  - destruct (env_context e c s). apply IH, Hw.
  - destruct (env_random e n s). apply IH, Hw.
  - destruct (env_timer e d s). apply IH, Hw.
Qed.

Lemma wp_mono {A} (p : prog A) tr (Q R : comp_error + A -> list exchange_event -> Prop) :
  (forall r tr', Q r tr' -> R r tr') -> wp p tr Q -> wp p tr R.
Proof. intros HQ. revert tr. induction p; simpl; intros tr Hw; auto. Qed.

Lemma wp_conj {A} (p : prog A) tr (Q R : comp_error + A -> list exchange_event -> Prop) :
  wp p tr Q -> wp p tr R -> wp p tr (fun r tr' => Q r tr' /\ R r tr').
Proof. revert tr. induction p; simpl; intros tr HQ HR; auto. Qed.

Lemma wp_bind {A B} (p : prog A) (f : A -> prog B) tr Q :
  wp (p ≫= f) tr Q <-> wp p tr (fun r tr' => match r with inl e => Q (inl e) tr' | inr a => wp (f a) tr' Q end).
Proof.
  revert tr. unfold mbind, prog_mbind. induction p as [[e | a] | k IH | cmd k IH | cmd i k IH | path payload k IH | k IH | c k IH | n k IH | d k IH]; simpl; intros tr;
    try done; split; intros Hw x; apply IH, Hw.
Qed.

Lemma wp_ptry {A} (p : prog A) tr Q : wp (ptry p) tr Q <-> wp p tr (fun r tr' => Q (inr r) tr').
Proof.
  revert tr. induction p as [r | k IH | cmd k IH | cmd i k IH | path payload k IH | k IH | c k IH | n k IH | d k IH]; simpl; intros tr; try done;
    split; intros Hw x; apply IH, Hw.
Qed.

Lemma wp_pensure ok e tr Q : wp (pensure ok e) tr Q <-> if ok then Q (inr tt) tr else Q (inl e) tr.
Proof. by destruct ok. Qed.
Lemma wp_psome {A} (o : option A) e tr Q : wp (psome o e) tr Q <-> match o with Some a => Q (inr a) tr | None => Q (inl e) tr end.
Proof. by destruct o. Qed.

(** The inputs written to the Guest. *)
Definition written (tr : list exchange_event) : list (list string * bytes * guest_answer) :=
  omap (fun e => match e with EInput cmd i r => Some (cmd, i, r) | _ => None end) tr.

Lemma written_app l l' : written (l ++ l') = written l ++ written l'.
Proof. unfold written. apply omap_app. Qed.

(** ** [MarshalGuestJSON] *)

(** The value of the rune at the head, by its width. *)
Definition rune_value (s : string) : Z :=
  match List.map ord (String.list_ascii_of_string s) with
  | [a] => a
  | [a; b] => (a - 0xC0) * 64 + (b - 0x80)
  | [a; b; c] => (a - 0xE0) * 4096 + (b - 0x80) * 64 + (c - 0x80)
  | [a; b; c; d] => (a - 0xF0) * 262144 + (b - 0x80) * 4096 + (c - 0x80) * 64 + (d - 0x80)
  | _ => 0xFFFD
  end.

Definition hex4 (n : Z) : string :=
  String (hex_digit (n / 4096 mod 16)) (String (hex_digit (n / 256 mod 16)) (String (hex_digit (n / 16 mod 16)) (String (hex_digit (n mod 16)) ""))).
Definition u_escape (n : Z) : string := String backslash (String "u" (hex4 n)).

Definition guest_rune (r : Z) : string :=
  if r <? 128 then byte_string [r]
  else if r <=? 0xffff then u_escape r
  else u_escape (0xD800 + (r - 0x10000) / 1024) +:+ u_escape (0xDC00 + (r - 0x10000) mod 1024).

Fixpoint guest_escape (fuel : nat) (s : string) : string :=
  match fuel, s with
  | S fuel', String _ s' =>
      match rune_width s with
      | Some w => guest_rune (rune_value (str_take w s)) +:+ guest_escape fuel' (String.substring w (String.length s - w) s)
      | None => guest_rune 0xFFFD +:+ guest_escape fuel' s'
      end
  | _, _ => ""
  end.

Definition MarshalGuestJSON (v : json) : option bytes :=
  let raw := json_print v in
  if 64 * 1024 <? slen raw then None else
  let result := guest_escape (String.length raw) raw in
  if 64 * 1024 <? slen result then None else Some result.
