(* ===== verification/GuestAccount.v ===== *)
(** * Accounts inside a Guest ([internal/computer])

    The durable fences that a Guest keeps for the account of an agent
    ([account_lease.go], [linux_account.go], [agent_session.go]) and for the
    credential of a person ([native_account.go]): their wire forms, and the
    programs that change them - one immutable write each, confirmed by an
    exact receipt and an independent observation. *)
From stdpp Require Import base strings list.
From Stdlib Require Import ZArith Lia Ascii.
From S2P Require Import Prelude GoStrings GuestIdentity Auth Db Json Triggers Computer Guest.

Local Open Scope string_scope.
Local Open Scope list_scope.
Local Open Scope Z_scope.

(** ** Data *)
Record AccountIdentity : Set := MkIdentity { IdUsername : string; IdUID : Z; IdSID : string }.

Record AccountLease : Set := MkAccountLease {
  LeaseSchemaVersion : Z;
  LeaseIdentity : AccountIdentity;
  LeaseLeaseID : string;
  LeaseControlEpoch : Z;
  LeaseLoginGeneration : Z;
  LeaseExpiresUnixSeconds : Z;
  LeasePhase : string
}.

Record NativeCredential : Set := MkNativeCredential {
  CredSchemaVersion : Z;
  CredIdentity : AccountIdentity;
  CredConnectionID : string;
  CredRevision : Z;
  CredExpiresUnixSeconds : Z;
  CredPhase : string
}.

#[export] Instance AccountIdentity_eq_dec : EqDecision AccountIdentity.
Proof. solve_decision. Defined.
#[export] Instance AccountLease_eq_dec : EqDecision AccountLease.
Proof. solve_decision. Defined.
#[export] Instance NativeCredential_eq_dec : EqDecision NativeCredential.
Proof. solve_decision. Defined.

Definition lease_phase (l : AccountLease) (phase : string) : AccountLease :=
  MkAccountLease (LeaseSchemaVersion l) (LeaseIdentity l) (LeaseLeaseID l) (LeaseControlEpoch l) (LeaseLoginGeneration l) (LeaseExpiresUnixSeconds l) phase.
Definition lease_expires (l : AccountLease) (seconds : Z) : AccountLease :=
  MkAccountLease (LeaseSchemaVersion l) (LeaseIdentity l) (LeaseLeaseID l) (LeaseControlEpoch l) (LeaseLoginGeneration l) seconds (LeasePhase l).
Definition cred_phase (c : NativeCredential) (phase : string) : NativeCredential :=
  MkNativeCredential (CredSchemaVersion c) (CredIdentity c) (CredConnectionID c) (CredRevision c) (CredExpiresUnixSeconds c) phase.

Definition validAgentUser (username : string) : bool := managedUser username && has_prefix "vca" username.
Definition validNativeUser (username : string) : bool := managedUser username && has_prefix "vcw" username.
Definition native_connection_re : string -> bool := match_class "conn_" is_url_char 8 128.

Definition bounded_expiry (seconds : Z) : bool := (0 <? seconds) && (seconds <? 0xffffffff).

(** [AccountLease.validFor] *)
Definition lease_valid (platform : string) (l : AccountLease) : bool :=
  if (LeaseSchemaVersion l != 1) || (LeaseLoginGeneration l <? 1) || negb (validAgentUser (IdUsername (LeaseIdentity l))) ||
     negb (ValidAccount platform (IdUID (LeaseIdentity l)) (IdSID (LeaseIdentity l))) ||
     negb (validAuthority (MkComputerAuthority 1 (LeaseLeaseID l) (LeaseControlEpoch l) "revoked" 0)) || (slen (LeaseLeaseID l) <? 7) then false
  else if LeasePhase l == "revoked" then LeaseExpiresUnixSeconds l =? 0
  else if oneOf (LeasePhase l) ["opening"; "open"; "sealing"; "sealed"] then bounded_expiry (LeaseExpiresUnixSeconds l)
  else false.

(** [NativeCredential.validFor] *)
Definition credential_valid (platform : string) (c : NativeCredential) : bool :=
  if (CredSchemaVersion c != 1) || (CredRevision c <? 1) || negb (native_connection_re (CredConnectionID c)) ||
     negb (validNativeUser (IdUsername (CredIdentity c))) || negb (ValidAccount platform (IdUID (CredIdentity c)) (IdSID (CredIdentity c))) then false
  else if CredPhase c == "revoked" then CredExpiresUnixSeconds c =? 0
  else if oneOf (CredPhase c) ["issuing"; "issued"; "retiring"; "retired"] then bounded_expiry (CredExpiresUnixSeconds c)
  else false.

(** ** Wire forms *)
Definition field {A} (fields : list string) (store : A -> json -> option A) (zero : A) (f : string) (l : list (string * json)) : option A :=
  decode_field store zero (field_values fields f l).

Definition identity_fields : list string := ["username"; "uid"; "sid"].
Definition zero_identity : AccountIdentity := MkIdentity "" 0 "".

(** All the decoders that read an identity disallow unknown fields. *)
Definition store_identity (old : AccountIdentity) (v : json) : option AccountIdentity :=
  match v with
  | JObj l =>
      if negb (known_fields identity_fields l) then None else
      username ← field identity_fields store_string (IdUsername old) "username" l;
      uid ← field identity_fields (store_uint (2 ^ 32 - 1)) (IdUID old) "uid" l;
      sid ← field identity_fields store_string (IdSID old) "sid" l;
      Some (MkIdentity username uid sid)
  | JNull => Some old
  | _ => None
  end.

Definition lease_fields : list string :=
  ["schema_version"; "identity"; "lease_id"; "control_epoch"; "login_generation"; "expires_unix_seconds"; "phase"].

Definition lease_of_json (platform : string) (v : json) : option AccountLease :=
  match v with
  | JObj l =>
      if negb (known_fields lease_fields l) then None else
      let int f := field lease_fields store_int64 0 f l in
      let text f := field lease_fields store_string "" f l in
      version ← int "schema_version"; identity ← field lease_fields store_identity zero_identity "identity" l;
      lease ← text "lease_id"; epoch ← int "control_epoch"; generation ← int "login_generation";
      expires ← int "expires_unix_seconds"; phase ← text "phase";
      let value := MkAccountLease version identity lease epoch generation expires phase in
      if lease_valid platform value then Some value else None
  | _ => None
  end.

Definition bounded (raw : string) : bool := negb ((raw == "") || (4096 <? slen raw)).

Definition parseAccountLease (raw platform : string) : option AccountLease :=
  if bounded raw then json_document raw ≫= lease_of_json platform else None.

Definition credential_fields : list string :=
  ["schema_version"; "identity"; "connection_id"; "revision"; "expires_unix_seconds"; "phase"].

Definition credential_of_json (platform : string) (v : json) : option NativeCredential :=
  match v with
  | JObj l =>
      if negb (known_fields credential_fields l) then None else
      let int f := field credential_fields store_int64 0 f l in
      let text f := field credential_fields store_string "" f l in
      version ← int "schema_version"; identity ← field credential_fields store_identity zero_identity "identity" l;
      connection ← text "connection_id"; revision ← int "revision"; expires ← int "expires_unix_seconds"; phase ← text "phase";
      let value := MkNativeCredential version identity connection revision expires phase in
      if credential_valid platform value then Some value else None
  | _ => None
  end.

Definition parseNativeCredential (raw platform : string) : option NativeCredential :=
  if bounded raw then json_document raw ≫= credential_of_json platform else None.

(** The [account] member of an observation. *)
Record AccountState : Set := MkAccountState { as_exists : option bool; as_disabled : option bool; as_expiry_day : option json }.
Definition account_fields : list string := ["exists"; "disabled"; "expiry_day"].

Definition store_account (old : AccountState) (v : json) : option AccountState :=
  match v with
  | JObj l =>
      if negb (known_fields account_fields l) then None else
      exists_ ← field account_fields (store_ptr store_bool false) (as_exists old) "exists" l;
      disabled ← field account_fields (store_ptr store_bool false) (as_disabled old) "disabled" l;
      expiry ← field account_fields store_raw (as_expiry_day old) "expiry_day" l;
      Some (MkAccountState exists_ disabled expiry)
  | JNull => Some old
  | _ => None
  end.

Definition unmarshal_day (v : json) : option (option Z) := store_ptr (store_uint (2 ^ 64 - 1)) 0 None v.
Definition unmarshal_bool (v : json) : option (option bool) := store_ptr store_bool false None v.

Record NativeAccountObservation : Set := MkNativeObservation {
  NoIdentity : AccountIdentity;
  NoExists : bool;
  NoDisabled : bool;
  NoExpiryDay : option Z;
  NoProcessesAbsent : bool;
  NoLoginWritersAbsent : option bool;
  NoLifecycle : option NativeCredential
}.

Definition native_fields : list string :=
  ["schema_version"; "identity"; "account"; "processes_absent"; "login_writers_absent"; "lifecycle"].

Definition parseNativeAccountObservation (raw username : string) : option NativeAccountObservation :=
  if negb (bounded raw) || negb (validNativeUser username) then None else
  match json_document raw with
  | Some (JObj l) =>
      if negb (known_fields native_fields l) then None else
      version ← field native_fields store_int64 0 "schema_version" l;
      identity ← field native_fields store_identity zero_identity "identity" l;
      account ← field native_fields (store_ptr store_account (MkAccountState None None None)) None "account" l;
      processes ← field native_fields (store_ptr store_bool false) None "processes_absent" l;
      writers ← field native_fields store_raw None "login_writers_absent" l;
      lifecycle ← field native_fields store_raw None "lifecycle" l;
      if (version != 1) || (IdUsername identity != username) || negb (ValidAccount "linux" (IdUID identity) (IdSID identity)) then None else
      account ← account; exists_ ← as_exists account; disabled ← as_disabled account; day ← as_expiry_day account;
      processes ← processes; writers ← writers; lifecycle ← lifecycle;
      day ← unmarshal_day day;
      writers ← unmarshal_bool writers;
      life ← match lifecycle with
             | JNull => Some None
             | v => c ← credential_of_json "linux" v; if CredIdentity c == identity then Some (Some c) else None
             end;
      if negb exists_ && (negb disabled || (day != None)) then None
      else Some (MkNativeObservation identity exists_ disabled day processes writers life)
  | _ => None
  end.

Definition native_matches (o : NativeAccountObservation) (intent : NativeCredential) (phase : string) : bool :=
  (NoIdentity o == CredIdentity intent) && (NoLifecycle o == Some (cred_phase intent phase)).

Definition native_closed (o : NativeAccountObservation) : bool :=
  NoDisabled o && NoProcessesAbsent o && (NoLoginWritersAbsent o == Some true).

(** The expiry day is the first one that begins after the expiry. *)
Definition native_retained (now : nanos) (o : NativeAccountObservation) : bool :=
  NoExists o && negb (NoDisabled o) &&
  match NoLifecycle o with
  | None => false
  | Some c =>
      oneOf (CredPhase c) ["issued"; "retired"] && (Unix now <? CredExpiresUnixSeconds c) &&
      (NoExpiryDay o == Some ((CredExpiresUnixSeconds c + 86399) / 86400))
  end.

Record LinuxAccountObservation : Set := MkLinuxObservation {
  LoIdentity : option AccountIdentity;
  LoExists : bool;
  LoDisabled : bool;
  LoExpiryDay : option Z;
  LoProcessesAbsent : option bool;
  LoLoginWritersAbsent : option bool;
  LoLifecycle : option AccountLease
}.

Definition linux_fields : list string :=
  ["schema_version"; "username"; "identity"; "account"; "processes_absent"; "login_writers_absent"; "lifecycle"].

Definition linux_consistent (username : string) (o : LinuxAccountObservation) : bool :=
  match LoIdentity o with
  | None =>
      negb (LoExists o) && LoDisabled o && (LoExpiryDay o == None) && (LoProcessesAbsent o == None) && (LoLoginWritersAbsent o == None) &&
      (LoLifecycle o == None)
  | Some id =>
      (IdUsername id == username) && ValidAccount "linux" (IdUID id) (IdSID id) && (LoProcessesAbsent o != None) && (LoLoginWritersAbsent o != None) &&
      (match LoLifecycle o with Some l => LeaseIdentity l == id | None => true end) &&
      negb (negb (LoExists o) && (negb (LoDisabled o) || (LoExpiryDay o != None)))
  end.

Definition parseLinuxAccountObservation (raw username : string) : option LinuxAccountObservation :=
  if negb (bounded raw) then None else
  match json_document raw with
  | Some (JObj l) =>
      if negb (known_fields linux_fields l) then None else
      version ← field linux_fields store_int64 0 "schema_version" l;
      name ← field linux_fields store_string "" "username" l;
      identity ← field linux_fields store_raw None "identity" l;
      account ← field linux_fields (store_ptr store_account (MkAccountState None None None)) None "account" l;
      processes ← field linux_fields store_raw None "processes_absent" l;
      writers ← field linux_fields store_raw None "login_writers_absent" l;
      lifecycle ← field linux_fields store_raw None "lifecycle" l;
      if (version != 1) || (name != username) then None else
      account ← account; exists_ ← as_exists account; disabled ← as_disabled account; identity ← identity;
      day ← as_expiry_day account; processes ← processes; writers ← writers; lifecycle ← lifecycle;
      identity ← store_ptr store_identity zero_identity None identity;
      day ← unmarshal_day day;
      processes ← unmarshal_bool processes;
      writers ← unmarshal_bool writers;
      life ← match lifecycle with JNull => Some None | v => c ← lease_of_json "linux" v; Some (Some c) end;
      let value := MkLinuxObservation identity exists_ disabled day processes writers life in
      if linux_consistent username value then Some value else None
  | _ => None
  end.

Definition linux_login_stopped (o : LinuxAccountObservation) : bool :=
  (LoIdentity o != None) && LoDisabled o && (LoProcessesAbsent o == Some true) && (LoLoginWritersAbsent o == Some true) &&
  match LoLifecycle o with Some l => LeasePhase l == "revoked" | None => false end.

Definition linux_matches (o : LinuxAccountObservation) (lease : AccountLease) (phase : string) : bool :=
  (LoIdentity o == Some (LeaseIdentity lease)) && (LoLifecycle o == Some (lease_phase lease phase)).
