(* ===== verification/GuestSession.v ===== *)
(** * Programs over the Guest channel ([session.go], [linux_account.go],
      [native_account.go], [agent_session.go])

    Every function of the executor as a program of [Guest.v], its questions in
    the order of the code.  [has_input] is whether the channel can take an
    input; the clearing of byte slices has no counterpart. *)
From stdpp Require Import base strings list.
From Stdlib Require Import ZArith Lia Ascii.
From S2P Require Import Prelude GoStrings GuestIdentity Auth Db Json Triggers Computer Guest GuestAccount.

Local Open Scope string_scope.
Local Open Scope list_scope.
Local Open Scope Z_scope.

Definition SessionSchemaVersion : Z := 2.
Definition sessionBinary : string := "/usr/local/sbin/vc-workspace-guest-agent".
Definition authorityTransport : string := "stdin_epoch_account_v2".
Definition accountFenceTransport : string := "lease_epoch_login_generation_v1".
Definition loginBirthFence : string := "pam_logind_jobs_v3".
Definition nativeAccountFence : string := "credential_revision_v1".
Definition nativeLoginBirthFence : string := "pam_logind_native_v1".

Record SessionTarget : Set := MkTarget {
  TargetUsername : string;
  TargetUID : Z;
  TargetSID : string;
  TargetSessionID : string;
  TargetInstanceID : string
}.

Definition target_valid (t : SessionTarget) : bool :=
  ValidSession (if TargetSID t == "" then "linux" else "windows") (TargetUsername t) (TargetUID t) (TargetSID t) (TargetSessionID t) (TargetInstanceID t).

(** ** The transport *)
Definition requireLinuxSession : prog unit :=
  os ← config_;
  pensure (os == Some "l26") CompUnavailable.

Definition session_argv (operation : string) (options : list string) : list string :=
  [sessionBinary; "computer-v2-" +:+ operation] ++ options.

(** The error keeps the text of a transport failure, not what it wraps. *)
Definition session_answer (operation : string) (x : guest_answer) : guest_failure + GuestExecResult :=
  match x with
  | inl f => inl (MkFailure None ("computer helper unavailable: session transport: " +:+ FailMessage f))
  | inr res =>
      if ExitCode res =? 0 then inr res
      else inl (MkFailure None ("computer helper unavailable: session " +:+ operation +:+ " failed with exit code " +:+ itoa (ExitCode res)))
  end.

Definition session_exec (operation : string) (options : list string) : prog (guest_failure + GuestExecResult) :=
  AskExec (session_argv operation options) (fun x => mret (session_answer operation x)).

Definition sessionCommand (operation : string) (options : list string) : prog GuestExecResult :=
  r ← session_exec operation options;
  psome (success r) CompUnavailable.

(** [json.Unmarshal] of a small answer: text members by name. *)
Definition unmarshal_small (fields : list string) (raw : string) : option (list (string * json)) :=
  if 4096 <? slen raw then None else
  match json_document raw with Some (JObj l) => Some l | _ => None end.

Definition text_is (fields : list string) (f value : string) (l : list (string * json)) : bool :=
  field fields store_string "" f l == Some value.
Definition text_decodes (fields : list string) (f : string) (l : list (string * json)) : bool :=
  bool_decide (field fields store_string "" f l <> None).
Definition version_is (fields : list string) (version : Z) (l : list (string * json)) : bool :=
  field fields store_int64 0 "schema_version" l == Some version.

(** One guarded input: the result of a command that must exit with zero. *)
Definition guest_input (cmd : list string) (input : bytes) : prog GuestExecResult :=
  res ← input_ cmd input;
  res ← psome res CompUnavailable;
  pensure (ExitCode res =? 0) CompUnavailable;;
  mret res.

(** ** Discovery and authority *)
Definition InitializeSessionTransport (username : string) : prog unit :=
  pensure (managedUser username) CompInvalid;;
  requireLinuxSession;;
  sessionCommand "init" ["--guest-user"; username];;
  mret tt.

Definition target_fields : list string := ["username"; "uid"; "sid"; "session_id"; "instance_id"].
Definition store_target (old : SessionTarget) (v : json) : option SessionTarget :=
  match v with
  | JObj l =>
      username ← field target_fields store_string (TargetUsername old) "username" l;
      uid ← field target_fields (store_uint (2 ^ 32 - 1)) (TargetUID old) "uid" l;
      sid ← field target_fields store_string (TargetSID old) "sid" l;
      session ← field target_fields store_string (TargetSessionID old) "session_id" l;
      instance ← field target_fields store_string (TargetInstanceID old) "instance_id" l;
      Some (MkTarget username uid sid session instance)
  | JNull => Some old
  | _ => None
  end.

Definition session_fields : list string := ["schema_version"; "target"; "authority_transport"].

Definition parse_session (username raw : string) : option SessionTarget :=
  l ← unmarshal_small session_fields raw;
  target ← field session_fields store_target (MkTarget "" 0 "" "" "") "target" l;
  if negb (version_is session_fields SessionSchemaVersion l) || negb (text_is session_fields "authority_transport" authorityTransport l) ||
     (TargetUsername target != username) || negb (target_valid target) || (TargetSID target != "") then None
  else Some target.

Definition DiscoverSession (username : string) : prog SessionTarget :=
  pensure (managedUser username) CompInvalid;;
  requireLinuxSession;;
  result ← sessionCommand "session" ["--guest-user"; username];
  psome (parse_session username (Stdout result)) CompUnavailable.

Definition capability_fields : list string :=
  ["schema_version"; "authority_transport"; "experimental_account_fence"; "login_birth_fence"; "native_account_fence"; "native_login_birth_fence"].

Definition identity_json (i : AccountIdentity) : json :=
  JObj [("username", JStr (json_text (IdUsername i))); ("uid", JNum (itoa (IdUID i))); ("sid", JStr (json_text (IdSID i)))].

Definition target_json (t : SessionTarget) : json :=
  JObj ([("username", JStr (json_text (TargetUsername t))); ("uid", JNum (itoa (TargetUID t)))] ++
    (if TargetSID t == "" then [] else [("sid", JStr (json_text (TargetSID t)))]) ++
    [("session_id", JStr (json_text (TargetSessionID t))); ("instance_id", JStr (json_text (TargetInstanceID t)))]).

Definition authority_json (target : option SessionTarget) (a : ComputerAuthority) : json :=
  JObj [("schema_version", JNum (itoa SessionSchemaVersion));
    ("target", match target with Some t => target_json t | None => JNull end);
    ("authority", JObj [("schema_version", JNum (itoa (AuthSchemaVersion a))); ("lease_id", JStr (json_text (AuthLeaseID a)));
      ("control_epoch", JNum (itoa (AuthControlEpoch a))); ("state", JStr (json_text (AuthState a)));
      ("expires_unix_ms", JNum (itoa (AuthExpiresUnixMS a)))])].

Definition with_state (a : ComputerAuthority) (state : string) (expires : Z) : ComputerAuthority :=
  MkComputerAuthority (AuthSchemaVersion a) (AuthLeaseID a) (AuthControlEpoch a) state expires.

Definition writeSessionAuthority (has_input : bool) (target : option SessionTarget) (a : ComputerAuthority) : prog unit :=
  requireLinuxSession;;
  pensure has_input CompUnavailable;;
  capability ← sessionCommand "capabilities" [];
  l ← psome (unmarshal_small capability_fields (Stdout capability)) CompUnavailable;
  pensure (version_is capability_fields SessionSchemaVersion l && text_is capability_fields "authority_transport" authorityTransport l) CompUnavailable;;
  encoded ← psome (MarshalGuestJSON (authority_json target a)) CompRejected;
  guest_input [sessionBinary; "computer-v2-authority"] encoded;;
  mret tt.

Definition ActivateSessionAuthority (has_input : bool) (target : SessionTarget) (a : ComputerAuthority) : prog unit :=
  let a := with_state a "active" (AuthExpiresUnixMS a) in
  pensure (target_valid target && (TargetSID target == "") && validAuthority a) CompInvalid;;
  now ← now_;
  pensure (UnixMilli now <? AuthExpiresUnixMS a) CompInvalid;;
  writeSessionAuthority has_input (Some target) a.

Definition RevokeSessionAuthority (has_input : bool) (a : ComputerAuthority) : prog unit :=
  let a := with_state a "revoked" 0 in
  pensure (validAuthority a) CompInvalid;;
  writeSessionAuthority has_input None a.

(** ** Passwords *)
Definition password_ok (issue : bool) (password : bytes) : bool :=
  if issue then
    negb ((slen password <? 24) || (256 <? slen password)) && str_forall (fun b => negb ((ord b <? 33) || (126 <? ord b))) password
  else slen password =? 0.

Definition password_member (password : bytes) : list (string * json) :=
  if password == "" then [] else [("password", JStr (json_text password))].

(** A deadline in the future, at most eight hours ahead; the code reads the
    clock for each comparison. *)
Definition fresh_expiry (expires : Z) : prog unit :=
  t1 ← now_;
  pensure (Unix t1 <? expires) CompInvalid;;
  t2 ← now_;
  pensure (negb (Unix t2 + 28800 <? expires)) CompInvalid.

(** ** The account of an agent *)
Definition requireAccountFence : prog unit :=
  requireLinuxSession;;
  result ← sessionCommand "capabilities" [];
  l ← psome (unmarshal_small capability_fields (Stdout result)) CompUnavailable;
  pensure (version_is capability_fields 2 l && text_is capability_fields "experimental_account_fence" accountFenceTransport l &&
           text_is capability_fields "login_birth_fence" loginBirthFence l) CompUnavailable.

Definition InspectAgentAccount (username : string) : prog LinuxAccountObservation :=
  pensure (validAgentUser username) CompInvalid;;
  requireAccountFence;;
  result ← sessionCommand "account-inspect" ["--guest-user"; username];
  psome (parseLinuxAccountObservation (Stdout result) username) CompUnavailable.

Definition lease_json (l : AccountLease) (operation : string) (password : bytes) : json :=
  JObj ([("schema_version", JNum (itoa 1)); ("identity", identity_json (LeaseIdentity l)); ("lease_id", JStr (json_text (LeaseLeaseID l)));
    ("control_epoch", JNum (itoa (LeaseControlEpoch l))); ("login_generation", JNum (itoa (LeaseLoginGeneration l)));
    ("expires_unix_seconds", JNum (itoa (LeaseExpiresUnixSeconds l))); ("operation", JStr operation)] ++ password_member password).

Definition changeLinuxAccount (has_input : bool) (desired : AccountLease) (login : bool) (password : bytes) : prog AccountLease :=
  let operation := if login then "open" else "revoke" in
  let command := if login then "account-login" else "account-lease" in
  let phase := if login then "sealed" else "revoked" in
  pensure (LeasePhase desired == "") CompInvalid;;
  let desired := lease_phase desired phase in
  pensure (lease_valid "linux" desired) CompInvalid;;
  (if login then fresh_expiry (LeaseExpiresUnixSeconds desired) else mret tt);;
  pensure (password_ok login password) CompInvalid;;
  input ← psome (MarshalGuestJSON (lease_json desired operation password)) CompInvalid;
  requireAccountFence;;
  pensure has_input CompUnavailable;;
  context_;;
  result ← guest_input
    [sessionBinary; "computer-v2-" +:+ command; "--guest-user"; IdUsername (LeaseIdentity desired)] input;
  receipt ← psome (parseAccountLease (Stdout result) "linux") CompUnavailable;
  pensure (receipt == desired) CompUnavailable;;
  context_;;
  mret receipt.

Definition PrepareAgentAccount (username : string) : prog AccountIdentity :=
  pensure (validAgentUser username) CompInvalid;;
  requireAccountFence;;
  sessionCommand "account-provision" ["--guest-user"; username];;
  value ← InspectAgentAccount username;
  match LoIdentity value with
  | Some identity => pensure (LoExists value) CompUnavailable;; mret identity
  | None => pfail CompUnavailable
  end.

(** One round of the wait for a session. *)
Definition poll_round (lease : AccountLease) (deadline : nanos) : prog (option SessionTarget) :=
  found ← ptry (DiscoverSession (IdUsername (LeaseIdentity lease)));
  match found with
  | inr target =>
      pensure (negb ((TargetUID target != IdUID (LeaseIdentity lease)) || (TargetSID target != IdSID (LeaseIdentity lease)))) CompUnavailable;;
      mret (Some target)
  | inl _ =>
      now ← now_;
      pensure (now <? deadline) CompUnavailable;;
      timer_ (250 * millisecond);;
      mret None
  end.

(** Twenty seconds are at most eighty waits. *)
Definition poll_rounds : nat := 81.

Definition StartAgentSession (has_input : bool) (lease : AccountLease) : prog SessionTarget :=
  random ← AskRandom 24 (fun r => psome r CompRejected);
  let password := "Vcw1!" +:+ OpaqueToken random in
  changeLinuxAccount has_input lease true password;;
  now ← now_;
  loop poll_rounds (poll_round lease (now + 20 * second)).

Definition StopAgentSession (has_input : bool) (lease : AccountLease) : prog unit :=
  let lease := lease_expires lease 0 in
  changeLinuxAccount has_input lease false "";;
  value ← InspectAgentAccount (IdUsername (LeaseIdentity lease));
  pensure (linux_matches value lease "revoked" && linux_login_stopped value) CompUnavailable.

(** ** The credential of a person *)
Definition nativeAccountProtocol (login : bool) : prog unit :=
  requireLinuxSession;;
  result ← sessionCommand "capabilities" [];
  l ← psome (unmarshal_small capability_fields (Stdout result)) CompUnavailable;
  pensure (version_is capability_fields 2 l && text_is capability_fields "native_account_fence" nativeAccountFence l &&
           text_decodes capability_fields "native_login_birth_fence" l && text_decodes capability_fields "login_birth_fence" l &&
           (negb login || (text_is capability_fields "native_login_birth_fence" nativeLoginBirthFence l &&
                           text_is capability_fields "login_birth_fence" loginBirthFence l))) CompUnavailable.

Definition CheckNativeAccountSupport : prog unit := nativeAccountProtocol true.

Definition InspectNativeAccount (username : string) : prog NativeAccountObservation :=
  pensure (validNativeUser username) CompInvalid;;
  nativeAccountProtocol false;;
  result ← sessionCommand "native-account-inspect" ["--guest-user"; username];
  psome (parseNativeAccountObservation (Stdout result) username) CompUnavailable.

Definition PrepareNativeAccount (username : string) : prog AccountIdentity :=
  pensure (validNativeUser username) CompInvalid;;
  CheckNativeAccountSupport;;
  sessionCommand "native-account-provision" ["--guest-user"; username];;
  observed ← pcatch (InspectNativeAccount username) CompUnavailable;
  pensure (NoExists observed) CompUnavailable;;
  mret (NoIdentity observed).

Definition credential_json (c : NativeCredential) (operation : string) (password : bytes) : json :=
  JObj ([("schema_version", JNum (itoa 1)); ("identity", identity_json (CredIdentity c)); ("connection_id", JStr (json_text (CredConnectionID c)));
    ("revision", JNum (itoa (CredRevision c))); ("expires_unix_seconds", JNum (itoa (CredExpiresUnixSeconds c)));
    ("operation", JStr operation)] ++ password_member password).

Definition native_phase (operation : string) : option string :=
  if operation == "issue" then Some "issued" else if operation == "retire" then Some "retired"
  else if operation == "revoke" then Some "revoked" else None.

Definition ChangeNativeCredential (has_input : bool) (desired : NativeCredential) (operation : string) (password : bytes) : prog unit :=
  phase ← psome (native_phase operation) CompInvalid;
  pensure (CredPhase desired == "") CompInvalid;;
  let desired := cred_phase desired phase in
  pensure (credential_valid "linux" desired) CompInvalid;;
  (if operation == "revoke" then mret tt else fresh_expiry (CredExpiresUnixSeconds desired));;
  pensure (password_ok (operation == "issue") password) CompInvalid;;
  nativeAccountProtocol (operation != "revoke");;
  pensure has_input CompUnavailable;;
  input ← psome (MarshalGuestJSON (credential_json desired operation password)) CompInvalid;
  pensure (negb (4096 <? slen input)) CompInvalid;;
  context_;;
  result ← guest_input
    [sessionBinary; "computer-v2-native-account-credential"; "--guest-user"; IdUsername (CredIdentity desired)] input;
  receipt ← psome (parseNativeCredential (Stdout result) "linux") CompUnavailable;
  pensure (receipt == desired) CompUnavailable;;
  observed ← pcatch (InspectNativeAccount (IdUsername (CredIdentity desired))) CompUnavailable;
  pensure (native_matches observed desired phase) CompUnavailable;;
  (if operation == "revoke" then pensure (native_closed observed) CompUnavailable
   else now ← now_; pensure (native_retained now observed) CompUnavailable);;
  context_.
