(* ===== verification/ComputerWire.v ===== *)
(** * Actions and answers on the wire ([internal/computer/protocol.go])

    The JSON of a request as [json.Marshal] writes it, the response as
    [json.Unmarshal] reads it, member by member, and which responses belong to
    which request ([validWindowsActionResponse]). *)
From stdpp Require Import base strings list.
From Stdlib Require Import ZArith Lia Ascii.
From S2P Require Import Prelude GoStrings GuestIdentity Auth Db Json Triggers Computer Guest GuestAccount GuestSession.

Local Open Scope string_scope.
Local Open Scope list_scope.
Local Open Scope Z_scope.

(** ** Writing *)
Definition text_member (name v : string) : list (string * json) := [(name, JStr (json_text v))].
Definition int_member (name : string) (v : Z) : list (string * json) := [(name, JNum (itoa v))].

(** [omitempty] *)
Definition nonempty_text (name v : string) : list (string * json) := if v == "" then [] else text_member name v.
Definition nonzero_int (name : string) (v : Z) : list (string * json) := if v =? 0 then [] else int_member name v.
Definition true_member (name : string) (v : bool) : list (string * json) := if v then [(name, JBool true)] else [].
Definition present_member {A} (name : string) (f : A -> json) (v : option A) : list (string * json) :=
  match v with Some a => [(name, f a)] | None => [] end.

Definition screenshot_json (s : Screenshot) : json := JObj (nonzero_int "max_width" (MaxWidth s)).
Definition accessibility_json (a : Accessibility) : json := JObj (nonzero_int "max_depth" (MaxDepth a) ++ nonzero_int "max_nodes" (MaxNodes a)).
Definition mouse_json (m : Mouse) : json :=
  JObj (text_member "action" (MouseAction m) ++ nonzero_int "x" (MouseX m) ++ nonzero_int "y" (MouseY m) ++
        nonempty_text "button" (Button m) ++ nonzero_int "delta_x" (DeltaX m) ++ nonzero_int "delta_y" (DeltaY m)).
Definition key_json (k : Key) : json :=
  JObj (text_member "key" (KeyName k) ++
        match Modifiers k with [] => [] | l => [("modifiers", JArr (List.map (fun m => JStr (json_text m)) l))] end).
Definition text_json (t : Text) : json := JObj (text_member "value" (TextValue t) ++ true_member "sensitive" (Sensitive t)).

Definition request_json (r : ActionRequest) : json :=
  JObj (int_member "schema_version" (ReqSchemaVersion r) ++ text_member "request_id" (RequestID r) ++ text_member "lease_id" (LeaseID r) ++
    int_member "control_epoch" (ControlEpoch r) ++ int_member "expires_unix_ms" (ExpiresUnixMS r) ++ text_member "operation" (ReqOperation r) ++
    present_member "screenshot" screenshot_json (ReqScreenshot r) ++ present_member "accessibility" accessibility_json (ReqAccessibility r) ++
    present_member "mouse" mouse_json (ReqMouse r) ++ present_member "key" key_json (ReqKey r) ++ present_member "text" text_json (ReqText r)).

Definition bound_action_json (target : SessionTarget) (timeout_ms : Z) (r : ActionRequest) : json :=
  JObj (int_member "schema_version" SessionSchemaVersion ++ [("target", target_json target)] ++ int_member "timeout_ms" timeout_ms ++
        [("request", request_json r)]).

Definition authority_object (a : ComputerAuthority) : json :=
  JObj [("schema_version", JNum (itoa (AuthSchemaVersion a))); ("lease_id", JStr (json_text (AuthLeaseID a)));
    ("control_epoch", JNum (itoa (AuthControlEpoch a))); ("state", JStr (json_text (AuthState a)));
    ("expires_unix_ms", JNum (itoa (AuthExpiresUnixMS a)))].

(** ** Reading *)
Record DesktopBounds : Set := MkBounds { BoundsX : Z; BoundsY : Z; BoundsWidth : Z; BoundsHeight : Z }.
Record ScreenshotResult : Set := MkScreenshotResult {
  ContentType : string; Data : string; ImageWidth : Z; ImageHeight : Z; SHA256Text : string; Bounds : option DesktopBounds }.
Record AccessibilityNode : Set := MkNode {
  NodeID : string; ParentID : string; NodeRole : string; NodeName : string; NodeValue : string;
  NodeX : Z; NodeY : Z; NodeWidth : Z; NodeHeight : Z; Focused : bool; NodeEnabled : bool }.
Record AccessibilityResult : Set := MkAccessibilityResult { Source : string; Truncated : bool; Nodes : list AccessibilityNode }.

Record Response : Set := MkResponse {
  RespSchemaVersion : Z;
  RespRequestID : string;
  RespOK : bool;
  RespError : string;
  RespScreenshot : option ScreenshotResult;
  RespAccessibility : option AccessibilityResult;
  RespInput : option bool;                        (* InputResult.Applied *)
  RespMetadata : list (string * json)
}.

(** A struct: null leaves it alone, an object stores what it names; members
    without a field are ignored. *)
Definition store_struct {A} (store : A -> list (string * json) -> option A) (old : A) (v : json) : option A :=
  match v with JObj l => store old l | JNull => Some old | _ => None end.

(** A slice: the elements an earlier occurrence left are stored into again. *)
Fixpoint store_elements {A} (store : A -> json -> option A) (zero : A) (old : list A) (l : list json) : option (list A) :=
  match l with
  | [] => Some []
  | v :: l' => a ← store (default zero (head old)) v; rest ← store_elements store zero (tail old) l'; Some (a :: rest)
  end.
Definition store_slice {A} (store : A -> json -> option A) (zero : A) (old : list A) (v : json) : option (list A) :=
  match v with JArr l => store_elements store zero old l | JNull => Some [] | _ => None end.

(** [map[string]json.RawMessage] *)
Definition store_raw_map (old : list (string * json)) (v : json) : option (list (string * json)) :=
  match v with JObj l => Some (old ++ l) | JNull => Some [] | _ => None end.

Definition bounds_fields : list string := ["x"; "y"; "width"; "height"].
Definition zero_bounds : DesktopBounds := MkBounds 0 0 0 0.
Definition store_bounds : DesktopBounds -> json -> option DesktopBounds := store_struct (fun old l =>
  let int f zero := field bounds_fields store_int64 zero f l in
  x ← int "x" (BoundsX old); y ← int "y" (BoundsY old); w ← int "width" (BoundsWidth old); h ← int "height" (BoundsHeight old);
  Some (MkBounds x y w h)).

Definition shot_fields : list string := ["content_type"; "data"; "width"; "height"; "sha256"; "desktop_bounds"].
Definition zero_shot : ScreenshotResult := MkScreenshotResult "" "" 0 0 "" None.
Definition store_shot : ScreenshotResult -> json -> option ScreenshotResult := store_struct (fun old l =>
  let text f zero := field shot_fields store_string zero f l in
  let int f zero := field shot_fields store_int64 zero f l in
  c ← text "content_type" (ContentType old); d ← text "data" (Data old); w ← int "width" (ImageWidth old); h ← int "height" (ImageHeight old);
  s ← text "sha256" (SHA256Text old); b ← field shot_fields (store_ptr store_bounds zero_bounds) (Bounds old) "desktop_bounds" l;
  Some (MkScreenshotResult c d w h s b)).

Definition node_fields : list string :=
  ["id"; "parent_id"; "role"; "name"; "value"; "x"; "y"; "width"; "height"; "focused"; "enabled"].
Definition zero_node : AccessibilityNode := MkNode "" "" "" "" "" 0 0 0 0 false false.
Definition store_node : AccessibilityNode -> json -> option AccessibilityNode := store_struct (fun old l =>
  let text f zero := field node_fields store_string zero f l in
  let int f zero := field node_fields store_int64 zero f l in
  let flag f zero := field node_fields store_bool zero f l in
  id ← text "id" (NodeID old); parent ← text "parent_id" (ParentID old); role ← text "role" (NodeRole old); name ← text "name" (NodeName old);
  value ← text "value" (NodeValue old); x ← int "x" (NodeX old); y ← int "y" (NodeY old); w ← int "width" (NodeWidth old);
  h ← int "height" (NodeHeight old); focused ← flag "focused" (Focused old); enabled ← flag "enabled" (NodeEnabled old);
  Some (MkNode id parent role name value x y w h focused enabled)).

Definition tree_fields : list string := ["source"; "truncated"; "nodes"].
Definition zero_tree : AccessibilityResult := MkAccessibilityResult "" false [].
Definition store_tree : AccessibilityResult -> json -> option AccessibilityResult := store_struct (fun old l =>
  s ← field tree_fields store_string (Source old) "source" l; t ← field tree_fields store_bool (Truncated old) "truncated" l;
  n ← field tree_fields (store_slice store_node zero_node) (Nodes old) "nodes" l; Some (MkAccessibilityResult s t n)).

Definition store_applied : bool -> json -> option bool := store_struct (fun old l => field ["applied"] store_bool old "applied" l).

Definition response_fields : list string :=
  ["schema_version"; "request_id"; "ok"; "error"; "screenshot"; "accessibility"; "input"; "metadata"].
Definition zero_response : Response := MkResponse 0 "" false "" None None None [].
Definition store_response : Response -> json -> option Response := store_struct (fun old l =>
  v ← field response_fields store_int64 (RespSchemaVersion old) "schema_version" l;
  id ← field response_fields store_string (RespRequestID old) "request_id" l;
  ok ← field response_fields store_bool (RespOK old) "ok" l;
  e ← field response_fields store_string (RespError old) "error" l;
  shot ← field response_fields (store_ptr store_shot zero_shot) (RespScreenshot old) "screenshot" l;
  tree ← field response_fields (store_ptr store_tree zero_tree) (RespAccessibility old) "accessibility" l;
  input ← field response_fields (store_ptr store_applied false) (RespInput old) "input" l;
  meta ← field response_fields store_raw_map (RespMetadata old) "metadata" l;
  Some (MkResponse v id ok e shot tree input meta)).

Definition response_of_text (raw : string) : option Response := json_document raw ≫= store_response zero_response.

(** Sixteen mebibytes and the identity of the request. *)
Definition parse_response (request : ActionRequest) (raw : string) : option Response :=
  if 16 * 1024 * 1024 <? slen raw then None else
  r ← response_of_text raw;
  if (RespSchemaVersion r != SchemaVersion) || (RespRequestID r != RequestID request) then None else Some r.

Definition missing {A} (o : option A) : bool := match o with None => true | Some _ => false end.

Definition validWindowsActionResponse (request : ActionRequest) (r : Response) : bool :=
  if (RespSchemaVersion r != SchemaVersion) || (RespRequestID r != RequestID request) || negb (RespOK r) || (RespError r != "") then false
  else if ReqOperation request == OperationScreenshot then
    match RespScreenshot r with
    | Some s => missing (RespAccessibility r) && missing (RespInput r) && (ContentType s == "image/jpeg") && (Data s != "") &&
                (0 <? ImageWidth s) && (0 <? ImageHeight s)
    | None => false
    end
  else if ReqOperation request == OperationAccessibility then
    match RespAccessibility r with
    | Some a => missing (RespScreenshot r) && missing (RespInput r) && oneOf (Source a) ["windows_uia"; "window_enumeration"]
    | None => false
    end
  else if oneOf (ReqOperation request) [OperationMouse; OperationKey; OperationTypeText] then
    (RespInput r == Some true) && missing (RespScreenshot r) && missing (RespAccessibility r)
  else false.
