(* ===== verification/GuestTransport.v ===== *)
(** * Actions through the Guest channel ([internal/computer/executor.go],
      [ExecuteForSession] of [session.go])

    Retries of idempotent transport steps, the layout of the spool, the atomic
    publication of an authority file, and the two ways to run an action.  The
    context of each step is the environment's: a deadline that has passed is
    an answer to [AskContext] or [AskTimer].  [legacy_revoker] is the text of
    the embedded script revoke_legacy_linux.py. *)
From stdpp Require Import base strings list.
From Stdlib Require Import ZArith Lia Ascii.
From S2P Require Import Prelude GoStrings GuestIdentity Auth Db Json Triggers Computer Guest GuestAccount GuestSession ComputerWire.

Local Open Scope string_scope.
Local Open Scope list_scope.
Local Open Scope Z_scope.

Section transport.
Context `{UnicodeLower} (legacy_revoker : string).

(** ** Retries *)
Definition transientGuestOperationError (f : guest_failure) : bool :=
  let message := ToLower (FailMessage f) in
  contains "qemu guest agent is not running" message || (contains "qga command" message && contains "timeout" message) ||
  contains "pve returned 596" message.

Definition context_failure (c : context_end) : guest_failure :=
  MkFailure (Some c) (match c with DeadlineExceeded => "context deadline exceeded" | Canceled => "context canceled" end).

Definition retry_wait : nanos := 250 * millisecond.

Definition retry_round {A} (operation : prog (guest_failure + A)) (deadline : nanos) : prog (option (guest_failure + A)) :=
  r ← operation;
  match r with
  | inr a => mret (Some (inr a))
  | inl f =>
      if negb (transientGuestOperationError f) then mret (Some (inl f)) else
      now ← now_;
      if negb (now <? deadline) then mret (Some (inl f)) else
      AskTimer retry_wait (fun ended => mret (match ended with Some c => Some (inl (context_failure c)) | None => None end))
  end.

Definition retry_rounds (maximum : nanos) : nat := S (S (Z.to_nat (maximum / retry_wait))).

Definition retryGuestOperation {A} (maximum : nanos) (operation : prog (guest_failure + A)) : prog (guest_failure + A) :=
  now ← now_;
  loop (retry_rounds maximum) (retry_round operation (now + maximum)).

Definition guestTransportRetryBudget : nanos := 20 * second.
Definition guestDispatchAllowance : nanos := 10 * second.

Definition write_file (path : string) (payload : bytes) : prog (guest_failure + unit) :=
  AskWrite path payload (fun x => mret (match x with Some f => inl f | None => inr tt end)).
Definition exec_answer (cmd : list string) : prog guest_answer := AskExec cmd (fun x => mret x).

(** ** Paths *)
Record Paths : Set := MkPaths { pa_executable : string; pa_authority : string; pa_request : string; pa_response : string }.

Definition is_windows (osType : string) : bool := has_prefix "win" (ToLower osType).

Definition windows_layout (executable base requestID : string) : Paths :=
  MkPaths executable (base +:+ "\authority.json") (base +:+ "\requests\" +:+ requestID +:+ ".json") (base +:+ "\responses\" +:+ requestID +:+ ".json").
Definition linux_layout (executable base requestID : string) : Paths :=
  MkPaths executable (base +:+ "/authority.json") (base +:+ "/requests/" +:+ requestID +:+ ".json") (base +:+ "/responses/" +:+ requestID +:+ ".json").

Definition guestPaths (osType requestID : string) : comp_error + Paths :=
  if negb (request_id_re requestID) then inl CompInvalid
  else if is_windows osType then
    inr (windows_layout "C:\Program Files\VC Workspace\Agent\vc-workspace-guest-agent.exe" "C:\ProgramData\VC Workspace\Agent\computer" requestID)
  else if osType == "l26" then inr (linux_layout "/usr/local/sbin/vc-workspace-guest-agent" "/var/lib/vc-workspace/computer" requestID)
  else inl CompUnavailable.

Definition legacyGuestPaths (osType requestID : string) : comp_error + Paths :=
  if negb (request_id_re requestID) then inl CompInvalid
  else if is_windows osType then
    inr (windows_layout "C:\Program Files\VC Workspace\Agent\vc-vdi-guest-agent.exe" "C:\ProgramData\VC Workspace\Agent\computer" requestID)
  else if osType == "l26" then inr (linux_layout "/usr/local/sbin/vc-vdi-guest-agent" "/var/lib/vc-vdi/computer" requestID)
  else inl CompUnavailable.

Definition plift {A} (r : comp_error + A) : prog A := match r with inl e => pfail e | inr a => mret a end.

Definition powershell : string := "C:\Windows\System32\WindowsPowerShell\v1.0\powershell.exe".
Definition powershell_command (script : string) : list string :=
  [powershell; "-NoLogo"; "-NoProfile"; "-NonInteractive"; "-ExecutionPolicy"; "Bypass"; "-Command"; script].

(** [strings.ReplaceAll(s, "'", "''")] *)
Fixpoint double_quotes (s : string) : string :=
  match s with
  | EmptyString => ""
  | String c s' => if c == "'"%char then String c (String c (double_quotes s')) else String c (double_quotes s')
  end.

Definition executable_probe (osType executable : string) : list string :=
  if is_windows osType then
    powershell_command ("if (Test-Path -LiteralPath '" +:+ double_quotes executable +:+ "' -PathType Leaf) { exit 0 } else { exit 1 }")
  else ["/usr/bin/test"; "-x"; executable].

Definition executableExists (osType executable : string) : prog bool :=
  r ← exec_ (executable_probe osType executable);
  mret (match r with Some res => ExitCode res =? 0 | None => false end).

Definition resolveGuestPaths (osType requestID : string) : prog Paths :=
  current ← plift (guestPaths osType requestID);
  found ← executableExists osType (pa_executable current);
  if found : bool then mret current else
  legacy ← plift (legacyGuestPaths osType requestID);
  found ← executableExists osType (pa_executable legacy);
  mret (if found : bool then legacy else current).

(** ** Publishing a file *)
Definition rename_command (osType temporary destination : string) : list string :=
  if is_windows osType then
    let t := double_quotes temporary in let d := double_quotes destination in
    powershell_command ("if (Test-Path -LiteralPath '" +:+ t +:+ "') { Move-Item -LiteralPath '" +:+ t +:+ "' -Destination '" +:+ d +:+
      "' -Force } elseif (-not (Test-Path -LiteralPath '" +:+ d +:+ "')) { throw 'staged file is unavailable' }")
  else ["/bin/sh"; "-c"; "if test -f '" +:+ temporary +:+ "'; then mv -f '" +:+ temporary +:+ "' '" +:+ destination +:+ "'; else test -f '" +:+
        destination +:+ "'; fi"].

Definition rename_exec (osType temporary destination : string) : prog (guest_failure + unit) :=
  r ← exec_answer (rename_command osType temporary destination);
  mret (match r with
        | inl f => inl f
        | inr res => if ExitCode res =? 0 then inr tt else inl (MkFailure None ("atomic guest rename failed with exit code " +:+ itoa (ExitCode res)))
        end).

Definition writeGuestFileAtomically (osType destination payload : string) : prog (guest_failure + unit) :=
  let temporary := destination +:+ ".tmp" in
  staged ← retryGuestOperation guestTransportRetryBudget (write_file temporary payload);
  match staged with
  | inl f => mret (inl f)
  | inr _ => retryGuestOperation guestTransportRetryBudget (rename_exec osType temporary destination)
  end.

(** ** Authority files *)
Definition writeAuthority (a : ComputerAuthority) : prog unit :=
  pensure (validAuthority a) CompInvalid;;
  os ← config_;
  os ← psome os CompUnavailable;
  p ← resolveGuestPaths os "action_abcdefghijklmnopqrst";
  r ← writeGuestFileAtomically os (pa_authority p) (json_print (authority_object a));
  match r with inl _ => pfail CompUnavailable | inr _ => mret tt end.

Definition ActivateAuthority (a : ComputerAuthority) : prog unit :=
  let a := with_state a "active" (AuthExpiresUnixMS a) in
  pensure (validAuthority a) CompInvalid;;
  writeAuthority a.

Definition RevokeAuthority (a : ComputerAuthority) : prog unit :=
  now ← now_;
  let a := with_state a "revoked" (UnixMilli now) in
  pensure (validAuthority a) CompInvalid;;
  os ← config_;
  os ← psome os CompUnavailable;
  if os == "l26" then
    r ← exec_ ["/usr/bin/python3"; "-c"; legacy_revoker; json_print (authority_object a)];
    pensure (match r with Some res => ExitCode res =? 0 | None => false end) CompUnavailable
  else writeAuthority a.

(** ** Running an action *)
Definition timeout_ok (timeout : nanos) : bool := negb ((timeout <? 250 * millisecond) || (15 * second <? timeout)).
Definition with_expiry (r : ActionRequest) (ms : Z) : ActionRequest :=
  MkActionRequest (ReqSchemaVersion r) (RequestID r) (LeaseID r) (ControlEpoch r) ms (ReqOperation r) (ReqScreenshot r) (ReqAccessibility r)
    (ReqMouse r) (ReqKey r) (ReqText r).

(** The deferred cleanup runs whatever the body returned. *)
Definition finally {A} (body : prog A) (cleanup : (comp_error + A) -> prog unit) : prog A :=
  r ← ptry body;
  ptry (cleanup r);;
  plift r.

(** How a retried call that failed is reported. *)
Definition transport_error (f : guest_failure) : comp_error :=
  match FailContext f with Some _ => CompTimeout | None => CompUnavailable end.

(** [Execute]: the answer of the helper; [CompRejected] is a response that is
    not [OK]. *)
Definition Execute (request : ActionRequest) (timeout : nanos) : prog Response :=
  pensure (timeout_ok timeout) CompInvalid;;
  now ← now_;
  pensure (Validate now request) CompInvalid;;
  pensure (negb (now + (timeout + 250 * millisecond) <? of_unix_milli (ExpiresUnixMS request))) CompInvalid;;
  os ← config_;
  os ← psome os CompUnavailable;
  p ← resolveGuestPaths os (RequestID request);
  now ← now_;
  let request := with_expiry request (UnixMilli (now + (timeout + guestTransportRetryBudget))) in
  let payload := json_print (request_json request) in
  pensure (negb (60 * 1024 <? slen payload)) CompInvalid;;
  staged ← retryGuestOperation guestTransportRetryBudget (write_file (pa_request p +:+ ".tmp") payload);
  match staged with inl _ => pfail CompUnavailable | inr _ => mret tt end;;
  let dispatch := [pa_executable p; "computer-dispatch"; "--request-id"; RequestID request; "--timeout-ms"; itoa (timeout / millisecond)] in
  res ← finally (
    waited ← retryGuestOperation guestDispatchAllowance (exec_answer dispatch);
    res ← plift (match waited with inl f => inl (transport_error f) | inr res => inr res end);
    pensure (ExitCode res != 124) CompTimeout;;
    pensure (ExitCode res =? 0) CompUnavailable;;
    pensure (negb (16 * 1024 * 1024 <? slen (Stdout res))) CompUnavailable;;
    mret res)
    (fun r => match r with
              | inl _ => exec_ [pa_executable p; "computer-cleanup"; "--request-id"; RequestID request];; mret tt
              | inr _ => mret tt
              end);
  r ← psome (parse_response request (Stdout res)) CompUnavailable;
  pensure (RespOK r) CompRejected;;
  mret r.

Definition sessionBase : string := "/var/lib/vc-workspace/computer-v2".

(** One attempt to publish a request: the three steps on the same bytes. *)
Definition publish_attempt (options : list string) (path payload : string) : prog (guest_failure + unit) :=
  staged ← session_exec "stage" options;
  match staged with
  | inl f => mret (inl f)
  | inr _ =>
      written ← write_file path payload;
      match written with
      | inl f => mret (inl f)
      | inr _ => published ← session_exec "publish" options; mret (match published with inl f => inl f | inr _ => inr tt end)
      end
  end.

Definition session_options (target : SessionTarget) (request : ActionRequest) : list string :=
  ["--guest-user"; TargetUsername target; "--request-id"; RequestID request].

(** The dispatch of a published request and its answer. *)
Definition dispatch_session (options : list string) (request : ActionRequest) : prog Response :=
  dispatched ← retryGuestOperation (5 * second) (session_exec "dispatch" options);
  AskContext WholeContext (fun ended =>
    pensure (match ended, dispatched with
             | Some _, _ => false
             | None, inl f => match FailContext f with Some DeadlineExceeded => false | _ => true end
             | None, inr _ => true
             end) CompTimeout);;
  result ← plift (match dispatched with
                  | inl f => inl (match FailContext f with Some c => CompContext c | None => CompUnavailable end)
                  | inr res => inr res
                  end);
  r ← psome (parse_response request (Stdout result)) CompUnavailable;
  pensure (RespOK r) CompRejected;;
  mret r.

Definition ExecuteForSession (target : SessionTarget) (request : ActionRequest) (timeout : nanos) : prog Response :=
  pensure (target_valid target && (TargetSID target == "") && timeout_ok timeout) CompInvalid;;
  now ← now_;
  pensure (Validate now request) CompInvalid;;
  now ← now_;
  pensure (negb (UnixMilli (now + (timeout + 250 * millisecond)) <? ExpiresUnixMS request)) CompInvalid;;
  requireLinuxSession;;
  now ← now_;
  let request := with_expiry request (UnixMilli (now + (timeout + 5 * second))) in
  let encoded := json_print (bound_action_json target (timeout / millisecond) request) in
  pensure (negb (60 * 1024 <? slen encoded)) CompInvalid;;
  let options := session_options target request in
  let path := sessionBase +:+ "/inbox/" +:+ RequestID request +:+ ".json.tmp" in
  finally (
    published ← retryGuestOperation (5 * second) (publish_attempt options path encoded);
    match published with inl _ => pfail CompUnavailable | inr _ => mret tt end;;
    dispatch_session options request)
    (fun _ => sessionCommand "cleanup" options;; mret tt).
End transport.
