(* ===== verification/GuestWindows.v ===== *)
(** * The Windows data plane ([internal/computer/windows_executor.go],
      [windows_account.go], [account_lease.go])

    The SID-bound session executor: reads are observed up to three times, an
    action is replayed with the same bytes up to three times, and everything
    else is sent once.  Every observation has a context of its own. *)
From stdpp Require Import base strings list.
From Stdlib Require Import ZArith Lia Ascii.
From S2P Require Import Prelude GoStrings GuestIdentity Auth Db Json Triggers Computer Guest GuestAccount GuestSession ComputerWire GuestTransport.

Local Open Scope string_scope.
Local Open Scope list_scope.
Local Open Scope Z_scope.

(** ** The raw text of the members of an object *)
Fixpoint raw_members (fuel : nat) (s : string) : option (list (string * string)) :=
  match fuel with
  | O => None
  | S fuel' =>
      '(k, r) ← read_string (skip_ws s);
      r1 ← cut_prefix ":" (skip_ws r);
      let v0 := skip_ws r1 in
      '(_, r2) ← read_value (S (String.length v0)) v0;
      let raw := str_take (String.length v0 - String.length r2) v0 in
      match cut_prefix "," (skip_ws r2) with
      | Some r3 => l ← raw_members fuel' r3; Some ((k, raw) :: l)
      | None => Some [(k, raw)]
      end
  end.

Definition raw_object (s : string) : list (string * string) :=
  match cut_prefix "{" (skip_ws s) with
  | Some r => default [] (raw_members (String.length r) r)
  | None => []
  end.

(** What a [json.RawMessage] field of a struct holds in the end. *)
Definition raw_field (fields : list string) (f : string) (s : string) : string :=
  default "" (last (List.map snd (List.filter (fun e => field_of fields (fst e) == Some f) (raw_object s)))).

Section windows.
Context `{UnicodeLower}.
(** The channel can take an input; the fixed path of the binary. *)
Context (has_input : bool) (binary : string).

Definition windowsSessionBinary : string := "C:\Program Files\VC Workspace\Agent\vc-workspace-guest-agent.exe".

(** ** Transport *)
Definition windowsGuestResultUncertain (f : guest_failure) : bool :=
  let message := ToLower (FailMessage f) in
  transientGuestOperationError f ||
  (contains "pve returned 500" message && contains "agent error: pid " message && contains "does not exist" message).

(** The loop of [readWindowsGuestResult] and [replayBoundWindowsAction]:
    [attempts] are left, the last one included. *)
Fixpoint observe (attempts : nat) (send : prog guest_answer) : prog guest_answer :=
  AskContext WholeContext (fun ended =>
    match ended with
    | Some c => mret (inl (context_failure c))
    | None =>
        r ← send;
        AskContext Observation (fun expired => AskContext WholeContext (fun ended =>
          match ended, r with
          | Some c, _ => mret (inl (context_failure c))
          | None, inr res => mret (inr res)
          | None, inl f =>
              let uncertain := windowsGuestResultUncertain f || ((expired == Some DeadlineExceeded) && (FailContext f == Some DeadlineExceeded)) in
              match attempts with
              | S (S _ as attempts') =>
                  if negb uncertain then mret (inl f) else
                  AskTimer retry_wait (fun ended =>
                    match ended with Some c => mret (inl (context_failure c)) | None => observe attempts' send end)
              | _ => mret (inl f)
              end
          end))
    end).

Definition attempts_allowed : nat := 3.
Definition readWindowsGuestResult (send : prog guest_answer) : prog guest_answer := observe attempts_allowed send.

Definition input_answer (cmd : list string) (payload : bytes) : prog guest_answer :=
  if has_input then AskInput cmd payload (fun x => mret x) else mret (inl (MkFailure None "computer helper unavailable")).

Definition read_only_operation (operation : string) : bool := oneOf operation ["capabilities"; "account-inspect"; "session"].

(** [command]: [payload] is [None] for a command without input. *)
Definition windows_command (operation : string) (payload : option bytes) (options : list string) : prog GuestExecResult :=
  let args := [binary; "computer-v2-" +:+ operation] ++ options in
  let send := match payload with None => exec_answer args | Some p => input_answer args p end in
  r ← (if (match payload with None => true | Some _ => false end) && read_only_operation operation then readWindowsGuestResult send
       else AskContext WholeContext (fun ended => match ended with Some c => mret (inl (context_failure c)) | None => send end));
  res ← psome (success r) CompUnavailable;
  pensure (ExitCode res =? 0) CompUnavailable;;
  mret res.

Definition windows_capability_fields : list string :=
  ["schema_version"; "experimental_session_transport"; "session_identity"; "authority_store"; "experimental_account_lifecycle"].

Definition probe : prog unit :=
  pensure (binary != "") CompUnavailable;;
  os ← config_;
  os ← psome os CompUnavailable;
  pensure (has_prefix "win" os) CompUnavailable;;
  pensure has_input CompUnavailable;;
  result ← windows_command "capabilities" None [];
  l ← psome (unmarshal_small windows_capability_fields (Stdout result)) CompUnavailable;
  let says := text_is windows_capability_fields in
  pensure (version_is windows_capability_fields 2 l && says "experimental_session_transport" "named_pipe_sid" l &&
           says "session_identity" "sid_wts_luid" l && says "authority_store" "protected_registry" l &&
           says "experimental_account_lifecycle" "system_owned_sam_v1" l) CompUnavailable.

Definition validWindowsAgentTarget (t : SessionTarget) : bool :=
  validAgentUser (TargetUsername t) && (TargetSID t != "") && target_valid t.

(** ** Sessions and authority *)
Definition ownership_fields : list string := ["schema_version"; "username"; "sid"; "disabled"].

Definition owned_account (username raw : string) : bool :=
  match unmarshal_small ownership_fields raw with
  | Some l =>
      version_is ownership_fields 1 l && text_is ownership_fields "username" username l &&
      match field ownership_fields store_string "" "sid" l, field ownership_fields (store_ptr store_bool false) None "disabled" l with
      | Some sid, Some (Some _) => ValidWindowsAccountSID sid
      | _, _ => false
      end
  | None => false
  end.

Definition WindowsInitializeSessionTransport (username : string) : prog unit :=
  pensure (validAgentUser username) CompInvalid;;
  probe;;
  result ← windows_command "account-inspect" None ["--guest-user"; username];
  pensure (owned_account username (Stdout result)) CompUnavailable;;
  windows_command "init" None ["--guest-user"; username];;
  mret tt.

Definition windows_session_fields : list string := ["schema_version"; "target"; "input_ready"].

Definition parse_windows_session (username raw : string) : option SessionTarget :=
  l ← unmarshal_small windows_session_fields raw;
  target ← field windows_session_fields store_target (MkTarget "" 0 "" "" "") "target" l;
  ready ← field windows_session_fields store_bool false "input_ready" l;
  if version_is windows_session_fields 2 l && ready && (TargetUsername target == username) && validWindowsAgentTarget target then Some target else None.

Definition WindowsDiscoverSession (username : string) : prog SessionTarget :=
  pensure (validAgentUser username) CompInvalid;;
  probe;;
  result ← windows_command "session" None ["--guest-user"; username];
  psome (parse_windows_session username (Stdout result)) CompUnavailable.

Definition windowsWriteAuthority (target : option SessionTarget) (a : ComputerAuthority) : prog unit :=
  probe;;
  payload ← psome (MarshalGuestJSON (authority_json target a)) CompInvalid;
  pensure (negb (65536 <? slen payload)) CompInvalid;;
  windows_command "authority" (Some payload) [];;
  mret tt.

Definition WindowsActivateSessionAuthority (target : SessionTarget) (a : ComputerAuthority) : prog unit :=
  let a := with_state a "active" (AuthExpiresUnixMS a) in
  pensure (validWindowsAgentTarget target && validAuthority a) CompInvalid;;
  now ← now_;
  pensure (UnixMilli now <? AuthExpiresUnixMS a) CompInvalid;;
  windowsWriteAuthority (Some target) a.

Definition WindowsRevokeSessionAuthority (a : ComputerAuthority) : prog unit :=
  let a := with_state a "revoked" 0 in
  pensure (validAuthority a) CompInvalid;;
  windowsWriteAuthority None a.

(** ** Actions *)
Definition replay_error : guest_answer := inl (MkFailure None "invalid computer request").

Definition replayBoundWindowsAction (target : SessionTarget) (timeout_ms : Z) (request : ActionRequest) (send : bytes -> prog guest_answer) : prog guest_answer :=
  if negb (validWindowsAgentTarget target) || (timeout_ms <? 250) || (15000 <? timeout_ms) then mret replay_error else
  now ← now_;
  if negb (Validate now request) then mret replay_error else
  match MarshalGuestJSON (bound_action_json target timeout_ms request) with
  | None => mret replay_error
  | Some payload => if 65536 <? slen payload then mret replay_error else observe attempts_allowed (send payload)
  end.

Definition windows_dispatch (target : SessionTarget) (request : ActionRequest) (payload : bytes) : prog guest_answer :=
  input_answer [binary; "computer-v2-dispatch"; "--guest-user"; TargetUsername target; "--request-id"; RequestID request] payload.

Definition parse_windows_response (request : ActionRequest) (raw : string) : option Response :=
  if 16 * 1024 * 1024 <? slen raw then None else
  r ← response_of_text raw;
  if validWindowsActionResponse request r then Some r else None.

(** An error of the probe, as the context explains it. *)
Definition explained {A} (p : prog A) : prog A :=
  r ← ptry p;
  match r with
  | inr a => mret a
  | inl e =>
      AskContext WholeContext (fun ended =>
        match ended with Some DeadlineExceeded => pfail CompTimeout | Some c => pfail (CompContext c) | None => pfail e end)
  end.

Definition WindowsExecuteForSession (target : SessionTarget) (request : ActionRequest) (timeout : nanos) : prog Response :=
  pensure (validWindowsAgentTarget target && timeout_ok timeout) CompInvalid;;
  now ← now_;
  pensure (Validate now request) CompInvalid;;
  now ← now_;
  pensure (negb (UnixMilli (now + (timeout + 250 * millisecond)) <? ExpiresUnixMS request)) CompInvalid;;
  explained probe;;
  r ← replayBoundWindowsAction target (timeout / millisecond) request (windows_dispatch target request);
  (match r with
   | inl (MkFailure (Some DeadlineExceeded) _) => pfail CompTimeout
   | _ => now ← now_; pensure (UnixMilli now <? ExpiresUnixMS request) CompTimeout
   end);;
  AskContext WholeContext alive;;
  result ← psome (success r) CompUnavailable;
  pensure (ExitCode result =? 0) CompUnavailable;;
  psome (parse_windows_response request (Stdout result)) CompUnavailable.

(** ** Accounts *)
Record WindowsAccountObservation : Set := MkWindowsObservation {
  WoUsername : string;
  WoSID : string;
  WoExists : bool;
  WoDisabled : bool;
  WoExpiresUnixSeconds : Z;
  WoSessions : list string;
  WoLifecycle : option AccountLease
}.

(** A value of this type was observed. *)
Definition windows_login_stopped (o : WindowsAccountObservation) : bool :=
  (negb (WoExists o) || WoDisabled o) && (match WoSessions o with [] => true | _ => false end) &&
  match WoLifecycle o with Some l => LeasePhase l == "revoked" | None => true end.

Definition receipt_fields : list string :=
  ["schema_version"; "observation_version"; "username"; "sid"; "exists"; "disabled"; "expires_unix_seconds"; "sessions"; "lifecycle"].

(** [[]string], nil when absent or null. *)
Definition store_strings (old : option (list string)) (v : json) : option (option (list string)) :=
  match v with
  | JArr l => r ← store_elements store_string "" (default [] old) l; Some (Some r)
  | JNull => Some None
  | _ => None
  end.

(** The numeric session of a logon binding; no two of them. *)
Definition session_number (session : string) : string := nth 1 (split ":" session) "".
Definition sessions_ok (l : list string) : bool :=
  forallb ValidWindowsLogonBinding l && unique_index (fun s => Some (session_number s)) l.

Definition windows_lifecycle (username sid raw : string) : option (option AccountLease) :=
  if (raw == "") || (raw == "null") then Some None else
  lease ← parseAccountLease raw "windows";
  if (IdUsername (LeaseIdentity lease) != username) || (IdSID (LeaseIdentity lease) != sid) then None else Some (Some lease).

Definition parseWindowsAccountObservation (raw username sid : string) : option WindowsAccountObservation :=
  if negb (validAgentUser username) || negb (ValidWindowsAccountSID sid) || (raw == "") || (65536 <? slen raw) then None else
  match json_document raw with
  | Some (JObj l) =>
      version ← field receipt_fields store_int64 0 "schema_version" l;
      observation ← field receipt_fields store_int64 0 "observation_version" l;
      name ← field receipt_fields store_string "" "username" l;
      id ← field receipt_fields store_string "" "sid" l;
      exists_ ← field receipt_fields (store_ptr store_bool false) None "exists" l;
      disabled ← field receipt_fields store_raw None "disabled" l;
      expiry ← field receipt_fields store_raw None "expires_unix_seconds" l;
      sessions ← field receipt_fields store_strings None "sessions" l;
      if (version != 1) || (observation != 1) || (name != username) || (id != sid) then None else
      exists_ ← exists_; disabled ← disabled; expiry ← expiry; sessions ← sessions;
      if 1024 <? Z.of_nat (length sessions) then None else
      disabled ← unmarshal_bool disabled;
      expiry ← store_ptr (store_uint (2 ^ 32 - 1)) 0 None expiry;
      if (bool_decide (disabled <> None) != exists_) || (bool_decide (expiry <> None) != exists_) || negb (sessions_ok sessions) then None else
      life ← windows_lifecycle username sid (raw_field receipt_fields "lifecycle" raw);
      Some (MkWindowsObservation username sid exists_ (exists_ && default false disabled) (if exists_ then default 0 expiry else 0) sessions life)
  | _ => None
  end.

Definition ObserveWindowsAgentAccount (username expectedSID : string) : prog WindowsAccountObservation :=
  pensure (validAgentUser username && ValidWindowsAccountSID expectedSID) CompInvalid;;
  probe;;
  result ← windows_command "account-inspect" None ["--guest-user"; username];
  psome (parseWindowsAccountObservation (Stdout result) username expectedSID) CompUnavailable.

Definition windows_phase (operation : string) : option string :=
  if operation == "open" then Some "open" else if operation == "seal" then Some "sealed"
  else if operation == "revoke" then Some "revoked" else None.

Definition ChangeWindowsAccountLease (desired : AccountLease) (operation : string) (password : bytes) : prog AccountLease :=
  phase ← psome (windows_phase operation) CompInvalid;
  pensure (LeasePhase desired == "") CompInvalid;;
  let desired := lease_phase desired phase in
  pensure (lease_valid "windows" desired) CompInvalid;;
  pensure (password_ok (operation == "open") password) CompInvalid;;
  (if operation == "revoke" then mret tt else fresh_expiry (LeaseExpiresUnixSeconds desired));;
  payload ← psome (MarshalGuestJSON (lease_json desired operation password)) CompInvalid;
  pensure (negb (4096 <? slen payload)) CompInvalid;;
  probe;;
  result ← windows_command "account-lease" (Some payload) ["--guest-user"; IdUsername (LeaseIdentity desired)];
  receipt ← psome (parseAccountLease (Stdout result) "windows") CompUnavailable;
  pensure (receipt == desired) CompUnavailable;;
  context_;;
  mret receipt.
End windows.
