(* ===== verification/GuestSessionProofs.v ===== *)
(** * One write, one receipt, one observation

    Every change of a Guest account sends at most one input to the Guest and
    succeeds only on the exact receipt; revocations also need an independent
    observation that nothing of the login is left. *)
From stdpp Require Import base strings list.
From Stdlib Require Import ZArith Lia Ascii.
From S2P Require Import Prelude GoStrings GuestIdentity Auth Db Json Triggers Computer Guest GuestAccount GuestSession.

Local Open Scope string_scope.
Local Open Scope list_scope.
Local Open Scope Z_scope.

(** ** Specifications over what a program adds to the trace *)
Definition spec {A} (p : prog A) (P : comp_error + A -> list exchange_event -> Prop) : Prop :=
  forall tr, wp p tr (fun r tr' => exists ev, tr' = tr ++ ev /\ P r ev).

Lemma spec_mono {A} (p : prog A) (P Q : comp_error + A -> list exchange_event -> Prop) :
  spec p P -> (forall r ev, P r ev -> Q r ev) -> spec p Q.
Proof. intros Hp HQ tr. eapply wp_mono; [| apply Hp]. intros r tr' (ev & -> & H). eauto. Qed.

Lemma spec_bind {A B} (p : prog A) (f : A -> prog B) P (R : A -> comp_error + B -> list exchange_event -> Prop) (Q : comp_error + B -> list exchange_event -> Prop) :
  spec p P -> (forall a, spec (f a) (R a)) ->
  (forall e ev, P (inl e) ev -> Q (inl e) ev) ->
  (forall a ev r ev', P (inr a) ev -> R a r ev' -> Q r (ev ++ ev')) ->
  spec (p ≫= f) Q.
Proof.
  intros Hp Hf He Ha tr. apply wp_bind. eapply wp_mono; [| apply Hp]. intros [e | a] tr' (ev & -> & H); [eauto |].
  eapply wp_mono; [| apply Hf]. intros r tr'' (ev' & -> & H'). exists (ev ++ ev'). rewrite app_assoc. eauto.
Qed.

(** A program that writes nothing, with what its success means. *)
Definition reads {A} (p : prog A) (P : A -> list exchange_event -> Prop) : Prop :=
  spec p (fun r ev => written ev = [] /\ match r with inr a => P a ev | inl _ => True end).

Lemma reads_bind {A B} (p : prog A) (f : A -> prog B) P (R : A -> B -> list exchange_event -> Prop) (Q : B -> list exchange_event -> Prop) :
  reads p P -> (forall a, reads (f a) (R a)) -> (forall a b ev ev', P a ev -> R a b ev' -> Q b (ev ++ ev')) -> reads (p ≫= f) Q.
Proof.
  intros Hp Hf HQ. eapply spec_bind; [apply Hp | apply Hf | |].
  - intros e ev [Hw _]. done.
  - intros a ev r ev' [Hw Ha] [Hw' Hr]. rewrite written_app, Hw, Hw'. split; [done |]. destruct r; [done | eauto].
Qed.

(** Before a guard or after it. *)
Lemma reads_pensure ok e : reads (pensure ok e) (fun _ ev => ok = true /\ ev = []).
Proof. intros tr. apply wp_pensure. destruct ok; exists []; by rewrite app_nil_r. Qed.
Lemma reads_psome {A} (o : option A) e : reads (psome o e) (fun a ev => o = Some a /\ ev = []).
Proof. intros tr. apply wp_psome. destruct o; exists []; by rewrite app_nil_r. Qed.
Lemma reads_mret {A} (a : A) : reads (mret a) (fun b ev => b = a /\ ev = []).
Proof. intros tr. exists []. by rewrite app_nil_r. Qed.

Lemma reads_weaken {A} (p : prog A) (P Q : A -> list exchange_event -> Prop) : reads p P -> (forall a ev, P a ev -> Q a ev) -> reads p Q.
Proof. intros Hp HQ. eapply spec_mono; [apply Hp |]. intros [e | a] ev [Hw H]; split; auto. Qed.

Definition anything {A} (a : A) (ev : list exchange_event) : Prop := True.

(** A sequence whose first part only matters for writing nothing. *)
Lemma reads_then {A B} (p : prog A) (f : A -> prog B) P (Q : B -> list exchange_event -> Prop) :
  reads p P -> (forall a, reads (f a) Q) -> (forall b ev ev', Q b ev' -> Q b (ev ++ ev')) -> reads (p ≫= f) Q.
Proof. intros Hp Hf HQ. eapply reads_bind; [exact Hp | exact Hf | eauto]. Qed.

Lemma reads_exec cmd : reads (exec_ cmd) (fun res ev => exists x, res = success x /\ ev = [EExec cmd x]).
Proof. intros tr x. exists [EExec cmd x]. by split_and!; try eexists. Qed.
Lemma reads_config : reads config_ (fun os ev => ev = [EConfig os]).
Proof. intros tr x. exists [EConfig x]. done. Qed.
Lemma reads_now : reads now_ (fun t ev => ev = [ENow t]).
Proof. intros tr x. exists [ENow x]. done. Qed.
Lemma reads_context : reads context_ (fun _ ev => ev = [EContext WholeContext None]).
Proof. intros tr [c |]; [exists [EContext WholeContext (Some c)] | exists [EContext WholeContext None]]; done. Qed.

Lemma reads_ptry {A} (p : prog A) P : reads p P -> reads (ptry p) (fun r ev => match r with inr a => P a ev | inl _ => True end).
Proof. intros Hp tr. apply wp_ptry. eapply wp_mono; [| apply Hp]. intros r tr' (ev & -> & Hw & H). eauto. Qed.

Lemma reads_pcatch {A} (p : prog A) e P : reads p P -> reads (pcatch p e) P.
Proof.
  intros Hp. unfold pcatch.
  apply (reads_bind _ _ (fun r ev => match r with inr a => P a ev | inl _ => True end)
    (fun r b ev => match r with inr a => b = a /\ ev = [] | inl _ => False end)); [by apply reads_ptry | |].
  - intros [e' | a]; [intros tr; exists []; by rewrite app_nil_r | apply reads_mret].
  - intros [e' | a] b ev ev' H H'; [done |]. destruct H' as [-> ->]. by rewrite app_nil_r.
Qed.

(** ** The reading programs *)
Lemma reads_requireLinuxSession : reads requireLinuxSession (fun _ ev => ev = [EConfig (Some "l26")]).
Proof.
  eapply reads_bind; [apply reads_config | intros; apply reads_pensure |]. intros os [] ev ev' -> [Hos ->]. b2p. by subst.
Qed.

Lemma reads_session_exec operation options :
  reads (session_exec operation options) (fun r ev => exists x, r = session_answer operation x /\ ev = [EExec (session_argv operation options) x]).
Proof. intros tr x. exists [EExec (session_argv operation options) x]. split_and!; [done.. | by exists x]. Qed.

Lemma reads_sessionCommand operation options :
  reads (sessionCommand operation options) (fun res ev => ev = [EExec (session_argv operation options) (inr res)] /\ ExitCode res = 0).
Proof.
  apply (reads_bind _ _ _ (fun r res ev => success r = Some res /\ ev = []) _ (reads_session_exec _ _)); [intros; apply reads_psome |].
  intros r res ev ev' (x & -> & ->) [Hr ->]. destruct x as [f | y]; [done |]. simpl in Hr.
  destruct (ExitCode y =? 0) eqn:E; simpl in Hr; simplify_eq. by b2p.
Qed.

Lemma reads_parsed {A} operation options (parse : string -> option A) e :
  reads (result ← sessionCommand operation options; psome (parse (Stdout result)) e)
    (fun a ev => exists res, ev = [EExec (session_argv operation options) (inr res)] /\ ExitCode res = 0 /\ parse (Stdout res) = Some a).
Proof.
  apply (reads_bind _ _ _ (fun res a ev => parse (Stdout res) = Some a /\ ev = []) _ (reads_sessionCommand _ _)); [intros; apply reads_psome |].
  intros res a ev ev' [-> Hx] [Hp ->]. by exists res.
Qed.

(** The programs that only guard and ask. *)
Definition quiet {A} (p : prog A) : Prop := reads p anything.

Lemma quiet_of {A} (p : prog A) P : reads p P -> quiet p.
Proof. intros Hp. by apply (reads_weaken _ P). Qed.

Lemma quiet_bind {A B} (p : prog A) (f : A -> prog B) : quiet p -> (forall a, quiet (f a)) -> quiet (p ≫= f).
Proof. intros Hp Hf. by apply (reads_bind _ _ anything (fun _ => anything)). Qed.

Lemma quiet_pensure ok e : quiet (pensure ok e).
Proof. exact (quiet_of _ _ (reads_pensure ok e)). Qed.
Lemma quiet_psome {A} (o : option A) e : quiet (psome o e).
Proof. exact (quiet_of _ _ (reads_psome o e)). Qed.
Lemma quiet_mret {A} (a : A) : quiet (mret a).
Proof. exact (quiet_of _ _ (reads_mret a)). Qed.
Lemma quiet_now : quiet now_.
Proof. exact (quiet_of _ _ reads_now). Qed.
Lemma quiet_context : quiet context_.
Proof. exact (quiet_of _ _ reads_context). Qed.
Lemma quiet_linux : quiet requireLinuxSession.
Proof. exact (quiet_of _ _ reads_requireLinuxSession). Qed.
Lemma quiet_command operation options : quiet (sessionCommand operation options).
Proof. exact (quiet_of _ _ (reads_sessionCommand operation options)). Qed.

Create HintDb quiet discriminated.
#[export] Hint Resolve quiet_pensure quiet_psome quiet_mret quiet_now quiet_context quiet_linux quiet_command : quiet.

Ltac quietly := repeat first [solve [auto with quiet] | apply quiet_bind; [| intros ?]].

Lemma quiet_fresh expires : quiet (fresh_expiry expires).
Proof. unfold fresh_expiry. quietly. Qed.
Lemma quiet_native login : quiet (nativeAccountProtocol login).
Proof. unfold nativeAccountProtocol. quietly. Qed.
Lemma quiet_fence : quiet requireAccountFence.
Proof. unfold requireAccountFence. quietly. Qed.
#[export] Hint Resolve quiet_fresh quiet_native quiet_fence : quiet.

(** An answer of the Guest to a question that has no input. *)
Definition answered (argv : list string) (good : string -> Prop) (ev : list exchange_event) : Prop :=
  Exists (fun x => exists res, x = EExec argv (inr res) /\ ExitCode res = 0 /\ good (Stdout res)) ev.

Lemma answered_l argv good ev ev' : answered argv good ev -> answered argv good (ev ++ ev').
Proof. intros H. apply Exists_app. by left. Qed.
Lemma answered_r argv good ev ev' : answered argv good ev' -> answered argv good (ev ++ ev').
Proof. intros H. apply Exists_app. by right. Qed.

(** A quiet beginning of a program whose end establishes [Q]. *)
Lemma reads_after {A B} (p : prog A) (f : A -> prog B) (Q : B -> list exchange_event -> Prop) :
  (forall b ev ev', Q b ev' -> Q b (ev ++ ev')) -> quiet p -> (forall a, reads (f a) Q) -> reads (p ≫= f) Q.
Proof. intros HQ Hp Hf. exact (reads_then _ _ _ Q Hp Hf HQ). Qed.

Lemma reads_observation {A} operation options (parse : string -> option A) e :
  reads (result ← sessionCommand operation options; psome (parse (Stdout result)) e)
    (fun a ev => answered (session_argv operation options) (fun raw => parse raw = Some a) ev).
Proof.
  eapply reads_weaken; [apply reads_parsed |]. intros a ev (res & -> & Hx & Hp). apply Exists_cons_hd. by exists res.
Qed.

Definition native_inspect_argv (username : string) : list string := session_argv "native-account-inspect" ["--guest-user"; username].
Definition agent_inspect_argv (username : string) : list string := session_argv "account-inspect" ["--guest-user"; username].

Lemma reads_InspectNativeAccount username :
  reads (InspectNativeAccount username)
    (fun o ev => answered (native_inspect_argv username) (fun raw => parseNativeAccountObservation raw username = Some o) ev).
Proof.
  unfold InspectNativeAccount. do 2 (apply reads_after; [intros; by apply answered_r | solve [auto with quiet] | intros _]).
  apply (reads_observation _ _ (fun raw => parseNativeAccountObservation raw username)).
Qed.

Lemma reads_InspectAgentAccount username :
  reads (InspectAgentAccount username)
    (fun o ev => answered (agent_inspect_argv username) (fun raw => parseLinuxAccountObservation raw username = Some o) ev).
Proof.
  unfold InspectAgentAccount. do 2 (apply reads_after; [intros; by apply answered_r | solve [auto with quiet] | intros _]).
  apply (reads_observation _ _ (fun raw => parseLinuxAccountObservation raw username)).
Qed.

(** ** One write, then its confirmation *)

(** At most one input; success follows an input that the Guest accepted with
    the receipt [good], and then [after] holds of the rest of the trace. *)
Definition one_write {A} (cmd : list string) (input : option bytes) (good : string -> Prop) (after : A -> list exchange_event -> Prop)
    (r : comp_error + A) (ev : list exchange_event) : Prop :=
  (length (written ev) <= 1)%nat /\
  match r with
  | inl _ => True
  | inr a => exists pre text res post, ev = pre ++ EInput cmd text (inr res) :: post /\ input = Some text /\ written pre = [] /\ written post = [] /\
      ExitCode res = 0 /\ good (Stdout res) /\ after a post
  end.

Lemma one_write_prefix {A} cmd input good (after : A -> list exchange_event -> Prop) r ev ev' :
  written ev = [] -> one_write cmd input good after r ev' -> one_write cmd input good after r (ev ++ ev').
Proof.
  intros Hw [Hn Hr]. split; [by rewrite written_app, Hw |]. destruct r as [e | a]; [done |].
  destruct Hr as (pre & text & res & post & -> & Hi & Hpre & Hrest). exists (ev ++ pre), text, res, post.
  by rewrite written_app, Hw, Hpre, <- app_assoc.
Qed.

Lemma one_write_after {A B} (p : prog A) (f : A -> prog B) P cmd input good after :
  reads p P -> (forall a ev, P a ev -> spec (f a) (one_write cmd input good after)) -> spec (p ≫= f) (one_write cmd input good after).
Proof.
  intros Hp Hf tr. apply wp_bind. eapply wp_mono; [| apply Hp]. intros [e | a] tr' (ev & -> & Hw & Ha).
  - exists ev. split; [done |]. unfold one_write. rewrite Hw. split; [simpl; lia | done].
  - eapply wp_mono; [| by apply (Hf a ev)]. intros r tr'' (ev' & -> & H). exists (ev ++ ev'). rewrite app_assoc. split; [done |].
    by apply one_write_prefix.
Qed.

Lemma one_write_here {A} cmd text (f : GuestExecResult -> prog A) (good : string -> Prop) after :
  (forall res, reads (f res) (fun a ev => good (Stdout res) /\ after a ev)) ->
  spec (guest_input cmd text ≫= f) (one_write cmd (Some text) good after).
Proof.
  intros Hf tr. apply wp_bind. intros [f0 | res]; simpl; [exists [EInput cmd text (inl f0)]; split; [done | split; [simpl; lia | done]] |].
  destruct (ExitCode res =? 0) eqn:Hx; simpl; [| exists [EInput cmd text (inr res)]; split; [done | split; [simpl; lia | done]]].
  eapply wp_mono; [| apply Hf]. intros r tr' (ev & -> & Hw & H). exists (EInput cmd text (inr res) :: ev).
  rewrite <- app_assoc. split; [done |]. split; [simpl; by rewrite Hw |]. destruct r as [e | a]; [done |].
  b2p. by exists [], text, res, ev.
Qed.

(** The write of a credential and the observation that confirms it. *)
Definition credential_argv (username : string) : list string := [sessionBinary; "computer-v2-native-account-credential"; "--guest-user"; username].
Definition native_final (c : NativeCredential) (revoke : bool) (o : NativeAccountObservation) (ev : list exchange_event) : Prop :=
  native_matches o c (CredPhase c) = true /\
  if revoke then native_closed o = true else exists now, In (ENow now) ev /\ native_retained now o = true.

Definition credential_confirmed (c : NativeCredential) (revoke : bool) (post : list exchange_event) : Prop :=
  let username := IdUsername (CredIdentity c) in
  exists o, answered (native_inspect_argv username) (fun raw => parseNativeAccountObservation raw username = Some o) post /\ native_final c revoke o post.

Lemma reads_native_final c (revoke : bool) o (ev0 : list exchange_event) :
  reads (pensure (native_matches o c (CredPhase c)) CompUnavailable;;
         (if revoke then pensure (native_closed o) CompUnavailable else now ← now_; pensure (native_retained now o) CompUnavailable);;
         context_)
    (fun (_ : unit) ev => native_final c revoke o (ev0 ++ ev)).
Proof.
  unfold native_final.
  apply (reads_bind _ _ _ (fun _ _ ev => if revoke then native_closed o = true else exists now, In (ENow now) ev /\ native_retained now o = true) _
    (reads_pensure _ _)).
  - intros _. destruct revoke.
    + apply (reads_bind _ _ _ (fun _ _ _ => True) _ (reads_pensure _ _)); [intros _; apply quiet_context |]. by intros [] [] ev ev' [H ->] _.
    + apply (reads_bind _ _ (fun _ ev => exists now, In (ENow now) ev /\ native_retained now o = true) (fun _ _ _ => True)); [| intros _; apply quiet_context |].
      * apply (reads_bind _ _ _ (fun now _ ev => native_retained now o = true /\ ev = []) _ reads_now); [intros now; apply reads_pensure |].
        intros now [] ev ev' -> [H ->]. exists now. split; [by left | done].
      * intros [] [] ev ev' (now & Hin & H) _. exists now. split; [apply in_or_app; by left | done].
  - intros [] b ev ev' [Hm ->] H. split; [done |]. destruct revoke; [done |]. destruct H as (now & Hin & H).
    exists now. split; [apply in_or_app; by right | done].
Qed.

Lemma reads_credential_receipt c (revoke : bool) res :
  reads (receipt ← psome (parseNativeCredential (Stdout res) "linux") CompUnavailable;
         pensure (receipt == c) CompUnavailable;;
         observed ← pcatch (InspectNativeAccount (IdUsername (CredIdentity c))) CompUnavailable;
         pensure (native_matches observed c (CredPhase c)) CompUnavailable;;
         (if revoke then pensure (native_closed observed) CompUnavailable
          else now ← now_; pensure (native_retained now observed) CompUnavailable);;
         context_)
    (fun (_ : unit) ev => parseNativeCredential (Stdout res) "linux" = Some c /\ credential_confirmed c revoke ev).
Proof.
  apply (reads_bind _ _ _ (fun r _ ev => r = c /\ credential_confirmed c revoke ev) _ (reads_psome _ _)).
  2: intros r b ev ev' [Hp ->] [-> H]; done.
  intros r. apply (reads_bind _ _ _ (fun _ _ ev => credential_confirmed c revoke ev) _ (reads_pensure _ _)).
  2: intros [] b ev ev' [He ->] H; b2p; done.
  intros _. intros tr. apply wp_bind. eapply wp_mono; [| apply reads_pcatch, reads_InspectNativeAccount].
  intros [e | o] tr' (ev & -> & Hw & Ho); [by exists ev |].
  eapply wp_mono; [| apply (reads_native_final c revoke o ev)]. intros r' tr'' (ev' & -> & Hw' & H).
  exists (ev ++ ev'). rewrite app_assoc, written_app, Hw, Hw'. split_and!; [done.. |]. destruct r'; [done |].
  exists o. split; [by apply answered_l | done].
Qed.

Definition wanted_phase (operation : string) : string := default "" (native_phase operation).

Definition credential_input (c : NativeCredential) (operation : string) (password : bytes) : option bytes :=
  MarshalGuestJSON (credential_json c operation password).

Lemma ChangeNativeCredential_spec has_input desired operation password :
  let c := cred_phase desired (wanted_phase operation) in
  spec (ChangeNativeCredential has_input desired operation password)
    (one_write (credential_argv (IdUsername (CredIdentity c))) (credential_input c operation password)
      (fun raw => parseNativeCredential raw "linux" = Some c) (fun (_ : unit) post => credential_confirmed c (operation == "revoke") post)).
Proof.
  intros c. unfold ChangeNativeCredential.
  apply (one_write_after _ _ _ _ _ _ _ (reads_psome _ _)). intros phase ev [Hphase _].
  assert (c = cred_phase desired phase) as Hc by (subst c; unfold wanted_phase; by rewrite Hphase). clearbody c. subst c.
  do 2 (apply (one_write_after _ _ _ _ _ _ _ (quiet_pensure _ _)); intros _ ? _).
  apply (one_write_after _ _ anything); [destruct (operation == "revoke"); [apply quiet_mret | apply quiet_fresh] |]; intros _ ? _.
  apply (one_write_after _ _ _ _ _ _ _ (quiet_pensure _ _)); intros _ ? _.
  apply (one_write_after _ _ _ _ _ _ _ (quiet_native _)); intros _ ? _.
  apply (one_write_after _ _ _ _ _ _ _ (quiet_pensure _ _)); intros _ ? _.
  apply (one_write_after _ _ _ _ _ _ _ (reads_psome _ _)). intros text ? [Htext _]. unfold credential_input. rewrite Htext.
  apply (one_write_after _ _ _ _ _ _ _ (quiet_pensure _ _)); intros _ ? _.
  apply (one_write_after _ _ _ _ _ _ _ quiet_context); intros _ ? _.
  apply one_write_here. intros res. apply (reads_credential_receipt (cred_phase desired phase) (operation == "revoke") res).
Qed.

(** ** The account of an agent *)
Lemma one_write_then {A B} (p : prog A) (f : A -> prog B) cmd input good after R :
  spec p (one_write cmd input good after) -> (forall a, reads (f a) (fun b ev => forall post, after a post -> R b (post ++ ev))) ->
  spec (p ≫= f) (one_write cmd input good R).
Proof.
  intros Hp Hf tr. apply wp_bind. eapply wp_mono; [| apply Hp]. intros [e | a] tr' (ev & -> & Hn & Ha); [by exists ev |].
  eapply wp_mono; [| apply (Hf a)]. intros r tr'' (ev' & -> & Hw' & H). exists (ev ++ ev'). rewrite app_assoc. split; [done |].
  split; [by rewrite written_app, Hw', app_nil_r |]. destruct r as [e | b]; [done |].
  destruct Ha as (pre & text & res & post & -> & Hi & Hpre & Hpost & Hx & Hg & Hafter). exists pre, text, res, (post ++ ev').
  rewrite <- app_assoc, written_app, Hpost, Hw'. split_and!; auto.
Qed.

Definition account_argv (login : bool) (username : string) : list string :=
  [sessionBinary; "computer-v2-" +:+ (if login then "account-login" else "account-lease"); "--guest-user"; username].
Definition account_intent (desired : AccountLease) (login : bool) : AccountLease := lease_phase desired (if login then "sealed" else "revoked").
Definition account_input (desired : AccountLease) (login : bool) (password : bytes) : option bytes :=
  MarshalGuestJSON (lease_json (account_intent desired login) (if login then "open" else "revoke") password).

(** The receipt of a lease must be the intent itself. *)
Lemma reads_confirmed_lease (res : GuestExecResult) platform intent :
  reads (receipt ← psome (parseAccountLease (Stdout res) platform) CompUnavailable;
         pensure (receipt == intent) CompUnavailable;;
         context_;;
         mret receipt)
    (fun receipt ev => parseAccountLease (Stdout res) platform = Some intent /\ receipt = intent).
Proof.
  apply (reads_bind _ _ _ (fun r b ev => b = r /\ r = intent) _ (reads_psome _ _)).
  2: intros r b x x' [Hp ->] [-> ->]; done.
  intros r. apply (reads_bind _ _ _ (fun _ b ev => b = r) _ (reads_pensure _ _)).
  2: intros [] b x x' [He ->] ->; b2p; done.
  intros _. apply (reads_bind _ _ _ (fun _ b ev => b = r) _ reads_context); [| by intros].
  intros _. eapply reads_weaken; [apply reads_mret |]. by intros b x [-> _].
Qed.

Lemma changeLinuxAccount_spec has_input desired login password :
  spec (changeLinuxAccount has_input desired login password)
    (one_write (account_argv login (IdUsername (LeaseIdentity desired))) (account_input desired login password)
      (fun raw => parseAccountLease raw "linux" = Some (account_intent desired login)) (fun receipt _ => receipt = account_intent desired login)).
Proof.
  unfold changeLinuxAccount, account_input, account_argv. fold (account_intent desired login).
  do 2 (apply (one_write_after _ _ _ _ _ _ _ (quiet_pensure _ _)); intros _ ? _).
  apply (one_write_after _ _ anything); [destruct login; [apply quiet_fresh | apply quiet_mret] |]; intros _ ? _.
  apply (one_write_after _ _ _ _ _ _ _ (quiet_pensure _ _)); intros _ ? _.
  apply (one_write_after _ _ _ _ _ _ _ (reads_psome _ _)). intros text ? [Htext _]. rewrite Htext.
  apply (one_write_after _ _ _ _ _ _ _ quiet_fence); intros _ ? _.
  apply (one_write_after _ _ _ _ _ _ _ (quiet_pensure _ _)); intros _ ? _.
  apply (one_write_after _ _ _ _ _ _ _ quiet_context); intros _ ? _.
  apply one_write_here. intros res. apply (reads_confirmed_lease res "linux").
Qed.

Definition login_ended (l : AccountLease) (post : list exchange_event) : Prop :=
  let username := IdUsername (LeaseIdentity l) in
  exists o, answered (agent_inspect_argv username) (fun raw => parseLinuxAccountObservation raw username = Some o) post /\
    linux_matches o l "revoked" = true /\ linux_login_stopped o = true.

Lemma StopAgentSession_spec has_input lease :
  spec (StopAgentSession has_input lease)
    (one_write (account_argv false (IdUsername (LeaseIdentity lease))) (account_input (lease_expires lease 0) false "")
      (fun raw => parseAccountLease raw "linux" = Some (account_intent (lease_expires lease 0) false))
      (fun _ post => login_ended (lease_expires lease 0) post)).
Proof.
  eapply (one_write_then _ _ _ _ _ _ _ (changeLinuxAccount_spec has_input (lease_expires lease 0) false "")). intros r.
  apply (reads_bind _ _ _ (fun o _ _ => linux_matches o (lease_expires lease 0) "revoked" = true /\ linux_login_stopped o = true) _ (reads_InspectAgentAccount _)).
  - intros o. eapply reads_weaken; [apply reads_pensure |]. intros b ev0 [H _]. by b2p.
  - intros o _ ev ev' Ho H post _. exists o. split; [apply answered_r, answered_l, Ho | done].
Qed.

(** ** The poll for a session ends *)

(** Readings of the clock never go back, and a timer that fires lets its
    duration pass; [now] is a lower bound on the time at the beginning. *)
Fixpoint clock_ok (now : nanos) (tr : list exchange_event) : Prop :=
  match tr with
  | [] => True
  | ENow t :: tr' => now <= t /\ clock_ok t tr'
  | ETimer d None :: tr' => clock_ok (now + d) tr'
  | _ :: tr' => clock_ok now tr'
  end.

Fixpoint clock_after (now : nanos) (tr : list exchange_event) : nanos :=
  match tr with
  | [] => now
  | ENow t :: tr' => clock_after t tr'
  | ETimer d None :: tr' => clock_after (now + d) tr'
  | _ :: tr' => clock_after now tr'
  end.

Lemma clock_ok_app now tr tr' : clock_ok now (tr ++ tr') <-> clock_ok now tr /\ clock_ok (clock_after now tr) tr'.
Proof.
  revert now. induction tr as [| x tr IH]; intros now; simpl; [tauto |].
  destruct x as [| | | | t | | | d [c |]]; simpl; rewrite ?IH; tauto.
Qed.

Lemma clock_after_app now tr tr' : clock_after now (tr ++ tr') = clock_after (clock_after now tr) tr'.
Proof. revert now. induction tr as [| x tr IH]; intros now; simpl; [done |]. destruct x as [| | | | t | | | d [c |]]; apply IH. Qed.

Definition event_nonneg (x : exchange_event) : Prop := match x with ETimer d _ => 0 <= d | _ => True end.

Lemma clock_after_ge now tr : Forall event_nonneg tr -> clock_ok now tr -> now <= clock_after now tr.
Proof.
  intros Hd. revert now. induction Hd as [| x tr Hx _ IH]; intros now; simpl; [lia |].
  destruct x as [| | | | t | | | d [c |]]; simpl in *; try apply IH.
  - intros [Ht Hc]. specialize (IH _ Hc). lia.
  - intros Hc. specialize (IH _ Hc). lia.
Qed.

(** Programs that set no timer and run no loop. *)
Definition no_timer (x : exchange_event) : Prop := match x with ETimer _ _ => False | _ => True end.
Definition untimed {A} (p : prog A) : Prop := spec p (fun r ev => r <> inl CompStuck /\ Forall no_timer ev).

Lemma untimed_bind {A B} (p : prog A) (f : A -> prog B) : untimed p -> (forall a, untimed (f a)) -> untimed (p ≫= f).
Proof.
  intros Hp Hf. apply (spec_bind _ _ _ (fun _ r ev => r <> inl CompStuck /\ Forall no_timer ev) _ Hp Hf).
  - intros e ev [He H]. split; [by intros [= ->] | done].
  - intros a ev r ev' [_ H] [Hr H']. split; [done | by apply Forall_app].
Qed.
Lemma untimed_psome {A} (o : option A) e : e <> CompStuck -> untimed (psome o e).
Proof. intros He tr. apply wp_psome. destruct o; exists []; (split; [by rewrite app_nil_r |]); split; [done.. | by intros [= ->] | done]. Qed.
Lemma untimed_pensure ok e : e <> CompStuck -> untimed (pensure ok e).
Proof. intros He tr. apply wp_pensure. destruct ok; exists []; (split; [by rewrite app_nil_r |]); split; [done.. | by intros [= ->] | done]. Qed.
Lemma untimed_mret {A} (a : A) : untimed (mret a).
Proof. intros tr. exists []. by rewrite app_nil_r. Qed.
Lemma untimed_config : untimed config_.
Proof. intros tr x. exists [EConfig x]. by repeat constructor. Qed.
Lemma untimed_session_exec operation options : untimed (session_exec operation options).
Proof. intros tr x. exists [EExec (session_argv operation options) x]. by repeat constructor. Qed.
Lemma untimed_input cmd input : untimed (input_ cmd input).
Proof. intros tr x. exists [EInput cmd input x]. by repeat constructor. Qed.
Lemma untimed_now : untimed now_.
Proof. intros tr x. exists [ENow x]. by repeat constructor. Qed.
Lemma untimed_context : untimed context_.
Proof. intros tr [c |]; [exists [EContext WholeContext (Some c)] | exists [EContext WholeContext None]]; by repeat constructor. Qed.

Create HintDb untimed discriminated.
#[export] Hint Resolve untimed_mret untimed_config untimed_session_exec untimed_input untimed_now untimed_context : untimed.
#[export] Hint Extern 1 (untimed (psome _ _)) => (apply untimed_psome; discriminate) : untimed.
#[export] Hint Extern 1 (untimed (pensure _ _)) => (apply untimed_pensure; discriminate) : untimed.

Ltac untimedly := repeat first [solve [auto with untimed] | apply untimed_bind; [| intros ?]].

Lemma untimed_DiscoverSession username : untimed (DiscoverSession username).
Proof. unfold DiscoverSession, requireLinuxSession, sessionCommand. untimedly. Qed.

Lemma untimed_changeLinuxAccount has_input desired login password : untimed (changeLinuxAccount has_input desired login password).
Proof.
  unfold changeLinuxAccount, requireAccountFence, requireLinuxSession, sessionCommand, guest_input, fresh_expiry.
  destruct login; untimedly.
Qed.

Lemma no_timer_nonneg ev : Forall no_timer ev -> Forall event_nonneg ev.
Proof. intros H. eapply Forall_impl; [exact H | by intros []]. Qed.

(** A round that goes again read a clock before the deadline and then let [d]
    pass. *)
Definition round_passes {A} (deadline d : nanos) (r : comp_error + option A) (ev : list exchange_event) : Prop :=
  Forall event_nonneg ev /\ r <> inl CompStuck /\
  (r = inr None -> forall now, clock_ok now ev -> now < deadline /\ now + d <= clock_after now ev).

Definition loop_ended {A} (rounds : nat) (deadline d : nanos) (r : comp_error + A) (ev : list exchange_event) : Prop :=
  Forall event_nonneg ev /\ forall now, clock_ok now ev -> deadline <= now + (Z.of_nat rounds - 1) * d -> r <> inl CompStuck.

Lemma loop_ends {A} rounds (body : prog (option A)) deadline d : (0 < rounds)%nat -> 0 <= d ->
  spec body (round_passes deadline d) -> spec (loop rounds body) (loop_ended rounds deadline d).
Proof.
  intros Hn Hd Hbody. revert Hn. induction rounds as [| rounds IH]; intros Hn tr; [lia |]. cbn [loop]. apply wp_bind.
  eapply wp_mono; [| apply Hbody]. intros [e | [a |]] tr1 (ev1 & -> & Hev1 & Hs & Hp); [exists ev1; split; [done | split; [done |]]; intros _ _ _ [= ->]; by apply Hs | |].
  { exists ev1. split; [done | by split]. }
  specialize (Hp eq_refl). destruct (decide (rounds = 0%nat)) as [-> | Hnz].
  { exists ev1. split; [done | split; [done |]]. intros now Hc Hdl. destruct (Hp _ Hc). lia. }
  eapply wp_mono; [| apply IH; lia]. intros r tr2 (ev2 & -> & Hd2 & Hr). exists (ev1 ++ ev2). rewrite app_assoc.
  split; [done | split; [by apply Forall_app |]]. intros now Hc Hdl. apply clock_ok_app in Hc as [Hc Hc2]. destruct (Hp _ Hc).
  apply (Hr _ Hc2). lia.
Qed.

(** The end of a round: a reading before the deadline, then a wait. *)
Lemma wait_passes ev1 t deadline d ended : Forall event_nonneg ev1 -> 0 <= d -> t < deadline ->
  round_passes (A := unit) deadline d (match ended with Some c => inl (CompContext c) | None => inr None end) (ev1 ++ [ENow t; ETimer d ended]).
Proof.
  intros H1 Hd Ht. split; [| split].
  - apply Forall_app. split; [done |]. by repeat constructor.
  - by destruct ended.
  - destruct ended; [done |]. intros _ now Hc. apply clock_ok_app in Hc as [Hc [Hle _]]. pose proof (clock_after_ge _ _ H1 Hc).
    rewrite clock_after_app. simpl. lia.
Qed.

Lemma poll_round_spec lease deadline : spec (poll_round lease deadline) (round_passes deadline (250 * millisecond)).
Proof.
  unfold round_passes. intros tr. apply wp_bind, wp_ptry. eapply wp_mono; [| apply untimed_DiscoverSession]. intros found tr1 (ev1 & -> & _ & Hev1).
  pose proof (no_timer_nonneg _ Hev1) as Hd1.
  destruct found as [e | target].
  2: { apply wp_bind, wp_pensure. destruct (negb _); exists ev1; by split_and!. }
  apply wp_bind. intros t. cbn [wp mret prog_ret]. apply wp_bind, wp_pensure. destruct (t <? deadline) eqn:Ht; b2p.
  2: { exists (ev1 ++ [ENow t]). rewrite app_assoc. split_and!; [done | | done..]. apply Forall_app. by repeat constructor. }
  apply wp_bind. intros ended.
  pose proof (wait_passes ev1 t deadline (250 * millisecond) ended Hd1 ltac:(done) Ht) as (Ha & Hb & Hc).
  destruct ended as [c |]; cbn; eexists; rewrite <- !app_assoc; (split; [reflexivity |]); split_and!; try done. intros _. by apply Hc.
Qed.
