(* ===== verification/GuestTransportProofs.v ===== *)
(** * One immutable request per action

    Retries end; everything that an action writes into the Guest is one text
    at one path; a response is returned only for the request that was
    published, and the spool is always cleaned. *)
From stdpp Require Import base strings list.
From Stdlib Require Import ZArith Lia Ascii.
From S2P Require Import Prelude GoStrings GuestIdentity Auth Db Json Triggers Computer Guest GuestAccount GuestSession ComputerWire GuestTransport GuestSessionProofs.

Local Open Scope string_scope.
Local Open Scope list_scope.
Local Open Scope Z_scope.

(** ** What every event of a program satisfies *)
Definition emits {A} (P : exchange_event -> Prop) (p : prog A) : Prop := spec p (fun _ ev => Forall P ev).

Lemma emits_bind {A B} P (p : prog A) (f : A -> prog B) : emits P p -> (forall a, emits P (f a)) -> emits P (p ≫= f).
Proof. intros Hp Hf. apply (spec_bind _ _ _ (fun _ _ => Forall P) _ Hp Hf); [done |]. intros. by apply Forall_app. Qed.
Lemma emits_done {A} P (r : comp_error + A) : emits P (Done r).
Proof. intros tr. exists []. by rewrite app_nil_r. Qed.
Lemma emits_pfail {A} P e : emits P (pfail e : prog A).
Proof. apply emits_done. Qed.
Lemma emits_mret {A} P (a : A) : emits P (mret a).
Proof. apply emits_done. Qed.
Lemma emits_pensure P ok e : emits P (pensure ok e).
Proof. destruct ok; apply emits_done. Qed.
Lemma emits_psome {A} P (o : option A) e : emits P (psome o e).
Proof. destruct o; apply emits_done. Qed.
Lemma emits_plift {A} P (r : comp_error + A) : emits P (plift r).
Proof. destruct r; apply emits_done. Qed.
Lemma emits_ptry {A} P (p : prog A) : emits P p -> emits P (ptry p).
Proof. intros Hp tr. apply wp_ptry. eapply wp_mono; [| apply Hp]. eauto. Qed.
Lemma emits_loop {A} P n (body : prog (option A)) : emits P body -> emits P (loop n body).
Proof.
  intros Hb. induction n as [| n IH]; [apply emits_done |]. cbn [loop]. apply emits_bind; [done |]. intros [a |]; [apply emits_mret | done].
Qed.

(** A question: its own event, then the rest. *)
Lemma spec_ask {A} (p : prog A) (x : exchange_event) tr (Q : comp_error + A -> list exchange_event -> Prop) :
  spec p (fun r ev => Q r (x :: ev)) -> wp p (tr ++ [x]) (fun r tr' => exists ev, tr' = tr ++ ev /\ Q r ev).
Proof. intros Hp. eapply wp_mono; [| apply Hp]. intros r tr' (ev & -> & H). exists (x :: ev). by rewrite <- app_assoc. Qed.

Lemma emits_ask {A} P (p : prog A) (x : exchange_event) tr :
  P x -> emits P p -> wp p (tr ++ [x]) (fun r tr' => exists ev, tr' = tr ++ ev /\ Forall P ev).
Proof. intros Hx Hp. apply (spec_ask p x tr (fun _ ev => Forall P ev)). eapply spec_mono; [apply Hp |]. by constructor. Qed.

Lemma emits_exec {A} P cmd (k : guest_answer -> prog A) : (forall x, P (EExec cmd x)) -> (forall x, emits P (k x)) -> emits P (AskExec cmd k).
Proof. intros Hx Hk tr x. apply emits_ask; [apply Hx | apply Hk]. Qed.
Lemma emits_write {A} P path payload (k : option guest_failure -> prog A) :
  (forall x, P (EWrite path payload x)) -> (forall x, emits P (k x)) -> emits P (AskWrite path payload k).
Proof. intros Hx Hk tr x. apply emits_ask; [apply Hx | apply Hk]. Qed.
Lemma emits_now {A} (P : exchange_event -> Prop) (k : nanos -> prog A) : (forall x, P (ENow x)) -> (forall x, emits P (k x)) -> emits P (AskNow k).
Proof. intros Hx Hk tr x. apply emits_ask; [apply Hx | apply Hk]. Qed.
Lemma emits_config {A} (P : exchange_event -> Prop) (k : option string -> prog A) :
  (forall x, P (EConfig x)) -> (forall x, emits P (k x)) -> emits P (AskConfig k).
Proof. intros Hx Hk tr x. apply emits_ask; [apply Hx | apply Hk]. Qed.
Lemma emits_context {A} (P : exchange_event -> Prop) c (k : option context_end -> prog A) :
  (forall x, P (EContext c x)) -> (forall x, emits P (k x)) -> emits P (AskContext c k).
Proof. intros Hx Hk tr x. apply emits_ask; [apply Hx | apply Hk]. Qed.
Lemma emits_timer {A} (P : exchange_event -> Prop) d (k : option context_end -> prog A) :
  (forall x, P (ETimer d x)) -> (forall x, emits P (k x)) -> emits P (AskTimer d k).
Proof. intros Hx Hk tr x. apply emits_ask; [apply Hx | apply Hk]. Qed.

Create HintDb emits discriminated.
#[export] Hint Resolve emits_pfail emits_mret emits_done emits_pensure emits_psome emits_plift emits_ptry emits_loop : emits.

(** [side] proves that a single event is fine. *)
Ltac emitting side :=
  repeat match goal with
  | |- emits _ (_ ≫= _) => apply emits_bind; [| intros ?]
  | |- emits _ (AskExec _ _) => apply emits_exec; [intros ?; side | intros ?]
  | |- emits _ (AskWrite _ _ _) => apply emits_write; [intros ?; side | intros ?]
  | |- emits _ (AskNow _) => apply emits_now; [intros ?; side | intros ?]
  | |- emits _ (AskConfig _) => apply emits_config; [intros ?; side | intros ?]
  | |- emits _ (AskContext _ _) => apply emits_context; [intros ?; side | intros ?]
  | |- emits _ (AskTimer _ _) => apply emits_timer; [intros ?; side | intros ?]
  | |- emits _ (loop _ _) => apply emits_loop
  | |- emits _ (ptry _) => apply emits_ptry
  | |- emits _ (match ?x with _ => _ end) => destruct x
  | |- emits _ (if ?x then _ else _) => destruct x
  | |- emits _ _ => solve [auto with emits]
  end.

(** ** What success means *)
Definition wins {A} (p : prog A) (P : A -> list exchange_event -> Prop) : Prop :=
  spec p (fun r ev => match r with inr a => P a ev | inl _ => True end).

Lemma wins_bind {A B} (p : prog A) (f : A -> prog B) P (R : A -> B -> list exchange_event -> Prop) (Q : B -> list exchange_event -> Prop) :
  wins p P -> (forall a, wins (f a) (R a)) -> (forall a b ev ev', P a ev -> R a b ev' -> Q b (ev ++ ev')) -> wins (p ≫= f) Q.
Proof.
  intros Hp Hf HQ. apply (spec_bind _ _ _ (fun a r ev => match r with inr b => R a b ev | inl _ => True end) _ Hp Hf); [done |].
  intros a ev [e | b] ev' Ha Hb; [done | eauto].
Qed.
Lemma wins_weaken {A} (p : prog A) (P Q : A -> list exchange_event -> Prop) : wins p P -> (forall a ev, P a ev -> Q a ev) -> wins p Q.
Proof. intros Hp HQ. eapply spec_mono; [apply Hp |]. intros [e | a] ev; auto. Qed.
Lemma wins_any {A} (p : prog A) P : emits P p -> wins p (fun _ _ => True).
Proof. intros Hp. eapply spec_mono; [apply Hp |]. by intros [e | a] ev _. Qed.
Lemma wins_done {A} (r : comp_error + A) : wins (Done r) (fun a ev => r = inr a /\ ev = []).
Proof. intros tr. exists []. rewrite app_nil_r. by destruct r. Qed.
Lemma wins_mret {A} (a : A) : wins (mret a) (fun b ev => b = a /\ ev = []).
Proof. eapply wins_weaken; [apply wins_done |]. by intros b ev [[= ->] ->]. Qed.
Lemma wins_pensure ok e : wins (pensure ok e) (fun _ ev => ok = true /\ ev = []).
Proof. intros tr. destruct ok; exists []; by rewrite app_nil_r. Qed.
Lemma wins_psome {A} (o : option A) e : wins (psome o e) (fun a ev => o = Some a /\ ev = []).
Proof. intros tr. destruct o; exists []; by rewrite app_nil_r. Qed.
Lemma wins_plift {A} (r : comp_error + A) : wins (plift r) (fun a ev => r = inr a /\ ev = []).
Proof. destruct r; [| eapply wins_weaken; [apply wins_done |]; by intros ? ? [[= ->] ->]]. intros tr. exists []. by rewrite app_nil_r. Qed.

(** ** Retries *)
Section transport.
Context `{UnicodeLower}.

Lemma emits_retry {A} (P : exchange_event -> Prop) maximum (op : prog (guest_failure + A)) :
  (forall t, P (ENow t)) -> (forall e, P (ETimer retry_wait e)) -> emits P op -> emits P (retryGuestOperation maximum op).
Proof. intros Hn Ht Hop. unfold retryGuestOperation, retry_round, now_. emitting ltac:(by auto); exact Hop. Qed.

(** A successful retry ends with a successful attempt. *)
Lemma retry_succeeds {A} maximum (op : prog (guest_failure + A)) (P : A -> list exchange_event -> Prop) :
  spec op (fun r ev => match r with inr (inr a) => P a ev | _ => True end) ->
  spec (retryGuestOperation maximum op) (fun r ev => match r with inr (inr a) => exists pre last, ev = pre ++ last /\ P a last | _ => True end).
Proof.
  intros Hop. assert (forall n deadline, spec (loop n (retry_round op deadline))
    (fun r ev => match r with inr (inr a) => exists pre last, ev = pre ++ last /\ P a last | _ => True end)) as Hloop.
  { intros n deadline. induction n as [| n IH]; intros tr; [by exists []; rewrite app_nil_r |]. cbn [loop]. apply wp_bind, wp_bind.
    eapply wp_mono; [| apply Hop]. intros [e | [f | a]] tr1 (ev1 & -> & Hev1); [by exists ev1 | |].
    2: { exists ev1. split; [done |]. by exists [], ev1. }
    destruct (negb (transientGuestOperationError f)); [by exists ev1 |]. apply wp_bind. intros t. cbn [wp mret prog_ret].
    destruct (negb (t <? deadline)); [exists (ev1 ++ [ENow t]); by rewrite app_assoc |].
    intros [c |]; cbn [wp mret prog_ret]; [exists (ev1 ++ [ENow t; ETimer retry_wait (Some c)]); by rewrite <- !app_assoc |].
    eapply wp_mono; [| apply IH]. intros r tr2 (ev2 & -> & H2). exists (ev1 ++ [ENow t; ETimer retry_wait None] ++ ev2).
    rewrite <- !app_assoc. split; [done |]. destruct r as [e | [f' | a]]; [done.. |]. destruct H2 as (pre & last & -> & Hl).
    exists (ev1 ++ [ENow t; ETimer retry_wait None] ++ pre), last. by rewrite <- !app_assoc. }
  intros tr. apply wp_bind. intros t. cbn [wp mret prog_ret]. eapply wp_mono; [| apply Hloop]. intros r tr' (ev & -> & Hr). exists (ENow t :: ev).
  rewrite <- app_assoc. split; [done |]. destruct r as [e | [f | a]]; [done.. |]. destruct Hr as (pre & last & -> & Hl). by exists (ENow t :: pre), last.
Qed.

(** Attempts that set no timer: the retry is over within its budget. *)
Definition ends {A} (p : prog A) : Prop := spec p (fun r ev => Forall event_nonneg ev /\ forall now, clock_ok now ev -> r <> inl CompStuck).

Lemma retry_round_passes {A} (op : prog (guest_failure + A)) deadline : untimed op -> spec (retry_round op deadline) (round_passes deadline retry_wait).
Proof.
  unfold round_passes. intros Hop tr. apply wp_bind. eapply wp_mono; [| apply Hop]. intros r tr1 (ev1 & -> & Hr & Hev1).
  pose proof (no_timer_nonneg _ Hev1) as Hd1. destruct r as [e | [f | a]]; [exists ev1; split_and!; try done; by intros [= ->] | | by exists ev1].
  destruct (negb (transientGuestOperationError f)); [by exists ev1 |]. apply wp_bind. intros t. cbn [wp mret prog_ret].
  destruct (t <? deadline) eqn:Ht; b2p; cbn [negb].
  2: { exists (ev1 ++ [ENow t]). rewrite app_assoc. split_and!; try done. apply Forall_app. by repeat constructor. }
  intros ended. exists (ev1 ++ [ENow t; ETimer retry_wait ended]).
  pose proof (wait_passes ev1 t deadline retry_wait ended Hd1 ltac:(done) Ht) as (Ha & Hb & Hc).
  rewrite <- !app_assoc. split; [done |]. destruct ended; split_and!; try done. intros _. by apply Hc.
Qed.

Lemma retry_ends {A} maximum (op : prog (guest_failure + A)) : 0 <= maximum -> untimed op -> ends (retryGuestOperation maximum op).
Proof.
  intros Hm Hop tr. apply wp_bind. intros t. cbn [wp mret prog_ret]. eapply wp_mono; [| apply (loop_ends (retry_rounds maximum) _ (t + maximum) retry_wait);
    [unfold retry_rounds; lia | done | by apply retry_round_passes]].
  intros r tr' (ev & -> & Hd & Hend). exists (ENow t :: ev). rewrite <- app_assoc. split; [done |]. split; [by constructor |].
  intros now [_ Hc]. apply (Hend t Hc). unfold retry_rounds. change retry_wait with 250000000.
  pose proof (Z.div_mod maximum 250000000 ltac:(lia)). pose proof (Z.mod_pos_bound maximum 250000000 ltac:(lia)).
  pose proof (Z.div_pos maximum 250000000 Hm ltac:(lia)). lia.
Qed.

(** ** An action of an agent *)
Definition inert (x : exchange_event) : Prop := match x with EWrite _ _ _ | EInput _ _ _ | EExec _ _ => False | _ => True end.

(** The only thing an action puts into the Guest. *)
Definition only_writes (path payload : string) (x : exchange_event) : Prop :=
  match x with EWrite p b _ => p = path /\ b = payload | EInput _ _ _ => False | _ => True end.

Definition inbox_path (request : ActionRequest) : string := sessionBase +:+ "/inbox/" +:+ RequestID request +:+ ".json.tmp".
Definition action_text (target : SessionTarget) (request : ActionRequest) (timeout : nanos) (t : nanos) : string :=
  json_print (bound_action_json target (timeout / millisecond) (with_expiry request (UnixMilli (t + (timeout + 5 * second))))).

(** Published, dispatched, answered: in this order. *)
Definition answered_in_order (options : list string) (request : ActionRequest) (resp : Response) (ev : list exchange_event) : Prop :=
  exists a published b dispatched c,
    ev = a ++ EExec (session_argv "publish" options) (inr published) :: b ++ EExec (session_argv "dispatch" options) (inr dispatched) :: c /\
    ExitCode published = 0 /\ ExitCode dispatched = 0 /\ parse_response request (Stdout dispatched) = Some resp /\ RespOK resp = true.

Definition is_write (x : exchange_event) : Prop := match x with EWrite _ _ _ => True | _ => False end.

(** Whatever the outcome: every dispatch command is for this request and comes
    after a publish command that the Guest answered with success, with nothing
    written in between. *)
Definition dispatched_when_published (options : list string) (ev : list exchange_event) : Prop :=
  forall pre opts x post, ev = pre ++ EExec (session_argv "dispatch" opts) x :: post ->
    opts = options /\ exists a published b, pre = a ++ EExec (session_argv "publish" options) (inr published) :: b /\
      ExitCode published = 0 /\ Forall (fun x => ~ is_write x) b.

(** What a run of [ExecuteForSession] may have done. *)
Definition action_run (target : SessionTarget) (request : ActionRequest) (timeout : nanos) (r : comp_error + Response) (ev : list exchange_event) : Prop :=
  let options := session_options target request in
  (exists t, Forall (only_writes (inbox_path request) (action_text target request timeout t)) ev) /\
  (Exists is_write ev -> exists pre x, ev = pre ++ [EExec (session_argv "cleanup" options) x]) /\
  dispatched_when_published options ev /\
  match r with inr resp => answered_in_order options request resp ev | inl _ => True end.

(** Nothing is written for a request that was not valid when it was looked
    at, nor for a target that is not a Linux session. *)
Definition action_checked (target : SessionTarget) (request : ActionRequest) (ev : list exchange_event) : Prop :=
  Exists is_write ev -> target_valid target = true /\ TargetSID target = "" /\ exists now, In (ENow now) ev /\ Validate now request = true.

Lemma answered_in_order_prefix options request resp ev ev' :
  answered_in_order options request resp ev' -> answered_in_order options request resp (ev ++ ev').
Proof. intros (a & p & b & d & c & -> & H'). exists (ev ++ a), p, b, d, c. by rewrite <- app_assoc. Qed.
Lemma answered_in_order_suffix options request resp ev ev' :
  answered_in_order options request resp ev -> answered_in_order options request resp (ev ++ ev').
Proof. intros (a & p & b & d & c & -> & H'). exists a, p, b, d, (c ++ ev'). split; [| done]. by rewrite <- app_assoc, <- app_comm_cons, <- app_assoc. Qed.

(** Events that dispatch nothing. *)
Definition no_dispatch (x : exchange_event) : Prop := match x with EExec argv _ => forall opts, argv <> session_argv "dispatch" opts | _ => True end.

Lemma no_dispatch_not opts x ev : Forall no_dispatch ev -> ~ In (EExec (session_argv "dispatch" opts) x) ev.
Proof. intros Hf Hin. apply list_elem_of_In in Hin. rewrite Forall_forall in Hf. by apply (Hf _ Hin opts). Qed.

Lemma published_none options ev : Forall no_dispatch ev -> dispatched_when_published options ev.
Proof. intros Hf pre opts x post ->. destruct (no_dispatch_not opts x _ Hf). apply in_elt. Qed.

Lemma published_prefix options ev ev' : Forall no_dispatch ev -> dispatched_when_published options ev' -> dispatched_when_published options (ev ++ ev').
Proof.
  intros Hf He pre opts x post E. apply app_eq_app in E as (k & [[-> Hk] | [-> Hk]]).
  - destruct k as [| y k]; simplify_list_eq.
    + destruct (He [] opts x post) as (? & a & p & b & E & ?); [done |]. by destruct a.
    + destruct (no_dispatch_not opts x _ Hf). apply in_elt.
  - destruct (He k opts x post Hk) as (-> & a & p & b & -> & ?). split; [done |]. exists (ev ++ a), p, b. by rewrite <- app_assoc.
Qed.

Lemma published_suffix options ev ev' : Forall no_dispatch ev' -> dispatched_when_published options ev -> dispatched_when_published options (ev ++ ev').
Proof.
  intros Hf He pre opts x post E. apply app_eq_app in E as (k & [[-> Hk] | [-> Hk]]).
  - destruct k as [| y k]; simplify_list_eq; [destruct (no_dispatch_not opts x _ Hf); by left |]. by apply (He pre opts x k).
  - destruct (no_dispatch_not opts x _ Hf). rewrite Hk. apply in_elt.
Qed.

(** After the publication: commands of the dispatch, and no write. *)
Definition dispatch_event (options : list string) (x : exchange_event) : Prop :=
  ~ is_write x /\ match x with EExec argv _ => argv = session_argv "dispatch" options | _ => True end.

Lemma published_then options a p b : Forall no_dispatch a -> ExitCode p = 0 -> Forall (dispatch_event options) b ->
  dispatched_when_published options (a ++ EExec (session_argv "publish" options) (inr p) :: b).
Proof.
  intros Ha Hp Hb. apply published_prefix; [done |]. intros pre opts x post E. destruct pre as [| y pre]; [done |]. injection E as <- ->.
  apply Forall_app in Hb as [Hb1 Hb2]. inversion_clear Hb2 as [| ? ? [_ Hd] _]. split; [by injection Hd |].
  exists [], p, pre. split_and!; [done.. |]. eapply Forall_impl; [exact Hb1 |]. by intros y' [].
Qed.

Lemma inert_no_dispatch ev : Forall inert ev -> Forall no_dispatch ev.
Proof. intros Hi. eapply Forall_impl; [exact Hi | intros []; simpl; tauto]. Qed.
Lemma inert_only_writes path payload ev : Forall inert ev -> Forall (only_writes path payload) ev.
Proof. intros Hi. eapply Forall_impl; [exact Hi | intros []; simpl; tauto]. Qed.
Lemma inert_no_write ev : Forall inert ev -> ~ Exists is_write ev.
Proof. rewrite <- Forall_Exists_neg. intros Hi. eapply Forall_impl; [exact Hi | intros []; simpl; tauto]. Qed.

Lemma action_run_inert target request timeout e ev : Forall inert ev -> action_run target request timeout (inl e) ev.
Proof.
  intros Hi. split; [exists 0; by apply inert_only_writes |]. split; [| split; [by apply published_none, inert_no_dispatch | done]]. intros Hw. by destruct (inert_no_write _ Hi).
Qed.

Lemma action_run_prefix target request timeout r ev ev' :
  Forall inert ev -> action_run target request timeout r ev' -> action_run target request timeout r (ev ++ ev').
Proof.
  intros Hi ((t & Ht) & Hw & Hd & Hr). split; [| split; [| split]].
  - exists t. apply Forall_app. split; [by apply inert_only_writes | done].
  - rewrite Exists_app. intros [Hx | Hx]; [by destruct (inert_no_write _ Hi) |]. destruct (Hw Hx) as (pre & x & ->).
    exists (ev ++ pre), x. by rewrite app_assoc.
  - apply published_prefix; [by apply inert_no_dispatch | done].
  - destruct r; [done |]. by apply answered_in_order_prefix.
Qed.

Lemma action_after {A} (p : prog A) (f : A -> prog Response) target request timeout :
  emits inert p -> (forall a, spec (f a) (action_run target request timeout)) -> spec (p ≫= f) (action_run target request timeout).
Proof.
  intros Hp Hf. apply (spec_bind _ _ _ (fun _ => action_run target request timeout) _ Hp Hf).
  - intros e ev He. by apply action_run_inert.
  - intros a ev r ev' He Hr. by apply action_run_prefix.
Qed.

Lemma spec_pensure {B} ok e (f : unit -> prog B) (Q : comp_error + B -> list exchange_event -> Prop) :
  Q (inl e) [] -> (ok = true -> spec (f tt) Q) -> spec (pensure ok e ≫= f) Q.
Proof. intros He Hf. destruct ok; [by apply Hf |]. intros tr. exists []. by rewrite app_nil_r. Qed.

Lemma spec_now {B} (f : nanos -> prog B) (Q : comp_error + B -> list exchange_event -> Prop) :
  (forall t, spec (f t) (fun r ev => Q r (ENow t :: ev))) -> spec (now_ ≫= f) Q.
Proof. intros Hf tr t. apply spec_ask. apply Hf. Qed.

Lemma emits_session_exec P operation options : (forall x, P (EExec (session_argv operation options) x)) -> emits P (session_exec operation options).
Proof. intros Hx. unfold session_exec. emitting ltac:(by auto). Qed.

Lemma emits_linux (P : exchange_event -> Prop) : (forall x, P (EConfig x)) -> emits P requireLinuxSession.
Proof. intros Hx. unfold requireLinuxSession, config_. emitting ltac:(by auto). Qed.

(** The body of an action. *)
Definition action_body (target : SessionTarget) (request : ActionRequest) (encoded : string) : prog Response :=
  published ← retryGuestOperation (5 * second) (publish_attempt (session_options target request) (inbox_path request) encoded);
  match published with inl _ => pfail CompUnavailable | inr _ => mret tt end;;
  dispatch_session (session_options target request) request.

Ltac emits_all side :=
  repeat first
    [ match goal with
      | |- emits _ (retryGuestOperation _ _) => apply emits_retry; [intros ?; side | intros ?; side |]
      | |- emits _ (session_exec _ _) => apply emits_session_exec; intros ?; side
      end
    | progress emitting side ].

Lemma body_writes target request encoded : emits (only_writes (inbox_path request) encoded) (action_body target request encoded).
Proof. unfold action_body, dispatch_session, publish_attempt, write_file. emits_all ltac:(done). Qed.

Lemma wins_session_exec operation options :
  wins (session_exec operation options) (fun r ev => match r with
    | inr res => ev = [EExec (session_argv operation options) (inr res)] /\ ExitCode res = 0 | inl _ => True end).
Proof.
  intros tr x. exists [EExec (session_argv operation options) x]. split; [done |]. destruct x as [f | res]; [done |]. simpl.
  destruct (ExitCode res =? 0) eqn:E; [| done]. by b2p.
Qed.

Lemma wins_retry {A} maximum (op : prog (guest_failure + A)) P :
  wins op (fun r ev => match r with inr a => P a ev | inl _ => True end) ->
  wins (retryGuestOperation maximum op) (fun r ev => match r with inr a => exists pre last, ev = pre ++ last /\ P a last | inl _ => True end).
Proof.
  intros Hop. unfold wins. eapply spec_mono; [apply (retry_succeeds maximum op P) |].
  - eapply spec_mono; [apply Hop |]. intros [e | [f | a]] ev; auto.
  - intros [e | [f | a]] ev; auto.
Qed.

(** A publication that succeeded ends with the publish command. *)
Definition published_last (options : list string) (ev : list exchange_event) : Prop :=
  exists a p, ev = a ++ [EExec (session_argv "publish" options) (inr p)] /\ ExitCode p = 0.

Lemma wins_publish options path payload :
  wins (publish_attempt options path payload) (fun r ev => match r with inr _ => published_last options ev | inl _ => True end).
Proof.
  apply (wins_bind _ _ _ (fun _ r ev => match r with inr _ => published_last options ev | inl _ => True end) _ (wins_session_exec "stage" options)).
  2: { intros _ [f | []] ev ev' _; [done |]. intros (a & p & -> & Hp). exists (ev ++ a), p. by rewrite app_assoc. }
  intros [f | _]; [eapply wins_weaken; [apply wins_mret | by intros r ev [-> ->]] |].
  intros tr x. destruct x as [f |]; cbn; [by exists [EWrite path payload (Some f)] |].
  intros y. exists [EWrite path payload None; EExec (session_argv "publish" options) y]. rewrite <- app_assoc. split; [done |].
  destruct y as [f | res]; cbn; [done |]. destruct (ExitCode res =? 0) eqn:E; cbn; [| done]. b2p. by exists [EWrite path payload None], res.
Qed.

Lemma wins_dispatch options request :
  wins (dispatch_session options request) (fun resp ev => exists b d c, ev = b ++ EExec (session_argv "dispatch" options) (inr d) :: c /\
    ExitCode d = 0 /\ parse_response request (Stdout d) = Some resp /\ RespOK resp = true).
Proof.
  unfold dispatch_session.
  apply (wins_bind _ _ _ (fun r resp ev => match r with
    | inr d => parse_response request (Stdout d) = Some resp /\ RespOK resp = true | inl _ => False end) _
    (wins_retry _ _ _ (wins_session_exec "dispatch" options))).
  2: { intros [f | d] resp ev ev'; [done |]. intros (pre & last & -> & -> & Hx) [Hp Hok]. exists pre, d, ev'. by rewrite <- app_assoc. }
  intros r. apply (wins_bind _ _ (fun _ _ => True) (fun _ resp _ => match r with
    | inr d => parse_response request (Stdout d) = Some resp /\ RespOK resp = true | inl _ => False end)).
  { apply (wins_any _ (fun _ => True)). emits_all ltac:(done). }
  2: auto.
  intros _. apply (wins_bind _ _ _ (fun res resp _ => parse_response request (Stdout res) = Some resp /\ RespOK resp = true) _ (wins_plift _)).
  2: { intros res resp ev ev' [Hr _]. by destruct r; simplify_eq. }
  intros res. apply (wins_bind _ _ _ (fun x resp _ => resp = x /\ RespOK x = true) _ (wins_psome _ _)).
  2: { intros x resp ev ev' [Hx _] [-> Hok]. done. }
  intros x. apply (wins_bind _ _ _ (fun _ resp _ => resp = x) _ (wins_pensure _ _)).
  2: { intros [] resp ev ev' [Hok _] ->. done. }
  intros _. eapply wins_weaken; [apply wins_mret |]. by intros y ev [-> _].
Qed.

Lemma wins_body target request encoded :
  wins (action_body target request encoded) (fun resp ev => answered_in_order (session_options target request) request resp ev).
Proof.
  unfold action_body.
  apply (wins_bind _ _ _ (fun r resp ev => exists b d c, ev = b ++ EExec (session_argv "dispatch" (session_options target request)) (inr d) :: c /\
    ExitCode d = 0 /\ parse_response request (Stdout d) = Some resp /\ RespOK resp = true /\ exists u, r = inr u) _
    (wins_retry _ _ _ (wins_publish _ _ _))).
  2: { intros r resp ev ev' Hr (b & d & c & -> & Hx & Hp & Hok & u & ->). destruct Hr as (pre & last & -> & a & p & -> & Hpx).
       exists (pre ++ a), p, b, d, c. split_and!; [| done..]. by rewrite <- !app_assoc. }
  intros r. assert (wins (match r with inl _ => pfail CompUnavailable | inr _ => mret tt end) (fun _ ev => ev = [] /\ exists u, r = inr u)) as Hm
    by (destruct r; intros tr; exists []; rewrite app_nil_r; eauto).
  apply (wins_bind _ _ _ _ _ Hm (fun _ => wins_dispatch (session_options target request) request)).
  intros u resp ev ev' [-> Hr] (b & d & c & -> & Hx & Hp & Hok). by exists b, d, c.
Qed.

(** The publication dispatches nothing, and the rest is only the dispatch. *)
Lemma publication_no_dispatch options path payload : emits no_dispatch (retryGuestOperation (5 * second) (publish_attempt options path payload)).
Proof. unfold publish_attempt, write_file. emits_all ltac:(done). Qed.

Lemma dispatch_only options request : emits (dispatch_event options) (dispatch_session options request).
Proof. unfold dispatch_session. emits_all ltac:(split; [exact (fun x => x) | done]). Qed.

Lemma body_dispatches target request encoded :
  spec (action_body target request encoded) (fun _ ev => dispatched_when_published (session_options target request) ev).
Proof.
  unfold action_body. set (options := session_options target request).
  apply (spec_bind _ _ (fun r ev => Forall no_dispatch ev /\ match r with inr (inr _) => exists pre last, ev = pre ++ last /\ published_last options last | _ => True end)
    (fun r _ ev => match r with inr _ => Forall (dispatch_event options) ev | inl _ => ev = [] end)).
  - intros tr. eapply wp_mono; [| apply wp_conj; [apply publication_no_dispatch | apply (wins_retry _ _ _ (wins_publish _ _ _))]].
    intros r tr' [(ev & -> & H1) (ev' & Heq & H2)]. apply app_inv_head in Heq as <-. exists ev. split_and!; [done.. |]. by destruct r as [| []].
  - intros [f | u] tr; [by exists []; rewrite app_nil_r |]. apply dispatch_only.
  - intros e ev [Hf _]. by apply published_none.
  - intros [f | u] r ev ev' [Hf Hr].
    + intros ->. rewrite app_nil_r. by apply published_none.
    + intros Hd. destruct Hr as (pre & last & -> & a & p & -> & Hp). rewrite app_assoc, <- app_assoc. cbn [app].
      apply published_then; [| done | done]. rewrite app_assoc in Hf. by apply Forall_app in Hf as [Hf _].
Qed.

(** The cleanup is the last question, whatever the body returned. *)
Lemma spec_finally {A} (body : prog A) options (P : comp_error + A -> list exchange_event -> Prop) : spec body P ->
  spec (finally body (fun _ => sessionCommand "cleanup" options;; mret tt))
    (fun r ev => exists ev0 x, ev = ev0 ++ [EExec (session_argv "cleanup" options) x] /\ P r ev0).
Proof.
  intros Hb tr. unfold finally. apply wp_bind, wp_ptry. eapply wp_mono; [| apply Hb]. intros r tr1 (ev & -> & Hr).
  apply wp_bind, wp_ptry. intros x. cbn [wp mret prog_ret mbind prog_mbind prog_bind].
  assert (forall (c : comp_error + unit), wp (plift r) ((tr ++ ev) ++ [EExec (session_argv "cleanup" options) x])
    (fun r0 tr' => exists ev0, tr' = tr ++ ev0 /\ exists ev1 y, ev0 = ev1 ++ [EExec (session_argv "cleanup" options) y] /\ P r0 ev1)) as Hend.
  { intros _. rewrite <- app_assoc. destruct r; exists (ev ++ [EExec (session_argv "cleanup" options) x]); eauto. }
  destruct (session_answer "cleanup" x); apply (Hend (inr tt)).
Qed.

Lemma action_from_body target request timeout t :
  let request' := with_expiry request (UnixMilli (t + (timeout + 5 * second))) in
  spec (finally (action_body target request' (action_text target request timeout t)) (fun _ => sessionCommand "cleanup" (session_options target request);; mret tt))
    (action_run target request timeout).
Proof.
  intros request'. eapply spec_mono.
  { apply (spec_finally _ _ (fun r ev => Forall (only_writes (inbox_path request) (action_text target request timeout t)) ev /\
      dispatched_when_published (session_options target request) ev /\
      match r with inr resp => answered_in_order (session_options target request) request resp ev | inl _ => True end)).
    intros tr. eapply wp_mono; [| apply wp_conj; [apply (body_writes target request' (action_text target request timeout t)) | apply wp_conj;
      [apply (body_dispatches target request' (action_text target request timeout t)) | apply (wins_body target request' (action_text target request timeout t))]]].
    intros r tr' [(ev & -> & H1) [(ev' & Heq & H2) (ev2 & Heq2 & H3)]]. apply app_inv_head in Heq as <-, Heq2 as <-. by exists ev. }
  intros r ev (ev0 & x & -> & Hw & Hd & Hr). split; [| split; [| split]].
  - exists t. apply Forall_app. by repeat constructor.
  - intros _. by exists ev0, x.
  - apply published_suffix; [by repeat constructor | done].
  - destruct r; [done |]. by apply answered_in_order_suffix.
Qed.

Lemma ExecuteForSession_spec target request timeout :
  spec (ExecuteForSession target request timeout) (fun r ev => action_run target request timeout r ev /\ action_checked target request ev).
Proof.
  assert (forall e ev, Forall inert ev -> action_run target request timeout (inl e) ev /\ action_checked target request ev) as Hfail.
  { intros e ev Hi. split; [by apply action_run_inert |]. intros Hw. by destruct (inert_no_write _ Hi). }
  unfold ExecuteForSession. apply spec_pensure; [by apply Hfail |]. intros Hvalid. b2p. destruct Hvalid as [[Htarget Hsid] _].
  apply spec_now. intros t. apply spec_pensure; [apply Hfail; by repeat constructor |]. intros Hnow.
  assert (forall r ev, action_run target request timeout r ev ->
    action_run target request timeout r (ENow t :: ev) /\ action_checked target request (ENow t :: ev)) as Hstep.
  { intros r ev Hr. split; [apply (action_run_prefix _ _ _ _ [ENow t] ev); [by repeat constructor | done] |]. intros _.
    split_and!; try done. exists t. split; [by left | done]. }
  eapply spec_mono; [| exact Hstep]. apply spec_now. intros t1. eapply spec_mono; [| intros r ev; apply (action_run_prefix _ _ _ _ [ENow t1]); by repeat constructor].
  apply action_after; [apply emits_pensure | intros _]. apply action_after; [apply emits_linux; done | intros _].
  apply spec_now. intros t2. eapply spec_mono; [| intros r ev; apply (action_run_prefix _ _ _ _ [ENow t2]); by repeat constructor].
  apply action_after; [apply emits_pensure | intros _]. apply (action_from_body target request timeout t2).
Qed.


(** ** Programs that end *)
Lemma ends_untimed {A} (p : prog A) : untimed p -> ends p.
Proof. intros Hp. eapply spec_mono; [apply Hp |]. intros r ev [Hr Hev]. split; [by apply no_timer_nonneg | auto]. Qed.

Lemma ends_bind {A B} (p : prog A) (f : A -> prog B) : ends p -> (forall a, ends (f a)) -> ends (p ≫= f).
Proof.
  intros Hp Hf. apply (spec_bind _ _ _ (fun _ r ev => Forall event_nonneg ev /\ forall now, clock_ok now ev -> r <> inl CompStuck) _ Hp Hf).
  - intros e ev [Hd Hr]. split; [done |]. intros now Hc [= ->]. by apply (Hr now Hc).
  - intros a ev r ev' [Hd _] [Hd' Hr]. split; [by apply Forall_app |]. intros now Hc. apply clock_ok_app in Hc as [_ Hc]. by apply (Hr _ Hc).
Qed.

Lemma ends_ptry {A} (p : prog A) : ends p -> ends (ptry p).
Proof. intros Hp tr. apply wp_ptry. eapply wp_mono; [| apply Hp]. intros r tr' (ev & -> & Hd & _). by exists ev. Qed.

(** The error that [ptry] caught is handed on only after it was examined. *)
Lemma ends_finally {A} (body : prog A) cleanup : ends body -> (forall r, untimed (cleanup r)) -> ends (finally body cleanup).
Proof.
  intros Hb Hc tr. unfold finally. apply wp_bind, wp_ptry. eapply wp_mono; [| apply Hb]. intros r tr1 (ev & -> & Hd & Hr).
  apply wp_bind, wp_ptry. eapply wp_mono; [| apply Hc]. intros r' tr2 (ev' & -> & _ & Hn).
  destruct r; cbn; exists (ev ++ ev'); (split; [by rewrite app_assoc |]);
    (split; [apply Forall_app; split; [done | by apply no_timer_nonneg] |]); [| done].
  intros now Hck. apply clock_ok_app in Hck as [Hck _]. specialize (Hr now Hck). by intros [= ->].
Qed.

Lemma untimed_plift {A} (r : comp_error + A) : r <> inl CompStuck -> untimed (plift r).
Proof. intros Hr tr. destruct r; exists []; rewrite app_nil_r; by split_and!. Qed.
Lemma untimed_pfail {A} e : e <> CompStuck -> untimed (pfail e : prog A).
Proof. intros He tr. exists []. rewrite app_nil_r. split_and!; [done | by intros [= ->] | done]. Qed.
Lemma untimed_exec cmd : untimed (exec_ cmd).
Proof. intros tr x. exists [EExec cmd x]. by repeat constructor. Qed.
Lemma untimed_exec_answer cmd : untimed (exec_answer cmd).
Proof. intros tr x. exists [EExec cmd x]. by repeat constructor. Qed.
Lemma untimed_write path payload : untimed (write_file path payload).
Proof. intros tr x. exists [EWrite path payload x]. by repeat constructor. Qed.
Lemma untimed_ask_context {A} c (k : option context_end -> prog A) : (forall x, untimed (k x)) -> untimed (AskContext c k).
Proof. intros Hk tr x. apply spec_ask. eapply spec_mono; [apply Hk |]. intros r ev [Hr Hev]. split; [done | by constructor]. Qed.
Lemma untimed_guestPaths os id : guestPaths os id <> inl CompStuck.
Proof. unfold guestPaths. by repeat case_match. Qed.
Lemma untimed_legacyGuestPaths os id : legacyGuestPaths os id <> inl CompStuck.
Proof. unfold legacyGuestPaths. by repeat case_match. Qed.

Lemma untimed_resolve os id : untimed (resolveGuestPaths os id).
Proof.
  unfold resolveGuestPaths, executableExists. apply untimed_bind; [apply untimed_plift, untimed_guestPaths |]. intros p.
  apply untimed_bind; [apply untimed_bind; [apply untimed_exec | intros; apply untimed_mret] |]. intros [|]; [apply untimed_mret |].
  apply untimed_bind; [apply untimed_plift, untimed_legacyGuestPaths |]. intros q.
  apply untimed_bind; [apply untimed_bind; [apply untimed_exec | intros; apply untimed_mret] |]. intros; apply untimed_mret.
Qed.
#[local] Hint Resolve untimed_exec untimed_exec_answer untimed_write untimed_resolve : untimed.
#[local] Hint Extern 1 (untimed (pfail _)) => (apply untimed_pfail; discriminate) : untimed.

(** Everything but the retries is without a timer. *)
Ltac ending :=
  repeat first
    [ apply ends_untimed; solve [auto with untimed]
    | match goal with
      | |- ends (retryGuestOperation _ _) => apply retry_ends; [done |]
      | |- ends (_ ≫= _) => apply ends_bind; [| intros ?]
      | |- ends (ptry _) => apply ends_ptry
      | |- ends (AskContext _ _) => apply ends_untimed, untimed_ask_context; intros ?
      | |- ends (match ?x with _ => _ end) => destruct x
      | |- ends (if ?x then _ else _) => destruct x
      | |- untimed (_ ≫= _) => apply untimed_bind; [| intros ?]
      | |- untimed (match ?x with _ => _ end) => destruct x
      | |- untimed _ => solve [auto with untimed]
      end ].

Lemma ends_writeAuthority a : ends (writeAuthority a).
Proof. unfold writeAuthority, writeGuestFileAtomically, rename_exec. ending. Qed.

Lemma ends_ActivateAuthority a : ends (ActivateAuthority a).
Proof. unfold ActivateAuthority. apply ends_bind; [ending | intros; apply ends_writeAuthority]. Qed.

Lemma ends_RevokeAuthority legacy a : ends (RevokeAuthority legacy a).
Proof. unfold RevokeAuthority. repeat first [apply ends_writeAuthority | progress ending]. Qed.

#[local] Hint Extern 1 (untimed (plift _)) => (apply untimed_plift; unfold transport_error; by repeat case_match) : untimed.

Lemma ends_Execute request timeout : ends (Execute request timeout).
Proof.
  unfold Execute. repeat first [apply ends_finally; [| intros ?] | progress ending].
Qed.

Lemma ends_ExecuteForSession target request timeout : ends (ExecuteForSession target request timeout).
Proof.
  unfold ExecuteForSession, requireLinuxSession, publish_attempt, dispatch_session, sessionCommand.
  repeat first [apply ends_finally; [| intros ?] | progress ending].
Qed.
End transport.
