(* ===== verification/GuestWindowsProofs.v ===== *)
(** * Replays are identical, everything else is sent once

    An action of the Windows data plane reaches the Guest as at most three
    copies of one text; a change of an account as at most one; and the answer
    that is believed belongs to the request, respectively repeats the intent. *)
From stdpp Require Import base strings list.
From Stdlib Require Import ZArith Lia Ascii.
From S2P Require Import Prelude GoStrings GuestIdentity Auth Db Json Triggers Computer Guest GuestAccount GuestSession ComputerWire GuestTransport GuestWindows GuestSessionProofs GuestTransportProofs.

Local Open Scope string_scope.
Local Open Scope list_scope.
Local Open Scope Z_scope.

(** At most [n] inputs, all of them this one. *)
Definition copies (n : nat) (cmd : list string) (payload : bytes) (ev : list exchange_event) : Prop :=
  (length (written ev) <= n)%nat /\ Forall (fun w => fst w = (cmd, payload)) (written ev).

Definition no_input (x : exchange_event) : Prop := match x with EInput _ _ _ => False | _ => True end.

Lemma no_input_written ev : Forall no_input ev -> written ev = [].
Proof. induction 1 as [| x ev Hx _ IH]; [done |]. destruct x; simpl in *; try done; by rewrite IH. Qed.

Lemma copies_prefix n cmd payload ev ev' : Forall no_input ev -> copies n cmd payload ev' -> copies n cmd payload (ev ++ ev').
Proof. intros Hi H. unfold copies. by rewrite written_app, (no_input_written _ Hi). Qed.
Lemma copies_suffix n cmd payload ev ev' : Forall no_input ev' -> copies n cmd payload ev -> copies n cmd payload (ev ++ ev').
Proof. intros Hi H. unfold copies. by rewrite written_app, (no_input_written _ Hi), app_nil_r. Qed.
Lemma copies_none n cmd payload ev : Forall no_input ev -> copies n cmd payload ev.
Proof. intros Hi. unfold copies. rewrite (no_input_written _ Hi). simpl. split; [lia | done]. Qed.
Lemma copies_S n cmd payload x ev : copies n cmd payload ev -> copies (S n) cmd payload (EInput cmd payload x :: ev).
Proof. intros [Hn Hf]. split; simpl; [lia | by constructor]. Qed.
Lemma copies_le n m cmd payload ev : (n <= m)%nat -> copies n cmd payload ev -> copies m cmd payload ev.
Proof. intros Hle [Hn Hf]. split; [lia | done]. Qed.

(** ** Counting inputs through a program *)
Section sending.
Context (cmd : list string) (payload : bytes).

Definition sends {A} (n : nat) (p : prog A) : Prop := spec p (fun _ ev => copies n cmd payload ev).

Lemma copies_app n m ev ev' : copies n cmd payload ev -> copies m cmd payload ev' -> copies (n + m) cmd payload (ev ++ ev').
Proof. intros [Hn Hf] [Hm Hg]. unfold copies. rewrite written_app, length_app. split; [lia | by apply Forall_app]. Qed.

Lemma sends_le {A} n m (p : prog A) : (n <= m)%nat -> sends n p -> sends m p.
Proof. intros Hle Hp. eapply spec_mono; [apply Hp |]. intros r ev. by apply copies_le. Qed.
Lemma sends_bind {A B} n m (p : prog A) (f : A -> prog B) : sends n p -> (forall a, sends m (f a)) -> sends (n + m) (p ≫= f).
Proof.
  intros Hp Hf. apply (spec_bind _ _ _ (fun _ _ ev => copies m cmd payload ev) _ Hp Hf).
  - intros e ev. apply copies_le. lia.
  - intros a ev r ev'. apply copies_app.
Qed.
Lemma sends_quiet {A} n (p : prog A) : emits no_input p -> sends n p.
Proof. intros Hp. eapply spec_mono; [apply Hp |]. intros r ev. apply copies_none. Qed.
Lemma sends_context {A} n c (k : option context_end -> prog A) : (forall x, sends n (k x)) -> sends n (AskContext c k).
Proof. intros Hk tr x. apply spec_ask. eapply spec_mono; [apply Hk |]. intros r ev. apply (copies_prefix _ _ _ [_]). by repeat constructor. Qed.
Lemma sends_timer {A} n d (k : option context_end -> prog A) : (forall x, sends n (k x)) -> sends n (AskTimer d k).
Proof. intros Hk tr x. apply spec_ask. eapply spec_mono; [apply Hk |]. intros r ev. apply (copies_prefix _ _ _ [_]). by repeat constructor. Qed.
Lemma sends_input {A} n (k : guest_answer -> prog A) : (forall x, sends n (k x)) -> sends (S n) (AskInput cmd payload k).
Proof. intros Hk tr x. apply spec_ask. eapply spec_mono; [apply Hk |]. intros r ev. apply copies_S. Qed.
End sending.

Section windows.
Context `{UnicodeLower} (has_input : bool) (binary : string).

Lemma emits_observe n send : emits no_input send -> emits no_input (observe n send).
Proof.
  intros Hs. induction n as [| n IH]; cbn [observe]; repeat first [exact Hs | exact IH | progress emitting ltac:(done)].
Qed.

Lemma sends_input_answer cmd payload : sends cmd payload 1 (input_answer has_input cmd payload).
Proof. unfold input_answer. destruct has_input; [apply sends_input; intros x |]; apply sends_quiet, emits_mret. Qed.

(** A loop whose sender writes one input sends copies of it. *)
Lemma observe_copies n cmd payload : sends cmd payload (S n) (observe (S n) (input_answer has_input cmd payload)).
Proof.
  induction n as [| n IH]; cbn [observe]; apply sends_context; (intros [c |]; [apply sends_quiet, emits_mret |]).
  - apply (sends_bind _ _ 1 0); [apply sends_input_answer |]. intros r. apply sends_quiet. emitting ltac:(done).
  - apply (sends_bind _ _ 1 (S n)); [apply sends_input_answer |]. intros r. do 2 (apply sends_context; intros ?).
    destruct x0; [apply sends_quiet, emits_mret |]. destruct r as [f | res]; [| apply sends_quiet, emits_mret].
    destruct (negb _); [apply sends_quiet, emits_mret |]. apply sends_timer. intros [c |]; [apply sends_quiet, emits_mret | exact IH].
Qed.

Lemma emits_windows_read operation options : emits no_input (windows_command has_input binary operation None options).
Proof.
  unfold windows_command, exec_answer, readWindowsGuestResult. apply emits_bind; [| intros ?; emitting ltac:(done)].
  destruct (_ && _); [apply emits_observe |]; emitting ltac:(done).
Qed.

Lemma emits_probe : emits no_input (probe has_input binary).
Proof. unfold probe, config_. emitting ltac:(done). apply emits_windows_read. Qed.

(** ** An action *)
Definition windows_action_argv (target : SessionTarget) (request : ActionRequest) : list string :=
  [binary; "computer-v2-dispatch"; "--guest-user"; TargetUsername target; "--request-id"; RequestID request].

(** What was written, and what the answer that is returned stands on. *)
Definition windows_action_run (target : SessionTarget) (request : ActionRequest) (timeout : nanos) (r : comp_error + Response)
    (ev : list exchange_event) : Prop :=
  let argv := windows_action_argv target request in
  match MarshalGuestJSON (bound_action_json target (timeout / millisecond) request) with
  | None => written ev = []
  | Some payload => copies 3 argv payload ev
  end /\
  match r with
  | inr resp => exists payload res, In (argv, payload, inr res) (written ev) /\ ExitCode res = 0 /\ parse_windows_response request (Stdout res) = Some resp
  | inl _ => True
  end.

Lemma windows_run_idle target request timeout e ev : Forall no_input ev -> windows_action_run target request timeout (inl e) ev.
Proof.
  intros Hi. split; [| done]. destruct (MarshalGuestJSON _); [by apply copies_none | by apply no_input_written].
Qed.

Lemma windows_run_prefix target request timeout r ev ev' :
  Forall no_input ev -> windows_action_run target request timeout r ev' -> windows_action_run target request timeout r (ev ++ ev').
Proof.
  intros Hi [Hw Hr]. unfold windows_action_run, copies. rewrite written_app, (no_input_written _ Hi). by split.
Qed.

Lemma windows_after {A} (p : prog A) (f : A -> prog Response) target request timeout :
  emits no_input p -> (forall a, spec (f a) (windows_action_run target request timeout)) -> spec (p ≫= f) (windows_action_run target request timeout).
Proof.
  intros Hp Hf. apply (spec_bind _ _ _ (fun _ => windows_action_run target request timeout) _ Hp Hf).
  - intros e ev. apply windows_run_idle.
  - intros a ev r ev'. apply windows_run_prefix.
Qed.

(** An answer that a loop returns was given to one of its inputs. *)
Definition answered_input (cmd : list string) (payload : bytes) (r : guest_answer) (ev : list exchange_event) : Prop :=
  match r with inr res => In (cmd, payload, inr res) (written ev) | inl _ => True end.

Lemma answered_input_r cmd payload r ev ev' : answered_input cmd payload r ev' -> answered_input cmd payload r (ev ++ ev').
Proof. destruct r; [done |]. simpl. rewrite written_app, in_app_iff. auto. Qed.
Lemma answered_input_l cmd payload r ev ev' : answered_input cmd payload r ev -> answered_input cmd payload r (ev ++ ev').
Proof. destruct r; [done |]. simpl. rewrite written_app, in_app_iff. auto. Qed.

Lemma wins_context {A} c (k : option context_end -> prog A) (P : A -> list exchange_event -> Prop) :
  (forall a ev ev', P a ev' -> P a (ev ++ ev')) -> (forall x, wins (k x) P) -> wins (AskContext c k) P.
Proof. intros HP Hk tr x. apply spec_ask. eapply spec_mono; [apply Hk |]. intros [e | a] ev; [done |]. apply (HP a [EContext c x]). Qed.
Lemma wins_timer {A} d (k : option context_end -> prog A) (P : A -> list exchange_event -> Prop) :
  (forall a ev ev', P a ev' -> P a (ev ++ ev')) -> (forall x, wins (k x) P) -> wins (AskTimer d k) P.
Proof. intros HP Hk tr x. apply spec_ask. eapply spec_mono; [apply Hk |]. intros [e | a] ev; [done |]. apply (HP a [ETimer d x]). Qed.

Lemma wins_input_answer cmd payload : wins (input_answer has_input cmd payload) (answered_input cmd payload).
Proof.
  unfold input_answer. destruct has_input; intros tr; [intros x; exists [EInput cmd payload x]; split; [done |]; destruct x; [done | by left] |].
  exists []. by rewrite app_nil_r.
Qed.

Lemma wins_failure cmd payload f : wins (mret (inl f) : prog guest_answer) (answered_input cmd payload).
Proof. intros tr. exists []. by rewrite app_nil_r. Qed.

Lemma observe_answered n cmd payload : wins (observe n (input_answer has_input cmd payload)) (answered_input cmd payload).
Proof.
  pose proof (fun r ev ev' => answered_input_r cmd payload r ev ev') as Hr.
  induction n as [| n IH]; cbn [observe]; apply wins_context; try done; (intros [c |]; [apply wins_failure |]);
    apply (wins_bind _ _ _ (fun r r' ev => r' = r \/ answered_input cmd payload r' ev) _ (wins_input_answer cmd payload));
    try (intros r r' ev ev' H1 [-> | H2]; [by apply answered_input_l | by apply answered_input_r]);
    intros r; do 2 (apply wins_context; [intros ? ? ? [-> | H2]; [by left | right; by apply answered_input_r] | intros ?]);
    (destruct x0; [eapply wins_weaken; [apply wins_mret | intros ? ? [-> ->]; by right] |]);
    (destruct r as [f | res]; [| eapply wins_weaken; [apply wins_mret | intros ? ? [-> ->]; by left]]).
  - eapply wins_weaken; [apply wins_mret | intros ? ? [-> ->]; by left].
  - destruct n as [| n]; [eapply wins_weaken; [apply wins_mret | intros ? ? [-> ->]; by left] |].
    destruct (negb _); [eapply wins_weaken; [apply wins_mret | intros ? ? [-> ->]; by left] |].
    apply wins_timer; [intros ? ? ? [-> | H2]; [by left | right; by apply answered_input_r] |].
    intros [c |]; [eapply wins_weaken; [apply wins_mret | intros ? ? [-> ->]; by right] |].
    eapply wins_weaken; [apply IH | auto].
Qed.

Lemma emits_explained : emits no_input (explained (probe has_input binary)).
Proof. unfold explained. apply emits_bind; [apply emits_ptry, emits_probe | intros ?; emitting ltac:(done)]. Qed.

(** From the replay to the result. *)
Definition windows_tail (request : ActionRequest) (r : guest_answer) : prog Response :=
  (match r with
   | inl (MkFailure (Some DeadlineExceeded) _) => pfail CompTimeout
   | _ => now ← now_; pensure (UnixMilli now <? ExpiresUnixMS request) CompTimeout
   end);;
  AskContext WholeContext alive;;
  result ← psome (success r) CompUnavailable;
  pensure (ExitCode result =? 0) CompUnavailable;;
  psome (parse_windows_response request (Stdout result)) CompUnavailable.

Lemma emits_windows_tail request r : emits no_input (windows_tail request r).
Proof. unfold windows_tail, alive, now_. emitting ltac:(done). Qed.

Lemma wins_windows_tail request r : wins (windows_tail request r) (fun resp _ => exists res, r = inr res /\ ExitCode res = 0 /\
  parse_windows_response request (Stdout res) = Some resp).
Proof.
  unfold windows_tail. apply (wins_bind _ _ (fun _ _ => True) (fun _ resp _ => exists res, r = inr res /\ ExitCode res = 0 /\
    parse_windows_response request (Stdout res) = Some resp)); [| | done].
  { apply (wins_any _ no_input). unfold now_. emitting ltac:(done). }
  intros _. apply (wins_bind _ _ (fun _ _ => True) (fun _ resp _ => exists res, r = inr res /\ ExitCode res = 0 /\
    parse_windows_response request (Stdout res) = Some resp)); [| | done].
  { apply (wins_any _ no_input). unfold alive. emitting ltac:(done). }
  intros _. apply (wins_bind _ _ _ (fun res resp _ => ExitCode res = 0 /\ parse_windows_response request (Stdout res) = Some resp) _ (wins_psome _ _)).
  2: { intros res resp ev ev' [Hs _] [Hx Hp]. exists res. destruct r; [done |]. by injection Hs as ->. }
  intros res. apply (wins_bind _ _ _ (fun _ resp _ => parse_windows_response request (Stdout res) = Some resp) _ (wins_pensure _ _)).
  2: { intros [] resp ev ev' [Hx _] Hp. by b2p. }
  intros _. eapply wins_weaken; [apply wins_psome |]. by intros resp ev [Hp _].
Qed.

Definition windows_replay (target : SessionTarget) (request : ActionRequest) (timeout : nanos) : prog guest_answer :=
  replayBoundWindowsAction target (timeout / millisecond) request (windows_dispatch has_input binary target request).

Lemma windows_replay_spec target request timeout :
  let argv := windows_action_argv target request in
  let text := MarshalGuestJSON (bound_action_json target (timeout / millisecond) request) in
  spec (windows_replay target request timeout) (fun r ev =>
    match text with Some payload => copies 3 argv payload ev | None => written ev = [] end /\
    match r with inr a => exists payload, answered_input argv payload a ev | inl _ => True end).
Proof.
  intros argv text. assert (forall ev a, Forall no_input ev -> a = replay_error ->
    match text with Some payload => copies 3 argv payload ev | None => written ev = [] end /\ exists payload, answered_input argv payload a ev) as Hidle.
  { intros ev a Hi ->. split; [destruct text; [by apply copies_none | by apply no_input_written] | by exists ""]. }
  assert (forall a tr, a = replay_error -> wp (mret a : prog guest_answer) tr (fun r tr' => exists ev, tr' = tr ++ ev /\
    match text with Some payload => copies 3 argv payload ev | None => written ev = [] end /\
    match r with inr a => exists payload, answered_input argv payload a ev | inl _ => True end)) as Hstop.
  { intros a tr Ha. exists []. rewrite app_nil_r. split; [done |]. by apply Hidle. }
  unfold windows_replay, replayBoundWindowsAction. destruct (_ || _ || _); [intros tr; by apply Hstop |].
  apply spec_now. intros t. destruct (negb (Validate t request)); [intros tr; exists []; rewrite app_nil_r; split; [done | by apply Hidle; repeat constructor] |].
  fold text. destruct text as [payload |]; [| intros tr; exists []; rewrite app_nil_r; split; [done | by apply Hidle; repeat constructor]].
  destruct (65536 <? slen payload); [intros tr; exists []; rewrite app_nil_r; split; [done | by apply Hidle; repeat constructor] |].
  intros tr. eapply wp_mono; [| apply wp_conj; [apply (observe_copies 2 argv payload) | apply (observe_answered 3 argv payload)]].
  intros r tr' [(ev & -> & Hc) (ev' & Heq & Ha)]. apply app_inv_head in Heq as <-. exists ev. split; [done |].
  split; [by apply (copies_prefix _ _ _ [ENow t]); [repeat constructor |] |]. destruct r as [e | a]; [done |].
  exists payload. by apply (answered_input_r _ _ _ [ENow t]).
Qed.

Lemma WindowsExecuteForSession_spec target request timeout :
  spec (WindowsExecuteForSession has_input binary target request timeout) (windows_action_run target request timeout).
Proof.
  unfold WindowsExecuteForSession, now_. do 5 (apply windows_after; [emitting ltac:(done) | intros ?]).
  apply windows_after; [apply emits_explained | intros _]. fold (windows_replay target request timeout).
  apply (spec_bind _ _ _ (fun r resp ev => Forall no_input ev /\ match resp with
    | inr resp => exists res, r = inr res /\ ExitCode res = 0 /\ parse_windows_response request (Stdout res) = Some resp | inl _ => True end) _
    (windows_replay_spec target request timeout)).
  - intros r. fold (windows_tail request r). intros tr. eapply wp_mono; [| apply wp_conj; [apply (emits_windows_tail request r) | apply (wins_windows_tail request r)]].
    intros r' tr' [(ev & -> & Hi) (ev' & Heq & Hw)]. apply app_inv_head in Heq as <-. by exists ev.
  - intros e ev [Hc _]. by split.
  - intros r ev resp ev' [Hc Ha] [Hi Hr]. split.
    + destruct (MarshalGuestJSON _); [by apply copies_suffix | by rewrite written_app, Hc, (no_input_written _ Hi)].
    + destruct resp as [e | resp]; [done |]. destruct Hr as (res & -> & Hx & Hp), Ha as (payload & Hin). exists payload, res.
      split; [| exact (conj Hx Hp)]. rewrite written_app. apply in_app_iff. by left.
Qed.

(** ** An account *)
Lemma windows_write_here {A} operation text options (f : GuestExecResult -> prog A) (good : string -> Prop) after :
  (forall res, reads (f res) (fun a ev => good (Stdout res) /\ after a ev)) ->
  spec (windows_command has_input binary operation (Some text) options ≫= f)
    (one_write ([binary; "computer-v2-" +:+ operation] ++ options) (Some text) good after).
Proof.
  intros Hf tr. apply wp_bind. unfold windows_command. cbn [andb]. apply wp_bind. intros ended.
  destruct ended as [c |]; [exists [EContext WholeContext (Some c)]; split; [done | split; [simpl; lia | done]] |].
  unfold input_answer. destruct has_input; [| exists [EContext WholeContext None]; split; [done | split; [simpl; lia | done]]].
  intros [f0 | res]; cbn; [exists [EContext WholeContext None; EInput ([binary; "computer-v2-" +:+ operation] ++ options) text (inl f0)];
    split; [by rewrite <- !app_assoc | split; [simpl; lia | done]] |].
  destruct (ExitCode res =? 0) eqn:Hx; cbn; [| exists [EContext WholeContext None; EInput ([binary; "computer-v2-" +:+ operation] ++ options) text (inr res)];
    split; [by rewrite <- !app_assoc | split; [simpl; lia | done]]].
  eapply wp_mono; [| apply Hf]. intros r tr' (ev & -> & Hw & Hend).
  exists ([EContext WholeContext None] ++ EInput ([binary; "computer-v2-" +:+ operation] ++ options) text (inr res) :: ev).
  split; [by rewrite <- !app_assoc |]. apply (one_write_prefix _ _ _ _ _ [EContext WholeContext None]); [done |].
  split; [simpl; by rewrite Hw |]. destruct r as [e | a]; [done |]. b2p. by exists [], text, res, ev.
Qed.

Lemma quiet_probe : quiet (probe has_input binary).
Proof.
  eapply spec_mono; [apply emits_probe |]. intros r ev Hi. rewrite (no_input_written _ Hi). by destruct r.
Qed.

Definition windows_intent (desired : AccountLease) (operation : string) : AccountLease := lease_phase desired (default "" (windows_phase operation)).

Lemma ChangeWindowsAccountLease_spec desired operation password :
  let c := windows_intent desired operation in
  spec (ChangeWindowsAccountLease has_input binary desired operation password)
    (one_write ([binary; "computer-v2-account-lease"; "--guest-user"; IdUsername (LeaseIdentity c)]) (MarshalGuestJSON (lease_json c operation password))
      (fun raw => parseAccountLease raw "windows" = Some c) (fun receipt _ => receipt = c)).
Proof.
  intros c. unfold ChangeWindowsAccountLease.
  apply (one_write_after _ _ _ _ _ _ _ (reads_psome _ _)). intros phase ev [Hphase _].
  assert (c = lease_phase desired phase) as Hc by (subst c; unfold windows_intent; by rewrite Hphase). clearbody c. subst c.
  do 3 (apply (one_write_after _ _ _ _ _ _ _ (quiet_pensure _ _)); intros _ ? _).
  apply (one_write_after _ _ anything); [destruct (operation == "revoke"); [apply quiet_mret | apply quiet_fresh] |]; intros _ ? _.
  apply (one_write_after _ _ _ _ _ _ _ (reads_psome _ _)). intros text ? [Htext _]. rewrite Htext.
  apply (one_write_after _ _ _ _ _ _ _ (quiet_pensure _ _)); intros _ ? _.
  apply (one_write_after _ _ _ _ _ _ _ quiet_probe); intros _ ? _.
  apply (windows_write_here "account-lease" text ["--guest-user"; IdUsername (LeaseIdentity (lease_phase desired phase))]). intros res.
  apply (reads_confirmed_lease res "windows" (lease_phase desired phase)).
Qed.
End windows.
