(* ===== verification/GuestConfirmed.v ===== *)
(** * What a Guest change guarantees

    Over every behaviour of the Guest, the clock and the context: a change of
    an account sends at most one input and reports success only when the Guest
    acknowledged exactly that intent and an observation made afterwards
    confirms it; starting the session of an agent always ends.  The witnesses
    run the programs against a scripted Guest. *)
From stdpp Require Import base strings list.
From Stdlib Require Import ZArith Lia Ascii.
From S2P Require Import Prelude GoStrings GuestIdentity Auth Db Json Triggers Computer Guest GuestAccount GuestSession ComputerWire GuestTransport GuestWindows GuestSessionProofs GuestTransportProofs GuestWindowsProofs.

Local Open Scope string_scope.
Local Open Scope list_scope.
Local Open Scope Z_scope.

Lemma spec_run {S A} (e : environment S) (p : prog A) s P r s' tr : spec p P -> run_prog e p s [] = (r, s', tr) -> P r tr.
Proof. intros Hp Hr. pose proof (wp_sound e p s [] _ (Hp [])) as H. rewrite Hr in H. by destruct H as (ev & -> & H). Qed.

Lemma StartAgentSession_spec has_input lease :
  spec (StartAgentSession has_input lease) (fun r ev => forall start, clock_ok start ev -> r <> inl CompStuck).
Proof.
  intros tr random. apply wp_bind, wp_psome. destruct random as [random |]; [| by exists [ERandom None]].
  apply wp_bind. eapply wp_mono; [| apply untimed_changeLinuxAccount]. intros r tr' (ev & -> & Hr & Hev).
  destruct r as [er | receipt]; [exists (ERandom (Some random) :: ev); split; [by rewrite <- app_assoc | intros _ _ [= ->]; by apply Hr] |].
  apply wp_bind. intros t. cbn [wp mret prog_ret].
  eapply wp_mono; [| apply (loop_ends poll_rounds _ (t + 20 * second) (250 * millisecond)); [by vm_compute; lia | done | apply poll_round_spec]].
  intros r tr'' (ev' & -> & Hd & Hend). exists ((ERandom (Some random) :: ev) ++ [ENow t] ++ ev').
  split; [by rewrite <- !app_assoc |]. intros start Hc.
  apply clock_ok_app in Hc as [_ [_ Hc]]. apply (Hend t Hc). unfold poll_rounds, second, millisecond. lia.
Qed.

(** ** The claims *)

(** (C37) A credential change over any Guest: at most one input is ever sent,
    and success means that the Guest accepted exactly the encoded intent,
    returned a receipt equal to it, and that an inspection made after the
    write shows this revision - with no process and no login writer left when
    the credential was revoked, retained until its expiry otherwise. *)
Theorem native_credential_confirmed {S} (e : environment S) s has_input desired operation password r s' tr
    (Hrun : run_prog e (ChangeNativeCredential has_input desired operation password) s [] = (r, s', tr)) :
  let c := cred_phase desired (wanted_phase operation) in
  one_write (credential_argv (IdUsername (CredIdentity c))) (credential_input c operation password)
    (fun raw => parseNativeCredential raw "linux" = Some c) (fun (_ : unit) post => credential_confirmed c (operation == "revoke") post) r tr.
Proof. exact (spec_run _ _ _ _ _ _ _ (ChangeNativeCredential_spec has_input desired operation password) Hrun). Qed.

(** Stopping the login of an agent: at most one input, and success means
    that the Guest acknowledged the revoked lease and that a later inspection
    shows this lease as revoked, the account disabled, no process and no login
    writer. *)
Theorem agent_login_ended {S} (e : environment S) s has_input lease r s' tr
    (Hrun : run_prog e (StopAgentSession has_input lease) s [] = (r, s', tr)) :
  one_write (account_argv false (IdUsername (LeaseIdentity lease))) (account_input (lease_expires lease 0) false "")
    (fun raw => parseAccountLease raw "linux" = Some (account_intent (lease_expires lease 0) false))
    (fun (_ : unit) post => login_ended (lease_expires lease 0) post) r tr.
Proof. exact (spec_run _ _ _ _ _ _ _ (StopAgentSession_spec has_input lease) Hrun). Qed.

(** ** A scripted Guest *)
Section Script.
Context (observation receipt : json).

Definition script_capabilities : json :=
  JObj [("schema_version", JNum "2"); ("authority_transport", JStr authorityTransport); ("experimental_account_fence", JStr accountFenceTransport);
    ("login_birth_fence", JStr loginBirthFence); ("native_account_fence", JStr nativeAccountFence); ("native_login_birth_fence", JStr nativeLoginBirthFence)].

Definition answer (ok : bool) (v : json) : guest_answer := inr (MkExecResult (if ok then 0 else 1) (json_print v) "").

(** The state is the time, a timer lets its duration pass. *)
Definition script : environment nanos := MkEnvironment
  (fun s => (Some "l26", s))
  (fun cmd s => (match cmd with
                 | [_; "computer-v2-capabilities"] => answer true script_capabilities
                 | _ :: "computer-v2-session" :: _ => answer false JNull
                 | _ => answer true observation
                 end, s))
  (fun _ _ s => (answer true receipt, s))
  (fun _ _ s => (None, s))
  (fun s => (s, s))
  (fun _ s => (None, s))
  (fun n s => (Some (byte_string (repeat 65 n)), s))
  (fun d s => (None, s + d)).
End Script.

Definition script_person : AccountIdentity := MkIdentity "vcw0123456789ab" 1001 "".
Definition script_agent : AccountIdentity := MkIdentity "vca0123456789ab" 1001 "".
Definition script_credential : NativeCredential := MkNativeCredential 1 script_person "conn_aaaaaaaa" 3 0 "".
Definition script_lease (expires : Z) : AccountLease := MkAccountLease 1 script_agent "lease_1" 7 2 expires "".

Definition credential_receipt (c : NativeCredential) : json :=
  JObj [("schema_version", JNum "1"); ("identity", identity_json (CredIdentity c)); ("connection_id", JStr (CredConnectionID c));
    ("revision", JNum (itoa (CredRevision c))); ("expires_unix_seconds", JNum (itoa (CredExpiresUnixSeconds c))); ("phase", JStr (CredPhase c))].
Definition lease_receipt (l : AccountLease) : json :=
  JObj [("schema_version", JNum "1"); ("identity", identity_json (LeaseIdentity l)); ("lease_id", JStr (LeaseLeaseID l));
    ("control_epoch", JNum (itoa (LeaseControlEpoch l))); ("login_generation", JNum (itoa (LeaseLoginGeneration l)));
    ("expires_unix_seconds", JNum (itoa (LeaseExpiresUnixSeconds l))); ("phase", JStr (LeasePhase l))].
Definition closed_account : json := JObj [("exists", JBool true); ("disabled", JBool true); ("expiry_day", JNum "1")].

Definition person_closed : json :=
  JObj [("schema_version", JNum "1"); ("identity", identity_json script_person); ("account", closed_account); ("processes_absent", JBool true);
    ("login_writers_absent", JBool true); ("lifecycle", credential_receipt (cred_phase script_credential "revoked"))].
Definition agent_closed : json :=
  JObj [("schema_version", JNum "1"); ("username", JStr "vca0123456789ab"); ("identity", identity_json script_agent); ("account", closed_account);
    ("processes_absent", JBool true); ("login_writers_absent", JBool true); ("lifecycle", lease_receipt (lease_phase (script_lease 0) "revoked"))].

Definition person_script : environment nanos := script person_closed (credential_receipt (cred_phase script_credential "revoked")).
Definition agent_script : environment nanos := script agent_closed (lease_receipt (lease_phase (script_lease 0) "revoked")).

Lemma native_credential_confirmed_witness :
  let c := cred_phase script_credential "revoked" in
  exists tr, run_prog person_script (ChangeNativeCredential true script_credential "revoke" "") 0 [] = (inr tt, 0, tr) /\
    one_write (credential_argv "vcw0123456789ab") (credential_input c "revoke" "")
      (fun raw => parseNativeCredential raw "linux" = Some c) (fun (_ : unit) post => credential_confirmed c true post) (inr tt) tr.
Proof.
  eexists. split; [vm_compute; reflexivity |].
  apply (native_credential_confirmed person_script 0 true script_credential "revoke" "" (inr tt) 0). vm_compute; reflexivity.
Defined.

Lemma agent_login_ended_witness :
  exists tr, run_prog agent_script (StopAgentSession true (script_lease 3600)) 0 [] = (inr tt, 0, tr) /\
    one_write (account_argv false "vca0123456789ab") (account_input (script_lease 0) false "")
      (fun raw => parseAccountLease raw "linux" = Some (account_intent (script_lease 0) false))
      (fun (_ : unit) post => login_ended (script_lease 0) post) (inr tt) tr.
Proof.
  eexists. split; [vm_compute; reflexivity |].
  apply (agent_login_ended agent_script 0 true (script_lease 3600) (inr tt) 0). vm_compute; reflexivity.
Defined.

(** * Waiting for a login to close ([awaitAgentLoginExit])

    An agent whose session is gone may log in again only when the Guest shows
    the same sealed login without processes and without pending writers. *)

(** [uint64((seconds+86399)/86400)] *)
Definition expiry_day (seconds : Z) : Z := Z.quot (seconds + 86399) 86400 mod 2 ^ 64.

(** The observation still binds the sealed generation of a login whose
    processes are gone. *)
Definition login_closing (intent : AccountLease) (o : LinuxAccountObservation) : bool :=
  LoExists o && linux_matches o intent "sealed" && negb (LoDisabled o) && (LoExpiryDay o == Some (expiry_day (LeaseExpiresUnixSeconds intent))).

(** What the last observation says: whether the writers are gone too.  The
    context ends fifteen seconds after the call, which the clock shows. *)
Definition exit_check (intent : AccountLease) (deadline : nanos) (o : LinuxAccountObservation) : prog bool :=
  context_;;
  now ← now_;
  pensure (now <? deadline) (CompContext DeadlineExceeded);;
  pensure (login_closing intent o) CompUnavailable;;
  now ← now_;
  pensure ((Unix now <? LeaseExpiresUnixSeconds intent) && (LoProcessesAbsent o == Some true)) CompUnavailable;;
  psome (LoLoginWritersAbsent o) CompUnavailable.

(** One round: the last observation decides, or a wait and a new one. *)
Definition exit_round (intent : AccountLease) (deadline : nanos) (o : LinuxAccountObservation) : prog (option LinuxAccountObservation) :=
  writers_absent ← exit_check intent deadline o;
  if writers_absent : bool then mret None
  else
    timer_ (250 * millisecond);;
    o ← InspectAgentAccount (IdUsername (LeaseIdentity intent));
    mret (Some o).

Fixpoint await_rounds (rounds : nat) (intent : AccountLease) (deadline : nanos) (o : LinuxAccountObservation) : prog unit :=
  match rounds with
  | O => pfail CompStuck
  | S rounds' =>
      r ← exit_round intent deadline o;
      match r with None => mret tt | Some o' => await_rounds rounds' intent deadline o' end
  end.

(** Fifteen seconds are at most sixty waits. *)
Definition awaitAgentLoginExit (intent : AccountLease) (o : LinuxAccountObservation) : prog unit :=
  start ← now_;
  await_rounds 61 intent (start + 15 * second) o.

(** ** The wait ends *)
Lemma untimed_InspectAgentAccount username : untimed (InspectAgentAccount username).
Proof. unfold InspectAgentAccount, requireAccountFence, requireLinuxSession, sessionCommand. untimedly. Qed.

Lemma untimed_wp {A} (p : prog A) tr : untimed p ->
  wp p tr (fun r tr' => exists ev, tr' = tr ++ ev /\ r <> inl CompStuck /\ Forall no_timer ev).
Proof. intros Hp. apply Hp. Qed.

Lemma untimed_exit_check intent deadline o : untimed (exit_check intent deadline o).
Proof. unfold exit_check. untimedly. Qed.

Lemma exit_check_spec intent deadline o : spec (exit_check intent deadline o)
  (fun r ev => forall b, r = inr b -> exists t ev', ev = EContext WholeContext None :: ENow t :: ev' /\ t < deadline).
Proof.
  intros tr. apply wp_bind. intros [c |]; [by exists [EContext WholeContext (Some c)] |]. cbn [wp alive mret prog_ret].
  apply wp_bind. intros t. cbn [wp mret prog_ret]. apply wp_bind, wp_pensure.
  destruct (Z.ltb_spec t deadline) as [Ht | Ht]; [| exists [EContext WholeContext None; ENow t]; by rewrite <- app_assoc].
  eapply wp_mono; [| apply untimed_wp; untimedly].
  intros r tr' (ev & -> & _). exists (EContext WholeContext None :: ENow t :: ev). rewrite <- !app_assoc. split; [done |]. intros b _. by exists t, ev.
Qed.

(** A round that goes again read a clock before the deadline and let [d] pass. *)
Definition goes_again {A} (deadline d : nanos) (r : comp_error + option A) (ev : list exchange_event) : Prop :=
  Forall event_nonneg ev /\ r <> inl CompStuck /\
  forall a, r = inr (Some a) -> forall now, clock_ok now ev -> now < deadline /\ now + d <= clock_after now ev.

Lemma wait_spec intent : spec (timer_ (250 * millisecond);; o ← InspectAgentAccount (IdUsername (LeaseIdentity intent)); mret (Some o))
  (fun r ev => Forall event_nonneg ev /\ r <> inl CompStuck /\ forall a, r = inr (Some a) -> forall now, clock_ok now ev -> now + 250 * millisecond <= clock_after now ev).
Proof.
  intros tr. apply wp_bind. intros [c |]; [exists [ETimer (250 * millisecond) (Some c)]; by split_and!; [| repeat constructor | |] |]. cbn [wp alive mret prog_ret].
  eapply wp_mono; [| apply untimed_wp, untimed_bind; [apply untimed_InspectAgentAccount | auto with untimed]].
  intros r tr' (ev & -> & Hr & Hev). apply no_timer_nonneg in Hev. exists (ETimer (250 * millisecond) None :: ev). rewrite <- app_assoc.
  split_and!; [done | by constructor | done |]. intros a _ now Hc. simpl in *. by apply (clock_after_ge (now + 250 * millisecond)).
Qed.

Lemma exit_round_spec intent deadline o : spec (exit_round intent deadline o) (goes_again deadline (250 * millisecond)).
Proof.
  unfold exit_round.
  apply (spec_bind _ _ (fun r ev => (r <> inl CompStuck /\ Forall no_timer ev) /\ forall b, r = inr b -> exists t ev', ev = EContext WholeContext None :: ENow t :: ev' /\ t < deadline)
    (fun _ r ev => Forall event_nonneg ev /\ r <> inl CompStuck /\ forall a, r = inr (Some a) -> forall now, clock_ok now ev -> now + 250 * millisecond <= clock_after now ev)).
  - intros tr. eapply wp_mono; [| exact (wp_conj _ _ _ _ (untimed_exit_check intent deadline o tr) (exit_check_spec intent deadline o tr))].
    intros r tr' [(ev & -> & H1) (ev' & E & H2)]. apply app_inv_head in E as <-. by exists ev.
  - intros []; [| apply wait_spec]. intros tr. exists []. by rewrite app_nil_r.
  - intros e ev [[He Hev] _]. split_and!; [by apply no_timer_nonneg | by intros [= ->] | done].
  - intros b ev r ev' [[_ Hev] Hb] (Hev' & Hr & Hw). apply no_timer_nonneg in Hev. split_and!; [by apply Forall_app | done |].
    intros a Ha now Hc. apply clock_ok_app in Hc as [Hc Hc']. specialize (Hw a Ha _ Hc'). rewrite clock_after_app.
    pose proof (clock_after_ge _ _ Hev Hc). destruct (Hb b eq_refl) as (t & ev1 & -> & Ht). simpl in Hc. lia.
Qed.

Lemma await_rounds_ends rounds intent deadline o : (0 < rounds)%nat ->
  spec (await_rounds rounds intent deadline o) (loop_ended rounds deadline (250 * millisecond)).
Proof.
  revert o. induction rounds as [| rounds IH]; intros o Hn tr; [lia |]. cbn [await_rounds]. apply wp_bind.
  eapply wp_mono; [| apply exit_round_spec].
  intros [e | [o' |]] tr1 (ev1 & -> & Hev1 & Hs & Hp); [exists ev1; split; [done | split; [done |]]; intros _ _ _ [= ->]; by apply Hs | | exists ev1; by split; [| split]].
  specialize (Hp o' eq_refl). destruct (decide (rounds = 0%nat)) as [-> | Hnz].
  { exists ev1. split; [done | split; [done |]]. intros now Hc Hdl. destruct (Hp _ Hc). lia. }
  eapply wp_mono; [| apply IH; lia]. intros r tr2 (ev2 & -> & Hd2 & Hr). exists (ev1 ++ ev2). rewrite app_assoc.
  split; [done | split; [by apply Forall_app |]]. intros now Hc Hdl. apply clock_ok_app in Hc as [Hc Hc2]. destruct (Hp _ Hc).
  apply (Hr _ Hc2). lia.
Qed.

Lemma awaitAgentLoginExit_spec intent o :
  spec (awaitAgentLoginExit intent o) (fun r ev => forall start, clock_ok start ev -> r <> inl CompStuck).
Proof.
  intros tr. apply wp_bind. intros t. cbn [wp mret prog_ret]. eapply wp_mono; [| apply await_rounds_ends; lia].
  intros r tr' (ev & -> & _ & Hr). exists (ENow t :: ev). rewrite <- app_assoc. split; [done |]. intros start [_ Hc]. apply (Hr t Hc).
  unfold second, millisecond. lia.
Qed.

(** * What an action in a Guest guarantees

    The claims about the data plane: one immutable request per action on
    Linux, identical bounded replays on Windows, and an end to every wait. *)
(** Under a clock that does not go back and timers that let their time pass,
    a program does not run out of rounds. *)
Definition comes_to_an_end {A} (p : prog A) : Prop :=
  forall (S : Type) (e : environment S) s r s' tr start, run_prog e p s [] = (r, s', tr) -> clock_ok start tr -> r <> inl CompStuck.

Lemma ends_run {A} (p : prog A) : ends p -> comes_to_an_end p.
Proof. intros Hp S e s r s' tr start Hrun Hc. destruct (spec_run e p s _ r s' tr Hp Hrun) as [_ Hr]. exact (Hr start Hc). Qed.

Section actions.
Context `{UnicodeLower}.

(** (C38) An action for a session of a Guest, over every behaviour of the
    Guest, the clock and the context, whether it returns a response or an
    error: whatever is written goes to one path and is one text, that of the
    validated request for a Linux session; every dispatch command is for this
    request and comes after a publish command that the Guest answered with
    success, with nothing written in between; when anything was written,
    removing the request from the spool is the last command.  A response is
    returned only if a successful dispatch gave it, and it quotes the identity
    of the request. *)
Theorem guest_action_immutable {S} (e : environment S) s target request timeout r s' tr
    (Hrun : run_prog e (ExecuteForSession target request timeout) s [] = (r, s', tr)) :
  action_run target request timeout r tr /\ action_checked target request tr.
Proof. exact (spec_run _ _ _ _ _ _ _ (ExecuteForSession_spec target request timeout) Hrun). Qed.

(** An action of the Windows data plane: the Guest receives at most three
    inputs, all of them the same bytes for the same session and request, and a
    response is returned only if it answers one of them with exit code zero
    and is of the kind of the request. *)
Theorem windows_action_replayed {S} (e : environment S) s has_input binary target request timeout r s' tr
    (Hrun : run_prog e (WindowsExecuteForSession has_input binary target request timeout) s [] = (r, s', tr)) :
  windows_action_run binary target request timeout r tr.
Proof. exact (spec_run _ _ _ _ _ _ _ (WindowsExecuteForSession_spec has_input binary target request timeout) Hrun). Qed.

(** (C39) Every wait of the Guest programs comes to an end: the poll for a new
    session, the wait for an old login to close, and the retries of actions
    and of authority files are over within the rounds that their deadlines
    allow. *)
Theorem guest_waits_end :
  (forall has_input lease, comes_to_an_end (StartAgentSession has_input lease)) /\
  (forall target request timeout, comes_to_an_end (ExecuteForSession target request timeout)) /\
  (forall request timeout, comes_to_an_end (Execute request timeout)) /\
  (forall a, comes_to_an_end (ActivateAuthority a)) /\
  (forall legacy_revoker a, comes_to_an_end (RevokeAuthority legacy_revoker a)) /\
  (forall intent o, comes_to_an_end (awaitAgentLoginExit intent o)).
Proof.
  split_and!; intros; [| apply ends_run.. |].
  - intros S e s r s' tr start Hrun. exact (spec_run _ _ _ _ _ _ _ (StartAgentSession_spec has_input lease) Hrun start).
  - apply ends_ExecuteForSession.
  - apply ends_Execute.
  - apply ends_ActivateAuthority.
  - apply ends_RevokeAuthority.
  - intros S e s r s' tr start Hrun. exact (spec_run _ _ _ _ _ _ _ (awaitAgentLoginExit_spec intent o) Hrun start).
Qed.
End actions.

(** ** Witnesses *)
#[local] Instance script_lower : UnicodeLower := fun s => s.

Definition script_instance : string := String.string_of_list_ascii (repeat "a"%char 64).
Definition linux_target : SessionTarget := MkTarget "vca0123456789ab" 1001 "" "linux:1001:42::0" script_instance.
Definition windows_target : SessionTarget :=
  MkTarget "vca0123456789ab" 0 "S-1-5-21-1-2-3-1001" "windows:2:0000000000000001" script_instance.
Definition script_request : ActionRequest :=
  MkActionRequest 1 "action_aaaaaaaaaaaaaaaaaaaa" "lease_1" 3 5000 "mouse" None None (Some (MkMouse "move" 10 20 "" 0 0)) None None.

Definition applied_response : json :=
  JObj [("schema_version", JNum "1"); ("request_id", JStr "action_aaaaaaaaaaaaaaaaaaaa"); ("ok", JBool true); ("input", JObj [("applied", JBool true)])].

Lemma guest_action_immutable_witness :
  exists tr resp, run_prog (script applied_response JNull) (ExecuteForSession linux_target script_request (5 * second)) 0 [] = (inr resp, 0, tr) /\
    Exists is_write tr /\ action_run linux_target script_request (5 * second) (inr resp) tr /\ action_checked linux_target script_request tr.
Proof.
  eexists _, _. split; [vm_compute; reflexivity |]. split; [repeat first [apply Exists_cons_hd; exact I | apply Exists_cons_tl] |].
  eapply (guest_action_immutable (script applied_response JNull) 0). vm_compute; reflexivity.
Defined.

(** The channel loses the first two answers. *)
Definition windows_capabilities : json :=
  JObj [("schema_version", JNum "2"); ("experimental_session_transport", JStr "named_pipe_sid"); ("session_identity", JStr "sid_wts_luid");
    ("authority_store", JStr "protected_registry"); ("experimental_account_lifecycle", JStr "system_owned_sam_v1")].

Definition lossy_script : environment nat := MkEnvironment
  (fun s => (Some "win11", s))
  (fun _ s => (answer true windows_capabilities, s))
  (fun _ _ s => (match s with O => answer true applied_response | _ => inl (MkFailure None "QEMU guest agent is not running") end, pred s))
  (fun _ _ s => (None, s))
  (fun s => (0, s))
  (fun _ s => (None, s))
  (fun _ s => (None, s))
  (fun _ s => (None, s)).

Lemma windows_action_replayed_witness :
  exists tr resp, run_prog lossy_script (WindowsExecuteForSession true windowsSessionBinary windows_target script_request (5 * second)) 2%nat [] =
      (inr resp, 0%nat, tr) /\ length (written tr) = 3%nat /\
    windows_action_run windowsSessionBinary windows_target script_request (5 * second) (inr resp) tr.
Proof.
  eexists _, _. split; [vm_compute; reflexivity |]. split; [vm_compute; reflexivity |].
  eapply (windows_action_replayed lossy_script 2%nat true). vm_compute; reflexivity.
Defined.

(** The Guest accepts the login, but no session ever appears: the poll gives
    up after twenty seconds. *)
Definition slow_script : environment nanos := script agent_closed (lease_receipt (lease_phase (script_lease 3600) "sealed")).

Lemma guest_waits_end_witness :
  exists tr, run_prog slow_script (StartAgentSession true (script_lease 3600)) 0 [] = (inl CompUnavailable, 20 * second, tr) /\
    (inl CompUnavailable : comp_error + SessionTarget) <> inl CompStuck.
Proof.
  eexists. split; [vm_compute; reflexivity |].
  eapply (proj1 guest_waits_end true (script_lease 3600) nanos slow_script 0 _ _ _ 0); [vm_compute; reflexivity |].
  vm_compute; intuition discriminate.
Defined.
