(* ===== verification/StoreAudit.v ===== *)
(** * Audit log and desktop access policies ([internal/store/store.go])

    The redaction every audit detail goes through, the outcome of an event, the
    keyset pagination of the log, and the revisioned access policy of a
    desktop. *)
From stdpp Require Import base strings list.
From Stdlib Require Import ZArith Lia Ascii.
From S2P Require Import Prelude GoStrings Db Triggers StoreAccess.

Local Open Scope string_scope.
Local Open Scope list_scope.
Local Open Scope Z_scope.

Definition ellipsis : string := byte_string [0xE2; 0x80; 0xA6].

(** ** Objects

    jsonb orders keys by length, then by bytes; a Go map assignment replaces. *)
Definition key_lt (a b : string) : bool :=
  (slen a <? slen b) || ((slen a =? slen b) && String.ltb a b).

Fixpoint obj_set (k : string) (v : json) (l : list (string * json)) : list (string * json) :=
  match l with
  | [] => [(k, v)]
  | (k', v') :: l' =>
      if k == k' then (k, v) :: l' else if key_lt k k' then (k, v) :: l else (k', v') :: obj_set k v l'
  end.

(** [->>] *)
Definition json_get_text (k : string) (v : json) : option string :=
  match v with
  | JObj l => match List.find (fun e => fst e == k) l with Some (_, JStr s) => Some s | _ => None end
  | _ => None
  end.

Section audit.
Context `{UnicodeLower} (iter : list (string * json) -> list (string * json)).

Definition sensitive_fragments : list string :=
  ["password"; "secret"; "token"; "authorization"; "cookie"; "credential"; "product_key"; "private_key"].

Definition auditKeyIsSensitive (key : string) : bool :=
  let normalized := ToLower (replace_byte "-"%char "_"%char key) in
  existsb (fun fragment => contains fragment normalized) sensitive_fragments.

(** The loop over an object's entries in the map's iteration order. *)
Fixpoint sanitize_entries (rec : json -> json) (count : nat) (entries clean : list (string * json)) : list (string * json) :=
  match entries with
  | [] => clean
  | (key, child) :: rest =>
      if (64 <=? Z.of_nat count) then obj_set "truncated" (JBool true) clean
      else sanitize_entries rec (S count) rest
             (obj_set key (if auditKeyIsSensitive key then JStr "[REDACTED]" else rec child) clean)
  end.

(** [sanitizeAuditValue value (5 - levels)] *)
Fixpoint sanitize_levels (levels : nat) (value : json) : json :=
  match levels with
  | O => JStr "[TRUNCATED]"
  | S levels' =>
      match value with
      | JObj l => JObj (sanitize_entries (sanitize_levels levels') 0 (iter l) [])
      | JArr l => JArr (List.map (sanitize_levels levels') (take (Nat.min (length l) 64) l))
      | JStr s => JStr (if 1024 <? slen s then json_text (str_take 1024 s +:+ ellipsis) else s)
      | _ => value
      end
  end.
Definition sanitizeAuditValue (value : json) (depth : nat) : json := sanitize_levels (5 - depth) value.

Definition auditOutcome (eventType : string) : string :=
  if has_suffix "failed" eventType || has_suffix "rejected" eventType || has_suffix "denied" eventType
  then "failure" else "success".

(** [detail] is the value [encoding/json] normalised. *)
Definition Audit (now : time) (actorID eventType targetType targetID : string) (detail : json) : tx DB unit :=
  insert_audit now (nullif actorID) eventType (auditOutcome eventType) (nullif targetType) (nullif targetID)
    (sanitizeAuditValue detail 0).
End audit.

(** ** Reading the log *)
Record AuditEntry : Set := MkAuditEntry {
  EventID : Z;
  ActorID : string;
  ActorUsername : string;
  ActorDisplayName : string;
  EventType : string;
  Outcome : string;
  TargetType : string;
  TargetID : string;
  Detail : json;
  OccurredAt : time
}.

Record AuditEventQuery : Set := MkAuditEventQuery { Limit : Z; Before : Z; QueryOutcome : string; Search : string }.
Record AuditEventPage : Set := MkAuditEventPage { Events : list AuditEntry; NextCursor : string }.

(** PostgreSQL's [lower], in the database's locale. *)
Class SqlLower := sql_lower : string -> string.

Section audit_log.
Context `{SqlLower}.

Definition audit_user (s : DB) (e : AuditEvent) : option User :=
  match ev_actor_id e with Some id => select_one (fun u => u_id u == id) (users s) | None => None end.
Definition audit_agent (s : DB) (e : AuditEvent) : option AgentPrincipal :=
  match ev_actor_id e with Some id => select_one (fun a => ap_id a == id) (agent_principals s) | None => None end.

(** [concat_ws(' ', ...)] skips NULLs. *)
Definition concat_ws (l : list (option string)) : string := join " " (omap id l).

Definition audit_text (s : DB) (e : AuditEvent) : string :=
  concat_ws [Some (ev_event_type e); u_username <$> audit_user s e; u_display_name <$> audit_user s e;
             ap_id <$> audit_agent s e; ap_display_name <$> audit_agent s e; ev_target_type e; ev_target_id e].

Definition audit_matches (s : DB) (q : AuditEventQuery) (e : AuditEvent) : bool :=
  ((QueryOutcome q == "") || (ev_outcome e == QueryOutcome q)) &&
  ((Search q == "") || contains (sql_lower (Search q)) (sql_lower (audit_text s e))) &&
  ((Before q =? 0) || (ev_id e <? Before q)).

Definition audit_entry (s : DB) (e : AuditEvent) : AuditEntry :=
  MkAuditEntry (ev_id e) (coalesce (ev_actor_id e))
    (match audit_user s e, audit_agent s e with
     | Some u, _ => u_username u | None, Some a => ap_id a | None, None => "" end)
    (match audit_user s e, audit_agent s e with
     | Some u, _ => u_display_name u | None, Some a => ap_display_name a | None, None => "" end)
    (ev_event_type e) (ev_outcome e) (coalesce (ev_target_type e)) (coalesce (ev_target_id e)) (ev_detail e)
    (ev_occurred_at e).

Definition newest_first (a b : AuditEvent) : bool := ev_id b <=? ev_id a.

(** All events the query selects, in its order, before [LIMIT]. *)
Definition audit_selected (s : DB) (q : AuditEventQuery) : list AuditEntry :=
  List.map (audit_entry s) (order_by newest_first (rows (audit_matches s q) (audit_events s))).

Definition AuditEvents (q : AuditEventQuery) : tx DB AuditEventPage :=
  ensure (negb ((Limit q <? 1) || (100 <? Limit q) || (Before q <? 0) ||
            ((QueryOutcome q != "") && (QueryOutcome q != "success") && (QueryOutcome q != "failure")))) ErrInvalid;;
  tgets (fun s =>
    let events := take (Z.to_nat (Limit q + 1)) (audit_selected s q) in
    if Limit q <? Z.of_nat (length events) then
      let events := take (Z.to_nat (Limit q)) events in
      MkAuditEventPage events (itoa (List.last (List.map EventID events) 0))
    else MkAuditEventPage events "").
End audit_log.

(** ** Desktop access policies *)
Record AccessPolicy : Set := MkAccessPolicy {
  PolicyVMID : Z;
  PrivilegeMode : string;
  ClipboardRedirection : bool;
  DriveRedirection : bool;
  ManagedBackground : bool;
  DesiredRevision : Z;
  AppliedRevision : Z;
  PolicyState : policy_state;
  PolicyOSFamily : string;
  PolicyLastError : string;
  PolicyUpdatedAt : time
}.

Definition access_policy (p : DesktopAccessPolicy) : AccessPolicy :=
  MkAccessPolicy (dp_vmid p) (dp_privilege_mode p) (dp_clipboard_redirection p) (dp_drive_redirection p)
    (dp_managed_background p) (dp_desired_revision p) (dp_applied_revision p) (dp_state p) (dp_os_family p)
    (dp_last_error p) (dp_updated_at p).

Section policies.
Context (now : time).
Implicit Types (p : DesktopAccessPolicy).

(** The CHECK constraints of 011. *)
Definition policy_checks p : bool :=
  (0 <? dp_vmid p) && ((dp_privilege_mode p == "standard") || (dp_privilege_mode p == "local_admin")) &&
  (0 <? dp_desired_revision p) && (0 <=? dp_applied_revision p) &&
  ((dp_os_family p == "linux") || (dp_os_family p == "windows") || (dp_os_family p == "unknown")).

Definition DesktopAccessPolicyByVMID (vmid : Z) : tx DB AccessPolicy :=
  s ← tget;
  p ← trow (select_one (fun p => dp_vmid p == vmid) (desktop_access_policies s)) ErrNotFound;
  mret (access_policy p).

Definition default_policy (vmid : Z) : DesktopAccessPolicy :=
  MkDesktopAccessPolicy vmid "standard" true false true 1 0 PolPending "unknown" "" None now.

Definition EnsureDesktopAccessPolicy (vmid : Z) : tx DB AccessPolicy :=
  ensure (0 <? vmid) ErrInvalid;;
  tmod (fun s => s <| desktop_access_policies :=
    upsert (fun p => dp_vmid p == vmid) (fun p => p) (default_policy vmid) (desktop_access_policies s) |>);;
  DesktopAccessPolicyByVMID vmid.

Definition policy_differs (privilegeMode : string) (clipboard drive background : bool) p : bool :=
  (dp_privilege_mode p != privilegeMode) || (dp_clipboard_redirection p != clipboard) ||
  (dp_drive_redirection p != drive) || (dp_managed_background p != background).

Definition PutDesktopAccessPolicy (vmid : Z) (privilegeMode : string) (clipboard drive background : bool)
  (actorID : string) : tx DB AccessPolicy :=
  ensure (negb ((vmid <=? 0) || ((privilegeMode != "standard") && (privilegeMode != "local_admin")))) ErrInvalid;;
  s ← tget;
  references (ref_user_opt s (nullif actorID));;
  tmod (fun s => s <| desktop_access_policies :=
    upsert (fun p => dp_vmid p == vmid)
      (fun p => p <| dp_privilege_mode := privilegeMode; dp_clipboard_redirection := clipboard;
                     dp_drive_redirection := drive; dp_managed_background := background;
                     dp_desired_revision := if policy_differs privilegeMode clipboard drive background p
                                            then dp_desired_revision p + 1 else dp_desired_revision p |>
                  <| dp_state := PolPending; dp_last_error := ""; dp_updated_by := nullif actorID; dp_updated_at := now |>)
      (MkDesktopAccessPolicy vmid privilegeMode clipboard drive background 1 0 PolPending "unknown" "" (nullif actorID) now)
      (desktop_access_policies s) |>);;
  s ← tget;
  p ← trow (select_one (fun p => dp_vmid p == vmid) (desktop_access_policies s)) ErrNoRows;
  mret (access_policy p).

(** [UPDATE ... WHERE vmid=$1 AND desired_revision=$2 RETURNING] *)
Definition mark_policy (vmid revision : Z) (f : DesktopAccessPolicy -> DesktopAccessPolicy) : tx DB AccessPolicy :=
  s ← tget;
  let here p := (dp_vmid p == vmid) && (dp_desired_revision p == revision) in
  check (forallb (fun p => policy_checks (f p)) (rows here (desktop_access_policies s)));;
  p ← update_returning desktop_access_policies (fun t s => s <| desktop_access_policies := t |>) here f ErrNotFound;
  mret (access_policy p).

Definition MarkDesktopAccessPolicyApplied (vmid revision : Z) (osFamily : string) : tx DB AccessPolicy :=
  mark_policy vmid revision (fun p => p <| dp_applied_revision := revision; dp_state := PolApplied;
    dp_os_family := osFamily; dp_last_error := ""; dp_updated_at := now |>).

Definition MarkDesktopAccessPolicyFailed (vmid revision : Z) (osFamily message : string) : tx DB AccessPolicy :=
  let message := if 500 <? slen message then str_take 500 message else message in
  mark_policy vmid revision (fun p => p <| dp_state := PolFailed; dp_os_family := osFamily; dp_last_error := message;
    dp_updated_at := now |>).
End policies.
