(* ===== verification/StoreJobs.v ===== *)
(** * Jobs and clone ownership ([internal/store/store.go], [clone_reservation.go],
    [clone_recovery.go], [pending_clone_jobs.go], [image_inventory.go])

    Idempotent job creation, the reservation of a VMID before any PVE
    mutation, the single assignment of a task handle and the recovery of an
    orphaned clone. *)
From stdpp Require Import base strings list.
From Stdlib Require Import ZArith Lia Ascii.
From S2P Require Import Prelude GoStrings Auth Db Triggers StoreAccess StoreAudit.

Local Open Scope string_scope.
Local Open Scope list_scope.
Local Open Scope Z_scope.

Record JobInfo : Set := MkJobInfo {
  JobID : string;
  IdempotencyKey : string;
  Operation : string;
  State : string;
  SourceVMID : Z;
  TargetVMID : Z;
  TargetNode : string;
  TaskNode : string;
  UPID : string;
  Request : json;
  Progress : Z;
  JobDetail : string;
  JobError : string;
  JobCreatedBy : string;
  JobCreatedAt : time;
  JobUpdatedAt : time;
  RequestFingerprint : string
}.

(** The columns of the job queries; the fingerprint is not read back. *)
Definition job_info (j : Job) : JobInfo :=
  MkJobInfo (j_id j) (j_idempotency_key j) (j_operation j) (j_state j) (default 0 (j_source_vmid j))
    (default 0 (j_target_vmid j)) (coalesce (j_target_node j)) (coalesce (j_task_node j)) (coalesce (j_upid j))
    (j_request j) (j_progress j) (j_detail j) (coalesce (j_error j)) (coalesce (j_created_by j)) (j_created_at j)
    (j_updated_at j) "".

Definition nullableInt (value : Z) : option Z := if value =? 0 then None else Some value.
Definition nullableString (value : string) : option string := nullif value.

Definition clone_op : string := "pve.template_clone".

Section jobs.
Context (now : time).
Implicit Types (j : Job) (job : JobInfo).

(** The primary key, the idempotency key and the index of 009 that allows
    one active image build per profile. *)
Definition job_indexes (t : list Job) : bool :=
  unique_index (fun j => Some (j_id j)) t && unique_index (fun j => Some (j_idempotency_key j)) t &&
  unique_index (fun j => if (j_operation j == "image.build") && ((j_state j == "accepted") || (j_state j == "running"))
                         then json_get_text "image_profile_id" (j_request j) else None) t.

Definition insert_job (row : Job) : tx DB unit :=
  s ← tget;
  ensure (job_indexes (pve_jobs s ++ [row])) (ErrPg UniqueViolation);;
  references (ref_user_opt s (j_created_by row));;
  tmod (fun s => s <| pve_jobs := pve_jobs s ++ [row] |>).

Definition new_job job (source target : option Z) : Job :=
  MkJob (JobID job) (IdempotencyKey job) (Operation job) (State job) source target (nullableString (TargetNode job))
    (nullableString (TaskNode job)) None (Request job) 0 "" None (nullableString (JobCreatedBy job)) now now
    (RequestFingerprint job).

(** [UPDATE pve_jobs SET f WHERE p], with the number of rows. *)
Definition update_jobs (p : Job -> bool) (f : Job -> Job) : tx DB nat :=
  t ← tgets pve_jobs;
  check (forallb (fun j => (0 <=? j_progress (f j)) && (j_progress (f j) <=? 100)) (rows p t));;
  ensure (job_indexes (update_where p f t)) (ErrPg UniqueViolation);;
  tmod (fun s => s <| pve_jobs := update_where p f t |>);;
  mret (rows_affected p t).

(** ** Lookup and creation *)
Definition jobByQuery (p : Job -> bool) : tx DB JobInfo :=
  s ← tget;
  j ← trow (select_one p (pve_jobs s)) ErrNotFound;
  mret (job_info j).
Definition JobByIdempotencyKey (key : string) : tx DB JobInfo := jobByQuery (fun j => j_idempotency_key j == key).
Definition JobByID (id : string) : tx DB JobInfo := jobByQuery (fun j => j_id j == id).

Definition JobForRequest (key fingerprint : string) : tx DB JobInfo :=
  s ← tget;
  j ← trow (select_one (fun j => j_idempotency_key j == key) (pve_jobs s)) ErrNotFound;
  ensure (j_request_fingerprint j == fingerprint) ErrConflict;;
  JobByIdempotencyKey key.

Definition CreateJob job : tx DB (JobInfo * bool) :=
  s ← tget;
  let conflict := exists_where (fun j => j_idempotency_key j == IdempotencyKey job) (pve_jobs s) in
  (if conflict then mret tt
   else insert_job (new_job job (nullableInt (SourceVMID job)) (nullableInt (TargetVMID job))));;
  stored ← JobForRequest (IdempotencyKey job) (RequestFingerprint job);
  mret (stored, negb conflict).

(** ** Clone reservations *)
Definition candidates (start : Z) : list Z := List.map (fun i => start + Z.of_nat i) (List.seq 0 1024).

Definition candidate_free (s : DB) (source : Z) (occupiedVMIDs : list Z) (candidate : Z) : bool :=
  (candidate != source) && negb (existsb (fun v => v == candidate) occupiedVMIDs) &&
  negb (exists_where (fun d => d_vmid d == candidate) (managed_desktops s)) &&
  negb (exists_where (fun j => (j_target_vmid j == Some candidate) &&
          ((j_operation j == clone_op) || (j_operation j == "image.build"))) (pve_jobs s)).

Definition clone_request_ok job : bool :=
  negb ((Operation job != clone_op) || (State job != "accepted") || (TargetVMID job <=? 0) || (SourceVMID job <=? 0) ||
    (TargetVMID job =? SourceVMID job) || (JobID job == "") || (IdempotencyKey job == "")).

Definition target_occupied (s : DB) (target : Z) : bool :=
  exists_where (fun d => d_vmid d == target) (managed_desktops s) ||
  exists_where (fun j => (j_target_vmid j == Some target) && (j_operation j == clone_op)) (pve_jobs s).

Definition reserveDesktopCloneJob job (occupiedVMIDs : list Z) (choose : bool) : tx DB (JobInfo * bool) :=
  ensure (clone_request_ok job) ErrConflict;;
  s ← tget;
  match select_one (fun j => j_idempotency_key j == IdempotencyKey job) (pve_jobs s) with
  | Some prior =>
      ensure (j_request_fingerprint prior == RequestFingerprint job) ErrConflict;;
      stored ← JobByIdempotencyKey (IdempotencyKey job);
      mret (stored, false)
  | None =>
      target ← (if choose then trow (List.find (candidate_free s (SourceVMID job) occupiedVMIDs) (candidates (TargetVMID job)))
                  ErrConflict
                else mret (TargetVMID job));
      ensure (negb (target_occupied s target)) ErrConflict;;
      tcatch (insert_job (new_job job (Some (SourceVMID job)) (Some target))) unique_conflict;;
      stored ← JobByID (JobID job);
      mret (stored, true)
  end.

Definition ReserveDesktopCloneJob job := reserveDesktopCloneJob job [] false.
Definition ReserveAvailableDesktopCloneJob job (occupiedVMIDs : list Z) := reserveDesktopCloneJob job occupiedVMIDs true.

(** ** Task handles *)
Definition same_clone (expected : JobInfo) j : bool :=
  (j_id j == JobID expected) && (j_operation j == clone_op) && (j_source_vmid j == Some (SourceVMID expected)) &&
  (j_target_vmid j == Some (TargetVMID expected)) && (j_target_node j == Some (TargetNode expected)) &&
  (j_task_node j == Some (TaskNode expected)).

Definition attach_task (upid : string) j : Job :=
  j <| j_state := "running"; j_upid := Some upid; j_error := @None string; j_updated_at := now |>.

Definition RecordCloneTaskHandle (expected : JobInfo) (upid : string) : tx DB unit :=
  ensure (negb ((Operation expected != clone_op) || (JobID expected == "") || (TrimSpace upid != upid) || (upid == "") ||
            (4096 <? slen upid))) ErrConflict;;
  n ← update_jobs (fun j => same_clone expected j &&
        (((j_state j == "accepted") && (j_upid j == None)) || ((j_state j == "running") && (j_upid j == Some upid))))
        (attach_task upid);
  ensure (bool_decide (n = 1%nat)) ErrConflict.

Definition recovery_request_ok (runes : string -> Z) (expected : JobInfo) (upid actorID reason : string) : bool :=
  negb ((Operation expected != clone_op) || (JobID expected == "") || (State expected != "accepted") ||
    (UPID expected != "") || (SourceVMID expected <=? 0) || (TargetVMID expected <=? 0) ||
    (SourceVMID expected =? TargetVMID expected) || (TargetNode expected == "") || (TaskNode expected == "") ||
    negb (has_prefix "UPID:" upid) || (1024 <? slen upid) ||
    contains_any upid ("/\?#" +:+ byte_string [13; 10; 0]) || (TrimSpace upid != upid) || (actorID == "") ||
    (reason == "") || (500 <? runes reason)).

Definition CommitCloneRecovery `{UnicodeLower} `{Sha256} (iter : list (string * json) -> list (string * json))
  (runes : string -> Z) (expected : JobInfo) (upid actorID reason : string) : tx DB unit :=
  let reason := TrimSpace reason in
  ensure (recovery_request_ok runes expected upid actorID reason) ErrConflict;;
  s ← tget;
  u ← trow (select_one (fun u => u_id u == actorID) (users s)) ErrConflict;
  ensure ((u_role u == PlatformAdmin) && negb (u_disabled u)) ErrConflict;;
  n ← update_jobs (fun j => same_clone expected j && (j_state j == "accepted") && (j_upid j == None) &&
        (j_request j == Request expected)) (attach_task upid);
  ensure (bool_decide (n = 1%nat)) ErrConflict;;
  insert_audit now (Some actorID) "job.clone_recovered" "success" (Some "job") (Some (JobID expected))
    (sanitizeAuditValue iter (JObj [("reason", JStr reason); ("source_vmid", JNum (itoa (SourceVMID expected)));
       ("target_vmid", JNum (itoa (TargetVMID expected))); ("task_handle_sha256", JStr (hex_encode (sha256 upid)))]) 0).

(** ** Progress *)
Definition UpdateJobTask (id state upid errorMessage : string) : tx DB unit :=
  update_jobs (fun j => j_id j == id)
    (fun j => j <| j_state := state; j_upid := nullif upid; j_error := nullif errorMessage; j_updated_at := now |>);;
  mret tt.

Definition CompleteJobTask (id state upid errorMessage : string) : tx DB bool :=
  n ← update_jobs (fun j => (j_id j == id) && (j_state j == "running"))
        (fun j => j <| j_state := state; j_upid := nullif upid; j_error := nullif errorMessage; j_updated_at := now |>);
  mret (bool_decide (n = 1%nat)).

Definition UpdateJobProgress (id state : string) (progress : Z) (detail errorMessage : string) : tx DB unit :=
  update_jobs (fun j => j_id j == id)
    (fun j => j <| j_state := state; j_progress := progress; j_detail := detail; j_error := nullif errorMessage;
                   j_updated_at := now |>);;
  mret tt.

(** ** Listings *)
Definition newest_job (a b : Job) : bool := j_created_at b <=? j_created_at a.

Definition ActiveImageBuildJob (profileID : string) : tx DB JobInfo :=
  s ← tget;
  j ← trow (head (order_by newest_job (rows (fun j => (j_operation j == "image.build") &&
          ((j_state j == "accepted") || (j_state j == "running")) &&
          (json_get_text "image_profile_id" (j_request j) == Some profileID)) (pve_jobs s)))) ErrNotFound;
  mret (job_info j).

Definition job_limit (limit fallback : Z) : nat := Z.to_nat (if (limit <? 1) || (100 <? limit) then fallback else limit).

Definition JobsByOperation (operation : string) (limit : Z) : tx DB (list JobInfo) :=
  tgets (fun s => List.map job_info (take (job_limit limit 20)
    (order_by newest_job (rows (fun j => j_operation j == operation) (pve_jobs s))))).

Definition Jobs (limit : Z) : tx DB (list JobInfo) :=
  tgets (fun s => List.map job_info (take (job_limit limit 50) (order_by newest_job (pve_jobs s)))).

Definition PendingCloneJobIDs `{Collation} (after : string) (limit : Z) : tx DB (list string) :=
  tgets (fun s => List.map j_id (take (job_limit limit 32)
    (order_by (fun a b => text_le (j_id a) (j_id b))
      (rows (fun j => (j_operation j == clone_op) && (j_state j == "running") &&
                      (match j_upid j with Some u => u != "" | None => false end) && text_lt after (j_id j)) (pve_jobs s))))).

(** The reserved set as its membership test. *)
Definition ImageReservedVMIDs : tx DB (Z -> bool) :=
  tgets (fun s vmid => (0 <? vmid) &&
    (exists_where (fun p => ip_template_vmid p == Some vmid) (image_profiles s) ||
     exists_where (fun j => (j_operation j == "image.build") && (j_target_vmid j == Some vmid) &&
        ((j_state j == "accepted") || (j_state j == "running") || (j_state j == "failed"))) (pve_jobs s))).
End jobs.
