(* ===== verification/StoreJobsProofs.v ===== *)
(** * Jobs: idempotence, exclusive clone targets and the access fence *)
From stdpp Require Import base strings list relations.
From Stdlib Require Import ZArith Lia Ascii.
From S2P Require Import Prelude GoStrings Auth Db Triggers TriggerLemmas StoreAccess StoreAudit StoreJobs Demo.

Local Open Scope string_scope.
Local Open Scope list_scope.
Local Open Scope Z_scope.

(** What no statement of the program changes about a job. *)
Definition job_core (j : Job) :=
  (j_id j, j_idempotency_key j, j_operation j, j_source_vmid j, j_target_vmid j, j_target_node j, j_task_node j,
   j_request j, j_created_by j, j_request_fingerprint j).

Section jobs.
Context `{UnicodeLower} `{Sha256}.
Implicit Types (s : DB) (j : Job) (job : JobInfo) (T : list Job).

(** The job table grows and keeps the core of every row. *)
Definition jobs_evolve T T' : Prop :=
  T' = T \/ (job_indexes T' = true /\ exists new, List.map job_core T' = List.map job_core T ++ List.map job_core new /\
    (length new <= 1)%nat).

Lemma update_jobs_inr p f s n s' : (forall j, job_core (f j) = job_core j) -> update_jobs p f s = inr (n, s') ->
  s' = s <| pve_jobs := update_where p f (pve_jobs s) |> /\ n = rows_affected p (pve_jobs s) /\
  job_indexes (pve_jobs s') = true /\ jobs_evolve (pve_jobs s) (pve_jobs s').
Proof.
  intros Hf Hu. unfold update_jobs in Hu. inv_sql. split_and!; try done. right. split; [done |]. exists [].
  simpl. rewrite app_nil_r. split; [by apply map_update_where | lia].
Qed.

Lemma insert_job_inr row s u s' : insert_job row s = inr (u, s') ->
  s' = s <| pve_jobs := pve_jobs s ++ [row] |> /\ job_indexes (pve_jobs s ++ [row]) = true.
Proof. unfold insert_job, references. intros Hi. inv_sql. done. Qed.

Lemma insert_job_evolves row s u s' : insert_job row s = inr (u, s') -> jobs_evolve (pve_jobs s) (pve_jobs s').
Proof.
  intros Hi. apply insert_job_inr in Hi as [-> Hi]. right. split; [done |]. exists [row]. simpl. rewrite map_app. done.
Qed.

Lemma job_for_request_inr key fp s x s' : JobForRequest key fp s = inr (x, s') ->
  s' = s /\ exists j, In j (pve_jobs s) /\ j_idempotency_key j = key /\ j_request_fingerprint j = fp /\ x = job_info j /\
    select_one (fun j => j_idempotency_key j == key) (pve_jobs s) = Some j.
Proof.
  unfold JobForRequest, JobByIdempotencyKey, jobByQuery. intros Hx. inv_tx. split; [done |].
  repeat match goal with E : select_one _ _ = Some ?a, F : select_one _ _ = Some ?b |- _ =>
    lazymatch a with b => fail | _ => rewrite E in F; injection F as -> end end.
  match goal with E : select_one _ _ = Some ?a |- _ => exists a; pose proof E as [Hin Hk]%select_one_some end.
  b2p. done.
Qed.

Lemma create_job_inr now job s r s' : CreateJob now job s = inr (r, s') ->
  (exists j, In j (pve_jobs s') /\ j_idempotency_key j = IdempotencyKey job /\
     j_request_fingerprint j = RequestFingerprint job /\ fst r = job_info j) /\
  (s' = s \/ exists row u, insert_job row s = inr (u, s') /\ j_operation row = Operation job).
Proof.
  unfold CreateJob. intros Hc. inv_tx.
  match goal with E : JobForRequest _ _ _ = _ |- _ => apply job_for_request_inr in E as (-> & j & ? & ? & ? & -> & _) end.
  split; [by exists j |].
  match goal with E : (if ?b then _ else _) _ = _ |- _ => destruct b; inv_tx; [by left | right] end.
  eexists _, _. split; [eassumption | done].
Qed.

Lemma reserve_inr now job occ choose s r s' : reserveDesktopCloneJob now job occ choose s = inr (r, s') ->
  (s' = s /\ snd r = false /\ exists j, In j (pve_jobs s) /\ j_idempotency_key j = IdempotencyKey job /\
     j_request_fingerprint j = RequestFingerprint job /\ fst r = job_info j) \/
  (snd r = true /\ exists v u, insert_job (new_job now job (Some (SourceVMID job)) (Some v)) s = inr (u, s') /\
     fst r = job_info (new_job now job (Some (SourceVMID job)) (Some v)) /\ target_occupied s v = false /\
     clone_request_ok job = true /\
     (if choose then List.find (candidate_free s (SourceVMID job) occ) (candidates (TargetVMID job)) = Some v
      else v = TargetVMID job)).
Proof.
  unfold reserveDesktopCloneJob. intros Hr. inv_tx.
  destruct (select_one _ _) as [prior |] eqn:Ep; inv_tx.
  - left. unfold JobByIdempotencyKey, jobByQuery in *. inv_tx.
    match goal with E : select_one _ _ = Some ?a |- _ => assert (a = prior) as -> by congruence end.
    apply select_one_some in Ep as [? ?]. b2p. split; [done |]. split; [done |]. by exists prior.
  - right. split; [done |].
    match goal with E : (if choose then _ else _) s = inr (?v, ?s1) |- _ => assert (s1 = s /\
      (if choose then List.find (candidate_free s (SourceVMID job) occ) (candidates (TargetVMID job)) = Some v
       else v = TargetVMID job)) as [-> Hv] by (destruct choose; inv_tx; done) end. b2p.
    match goal with E : insert_job (new_job _ _ _ (Some ?v)) _ = inr (?u, _) |- _ => exists v, u; pose proof E as Hins end.
    unfold JobByID, jobByQuery in *. inv_tx. split; [done |].
    apply insert_job_inr in Hins as [-> Hi].
    match goal with E : select_one _ _ = Some ?a |- _ => apply select_one_some in E as [Hin Hid] end. b2p.
    split; [| split; [done |]].
    + cbn [fst]. f_equal. simpl in Hin. unfold job_indexes in Hi. b2p. destruct_and!.
      eapply (unique_index_inj (fun j => Some (j_id j)) _ _ _ (JobID job));
        [eassumption | exact Hin | rewrite in_app_iff; right; by left | simpl; by f_equal | done].
    + done; done.
Qed.

(** Every statement of the program on the job table.  Clone jobs are created
    by reservations only. *)
Inductive job_step s : DB -> Prop :=
| step_create now job : Operation job <> clone_op -> job_step s (state_of (CreateJob now job) s)
| step_reserve now job occ choose : job_step s (state_of (reserveDesktopCloneJob now job occ choose) s)
| step_handle now expected upid : job_step s (state_of (RecordCloneTaskHandle now expected upid) s)
| step_recover now iter runes expected upid actor reason :
    job_step s (state_of (CommitCloneRecovery now iter runes expected upid actor reason) s)
| step_task now id st upid msg : job_step s (state_of (UpdateJobTask now id st upid msg) s)
| step_complete now id st upid msg : job_step s (state_of (CompleteJobTask now id st upid msg) s)
| step_progress now id st progress detail msg : job_step s (state_of (UpdateJobProgress now id st progress detail msg) s)
| step_elsewhere s' : pve_jobs s' = pve_jobs s -> job_step s s'.

Definition job_trace : DB -> DB -> Prop := rtc job_step.

Lemma state_of_cases {A} (m : tx DB A) s : state_of m s = s \/ exists a, m s = inr (a, state_of m s).
Proof. unfold state_of, run. destruct (m s) as [| [a s']]; simpl; eauto. Qed.

Lemma job_step_cases s s' : job_step s s' ->
  (exists p f n, (forall j, job_core (f j) = job_core j) /\ exists s1, update_jobs p f s = inr (n, s1) /\ pve_jobs s' = pve_jobs s1) \/
  (exists row u, insert_job row s = inr (u, s') /\
     (j_operation row = clone_op -> forall v, j_target_vmid row = Some v -> target_occupied s v = false)) \/
  pve_jobs s' = pve_jobs s.
Proof.
  destruct 1 as [now job Hop | now job occ choose | now expected upid | now iter runes expected upid actor reason
    | now id st upid msg | now id st upid msg | now id st progress detail msg | s' Hs]; [.. | auto].
  all: match goal with |- context [pve_jobs (state_of ?m ?s)] => destruct (state_of_cases m s) as [-> | [a Ha]]; [auto |];
         revert Ha; generalize (state_of m s); intros s' Ha end.
  - apply create_job_inr in Ha as [_ [-> | (row & u & Hi & Ho)]]; [auto |]. right. left. exists row, u. split; [done |].
    intros Hc. congruence.
  - apply reserve_inr in Ha as [(-> & _) | (_ & v & u & Hi & _ & Ho & _)]; [auto |]. right. left.
    eexists _, u. split; [exact Hi |]. intros _ w [= <-]. done.
  - unfold RecordCloneTaskHandle in Ha. inv_tx. left. eexists _, _, _. split; [| eexists; split; [eassumption | done]]. done.
  - unfold CommitCloneRecovery, insert_audit in Ha. inv_tx. left.
    eexists _, _, _. split; [| eexists; split; [eassumption | done]]. done.
  - unfold UpdateJobTask in Ha. inv_tx. left. eexists _, _, _. split; [| eexists; split; [eassumption | done]]. done.
  - unfold CompleteJobTask in Ha. inv_tx. left. eexists _, _, _. split; [| eexists; split; [eassumption | done]]. done.
  - unfold UpdateJobProgress in Ha. inv_tx. left. eexists _, _, _. split; [| eexists; split; [eassumption | done]]. done.
Qed.

Lemma job_step_evolves s s' : job_step s s' -> jobs_evolve (pve_jobs s) (pve_jobs s').
Proof.
  intros Hs. apply job_step_cases in Hs as [(p & f & n & Hf & s1 & Hu & ->) | [(row & u & Hi & _) | ->]]; [| | by left].
  - eapply update_jobs_inr in Hu as (_ & _ & _ & ?); done.
  - by eapply insert_job_evolves.
Qed.

(** ** Idempotence *)

(** The scoped key is claimed by a job with this core. *)
Definition claimed (key : string) c T : Prop :=
  job_indexes T = true /\ exists j, In j T /\ j_idempotency_key j = key /\ job_core j = c.

Lemma claimed_evolves key c T T' : jobs_evolve T T' -> claimed key c T -> claimed key c T'.
Proof.
  intros [-> | (Hi & new & Hm & _)]; [done |]. intros (_ & j & Hj & Hk & Hc). split; [done |].
  assert (In (job_core j) (List.map job_core T')) as Hin by (rewrite Hm, in_app_iff; left; by apply in_map).
  apply in_map_iff in Hin as (j' & Hc' & Hj'). exists j'. split; [done |]. split; [| congruence].
  assert (j_idempotency_key j' = j_idempotency_key j) by (unfold job_core in Hc'; congruence). congruence.
Qed.

Lemma trace_claimed key c s s' : job_trace s s' -> claimed key c (pve_jobs s) -> claimed key c (pve_jobs s').
Proof. induction 1 as [| s s1 s' Hs _ IH]; [done |]. intros Hc. apply IH. eapply claimed_evolves; [by apply job_step_evolves | done]. Qed.

Lemma claimed_select key c T : claimed key c T ->
  exists j, select_one (fun j => j_idempotency_key j == key) T = Some j /\ job_core j = c.
Proof.
  intros (Hi & j & Hj & Hk & Hc). destruct (select_one _ T) as [j' |] eqn:E.
  - exists j'. split; [done |]. apply select_one_some in E as [Hj' Hk']. unfold job_indexes in Hi. b2p. destruct_and!.
    assert (j' = j) as ->; [| done]. eapply (unique_index_inj (fun j => Some (j_idempotency_key j)) _ _ _ key); eauto; simpl; congruence.
  - apply select_one_none in E. rewrite exists_where_false in E. specialize (E j Hj). by rewrite bool_decide_true in E.
Qed.

(** Job creation is idempotent: once a request has claimed its scoped
    key, then in every later state of the program a replay of the same
    request creates nothing and is answered with the same job, and a
    different request under that key is refused without any effect. *)
Theorem CreateJob_idempotent now job s stored created s1 s2 now' replay :
  job_indexes (pve_jobs s) = true -> CreateJob now job s = inr ((stored, created), s1) -> job_trace s1 s2 ->
  IdempotencyKey replay = IdempotencyKey job ->
  if RequestFingerprint replay == RequestFingerprint job
  then exists again, CreateJob now' replay s2 = inr ((again, false), s2) /\ JobID again = JobID stored /\
         Operation again = Operation stored /\ TargetVMID again = TargetVMID stored /\ Request again = Request stored
  else CreateJob now' replay s2 = inl ErrConflict.
Proof.
  intros Hi Hc Htr Hk.
  assert (exists j, claimed (IdempotencyKey job) (job_core j) (pve_jobs s1) /\
    j_request_fingerprint j = RequestFingerprint job /\ stored = job_info j) as (j & Hcl & Hf & ->).
  { apply create_job_inr in Hc as [(j & Hj & Hkj & Hfj & Hst) Hs]. exists j. split; [| done]. split; [| by exists j].
    destruct Hs as [-> | (row & u & Hins & _)]; [done |]. by apply insert_job_inr in Hins as [-> ?]. }
  eapply trace_claimed in Hcl; [| exact Htr]. apply claimed_select in Hcl as (j' & Hsel & Hcore).
  unfold CreateJob. rewrite (tbind_ok _ _ _ s2 s2) by done.
  pose proof Hsel as [Hin Hkey]%select_one_some.
  assert (exists_where (fun j => j_idempotency_key j == IdempotencyKey replay) (pve_jobs s2) = true) as Hex.
  { apply exists_where_true. exists j'. by rewrite Hk. }
  cbv zeta. rewrite Hex, (tbind_ok _ _ _ tt s2) by done. unfold JobForRequest. rewrite Hk.
  assert (j_request_fingerprint j' = RequestFingerprint job) as Hf' by (unfold job_core in Hcore; congruence).
  destruct (RequestFingerprint replay == RequestFingerprint job) eqn:Efp; b2p.
  - exists (job_info j'). split; [| unfold job_core in Hcore; simpl; split_and!; congruence].
    erewrite tbind_ok; [| rewrite (tbind_ok _ _ _ s2 s2) by done; rewrite Hsel; rewrite (tbind_ok _ _ _ j' s2) by done;
      rewrite (bool_decide_true (j_request_fingerprint j' = _)) by congruence; rewrite (tbind_ok _ _ _ tt s2) by done;
      unfold JobByIdempotencyKey, jobByQuery; rewrite (tbind_ok _ _ _ s2 s2) by done; rewrite Hsel;
      rewrite (tbind_ok _ _ _ j' s2) by done; reflexivity]. done.
  - apply tbind_inl. rewrite (tbind_ok _ _ _ s2 s2) by done. rewrite Hsel, (tbind_ok _ _ _ j' s2) by done.
    rewrite bool_decide_false by congruence. done.
Qed.

(** ** Exclusive targets *)
Definition clone_of (v : Z) j : Prop := j_operation j = clone_op /\ j_target_vmid j = Some v.

(** No two clone jobs own the VMID. *)
Definition target_exclusive (v : Z) T : Prop :=
  forall j1 j2, In j1 T -> In j2 T -> clone_of v j1 -> clone_of v j2 -> j_id j1 = j_id j2.
Definition targets_exclusive T : Prop := forall v, target_exclusive v T.

Lemma core_clone v j j' : job_core j' = job_core j -> (clone_of v j' <-> clone_of v j) /\ j_id j' = j_id j.
Proof. unfold job_core, clone_of. intros [=]. split; [split; intros []; split; congruence | done]. Qed.

Lemma job_step_exclusive v s s' : job_step s s' -> target_exclusive v (pve_jobs s) -> target_exclusive v (pve_jobs s').
Proof.
  intros Hs Hx. apply job_step_cases in Hs as [(p & f & n & Hf & s1 & Hu & ->) | [(row & u & Hi & Ho) | ->]]; [| | done].
  - eapply update_jobs_inr in Hu as (-> & _); [| done]. simpl. intros j1 j2 H1 H2.
    apply in_update_where in H1 as (k1 & H1 & ->), H2 as (k2 & H2 & ->).
    assert (forall k, job_core (if p k then f k else k) = job_core k) as Hc by (intros k; destruct (p k); auto).
    destruct (core_clone v _ _ (Hc k1)) as [-> ->], (core_clone v _ _ (Hc k2)) as [-> ->]. by apply Hx.
  - apply insert_job_inr in Hi as [-> _]. simpl. intros j1 j2 H1 H2 Hc1 Hc2. rewrite in_app_iff in *.
    assert (forall j, In j (pve_jobs s) -> clone_of v j -> clone_of v row -> False) as Hno.
    { intros j Hj [Hop Ht] [Hr Hrt]. specialize (Ho Hr v Hrt). unfold target_occupied in Ho. apply orb_false_iff in Ho as [_ Ho].
      rewrite exists_where_false in Ho. specialize (Ho j Hj). rewrite !bool_decide_true in Ho; done. }
    destruct H1 as [H1 | [<- | []]], H2 as [H2 | [<- | []]]; [by eapply Hx | exfalso; eauto.. | done].
Qed.

Lemma trace_exclusive v s s' : job_trace s s' -> target_exclusive v (pve_jobs s) -> target_exclusive v (pve_jobs s').
Proof. induction 1 as [| s s1 s' Hs _ IH]; [done |]. intros Hx. by eapply IH, job_step_exclusive. Qed.

(** In every reachable state of the program a VMID belongs to at most one
    clone job, whatever the interleaving of reservations, task updates,
    recoveries and other jobs. *)
Theorem clone_targets_exclusive s s' : targets_exclusive (pve_jobs s) -> job_trace s s' -> targets_exclusive (pve_jobs s').
Proof. intros Hx Htr v. eapply trace_exclusive, Hx. exact Htr. Qed.

(** ** Well-formed jobs *)

(** A clone names a source and another target; the progress is a percentage. *)
Definition job_ok (j : Job) : bool :=
  (0 <=? j_progress j) && (j_progress j <=? 100) &&
  ((j_operation j != clone_op) ||
   match j_source_vmid j, j_target_vmid j with
   | Some source, Some target => (0 <? source) && (0 <? target) && (source != target)
   | _, _ => false
   end).
Definition jobs_ok T : bool := job_indexes T && forallb job_ok T.

Lemma job_ok_core j j' : job_core j' = job_core j -> 0 <= j_progress j' <= 100 -> job_ok j = true -> job_ok j' = true.
Proof.
  unfold job_core, job_ok. intros [= _ _ -> -> -> _ _ _ _ _] Hp Hj. apply andb_true_iff in Hj as [_ ->]. rewrite andb_true_r. b2p. lia.
Qed.

Lemma candidates_in start v : In v (candidates start) <-> start <= v < start + 1024.
Proof.
  unfold candidates. rewrite in_map_iff. split.
  - intros (i & <- & Hi). apply in_seq in Hi. lia.
  - intros Hv. exists (Z.to_nat (v - start)). rewrite in_seq. lia.
Qed.

Lemma find_first {A} (p : A -> bool) l x : List.find p l = Some x -> exists l1 l2, l = l1 ++ x :: l2 /\ forall y, In y l1 -> p y = false.
Proof.
  induction l as [| y l IH]; simpl; [done |]. destruct (p y) eqn:E; [intros [= ->]; by exists [], l |].
  intros Hx. destruct (IH Hx) as (l1 & l2 & -> & Hl). exists (y :: l1), l2. split; [done |]. intros z [<- | Hz]; auto.
Qed.

Lemma find_candidate p start v : List.find p (candidates start) = Some v ->
  start <= v < start + 1024 /\ p v = true /\ forall c, start <= c < v -> p c = false.
Proof.
  intros Hf. pose proof Hf as [Hin Hp]%find_some. apply candidates_in in Hin. split_and!; [lia.. | done |].
  intros c Hc. apply find_first in Hf as (l1 & l2 & Hl & Hno). apply Hno.
  assert (In c (candidates start)) as Hci by (apply candidates_in; lia). rewrite Hl, in_app_iff in Hci.
  destruct Hci as [| Hci]; [done | exfalso]. unfold candidates in Hl.
  assert (forall k l1 l2 m, List.map (fun i => start + Z.of_nat i) (List.seq k m) = l1 ++ v :: l2 -> forall c, In c (v :: l2) -> v <= c) as Hmono.
  { clear. intros k l1 l2 m. revert k l1. induction m as [| m IH]; intros k l1; simpl.
    - destruct l1; done.
    - destruct l1 as [| x l1]; simpl; intros [= Hx Hl] c Hc.
      + destruct Hc as [<- | Hc]; [lia |]. rewrite <- Hl, in_map_iff in Hc. destruct Hc as (i & <- & Hi). apply in_seq in Hi. lia.
      + by eapply IH. }
  specialize (Hmono _ _ _ _ Hl c Hci). lia.
Qed.

Lemma reserved_job_ok now job occ (choose : bool) s v : clone_request_ok job = true ->
  (if choose then List.find (candidate_free s (SourceVMID job) occ) (candidates (TargetVMID job)) = Some v else v = TargetVMID job) ->
  job_ok (new_job now job (Some (SourceVMID job)) (Some v)) = true.
Proof.
  unfold clone_request_ok. intros Hok Hv. rewrite negb_true_iff, !orb_false_iff in Hok. destruct Hok as [[[[[[_ _] Ht] Hs] Hne] _] _].
  apply Z.leb_gt in Ht, Hs. apply Z.eqb_neq in Hne. apply orb_true_iff. right. cbn.
  assert (0 < v /\ v <> SourceVMID job) as [Hv0 Hvn].
  { destruct choose; [| subst v; lia]. apply find_candidate in Hv as (Hr & Hf & _). unfold candidate_free in Hf.
    rewrite !andb_true_iff, !negb_true_iff in Hf. destruct Hf as [[[Hf _] _] _]. apply bool_decide_eq_false in Hf. split; [lia | done]. }
  rewrite !andb_true_iff, !Z.ltb_lt, negb_true_iff, bool_decide_eq_false. split_and!; congruence || lia.
Qed.

Lemma update_jobs_ok p f s n s1 : (forall j, job_core (f j) = job_core j) -> update_jobs p f s = inr (n, s1) -> jobs_ok (pve_jobs s) = true -> jobs_ok (pve_jobs s1) = true.
Proof.
  intros Hf Hu Hok. unfold jobs_ok in *. apply andb_true_iff in Hok as [_ Hok]. pose proof Hu as Hu'. apply update_jobs_inr in Hu' as (-> & _ & -> & _); [| done].
  unfold update_jobs in Hu. inv_sql. change (forallb job_ok (update_where p f (pve_jobs s)) = true). rewrite forallb_forall in *.
  intros j Hin. apply in_update_where in Hin as (k & Hk & ->). destruct (p k) eqn:Hp; [| auto]. apply (job_ok_core k); [done | | auto].
  match goal with Hr : forall x, In x (rows p _) -> _ |- _ => specialize (Hr k ltac:(by apply filter_In)) end. b2p. lia.
Qed.

Lemma inserted_jobs_ok row s u s' : insert_job row s = inr (u, s') -> job_ok row = true -> jobs_ok (pve_jobs s) = true -> jobs_ok (pve_jobs s') = true.
Proof.
  intros Hi Hr Hok. apply insert_job_inr in Hi as [-> Hi]. change (jobs_ok (pve_jobs s ++ [row]) = true). unfold jobs_ok in *. apply andb_true_iff in Hok as [_ Hok].
  rewrite Hi, forallb_app, Hok. cbn. by rewrite Hr.
Qed.

Lemma created_job_ok now job s r s' : Operation job <> clone_op -> CreateJob now job s = inr (r, s') -> jobs_ok (pve_jobs s) = true -> jobs_ok (pve_jobs s') = true.
Proof.
  intros Ho Hc Hok. unfold CreateJob in Hc. inv_tx.
  match goal with E : JobForRequest _ _ _ = _ |- _ => apply job_for_request_inr in E as (-> & _) end.
  match goal with E : (if ?b then _ else _) _ = _ |- _ => destruct b; inv_tx; [done |] end.
  eapply inserted_jobs_ok; [eassumption | | done]. unfold job_ok. cbn. by rewrite bool_decide_false.
Qed.

Ltac updated := match goal with E : update_jobs _ _ _ = inr (_, ?s1) |- _ => change (jobs_ok (pve_jobs s1) = true); by eapply update_jobs_ok; [| exact E |] end.

Lemma job_step_ok s s' : job_step s s' -> jobs_ok (pve_jobs s) = true -> jobs_ok (pve_jobs s') = true.
Proof.
  intros Hs Hok. destruct Hs as [now job Hop | now job occ choose | now expected upid | now iter runes expected upid actor reason
    | now id st upid msg | now id st upid msg | now id st progress detail msg | s' Hs]; [.. | by rewrite Hs].
  all: match goal with |- context [pve_jobs (state_of ?m ?s)] => destruct (state_of_cases m s) as [-> | [a Ha]]; [done |];
         revert Ha; generalize (state_of m s); intros s' Ha end.
  - by eapply created_job_ok.
  - apply reserve_inr in Ha as [(-> & _) | (_ & v & u & Hi & _ & _ & Hreq & Hv)]; [done |]. 
    by eapply inserted_jobs_ok; [exact Hi | eapply reserved_job_ok |].
  - unfold RecordCloneTaskHandle in Ha. inv_tx. updated.
  - unfold CommitCloneRecovery, insert_audit in Ha. inv_tx. updated.
  - unfold UpdateJobTask in Ha. inv_tx. updated.
  - unfold CompleteJobTask in Ha. inv_tx. updated.
  - unfold UpdateJobProgress in Ha. inv_tx. updated.
Qed.

(** (C34) The job table stays well formed in every history: identifiers and
    idempotency keys are unique, at most one build of a profile is active, the
    progress is a percentage, and every clone has a source and another,
    positive target. *)
Theorem jobs_well_formed s s' : job_trace s s' -> jobs_ok (pve_jobs s) = true -> jobs_ok (pve_jobs s') = true.
Proof. induction 1 as [| s s1 s' Hs _ IH]; [done |]. intros Hok. by eapply IH, job_step_ok. Qed.

Lemma unsettled_no_access s v j : In j (pve_jobs s) -> clone_of v j -> j_state j <> "succeeded" ->
  (forall u, effective_user_desktop_access s u v = false) /\ (forall a, agent_desktop_access s a (by_vmid v) = false).
Proof.
  intros Hj [Hop Ht] Hst.
  assert (desktop_clone_ready s v = false) as Hr.
  { apply negb_false_iff, exists_where_true. exists j. split; [done |]. unfold unsettled_clone, clone_op in *.
    by rewrite Ht, Hop, !bool_decide_true, (bool_decide_false (j_state j = _)) by done. }
  assert (forall d, d_vmid d = v -> desktop_available s d = false) as Ha.
  { intros d <-. unfold desktop_available. by rewrite Hr, andb_false_r. }
  split.
  - intros u. apply andb_false_iff. right. apply exists_where_false. intros d _.
    destruct (decide (d_vmid d = v)) as [E | E]; [rewrite (Ha d E), andb_false_r | rewrite bool_decide_false by done]; done.
  - intros a. apply exists_where_false. intros x _. apply andb_false_iff. right. apply exists_where_false. intros d _.
    unfold by_vmid. destruct (decide (d_vmid d = v)) as [E | E]; [rewrite (Ha d E), andb_false_r | rewrite (bool_decide_false (d_vmid d = v)), andb_false_r by done]; done.
Qed.

(** A reservation owns its target before any hypervisor call (C11): the VMID
    is neither a managed desktop nor the target of any earlier clone; when
    the server chooses, it is the least free candidate of the 1024 starting
    at the suggestion, outside the observed inventory, distinct from the
    source and not the target of an image build.  In every later state of the
    program the job is still there and the only clone of that VMID, and unless
    it has succeeded, whatever its state and whatever was registered or
    assigned meanwhile, nobody - user or agent - has access to it. *)
Theorem clone_reservation_exclusive now job occ choose s stored s'
    (Hreserve : reserveDesktopCloneJob now job occ choose s = inr ((stored, true), s')) :
  let v := TargetVMID stored in
  (forall d, In d (managed_desktops s) -> d_vmid d <> v) /\ (forall j, In j (pve_jobs s) -> ~ clone_of v j) /\
  (choose = false -> v = TargetVMID job) /\
  (choose = true -> TargetVMID job <= v < TargetVMID job + 1024 /\ v <> SourceVMID job /\ ~ In v occ /\
     (forall j, In j (pve_jobs s) -> j_operation j = "image.build" -> j_target_vmid j <> Some v) /\
     forall c, TargetVMID job <= c < v -> candidate_free s (SourceVMID job) occ c = false) /\
  (exists j, In j (pve_jobs s') /\ clone_of v j /\ job_info j = stored /\ j_idempotency_key j = IdempotencyKey job) /\
  forall later, job_trace s' later ->
    exists j, In j (pve_jobs later) /\ clone_of v j /\ j_id j = JobID stored /\
      (forall other, In other (pve_jobs later) -> clone_of v other -> j_id other = JobID stored) /\
      (j_state j <> "succeeded" ->
         (forall u, effective_user_desktop_access later u v = false) /\ (forall a, agent_desktop_access later a (by_vmid v) = false)).
Proof.
  intros v. apply reserve_inr in Hreserve as [(_ & Hf & _) | (_ & v' & u & Hi & Hst & Hocc & Hok & Hch)]; [done |].
  cbn [fst] in Hst. assert (v = v') as <- by (unfold v; rewrite Hst; done).
  unfold target_occupied in Hocc. apply orb_false_iff in Hocc as [Hd Hj]. rewrite exists_where_false in Hd. rewrite exists_where_false in Hj.
  apply insert_job_inr in Hi as [-> Hidx].
  unfold clone_request_ok in Hok. b2p. destruct_and!.
  set (row := new_job now job (Some (SourceVMID job)) (Some v)) in *.
  assert (clone_of v row) as Hrow by done.
  assert (In row (pve_jobs s ++ [row])) as Hin by (rewrite in_app_iff; right; by left).
  assert (forall j, In j (pve_jobs s) -> ~ clone_of v j) as Hnew.
  { intros j Hjin [Hop Ht]. specialize (Hj j Hjin). rewrite !bool_decide_true in Hj; done. }
  split_and!; [| done | | | |].
  - intros d Hdin. specialize (Hd d Hdin). by b2p.
  - intros ->. done.
  - intros ->. apply find_candidate in Hch as (Hrange & Hfree & Hleast). unfold candidate_free in Hfree. b2p. destruct_and!.
    split_and!; [lia.. | done | | | done].
    + intros Hocc. match goal with E : existsb _ occ = false |- _ => rewrite <- not_true_iff_false in E; destruct E end.
      apply existsb_exists. exists v. by rewrite bool_decide_true.
    + intros j Hjin Hop Ht. match goal with E : exists_where _ (pve_jobs _) = false |- _ =>
        rewrite exists_where_false in E; specialize (E j Hjin) end. b2p. naive_solver.
  - exists row. by rewrite Hst.
  - intros later Htr.
    assert (target_exclusive v (pve_jobs later)) as Hx.
    { eapply trace_exclusive; [exact Htr |]. intros j1 j2 [Hj1 | [<- | []]]%in_app_iff [Hj2 | [<- | []]]%in_app_iff Hc1 Hc2;
        [by destruct (Hnew j1) | by destruct (Hnew j1) | by destruct (Hnew j2) | done]. }
    destruct (trace_claimed (j_idempotency_key row) (job_core row) _ _ Htr) as (_ & j & Hjin & _ & Hcore); [split; [done |]; by exists row |].
    destruct (core_clone v j row (eq_sym Hcore)) as [Hcl Hid]. assert (clone_of v j) as Hvj by by apply Hcl.
    assert (j_id j = JobID stored) as Hsid by (rewrite <- Hid, Hst; done).
    exists j. split; [done |]. split; [done |]. split; [done |]. split; [| intros Hs; by apply (unsettled_no_access later v j)].
    intros other Ho Hoc. rewrite <- Hsid. by apply Hx.
Qed.
End jobs.

(** ** The demo deployment clones template 900 *)
Section demo.
#[local] Existing Instance demo_sha.
#[local] Instance demo_lower : UnicodeLower := fun s => s.

Definition demo_job : JobInfo :=
  MkJobInfo "job1" "alice:k1" clone_op "accepted" 900 101 "pve1" "pve1" "" (JObj []) 0 "" "" "alice" 0 0 "fp1".
Definition demo_power_job : JobInfo :=
  MkJobInfo "job2" "alice:k2" "pve.power" "accepted" 0 101 "pve1" "" "" (JObj []) 0 "" "" "alice" 0 0 "fp2".

(** 101 and 102 are managed, 103 is in the inventory: the server picks 104. *)
Definition demo_reserved : DB := state_of (reserveDesktopCloneJob 1 demo_job [103] true) demo_db.
Definition demo_stored : JobInfo :=
  MkJobInfo "job1" "alice:k1" clone_op "accepted" 900 104 "pve1" "pve1" "" (JObj []) 0 "" "" "alice" 1 1 "".
Definition demo_running : DB := state_of (RecordCloneTaskHandle 2 demo_stored "UPID:pve1:1") demo_reserved.

Lemma clone_reservation_exclusive_witness : exists stored,
  reserveDesktopCloneJob 1 demo_job [103] true demo_db = inr ((stored, true), demo_reserved) /\ TargetVMID stored = 104 /\
  List.map j_state (pve_jobs demo_running) = ["running"] /\
  exists j, In j (pve_jobs demo_running) /\ clone_of 104 j /\ j_id j = "job1" /\
    (forall other, In other (pve_jobs demo_running) -> clone_of 104 other -> j_id other = "job1") /\
    (j_state j <> "succeeded" ->
       (forall u, effective_user_desktop_access demo_running u 104 = false) /\ (forall a, agent_desktop_access demo_running a (by_vmid 104) = false)).
Proof.
  eexists. split; [vm_compute; reflexivity |]. split; [reflexivity |]. split; [vm_compute; reflexivity |].
  edestruct (clone_reservation_exclusive 1 demo_job [103] true demo_db) as (_ & _ & _ & _ & _ & Hlater); [vm_compute; reflexivity |].
  apply (Hlater demo_running). apply rtc_once. exact (step_handle demo_reserved 2 demo_stored "UPID:pve1:1").
Defined.

Lemma jobs_well_formed_witness : jobs_ok (pve_jobs (state_of (reserveDesktopCloneJob 1 demo_job [103] true) demo_db)) = true.
Proof. apply (jobs_well_formed demo_db); [apply rtc_once, step_reserve | vm_compute; reflexivity]. Defined.

Lemma clone_targets_exclusive_witness :
  targets_exclusive (pve_jobs (state_of (reserveDesktopCloneJob 1 demo_job [103] true) demo_db)).
Proof.
  apply (clone_targets_exclusive demo_db); [intros j1 j2 v [] |]. apply rtc_once. apply step_reserve.
Defined.

Definition demo_jobs_db : DB := state_of (CreateJob 1 demo_power_job) demo_db.

Lemma CreateJob_idempotent_witness : exists again,
  CreateJob 9 demo_power_job (state_of (CompleteJobTask 2 "job2" "succeeded" "" "") demo_jobs_db) =
    inr ((again, false), state_of (CompleteJobTask 2 "job2" "succeeded" "" "") demo_jobs_db) /\ JobID again = "job2".
Proof.
  edestruct (CreateJob_idempotent 1 demo_power_job demo_db (job_info (new_job 1 demo_power_job None (Some 101))) true demo_jobs_db
    (state_of (CompleteJobTask 2 "job2" "succeeded" "" "") demo_jobs_db) 9 demo_power_job) as (again & Ha & Hid & _).
  - vm_compute. reflexivity.
  - vm_compute. reflexivity.
  - apply rtc_once. apply step_complete.
  - reflexivity.
  - exists again. split; [exact Ha |]. rewrite Hid. reflexivity.
Defined.
End demo.
