(* ===== verification/StoreAuditProofs.v ===== *)
(** * The audit log leaks no secrets and pages without gaps *)
From stdpp Require Import base strings list relations.
From Stdlib Require Import ZArith Lia Ascii Sorting.Sorted.
From S2P Require Import Prelude GoStrings Db Demo Triggers TriggerLemmas StoreAccess StoreAudit.

Local Open Scope string_scope.
Local Open Scope list_scope.
Local Open Scope Z_scope.

(** ** Redaction *)
Section redaction.
Context `{UnicodeLower}.

(** What a stored detail may look like: no value under a sensitive key, at
    most 65 entries or 64 elements, short strings, bounded nesting. *)
Fixpoint redacted (levels : nat) (v : json) : bool :=
  match levels with
  | O => v == JStr "[TRUNCATED]"
  | S levels' =>
      match v with
      | JObj l => (Z.of_nat (length l) <=? 65) &&
          forallb (fun e => if auditKeyIsSensitive (fst e) then snd e == JStr "[REDACTED]"
                            else redacted levels' (snd e) || ((fst e == "truncated") && (snd e == JBool true))) l
      | JArr l => (Z.of_nat (length l) <=? 64) && forallb (redacted levels') l
      | JStr s => slen s <=? 3081
      | _ => true
      end
  end.

Lemma obj_set_length k v l : (length (obj_set k v l) <= S (length l))%nat.
Proof. induction l as [| [k' v'] l IH]; simpl; [lia |]. destruct (k == k'); simpl; [lia |]. destruct (key_lt k k'); simpl; lia. Qed.

Lemma obj_set_forall (P : string * json -> bool) k v l :
  P (k, v) = true -> forallb P l = true -> forallb P (obj_set k v l) = true.
Proof.
  intros Hk. induction l as [| [k' v'] l IH]; simpl; intros Hl; [by rewrite Hk |].
  apply andb_true_iff in Hl as [H1 H2]. destruct (k == k'); simpl; [by rewrite Hk |].
  destruct (key_lt k k'); simpl; [by rewrite Hk, H1, H2 |]. by rewrite H1, IH.
Qed.

Lemma sanitize_entries_redacted rec levels count entries clean :
  (forall v, redacted levels (rec v) = true) -> (count <= 64)%nat -> (length clean <= count)%nat ->
  let P e := if auditKeyIsSensitive (fst e) then snd e == JStr "[REDACTED]"
             else redacted levels (snd e) || ((fst e == "truncated") && (snd e == JBool true)) in
  auditKeyIsSensitive "truncated" = false -> forallb P clean = true ->
  let out := sanitize_entries rec count entries clean in (length out <= 65)%nat /\ forallb P out = true.
Proof.
  intros Hrec Hc Hl P Ht Hp. revert count clean Hc Hl Hp. induction entries as [| [k c] entries IH]; intros count clean Hc Hl Hp; simpl.
  { split; [lia | done]. }
  destruct (Z.leb_spec 64 (Z.of_nat count)).
  - pose proof (obj_set_length "truncated" (JBool true) clean). split; [lia |]. apply obj_set_forall; [| done].
    unfold P. cbn [fst snd]. rewrite Ht, !eqb_refl, orb_true_r. done.
  - pose proof (obj_set_length k (if auditKeyIsSensitive k then JStr "[REDACTED]" else rec c) clean).
    apply IH; [lia.. |]. apply obj_set_forall; [| done]. unfold P. cbn [fst snd].
    destruct (auditKeyIsSensitive k); [by rewrite eqb_refl | by rewrite Hrec].
Qed.

Lemma rune_width_length s w : rune_width s = Some w -> (w <= 4)%nat /\ (w <= String.length s)%nat.
Proof.
  destruct s as [| a [| b [| c [| d s]]]]; simpl; repeat case_match; intros [=]; subst; lia.
Qed.

Lemma str_take_length n s : slen (str_take n s) <= Z.of_nat n.
Proof. unfold slen, str_take. pose proof (substring_length 0 n s). lia. Qed.

Lemma substring_rest w s : (w <= String.length s)%nat ->
  slen (str_take w s) + slen (String.substring w (String.length s - w) s) <= slen s.
Proof.
  intros Hw. pose proof (substring_length 0 w s). pose proof (substring_length w (String.length s - w) s).
  unfold slen, str_take. lia.
Qed.

Lemma coerce_length fuel s : slen (coerce_utf8 fuel s) <= 3 * slen s.
Proof.
  revert s. induction fuel as [| fuel IH]; intros s; [destruct s; simpl; [done | rewrite slen_String; pose proof (slen_nonneg s); unfold slen at 1; simpl; lia] |].
  destruct s as [| c s]; [done |]. cbn [coerce_utf8]. destruct (rune_width (String c s)) as [w |] eqn:Ew.
  - pose proof (rune_width_length _ _ Ew) as [_ Hw]. pose proof (substring_rest w (String c s) Hw).
    rewrite slen_app. specialize (IH (String.substring w (String.length (String c s) - w) (String c s))).
    pose proof (slen_nonneg (str_take w (String c s))). lia.
  - rewrite slen_app, slen_String. specialize (IH s). assert (slen replacement = 3) as -> by done. lia.
Qed.

Lemma sanitize_levels_redacted iter levels v : auditKeyIsSensitive "truncated" = false ->
  redacted levels (sanitize_levels iter levels v) = true.
Proof.
  intros Ht. revert v. induction levels as [| levels IH]; intros v; [done |]. destruct v; cbn [sanitize_levels redacted]; try done.
  - destruct (Z.ltb_spec 1024 (slen s)); apply Z.leb_le; [| lia]. unfold json_text.
    pose proof (coerce_length (String.length (str_take 1024 s +:+ ellipsis)) (str_take 1024 s +:+ ellipsis)).
    rewrite slen_app in *. pose proof (str_take_length 1024 s). assert (slen ellipsis = 3) by done. lia.
  - apply andb_true_iff. split.
    + apply Z.leb_le. rewrite length_map, length_take. lia.
    + apply forallb_forall. intros x Hx. apply in_map_iff in Hx as (y & <- & _). apply IH.
  - destruct (sanitize_entries_redacted (sanitize_levels iter levels) levels 0 (iter l) []) as [Hl Hf]; [done | lia | simpl; lia | done | done |].
    rewrite Hf, andb_true_r. apply Z.leb_le. lia.
Qed.

Lemma truncated_not_sensitive : auditKeyIsSensitive "truncated" = false.
Proof. vm_compute. reflexivity. Qed.

(** No secret reaches the audit log: whatever detail a caller reports
    and in whatever order the map is walked, the stored detail holds only
    "[REDACTED]" under every key that names a password, secret, token,
    authorization, cookie, credential or key, and its depth, width and
    string lengths are bounded. *)
Theorem sanitizeAuditValue_redacts iter detail : redacted 5 (sanitizeAuditValue iter detail 0) = true.
Proof. apply sanitize_levels_redacted, truncated_not_sensitive. Qed.
End redaction.

(** ** Pages *)
Section pages.
Context `{SqlLower}.
Implicit Types (e : AuditEvent) (q : AuditEventQuery) (s : DB).

Lemma newest_total (a b : AuditEvent) : newest_first a b = true \/ newest_first b a = true.
Proof. unfold newest_first. b2p. lia. Qed.
Lemma newest_trans (a b c : AuditEvent) : newest_first a b = true -> newest_first b c = true -> newest_first a c = true.
Proof. unfold newest_first. b2p. intros. b2p. lia. Qed.

(** Sorting commutes with filtering. *)
Lemma filter_insert (p : AuditEvent -> bool) r l : StronglySorted (fun a b => newest_first a b = true) l ->
  List.filter p (insert_sorted newest_first r l) =
  if p r then insert_sorted newest_first r (List.filter p l) else List.filter p l.
Proof.
  induction 1 as [| x l Hs IH Hx]; simpl; [by destruct (p r) |].
  destruct (newest_first r x) eqn:E; simpl.
  - destruct (p r) eqn:Er; [| done]. destruct (p x) eqn:Ex; [simpl; by rewrite E |].
    symmetry. assert (forall y, In y (List.filter p l) -> newest_first r y = true) as Hy.
    { intros y Hy. apply filter_In in Hy as [Hy _]. eapply newest_trans; [exact E |]. by eapply List.Forall_forall in Hx. }
    destruct (List.filter p l) as [| y m]; [done |]. simpl. rewrite (Hy y) by (left; done). done.
  - rewrite IH. destruct (p x) eqn:Ex, (p r); simpl; rewrite ?E; done.
Qed.

Lemma filter_order (p : AuditEvent -> bool) l : List.filter p (order_by newest_first l) = order_by newest_first (List.filter p l).
Proof.
  induction l as [| r l IH]; simpl; [done |]. rewrite filter_insert by (apply order_by_sorted; eauto using newest_total, newest_trans).
  rewrite IH. destruct (p r); done.
Qed.

Definition distinct_ids (l : list AuditEvent) : Prop := unique ev_id l.

(** In a strictly descending list, what follows the element [e] is what lies
    below it. *)
Lemma below_is_rest l1 e l2 : distinct_ids (l1 ++ e :: l2) ->
  StronglySorted (fun a b => newest_first a b = true) (l1 ++ e :: l2) ->
  List.filter (fun x => ev_id x <? ev_id e) (l1 ++ e :: l2) = l2.
Proof.
  unfold distinct_ids, unique. induction l1 as [| x l1 IH]; simpl; intros Hd Hs.
  - rewrite Z.ltb_irrefl. apply StronglySorted_inv in Hs as [_ Hf]. apply NoDup_cons_iff in Hd as [Hn _].
    rewrite <- (filter_ext_in (fun _ => true)); [by induction l2 as [| y l2 IH2]; [| simpl; f_equal; apply IH2;
      [intros Hin; apply Hn; right | inversion Hf]] |].
    intros y Hy. eapply List.Forall_forall in Hf; [| exact Hy]. unfold newest_first in Hf. b2p. symmetry. apply Z.ltb_lt.
    assert (ev_id y <> ev_id e); [| lia]. intros E. apply Hn. rewrite <- E. by apply in_map.
  - apply StronglySorted_inv in Hs as [Hs Hf]. apply NoDup_cons_iff in Hd as [Hn Hd]. rewrite IH by done.
    assert (newest_first x e = true) as Hxe by (eapply List.Forall_forall in Hf; [exact Hf | rewrite in_app_iff; right; by left]).
    unfold newest_first in Hxe. apply Z.leb_le in Hxe. destruct (Z.ltb_spec (ev_id x) (ev_id e)); [lia | done].
Qed.

Definition before_cursor q (c : Z) : AuditEventQuery := MkAuditEventQuery (Limit q) c (QueryOutcome q) (Search q).

Lemma matches_before s q c e : 0 < c -> Before q = 0 \/ c < Before q ->
  audit_matches s (before_cursor q c) e = audit_matches s q e && (ev_id e <? c).
Proof.
  intros Hc Hb. unfold audit_matches. cbn [before_cursor QueryOutcome Search Before].
  rewrite (proj2 (Z.eqb_neq c 0)) by lia. rewrite orb_false_l. rewrite <- !andb_assoc. do 2 f_equal.
  destruct (Z.ltb_spec (ev_id e) c); rewrite ?andb_false_r, ?andb_true_r; [| done].
  symmetry. apply orb_true_iff. rewrite Z.eqb_eq, Z.ltb_lt. lia.
Qed.

Lemma filter_and {A} (p r : A -> bool) l : List.filter (fun x => p x && r x) l = List.filter r (List.filter p l).
Proof. induction l as [| x l IH]; simpl; [done |]. destruct (p x); simpl; [destruct (r x); by rewrite IH | done]. Qed.

Lemma selected_ids s q : distinct_ids (audit_events s) ->
  distinct_ids (order_by newest_first (rows (audit_matches s q) (audit_events s))).
Proof.
  unfold distinct_ids, unique. intros Hd. eapply Permutation.Permutation_NoDup; [apply Permutation.Permutation_map; symmetry; apply order_by_perm |].
  unfold rows. induction (audit_events s) as [| e l IH]; simpl in *; [constructor |]. apply NoDup_cons_iff in Hd as [Hn Hd].
  destruct (audit_matches s q e); [| auto]. simpl. constructor; [| auto]. intros Hin. apply Hn.
  apply in_map_iff in Hin as (x & Hx & Hin). apply filter_In in Hin as [Hin _]. apply in_map_iff. eauto.
Qed.

Lemma split_at {A} n (l : list A) : (0 < n < length l)%nat ->
  exists l1 x l2, take n l = l1 ++ [x] /\ l = l1 ++ x :: l2.
Proof.
  revert l. induction n as [| n IH]; intros [| x l] Hn; simpl in *; [lia.. |]. destruct n as [| n].
  - by exists [], x, l.
  - destruct (IH l ltac:(lia)) as (l1 & y & l2 & Ht & Hl). exists (x :: l1), y, l2. simpl. rewrite Ht. by split; [| f_equal].
Qed.

Lemma itoa_nonempty n : 0 <= n -> itoa n <> "".
Proof. intros Hn He. unfold itoa in He. destruct (n <? 0) eqn:E; [b2p; lia |]. pose proof (format_uint_nonempty (Z.to_N n)). done. Qed.

(** The log pages without gaps or repetition: a page holds at most the
    requested number of matching events, newest first; an empty cursor means
    that it holds all of them, and otherwise the events before the cursor
    are exactly the ones that follow this page. *)
Theorem AuditEvents_pages q s page s' :
  distinct_ids (audit_events s) -> (forall e, In e (audit_events s) -> 0 < ev_id e) ->
  AuditEvents q s = inr (page, s') ->
  s' = s /\ Z.of_nat (length (Events page)) <= Limit q /\
  if NextCursor page == "" then Events page = audit_selected s q
  else exists c, NextCursor page = itoa c /\ 0 < c /\
    audit_selected s q = Events page ++ audit_selected s (before_cursor q c).
Proof.
  intros Hd Hpos Hp. unfold AuditEvents in Hp. inv_tx.
  match goal with E : negb _ = true |- _ => rename E into Hq end. b2p. destruct Hq as [[[Hlo Hhi] Hbefore] _].
  split; [done |].
  set (L := order_by newest_first (rows (audit_matches s q) (audit_events s))).
  assert (audit_selected s q = List.map (audit_entry s) L) as Hsel by done.
  assert (forall n, length (take n (audit_selected s q)) = Nat.min n (length L)) as Hlen.
  { intros n. rewrite Hsel, length_take, length_map. done. }
  rewrite Hlen in *. destruct (Z.ltb_spec (Limit q) (Z.of_nat (Nat.min (Z.to_nat (Limit q + 1)) (length L)))) as [Hm | Hm]; cbn [Events NextCursor].
  - rewrite take_take. assert (Nat.min (Z.to_nat (Limit q)) (Z.to_nat (Limit q + 1)) = Z.to_nat (Limit q)) as -> by lia.
    split; [rewrite Hlen; lia |].
    destruct (split_at (Z.to_nat (Limit q)) L ltac:(lia)) as (l1 & e & l2 & Ht & HL).
    assert (take (Z.to_nat (Limit q)) (audit_selected s q) = List.map (audit_entry s) (l1 ++ [e])) as -> by (rewrite Hsel, <- Ht; apply firstn_map).
    assert (List.last (List.map EventID (List.map (audit_entry s) (l1 ++ [e]))) 0 = ev_id e) as -> by (rewrite !map_app; simpl; apply last_last).
    assert (In e L) as He by (rewrite HL, in_app_iff; right; by left).
    apply order_by_in, filter_In in He as [He Hme]. pose proof (Hpos e He).
    rewrite bool_decide_false by (apply itoa_nonempty; lia). exists (ev_id e). split_and!; [done.. |].
    rewrite Hsel. unfold audit_selected. rewrite HL at 1. rewrite map_app. cbn [List.map]. rewrite map_app, <- app_assoc. cbn [List.map app]. do 2 f_equal.
    assert (rows (audit_matches s (before_cursor q (ev_id e))) (audit_events s) =
      List.filter (fun x => ev_id x <? ev_id e) (rows (audit_matches s q) (audit_events s))) as ->.
    { unfold rows. rewrite <- filter_and. apply filter_ext. intros y. apply matches_before; [done |].
      unfold audit_matches in Hme. b2p. destruct Hme as [_ [|]]; auto. }
    rewrite <- filter_order. fold L. rewrite HL. symmetry. f_equal. apply below_is_rest.
    + rewrite <- HL. by apply selected_ids.
    + rewrite <- HL. apply order_by_sorted; eauto using newest_total, newest_trans.
  - split; [rewrite Hlen; lia |]. rewrite eqb_refl. apply take_ge. rewrite Hsel, length_map. lia.
Qed.
End pages.

(** ** Witness: the second page of a three event log *)
Section demo.
#[local] Instance demo_sql_lower : SqlLower := fun s => s.

Definition demo_events : DB := demo_db <| audit_events :=
  [MkAuditEvent 1 None "auth.login" "success" None None (JObj []) 0;
   MkAuditEvent 2 (Some "alice") "desktop.connected" "success" None None (JObj []) 1;
   MkAuditEvent 3 None "auth.login_failed" "failure" None None (JObj []) 2] |>.

Lemma AuditEvents_pages_witness : exists page s',
  AuditEvents (MkAuditEventQuery 2 0 "" "") demo_events = inr (page, s') /\ Z.of_nat (length (Events page)) <= 2 /\
  NextCursor page = "2".
Proof.
  eexists _, _. split; [vm_compute; reflexivity |]. split; [| reflexivity].
  refine (proj1 (proj2 (AuditEvents_pages (MkAuditEventQuery 2 0 "" "") demo_events _ _ _ _ _))).
  - repeat constructor; simpl; intuition discriminate.
  - intros e He. simpl in He. destruct He as [<- | [<- | [<- | []]]]; reflexivity.
  - vm_compute. reflexivity.
Defined.
End demo.

(** * A policy revision pins its settings

    Gateway tickets and descriptors carry a policy revision; these theorems
    say why that is enough. *)

(** The settings a revision stands for. *)
Definition settings (p : DesktopAccessPolicy) :=
  (dp_privilege_mode p, dp_clipboard_redirection p, dp_drive_redirection p, dp_managed_background p).

(** One row's evolution. *)
Definition policy_advances (p p' : DesktopAccessPolicy) : Prop :=
  dp_vmid p' = dp_vmid p /\ dp_desired_revision p <= dp_desired_revision p' /\
  (dp_desired_revision p' = dp_desired_revision p -> settings p' = settings p).

(** An applied policy is applied at its desired revision. *)
Definition policy_honest (p : DesktopAccessPolicy) : Prop :=
  dp_state p = PolApplied -> dp_applied_revision p = dp_desired_revision p.

Implicit Types (s : DB) (p : DesktopAccessPolicy) (T : list DesktopAccessPolicy).

(** Every statement of the program on the policy table. *)
Inductive policy_step s : DB -> Prop :=
| step_ensure now vmid : policy_step s (state_of (EnsureDesktopAccessPolicy now vmid) s)
| step_put now vmid mode clipboard drive background actor :
    policy_step s (state_of (PutDesktopAccessPolicy now vmid mode clipboard drive background actor) s)
| step_applied now vmid revision os : policy_step s (state_of (MarkDesktopAccessPolicyApplied now vmid revision os) s)
| step_failed now vmid revision os msg : policy_step s (state_of (MarkDesktopAccessPolicyFailed now vmid revision os msg) s)
| step_outside s' : desktop_access_policies s' = desktop_access_policies s -> policy_step s s'.

Definition policy_trace : DB -> DB -> Prop := rtc policy_step.

(** A table step: the rows advance one to one, and new VMIDs may appear. *)
Definition table_advances T T' : Prop :=
  (forall p', In p' T' -> (exists p, In p T /\ policy_advances p p' /\ (policy_honest p -> policy_honest p')) \/
     (policy_honest p' /\ forall p, In p T -> dp_vmid p <> dp_vmid p')) /\
  (unique dp_vmid T -> unique dp_vmid T').

Lemma table_advances_refl T : table_advances T T.
Proof. split; [| done]. intros p Hp. left. exists p. repeat split; auto; lia. Qed.

Lemma update_advances q f T : (forall p, q p = true -> policy_advances p (f p) /\ policy_honest (f p)) ->
  table_advances T (update_where q f T).
Proof.
  intros Hf. split.
  - intros p' Hp. apply in_update_where in Hp as (p & Hp & ->). left. exists p. split; [done |].
    destruct (q p) eqn:E; [destruct (Hf p E); done | repeat split; auto; lia].
  - unfold unique. assert (List.map dp_vmid (update_where q f T) = List.map dp_vmid T) as ->; [| done].
    unfold update_where. rewrite map_map. apply map_ext. intros p. destruct (q p) eqn:E; [| done]. by destruct (Hf p E) as [[-> _] _].
Qed.

Lemma upsert_advances vmid f new T :
  (forall p, dp_vmid p = vmid -> policy_advances p (f p) /\ (policy_honest p -> policy_honest (f p))) ->
  dp_vmid new = vmid -> policy_honest new ->
  table_advances T (upsert (fun p => dp_vmid p == vmid) f new T).
Proof.
  intros Hf Hv Hn. split.
  - intros p' Hp. apply in_upsert in Hp as [[Hp Hq] | [(p & Hp & Hq & ->) | [-> Hno]]].
    + left. exists p'. repeat split; auto; lia.
    + left. exists p. split; [done |]. b2p. by apply Hf.
    + right. split; [done |]. intros p Hp. rewrite exists_where_false in Hno. specialize (Hno p Hp). b2p. congruence.
  - intros Hu. unfold upsert. destruct (exists_where _ T) eqn:E.
    + unfold unique. assert (List.map dp_vmid (update_where (fun p => dp_vmid p == vmid) f T) = List.map dp_vmid T) as ->; [| done].
      unfold update_where. rewrite map_map. apply map_ext. intros p. case_bool_decide as Eq; [| done]. by destruct (Hf p Eq) as [[-> _] _].
    + apply unique_insert; [done |]. intros p Hp. rewrite exists_where_false in E. specialize (E p Hp). b2p. congruence.
Qed.

Lemma mark_policy_advances vmid revision f s x s' : mark_policy vmid revision f s = inr (x, s') ->
  (forall p, dp_desired_revision p = revision -> policy_advances p (f p) /\ policy_honest (f p)) ->
  table_advances (desktop_access_policies s) (desktop_access_policies s').
Proof.
  unfold mark_policy, update_returning. intros Hm Hf. inv_sql. simpl. apply update_advances. intros p Hp. b2p. apply Hf. tauto.
Qed.

Lemma policy_step_advances s s' : policy_step s s' ->
  table_advances (desktop_access_policies s) (desktop_access_policies s').
Proof.
  destruct 1 as [now vmid | now vmid mode clipboard drive background actor | now vmid revision os | now vmid revision os msg
    | s' ->]; [.. | apply table_advances_refl].
  all: match goal with |- context [desktop_access_policies (state_of ?m ?s)] =>
    unfold state_of, run; destruct (m s) as [e | [a s']] eqn:E; simpl; [apply table_advances_refl |] end.
  - unfold EnsureDesktopAccessPolicy, DesktopAccessPolicyByVMID in E. inv_tx. simpl. apply upsert_advances; [| done | done].
    intros p _. repeat split; auto; lia.
  - unfold PutDesktopAccessPolicy, references in E. inv_tx. simpl. apply upsert_advances; [| done | done].
    intros p Hv. split; [| done]. unfold policy_advances, settings. simpl. split; [done |].
    destruct (policy_differs mode clipboard drive background p) eqn:Ed; [split; [lia |]; intros; lia |]. split; [lia |]. intros _.
    unfold policy_differs in Ed. b2p. destruct_and!. congruence.
  - eapply mark_policy_advances; [exact E |]. intros p Hr. split; [| by intros _]. repeat split; simpl; auto; lia.
  - eapply mark_policy_advances; [exact E |]. intros p Hr. split; [| done]. repeat split; simpl; auto; lia.
Qed.

Lemma trace_unique s s' : policy_trace s s' -> unique dp_vmid (desktop_access_policies s) -> unique dp_vmid (desktop_access_policies s').
Proof. induction 1 as [| s s1 s' Hs _ IH]; [done |]. intros Hu. apply IH. by apply policy_step_advances in Hs as [_ Hs]; auto. Qed.

Lemma policy_advances_trans p1 p2 p3 : policy_advances p1 p2 -> policy_advances p2 p3 -> policy_advances p1 p3.
Proof. intros (? & ? & H1) (? & ? & H2). split; [congruence |]. split; [lia |]. intros ?. rewrite H2, H1 by lia. done. Qed.

(** A policy revision pins its settings (C36): along every sequence of policy
    operations a desktop's desired revision never decreases, and as long as it
    is the same number, privilege mode, clipboard, drive and background
    settings are the same; so a ticket or descriptor bound to an older
    snapshot can never be taken for the current one. *)
Theorem policy_revision_pins_settings s s' p p' :
  unique dp_vmid (desktop_access_policies s) -> policy_trace s s' ->
  In p (desktop_access_policies s) -> In p' (desktop_access_policies s') -> dp_vmid p' = dp_vmid p ->
  dp_desired_revision p <= dp_desired_revision p' /\
  (dp_desired_revision p' = dp_desired_revision p -> settings p' = settings p).
Proof.
  intros Hu Htr Hp Hp' Hv. assert (policy_advances p p') as (_ & ? & ?); [| done].
  revert Hu p Hp Hp' Hv. induction Htr as [s | s s1 s' Hs Htr IH]; intros Hu p Hp Hp' Hv.
  - assert (p' = p) as ->; [by eapply unique_inj |]. repeat split; auto; lia.
  - pose proof (policy_step_advances _ _ Hs) as [Hadv Hu1].
    assert (exists p1, In p1 (desktop_access_policies s1) /\ dp_vmid p1 = dp_vmid p) as (p1 & Hp1 & Hv1).
    { clear -Hs Hp. destruct Hs as [now vmid | now vmid mode clipboard drive background actor | now vmid revision os
        | now vmid revision os msg | s1 ->]; [.. | by exists p].
      all: match goal with |- context [desktop_access_policies (state_of ?m ?s)] =>
        unfold state_of, run; destruct (m s) as [e | [a s']] eqn:E; simpl; [by exists p |] end.
      all: assert (forall q f, (forall x, q x = true -> dp_vmid (f x) = dp_vmid x) ->
        exists p1, In p1 (update_where q f (desktop_access_policies s)) /\ dp_vmid p1 = dp_vmid p) as Hup
        by (intros q f Hf; exists (if q p then f p else p); split; [apply in_update_where; eauto | destruct (q p) eqn:Eq; auto]).
      all: assert (forall q f new, (forall x, q x = true -> dp_vmid (f x) = dp_vmid x) ->
        exists p1, In p1 (upsert q f new (desktop_access_policies s)) /\ dp_vmid p1 = dp_vmid p) as Hins
        by (intros q f new Hf; unfold upsert; destruct (exists_where q _); [by apply Hup | exists p; rewrite in_app_iff; auto]).
      - unfold EnsureDesktopAccessPolicy, DesktopAccessPolicyByVMID in E. inv_tx. simpl. by apply Hins.
      - unfold PutDesktopAccessPolicy, references in E. inv_tx. simpl. by apply Hins.
      - unfold MarkDesktopAccessPolicyApplied, mark_policy, update_returning in E. inv_sql. simpl. by apply Hup.
      - unfold MarkDesktopAccessPolicyFailed, mark_policy, update_returning in E. inv_sql. simpl. by apply Hup. }
    destruct (Hadv p1 Hp1) as [(p0 & Hp0 & Ha & _) | [_ Hno]]; [| by destruct (Hno p Hp)].
    assert (p0 = p) as -> by (eapply unique_inj; [exact Hu | done | done | destruct Ha; congruence]).
    eapply policy_advances_trans; [exact Ha |]. apply IH; [auto | done | done | congruence].
Qed.

(** The gateway's reading of "applied" is sound: in every reachable state
    a policy in state applied has been applied at its desired revision, so an
    out-of-date Guest is never reported as up to date. *)
Theorem applied_policy_is_current s s' : (forall p, In p (desktop_access_policies s) -> policy_honest p) ->
  policy_trace s s' -> forall p, In p (desktop_access_policies s') -> policy_honest p.
Proof.
  intros Hh Htr. revert Hh. induction Htr as [| s s1 s' Hs _ IH]; [done |]. intros Hh. apply IH.
  intros p Hp. apply policy_step_advances in Hs as [Hadv _]. destruct (Hadv p Hp) as [(p0 & Hp0 & _ & Hi) | [? _]]; auto.
Qed.

Definition demo_relaxed : DB := state_of (PutDesktopAccessPolicy 5 101 "local_admin" true true true "root") demo_db.

Lemma policy_revision_pins_settings_witness : exists p', In p' (desktop_access_policies demo_relaxed) /\
  dp_privilege_mode p' = "local_admin" /\ dp_desired_revision policy101 <= dp_desired_revision p' /\ dp_desired_revision p' = 2.
Proof.
  eexists. split; [left; reflexivity |]. split; [reflexivity |]. split; [| reflexivity].
  apply (policy_revision_pins_settings demo_db demo_relaxed policy101).
  - repeat constructor; simpl; tauto.
  - apply rtc_once. apply step_put.
  - left. reflexivity.
  - left. reflexivity.
  - reflexivity.
Defined.

Definition demo_applied : DB := state_of (MarkDesktopAccessPolicyApplied 7 101 2 "linux") demo_relaxed.

Lemma applied_policy_is_current_witness : exists p, In p (desktop_access_policies demo_applied) /\ dp_state p = PolApplied /\
  dp_desired_revision p = 2 /\ policy_honest p.
Proof.
  eexists. split; [left; reflexivity |]. do 2 (split; [reflexivity |]).
  apply (applied_policy_is_current demo_db demo_applied).
  - intros p [<- | []] _. reflexivity.
  - apply (rtc_l policy_step _ demo_relaxed); [apply step_put | apply rtc_once; apply step_applied].
  - left. reflexivity.
Defined.
