(* ===== verification/StoreCatalog.v ===== *)
(** * Catalogues and listings ([internal/store/store.go])

    Image and GPU profiles, and the listing queries of users, desktops,
    agents, assignments and tokens.  Listings are ordered by the columns the
    query names; [sql_lower] and the collation are the database's. *)
From stdpp Require Import base strings list.
From Stdlib Require Import ZArith Lia.
From S2P Require Import Prelude GoStrings Db Triggers StoreAccess StoreSession StoreAudit StoreJobs.

Local Open Scope string_scope.
Local Open Scope list_scope.
Local Open Scope Z_scope.

#[export] Instance image_profile_eta : Eta ImageProfile := fun p =>
  MkImageProfile (ip_id p) (ip_display_name p) (ip_os_family p) (ip_os_version p) (ip_architecture p) (ip_lifecycle p)
    (ip_enabled p) (ip_source_node p) (ip_source_iso p) (ip_source_iso_checksum p) (ip_driver_iso p)
    (ip_driver_iso_checksum p) (ip_template_vmid p) (ip_mirror_url p) (ip_security_mirror_url p) (ip_storage_pool p)
    (ip_bridge p) (ip_windows_image_name p) (ip_default_cores p) (ip_default_memory_mb p) (ip_default_disk_gb p)
    (ip_firmware p) (ip_tpm_version p) (ip_agent_kind p) (ip_desktop_protocol p) (ip_default_gpu_profile_id p)
    (ip_build_status p) (ip_status_detail p) (ip_updated_at p).
#[export] Instance gpu_profile_eta : Eta GPUProfile := fun p =>
  MkGPUProfile (gp_id p) (gp_display_name p) (gp_mode p) (gp_vendor_id p) (gp_device_class p) (gp_resource_mapping p)
    (gp_mdev_type p) (gp_enabled p) (gp_exclusive p) (gp_allow_live_migration p) (gp_updated_at p).

Section catalog.
Context `{Collation} `{SqlLower} (now : time).

Definition by_lower {R} (key : R -> string) (a b : R) : bool := text_lt (sql_lower (key a)) (sql_lower (key b)).
Definition by_text_key {R} (key : R -> string) (a b : R) : bool := text_le (key a) (key b).

(** ** Users, desktops, agents *)
Definition Users : tx DB (list UserAccount) :=
  tgets (fun s => List.map user_account
    (order_by (then_by (by_lower u_display_name) (then_by (by_lower u_username) (by_text_key u_id))) (users s))).

Definition ManagedDesktops : tx DB (list DesktopInfo) :=
  tgets (fun s => List.map scanManagedDesktop
    (order_by (then_by (by_lower d_display_name) (asc_le d_vmid)) (managed_desktops s))).

Definition UserAssignedDesktopVMIDs (userID : string) : tx DB (list Z) :=
  tgets (fun s => order_by Z.leb (List.nodup Z.eq_dec
    (List.filter (effective_user_desktop_access s userID) (List.map d_vmid (managed_desktops s))))).

Definition AgentAssignedDesktopVMIDs (agentID : string) : tx DB (list Z) :=
  tgets (fun s => order_by Z.leb (List.map aa_desktop_vmid
    (rows (fun a => (aa_agent_id a == agentID) && agent_desktop_access s agentID (by_vmid (aa_desktop_vmid a)))
      (agent_desktop_assignments s)))).

Definition AgentPrincipals : tx DB (list AgentPrincipal) :=
  tgets (fun s => order_by (then_by (by_lower ap_display_name) (by_text_key ap_id)) (agent_principals s)).

(** Owners of personal desktops, users of shared ones, agents and groups. *)
Definition personal_assignment (d : ManagedDesktop) : option DesktopAssignment :=
  match d_access_mode d, d_owner_user_id d with
  | Personal, Some owner => Some (MkDesktopAssignment "user" owner (d_vmid d) "" (d_updated_at d))
  | _, _ => None
  end.
Definition shared_desktop (s : DB) (vmid : Z) : bool :=
  exists_where (fun d => (d_vmid d == vmid) && (d_access_mode d == Shared)) (managed_desktops s).

Definition DesktopAssignments : tx DB (list DesktopAssignment) :=
  tgets (fun s => order_by
    (then_by (fun a b => text_lt (SubjectType a) (SubjectType b))
      (then_by (fun a b => text_lt (SubjectID a) (SubjectID b)) (asc_le DesktopVMID)))
    (omap personal_assignment (managed_desktops s) ++
     List.map (fun a => MkDesktopAssignment "user" (ua_user_id a) (ua_desktop_vmid a) (coalesce (ua_created_by a)) (ua_created_at a))
       (rows (fun a => shared_desktop s (ua_desktop_vmid a)) (user_desktop_assignments s)) ++
     List.map (fun a => MkDesktopAssignment "agent" (aa_agent_id a) (aa_desktop_vmid a) (coalesce (aa_created_by a)) (aa_created_at a))
       (agent_desktop_assignments s) ++
     List.map (fun a => MkDesktopAssignment "group" (ga_group_id a) (ga_desktop_vmid a) (coalesce (ga_created_by a)) (ga_created_at a))
       (group_desktop_assignments s))).

Definition APITokens (userID : string) : tx DB (list APITokenInfo) :=
  tgets (fun s => List.map api_token_info
    (order_by (then_by (fun a b => at_created_at b <? at_created_at a) (by_text_key at_id))
      (rows (fun t => at_user_id t == userID) (api_tokens s)))).

(** ** Groups, profiles and bindings *)
Definition IdentityProfiles : tx DB (list IdentityProfile) :=
  tgets (fun s => order_by
    (then_by (fun a b => text_lt (p_platform a) (p_platform b)) (then_by (fun a b => negb (p_experimental a) && p_experimental b)
      (then_by (by_lower p_display_name) (by_text_key p_id)))) (identity_profiles s)).

(** Each group with the number of its members. *)
Definition IdentityGroups : tx DB (list (IdentityGroup * nat)) :=
  tgets (fun s => List.map (fun g => (g, member_count s (g_id g)))
    (order_by (then_by (fun a b => text_lt (g_source a) (g_source b)) (then_by (by_lower g_display_name) (by_text_key g_id)))
      (identity_groups s))).

Definition IdentityGroupMemberships : tx DB (list GroupMembership) :=
  tgets (fun s => order_by (then_by (fun a b => text_lt (m_group_id a) (m_group_id b)) (by_text_key m_user_id)) (identity_group_memberships s)).

Definition GuestIdentityBindings : tx DB (list GuestIdentityBinding) :=
  tgets (fun s => order_by (then_by (asc b_desktop_vmid) (by_text_key b_guest_username)) (guest_identity_bindings s)).

(** ** Image profiles *)
Definition image_checks (p : ImageProfile) : bool :=
  (1 <=? ip_default_cores p) && (ip_default_cores p <=? 256) &&
  (512 <=? ip_default_memory_mb p) && (ip_default_memory_mb p <=? 1048576) &&
  (8 <=? ip_default_disk_gb p) && (ip_default_disk_gb p <=? 16384) &&
  ((ip_firmware p == "seabios") || (ip_firmware p == "uefi")) && ((ip_tpm_version p == "none") || (ip_tpm_version p == "2.0")) &&
  existsb (fun st => ip_build_status p == st) ["draft"; "blocked"; "building"; "testing"; "ready"; "failed"].

Definition os_rank (p : ImageProfile) : Z := if ip_os_family p == "linux" then 0 else 1.

Definition ImageProfiles : tx DB (list ImageProfile) :=
  tgets (fun s => order_by (then_by (asc os_rank) (by_text_key ip_id)) (image_profiles s)).

Definition ImageProfileByID (id : string) : tx DB ImageProfile :=
  s ← tget;
  trow (select_one (fun p => ip_id p == id) (image_profiles s)) ErrNotFound.

Definition ImageProfileByTemplateVMID (vmid : Z) : tx DB ImageProfile :=
  s ← tget;
  let matches := rows (fun p => (ip_template_vmid p == Some vmid) && (0 <? vmid)) (image_profiles s) in
  p ← trow (head matches) ErrNotFound;
  ensure (bool_decide (length matches = 1%nat)) ErrConflict;;
  mret p.

(** [profile] carries the editable columns; the others are kept. *)
Definition UpdateImageProfile (profile : ImageProfile) : tx DB ImageProfile :=
  s ← tget;
  let f (p : ImageProfile) := p
    <| ip_display_name := ip_display_name profile; ip_enabled := ip_enabled profile;
       ip_source_node := ip_source_node profile; ip_source_iso := ip_source_iso profile;
       ip_source_iso_checksum := ip_source_iso_checksum profile; ip_driver_iso := ip_driver_iso profile;
       ip_driver_iso_checksum := ip_driver_iso_checksum profile |>
    <| ip_template_vmid := nullableInt (default 0 (ip_template_vmid profile)); ip_mirror_url := ip_mirror_url profile;
       ip_security_mirror_url := ip_security_mirror_url profile; ip_storage_pool := ip_storage_pool profile;
       ip_bridge := ip_bridge profile; ip_windows_image_name := ip_windows_image_name profile;
       ip_default_gpu_profile_id := ip_default_gpu_profile_id profile |>
    <| ip_build_status := ip_build_status profile; ip_status_detail := ip_status_detail profile;
       ip_default_cores := ip_default_cores profile; ip_default_memory_mb := ip_default_memory_mb profile;
       ip_default_disk_gb := ip_default_disk_gb profile; ip_firmware := ip_firmware profile;
       ip_tpm_version := ip_tpm_version profile |>
    <| ip_updated_at := now |> in
  let here p := ip_id p == ip_id profile in
  check (forallb (fun p => image_checks (f p)) (rows here (image_profiles s)));;
  references (negb (exists_where here (image_profiles s)) ||
              exists_where (fun g => gp_id g == ip_default_gpu_profile_id profile) (gpu_profiles s));;
  update_returning image_profiles (fun t s => s <| image_profiles := t |>) here f ErrNotFound.

Definition UpdateImageBuildState (id state detail : string) : tx DB unit :=
  s ← tget;
  let f (p : ImageProfile) := p <| ip_build_status := state; ip_status_detail := detail; ip_updated_at := now |> in
  check (forallb (fun p => image_checks (f p)) (rows (fun p => ip_id p == id) (image_profiles s)));;
  tmod (fun s => s <| image_profiles := update_where (fun p => ip_id p == id) f (image_profiles s) |>).

(** ** GPU profiles *)
Definition mode_rank (p : GPUProfile) : Z := if gp_mode p == "none" then 0 else 1.

Definition GPUProfiles : tx DB (list GPUProfile) :=
  tgets (fun s => order_by (then_by (asc mode_rank) (by_text_key gp_id)) (gpu_profiles s)).

Definition GPUProfileByID (id : string) : tx DB GPUProfile :=
  s ← tget;
  trow (select_one (fun p => gp_id p == id) (gpu_profiles s)) ErrNotFound.

Definition UpdateGPUProfile (profile : GPUProfile) : tx DB GPUProfile :=
  update_returning gpu_profiles (fun t s => s <| gpu_profiles := t |>) (fun p => gp_id p == gp_id profile)
    (fun p => p <| gp_display_name := gp_display_name profile; gp_resource_mapping := gp_resource_mapping profile;
                   gp_enabled := gp_enabled profile; gp_updated_at := now |>) ErrNotFound.
End catalog.
