(* ===== verification/Pve.v ===== *)
(** * Data of the PVE API ([internal/pve])

    The types of the client, the checks it makes of what it sends and of what
    it is told, and the texts in which PVE writes properties, tags and device
    paths.  Fields that nobody reads (processor and memory figures) are
    left out. *)
From stdpp Require Import base strings list.
From Stdlib Require Import ZArith Lia Ascii.
From S2P Require Import Prelude GoStrings Auth Db Json GuestAccount ComputerWire.

Local Open Scope string_scope.
Local Open Scope list_scope.
Local Open Scope Z_scope.

(** ** Inventory *)
Record VM : Set := MkVM {
  vm_id : Z;
  vm_node : string;
  vm_kind : string;
  vm_status : string;
  vm_template : bool;
  vm_managed : bool;
  vm_tags : list string;
  vm_name : string
}.

(** [pve.VM] with an identifier and a node only. *)
Definition machine_at (vmid : Z) (node : string) : VM := MkVM vmid node "" "" false false [] "".

Record PveNode : Set := MkPveNode { pn_name : string; pn_status : string }.
Record PveStorage : Set := MkPveStorage { ps_name : string; ps_content : string }.
Record Summary : Set := MkSummary { sm_nodes : list PveNode; sm_vms : list VM; sm_storage : list PveStorage; sm_writable : bool }.

Record VMConfiguration : Set := MkVMConfiguration {
  vc_digest : string;
  vc_description : string;
  vc_lock : string;
  vc_template : bool;
  vc_name : string;
  vc_os_type : string;
  vc_disks : list (string * string);
  vc_network_adapters : list (string * string);
  vc_pci_host_devices : list (string * string);
  vc_ip_configs : list (string * string)
}.

Record CloneRequest : Set := MkCloneRequest {
  cl_description : string;
  cl_source_node : string;
  cl_source_vmid : Z;
  cl_target_vmid : Z;
  cl_name : string;
  cl_target_node : string;
  cl_storage : string;
  cl_full : bool
}.

Record TaskStatus : Set := MkTaskStatus { ts_status : string; ts_exit_status : string }.

Record TaskEvidence : Set := MkTaskEvidence {
  te_upid : string;
  te_node : string;
  te_type : string;
  te_id : string;
  te_user : string;
  te_token_id : string;
  te_start_time : Z;
  te_status : string;
  te_exit_status : string
}.

Record CloneTaskCandidate : Set := MkCandidate {
  tc_upid : string;
  tc_node : string;
  tc_type : string;
  tc_id : string;
  tc_user : string;
  tc_token_id : string;
  tc_start_time : Z
}.

Record MDevType : Set := MkMDevType { md_type : string; md_name : string; md_available : Z; md_description : string }.

Record GPUDevice : Set := MkGPUDevice {
  gd_node : string;
  gd_id : string;
  gd_vendor_id : string;
  gd_device_id : string;
  gd_subsystem_vendor_id : string;
  gd_subsystem_device_id : string;
  gd_class : string;
  gd_iommu_group : option Z;
  gd_mdev_capable : bool;
  gd_mdev_types : list MDevType;
  gd_assignable : bool
}.

Record PCIResourceMappingEntry : Set := MkMappingEntry {
  me_node : string;
  me_device_id : string;
  me_device_paths : list string;
  me_hardware_id : string;
  me_subsystem_id : string;
  me_iommu_group : string
}.

Record PCIResourceMapping : Set := MkMapping {
  pm_id : string;
  pm_description : string;
  pm_mdev : bool;
  pm_entries : list PCIResourceMappingEntry
}.

(** ** Maps of strings

    A Go map as the list of its assignments: the last one is read, an absent
    key reads as the empty string. *)
Definition map_find {A} (k : string) (l : list (string * A)) : option A :=
  option_map snd (List.find (fun e => fst e == k) (rev l)).
Definition map_get (k : string) (l : list (string * string)) : string := default "" (map_find k l).

(** ** Names and handles *)
Definition alphanumeric (c : ascii) : bool := is_digit c || is_lower c || is_upper c.
Definition is_letter (c : ascii) : bool := is_lower c || is_upper c.

(** A first character and up to [n] more. *)
Definition begins_with (first cls : ascii -> bool) (n : Z) (s : string) : bool :=
  match s with String c rest => first c && match_class "" cls 0 n rest | EmptyString => false end.

Definition name_char (c : ascii) : bool := alphanumeric c || bool_decide (c ∈ ["_"; "."; "-"]%char).
Definition node_pattern : string -> bool := begins_with alphanumeric name_char 127.
Definition mdev_pattern : string -> bool := begins_with alphanumeric name_char 127.
Definition mapping_pattern : string -> bool :=
  begins_with is_letter (fun c => alphanumeric c || bool_decide (c ∈ ["_"; "-"]%char)) 63.

Definition task_handle (upid : string) : bool :=
  has_prefix "UPID:" upid && (slen upid <=? 1024) && negb (contains_any upid ("/\?#" +:+ byte_string [13; 10; 0])).

Definition ValidConfigurationDigest (digest : string) : bool := match_class "" is_hex 40 40 digest.

(** ** Evidence of tasks *)
Definition task_evidence_ok (node upid : string) (e : TaskEvidence) : bool :=
  negb ((te_upid e != upid) || (te_node e != node) || (te_type e == "") || (te_user e == "") || (te_start_time e <=? 0) ||
    ((te_status e != "running") && (te_status e != "stopped")) ||
    ((te_status e == "stopped") && (te_exit_status e == "")) || ((te_status e == "running") && (te_exit_status e != ""))).

(** [principal := e.User; if e.TokenID != "" { principal += "!" + e.TokenID }] *)
Definition task_principal (user token : string) : string := if token == "" then user else user +:+ "!" +:+ token.

Definition candidate_ok (node : string) (source since until : Z) (c : CloneTaskCandidate) : bool :=
  negb ((tc_node c != node) || (tc_type c != "qmclone") || (tc_id c != itoa source) || (tc_user c == "") || (tc_start_time c <? since) ||
    (until <? tc_start_time c) || negb (task_handle (tc_upid c))).

(** Every candidate checked, and none twice. *)
Definition candidates_ok (node : string) (source since until : Z) (l : list CloneTaskCandidate) : bool :=
  (Z.of_nat (length l) <=? 50) && forallb (candidate_ok node source since until) l && unique_index (fun c => Some (tc_upid c)) l.

Definition candidate_window (node : string) (source since until : Z) : bool :=
  negb (negb (node_pattern node) || (source <=? 0) || (since <=? 0) || (until <? since) || (3600 <? until - since)).

(** ** The log of a clone *)

(** A number without leading zeros. *)
Definition log_number (s : string) : option string :=
  match s with String c rest => if in_range "1" "9" c && str_forall is_digit rest then Some s else None | EmptyString => None end.

(** The whole line: creating a clone of VM <number> with ID <number>. *)
Definition declaration (line : string) : option (string * string) :=
  rest ← cut_prefix "creating a clone of VM " line;
  let '(source, after, _) := cut " " rest in
  target ← cut_prefix "with ID " after;
  source ← log_number source;
  target ← log_number target;
  Some (source, target).

(** The lines, numbered from [n]; [None] is an error. *)
Fixpoint scan_log (n : Z) (found : option (Z * Z)) (lines : list (Z * string)) : option (option (Z * Z)) :=
  match lines with
  | [] => Some found
  | (number, text) :: rest =>
      if (number != n) || (16384 <? slen text) then None else
      match declaration text with
      | None => scan_log (n + 1) found rest
      | Some (source, target) =>
          match found with
          | Some _ => None
          | None =>
              source ← Atoi source;
              target ← Atoi target;
              if target =? source then None else scan_log (n + 1) (Some (source, target)) rest
          end
      end
  end.
Definition read_clone_log (lines : list (Z * string)) : option (option (Z * Z)) :=
  if 32 <? Z.of_nat (length lines) then None else scan_log 1 None lines.

(** ** Tags and properties *)
Definition splitPVETags (value : string) : list string :=
  order_by String.leb (List.filter (fun t => t != "") (List.map TrimSpace (split "," (replace_byte ";" "," value)))).

Definition parsePropertyString (value : string) : list (string * string) :=
  List.concat (List.map (fun field => let '(key, item, found) := cut "=" field in
    if found : bool then [(TrimSpace key, TrimSpace item)] else []) (split "," value)).

Fixpoint match_parts (expected : list (string * string)) (parts : list string) : bool :=
  match parts with
  | [] => match expected with [] => true | _ => false end
  | part :: rest =>
      let '(key, value, ok) := cut "=" part in
      match List.find (fun e => fst e == key) expected with
      | Some want => ok && (value == snd want) && match_parts (List.filter (fun e => fst e != key) expected) rest
      | None => false
      end
  end.
Definition gpu_properties (mapping mdev : string) : list (string * string) :=
  if mdev != "" then [("mapping", mapping); ("mdev", mdev)] else [("mapping", mapping); ("pcie", "1"); ("x-vga", "1")].
Definition MatchesGPUResourceMapping (raw mapping mdev : string) : bool :=
  if (mapping == "") || (1024 <? slen raw) then false
  else let expected := gpu_properties mapping mdev in
    let parts := split "," raw in
    if negb (length parts =? length expected)%nat then false else match_parts expected parts.

Definition HasCloudInitDisk (c : VMConfiguration) : bool :=
  existsb (fun disk => let volume := fst (fst (cut "," (snd disk))) in has_suffix "-cloudinit" volume || has_suffix ":cloudinit" volume) (vc_disks c).

(** ** The configuration of a VM *)

(** A member that PVE writes as a string or as a number. *)
Definition rawScalarString (raw : option json) : string :=
  match raw with
  | None | Some JNull => ""
  | Some (JStr s) => s
  | Some v => json_print v
  end.

Definition numbered (prefix s : string) : bool := match_class prefix is_digit 1 (slen s) s.
Definition disk_pattern (s : string) : bool := existsb (fun p => numbered p s) ["ide"; "sata"; "scsi"; "virtio"].

Definition configuration_of (l : list (string * json)) : VMConfiguration :=
  let value key := rawScalarString (map_find key l) in
  let members (p : string -> bool) := List.map (fun e => (fst e, value (fst e))) (List.filter (fun e => p (fst e)) l) in
  MkVMConfiguration (value "digest") (value "description") (value "lock") (value "template" == "1") (value "name") (value "ostype")
    (members disk_pattern) (members (numbered "net")) (members (numbered "hostpci")) (members (numbered "ipconfig")).

(** ** Devices *)
Section devices.
Context `{UnicodeLower}.

(** hh or hh.f *)
Definition device_function (s : string) : bool :=
  match split "." s with
  | [device] => match_class "" is_lower_hex 2 2 device
  | [device; function] => match_class "" is_lower_hex 2 2 device && match_class "" (in_range "0" "7") 1 1 function
  | _ => false
  end.

Definition normalizePCIPath (value : string) : string :=
  let value := ToLower (TrimSpace value) in
  match split ":" value with
  | [bus; device] => if match_class "" is_lower_hex 2 2 bus && device_function device then "0000:" +:+ value else ""
  | [domain; bus; device] =>
      if match_class "" is_lower_hex 4 (slen domain) domain && match_class "" is_lower_hex 2 2 bus && device_function device then value else ""
  | _ => ""
  end.

(** [strings.ReplaceAll(s, "0x", "")] *)
Fixpoint without_0x (s : string) : string :=
  match s with
  | String c1 s' =>
      match s' with
      | String c2 rest => if (c1 == "0"%char) && (c2 == "x"%char) then without_0x rest else String c1 (without_0x s')
      | EmptyString => s
      end
  | EmptyString => s
  end.

Definition hardware_id (s : string) : string := ToLower (without_0x (TrimSpace s)).

(** hhhh:hhhh *)
Definition id_pattern (s : string) : bool :=
  match split ":" s with [vendor; device] => match_class "" is_lower_hex 4 4 vendor && match_class "" is_lower_hex 4 4 device | _ => false end.

Definition form := list (string * list string).

Definition entry_paths (entry : PCIResourceMappingEntry) : list string :=
  match me_device_paths entry with [] => if me_device_id entry != "" then [me_device_id entry] else [] | paths => paths end.

(** The text of one entry; [None] is an error. *)
Definition entry_text (entry : PCIResourceMappingEntry) : option string :=
  let node := TrimSpace (me_node entry) in
  let paths := List.map normalizePCIPath (entry_paths entry) in
  if existsb (fun p => p == "") paths then None else
  let hardwareID := hardware_id (me_hardware_id entry) in
  if (node == "") || (length paths =? 0)%nat || negb (id_pattern hardwareID) then None else
  let subsystemID := hardware_id (me_subsystem_id entry) in
  if (subsystemID != "") && negb (id_pattern subsystemID) then None else
  group ← (if me_iommu_group entry == "" then Some [] else
             g ← Atoi (me_iommu_group entry); if g <? 0 then None else Some ["iommugroup=" +:+ itoa g]);
  Some (join "," (["node=" +:+ node; "path=" +:+ join ";" paths; "id=" +:+ hardwareID] ++
    (if subsystemID == "" then [] else ["subsystem-id=" +:+ subsystemID]) ++ group)).

Definition pciResourceMappingForm (m : PCIResourceMapping) : option form :=
  let id := TrimSpace (pm_id m) in
  if negb (mapping_pattern id) || (length (pm_entries m) =? 0)%nat || (256 <? slen (pm_description m)) then None else
  entries ← mapM entry_text (pm_entries m);
  let description := TrimSpace (pm_description m) in
  Some ((if pm_mdev m then [("mdev", ["1"])] else []) ++ (if description == "" then [] else [("description", [description])]) ++ [("map", entries)]).

(** The entry that a text of PVE describes. *)
Definition entry_of (raw : string) : option PCIResourceMappingEntry :=
  let properties := parsePropertyString raw in
  let normal l := List.filter (fun p => p != "") (List.map normalizePCIPath l) in
  let paths := normal (split ";" (map_get "path" properties)) in
  let paths := match paths with [] => normal [map_get "id" properties] | _ => paths end in
  let device := default "" (head paths) in
  let node := map_get "node" properties in
  if (node == "") || (device == "") then None
  else Some (MkMappingEntry node device paths (ToLower (map_get "id" properties)) (ToLower (map_get "subsystem-id" properties))
               (map_get "iommugroup" properties)).

(** A mapping as PVE lists it. *)
Definition mapping_of (id description : string) (mdev : option json) (entries : list string) : option PCIResourceMapping :=
  l ← mapM entry_of entries;
  Some (MkMapping id description (match mdev with Some (JNum t) => t == "1" | Some (JBool b) => b | Some (JStr s) => s == "1" | _ => false end) l).
End devices.

(** * Clone requests ([internal/httpapi/server.go], [desktopCloneRequest])

    The request as a person sends it and as the job keeps it, and the
    description by which a clone is recognised. *)

Record desktopCloneRequest : Set := MkDesktopClone {
  dc_name : string;
  dc_source_vmid : Z;
  dc_target_node : string;
  dc_storage : string;
  dc_full : bool;
  dc_gpu_profile_id : string;
  dc_pci_resource_mapping : string;
  dc_mdev_type : string;
  dc_validation_image_profile_id : string;
  dc_source_os_family : string;
  dc_pve_principal : string
}.
#[export] Instance eta_desktopCloneRequest : Eta desktopCloneRequest := fun r =>
  MkDesktopClone (dc_name r) (dc_source_vmid r) (dc_target_node r) (dc_storage r) (dc_full r) (dc_gpu_profile_id r) (dc_pci_resource_mapping r)
    (dc_mdev_type r) (dc_validation_image_profile_id r) (dc_source_os_family r) (dc_pve_principal r).

Definition clone_fields : list string :=
  ["name"; "source_vmid"; "target_node"; "storage"; "full"; "gpu_profile_id"; "pci_resource_mapping"; "mdev_type"; "validation_image_profile_id";
   "source_os_family"; "pve_principal"].

Definition read_clone (l : list (string * json)) : option desktopCloneRequest :=
  let str f := field clone_fields store_string "" f l in
  name ← str "name"; source ← field clone_fields store_int64 0 "source_vmid" l; node ← str "target_node"; storage ← str "storage";
  full ← field clone_fields store_bool false "full" l; gpu ← str "gpu_profile_id"; pci ← str "pci_resource_mapping"; mdev ← str "mdev_type";
  validation ← str "validation_image_profile_id"; os ← str "source_os_family"; principal ← str "pve_principal";
  Some (MkDesktopClone name source node storage full gpu pci mdev validation os principal).
Definition zero_clone : desktopCloneRequest := MkDesktopClone "" 0 "" "" false "" "" "" "" "" "".

(** [json.Unmarshal] of the stored request. *)
Definition decode_clone (v : json) : option desktopCloneRequest := store_struct (fun _ l => read_clone l) zero_clone v.
(** [decodeJSON]: one document without unknown members. *)
Definition decode_clone_body (body : string) : option desktopCloneRequest :=
  v ← json_document body;
  store_struct (fun _ l => if known_fields clone_fields l then read_clone l else None) zero_clone v.

(** The description of a clone. *)
Definition clone_marker (jobID : string) : string := "VC Workspace clone job: " +:+ jobID.
