(* ===== verification/Controller.v ===== *)
(** * The control plane over its store and its Guests ([internal/httpapi])

    A handler or a maintenance task is a tree of questions: a transaction of
    the store, a Guest program on a machine, a call of the PVE API, the clock,
    randomness, the context, and the lock of a desktop.  Between two
    transactions anybody may have changed the database, an answer of the
    database may be lost after or before its commit, and a Guest may do
    anything that its channel allows: [run_ctl] runs a task against such a
    world and [cwp] is what holds of every run.  A rule says of every question
    whether it may be asked after what has happened so far. *)
From stdpp Require Import base strings list.
From Stdlib Require Import ZArith Lia Ascii.
From S2P Require Import Prelude GoStrings GuestIdentity Auth Net Db Json Triggers TriggerLemmas StoreAccess StoreSession StoreConn StoreLease StoreAgent StoreNative StoreGateway Computer Guest GuestAccount GuestSession ComputerWire GuestTransport GuestConfirmed StoreAudit StoreJobs StoreCatalog Pve.

Local Open Scope string_scope.
Local Open Scope list_scope.
Local Open Scope Z_scope.

(** ** The transactions a task runs *)
Record tx_context : Type := MkTxContext {
  cx_now : time;
  cx_stmt : time;
  cx_clock : time;
  cx_txid : Z;
  cx_secret : bytes;
  cx_iter : list (string * json) -> list (string * json)
}.

Inductive store_op : Type -> Type :=
| OpNativeAccount (vmid : Z) (userID : string) : store_op NativeGuestAccount
| OpNativeAccountsForDesktop (vmid : Z) : store_op (list NativeGuestAccount)
| OpNativeAccountsNeedingRecovery (limit : Z) : store_op (list NativeGuestAccount)
| OpBindNative (a : NativeGuestAccount) (digest : bytes) : store_op NativeGuestAccount
| OpBeginNative (a : NativeGuestAccount) (connectionID : string) (expiresAt : time) (digest : bytes) : store_op NativeGuestAccount
| OpRetireNative (a : NativeGuestAccount) : store_op NativeGuestAccount
| OpRevokeNative (a : NativeGuestAccount) : store_op NativeGuestAccount
| OpCompleteNative (a : NativeGuestAccount) : store_op unit
| OpCompleteConnection (a : NativeGuestAccount) : store_op (option DesktopConnectionSession)
| OpCompleteGatewayConnection (a : NativeGuestAccount) (r : NativeGatewayTicketRequest) : store_op (option DesktopConnectionSession * NativeGatewayTicket)
| OpCommitRecovery (runes : string -> Z) (a : NativeGuestAccount) (revision : Z) (connectionID actorID receiptID reason : string) : store_op NativeGuestAccount
| OpDesktop (vmid : Z) : store_op DesktopInfo
| OpIdentityProfile (id : string) : store_op IdentityProfile
| OpPutBinding (vmid : Z) (userID profileID guestUsername : string) (state : option binding_state) (lastError : string) : store_op GuestIdentityBinding
| OpBindings (vmid : Z) : store_op (list GuestIdentityBinding)
| OpConnection (id : string) : store_op DesktopConnectionSession
| OpTerminationRequired (id : string) : store_op bool
| OpCloseConnection (id state : string) : store_op unit
| OpConnectionsDue (limit : Z) : store_op (list DesktopConnectionSession)
| OpBeginRevokeConnections (vmid : Z) : store_op (list DesktopConnectionSession)
| OpCreateNativeConnection (r : ConnectionRequest) (digest : bytes) : store_op DesktopConnectionSession
| OpQueueExpiredIdentities (vmid : Z) : store_op unit
| OpPendingRevocations (vmid : Z) : store_op (list RevocationItem)
| OpRecordRevocationFailure (item : RevocationItem) : store_op unit
| OpCompleteRevocation (item : RevocationItem) : store_op unit
| OpNativeSession (digest : bytes) : store_op UserInfo
| OpUserCanAccess (userID : string) (vmid : Z) : store_op bool
| OpAgentCanAccess (agentID : string) (vmid : Z) : store_op bool
| OpLease (id : string) : store_op DesktopLease
| OpReleaseLease (id : string) : store_op DesktopLease
| OpRevokeLeases (vmid : Z) : store_op (list DesktopLease)
| OpQueueExpiredLeases (vmid : Z) : store_op unit
| OpPendingComputer (vmid : Z) : store_op (list ComputerRevocationItem)
| OpCompleteComputer (item : ComputerRevocationItem) : store_op unit
| OpDeferComputer (item : ComputerRevocationItem) : store_op unit
| OpControlEpoch (vmid : Z) : store_op Z
| OpRevocationEpoch (vmid : Z) : store_op Z
| OpBeginAgent (lease : DesktopLease) : store_op AgentGuestSession
| OpBindAgent (item : AgentGuestSession) : store_op unit
| OpBindRevokingAgent (item : AgentGuestSession) : store_op unit
| OpBeginAgentLogin (item : AgentGuestSession) : store_op AgentGuestSession
| OpAgentReady (item : AgentGuestSession) : store_op unit
| OpQueueAgentRevocation (item : AgentGuestSession) : store_op unit
| OpCompleteAgentRevocation (item : AgentGuestSession) : store_op unit
| OpAgentSessions (vmid : Z) : store_op (list AgentGuestSession)
| OpEnsurePolicy (vmid : Z) : store_op AccessPolicy
| OpPolicyFailed (vmid revision : Z) (osFamily message : string) : store_op AccessPolicy
| OpPolicyApplied (vmid revision : Z) (osFamily : string) : store_op AccessPolicy
| OpImageReserved : store_op (Z -> bool)
| OpAgentByToken (digest : bytes) : store_op AgentPrincipal
| OpAgentAssigned (agentID : string) : store_op (list Z)
| OpUserAssigned (userID : string) : store_op (list Z)
| OpCreateLease (id agentID desktopID : string) (expiresAt : time) : store_op DesktopLease
| OpBeginRevokeConnection (id userID : string) : store_op DesktopConnectionSession
| OpRevokeNativeSession (digest : bytes) : store_op unit
| OpJob (id : string) : store_op JobInfo
| OpJobForRequest (key fingerprint : string) : store_op JobInfo
| OpJobByKey (key : string) : store_op JobInfo
| OpCreateJob (job : JobInfo) : store_op (JobInfo * bool)
| OpReserveClone (job : JobInfo) (occupied : list Z) : store_op (JobInfo * bool)
| OpUpdateJobTask (id state upid message : string) : store_op unit
| OpRecordCloneHandle (job : JobInfo) (upid : string) : store_op unit
| OpCompleteJobTask (id state upid message : string) : store_op bool
| OpPendingClones (after : string) (limit : Z) : store_op (list string)
| OpCommitCloneRecovery (runes : string -> Z) (job : JobInfo) (upid actorID reason : string) : store_op unit
| OpUpsertDesktop (desktop : DesktopInfo) : store_op unit
| OpQuarantineDesktop (desktop : DesktopInfo) : store_op unit
| OpImageByTemplate (vmid : Z) : store_op ImageProfile
| OpGPUProfile (id : string) : store_op GPUProfile
| OpAudit (actorID eventType targetType targetID : string) (detail : json) : store_op unit
(* accounts and logins *)
| OpInitialized : store_op bool
| OpCreateInitialAdmin (user : UserInfo) : store_op unit
| OpUserByUsername (username : string) : store_op UserInfo
| OpCreateSession (digest : bytes) (user : UserInfo) (csrf : string) (expiresAt : time) : store_op unit
| OpCreateNativeSession (digest : bytes) (user : UserInfo) (expiresAt : time) : store_op unit
| OpSession (digest : bytes) : store_op Session
| OpAPISession (digest : bytes) : store_op (result Session)
| OpDeleteSession (digest : bytes) : store_op unit
| OpCreateOIDCRequest (digest : bytes) (nonce verifier clientKind : string) (expiresAt : time) : store_op (result unit)
| OpConsumeOIDCRequest (digest : bytes) : store_op (string * string * string)
| OpResolveOIDCUser (providerID subject : string) (proposed : UserInfo) : store_op UserInfo
| OpSyncOIDCGroups (providerID userID : string) (groups : list GroupClaim) : store_op unit
| OpCreateAuthCode (digest : bytes) (userID : string) (expiresAt : time) : store_op (result unit)
| OpConsumeAuthCode (digest : bytes) : store_op (result UserInfo)
| OpCreateAPIToken (userID id name : string) (expiresAt : time) (digest : bytes) : store_op APITokenInfo
| OpDeleteAPIToken (userID id : string) : store_op bool
| OpSetPassword (userID hash : string) (retained : bytes) : store_op UserAccount
(* administration *)
| OpReconcileDesktops (desktops : list DesktopInfo) : store_op unit
| OpCreateLocalUser (user : UserInfo) : store_op UserAccount
| OpSetUserDisabled (userID : string) (disabled : bool) : store_op UserAccount
| OpCreateAgent (id displayName createdBy : string) (digest : bytes) : store_op AgentPrincipal
| OpSetAgentEnabled (id : string) (enabled : bool) : store_op AgentPrincipal
| OpRotateAgent (id : string) (digest : bytes) : store_op AgentPrincipal
| OpPutAssignment (a : DesktopAssignment) : store_op bool
| OpDeleteAssignment (subjectType subjectID : string) (vmid : Z) : store_op bool
| OpUpdateDesktopIdentity (vmid : Z) (accessMode ownerUserID profileID : string) : store_op DesktopInfo
| OpIdentityApplied (vmid : Z) (profileID : string) : store_op DesktopInfo
| OpIdentityRestart (vmid : Z) (profileID : string) : store_op DesktopInfo
| OpIdentityFailed (vmid : Z) (message : string) : store_op DesktopInfo
| OpPutIdentityProfile (profile : IdentityProfile) (config : option json) : store_op IdentityProfile
| OpPutGroup (id displayName source : string) (enabled : bool) (createdBy : string) : store_op IdentityGroup
| OpSetGroupEnabled (id : string) (enabled : bool) : store_op (IdentityGroup * nat)
| OpPutMembership (groupID userID source : string) : store_op GroupMembership
| OpDeleteMembership (groupID userID : string) : store_op bool
| OpPutPolicy (vmid : Z) (privilegeMode : string) (clipboard drive background : bool) (actorID : string) : store_op AccessPolicy
| OpImageProfile (id : string) : store_op ImageProfile
| OpUpdateImageProfile (profile : ImageProfile) : store_op ImageProfile
| OpUpdateImageState (id state detail : string) : store_op unit
| OpUpdateGPUProfile (profile : GPUProfile) : store_op GPUProfile
| OpActiveImageBuild (profileID : string) : store_op JobInfo
| OpUpdateJobProgress (id state : string) (progress : Z) (detail message : string) : store_op unit
| OpRead {B} (query : time -> tx DB B) : store_op B.   (* a query of a listing *)

(** A query leaves the database alone. *)
Definition read_only {B} (query : tx DB B) : tx DB B := fun s => match query s with inr (b, _) => inr (b, s) | inl e => inl e end.

(** An error of the transaction, or an answer that never arrived. *)
Inductive store_failure : Set := SErr (e : error) | SLost.

(** What becomes of a transaction: answered, committed without an answer, or
    never executed. *)
Inductive fate : Set := Answered | LostAfter | LostBefore.

(** ** The programs a task runs in a Guest *)
Inductive guest_op : Type -> Type :=
| GCheckNative : guest_op unit
| GInspectNative (username : string) : guest_op NativeAccountObservation
| GPrepareNative (username : string) : guest_op AccountIdentity
| GChangeNative (desired : NativeCredential) (operation : string) (password : bytes) : guest_op unit
| GInspectAgent (username : string) : guest_op LinuxAccountObservation
| GPrepareAgent (username : string) : guest_op AccountIdentity
| GStartAgent (lease : AccountLease) : guest_op SessionTarget
| GStopAgent (lease : AccountLease) : guest_op unit
| GDiscover (username : string) : guest_op SessionTarget
| GAwaitExit (intent : AccountLease) (o : LinuxAccountObservation) : guest_op unit
| GActivate (target : SessionTarget) (a : ComputerAuthority) : guest_op unit
| GRevokeSession (a : ComputerAuthority) : guest_op unit
| GRevokeAuthority (a : ComputerAuthority) : guest_op unit
| GAction (target : SessionTarget) (request : ActionRequest) (timeout : nanos) : guest_op Response
| GConfiguration : guest_op (option string)
| GExec (cmd : list string) : guest_op guest_answer
| GExecInput (cmd : list string) (input : bytes) : guest_op guest_answer.

(** A result and a conversation that some Guest, clock and context produce. *)
Definition possible {B} (p : prog B) (r : comp_error + B) (ev : list exchange_event) : Prop :=
  exists (S : Type) (e : environment S) (s s' : S), run_prog e p s [] = (r, s', ev).

(** ** Calls of the PVE API that are not Guest programs, and of the other
    programs and services around the control plane: the identity provider,
    Packer and the file system it builds from *)
Record local_file : Set := MkLocalFile {
  lf_directory : bool;     (* Lstat *)
  lf_regular : bool;
  lf_size : Z;
  lf_opened_regular : bool;
  lf_content : bytes
}.
Inductive pve_op : Type -> Type :=
| PSummary : pve_op Summary
| PConfiguration (node : string) (vmid : Z) : pve_op VMConfiguration
| PNextVMID : pve_op Z
| PClone (r : CloneRequest) : pve_op string
| PPower (node : string) (vmid : Z) (action : string) : pve_op string
| PTaskStatus (node upid : string) : pve_op TaskStatus
| PInspectTask (node upid : string) : pve_op TaskEvidence
| PCloneLog (node upid : string) : pve_op (option (Z * Z))
| PCloneCandidates (node : string) (source since until : Z) : pve_op (list CloneTaskCandidate)
| PConfigurePCI (node : string) (vmid : Z) (mapping digest : string) : pve_op unit
| PConfigureMDev (node : string) (vmid : Z) (mapping mdev digest : string) : pve_op unit
| PConfigureDHCP (node : string) (vmid : Z) (digest : string) : pve_op unit
| PMappings : pve_op (list PCIResourceMapping)
| PDevices (nodes : list string) : pve_op (list GPUDevice)
| PInterfaces (m : VM) : pve_op (list (list string))
| PReadFile (m : VM) (path : string) (limit : Z) : pve_op string
| PWriteBinary (m : VM) (path : string) (content : bytes) : pve_op unit
| PSetPassword (m : VM) (username : string) (password : string) : pve_op unit
| PCreateMapping (mapping : PCIResourceMapping) : pve_op unit
| PUpdateMapping (mapping : PCIResourceMapping) : pve_op unit
| PExchangeCode (code verifier : string) : pve_op (option string)     (* Extra("id_token").(string) *)
| PVerifyIDToken (raw : string) : pve_op string                       (* the payload of a token that verified *)
| PLocalFile (path : string) : pve_op local_file
| PPacker (dir : string) (args env : list string) : pve_op unit
| PPackerOutput : pve_op (option bytes)                               (* None: it exited with zero *).

(** ** Tasks *)
Inductive ctl_error : Set :=
| EStore (e : error)
| ELost
| EGuest (e : comp_error)
| EPve (f : guest_failure)
| EContextEnded (c : context_end)
| EAuthorization
| ELock
| EOther
| EReply (status : Z) (code : string).   (* writeError *)

Inductive ctl (A : Type) : Type :=
| CDone (r : ctl_error + A)
| CStore {B} (q : store_op B) (k : store_failure + B -> ctl A)
| CGuest {B} (m : VM) (q : guest_op B) (k : comp_error + B -> ctl A)
| CPve {B} (q : pve_op B) (k : guest_failure + B -> ctl A)
| CNow (k : nanos -> ctl A)
| CContext (k : option context_end -> ctl A)
| CRandom (n : nat) (k : option bytes -> ctl A)
| CTimer (d : nanos) (k : option context_end -> ctl A)
| CLock (vmid : Z) (k : bool -> ctl A)
| CUnlock (vmid : Z) (k : ctl A).

Arguments CDone {A}.
Arguments CStore {A B}.
Arguments CGuest {A B}.
Arguments CPve {A B}.
Arguments CNow {A}.
Arguments CContext {A}.
Arguments CRandom {A}.
Arguments CTimer {A}.
Arguments CLock {A}.
Arguments CUnlock {A}.

Fixpoint ctl_bind {A B} (f : A -> ctl B) (p : ctl A) : ctl B :=
  match p with
  | CDone (inl e) => CDone (inl e)
  | CDone (inr a) => f a
  | CStore q k => CStore q (fun x => ctl_bind f (k x))
  | CGuest m q k => CGuest m q (fun x => ctl_bind f (k x))
  | CPve q k => CPve q (fun x => ctl_bind f (k x))
  | CNow k => CNow (fun x => ctl_bind f (k x))
  | CContext k => CContext (fun x => ctl_bind f (k x))
  | CRandom n k => CRandom n (fun x => ctl_bind f (k x))
  | CTimer d k => CTimer d (fun x => ctl_bind f (k x))
  | CLock vmid k => CLock vmid (fun x => ctl_bind f (k x))
  | CUnlock vmid k => CUnlock vmid (ctl_bind f k)
  end.

#[export] Instance ctl_ret : MRet ctl := fun A a => CDone (inr a).
#[export] Instance ctl_mbind : MBind ctl := fun A B f p => ctl_bind f p.

Definition cfail {A} (e : ctl_error) : ctl A := CDone (inl e).
Definition censure (ok : bool) (e : ctl_error) : ctl unit := if ok then mret tt else cfail e.
Definition csome {A} (o : option A) (e : ctl_error) : ctl A := match o with Some a => mret a | None => cfail e end.

Definition store_error (f : store_failure) : ctl_error := match f with SErr e => EStore e | SLost => ELost end.
Definition store_ {B} (q : store_op B) : ctl B := CStore q (fun r => CDone (match r with inl f => inl (store_error f) | inr b => inr b end)).
Definition guest_ {B} (m : VM) (q : guest_op B) : ctl B := CGuest m q (fun r => CDone (match r with inl e => inl (EGuest e) | inr b => inr b end)).
Definition pve_ {B} (q : pve_op B) : ctl B := CPve q (fun r => CDone (match r with inl f => inl (EPve f) | inr b => inr b end)).
Definition cnow : ctl nanos := CNow (fun t => mret t).
Definition ccontext : ctl (option context_end) := CContext (fun x => mret x).
Definition crandom (n : nat) : ctl bytes := CRandom n (fun r => csome r EOther).

(** The error of a call as a value. *)
Fixpoint ctry {A} (p : ctl A) : ctl (ctl_error + A) :=
  match p with
  | CDone r => CDone (inr r)
  | CStore q k => CStore q (fun x => ctry (k x))
  | CGuest m q k => CGuest m q (fun x => ctry (k x))
  | CPve q k => CPve q (fun x => ctry (k x))
  | CNow k => CNow (fun x => ctry (k x))
  | CContext k => CContext (fun x => ctry (k x))
  | CRandom n k => CRandom n (fun x => ctry (k x))
  | CTimer d k => CTimer d (fun x => ctry (k x))
  | CLock vmid k => CLock vmid (fun x => ctry (k x))
  | CUnlock vmid k => CUnlock vmid (ctry k)
  end.

(** [_ = call]: neither the result nor the error is used. *)
Definition cignore {A} (p : ctl A) : ctl unit := ctry p;; mret tt.

(** [defer]: the clean-up sees the result, and its own failure is dropped. *)
Definition cfinally {A} (body : ctl A) (cleanup : (ctl_error + A) -> ctl unit) : ctl A :=
  r ← ctry body;
  cignore (cleanup r);;
  CDone r.

(** [for ... range] with an early return on error. *)
Fixpoint cfor {A} (l : list A) (body : A -> ctl unit) : ctl unit :=
  match l with
  | [] => mret tt
  | a :: l' => body a;; cfor l' body
  end.

(** [AcquireDesktopControlLock] and [WithDesktopConnectionLock]. *)
Definition AcquireDesktopControlLock (vmid : Z) : ctl unit :=
  if vmid <=? 0 then cfail EOther else CLock vmid (fun ok => if ok then mret tt else cfail ELock).
Definition WithDesktopConnectionLock {A} (vmid : Z) (action : ctl A) : ctl A :=
  AcquireDesktopControlLock vmid;;
  r ← ctry action;
  CUnlock vmid (CDone r).

(** ** What has happened, newest first *)
Inductive happened : Type :=
| HStore {B} (q : store_op B) (cx : tx_context) (s : DB) (f : fate)
| HGuest {B} (m : VM) (q : guest_op B) (r : comp_error + B) (ev : list exchange_event)
| HPve {B} (q : pve_op B) (r : guest_failure + B)
| HNow (t : nanos)
| HContext (x : option context_end)
| HRandom (x : option bytes)
| HTimer (d : nanos) (x : option context_end)
| HLock (vmid : Z) (ok : bool)
| HUnlock (vmid : Z).

(** The desktop whose lock is held. *)
Fixpoint held (tr : list happened) : option Z :=
  match tr with
  | HLock vmid true :: _ => Some vmid
  | HUnlock _ :: _ | [] => None
  | _ :: tr' => held tr'
  end.

(** The events since the lock was taken or left. *)
Fixpoint section (tr : list happened) : list happened :=
  match tr with
  | HLock _ true :: _ | HUnlock _ :: _ | [] => []
  | e :: tr' => e :: section tr'
  end.

Definition is_lock (e : happened) : bool := match e with HLock _ true | HUnlock _ => true | _ => false end.

(** [tr'] extends [tr] inside the same section. *)
Definition extends (tr tr' : list happened) : Prop := exists new, tr' = new ++ tr /\ forallb (fun e => negb (is_lock e)) new = true.

(** What a task runs against. *)
Record world (W : Type) := MkWorld {
  w_tx : W -> tx_context * DB * fate * W;
  w_commit : DB -> W -> W;
  w_guest : VM -> environment W;
  w_pve : forall B, pve_op B -> W -> (guest_failure + B) * W;
  w_now : W -> nanos * W;
  w_context : W -> option context_end * W;
  w_random : nat -> W -> option bytes * W;
  w_timer : nanos -> W -> option context_end * W;
  w_lock : Z -> W -> bool * W;
  w_unlock : Z -> W -> W
}.
Arguments MkWorld {W}.
Arguments w_tx {W}.
Arguments w_commit {W}.
Arguments w_guest {W}.
Arguments w_pve {W} w {B}.
Arguments w_now {W}.
Arguments w_context {W}.
Arguments w_random {W}.
Arguments w_timer {W}.
Arguments w_lock {W}.
Arguments w_unlock {W}.

Section controller.
Context `{Sha256} `{Collation} `{UnicodeLower}.

Definition perform {B} (q : store_op B) (cx : tx_context) : tx DB B :=
  let now := cx_now cx in
  match q with
  | OpNativeAccount vmid user => NativeGuestAccount_ vmid user
  | OpNativeAccountsForDesktop vmid => NativeGuestAccountsForDesktop vmid
  | OpNativeAccountsNeedingRecovery limit => NativeGuestAccountsNeedingRecovery now limit
  | OpBindNative a digest => BindNativeGuestAccount now (cx_txid cx) a digest
  | OpBeginNative a id expiresAt digest => BeginNativeGuestCredential now (cx_txid cx) (cx_clock cx) (expiresAt mod micros 1) a id expiresAt digest
  | OpRetireNative a => RetireNativeGuestCredential now (cx_txid cx) a
  | OpRevokeNative a => RevokeNativeGuestAccount now (cx_txid cx) a
  | OpCompleteNative a => CompleteNativeGuestAccountOperation now (cx_txid cx) a
  | OpCompleteConnection a => CompleteNativeGuestConnection now (cx_txid cx) a
  | OpCompleteGatewayConnection a r => CompleteNativeGuestGatewayConnection now (cx_stmt cx) (cx_txid cx) (cx_secret cx) a r
  | OpCommitRecovery runes a revision id actor receipt reason => CommitNativeGuestRecovery now (cx_txid cx) runes a revision id actor receipt reason
  | OpDesktop vmid => ManagedDesktopByVMID vmid
  | OpIdentityProfile id => IdentityProfileByID id
  | OpPutBinding vmid user profile username state err => PutGuestIdentityBinding now vmid user profile username state err
  | OpBindings vmid => GuestIdentityBindingsForDesktop vmid
  | OpConnection id => DesktopConnectionByID id
  | OpTerminationRequired id => DesktopConnectionTerminationRequired now id
  | OpCloseConnection id state => MarkDesktopConnectionClosed now id state
  | OpConnectionsDue limit => DesktopConnectionsDueForRevocation now (cx_stmt cx) limit
  | OpBeginRevokeConnections vmid => BeginRevokeDesktopConnections now vmid
  | OpCreateNativeConnection r digest => CreateNativeDesktopConnectionSession now (cx_clock cx) r digest
  | OpQueueExpiredIdentities vmid => QueueExpiredGuestIdentitiesForDesktop now vmid
  | OpPendingRevocations vmid => PendingGuestIdentityRevocations vmid
  | OpRecordRevocationFailure item => RecordGuestIdentityRevocationFailure now item
  | OpCompleteRevocation item => CompleteGuestIdentityRevocation now item
  | OpNativeSession digest => NativeSessionByToken now digest
  | OpUserCanAccess user vmid => UserCanAccessDesktop user vmid
  | OpAgentCanAccess agent vmid => AgentCanAccessDesktop agent vmid
  | OpLease id => DesktopLeaseByID now id
  | OpReleaseLease id => ReleaseDesktopLease now id
  | OpRevokeLeases vmid => RevokeDesktopLeases now vmid
  | OpQueueExpiredLeases vmid => QueueExpiredComputerLeases now vmid
  | OpPendingComputer vmid => PendingComputerRevocations vmid
  | OpCompleteComputer item => CompleteComputerRevocation now item
  | OpDeferComputer item => DeferComputerRevocation now item
  | OpControlEpoch vmid => ComputerControlEpoch now vmid
  | OpRevocationEpoch vmid => ComputerRevocationEpoch vmid
  | OpBeginAgent lease => BeginAgentGuestSession now lease
  | OpBindAgent item => BindAgentGuestAccount now item
  | OpBindRevokingAgent item => BindRevokingAgentGuestAccount now item
  | OpBeginAgentLogin item => BeginAgentGuestLogin now item
  | OpAgentReady item => MarkAgentGuestSessionReady now item
  | OpQueueAgentRevocation item => QueueAgentGuestSessionRevocation now item
  | OpCompleteAgentRevocation item => CompleteAgentGuestSessionRevocation now item
  | OpAgentSessions vmid => AgentGuestSessions vmid
  | OpEnsurePolicy vmid => EnsureDesktopAccessPolicy now vmid
  | OpPolicyFailed vmid revision os message => MarkDesktopAccessPolicyFailed now vmid revision os message
  | OpPolicyApplied vmid revision os => MarkDesktopAccessPolicyApplied now vmid revision os
  | OpImageReserved => ImageReservedVMIDs
  | OpAgentByToken digest => AgentByTokenDigest now digest
  | OpAgentAssigned agent => AgentAssignedDesktopVMIDs agent
  | OpUserAssigned user => UserAssignedDesktopVMIDs user
  | OpCreateLease id agent desktop expiresAt => CreateDesktopLease now id agent desktop expiresAt
  | OpBeginRevokeConnection id user => BeginRevokeDesktopConnection now id user
  | OpRevokeNativeSession digest => RevokeNativeSession now digest
  | OpJob id => JobByID id
  | OpJobForRequest key fingerprint => JobForRequest key fingerprint
  | OpJobByKey key => JobByIdempotencyKey key
  | OpCreateJob job => CreateJob now job
  | OpReserveClone job occupied => ReserveAvailableDesktopCloneJob now job occupied
  | OpUpdateJobTask id state upid message => UpdateJobTask now id state upid message
  | OpRecordCloneHandle job upid => RecordCloneTaskHandle now job upid
  | OpCompleteJobTask id state upid message => CompleteJobTask now id state upid message
  | OpPendingClones after limit => PendingCloneJobIDs after limit
  | OpCommitCloneRecovery runes job upid actor reason => CommitCloneRecovery now (cx_iter cx) runes job upid actor reason
  | OpUpsertDesktop desktop => UpsertManagedDesktop now desktop
  | OpQuarantineDesktop desktop => QuarantineClonedDesktop now desktop
  | OpImageByTemplate vmid => ImageProfileByTemplateVMID vmid
  | OpGPUProfile id => GPUProfileByID id
  | OpAudit actor event ttype target detail => Audit (cx_iter cx) now actor event ttype target detail
  | OpInitialized => IsInitialized
  | OpCreateInitialAdmin user => CreateInitialAdmin now user
  | OpUserByUsername username => UserByUsername username
  | OpCreateSession digest user csrf expiresAt => CreateSessionForVerifiedUser now (cx_clock cx) digest user csrf expiresAt
  | OpCreateNativeSession digest user expiresAt => CreateNativeSessionForVerifiedUser now (cx_clock cx) digest user expiresAt
  | OpSession digest => SessionByToken now digest
  | OpAPISession digest => SessionByAPIToken now digest
  | OpDeleteSession digest => DeleteSession digest
  | OpCreateOIDCRequest digest nonce verifier kind expiresAt => CreateOIDCRequest now digest nonce verifier kind expiresAt
  | OpConsumeOIDCRequest digest => ConsumeOIDCRequest now digest
  | OpResolveOIDCUser provider subject proposed => ResolveOIDCUser now provider subject proposed
  | OpSyncOIDCGroups provider user groups => SyncOIDCGroupMemberships now provider user groups
  | OpCreateAuthCode digest user expiresAt => CreateNativeAuthCode now digest user expiresAt
  | OpConsumeAuthCode digest => ConsumeNativeAuthCode now digest
  | OpCreateAPIToken user id name expiresAt digest => CreateAPIToken now user id name expiresAt digest
  | OpDeleteAPIToken user id => DeleteAPIToken user id
  | OpSetPassword user hash retained => SetUserPassword now user hash retained
  | OpReconcileDesktops desktops => ReconcileManagedDesktops now desktops
  | OpCreateLocalUser user => CreateLocalUser now user
  | OpSetUserDisabled user disabled => SetUserDisabled now user disabled
  | OpCreateAgent id name creator digest => CreateAgentPrincipal now id name creator digest
  | OpSetAgentEnabled id enabled => SetAgentEnabled now id enabled
  | OpRotateAgent id digest => RotateAgentToken now id digest
  | OpPutAssignment a => PutDesktopAssignment now a
  | OpDeleteAssignment kind subject vmid => DeleteDesktopAssignment now kind subject vmid
  | OpUpdateDesktopIdentity vmid mode owner profile => UpdateManagedDesktopIdentity now vmid mode owner profile
  | OpIdentityApplied vmid profile => MarkManagedDesktopIdentityApplied now vmid profile
  | OpIdentityRestart vmid profile => MarkManagedDesktopIdentityRestartRequired now vmid profile
  | OpIdentityFailed vmid message => MarkManagedDesktopIdentityFailed now vmid message
  | OpPutIdentityProfile profile config => PutIdentityProfile now profile config
  | OpPutGroup id name source enabled creator => PutIdentityGroup now id "" "" name source enabled creator
  | OpSetGroupEnabled id enabled => SetIdentityGroupEnabled now id enabled
  | OpPutMembership group user source => PutIdentityGroupMembership now group user source
  | OpDeleteMembership group user => DeleteIdentityGroupMembership now group user
  | OpPutPolicy vmid mode clipboard drive background actor => PutDesktopAccessPolicy now vmid mode clipboard drive background actor
  | OpImageProfile id => ImageProfileByID id
  | OpUpdateImageProfile profile => UpdateImageProfile now profile
  | OpUpdateImageState id state detail => UpdateImageBuildState now id state detail
  | OpUpdateGPUProfile profile => UpdateGPUProfile now profile
  | OpActiveImageBuild id => ActiveImageBuildJob id
  | OpUpdateJobProgress id state progress detail message => UpdateJobProgress now id state progress detail message
  | OpRead query => read_only (query now)
  end.
(** The answer of a transaction and the database it leaves behind. *)
Definition store_answer {B} (q : store_op B) (cx : tx_context) (s : DB) (f : fate) : store_failure + B :=
  match f with
  | Answered => match perform q cx s with inl e => inl (SErr e) | inr (b, _) => inr b end
  | _ => inl SLost
  end.
Definition store_after {B} (q : store_op B) (cx : tx_context) (s : DB) (f : fate) : DB :=
  match f with LostBefore => s | _ => snd (run (perform q cx) s) end.

(** ** The programs a task runs in a Guest *)
Context (has_input : bool) (legacy_revoker : string).

Definition guest_prog {B} (q : guest_op B) : prog B :=
  match q with
  | GCheckNative => CheckNativeAccountSupport
  | GInspectNative username => InspectNativeAccount username
  | GPrepareNative username => PrepareNativeAccount username
  | GChangeNative desired operation password => ChangeNativeCredential has_input desired operation password
  | GInspectAgent username => InspectAgentAccount username
  | GPrepareAgent username => PrepareAgentAccount username
  | GStartAgent lease => StartAgentSession has_input lease
  | GStopAgent lease => StopAgentSession has_input lease
  | GDiscover username => DiscoverSession username
  | GAwaitExit intent o => awaitAgentLoginExit intent o
  | GActivate target a => ActivateSessionAuthority has_input target a
  | GRevokeSession a => RevokeSessionAuthority has_input a
  | GRevokeAuthority a => RevokeAuthority legacy_revoker a
  | GAction target request timeout => ExecuteForSession target request timeout
  | GConfiguration => config_
  | GExec cmd => exec_answer cmd
  | GExecInput cmd input => AskInput cmd input (fun x => mret x)
  end.

(** ** Running a task *)
Fixpoint run_ctl {W A} (w : world W) (p : ctl A) (st : W) (tr : list happened) : (ctl_error + A) * W * list happened :=
  match p with
  | CDone r => (r, st, tr)
  | CStore q k =>
      let '(cx, s, f, st') := w_tx w st in
      run_ctl w (k (store_answer q cx s f)) (w_commit w (store_after q cx s f) st') (HStore q cx s f :: tr)
  | CGuest m q k =>
      let '(r, st', ev) := run_prog (w_guest w m) (guest_prog q) st [] in run_ctl w (k r) st' (HGuest m q r ev :: tr)
  | CPve q k => let '(r, st') := w_pve w q st in run_ctl w (k r) st' (HPve q r :: tr)
  | CNow k => let '(x, st') := w_now w st in run_ctl w (k x) st' (HNow x :: tr)
  | CContext k => let '(x, st') := w_context w st in run_ctl w (k x) st' (HContext x :: tr)
  | CRandom n k => let '(x, st') := w_random w n st in run_ctl w (k x) st' (HRandom x :: tr)
  | CTimer d k => let '(x, st') := w_timer w d st in run_ctl w (k x) st' (HTimer d x :: tr)
  | CLock vmid k => let '(ok, st') := w_lock w vmid st in run_ctl w (k ok) st' (HLock vmid ok :: tr)
  | CUnlock vmid k => run_ctl w k (w_unlock w vmid st) (HUnlock vmid :: tr)
  end.

(** ** What holds of every run *)
Section rules.
Context (rule : list happened -> happened -> bool) (state_ok : DB -> Prop).

(** Every database the task meets satisfies the invariant. *)
Definition world_ok {W} (w : world W) : Prop := forall st cx s f st', w_tx w st = (cx, s, f, st') -> state_ok s.

Fixpoint lawful (tr : list happened) : Prop :=
  match tr with [] => True | e :: tr' => rule tr' e = true /\ lawful tr' end.

Fixpoint cwp {A} (p : ctl A) (tr : list happened) (Q : ctl_error + A -> list happened -> Prop) : Prop :=
  match p with
  | CDone r => Q r tr
  | CStore q k => forall cx s f, state_ok s -> rule tr (HStore q cx s f) = true /\ cwp (k (store_answer q cx s f)) (HStore q cx s f :: tr) Q
  | CGuest m q k => forall r ev, possible (guest_prog q) r ev -> rule tr (HGuest m q r ev) = true /\ cwp (k r) (HGuest m q r ev :: tr) Q
  | CPve q k => forall r, rule tr (HPve q r) = true /\ cwp (k r) (HPve q r :: tr) Q
  | CNow k => forall x, rule tr (HNow x) = true /\ cwp (k x) (HNow x :: tr) Q
  | CContext k => forall x, rule tr (HContext x) = true /\ cwp (k x) (HContext x :: tr) Q
  | CRandom n k => forall x, rule tr (HRandom x) = true /\ cwp (k x) (HRandom x :: tr) Q
  | CTimer d k => forall x, rule tr (HTimer d x) = true /\ cwp (k x) (HTimer d x :: tr) Q
  | CLock vmid k => forall ok, rule tr (HLock vmid ok) = true /\ cwp (k ok) (HLock vmid ok :: tr) Q
  | CUnlock vmid k => rule tr (HUnlock vmid) = true /\ cwp k (HUnlock vmid :: tr) Q
  end.

Lemma cwp_sound {W A} (w : world W) (p : ctl A) st tr Q : world_ok w -> cwp p tr Q -> lawful tr ->
  let '(r, _, tr') := run_ctl w p st tr in lawful tr' /\ Q r tr'.
Proof.
  intros Hok. revert st tr.
  induction p as [r | B q k IH | B m q k IH | B q k IH | k IH | k IH | n k IH | d k IH | vmid k IH | vmid k IH];
    intros st tr Hw Hl; simpl in *; [done | ..].
  - destruct (w_tx w st) as [[[cx s] f] st'] eqn:E. destruct (Hw cx s f (Hok _ _ _ _ _ E)) as [Hr Hk]. by apply IH.
  - destruct (run_prog (w_guest w m) (guest_prog q) st []) as [[r st'] ev] eqn:E.
    destruct (Hw r ev) as [Hr Hk]; [by exists W, (w_guest w m), st, st' |]. by apply IH.
  - destruct (w_pve w q st) as [r st']. destruct (Hw r) as [Hr Hk]. by apply IH.
  - destruct (w_now w st) as [x st']. destruct (Hw x) as [Hr Hk]. by apply IH.
  - destruct (w_context w st) as [x st']. destruct (Hw x) as [Hr Hk]. by apply IH.
  - destruct (w_random w n st) as [x st']. destruct (Hw x) as [Hr Hk]. by apply IH.
  - destruct (w_timer w d st) as [x st']. destruct (Hw x) as [Hr Hk]. by apply IH.
  - destruct (w_lock w vmid st) as [ok st']. destruct (Hw ok) as [Hr Hk]. by apply IH.
  - destruct Hw as [Hr Hk]. by apply IH.
Qed.

Lemma cwp_run {W A} (w : world W) (p : ctl A) st Q r st' tr :
  world_ok w -> cwp p [] Q -> run_ctl w p st [] = (r, st', tr) -> lawful tr /\ Q r tr.
Proof. intros Hok Hw Hr. pose proof (cwp_sound w p st [] Q Hok Hw I) as Hs. by rewrite Hr in Hs. Qed.

Lemma cwp_mono {A} (p : ctl A) tr (Q R : ctl_error + A -> list happened -> Prop) :
  (forall r tr', Q r tr' -> R r tr') -> cwp p tr Q -> cwp p tr R.
Proof.
  intros HQ. revert tr.
  induction p as [r | B' q k IH | B' m q k IH | B' q k IH | k IH | k IH | n k IH | d k IH | vmid k IH | vmid k IH]; simpl; intros tr Hw;
    [by apply HQ | intros cx s ft Hs; destruct (Hw cx s ft Hs); auto | intros r ev Hp; destruct (Hw r ev Hp); auto | intros x; destruct (Hw x); auto .. | destruct Hw; auto].
Qed.

Lemma cwp_bind {A B} (p : ctl A) (f : A -> ctl B) tr Q :
  cwp p tr (fun r tr' => match r with inl e => Q (inl e) tr' | inr a => cwp (f a) tr' Q end) -> cwp (p ≫= f) tr Q.
Proof. unfold mbind, ctl_mbind.
  revert tr.
  induction p as [[e | a] | B' q k IH | B' m q k IH | B' q k IH | k IH | k IH | n k IH | d k IH | vmid k IH | vmid k IH]; simpl; intros tr Hw;
    [done | done | intros cx s ft Hs; destruct (Hw cx s ft Hs); auto | intros r ev Hp; destruct (Hw r ev Hp); auto | intros x; destruct (Hw x); auto .. | destruct Hw; auto].
Qed.

Lemma cwp_ctry {A} (p : ctl A) tr Q : cwp p tr (fun r tr' => Q (inr r) tr') -> cwp (ctry p) tr Q.
Proof.
  revert tr.
  induction p as [r | B' q k IH | B' m q k IH | B' q k IH | k IH | k IH | n k IH | d k IH | vmid k IH | vmid k IH]; simpl; intros tr Hw;
    [done | intros cx s ft Hs; destruct (Hw cx s ft Hs); auto | intros r ev Hp; destruct (Hw r ev Hp); auto | intros x; destruct (Hw x); auto .. | destruct Hw; auto].
Qed.
End rules.
End controller.
