(* ===== verification/ControllerScripts.v ===== *)
(** * The commands the control plane runs in a Guest ([internal/httpapi])

    The shell and PowerShell texts of guest_session_revocation.go and
    server.go, byte for byte.  A raw string of Go has no backquote: here it
    stands for the double quote.  Every command is built from a name that
    [guestUsernamePattern] accepts, or not at all. *)
From stdpp Require Import base strings list.
From Stdlib Require Import ZArith Lia Ascii.
From S2P Require Import Prelude GoStrings Auth Json StoreAudit GuestTransport.

Local Open Scope string_scope.
Local Open Scope list_scope.
Local Open Scope Z_scope.

Definition dq : string -> string := replace_byte "`" dquote.

(** [^[a-z][a-z0-9-]{2,19}$] *)
Definition guestUsernamePattern (s : string) : bool :=
  match s with
  | EmptyString => false
  | String c rest => is_lower c && str_forall (fun c => is_lower c || is_digit c || (c == "-"%char)) rest && (2 <=? slen rest) && (slen rest <=? 19)
  end.

Definition sh_command (script : string) : list string := ["/bin/sh"; "-c"; script].
(** PowerShell without an execution policy. *)
Definition powershell_plain (script : string) : list string :=
  [powershell; "-NoLogo"; "-NoProfile"; "-NonInteractive"; "-Command"; script].
Definition powershell_path (script : string) : list string :=
  ["powershell.exe"; "-NoLogo"; "-NoProfile"; "-NonInteractive"; "-ExecutionPolicy"; "Bypass"; "-Command"; script].

(** A name of a managed local account. *)
Definition managed_name (username : string) : bool :=
  guestUsernamePattern username && negb (slen username <? 4) && (str_take 3 username == "vcw").

Definition enableGuestAccountCommand (osFamily username : string) : option (list string) :=
  if negb (managed_name username) then None
  else if osFamily == "linux" then Some (sh_command ("set -eu
usermod --unlock --expiredate '' '" +:+ username +:+ "'"))
  else if osFamily == "windows" then Some (powershell_plain ("$ErrorActionPreference='Stop'; Enable-LocalUser -Name '" +:+ username +:+ "'"))
  else None.

Definition terminate_linux (username : string) : string :=
    "set -eu
username='" +:+
    username +:+
    (dq "'
if ! id `$username` >/dev/null 2>&1; then exit 0; fi
uid=$(id -u `$username`)
[ `$uid` -ge 1000 ] || exit 1
# Expire the local account as well as its password. This denies PAM logins
# using other credentials, including SSH keys, until a new authorized issue.
usermod --lock --expiredate 1 `$username`
# PAM/systemd sessions are removed before checking for orphaned processes.
loginctl terminate-user `$username` >/dev/null 2>&1 || true
if pgrep -u `$uid` >/dev/null; then
  pkill -KILL -u `$uid` || [ `$?` -eq 1 ]
fi
if pgrep -u `$uid` >/dev/null; then exit 1; fi
").

Definition terminate_windows (username : string) : string :=
    "$ErrorActionPreference='Stop'
$user=Get-LocalUser -Name '" +:+
    username +:+
    "' -ErrorAction SilentlyContinue
if (-not $user) { exit 0 }
Disable-LocalUser -InputObject $user
" +:+
    (dq "
Add-Type -TypeDefinition @'
using System;
using System.ComponentModel;
using System.Runtime.InteropServices;
public static class VCWorkspaceSessionRevocation {
  [StructLayout(LayoutKind.Sequential)] struct Session { public int Id; public IntPtr Station; public int State; }
  [DllImport(`wtsapi32.dll`, EntryPoint=`WTSEnumerateSessionsW`, SetLastError=true)] static extern bool Enumerate(IntPtr server, int reserved, int version, out IntPtr sessions, out int count);
  [DllImport(`wtsapi32.dll`, EntryPoint=`WTSQuerySessionInformationW`, SetLastError=true)] static extern bool Query(IntPtr server, int id, int info, out IntPtr value, out int bytes);
  [DllImport(`wtsapi32.dll`, SetLastError=true)] static extern bool WTSLogoffSession(IntPtr server, int id, bool wait);
  [DllImport(`wtsapi32.dll`)] static extern void WTSFreeMemory(IntPtr value);
  static string Read(int id, int info) {
    IntPtr value; int bytes;
    if (!Query(IntPtr.Zero,id,info,out value,out bytes)) throw new Win32Exception(Marshal.GetLastWin32Error());
    try { return Marshal.PtrToStringUni(value) ?? ``; } finally { WTSFreeMemory(value); }
  }
  public static void Terminate(string username) {
    IntPtr sessions; int count;
    if (!Enumerate(IntPtr.Zero,0,1,out sessions,out count)) throw new Win32Exception(Marshal.GetLastWin32Error());
    try {
      int size=Marshal.SizeOf(typeof(Session));
      for (int i=0;i<count;i++) {
        var session=(Session)Marshal.PtrToStructure(IntPtr.Add(sessions,i*size),typeof(Session));
        if (session.Id==0) continue;
        if (!String.Equals(Read(session.Id,5),username,StringComparison.OrdinalIgnoreCase)) continue;
        if (!String.Equals(Read(session.Id,7),Environment.MachineName,StringComparison.OrdinalIgnoreCase)) continue;
        if (!WTSLogoffSession(IntPtr.Zero,session.Id,true)) throw new Win32Exception(Marshal.GetLastWin32Error());
      }
    } finally { WTSFreeMemory(sessions); }
  }
}
'@
") +:+
    "[VCWorkspaceSessionRevocation]::Terminate('" +:+ username +:+ "')".

Definition terminateGuestSessionCommand (osFamily username : string) : option (list string) :=
  if negb (managed_name username) then None
  else if osFamily == "linux" then Some (sh_command (terminate_linux username))
  else if osFamily == "windows" then Some (powershell_command (terminate_windows username))
  else None.

Definition ensure_linux (username : string) : string :=
    "set -eu
username=" +:+
    username +:+
    (dq "
if ! getent passwd `$username` >/dev/null; then
  useradd --create-home --shell /bin/bash `$username`
fi
if getent group ssl-cert >/dev/null; then
  usermod -a -G ssl-cert `$username`
fi
# Render nodes expose unprivileged GPU submission, not display-master or sudo.
# Do not change device modes or grant the broader video group.
if [ -c /dev/dri/renderD128 ] && getent group render >/dev/null; then
  usermod -a -G render `$username`
fi
install -d -m 0700 -o `$username` -g `$username` `/home/$username/.config`
printf 'startxfce4\n' >`/home/$username/.xsession`
chown `$username:$username` `/home/$username/.xsession`
getent passwd `$username` >/dev/null").

Definition ensure_windows (username : string) : string :=
    "$ErrorActionPreference='Stop'; $name='" +:+
    username +:+
    "'; $user=Get-LocalUser -Name $name -ErrorAction SilentlyContinue; if (-not $user) { $empty=ConvertTo-SecureString ([Guid]::NewGuid().ToString()+'aA1!') -AsPlainText -Force; New-LocalUser -Name $name -Password $empty -AccountNeverExpires -PasswordNeverExpires -Disabled | Out-Null; $user=Get-LocalUser -Name $name }; $rdp=(Get-LocalGroup -SID 'S-1-5-32-555').Name; if (-not (Get-LocalGroupMember -Group $rdp | Where-Object { $_.SID -eq $user.SID })) { Add-LocalGroupMember -Group $rdp -Member $name }".

Definition ensureGuestUserCommand (osFamily username : string) : option (list string) :=
  if negb (guestUsernamePattern username) then None
  else if osFamily == "linux" then Some (sh_command (ensure_linux username))
  else if osFamily == "windows" then Some (powershell_command (ensure_windows username))
  else None.

Definition session_policy_linux (clipboard drive restriction background : string) : string :=
    (dq "set -eu
xrdp_ini=/etc/xrdp/xrdp.ini
sesman_ini=/etc/xrdp/sesman.ini
[ -r `$xrdp_ini` ] && [ -r `$sesman_ini` ]
before=$(sha256sum `$xrdp_ini` `$sesman_ini`)
set_ini_key() {
  file=$1
  section=$2
  key=$3
  value=$4
  temporary=$(mktemp `${file}.vcw.XXXXXX`)
  if ! awk -v section=`$section` -v key=`$key` -v value=`$value` '
    BEGIN { wanted=`[` section `]`; inside=0; seen=0; written=0 }
    function emit_missing() { if (inside && !written) { print key `=` value; written=1 } }
    /^[[:space:]]*\[[^]]+\][[:space:]]*$/ {
      emit_missing()
      inside=($0 == wanted)
      if (inside) seen=1
      print
      next
    }
    {
      if (inside && $0 ~ `^[[:space:]]*` key `[[:space:]]*=`) {
        if (!written) print key `=` value
        written=1
        next
      }
      print
    }
    END { emit_missing(); if (!seen) exit 45 }
  ' `$file` >`$temporary`; then
    rm -f `$temporary`
    echo `required xrdp policy section is missing: $section` >&2
    exit 44
  fi
  chmod --reference=`$file` `$temporary`
  chown --reference=`$file` `$temporary`
  mv `$temporary` `$file`
}
set_ini_key `$xrdp_ini` Channels cliprdr ") +:+
    clipboard +:+
    (dq "
set_ini_key `$xrdp_ini` Channels rdpdr ") +:+
    drive +:+
    (dq "
set_ini_key `$sesman_ini` Security RestrictInboundClipboard ") +:+
    restriction +:+
    (dq "
set_ini_key `$sesman_ini` Security RestrictOutboundClipboard ") +:+
    restriction +:+
    (dq "
set_ini_key `$sesman_ini` Chansrv EnableFuseMount ") +:+
    drive +:+
    "
install -d -m 0755 /etc/vc-workspace
marker=$(mktemp /etc/vc-workspace/background-policy.XXXXXX)
printf '%s\n' " +:+
    background +:+
    (dq " >`$marker`
chmod 0644 `$marker`
mv `$marker` /etc/vc-workspace/background-policy
if [ ") +:+
    background +:+
    (dq " = managed ]; then
  install -d -m 0755 /usr/share/backgrounds/vc-workspace /usr/local/bin /etc/xdg/autostart
  if [ ! -r /usr/share/backgrounds/vc-workspace/desktop-background.png ]; then
    install -m 0644 /tmp/vc-workspace-desktop-background-session.jpg /usr/share/backgrounds/vc-workspace/desktop-background-session.jpg
  fi
  cat >/usr/local/bin/vc-workspace-apply-background <<'VCW_BACKGROUND'
#!/usr/bin/env bash
set -u
[ `$(cat /etc/vc-workspace/background-policy 2>/dev/null || true)` = managed ] || exit 0
if [ -r /usr/share/backgrounds/vc-workspace/desktop-background.png ]; then
  wallpaper=/usr/share/backgrounds/vc-workspace/desktop-background.png
else
  wallpaper=/usr/share/backgrounds/vc-workspace/desktop-background-session.jpg
fi
command -v xfconf-query >/dev/null 2>&1 || exit 0
sleep 1
mapfile -t image_properties < <(xfconf-query -c xfce4-desktop -l 2>/dev/null | grep -E '/(last-image|image-path)$' || true)
if [ `${#image_properties[@]}` -eq 0 ]; then
  image_properties=(/backdrop/screen0/monitorrdp0/workspace0/last-image)
fi
for property in `${image_properties[@]}`; do
  xfconf-query -c xfce4-desktop -p `$property` --create -t string -s `$wallpaper` >/dev/null 2>&1 || true
  style_property=`${property%/*}/image-style`
  xfconf-query -c xfce4-desktop -p `$style_property` --create -t int -s 5 >/dev/null 2>&1 || true
done
VCW_BACKGROUND
  chmod 0755 /usr/local/bin/vc-workspace-apply-background
  cat >/etc/xdg/autostart/vc-workspace-background.desktop <<'VCW_BACKGROUND_DESKTOP'
[Desktop Entry]
Type=Application
Name=VC Workspace Background
Exec=/usr/local/bin/vc-workspace-apply-background
OnlyShowIn=XFCE;
NoDisplay=true
X-GNOME-Autostart-enabled=true
VCW_BACKGROUND_DESKTOP
fi
rm -f /tmp/vc-workspace-desktop-background-session.jpg
after=$(sha256sum `$xrdp_ini` `$sesman_ini`)
if [ `$before` != `$after` ]; then
  systemctl restart xrdp-sesman.service xrdp.service
fi
grep -Eq '^cliprdr=") +:+
    clipboard +:+
    (dq "$' `$xrdp_ini`
grep -Eq '^rdpdr=") +:+
    drive +:+
    (dq "$' `$xrdp_ini`").

Definition session_policy_windows (clip cdm background managed : string) : string :=
    "$ErrorActionPreference='Stop';
$terminalServices='HKLM:\SOFTWARE\Policies\Microsoft\Windows NT\Terminal Services';
if (-not (Test-Path -LiteralPath $terminalServices)) { New-Item -Path $terminalServices -Force | Out-Null };
New-ItemProperty -Path $terminalServices -Name 'fDisableClip' -PropertyType DWord -Value " +:+
    clip +:+
    " -Force | Out-Null;
New-ItemProperty -Path $terminalServices -Name 'fDisableCdm' -PropertyType DWord -Value " +:+
    cdm +:+
    " -Force | Out-Null;
$brand='C:\ProgramData\VC Workspace\Brand';
New-Item -ItemType Directory -Path $brand -Force | Out-Null;
Set-Content -LiteralPath (Join-Path $brand 'background-policy') -Value '" +:+
    background +:+
    "' -Encoding Ascii;
if (" +:+
    managed +:+
    (dq ") {
  $backgroundPNG=Join-Path $brand 'desktop-background.png';
  $backgroundJPEG=Join-Path $brand 'desktop-background-session.jpg';
  if (-not (Test-Path -LiteralPath $backgroundPNG)) {
    Copy-Item -LiteralPath 'C:\Windows\Temp\vc-workspace-desktop-background-session.jpg' -Destination $backgroundJPEG -Force;
  };
  $backgroundHelper=Join-Path $brand 'Apply-DesktopBackground.ps1';
  @'
$ErrorActionPreference = 'SilentlyContinue'
$brand = 'C:\ProgramData\VC Workspace\Brand'
$policy = 'HKCU:\Software\Microsoft\Windows\CurrentVersion\Policies\System'
$mode = (Get-Content -LiteralPath (Join-Path $brand 'background-policy') -Raw).Trim()
if ($mode -eq 'managed') {
    $background = Join-Path $brand 'desktop-background.png'
    if (-not (Test-Path -LiteralPath $background)) { $background = Join-Path $brand 'desktop-background-session.jpg' }
    if (-not (Test-Path -LiteralPath $policy)) { New-Item -Path $policy -Force | Out-Null }
    Set-ItemProperty -Path $policy -Name Wallpaper -Value $background -Type String
    Set-ItemProperty -Path $policy -Name WallpaperStyle -Value '10' -Type String
    Set-ItemProperty -Path $policy -Name TileWallpaper -Value '0' -Type String
} elseif (Test-Path -LiteralPath $policy) {
    Remove-ItemProperty -Path $policy -Name Wallpaper,WallpaperStyle,TileWallpaper -ErrorAction SilentlyContinue
}
& `$env:SystemRoot\System32\RUNDLL32.EXE` user32.dll,UpdatePerUserSystemParameters 1, True
'@ | Set-Content -LiteralPath $backgroundHelper -Encoding UTF8;
  $runKey='HKLM:\SOFTWARE\Microsoft\Windows\CurrentVersion\Run';
  New-ItemProperty -Path $runKey -Name 'VCWorkspaceBackground' -PropertyType String -Value ('powershell.exe -NoLogo -NoProfile -NonInteractive -WindowStyle Hidden -ExecutionPolicy Bypass -File `{0}`' -f $backgroundHelper) -Force | Out-Null;
};
Remove-Item -LiteralPath 'C:\Windows\Temp\vc-workspace-desktop-background-session.jpg' -Force -ErrorAction SilentlyContinue;
& gpupdate.exe /target:computer /force | Out-Null;
if ((Get-ItemPropertyValue -Path $terminalServices -Name 'fDisableClip') -ne ") +:+
    clip +:+
    ") { throw 'clipboard policy was not applied' };
if ((Get-ItemPropertyValue -Path $terminalServices -Name 'fDisableCdm') -ne " +:+
    cdm +:+
    ") { throw 'drive policy was not applied' };".

Definition desktopSessionPolicyCommand (osFamily : string) (policy : AccessPolicy) : option (list string) :=
  let clipboard := if ClipboardRedirection policy then "true" else "false" in
  let restriction := if ClipboardRedirection policy then "none" else "all" in
  let drive := if DriveRedirection policy then "true" else "false" in
  let background := if ManagedBackground policy then "managed" else "allow-user" in
  if osFamily == "linux" then Some (sh_command (session_policy_linux clipboard drive restriction background))
  else if osFamily == "windows" then
    Some (powershell_path (session_policy_windows (if ClipboardRedirection policy then "0" else "1") (if DriveRedirection policy then "0" else "1")
      background (if ManagedBackground policy then "$true" else "$false")))
  else None.

Definition privilege_linux_admin (username : string) : string :=
    "set -eu
username=" +:+
    username +:+
    (dq "
getent passwd `$username` >/dev/null
getent group sudo >/dev/null
policy_file=`/etc/sudoers.d/vc-workspace-$username`
policy_line=`$username ALL=(ALL:ALL) NOPASSWD: ALL`
changed=0
if ! id -nG `$username` | tr ' ' '\n' | grep -qx sudo; then
  usermod -a -G sudo `$username`
  changed=1
fi
if [ ! -f `$policy_file` ] || [ `$(cat `$policy_file`)` != `$policy_line` ]; then
  printf '%s\n' `$policy_line` >`$policy_file.tmp`
  chmod 0440 `$policy_file.tmp`
  visudo -cf `$policy_file.tmp` >/dev/null
  mv `$policy_file.tmp` `$policy_file`
  changed=1
fi
if [ `$changed` = 1 ]; then
  loginctl terminate-user `$username` >/dev/null 2>&1 || true
  pkill -KILL -u `$username` >/dev/null 2>&1 || true
fi
id -nG `$username` | tr ' ' '\n' | grep -qx sudo
runuser -u `$username` -- sudo -n /usr/bin/true").

Definition privilege_linux_standard (username : string) : string :=
    "set -eu
username=" +:+
    username +:+
    (dq "
getent passwd `$username` >/dev/null
changed=0
if id -nG `$username` | tr ' ' '\n' | grep -Eq '^(sudo|admin)$'; then changed=1; fi
if [ -e `/etc/sudoers.d/vc-workspace-$username` ]; then changed=1; fi
if getent group sudo >/dev/null; then gpasswd -d `$username` sudo >/dev/null 2>&1 || true; fi
if getent group admin >/dev/null; then gpasswd -d `$username` admin >/dev/null 2>&1 || true; fi
rm -f `/etc/sudoers.d/vc-workspace-$username` `/etc/sudoers.d/vc-workspace-$username.tmp`
if [ `$changed` = 1 ]; then
  loginctl terminate-user `$username` >/dev/null 2>&1 || true
  pkill -KILL -u `$username` >/dev/null 2>&1 || true
fi
if id -nG `$username` | tr ' ' '\n' | grep -Eq '^(sudo|admin)$'; then exit 42; fi
if runuser -u `$username` -- sudo -n /usr/bin/true >/dev/null 2>&1; then exit 43; fi").

Definition privilege_windows (standard : bool) (username : string) : string :=
    "$ErrorActionPreference='Stop'; $name='" +:+
    username +:+
    "'; $user=Get-LocalUser -Name $name; $administrators=(Get-LocalGroup -SID 'S-1-5-32-544').Name; $isMember=Get-LocalGroupMember -Group $administrators | Where-Object { $_.SID -eq $user.SID }; " +:+
    (if standard then
      "if ($isMember) { Remove-LocalGroupMember -Group $administrators -Member $user.Name; try { Get-Process -IncludeUserName | Where-Object { $_.UserName -match ('\\'+[regex]::Escape($name)+'$') } | Stop-Process -Force -ErrorAction SilentlyContinue } catch {} }; if (Get-LocalGroupMember -Group $administrators | Where-Object { $_.SID -eq $user.SID }) { throw 'administrator membership was not removed' }"
    else
      "if (-not $isMember) { Add-LocalGroupMember -Group $administrators -Member $user.Name; try { Get-Process -IncludeUserName | Where-Object { $_.UserName -match ('\\'+[regex]::Escape($name)+'$') } | Stop-Process -Force -ErrorAction SilentlyContinue } catch {} }; if (-not (Get-LocalGroupMember -Group $administrators | Where-Object { $_.SID -eq $user.SID })) { throw 'administrator membership was not applied' }").

Definition desktopAccessPolicyCommandForUser (osFamily privilegeMode username : string) : option (list string) :=
  if (privilegeMode != "standard") && (privilegeMode != "local_admin") then None
  else if negb (guestUsernamePattern username) then None
  else if osFamily == "linux" then
    Some (sh_command (if privilegeMode == "local_admin" then privilege_linux_admin username else privilege_linux_standard username))
  else if osFamily == "windows" then Some (powershell_command (privilege_windows (privilegeMode == "standard") username))
  else None.

Definition desktopAccessPolicyCommand (osFamily privilegeMode : string) : option (list string) :=
  desktopAccessPolicyCommandForUser osFamily privilegeMode "vdi".

(** [base64.StdEncoding], with its padding. *)
Definition b64_padded (s : bytes) : string :=
  b64_encode StdAlphabet s +:+ (if slen s mod 3 =? 1 then "==" else if slen s mod 3 =? 2 then "=" else "").

(** [guestdesktop.InstallScript]; [layout] is the embedded session_layout.py. *)
Definition InstallScript (layout : bytes) : string :=
    "install -d -m 0755 /usr/local/lib/vc-workspace /etc/xdg/autostart /var/lib/vc-workspace/display-scale
layout_tmp=$(mktemp /usr/local/lib/vc-workspace/.session-layout.XXXXXX)
printf '%s' '" +:+
    b64_padded layout +:+
    (dq "' | base64 -d >`$layout_tmp`
chmod 0644 `$layout_tmp`
mv -f `$layout_tmp` /usr/local/lib/vc-workspace/session_layout.py
printf '%s\n' '[Desktop Entry]' 'Type=Application' 'Name=VC Workspace Display' 'Exec=/usr/bin/python3 /usr/local/lib/vc-workspace/session_layout.py' 'OnlyShowIn=XFCE;' 'NoDisplay=true' > /etc/xdg/autostart/vc-workspace-display.desktop
chmod 0644 /etc/xdg/autostart/vc-workspace-display.desktop
").

Definition scale_script (layout : bytes) (username : string) (scale : Z) : string :=
  let dpi := scale * 96 / 100 in
    "set -eu
" +:+ InstallScript layout +:+
    "
username=" +:+
    username +:+
    "
scale_tmp=$(mktemp /var/lib/vc-workspace/display-scale/.scale.XXXXXX)
printf '%s\n' '" +:+
    itoa scale +:+
    (dq "' >`$scale_tmp`
chmod 0644 `$scale_tmp`
mv -f `$scale_tmp` `/var/lib/vc-workspace/display-scale/$username`
session_pid=$(pgrep -u `$username` -x xfce4-session | head -n1 || true)
if [ -n `$session_pid` ]; then
  display=$(tr '\0' '\n' < `/proc/$session_pid/environ` | sed -n 's/^DISPLAY=//p' | head -n1)
  dbus=$(tr '\0' '\n' < `/proc/$session_pid/environ` | sed -n 's/^DBUS_SESSION_BUS_ADDRESS=//p' | head -n1)
  runuser -u `$username` -- env DISPLAY=`$display` DBUS_SESSION_BUS_ADDRESS=`$dbus` xfconf-query -c xsettings -p /Xft/DPI -n -t int -s ") +:+
    itoa dpi +:+
    (dq "
else
  runuser -u `$username` -- dbus-run-session -- xfconf-query -c xsettings -p /Xft/DPI -n -t int -s ") +:+
    itoa dpi +:+
    "
fi".
