(* ===== verification/PveClient.v ===== *)
(** * The PVE client ([internal/pve])

    A call of the client is a tree of HTTP exchanges, clock readings, ticks
    and accesses to the shared login ticket; [run_pve] runs it against an
    environment and records the exchanges.  Requests are complete: method,
    URL, headers, body.  A URL built from an accepted endpoint and escaped
    segments always parses, so that [http.NewRequest] does not fail here.
    The text of an error of encoding/json is a parameter. *)
From stdpp Require Import base strings list.
From Stdlib Require Import ZArith Lia Ascii.
From S2P Require Import Prelude GoStrings Auth Db Json GatewayTransport Computer Guest GuestAccount ComputerWire Pve ControllerScripts.

Local Open Scope string_scope.
Local Open Scope list_scope.
Local Open Scope Z_scope.

(** ** Escaping ([net/url]) *)
Definition unreserved (c : ascii) : bool := alphanumeric c || bool_decide (c ∈ ["-"; "_"; "."; "~"]%char).
Definition upper_hex (n : Z) : ascii := if n <? 10 then chr (48 + n) else chr (55 + n).
Definition percent (c : ascii) : string := String "%" (String (upper_hex (ord c / 16)) (String (upper_hex (ord c mod 16)) "")).

Fixpoint PathEscape (s : string) : string :=
  match s with
  | EmptyString => ""
  | String c s' =>
      (if unreserved c || bool_decide (c ∈ ["$"; "&"; "+"; "="; ":"; "@"]%char) then String c "" else percent c) +:+ PathEscape s'
  end.
Fixpoint QueryEscape (s : string) : string :=
  match s with
  | EmptyString => ""
  | String c s' => (if c == " "%char then "+" else if unreserved c then String c "" else percent c) +:+ QueryEscape s'
  end.

(** [url.Values.Encode] *)
Definition encode_form (f : form) : string :=
  join "&" (List.concat (List.map (fun e => List.map (fun v => QueryEscape (fst e) +:+ "=" +:+ QueryEscape v) (snd e))
    (order_by (fun a b => String.leb (fst a) (fst b)) f))).

(** ** Exchanges *)
Record http_call : Set := MkCall {
  hc_method : string;
  hc_url : string;
  hc_headers : list (string * string);
  hc_body : option string
}.
Record http_reply : Set := MkReply { hr_code : Z; hr_status : string; hr_body : string }.
Record Ticket : Set := MkTicket { tk_ticket : string; tk_csrf : string; tk_at : nanos }.

Inductive pve_prog (A : Type) : Type :=
| PDone (r : guest_failure + A)
| PHttp (q : http_call) (k : guest_failure + http_reply -> pve_prog A)
| PTick (k : option context_end -> pve_prog A)         (* the ticker, or the end of the context first *)
| PNow (k : nanos -> pve_prog A)
| PTicket (k : Ticket -> pve_prog A)
| PSetTicket (t : Ticket) (k : pve_prog A).
Arguments PDone {A}.
Arguments PHttp {A}.
Arguments PTick {A}.
Arguments PNow {A}.
Arguments PTicket {A}.
Arguments PSetTicket {A}.

Fixpoint pve_bind {A B} (f : A -> pve_prog B) (p : pve_prog A) : pve_prog B :=
  match p with
  | PDone (inl e) => PDone (inl e)
  | PDone (inr a) => f a
  | PHttp q k => PHttp q (fun x => pve_bind f (k x))
  | PTick k => PTick (fun x => pve_bind f (k x))
  | PNow k => PNow (fun x => pve_bind f (k x))
  | PTicket k => PTicket (fun x => pve_bind f (k x))
  | PSetTicket t k => PSetTicket t (pve_bind f k)
  end.
#[export] Instance pve_prog_ret : MRet pve_prog := fun A a => PDone (inr a).
#[export] Instance pve_prog_mbind : MBind pve_prog := fun A B f p => pve_bind f p.

(** The error of a call as a value. *)
Fixpoint ptry {A} (p : pve_prog A) : pve_prog (guest_failure + A) :=
  match p with
  | PDone r => PDone (inr r)
  | PHttp q k => PHttp q (fun x => ptry (k x))
  | PTick k => PTick (fun x => ptry (k x))
  | PNow k => PNow (fun x => ptry (k x))
  | PTicket k => PTicket (fun x => ptry (k x))
  | PSetTicket t k => PSetTicket t (ptry k)
  end.

Definition pve_fail {A} (message : string) : pve_prog A := PDone (inl (MkFailure None message)).
Definition pve_ensure (ok : bool) (message : string) : pve_prog unit := if ok then mret tt else pve_fail message.
Definition pve_some {A} (o : option A) (message : string) : pve_prog A := match o with Some a => mret a | None => pve_fail message end.

(** ** Decoding *)
Definition first_value (body : string) : option json := v ← read_value (S (String.length body)) body; Some (fst v).
Definition envelope {A} (store : A -> json -> option A) (zero : A) (v : json) : option A :=
  store_struct (fun old l => field ["data"] store old "data" l) zero v.
Definition store_any (old : json) (v : json) : option json := Some v.
(** A [float64], kept as it is written. *)
Definition store_number (old : string) (v : json) : option string :=
  match v with JNum t => Some t | JNull => Some old | _ => None end.
(** A struct of which every member is read afresh. *)
Definition row {A} (read : list (string * json) -> option A) : A -> json -> option A := store_struct (fun _ l => read l).

(** ** The client *)
Record Client : Set := MkClient {
  pc_endpoint : string;
  pc_username : string;
  pc_password : string;
  pc_token_id : string;
  pc_token_secret : string;
  pc_mutations_enabled : bool
}.

Definition Principal (c : Client) : string := if pc_token_id c != "" then pc_token_id c else pc_username c.

(** [strings.TrimRight(s, "/")] *)
Fixpoint drop_slashes (s : string) : string :=
  match s with String c s' => if c == "/"%char then drop_slashes s' else s | EmptyString => "" end.
Definition New `{UrlParser} (cfg : Client) : option Client :=
  let endpoint := str_rev (drop_slashes (str_rev (pc_endpoint cfg))) in
  u ← url_parse endpoint;
  let passwordAuth := (pc_username cfg != "") && (pc_password cfg != "") in
  let tokenAuth := (pc_token_id cfg != "") && (pc_token_secret cfg != "") in
  if (Scheme u != "https") || (Host u == "") || Bool.eqb passwordAuth tokenAuth then None
  else Some (MkClient endpoint (pc_username cfg) (pc_password cfg) (pc_token_id cfg) (pc_token_secret cfg) (pc_mutations_enabled cfg)).

Definition ninety_minutes : nanos := 90 * 60 * second.
Definition form_type : string * string := ("Content-Type", "application/x-www-form-urlencoded").
Definition is_read (method : string) : bool := (method == "GET") || (method == "HEAD").

Section client.
Context `{UnicodeLower} (c : Client) (json_error : string -> string).

(** ** Requests *)
Definition ticket_fields : list string := ["ticket"; "CSRFPreventionToken"].
Definition store_login : string * string -> json -> option (string * string) := row (fun l =>
  t ← field ticket_fields store_string "" "ticket" l; s ← field ticket_fields store_string "" "CSRFPreventionToken" l; Some (t, s)).

Definition login_call : http_call :=
  MkCall "POST" (pc_endpoint c +:+ "/api2/json/access/ticket") [form_type]
    (Some (encode_form [("username", [pc_username c]); ("password", [pc_password c])])).

Definition ensureTicket : pve_prog unit :=
  PTicket (fun t => PNow (fun now =>
    if (tk_ticket t != "") && (now - tk_at t <? ninety_minutes) then mret tt else
    PHttp login_call (fun r =>
      match r with
      | inl f => PDone (inl (MkFailure (FailContext f) ("authenticate with PVE: " +:+ FailMessage f)))
      | inr resp =>
          if hr_code resp != 200 then pve_fail ("PVE authentication returned " +:+ hr_status resp) else
          match first_value (hr_body resp) ≫= envelope store_login ("", "") with
          | None => pve_fail ("decode PVE authentication: " +:+ json_error (hr_body resp))
          | Some (ticket, csrf) =>
              if ticket == "" then pve_fail "PVE authentication returned no ticket"
              else PNow (fun now => PSetTicket (MkTicket ticket csrf now) (mret tt))
          end
      end))).

(** The headers that authenticate a request. *)
Definition authorization (method : string) : pve_prog (list (string * string)) :=
  if pc_token_id c != "" then mret [("Authorization", "PVEAPIToken=" +:+ pc_token_id c +:+ "=" +:+ pc_token_secret c)]
  else PTicket (fun t => mret (("Cookie", "PVEAuthCookie=" +:+ tk_ticket t) :: (if is_read method then [] else [("CSRFPreventionToken", tk_csrf t)]))).

(** What a response means. *)
Definition do_reply {A} (store : A -> json -> option A) (zero : A) (r : guest_failure + http_reply) : pve_prog A :=
  match r with
  | inl f => PDone (inl (MkFailure (FailContext f) ("call PVE: " +:+ FailMessage f)))
  | inr resp =>
      if (hr_code resp <? 200) || (300 <=? hr_code resp)
      then pve_fail ("PVE returned " +:+ hr_status resp +:+ ": " +:+ TrimSpace (str_take 4096 (hr_body resp)))
      else pve_some (first_value (hr_body resp) ≫= envelope store zero) ("decode PVE response: " +:+ json_error (hr_body resp))
  end.

Definition do {A} (store : A -> json -> option A) (zero : A) (method path : string) (body : option form) : pve_prog A :=
  pve_ensure (is_read method || pc_mutations_enabled c) "PVE mutations are disabled";;
  (if pc_token_id c == "" then ensureTicket else mret tt);;
  auth ← authorization method;
  PHttp (MkCall method (pc_endpoint c +:+ "/api2/json" +:+ path) ((match body with Some _ => [form_type] | None => [] end) ++ auth)
           (option_map encode_form body)) (do_reply store zero).
Definition get {A} (store : A -> json -> option A) (zero : A) (path : string) : pve_prog A := do store zero "GET" path None.
(** A mutation whose answer is not looked at. *)
Definition put_any (method path : string) (f : form) : pve_prog unit := do store_any JNull method path (Some f);; mret tt.

Definition qemu_path (node : string) (vmid : Z) (rest : string) : string :=
  "/nodes/" +:+ PathEscape node +:+ "/qemu/" +:+ itoa vmid +:+ "/" +:+ rest.

(** ** Inventory *)
Definition version_fields : list string := ["version"; "release"].
Definition store_version : string * string -> json -> option (string * string) := row (fun l =>
  v ← field version_fields store_string "" "version" l; r ← field version_fields store_string "" "release" l; Some (v, r)).

Definition cluster_fields : list string := ["type"; "name"; "quorate"; "nodes"].
Definition store_cluster : unit -> json -> option unit := row (fun l =>
  field cluster_fields store_string "" "type" l;; field cluster_fields store_string "" "name" l;;
  field cluster_fields store_int64 0 "quorate" l;; field cluster_fields store_int64 0 "nodes" l;; Some tt).

Definition node_fields : list string := ["node"; "status"; "cpu"; "maxcpu"; "mem"; "maxmem"].
Definition store_pve_node : PveNode -> json -> option PveNode := row (fun l =>
  name ← field node_fields store_string "" "node" l; status ← field node_fields store_string "" "status" l;
  field node_fields store_number "0" "cpu" l;; field node_fields store_int64 0 "maxcpu" l;; field node_fields store_int64 0 "mem" l;;
  field node_fields store_int64 0 "maxmem" l;; Some (MkPveNode name status)).

Definition vm_fields : list string := ["vmid"; "name"; "type"; "node"; "status"; "template"; "tags"; "maxcpu"; "maxmem"].
Definition zero_vm : VM := machine_at 0 "".
Definition store_vm : VM -> json -> option VM := row (fun l =>
  let int f := field vm_fields store_int64 0 f l in
  let text f := field vm_fields store_string "" f l in
  vmid ← int "vmid"; name ← text "name"; kind ← text "type"; node ← text "node"; status ← text "status"; template ← int "template"; tags ← text "tags";
  int "maxcpu";; int "maxmem";; Some (MkVM vmid node kind status (template =? 1) false (splitPVETags tags) name)).

Definition storage_fields : list string := ["storage"; "type"; "content"; "shared"].
Definition store_storage : PveStorage -> json -> option PveStorage := row (fun l =>
  name ← field storage_fields store_string "" "storage" l; field storage_fields store_string "" "type" l;;
  content ← field storage_fields store_string "" "content" l; field storage_fields store_int64 0 "shared" l;; Some (MkPveStorage name content)).

(** Machines in the order of their identifiers, then of their kinds. *)
Definition vm_before (a b : VM) : bool :=
  if vm_id a =? vm_id b then String.leb (vm_kind a) (vm_kind b) else vm_id a <? vm_id b.

Definition Summary_ : pve_prog Summary :=
  get store_version ("", "") "/version";;
  get (store_slice store_cluster tt) [] "/cluster/status";;
  nodes ← get (store_slice store_pve_node (MkPveNode "" "")) [] "/nodes";
  vms ← get (store_slice store_vm zero_vm) [] "/cluster/resources?type=vm";
  storage ← get (store_slice store_storage (MkPveStorage "" "")) [] "/storage";
  mret (MkSummary (order_by (fun a b => String.leb (pn_name a) (pn_name b)) nodes) (order_by vm_before vms)
          (order_by (fun a b => String.leb (ps_name a) (ps_name b)) storage) (pc_mutations_enabled c)).

Definition NextVMID : pve_prog Z :=
  text ← get store_string "" "/cluster/nextid";
  pve_some (Atoi text) "decode next VMID".

Definition VMConfiguration_ (node : string) (vmid : Z) : pve_prog VMConfiguration :=
  pve_ensure (negb ((TrimSpace node == "") || (vmid <=? 0))) "VM configuration request is invalid";;
  members ← get store_raw_map [] (qemu_path node vmid "config");
  mret (configuration_of members).

(** ** Tasks *)
Definition clone_form (r : CloneRequest) : form :=
  [("newid", [itoa (cl_target_vmid r)]); ("name", [cl_name r]); ("full", [if cl_full r then "1" else "0"])] ++
  (if cl_description r == "" then [] else [("description", [cl_description r])]) ++
  (if cl_target_node r == "" then [] else [("target", [cl_target_node r])]) ++
  (if (cl_storage r != "") && cl_full r then [("storage", [cl_storage r])] else []).

Definition CloneTemplate (r : CloneRequest) : pve_prog string :=
  pve_ensure (negb ((cl_source_node r == "") || (cl_source_vmid r <=? 0) || (cl_target_vmid r <=? 0) || (cl_name r == ""))) "clone request is incomplete";;
  upid ← do store_string "" "POST" (qemu_path (cl_source_node r) (cl_source_vmid r) "clone") (Some (clone_form r));
  pve_ensure (upid != "") "PVE clone returned no task identifier";;
  mret upid.

Definition ChangePowerState (node : string) (vmid : Z) (action : string) : pve_prog string :=
  pve_ensure (negb ((node == "") || (vmid <=? 0) || ((action != "start") && (action != "stop") && (action != "shutdown")))) "power request is invalid";;
  upid ← do store_string "" "POST" (qemu_path node vmid ("status/" +:+ action)) (Some []);
  pve_ensure (upid != "") "PVE power operation returned no task identifier";;
  mret upid.

Definition power_fields : list string := ["vmid"; "status"].
Definition store_power : Z * string -> json -> option (Z * string) := row (fun l =>
  v ← field power_fields store_int64 0 "vmid" l; s ← field power_fields store_string "" "status" l; Some (v, s)).
Definition VMPowerState (node : string) (vmid : Z) : pve_prog string :=
  pve_ensure (negb ((node == "") || (vmid <=? 0))) "VM power observation is invalid";;
  seen ← get store_power (0, "") (qemu_path node vmid "status/current");
  pve_ensure ((fst seen =? vmid) && ((snd seen == "running") || (snd seen == "stopped"))) "VM power observation is incomplete or mismatched";;
  mret (snd seen).

Definition task_path (node upid rest : string) : string := "/nodes/" +:+ PathEscape node +:+ "/tasks/" +:+ PathEscape upid +:+ "/" +:+ rest.

Definition status_fields : list string := ["status"; "exitstatus"].
Definition store_status : TaskStatus -> json -> option TaskStatus := row (fun l =>
  s ← field status_fields store_string "" "status" l; e ← field status_fields store_string "" "exitstatus" l; Some (MkTaskStatus s e)).
Definition TaskStatus_ (node upid : string) : pve_prog TaskStatus := get store_status (MkTaskStatus "" "") (task_path node upid "status").

Definition evidence_fields : list string := ["upid"; "node"; "type"; "id"; "user"; "tokenid"; "starttime"; "status"; "exitstatus"].
Definition zero_evidence : TaskEvidence := MkTaskEvidence "" "" "" "" "" "" 0 "" "".
Definition store_evidence : TaskEvidence -> json -> option TaskEvidence := row (fun l =>
  let text f := field evidence_fields store_string "" f l in
  upid ← text "upid"; node ← text "node"; type ← text "type"; id ← text "id"; user ← text "user"; token ← text "tokenid";
  start ← field evidence_fields store_int64 0 "starttime" l; status ← text "status"; exit ← text "exitstatus";
  Some (MkTaskEvidence upid node type id user token start status exit)).
Definition InspectTask (node upid : string) : pve_prog TaskEvidence :=
  pve_ensure (node_pattern node && task_handle upid) "invalid task inspection target";;
  e ← get store_evidence zero_evidence (task_path node upid "status");
  pve_ensure (task_evidence_ok node upid e) "task inspection returned incomplete or mismatched evidence";;
  mret e.

Definition log_fields : list string := ["n"; "t"].
Definition store_log_line : Z * string -> json -> option (Z * string) := row (fun l =>
  n ← field log_fields store_int64 0 "n" l; t ← field log_fields store_string "" "t" l; Some (n, t)).
Definition CloneLogTarget (node upid : string) : pve_prog (option (Z * Z)) :=
  pve_ensure (node_pattern node && task_handle upid) "invalid clone log target";;
  lines ← get (store_slice store_log_line (0, "")) [] (task_path node upid "log?start=0&limit=32");
  pve_some (read_clone_log lines) "invalid clone log prefix".

Definition candidate_fields : list string := ["upid"; "node"; "type"; "id"; "user"; "tokenid"; "starttime"].
Definition zero_candidate : CloneTaskCandidate := MkCandidate "" "" "" "" "" "" 0.
Definition store_candidate : CloneTaskCandidate -> json -> option CloneTaskCandidate := row (fun l =>
  let text f := field candidate_fields store_string "" f l in
  upid ← text "upid"; node ← text "node"; type ← text "type"; id ← text "id"; user ← text "user"; token ← text "tokenid";
  start ← field candidate_fields store_int64 0 "starttime" l; Some (MkCandidate upid node type id user token start)).
Definition candidate_query (source since until : Z) : form :=
  [("typefilter", ["qmclone"]); ("vmid", [itoa source]); ("source", ["all"]); ("since", [itoa since]); ("until", [itoa until]); ("limit", ["51"])].
Definition CloneTaskCandidates (node : string) (source since until : Z) : pve_prog (list CloneTaskCandidate) :=
  pve_ensure (candidate_window node source since until) "clone task discovery requires a source and a window of at most one hour";;
  l ← get (store_slice store_candidate zero_candidate) [] ("/nodes/" +:+ PathEscape node +:+ "/tasks?" +:+ encode_form (candidate_query source since until));
  pve_ensure (candidates_ok node source since until l) "clone task discovery returned incomplete, duplicate or mismatched evidence";;
  mret l.

(** ** Configuration *)
Definition configure (node : string) (vmid : Z) (key value digest : string) : pve_prog unit :=
  put_any "PUT" (qemu_path node vmid "config") [(key, [value]); ("digest", [digest])].

Definition ConfigureVMPCIResourceMapping (node : string) (vmid : Z) (mapping digest : string) : pve_prog unit :=
  let mapping := TrimSpace mapping in
  pve_ensure (negb ((node == "") || (vmid <=? 0) || negb (mapping_pattern mapping) || negb (ValidConfigurationDigest digest)))
    "PCI resource mapping request is invalid";;
  configure node vmid "hostpci0" ("mapping=" +:+ mapping +:+ ",pcie=1,x-vga=1") digest.

Definition ConfigureVMMDevResourceMapping (node : string) (vmid : Z) (mapping mdevType digest : string) : pve_prog unit :=
  let mapping := TrimSpace mapping in
  let mdevType := TrimSpace mdevType in
  pve_ensure (negb ((node == "") || (vmid <=? 0) || negb (mapping_pattern mapping) || negb (mdev_pattern mdevType) || negb (ValidConfigurationDigest digest)))
    "mediated PCI resource mapping request is invalid";;
  configure node vmid "hostpci0" ("mapping=" +:+ mapping +:+ ",mdev=" +:+ mdevType) digest.

Definition ConfigureVMPrimaryDHCP (node : string) (vmid : Z) (digest : string) : pve_prog unit :=
  pve_ensure (negb ((TrimSpace node == "") || (vmid <=? 0) || negb (ValidConfigurationDigest digest))) "cloud-init network precondition is invalid";;
  configure node vmid "ipconfig0" "ip=dhcp" digest.

Definition CreatePCIResourceMapping (m : PCIResourceMapping) : pve_prog unit :=
  f ← pve_some (pciResourceMappingForm m) "PCI resource mapping is invalid";
  put_any "POST" "/cluster/mapping/pci" (f ++ [("id", [pm_id m])]).
Definition UpdatePCIResourceMapping (m : PCIResourceMapping) : pve_prog unit :=
  f ← pve_some (pciResourceMappingForm m) "PCI resource mapping is invalid";
  put_any "PUT" ("/cluster/mapping/pci/" +:+ PathEscape (pm_id m)) f.

(** ** Guests *)
Definition address_fields : list string := ["ip-address"; "ip-address-type"; "prefix"].
Definition store_address : string -> json -> option string := row (fun l =>
  a ← field address_fields store_string "" "ip-address" l; field address_fields store_string "" "ip-address-type" l;;
  field address_fields store_int64 0 "prefix" l;; Some a).
Definition interface_fields : list string := ["name"; "hardware-address"; "ip-addresses"].
Definition store_interface : list string -> json -> option (list string) := row (fun l =>
  field interface_fields store_string "" "name" l;; field interface_fields store_string "" "hardware-address" l;;
  field interface_fields (store_slice store_address "") [] "ip-addresses" l).
Definition store_interfaces : list (list string) -> json -> option (list (list string)) := row (fun l =>
  field ["result"] (store_slice store_interface []) [] "result" l).
(** The addresses of each interface. *)
Definition GuestNetworkInterfaces (node : string) (vmid : Z) : pve_prog (list (list string)) :=
  pve_ensure (negb ((node == "") || (vmid <=? 0))) "guest network request is invalid";;
  get store_interfaces [] (qemu_path node vmid "agent/network-get-interfaces").

Definition ReadGuestFile (node : string) (vmid : Z) (filename : string) (count : Z) : pve_prog string :=
  pve_ensure (negb ((node == "") || (vmid <=? 0) || (filename == "") || (count <=? 0) || (16 * 1024 * 1024 <? count))) "guest file request is invalid";;
  get (row (fun l => field ["content"] store_string "" "content" l)) ""
    (qemu_path node vmid ("agent/file-read?file=" +:+ QueryEscape filename +:+ "&count=" +:+ itoa count)).

Definition file_form (filename content encode : string) : form := [("file", [filename]); ("content", [content]); ("encode", [encode])].
Definition WriteGuestFile (node : string) (vmid : Z) (filename content : string) : pve_prog unit :=
  pve_ensure (negb ((node == "") || (vmid <=? 0) || (filename == "") || (slen content =? 0) || (60 * 1024 <? slen content))) "guest file write request is invalid";;
  put_any "POST" (qemu_path node vmid "agent/file-write") (file_form filename content "1").
Definition WriteGuestBinaryFile (node : string) (vmid : Z) (filename : string) (content : bytes) : pve_prog unit :=
  pve_ensure (negb ((node == "") || (vmid <=? 0) || (filename == "") || (slen content =? 0) || (45 * 1024 <? slen content)))
    "guest binary file write request is invalid";;
  put_any "POST" (qemu_path node vmid "agent/file-write") (file_form filename (b64_padded content) "0").

Definition SetGuestUserPassword (node : string) (vmid : Z) (username password : string) : pve_prog unit :=
  pve_ensure (negb ((node == "") || (vmid <=? 0) || (username == "") || (slen password <? 5))) "guest password request is invalid";;
  do (row (fun l => Some tt)) tt "POST" (qemu_path node vmid "agent/set-user-password") (Some [("username", [username]); ("password", [password])]);;
  mret tt.

(** ** Commands

    PVE writes booleans of the Guest agent as booleans or as 0 and 1. *)
Definition guestExecFlag (raw : option json) : option bool :=
  match raw with
  | None => Some false
  | Some (JBool b) => Some b
  | Some (JNum t) => if t == "0" then Some false else if t == "1" then Some true else None
  | Some _ => None
  end.

Definition isTransientGuestExecStatusError (message : string) : bool :=
  let message := ToLower message in
  (contains "guest-exec-status" message && contains "timeout" message) || contains "qemu guest agent is not running" message.

Record exec_status : Set := MkExecStatus {
  es_exited : option json;
  es_exit_code : option Z;
  es_signal : option Z;
  es_stdout : string;
  es_stderr : string;
  es_out_truncated : option json;
  es_err_truncated : option json
}.
Definition exec_fields : list string := ["exited"; "exitcode"; "signal"; "out-data"; "err-data"; "out-truncated"; "err-truncated"].
Definition zero_exec : exec_status := MkExecStatus None None None "" "" None None.
Definition store_exec : exec_status -> json -> option exec_status := row (fun l =>
  exited ← field exec_fields store_raw None "exited" l;
  code ← field exec_fields (store_ptr store_int64 0) None "exitcode" l;
  signal ← field exec_fields (store_ptr store_int64 0) None "signal" l;
  out ← field exec_fields store_string "" "out-data" l;
  err ← field exec_fields store_string "" "err-data" l;
  outT ← field exec_fields store_raw None "out-truncated" l;
  errT ← field exec_fields store_raw None "err-truncated" l;
  Some (MkExecStatus exited code signal out err outT errT)).

(** The process has ended, and this is its result. *)
Definition exec_result (st : exec_status) : pve_prog GuestExecResult :=
  match es_signal st, es_exit_code st with
  | Some n, _ => pve_fail ("guest process terminated abnormally (signal/exception " +:+ itoa n +:+ ")")
  | None, Some code =>
      if (code <? 0) || (0xffffffff <? code) then pve_fail "guest agent returned no valid exit code" else
      match guestExecFlag (es_out_truncated st), guestExecFlag (es_err_truncated st) with
      | Some false, Some false => mret (MkExecResult code (es_stdout st) (es_stderr st))
      | _, _ => pve_fail "guest command output is truncated or has invalid capture metadata"
      end
  | None, None => pve_fail "guest agent returned no valid exit code"
  end.

Definition context_text (e : context_end) : string :=
  match e with DeadlineExceeded => "context deadline exceeded" | Canceled => "context canceled" end.
Definition context_failure (e : context_end) : guest_failure := MkFailure (Some e) (context_text e).
Definition out_of_rounds : guest_failure := MkFailure None "the poll of the model is out of rounds".

(** Only the status is asked again, never the command. *)
Fixpoint poll_exec (rounds : nat) (path : string) : pve_prog GuestExecResult :=
  match rounds with
  | O => PDone (inl out_of_rounds)
  | S rounds' =>
      r ← ptry (get store_exec zero_exec path);
      let again := PTick (fun e => match e with Some e => PDone (inl (context_failure e)) | None => poll_exec rounds' path end) in
      match r with
      | inl f => if isTransientGuestExecStatusError (FailMessage f) then again else PDone (inl f)
      | inr st =>
          match es_exited st, guestExecFlag (es_exited st) with
          | Some _, Some exited => if exited then exec_result st else again
          | _, _ => pve_fail "guest agent returned invalid process state"
          end
      end
  end.

Definition exec_form (command : list string) (input : bytes) : form :=
  ("command", command) :: (if 0 <? slen input then [("input-data", [input])] else []).

Definition execGuest (rounds : nat) (node : string) (vmid : Z) (command : list string) (input : bytes) : pve_prog GuestExecResult :=
  pve_ensure (negb ((node == "") || (vmid <=? 0) || (length command =? 0)%nat || (64 <? Z.of_nat (length command)) ||
    existsb (fun argument => (argument == "") || (128 * 1024 <? slen argument)) command)) "guest command request is invalid";;
  pid ← do (row (fun l => field ["pid"] store_int64 0 "pid" l)) 0 "POST" (qemu_path node vmid "agent/exec") (Some (exec_form command input));
  pve_ensure (0 <? pid) "guest agent returned no process identifier";;
  poll_exec rounds (qemu_path node vmid ("agent/exec-status?pid=" +:+ itoa pid)).

Definition ExecGuest (rounds : nat) (node : string) (vmid : Z) (command : list string) : pve_prog GuestExecResult :=
  execGuest rounds node vmid command "".
Definition ExecGuestWithInput (rounds : nat) (node : string) (vmid : Z) (command : list string) (input : bytes) : pve_prog GuestExecResult :=
  pve_ensure (negb ((slen input =? 0) || (64 * 1024 <? slen input))) "guest command input is invalid";;
  execGuest rounds node vmid command input.

(** ** Devices *)
Definition mdev_fields : list string := ["available"; "name"; "description"].
Definition inline_mdev (kind : string) (v : json) : option MDevType :=
  row (fun l => a ← field mdev_fields store_int64 0 "available" l; n ← field mdev_fields store_string "" "name" l;
    d ← field mdev_fields store_string "" "description" l; Some (MkMDevType kind n a d)) (MkMDevType kind "" 0 "") v.
(** The last member of a name is the one of the map. *)
Definition last_members (l : list (string * json)) : list (string * json) :=
  fold_right (fun e acc => if existsb (fun x => fst x == fst e) acc then acc else e :: acc) [] l.
Definition inlineMDevTypes (raw : option json) : list MDevType :=
  match raw with
  | Some (JObj l) =>
      match mapM (fun e => inline_mdev (fst e) (snd e)) (last_members l) with
      | Some types => List.filter (fun t => TrimSpace (md_type t) != "") types
      | None => []
      end
  | _ => []
  end.

Definition mdev_capable (raw : option json) : bool :=
  match raw with
  | None | Some JNull | Some (JBool false) | Some (JObj []) | Some (JArr []) => false
  | Some (JNum t) => t != "0"
  | Some _ => true
  end.

Definition mdev_type_fields : list string := ["type"; "name"; "available"; "description"].
Definition store_mdev_type : MDevType -> json -> option MDevType := row (fun l =>
  t ← field mdev_type_fields store_string "" "type" l; n ← field mdev_type_fields store_string "" "name" l;
  a ← field mdev_type_fields store_int64 0 "available" l; d ← field mdev_type_fields store_string "" "description" l; Some (MkMDevType t n a d)).

Definition pci_fields : list string :=
  ["id"; "vendor"; "device"; "subsystem_vendor"; "subsystem_device"; "vendor_name"; "device_name"; "class"; "iommu_group"; "iommugroup"; "mdev"].
Definition zero_device : GPUDevice := MkGPUDevice "" "" "" "" "" "" "" None false [] false.
(** A device with what it says of mediated types. *)
Definition store_pci (node : string) : GPUDevice * option json -> json -> option (GPUDevice * option json) := row (fun l =>
  let text f := field pci_fields store_string "" f l in
  let group f := field pci_fields (store_ptr store_int64 0) None f l in
  id ← text "id"; vendor ← text "vendor"; device ← text "device"; sv ← text "subsystem_vendor"; sd ← text "subsystem_device"; text "vendor_name";;
  text "device_name";; class ← text "class"; group1 ← group "iommu_group"; group2 ← group "iommugroup"; mdev ← field pci_fields store_raw None "mdev" l;
  let group := match group1 with Some _ => group1 | None => group2 end in
  Some (MkGPUDevice node id (ToLower vendor) (ToLower device) (ToLower sv) (ToLower sd) (ToLower class) group (mdev_capable mdev) []
          (match group with Some g => 0 <? g | None => false end), mdev)).

Definition with_types (d : GPUDevice) (types : list MDevType) : GPUDevice :=
  MkGPUDevice (gd_node d) (gd_id d) (gd_vendor_id d) (gd_device_id d) (gd_subsystem_vendor_id d) (gd_subsystem_device_id d) (gd_class d)
    (gd_iommu_group d) (gd_mdev_capable d) (order_by (fun a b => String.leb (md_type a) (md_type b)) types) (gd_assignable d).

Fixpoint gpu_types (node : string) (items : list (GPUDevice * option json)) : pve_prog (list GPUDevice) :=
  match items with
  | [] => mret []
  | (d, mdev) :: rest =>
      if negb (has_prefix "0x03" (gd_class d)) then gpu_types node rest else
      types ← (match inlineMDevTypes mdev with
               | [] => if gd_mdev_capable d
                       then get (store_slice store_mdev_type (MkMDevType "" "" 0 "")) []
                              ("/nodes/" +:+ PathEscape node +:+ "/hardware/pci/" +:+ PathEscape (gd_id d) +:+ "/mdev")
                       else mret []
               | types => mret types
               end);
      l ← gpu_types node rest;
      mret (with_types d types :: l)
  end.

Fixpoint gpu_devices (nodes : list string) : pve_prog (list GPUDevice) :=
  match nodes with
  | [] => mret []
  | node :: rest =>
      pve_ensure (TrimSpace node != "") "GPU inventory request contains an empty node";;
      items ← get (store_slice (store_pci node) (zero_device, None)) [] ("/nodes/" +:+ PathEscape node +:+ "/hardware/pci");
      l ← gpu_types node items;
      l' ← gpu_devices rest;
      mret (l ++ l')
  end.
Definition device_before (a b : GPUDevice) : bool :=
  if gd_node a == gd_node b then String.leb (gd_id a) (gd_id b) else String.leb (gd_node a) (gd_node b).
Definition GPUDevices (nodes : list string) : pve_prog (list GPUDevice) :=
  l ← gpu_devices nodes;
  mret (order_by device_before l).

Definition mapping_fields : list string := ["id"; "description"; "mdev"; "map"].
Definition store_mapping : string * string * option json * list string -> json -> option (string * string * option json * list string) := row (fun l =>
  id ← field mapping_fields store_string "" "id" l; d ← field mapping_fields store_string "" "description" l;
  m ← field mapping_fields store_raw None "mdev" l; entries ← field mapping_fields (store_slice store_string "") [] "map" l; Some (id, d, m, entries)).
Definition PCIResourceMappings : pve_prog (list PCIResourceMapping) :=
  items ← get (store_slice store_mapping ("", "", None, [])) [] "/cluster/mapping/pci";
  l ← pve_some (mapM (fun '(id, d, m, entries) => mapping_of id d m entries) items) "PCI resource mapping contains an incomplete entry";
  mret (order_by (fun a b => String.leb (pm_id a) (pm_id b)) l).
End client.

(** ** Runs *)
Record pve_env (S : Type) := MkPveEnv {
  pe_http : http_call -> S -> (guest_failure + http_reply) * S;
  pe_tick : S -> option context_end * S;
  pe_now : S -> nanos * S;
  pe_ticket : S -> Ticket * S;
  pe_set_ticket : Ticket -> S -> S
}.
Arguments MkPveEnv {S}.
Arguments pe_http {S}.
Arguments pe_tick {S}.
Arguments pe_now {S}.
Arguments pe_ticket {S}.
Arguments pe_set_ticket {S}.

(** An exchange, and how a wait ended. *)
Inductive pve_event : Set :=
| VHttp (q : http_call) (r : guest_failure + http_reply)
| VTick (e : option context_end).

(** The result, the state and what happened, newest first. *)
Fixpoint run_pve {S A} (env : pve_env S) (p : pve_prog A) (s : S) (tr : list pve_event) : (guest_failure + A) * S * list pve_event :=
  match p with
  | PDone r => (r, s, tr)
  | PHttp q k => let '(r, s') := pe_http env q s in run_pve env (k r) s' (VHttp q r :: tr)
  | PTick k => let '(e, s') := pe_tick env s in run_pve env (k e) s' (VTick e :: tr)
  | PNow k => let '(t, s') := pe_now env s in run_pve env (k t) s' tr
  | PTicket k => let '(t, s') := pe_ticket env s in run_pve env (k t) s' tr
  | PSetTicket t k => run_pve env k (pe_set_ticket env t s) tr
  end.

Fixpoint pvwp {A} (p : pve_prog A) (tr : list pve_event) (Q : guest_failure + A -> list pve_event -> Prop) : Prop :=
  match p with
  | PDone r => Q r tr
  | PHttp q k => forall r, pvwp (k r) (VHttp q r :: tr) Q
  | PTick k => forall e, pvwp (k e) (VTick e :: tr) Q
  | PNow k => forall t, pvwp (k t) tr Q
  | PTicket k => forall t, pvwp (k t) tr Q
  | PSetTicket t k => pvwp k tr Q
  end.

Lemma pvwp_sound {S A} (env : pve_env S) (p : pve_prog A) s tr Q : pvwp p tr Q -> let '(r, _, tr') := run_pve env p s tr in Q r tr'.
Proof.
  revert s tr. induction p as [r | q k IH | k IH | k IH | k IH | t k IH]; intros s tr Hw; simpl in *; [done | ..].
  - destruct (pe_http env q s) as [r s']. apply IH, Hw.
  - destruct (pe_tick env s) as [e s']. apply IH, Hw.
  - destruct (pe_now env s) as [t s']. apply IH, Hw.
  - destruct (pe_ticket env s) as [t s']. apply IH, Hw.
  - apply IH, Hw.
Qed.

Lemma pvwp_run {S A} (env : pve_env S) (p : pve_prog A) s Q r s' tr : pvwp p [] Q -> run_pve env p s [] = (r, s', tr) -> Q r tr.
Proof. intros Hw Hr. pose proof (pvwp_sound env p s [] Q Hw) as H. by rewrite Hr in H. Qed.

Lemma pvwp_mono {A} (p : pve_prog A) tr (Q R : guest_failure + A -> list pve_event -> Prop) :
  (forall r tr', Q r tr' -> R r tr') -> pvwp p tr Q -> pvwp p tr R.
Proof. intros HQ. revert tr. induction p; simpl; auto. Qed.

Lemma pvwp_bind {A B} (p : pve_prog A) (f : A -> pve_prog B) tr Q :
  pvwp p tr (fun r tr' => match r with inl e => Q (inl e) tr' | inr a => pvwp (f a) tr' Q end) -> pvwp (p ≫= f) tr Q.
Proof.
  unfold mbind, pve_prog_mbind. revert tr. induction p as [[e | a] | | | | |]; simpl; auto.
Qed.

Lemma pvwp_try {A} (p : pve_prog A) tr Q : pvwp p tr (fun r tr' => Q (inr r) tr') -> pvwp (ptry p) tr Q.
Proof. revert tr. induction p; simpl; auto. Qed.

Lemma pvwp_ensure ok message tr (Q : guest_failure + unit -> list pve_event -> Prop) :
  (ok = false -> Q (inl (MkFailure None message)) tr) -> (ok = true -> Q (inr tt) tr) -> pvwp (pve_ensure ok message) tr Q.
Proof. destruct ok; simpl; auto. Qed.

Lemma pvwp_some {A} (o : option A) message tr (Q : guest_failure + A -> list pve_event -> Prop) :
  (o = None -> Q (inl (MkFailure None message)) tr) -> (forall a, o = Some a -> Q (inr a) tr) -> pvwp (pve_some o message) tr Q.
Proof. destruct o; simpl; auto. Qed.
