(* ===== verification/PveProofs.v ===== *)
(** * What the PVE client guarantees

    A command is submitted once and its result is the reported end of that
    process; the GPU properties recognised are exactly those that are written,
    and they are written only under the digest of what was read. *)
From stdpp Require Import base strings list.
From Stdlib Require Import ZArith Lia Ascii Permutation.
From S2P Require Import Prelude GoStrings Auth Db Json Computer Guest GuestAccount ComputerWire Pve ControllerScripts PveClient.

Local Open Scope string_scope.
Local Open Scope list_scope.
Local Open Scope Z_scope.

(** ** One request *)
Definition do_answer {A} (store : A -> json -> option A) (zero : A) (r : guest_failure + http_reply) : option A :=
  match r with
  | inr resp => if (hr_code resp <? 200) || (300 <=? hr_code resp) then None else first_value (hr_body resp) ≫= envelope store zero
  | inl _ => None
  end.

Section exchanges.
Context `{UnicodeLower} (c : Client) (json_error : string -> string).

(** Exchanges that change nothing in PVE: reading, logging in, waiting. *)
Definition harmless (e : pve_event) : Prop :=
  match e with VHttp q _ => is_read (hc_method q) = true \/ q = login_call c | VTick _ => True end.
Definition logins (l : list pve_event) : Prop := Forall (fun e => exists r, e = VHttp (login_call c) r) l.
Definition is_wait (e : pve_event) : bool := match e with VTick None => true | _ => false end.
Definition waits (tr : list pve_event) : nat := length (List.filter is_wait tr).

Lemma logins_harmless l : logins l -> Forall harmless l.
Proof. intros Hl. eapply Forall_impl; [exact Hl |]. intros e [r ->]. by right. Qed.
Lemma logins_waits l tr : logins l -> waits (l ++ tr) = waits tr.
Proof. intros Hl. unfold waits. induction Hl as [| e l [r ->] _ IH]; simpl; [done | exact IH]. Qed.

Lemma ensureTicket_spec tr (Q : guest_failure + unit -> list pve_event -> Prop) :
  (forall l e, logins l -> e <> out_of_rounds -> Q (inl e) (l ++ tr)) -> (forall l, logins l -> Q (inr tt) (l ++ tr)) -> pvwp (ensureTicket c json_error) tr Q.
Proof.
  intros He Hok. unfold ensureTicket. simpl. intros t now. destruct (_ && _); [by apply (Hok []), Forall_nil |].
  intros r. assert (logins [VHttp (login_call c) r]) as Hl by (apply Forall_singleton; by eexists).
  destruct r as [f | resp]; [by apply (He _ _ Hl) |]. destruct (bool_decide _); simpl; [| by apply (He _ _ Hl)].
  destruct (first_value (hr_body resp) ≫= envelope store_login ("", "")) as [[ticket csrf] |]; [| by apply (He _ _ Hl)].
  destruct (bool_decide (ticket = "")); simpl; [by apply (He _ _ Hl) |]. intros _. exact (Hok _ Hl).
Qed.

(** The exchange of a request, after a login when there is no token. *)
Definition do_call (method path : string) (body : option form) (auth : list (string * string)) : http_call :=
  MkCall method (pc_endpoint c +:+ "/api2/json" +:+ path) ((match body with Some _ => [form_type] | None => [] end) ++ auth) (option_map encode_form body).

Lemma do_spec {A} (store : A -> json -> option A) zero method path body tr (Q : guest_failure + A -> list pve_event -> Prop) :
  (forall l e, logins l -> e <> out_of_rounds -> Q (inl e) (l ++ tr)) ->
  (forall l auth r, logins l -> (is_read method || pc_mutations_enabled c) = true ->
    match do_answer store zero r with
    | Some a => Q (inr a) (VHttp (do_call method path body auth) r :: l ++ tr)
    | None => forall e, e <> out_of_rounds -> Q (inl e) (VHttp (do_call method path body auth) r :: l ++ tr)
    end) ->
  pvwp (do c json_error store zero method path body) tr Q.
Proof.
  intros He Hok. unfold do. apply pvwp_bind, pvwp_ensure; [intros _; by apply (He []); [apply Forall_nil |] |]. intros Hm.
  assert (forall l, logins l -> pvwp (auth ← authorization c method; PHttp (do_call method path body auth) (do_reply json_error store zero)) (l ++ tr) Q) as Hcall.
  { intros l Hl. assert (forall auth, pvwp (PHttp (do_call method path body auth) (do_reply json_error store zero)) (l ++ tr) Q) as Hauth.
    { intros auth r. specialize (Hok l auth r Hl Hm). destruct r as [f | resp]; simpl in *; [by apply Hok |].
      destruct (_ || _); [by apply Hok |]. destruct (first_value (hr_body resp) ≫= envelope store zero); [exact Hok | by apply Hok]. }
    unfold authorization. destruct (negb _); [apply Hauth |]. intros t. apply Hauth. }
  destruct (bool_decide (pc_token_id c = "")); apply pvwp_bind.
  - apply ensureTicket_spec; [intros l e Hl Hne; by apply He | exact Hcall].
  - exact (Hcall [] (Forall_nil_2 _)).
Qed.

(** ** One command *)
Definition exec_call (node : string) (vmid : Z) (command : list string) (input : bytes) : list (string * string) -> http_call :=
  do_call "POST" (qemu_path node vmid "agent/exec") (Some (exec_form command input)).
Definition status_path (node : string) (vmid pid : Z) : string := qemu_path node vmid ("agent/exec-status?pid=" +:+ itoa pid).
Definition read_pid : guest_failure + http_reply -> option Z := do_answer (row (fun l => field ["pid"] store_int64 0 "pid" l)) 0.

(** The newest event reports the end of the process, with this result. *)
Definition exec_reported (path : string) (result : GuestExecResult) (tr : list pve_event) : Prop :=
  exists auth reply st rest, tr = VHttp (do_call "GET" path None auth) reply :: rest /\ do_answer store_exec zero_exec reply = Some st /\
    es_exited st <> None /\ guestExecFlag (es_exited st) = Some true /\ es_signal st = None /\ es_exit_code st = Some (ExitCode result) /\
    0 <= ExitCode result <= 0xffffffff /\ guestExecFlag (es_out_truncated st) = Some false /\ guestExecFlag (es_err_truncated st) = Some false /\
    es_stdout st = Stdout result /\ es_stderr st = Stderr result.

Lemma harmless_get path auth r : harmless (VHttp (do_call "GET" path None auth) r).
Proof. by left. Qed.

Lemma exec_result_inr st tr (Q : guest_failure + GuestExecResult -> list pve_event -> Prop) :
  (forall e, e <> out_of_rounds -> Q (inl e) tr) ->
  (forall result, es_signal st = None -> es_exit_code st = Some (ExitCode result) -> 0 <= ExitCode result <= 0xffffffff ->
    guestExecFlag (es_out_truncated st) = Some false -> guestExecFlag (es_err_truncated st) = Some false ->
    es_stdout st = Stdout result -> es_stderr st = Stderr result -> Q (inr result) tr) ->
  pvwp (exec_result st) tr Q.
Proof.
  intros He Hok. unfold exec_result. destruct (es_signal st); [by apply He |]. destruct (es_exit_code st) as [code |]; [| by apply He].
  destruct (_ || _) eqn:Hc; [by apply He |]. apply orb_false_iff in Hc as [? ?].
  destruct (guestExecFlag (es_out_truncated st)) as [[] |]; try by apply He.
  destruct (guestExecFlag (es_err_truncated st)) as [[] |]; try by apply He. apply Hok; try done. simpl. lia.
Qed.

Lemma poll_exec_spec rounds path tr : pvwp (poll_exec c json_error rounds path) tr (fun r tr' =>
  exists polls, tr' = polls ++ tr /\ Forall harmless polls /\
  match r with
  | inr result => exec_reported path result tr'
  | inl e => e = out_of_rounds -> waits tr' = (rounds + waits tr)%nat
  end).
Proof.
  revert tr. induction rounds as [| rounds IH]; intros tr; [by exists [] |]. cbn [poll_exec]. apply pvwp_bind, pvwp_try, do_spec.
  - intros l e Hl Hne. destruct (isTransientGuestExecStatusError _).
    + simpl. intros [e' |].
      * exists (VTick (Some e') :: l). split_and!; [done | apply Forall_cons; split; [done | by apply logins_harmless] | by destruct e'].
      * eapply pvwp_mono; [| apply IH]. simpl. intros r tr' (polls & -> & Hp & Hr). exists (polls ++ VTick None :: l). rewrite <- app_assoc. split; [done |].
        split; [apply Forall_app; split; [done |]; apply Forall_cons; split; [done | by apply logins_harmless] |].
        destruct r as [e' |]; [| done]. intros Heq. rewrite (Hr Heq). cbn. pose proof (logins_waits l tr Hl) as Hw. unfold waits in *. lia.
    + exists l. split_and!; [done | by apply logins_harmless | done].
  - intros l auth r Hl _. set (ev := VHttp _ r). assert (Forall harmless (ev :: l)) as Hev by (apply Forall_cons; split; [apply harmless_get | by apply logins_harmless]).
    assert (forall e : guest_failure, e <> out_of_rounds -> exists polls, ev :: l ++ tr = polls ++ tr /\ Forall harmless polls /\ (e = out_of_rounds -> waits (ev :: l ++ tr) = (S rounds + waits tr)%nat)) as Hend
      by (intros e Hne; by exists (ev :: l)).
    assert (pvwp (PTick (fun e => match e with Some e => PDone (inl (context_failure e)) | None => poll_exec c json_error rounds path end)) (ev :: l ++ tr)
      (fun r tr' => exists polls, tr' = polls ++ tr /\ Forall harmless polls /\
        match r with inr result => exec_reported path result tr' | inl e => e = out_of_rounds -> waits tr' = (S rounds + waits tr)%nat end)) as Hagain.
    { simpl. intros [e' |].
      - exists (VTick (Some e') :: ev :: l). split_and!; [done | by apply Forall_cons | by destruct e'].
      - eapply pvwp_mono; [| apply IH]. simpl. intros r' tr' (polls & -> & Hp & Hr). exists (polls ++ VTick None :: ev :: l). rewrite <- app_assoc. split; [done |].
        split; [apply Forall_app; split; [done |]; by apply Forall_cons |].
        destruct r' as [e' |]; [| done]. intros Heq. rewrite (Hr Heq). cbn. pose proof (logins_waits l tr Hl) as Hw. unfold waits in *. lia. }
    destruct (do_answer store_exec zero_exec r) as [st |] eqn:Hst.
    + destruct (es_exited st) as [v |] eqn:Hex; [| by apply Hend]. destruct (guestExecFlag (Some v)) as [exited |] eqn:Hf; [| by apply Hend].
      destruct exited; [| exact Hagain]. apply exec_result_inr; [exact Hend |]. intros. exists (ev :: l). split_and!; [done.. |].
      exists auth, r, st, (l ++ tr). rewrite Hex. split_and!; (done || lia).
    + intros e Hne. destruct (isTransientGuestExecStatusError _); [exact Hagain | by apply Hend].
Qed.

(** (C33) A command reaches a Guest at most once, whatever fails and however
    long it runs: every other exchange of the call only reads or logs in.  A
    result is returned only if PVE acknowledged the command with a process and
    the last exchange reported, for that process, an end with this exit code of
    32 bits, no signal and complete output.  The poll gives up by itself only
    after as many waits as it was given rounds. *)
Theorem execGuest_once {S} (env : pve_env S) rounds node vmid command input s r s' tr
    (Hrun : run_pve env (execGuest c json_error rounds node vmid command input) s [] = (r, s', tr)) :
  (Forall harmless tr \/
   exists polls auth reply before, tr = polls ++ VHttp (exec_call node vmid command input auth) reply :: before /\ Forall harmless polls /\ Forall harmless before) /\
  match r with
  | inl e => e = out_of_rounds -> waits tr = rounds
  | inr result => exists polls auth reply before pid, tr = polls ++ VHttp (exec_call node vmid command input auth) reply :: before /\
      read_pid reply = Some pid /\ 0 < pid /\ exec_reported (status_path node vmid pid) result tr
  end.
Proof.
  pattern r, tr. refine (pvwp_run env _ s _ r s' tr _ Hrun). unfold execGuest. apply pvwp_bind, pvwp_ensure; intros _; [by split; [left; apply Forall_nil |] |].
  apply pvwp_bind, do_spec.
  - intros l e Hl Hne. rewrite app_nil_r. split; [left; by apply logins_harmless | done].
  - intros l auth reply Hl _. rewrite app_nil_r. fold (exec_call node vmid command input auth). fold (read_pid reply).
    assert (forall polls, Forall harmless polls -> exists polls' auth' reply' before, polls ++ VHttp (exec_call node vmid command input auth) reply :: l =
      polls' ++ VHttp (exec_call node vmid command input auth') reply' :: before /\ Forall harmless polls' /\ Forall harmless before) as Hone
      by (intros polls Hp; exists polls, auth, reply, l; split_and!; [done.. | by apply logins_harmless]).
    destruct (read_pid reply) as [pid |] eqn:Hpid; [| intros e Hne; split; [right; apply (Hone [] (Forall_nil_2 _)) | done]].
    apply pvwp_bind, pvwp_ensure; intros Hp; [split; [right; apply (Hone [] (Forall_nil_2 _)) | done] |].
    eapply pvwp_mono; [| apply poll_exec_spec]. intros r' tr' (polls & -> & Hh & Hr). split; [right; by apply Hone |].
    destruct r' as [e | result].
    + intros He. rewrite (Hr He). cbn. pose proof (logins_waits l [] Hl) as Hw. rewrite app_nil_r in Hw. unfold waits in *. simpl in *. lia.
    + exists polls, auth, reply, l, pid. apply Z.ltb_lt in Hp. by split_and!.
Qed.
End exchanges.

(** ** GPU properties *)
Definition property_text (e : string * string) : string := fst e +:+ "=" +:+ snd e.

Lemma distinct_split {A} (l : list (string * A)) w : List.NoDup (List.map fst l) -> In w l ->
  Permutation l (w :: List.filter (fun e => fst e != fst w) l).
Proof.
  induction l as [| e l IH]; simpl; [done |]. intros Hnd Hin. apply List.NoDup_cons_iff in Hnd as [Hnot Hnd]. destruct Hin as [<- | Hin].
  - rewrite bool_decide_true by done. simpl. constructor. rewrite (List.forallb_filter_id _ l); [done |].
    apply forallb_forall. intros x Hx. rewrite bool_decide_false; [done |]. intros Heq. apply Hnot. rewrite <- Heq. by apply in_map.
  - rewrite bool_decide_false by (intros Heq; apply Hnot; rewrite Heq; by apply in_map). simpl. rewrite perm_swap. constructor. by apply IH.
Qed.

Lemma find_distinct {A} (l : list (string * A)) w : List.NoDup (List.map fst l) -> In w l -> List.find (fun e => fst e == fst w) l = Some w.
Proof.
  induction l as [| e l IH]; simpl; [done |]. intros Hnd [<- | Hin]; [by rewrite bool_decide_true |]. apply List.NoDup_cons_iff in Hnd as [Hnot Hnd].
  rewrite bool_decide_false; [by apply IH |]. intros Heq. apply Hnot. rewrite Heq. by apply in_map.
Qed.

Lemma filter_distinct {A} (p : string * A -> bool) l : List.NoDup (List.map fst l) -> List.NoDup (List.map fst (List.filter p l)).
Proof.
  induction l as [| e l IH]; simpl; [done |]. intros Hnd. apply List.NoDup_cons_iff in Hnd as [Hnot Hnd]. destruct (p e); [| by apply IH].
  simpl. constructor; [| by apply IH]. intros Hin. apply Hnot. apply in_map_iff in Hin as (x & <- & Hx). apply filter_In in Hx as [Hx _]. by apply in_map.
Qed.

Lemma match_parts_spec parts expected : List.NoDup (List.map fst expected) -> forallb (fun e => no_char "=" (fst e)) expected = true ->
  match_parts expected parts = true <-> Permutation parts (List.map property_text expected).
Proof.
  revert expected. induction parts as [| part parts IH]; intros expected Hnd Hk; cbn [match_parts].
  - destruct expected; split; try done. intros Hp. by apply Permutation_nil_cons in Hp.
  - assert (forall w, In w expected -> match_parts (List.filter (fun e => fst e != fst w) expected) parts = true <->
      Permutation parts (List.map property_text (List.filter (fun e => fst e != fst w) expected))) as IHw.
    { intros w _. apply IH; [by apply filter_distinct |]. apply forallb_forall. intros x Hx. apply filter_In in Hx as [Hx _]. by apply (proj1 (forallb_forall _ _) Hk). }
    split.
    + destruct (cut "=" part) as [[key value] ok] eqn:Ec. destruct (List.find _ _) as [w |] eqn:Ef; [| done].
      apply find_some in Ef as [Hin Hkey]. apply bool_decide_eq_true in Hkey. intros Hm. apply andb_true_iff in Hm as [Hm Hrest]. apply andb_true_iff in Hm as [-> Hv].
      apply bool_decide_eq_true in Hv. apply cut_found in Ec as [-> _]. subst key value. apply IHw in Hrest; [| done].
      rewrite Hrest. rewrite (Permutation_map property_text (distinct_split _ _ Hnd Hin)). done.
    + intros Hp. assert (In part (List.map property_text expected)) as Hin by (eapply Permutation_in; [exact Hp | by left]).
      apply in_map_iff in Hin as (w & <- & Hin). change (property_text w) with (fst w +:+ String "=" (snd w)). rewrite cut_word by (by apply (proj1 (forallb_forall _ _) Hk)).
      rewrite (find_distinct _ _ Hnd Hin). rewrite bool_decide_true by done. apply IHw; [done |].
      rewrite (Permutation_map property_text (distinct_split _ _ Hnd Hin)) in Hp. by apply Permutation_cons_inv in Hp.
Qed.

(** (C35) The GPU configuration of a VM is recognised as the one of a profile
    exactly when its properties are those that the client writes for it, in any
    order, each once and nothing else. *)
Theorem MatchesGPUResourceMapping_spec raw mapping mdev :
  MatchesGPUResourceMapping raw mapping mdev = true <->
  mapping <> "" /\ slen raw <= 1024 /\ Permutation (split "," raw) (List.map property_text (gpu_properties mapping mdev)).
Proof.
  assert (match_parts (gpu_properties mapping mdev) (split "," raw) = true <-> Permutation (split "," raw) (List.map property_text (gpu_properties mapping mdev))) as Hm.
  { apply match_parts_spec; unfold gpu_properties; destruct (negb _); try done; repeat constructor; simpl; intuition discriminate. }
  unfold MatchesGPUResourceMapping. destruct (bool_decide (mapping = "")) eqn:He; [apply bool_decide_eq_true in He; naive_solver |]. apply bool_decide_eq_false in He.
  destruct (Z.ltb_spec 1024 (slen raw)); simpl; [split; [done | intros (_ & Hl & _); lia] |].
  destruct (Nat.eqb_spec (length (split "," raw)) (length (gpu_properties mapping mdev))) as [Hlen | Hlen]; simpl.
  - rewrite Hm. naive_solver.
  - split; [done |]. intros (_ & _ & Hp). apply Permutation_length in Hp. rewrite length_map in Hp. done.
Qed.

(** What an accepted write stores is recognised afterwards. *)
Lemma no_comma_class first cls n s : begins_with first cls n s = true -> first ","%char = false -> cls ","%char = false -> no_char "," s = true.
Proof.
  destruct s as [| c s]; [done |]. simpl. intros Hb Hf Hc. apply andb_true_iff in Hb as [Hb1 Hb2]. apply match_class_spec in Hb2 as (r & -> & Hr & _).
  unfold no_char in *. simpl. apply andb_true_iff. split; [rewrite bool_decide_false; [done |]; intros ->; congruence |].
  eapply str_forall_impl; [| exact Hr]. intros x Hx. rewrite bool_decide_false; [done |]. intros ->. congruence.
Qed.

Lemma gpu_text_split mapping mdev : no_char "," mapping = true -> no_char "," mdev = true ->
  split "," (join "," (List.map property_text (gpu_properties mapping mdev))) = List.map property_text (gpu_properties mapping mdev).
Proof.
  intros Hm Hd. apply split_join; [unfold gpu_properties; by destruct (negb _) |].
  unfold gpu_properties, property_text, no_char in *. destruct (negb _); repeat apply Forall_cons_2; simpl; rewrite ?Hm, ?Hd; by try apply Forall_nil.
Qed.

Lemma begins_with_len first cls n s : begins_with first cls n s = true -> slen s <= n + 1 /\ s <> "".
Proof.
  destruct s as [| x s]; [done |]. simpl. intros Hb. apply andb_true_iff in Hb as [_ Hb]. apply match_class_spec in Hb as (r & -> & _ & _ & Hl). split; [| done].
  rewrite slen_String. cbn in Hl. change ("" +:+ r) with r. lia.
Qed.

(** The value of [hostpci0] that the two writers send. *)
Lemma gpu_value_recognized mapping mdev : mapping_pattern mapping = true -> mdev = "" \/ mdev_pattern mdev = true ->
  MatchesGPUResourceMapping (join "," (List.map property_text (gpu_properties mapping mdev))) mapping mdev = true.
Proof.
  intros Hm Hd. assert (no_char "," mapping = true) as Hm' by (by eapply no_comma_class; [exact Hm | |]).
  assert (no_char "," mdev = true) as Hd' by (destruct Hd as [-> | Hd]; [done | by eapply no_comma_class; [exact Hd | |]]).
  apply begins_with_len in Hm as [Hml Hne]. assert (slen mdev <= 128) as Hdl by (destruct Hd as [-> | Hd]; [done | by apply begins_with_len in Hd as [? _]]).
  apply MatchesGPUResourceMapping_spec. split; [done |]. split; [| by rewrite gpu_text_split].
  unfold gpu_properties, property_text. destruct (negb _); cbn [List.map join fst snd]; rewrite ?app_String, ?app_EmptyString; repeat (rewrite slen_app || rewrite slen_String || rewrite app_String || rewrite app_EmptyString);
    change (slen "") with 0; lia.
Qed.

Section gpu_writes.
Context `{UnicodeLower} (c : Client) (json_error : string -> string).

(** The exchange of a conditional write. *)
Definition configure_call (node : string) (vmid : Z) (key value digest : string) : list (string * string) -> http_call :=
  do_call c "PUT" (qemu_path node vmid "config") (Some [(key, [value]); ("digest", [digest])]).

Lemma configure_spec node vmid key value digest :
  pvwp (configure c json_error node vmid key value digest) [] (fun r tr =>
    (Forall (harmless c) tr /\ r <> inr tt) \/
    exists auth reply before, tr = VHttp (configure_call node vmid key value digest auth) reply :: before /\ Forall (harmless c) before /\
      (r = inr tt -> exists resp, reply = inr resp /\ 200 <= hr_code resp < 300)).
Proof.
  unfold configure, put_any. apply pvwp_bind, do_spec.
  - intros l e Hl _. left. rewrite app_nil_r. split; [by apply logins_harmless | done].
  - intros l auth reply Hl _. rewrite app_nil_r. fold (configure_call node vmid key value digest auth).
    assert (forall r : guest_failure + unit, (r = inr tt -> exists resp, reply = inr resp /\ 200 <= hr_code resp < 300) ->
      exists auth' reply' before, VHttp (configure_call node vmid key value digest auth) reply :: l = VHttp (configure_call node vmid key value digest auth') reply' :: before /\
        Forall (harmless c) before /\ (r = inr tt -> exists resp, reply' = inr resp /\ 200 <= hr_code resp < 300)) as Hone
      by (intros r Hr; exists auth, reply, l; split_and!; [done | by apply logins_harmless | done]).
    destruct (do_answer store_any JNull reply) as [v |] eqn:Ha; [| intros e _; right; by apply Hone].
    right. apply Hone. intros _. destruct reply as [| resp]; [done |]. exists resp. split; [done |]. simpl in Ha.
    destruct (Z.ltb_spec (hr_code resp) 200); [done |]. destruct (Z.leb_spec 300 (hr_code resp)); [done |]. lia.
Qed.

(** A GPU is given to a VM only under the digest of the configuration that
    was read, in one write, and the value that is written is one that is
    recognised as that profile when it is read back. *)
Theorem gpu_write_conditional {S} (env : pve_env S) node vmid mapping mdev digest s r s' tr
    (Hrun : run_pve env (if mdev == "" then ConfigureVMPCIResourceMapping c json_error node vmid mapping digest
                         else ConfigureVMMDevResourceMapping c json_error node vmid mapping mdev digest) s [] = (r, s', tr)) :
  (Forall (harmless c) tr /\ r <> inr tt) \/
  exists value auth reply before, tr = VHttp (configure_call node vmid "hostpci0" value digest auth) reply :: before /\ Forall (harmless c) before /\
    ValidConfigurationDigest digest = true /\ MatchesGPUResourceMapping value (TrimSpace mapping) (TrimSpace mdev) = true.
Proof.
  assert (forall value mdev' ok message, (ok = true -> ValidConfigurationDigest digest = true /\ MatchesGPUResourceMapping value (TrimSpace mapping) mdev' = true) ->
    pvwp (pve_ensure ok message;; configure c json_error node vmid "hostpci0" value digest) [] (fun r tr => (Forall (harmless c) tr /\ r <> inr tt) \/
      exists value auth reply before, tr = VHttp (configure_call node vmid "hostpci0" value digest auth) reply :: before /\ Forall (harmless c) before /\
        ValidConfigurationDigest digest = true /\ MatchesGPUResourceMapping value (TrimSpace mapping) mdev' = true)) as Hw.
  { intros value mdev' ok message Hok. apply pvwp_bind, pvwp_ensure; intros Ho; [left; split; [apply Forall_nil_2 | done] |].
    destruct (Hok Ho) as (Hg & Hm). eapply pvwp_mono; [| apply configure_spec].
    intros r' tr' [Hh | (auth & reply & before & -> & Hb & _)]; [by left |]. right. exists value, auth, reply, before. by split_and!. }
  destruct (bool_decide (mdev = "")) eqn:He; pattern r, tr; refine (pvwp_run env _ s _ r s' tr _ Hrun); apply Hw; intros Ho; b2p; destruct_and!; (split; [done |]).
  - subst mdev. by apply (gpu_value_recognized (TrimSpace mapping) ""); [| left].
  - assert (mdev_pattern (TrimSpace mdev) = true) as Hd by done. pose proof (gpu_value_recognized (TrimSpace mapping) (TrimSpace mdev)) as Hr. unfold gpu_properties in Hr.
    rewrite bool_decide_false in Hr by (by apply begins_with_len in Hd as [_ ?]). apply Hr; [done | by right].
Qed.
End gpu_writes.

(** ** Runs *)
Section witnesses.
#[local] Instance pve_demo_lower : UnicodeLower := fun s => s.

Definition demo_client : Client := MkClient "https://pve:8006" "" "" "svc@pve!ci" "secret" true.
Definition demo_reply (v : json) : guest_failure + http_reply := inr (MkReply 200 "200 OK" (json_print (JObj [("data", v)]))).

(** The state counts the exchanges: the process is started, runs, and ends. *)
Definition demo_pve_env : pve_env nat := MkPveEnv
  (fun q n => (match n with
               | 0%nat => demo_reply (JObj [("pid", JNum "7")])
               | 1%nat => demo_reply (JObj [("exited", JNum "0")])
               | _ => demo_reply (JObj [("exited", JNum "1"); ("exitcode", JNum "0"); ("out-data", JStr "ok")])
               end, S n))
  (fun n => (None, n)) (fun n => (0, n)) (fun n => (MkTicket "" "" 0, n)) (fun _ n => n).

Lemma execGuest_once_witness : exists s' tr,
  run_pve demo_pve_env (execGuest demo_client id 5 "pve1" 101 ["/bin/true"] "") 0%nat [] = (inr (MkExecResult 0 "ok" ""), s', tr) /\ length tr = 4%nat /\
  exists polls auth reply before, tr = polls ++ VHttp (exec_call demo_client "pve1" 101 ["/bin/true"] "" auth) reply :: before /\
    Forall (harmless demo_client) polls /\ Forall (harmless demo_client) before.
Proof.
  destruct (run_pve demo_pve_env (execGuest demo_client id 5 "pve1" 101 ["/bin/true"] "") 0%nat []) as [[r s'] tr] eqn:Hrun.
  pose proof Hrun as Hc. vm_compute in Hc. injection Hc as Hr Hs Ht. exists s', tr. rewrite <- Hr. split; [reflexivity |]. split; [by rewrite <- Ht |].
  destruct (execGuest_once demo_client id demo_pve_env 5 "pve1" 101 ["/bin/true"] "" 0%nat r s' tr Hrun) as [[Hh | Hone] _]; [exfalso | exact Hone].
  rewrite <- Ht in Hh. do 3 (apply Forall_cons in Hh as [_ Hh]). apply Forall_cons in Hh as [[Hm | Hm] _]; discriminate Hm.
Defined.

Definition demo_digest : string := "0123456789abcdef0123456789abcdef01234567".
Lemma gpu_write_conditional_witness : exists s' tr,
  run_pve demo_pve_env (ConfigureVMPCIResourceMapping demo_client id "pve1" 104 "gpu0" demo_digest) 0%nat [] = (inr tt, s', tr) /\
  exists value auth reply before, tr = VHttp (configure_call demo_client "pve1" 104 "hostpci0" value demo_digest auth) reply :: before /\
    MatchesGPUResourceMapping value "gpu0" "" = true.
Proof.
  destruct (run_pve demo_pve_env (ConfigureVMPCIResourceMapping demo_client id "pve1" 104 "gpu0" demo_digest) 0%nat []) as [[r s'] tr] eqn:Hrun.
  pose proof Hrun as Hc. vm_compute in Hc. injection Hc as Hr Hs Ht. exists s', tr. rewrite <- Hr. split; [reflexivity |].
  destruct (gpu_write_conditional demo_client id demo_pve_env "pve1" 104 "gpu0" "" demo_digest 0%nat r s' tr Hrun)
    as [[_ Hn] | (value & auth & reply & before & Htr & _ & _ & Hm)]; [by rewrite <- Hr in Hn |]. by exists value, auth, reply, before.
Defined.
End witnesses.
