(* ===== verification/ControllerNative.v ===== *)
(** * Credentials of people and the revocation queue ([internal/httpapi])

    native_guest_account.go, guest_session_revocation.go and the connection
    half of server.go as tasks over the store and the Guests.  Log lines are
    left out; a context that ends shows as a lost answer of the call it was
    given to. *)
From stdpp Require Import base strings list.
From Stdlib Require Import ZArith Lia Ascii.
From S2P Require Import Prelude GoStrings Auth Net Db Json Triggers StoreAccess StoreConn StoreLease StoreNative StoreGateway Computer Guest GuestAccount GuestSession Pve Controller ControllerScripts.

Local Open Scope string_scope.
Local Open Scope list_scope.
Local Open Scope Z_scope.

(** [Unix()] of a column. *)
Definition unix_seconds (t : time) : Z := t / 1000000.

(** [t.After(now)] for a column and the clock. *)
Definition after (t : time) (now : nanos) : bool := now <? t * 1000.

Definition nativeCredential (a : NativeGuestAccount) : NativeCredential :=
  MkNativeCredential 1 (MkIdentity (a_guest_username a) (a_guest_uid a) (a_guest_sid a)) (a_connection_id a) (a_revision a)
    (match a_expires_at a with Some t => unix_seconds t | None => 0 end) "".

(** Every [VMID] once, in the order of its first item. *)
Fixpoint unseen (seen : list Z) (l : list Z) : list Z :=
  match l with
  | [] => []
  | v :: l' => if bool_decide (v ∈ seen) then unseen seen l' else v :: unseen (v :: seen) l'
  end.

Definition unavailable : ctl_error := EGuest CompUnavailable.

(** The exit code of a command run through QGA must be zero. *)
Definition exec_guest (m : VM) (cmd : list string) : ctl unit :=
  r ← guest_ m (GExec cmd);
  match r with
  | inl f => cfail (EPve f)
  | inr result => censure (ExitCode result =? 0) EOther
  end.

Section native_tasks.
Context `{Sha256} (has_computer : bool).

Definition nativeLifecycle (a : NativeGuestAccount) : ctl unit :=
  censure (has_computer && (a_os_family a == "linux")) unavailable.

Definition inspect_or_unavailable (m : VM) (username : string) : ctl NativeAccountObservation :=
  r ← ctry (guest_ m (GInspectNative username));
  match r with inl _ => cfail unavailable | inr o => mret o end.

(** [observed.Matches(...) && observed.Retained()] *)
Definition retired_and_retained (o : NativeAccountObservation) (a : NativeGuestAccount) : ctl bool :=
  if native_matches o (nativeCredential a) "retired" then now ← cnow; mret (native_retained now o) else mret false.

(** ** Issue *)
Definition bindNativeGuestAccount (m : VM) (userID : string) (digest : bytes) : ctl NativeGuestAccount :=
  let a := MkNativeGuestAccount (vm_id m) userID (NativeGuestUsername userID) "linux" 0 "" 0 NNone NIdle "" None None 0 in
  nativeLifecycle a;;
  o ← inspect_or_unavailable m (a_guest_username a);
  censure ((IdUsername (NoIdentity o) == a_guest_username a) && NoExists o) unavailable;;
  a ← store_ (OpBindNative (a <| a_guest_uid := IdUID (NoIdentity o); a_guest_sid := IdSID (NoIdentity o) |>) digest);
  match a_state a, a_operation a with
  | NIdle, _ => censure ((NoLifecycle o == None) && native_closed o) unavailable;; mret a
  | NApplied, NRevoke => censure (native_matches o (nativeCredential a) "revoked" && native_closed o) unavailable;; mret a
  | NApplied, NRetire => ok ← retired_and_retained o a; censure ok unavailable;; mret a
  | _, _ => cfail (EStore ErrConflict)
  end.

(** What an issue hands to the caller. *)
Record issued : Set := MkIssued { is_connection : option DesktopConnectionSession; is_password : string; is_ticket : option NativeGatewayTicket }.

Definition eight_hours_truncated (now : nanos) : time := (now + 8 * 3600 * second) / second * 1000000.

Definition issue_cleanup (a : NativeGuestAccount) : ctl unit :=
  current ← store_ (OpNativeAccount (a_desktop_vmid a) (a_user_id a));
  if (a_connection_id current == a_connection_id a) && (a_revision current == a_revision a) && (a_operation current == NIssue)
  then store_ (OpRevokeNative current);; mret tt else mret tt.

Definition issue_complete (a : NativeGuestAccount) (digest : bytes) (gateway : option NativeGatewayTicketRequest) : ctl (option DesktopConnectionSession * option NativeGatewayTicket) :=
  match gateway with
  | None => c ← store_ (OpCompleteConnection a); mret (c, None)
  | Some r =>
      let request := MkTicketRequest (a_connection_id a) digest (TicketGatewayID r) (TicketTarget r) (TicketCertificateSHA256 r) (TicketPolicyRevision r) in
      x ← ctry (store_ (OpCompleteGatewayConnection a request));
      match x with inl _ => cfail EAuthorization | inr (c, t) => mret (c, Some t) end
  end.

Definition issueNativeGuestConnection (m : VM) (a : NativeGuestAccount) (digest : bytes) (gateway : option NativeGatewayTicketRequest) : ctl issued :=
  nativeLifecycle a;;
  id ← crandom 18;
  secret ← crandom 24;
  now ← cnow;
  a ← store_ (OpBeginNative a ("conn_" +:+ OpaqueToken id) (eight_hours_truncated now) digest);
  let password := "Vcw1!" +:+ OpaqueToken secret in
  cfinally (
    guest_ m (GChangeNative (nativeCredential a) "issue" password);;
    r ← issue_complete a digest gateway;
    mret (MkIssued (fst r) password (snd r)))
    (fun r => match r with inr _ => mret tt | inl _ => issue_cleanup a end).

(** ** Revocation and retirement *)
Definition revokeNativeGuestAccount (m : VM) (a : NativeGuestAccount) : ctl unit :=
  nativeLifecycle a;;
  if a_state a == NIdle then
    o ← inspect_or_unavailable m (a_guest_username a);
    censure ((NoIdentity o == CredIdentity (nativeCredential a)) && (NoLifecycle o == None) && native_closed o) unavailable
  else
    a ← (if a_operation a != NRevoke then store_ (OpRevokeNative a) else mret a);
    guest_ m (GChangeNative (nativeCredential a) "revoke" "");;
    if a_state a == NPending then store_ (OpCompleteNative a) else mret tt.

(** [a.ExpiresAt == nil || !a.ExpiresAt.After(time.Now())] *)
Definition unusable (a : NativeGuestAccount) : ctl bool :=
  match a_expires_at a with None => mret true | Some t => now ← cnow; mret (negb (after t now)) end.

Definition retireNativeGuestConnection (m : VM) (a : NativeGuestAccount) (c : DesktopConnectionSession) (terminate : bool) : ctl unit :=
  censure (negb ((a_connection_id a != c_id c) || (a_guest_username a != c_guest_username c) || (a_user_id a != c_user_id c) ||
                 (a_desktop_vmid a != c_desktop_vmid c))) (EStore ErrConflict);;
  nativeLifecycle a;;
  revoke ← (if terminate || (a_operation a == NRevoke) then mret true else unusable a);
  if revoke : bool then revokeNativeGuestAccount m a
  else if (a_operation a == NIssue) && (a_state a == NApplied) then
    a ← store_ (OpRetireNative a);
    guest_ m (GChangeNative (nativeCredential a) "retire" "");;
    store_ (OpCompleteNative a)
  else if a_operation a == NRetire then
    o ← guest_ m (GInspectNative (a_guest_username a));
    ok ← retired_and_retained o a;
    if ok : bool then
      if a_state a == NPending then store_ (OpCompleteNative a) else store_ (OpCloseConnection (c_id c) "revoked")
    else revokeNativeGuestAccount m a
  else revokeNativeGuestAccount m a.

(** ** Recovery *)

(** An account of the desktop needs work. *)
Definition recovery_due (a : NativeGuestAccount) : ctl bool :=
  due ← (if a_state a == NPending then mret true
         else match a_expires_at a with None => mret false | Some t => now ← cnow; mret (negb (after t now)) end);
  if due : bool then mret true
  else if (a_operation a == NIssue) && (a_state a == NApplied) then
    r ← ctry (store_ (OpConnection (a_connection_id a)));
    match r with
    | inl (EStore ErrNotFound) => mret true
    | inl e => cfail e
    | inr c => mret ((c_state c != CActive) && (c_state c != CRevoking))
    end
  else mret false.

Definition pending_retirement (a : NativeGuestAccount) : ctl bool :=
  if (a_state a == NPending) && (a_operation a == NRetire) then
    match a_expires_at a with None => mret false | Some t => now ← cnow; mret (after t now) end
  else mret false.

Definition recover_account (m : VM) (a : NativeGuestAccount) : ctl unit :=
  due ← recovery_due a;
  if negb due then mret tt
  else
    retiring ← pending_retirement a;
    settled ← (if retiring : bool then
                 nativeLifecycle a;;
                 o ← guest_ m (GInspectNative (a_guest_username a));
                 retired_and_retained o a
               else mret false);
    if settled : bool then store_ (OpCompleteNative a) else revokeNativeGuestAccount m a.

Definition recoverNativeAccountsForDesktop (vmid : Z) : ctl unit :=
  accounts ← store_ (OpNativeAccountsForDesktop vmid);
  match accounts with
  | [] => mret tt
  | _ =>
      desktop ← store_ (OpDesktop vmid);
      cfor accounts (recover_account (machine_at vmid (Node desktop)))
  end.

(** Every desktop once; a failure is logged and leaves the others alone. *)
Definition each_locked (vmids : list Z) (task : Z -> ctl unit) : ctl unit :=
  cfor (unseen [] vmids) (fun vmid => cignore (WithDesktopConnectionLock vmid (task vmid))).

Definition recoverDueNativeAccounts : ctl unit :=
  r ← ctry (store_ (OpNativeAccountsNeedingRecovery 100));
  match r with
  | inl _ => mret tt
  | inr items => each_locked (List.map a_desktop_vmid items) recoverNativeAccountsForDesktop
  end.

(** ** The queue of revocations *)
Definition revokeGuestAccount (desktop : DesktopInfo) (username : string) : ctl unit :=
  command ← csome (terminateGuestSessionCommand (OSFamily desktop) username) EOther;
  exec_guest (machine_at (VMID desktop) (Node desktop)) command.

Definition enableGuestAccount (node : string) (vmid : Z) (username : string) : ctl unit :=
  desktop ← store_ (OpDesktop vmid);
  command ← csome (enableGuestAccountCommand (OSFamily desktop) username) EOther;
  exec_guest (machine_at vmid node) command.

(** The Guest work of one item, with its failure recorded. *)
Definition revoke_item (vmid : Z) (desktop : DesktopInfo) (item : RevocationItem) : ctl unit :=
  account ← ctry (store_ (OpNativeAccount vmid (RevUserID item)));
  (match account with
   | inr a => censure (a_guest_username a == RevGuestUsername item) (EStore ErrConflict)
   | inl _ => mret tt
   end);;
  r ← ctry (match account with
            | inr a => revokeNativeGuestAccount (machine_at vmid (Node desktop)) a
            | inl (EStore ErrNotFound) => revokeGuestAccount desktop (RevGuestUsername item)
            | inl e => cfail e
            end);
  match r with
  | inl e => cignore (store_ (OpRecordRevocationFailure item));; cfail e
  | inr _ => store_ (OpCompleteRevocation item)
  end.

Definition revokeGuestIdentitiesForDesktop (vmid : Z) : ctl unit :=
  store_ (OpQueueExpiredIdentities vmid);;
  items ← store_ (OpPendingRevocations vmid);
  match items with
  | [] => mret tt
  | _ =>
      desktop ← store_ (OpDesktop vmid);
      cfor items (revoke_item vmid desktop)
  end.

Definition revokeDueGuestIdentities : ctl unit :=
  r ← ctry (store_ (OpQueueExpiredIdentities 0);; store_ (OpPendingRevocations 0));
  match r with
  | inl _ => mret tt
  | inr items => each_locked (List.map RevVMID items) revokeGuestIdentitiesForDesktop
  end.

(** ** Connections *)
Definition revokeDesktopConnectionCredential (id : string) : ctl unit :=
  found ← ctry (store_ (OpConnection id));
  match found with
  | inl (EStore ErrNotFound) => mret tt
  | inl e => cfail e
  | inr c =>
      if c_state c != CRevoking then mret tt else
      desktop ← store_ (OpDesktop (c_desktop_vmid c));
      terminate ← store_ (OpTerminationRequired (c_id c));
      account ← ctry (store_ (OpNativeAccount (c_desktop_vmid c) (c_user_id c)));
      match account with
      | inr a => retireNativeGuestConnection (machine_at (VMID desktop) (Node desktop)) a c terminate
      | inl (EStore ErrNotFound) =>
          (if terminate : bool then revokeGuestAccount desktop (c_guest_username c)
           else
             token ← crandom 24;
             pve_ (PSetPassword (machine_at (VMID desktop) (Node desktop)) (c_guest_username c) ("Vcw1!" +:+ OpaqueToken token)));;
          now ← cnow;
          store_ (OpCloseConnection (c_id c) (if after (c_expires_at c) now then "revoked" else "expired"))
      | inl e => cfail e
      end
  end.

Definition releaseDesktopConnection (c : DesktopConnectionSession) : ctl unit :=
  WithDesktopConnectionLock (c_desktop_vmid c) (revokeDesktopConnectionCredential (c_id c)).

Definition revokeDueDesktopConnections : ctl unit :=
  r ← ctry (store_ (OpConnectionsDue 100));
  match r with
  | inl _ => mret tt
  | inr connections => cfor connections (fun c => cignore (releaseDesktopConnection c))
  end.
End native_tasks.
