(* ===== verification/ControllerAgent.v ===== *)
(** * Sessions of agents and computer authority ([internal/httpapi])

    agent_guest_session.go, computer_revocation.go, and the access policy and
    takeover functions of server.go as tasks over the store and the Guests. *)
From stdpp Require Import base strings list.
From Stdlib Require Import ZArith Lia Ascii.
From S2P Require Import Prelude GoStrings Auth Db Json Triggers StoreAccess StoreConn StoreLease StoreAgent StoreNative Computer Guest GuestAccount GuestSession ComputerWire GuestConfirmed StoreAudit Pve Controller ControllerScripts ControllerNative.

Local Open Scope string_scope.
Local Open Scope list_scope.
Local Open Scope Z_scope.

Definition authority_for (leaseID : string) (epoch : Z) (state : string) (expires : Z) : ComputerAuthority :=
  MkComputerAuthority SchemaVersion leaseID epoch state expires.

Definition agentAccountLease (b : AgentGuestSession) : AccountLease :=
  MkAccountLease 1 (MkIdentity (s_guest_username b) (s_guest_uid b) (s_guest_sid b)) (s_lease_id b) (s_control_epoch b)
    (s_login_generation b) (unix_seconds (s_expires_at b)) "".

Definition lease_generation (l : AccountLease) (generation : Z) : AccountLease :=
  MkAccountLease (LeaseSchemaVersion l) (LeaseIdentity l) (LeaseLeaseID l) (LeaseControlEpoch l) generation (LeaseExpiresUnixSeconds l) (LeasePhase l).

(** The identity of an observation in a session row. *)
Definition with_account (b : AgentGuestSession) (i : AccountIdentity) : AgentGuestSession :=
  b <| s_guest_uid := IdUID i; s_guest_sid := IdSID i |>.

Section agent_tasks.
Context `{UnicodeLower} (has_computer : bool) (background : bytes).

(** ** Authority *)
Definition revokeAllComputerAuthority (m : VM) : ctl unit :=
  if negb has_computer then mret tt else
  epoch ← store_ (OpControlEpoch (vm_id m));
  now ← cnow;
  guest_ m (GRevokeAuthority (authority_for "lease_human_takeover_tombstone" epoch "revoked" (UnixMilli now))).

(** The lease whose end the Guest has to confirm: a login that was never
    opened gets the first generation as its terminal barrier. *)
Definition terminal_lease (b : AgentGuestSession) : AccountLease :=
  let intent := agentAccountLease b in
  if LeaseLoginGeneration intent =? 0 then lease_generation intent 1 else intent.

Definition overtaken_account (b : AgentGuestSession) (o : LinuxAccountObservation) : bool :=
  (s_login_generation b =? 0) &&
  match LoLifecycle o with
  | None => false
  | Some l => (s_control_epoch b <=? LeaseControlEpoch l) && negb (linux_matches o (lease_expires (terminal_lease b) 0) "revoked")
  end.

Definition revoke_agent_session (m : VM) (b : AgentGuestSession) : ctl unit :=
  if s_state b != GRevoking then mret tt else
  o ← guest_ m (GInspectAgent (s_guest_username b));
  match LoIdentity o with
  | None =>
      censure (negb ((s_login_generation b != 0) || (s_guest_uid b != 0) || (s_guest_sid b != ""))) unavailable;;
      store_ (OpCompleteAgentRevocation b)
  | Some i =>
      let b := with_account b i in
      store_ (OpBindRevokingAgent b);;
      censure (negb (overtaken_account b o)) unavailable;;
      guest_ m (GStopAgent (terminal_lease b));;
      store_ (OpCompleteAgentRevocation b)
  end.

Definition revokeAgentGuestSessions (m : VM) : ctl unit :=
  bindings ← store_ (OpAgentSessions (vm_id m));
  match bindings with
  | [] => mret tt
  | _ =>
      censure has_computer unavailable;;
      epoch ← store_ (OpRevocationEpoch (vm_id m));
      guest_ m (GRevokeSession (authority_for "lease_revoked_session_tombstone" epoch "revoked" 0));;
      cfor bindings (revoke_agent_session m)
  end.

Definition synchronizeComputerRevocation (m : VM) (force : bool) : ctl unit :=
  store_ (OpQueueExpiredLeases (vm_id m));;
  items ← store_ (OpPendingComputer (vm_id m));
  match items, force with
  | [], false => mret tt
  | _, _ =>
      censure has_computer unavailable;;
      revokeAllComputerAuthority m;;
      revokeAgentGuestSessions m;;
      cfor items (fun item => store_ (OpCompleteComputer item))
  end.

Definition revoke_due_item (item : ComputerRevocationItem) : ctl unit :=
  WithDesktopConnectionLock (CRVMID item) (
    desktop ← store_ (OpDesktop (CRVMID item));
    synchronizeComputerRevocation (machine_at (CRVMID item) (Node desktop)) false).

(** A context that has ended stops the loop and keeps a failed item in place. *)
Fixpoint revoke_due_items (items : list ComputerRevocationItem) : ctl unit :=
  match items with
  | [] => mret tt
  | item :: rest =>
      ended ← ccontext;
      match ended with
      | Some _ => mret tt
      | None =>
          r ← ctry (revoke_due_item item);
          (match r with
           | inr _ => mret tt
           | inl _ =>
               ended ← ccontext;
               match ended with Some _ => mret tt | None => cignore (store_ (OpDeferComputer item)) end
           end);;
          revoke_due_items rest
      end
  end.

Definition revokeDueComputerAuthorities : ctl unit :=
  r ← ctry (store_ (OpQueueExpiredLeases 0);; store_ (OpPendingComputer 0));
  match r with inl _ => mret tt | inr items => revoke_due_items items end.

(** ** Access policies *)
Definition desktopOSFamily (osType : string) : string :=
  let osType := ToLower (TrimSpace osType) in
  if has_prefix "win" osType || has_prefix "w2k" osType then "windows"
  else if (osType == "l26") || has_prefix "linux" osType then "linux" else "unknown".

Definition configuration_ (m : VM) : ctl string :=
  os ← guest_ m GConfiguration;
  csome os EOther.

Definition background_path (osFamily : string) : string :=
  if osFamily == "windows" then "C:\Windows\Temp\vc-workspace-desktop-background-session.jpg" else "/tmp/vc-workspace-desktop-background-session.jpg".

(** Every name once, the first occurrence kept. *)
Fixpoint add_names (seen : list string) (names : list string) : list string :=
  match names with
  | [] => []
  | n :: names' => if bool_decide (n ∈ seen) then add_names seen names' else n :: add_names (n :: seen) names'
  end.

Definition policy_usernames (bindings : list GuestIdentityBinding) (sessions : list AgentGuestSession) : list string :=
  "vdi" :: add_names ["vdi"]
    (List.map b_guest_username (rows (fun b => b_state b != BDisabled) bindings) ++
     List.map s_guest_username (rows (fun g => (s_state g == GReady) || (s_state g == GProvisioning)) sessions)).

Definition applyDesktopAccessPolicy (m : VM) (policy : AccessPolicy) : ctl AccessPolicy :=
  os ← configuration_ m;
  let osFamily := desktopOSFamily os in
  (if ManagedBackground policy then pve_ (PWriteBinary m (background_path osFamily) background) else mret tt);;
  session ← csome (desktopSessionPolicyCommand osFamily policy) EOther;
  exec_guest m session;;
  bindings ← store_ (OpBindings (vm_id m));
  sessions ← store_ (OpAgentSessions (vm_id m));
  cfor (policy_usernames bindings sessions) (fun username =>
    command ← csome (desktopAccessPolicyCommandForUser osFamily (PrivilegeMode policy) username) EOther;
    exec_guest m command);;
  store_ (OpPolicyApplied (vm_id m) (DesiredRevision policy) osFamily).

Definition reconcileDesktopAccessPolicy (m : VM) : ctl AccessPolicy :=
  policy ← store_ (OpEnsurePolicy (vm_id m));
  r ← ctry (applyDesktopAccessPolicy m policy);
  match r with
  | inr applied => mret applied
  | inl e =>
      let osFamily := if PolicyOSFamily policy == "" then "unknown" else PolicyOSFamily policy in
      cignore (store_ (OpPolicyFailed (vm_id m) (DesiredRevision policy) osFamily "Guest Agent could not apply the policy"));;
      cfail e
  end.

(** ** Preparing the session of an agent *)

(** The deferred clean-up sees the row as it stands when the call fails. *)
Definition or_queue {A} (b : AgentGuestSession) (p : ctl A) : ctl A :=
  r ← ctry p;
  match r with
  | inr a => mret a
  | inl e => cignore (store_ (OpQueueAgentRevocation b));; cfail e
  end.

Definition agent_profile (desktop : DesktopInfo) : ctl unit :=
  let id := if IdentityProfileID desktop == "" then "managed-local-linux" else IdentityProfileID desktop in
  r ← ctry (store_ (OpIdentityProfile id));
  match r with
  | inl _ => cfail unavailable
  | inr p => censure (p_enabled p && (p_mode p == "managed_local") && (p_platform p == "linux")) unavailable
  end.

Definition policy_is_current (p : AccessPolicy) : bool := (PolicyState p == PolApplied) && (AppliedRevision p =? DesiredRevision p).

(** The account of a session that is not ready yet: its identity. *)
Definition prepare_account (m : VM) (b : AgentGuestSession) : ctl AgentGuestSession :=
  revokeAllComputerAuthority m;;
  identity ← guest_ m (GPrepareAgent (s_guest_username b));
  censure (IdUsername identity == s_guest_username b) unavailable;;
  mret (with_account b identity).

Definition bind_account (m : VM) (policy : AccessPolicy) (b : AgentGuestSession) : ctl unit :=
  store_ (OpBindAgent b);;
  if policy_is_current policy then
    command ← csome (desktopAccessPolicyCommandForUser "linux" (PrivilegeMode policy) (s_guest_username b)) EOther;
    r ← ctry (guest_ m (GExec command));
    censure (match r with inr (inr result) => ExitCode result =? 0 | _ => false end) unavailable
  else mret tt.

(** The lease and the account as they stand before a login. *)
Definition observe_account (m : VM) (lease : DesktopLease) (policy : AccessPolicy) (b : AgentGuestSession) : ctl LinuxAccountObservation :=
  (if policy_is_current policy then mret tt else reconcileDesktopAccessPolicy m;; mret tt);;
  current ← ctry (store_ (OpLease (l_id lease)));
  censure (match current with
           | inr l => (l_state l == LActive) && (l_control_epoch l =? l_control_epoch lease)
           | inl _ => false
           end) (EStore ErrConflict);;
  o ← guest_ m (GInspectAgent (s_guest_username b));
  censure ((LoIdentity o == Some (LeaseIdentity (agentAccountLease b))) && LoExists o) (EStore ErrConflict);;
  mret o.

(** A live session, or nothing when a login is needed. *)
Definition existing_session (m : VM) (b : AgentGuestSession) (o : LinuxAccountObservation) : ctl (option SessionTarget) :=
  let intent := agentAccountLease b in
  if s_login_generation b =? 0 then
    censure (LoDisabled o && (LoProcessesAbsent o == Some true) && (LoLoginWritersAbsent o == Some true) &&
             negb (match LoLifecycle o with Some l => s_control_epoch b <=? LeaseControlEpoch l | None => false end)) unavailable;;
    mret None
  else
    censure (linux_matches o intent "sealed" && negb (LoDisabled o) && (LoExpiryDay o == Some (expiry_day (LeaseExpiresUnixSeconds intent)))) unavailable;;
    found ← ctry (guest_ m (GDiscover (s_guest_username b)));
    match found with
    | inr target => mret (Some target)
    | inl _ => guest_ m (GAwaitExit intent o);; mret None
    end.

Definition start_session (m : VM) (b : AgentGuestSession) : ctl SessionTarget :=
  target ← guest_ m (GStartAgent (agentAccountLease b));
  r ← ctry (guest_ m (GInspectAgent (s_guest_username b)));
  censure (match r with inr o => linux_matches o (agentAccountLease b) "sealed" && negb (LoDisabled o) | inl _ => false end) unavailable;;
  mret target.

Definition check_target (b : AgentGuestSession) (t : SessionTarget) : ctl AgentGuestSession :=
  censure (negb ((TargetUsername t != s_guest_username b) || (TargetUID t != s_guest_uid b) || (TargetSID t != s_guest_sid b))) (EStore ErrConflict);;
  censure (target_valid t) unavailable;;
  mret (b <| s_guest_uid := TargetUID t; s_guest_sid := TargetSID t; s_session_id := TargetSessionID t; s_instance_id := TargetInstanceID t |>).

Definition activate_session (m : VM) (lease : DesktopLease) (b : AgentGuestSession) (t : SessionTarget) : ctl unit :=
  store_ (OpAgentReady b);;
  guest_ m (GActivate t (authority_for (l_id lease) (l_control_epoch lease) "active" (l_expires_at lease / 1000))).

Definition prepareAgentGuestSession (m : VM) (lease : DesktopLease) : ctl SessionTarget :=
  censure has_computer unavailable;;
  desktop ← store_ (OpDesktop (vm_id m));
  censure (OSFamily desktop == "linux") unavailable;;
  agent_profile desktop;;
  b ← store_ (OpBeginAgent lease);
  policy ← or_queue b (store_ (OpEnsurePolicy (vm_id m)));
  b ← (if s_state b == GReady then mret b else
         b' ← or_queue b (prepare_account m b);
         or_queue b' (bind_account m policy b');;
         mret b');
  o ← or_queue b (observe_account m lease policy b);
  found ← or_queue b (existing_session m b o);
  bt ← (match found with
        | Some target => mret (b, target)
        | None =>
            b' ← or_queue b (store_ (OpBeginAgentLogin b));
            target ← or_queue b' (start_session m b');
            mret (b', target)
        end);
  let '(b, target) := bt in
  b' ← or_queue b (check_target b target);
  or_queue b' (activate_session m lease b' target);;
  mret target.
End agent_tasks.
