(* ===== verification/ControllerRules.v ===== *)
(** * What the control plane may do when

    The rules that every task follows: a Guest is touched only under the lock
    of its desktop; it is changed only to what the store said in the same
    section; and the store is told that work in a Guest is done only after the
    Guest confirmed it, in the same section.  The rules are executable: a
    recorded history can be checked event by event. *)
From stdpp Require Import base strings list.
From Stdlib Require Import ZArith Lia Ascii.
From S2P Require Import Prelude GoStrings Auth Db Json Triggers StoreAccess StoreConn StoreLease StoreAgent StoreNative StoreGateway Computer Guest GuestAccount GuestSession ComputerWire StoreAudit StoreJobs Pve Controller ControllerScripts ControllerNative ControllerAgent.

Local Open Scope string_scope.
Local Open Scope list_scope.
Local Open Scope Z_scope.

#[export] Instance SessionTarget_eq_dec : EqDecision SessionTarget.
Proof. solve_decision. Defined.

Definition op_text (o : native_op) : string :=
  match o with NNone => "none" | NIssue => "issue" | NRetire => "retire" | NRevoke => "revoke" end.

Section rules_of_tasks.
Context `{Sha256} `{Collation} `{UnicodeLower}.

(** ** Evidence in the history *)

(** Accounts as a transaction reported them. *)
Definition reported (e : happened) : list NativeGuestAccount :=
  match e with
  | HStore q cx s f =>
      match q in store_op B return store_failure + B -> list NativeGuestAccount with
      | OpNativeAccount _ _ | OpRevokeNative _ | OpRetireNative _ | OpBeginNative _ _ _ _ => fun r => match r with inr a => [a] | inl _ => [] end
      | OpNativeAccountsForDesktop _ => fun r => match r with inr l => l | inl _ => [] end
      | _ => fun _ => []
      end (store_answer q cx s f)
  | _ => []
  end.

(** The reservation of a new credential. *)
Definition reserved (e : happened) : list NativeGuestAccount :=
  match e with HStore (OpBeginNative _ _ _ _) _ _ _ => reported e | _ => [] end.

Definition reported_connections (e : happened) : list DesktopConnectionSession :=
  match e with
  | HStore q cx s f =>
      match q in store_op B return store_failure + B -> list DesktopConnectionSession with
      | OpConnection _ => fun r => match r with inr c => [c] | inl _ => [] end
      | _ => fun _ => []
      end (store_answer q cx s f)
  | _ => []
  end.

Definition reported_sessions (e : happened) : option (list AgentGuestSession) :=
  match e with
  | HStore q cx s f =>
      match q in store_op B return store_failure + B -> option (list AgentGuestSession) with
      | OpAgentSessions _ => fun r => match r with inr l => Some l | inl _ => None end
      | _ => fun _ => None
      end (store_answer q cx s f)
  | _ => None
  end.

(** A transaction that was acknowledged. *)
Definition acknowledged (e : happened) : bool :=
  match e with
  | HStore q cx s f => match store_answer q cx s f with inr _ => true | inl _ => false end
  | _ => false
  end.

(** A Guest program on a desktop that succeeded, judged by [p]. *)
Definition succeeded (vmid : Z) (p : forall B, guest_op B -> B -> bool) (e : happened) : bool :=
  match e with
  | HGuest m q (inr b) _ => (vm_id m =? vmid) && p _ q b
  | _ => false
  end.

Definition changed (a : NativeGuestAccount) : happened -> bool :=
  succeeded (a_desktop_vmid a) (fun B q _ =>
    match q with GChangeNative c op _ => (c == nativeCredential a) && (op == op_text (a_operation a)) | _ => false end).

Definition seen_retired (a : NativeGuestAccount) : happened -> bool :=
  succeeded (a_desktop_vmid a) (fun B q =>
    match q with GInspectNative _ => fun o => native_matches o (nativeCredential a) "retired" | _ => fun _ => false end).

(** The terminate command of a name, on either system, exited with zero. *)
Definition is_terminate (username : string) (cmd : list string) : bool :=
  (terminateGuestSessionCommand "linux" username == Some cmd) || (terminateGuestSessionCommand "windows" username == Some cmd).
Definition terminated (vmid : Z) (username : string) : happened -> bool :=
  succeeded vmid (fun B q =>
    match q with
    | GExec cmd => fun r => is_terminate username cmd && match r with inr result => ExitCode result =? 0 | inl _ => false end
    | _ => fun _ => false
    end).

(** Nothing of the account is left: a confirmed revocation, an account that
    never had a credential and is closed, or the terminate command. *)
Definition account_ended (vmid : Z) (username : string) (e : happened) : bool :=
  succeeded vmid (fun B q =>
    match q with
    | GChangeNative c op _ => fun _ => (IdUsername (CredIdentity c) == username) && (op == "revoke")
    | GInspectNative u => fun o => (IdUsername (NoIdentity o) == username) && (NoLifecycle o == None) && native_closed o
    | _ => fun _ => false
    end) e || terminated vmid username e.

(** The password of a connection no longer works. *)
Definition credential_cut (c : DesktopConnectionSession) (e : happened) : bool :=
  terminated (c_desktop_vmid c) (c_guest_username c) e ||
  succeeded (c_desktop_vmid c) (fun B q =>
    match q with
    | GInspectNative _ => fun o =>
        match NoLifecycle o with
        | Some l => (CredConnectionID l == c_id c) && (CredPhase l == "retired") && (IdUsername (NoIdentity o) == c_guest_username c)
        | None => false
        end
    | _ => fun _ => false
    end) e ||
  match e with
  | HPve (PSetPassword m username _) (inr _) => (vm_id m =? c_desktop_vmid c) && (username == c_guest_username c)
  | _ => false
  end.

(** The login of a revoked session is over, or there is no such account. *)
Definition login_over (b : AgentGuestSession) : happened -> bool :=
  succeeded (s_desktop_vmid b) (fun B q =>
    match q with
    | GStopAgent l => fun _ => l == terminal_lease b
    | GInspectAgent u => fun o =>
        (u == s_guest_username b) && (LoIdentity o == None) && (s_login_generation b =? 0) && (s_guest_uid b =? 0) && (s_guest_sid b == "")
    | _ => fun _ => false
    end).

(** The attempt of a session: all but the account it was bound to. *)
Definition attempt (b : AgentGuestSession) : Z * string * string * string * Z * Z :=
  (s_desktop_vmid b, s_agent_id b, s_guest_username b, s_lease_id b, s_control_epoch b, s_login_generation b).

Definition session_settled (b : AgentGuestSession) (e : happened) : bool :=
  match e with
  | HStore (OpCompleteAgentRevocation b') _ _ _ => acknowledged e && (attempt b' == attempt b)
  | _ => false
  end.

Definition authority_revoked (vmid : Z) : happened -> bool :=
  succeeded vmid (fun B q _ => match q with GRevokeAuthority _ => true | _ => false end).
Definition session_authority_revoked (vmid : Z) : happened -> bool :=
  succeeded vmid (fun B q _ => match q with GRevokeSession _ => true | _ => false end).

(** The store named the current control epoch of the desktop. *)
Definition epoch_read (vmid epoch : Z) (e : happened) : bool :=
  match e with
  | HStore q cx s f =>
      match q in store_op B return store_failure + B -> bool with
      | OpControlEpoch v => fun r => match r with inr b => (v =? vmid) && (b =? epoch) | inl _ => false end
      | _ => fun _ => false
      end (store_answer q cx s f)
  | _ => false
  end.

(** Every session that was to be revoked is settled. *)
Definition sessions_settled (tr : list happened) (e : happened) : bool :=
  match reported_sessions e with
  | Some l => forallb (fun b => (s_state b != GRevoking) || existsb (session_settled b) tr) l
  | None => false
  end.

Definition sealed_login (b : AgentGuestSession) : happened -> bool :=
  succeeded (s_desktop_vmid b) (fun B q =>
    match q with
    | GInspectAgent _ => fun o => linux_matches o (agentAccountLease b) "sealed" && negb (LoDisabled o)
    | _ => fun _ => false
    end).

(** The Guest is closed at a later revision than the account's. *)
Definition ahead_closed (a : NativeGuestAccount) (revision : Z) (connectionID : string) : happened -> bool :=
  succeeded (a_desktop_vmid a) (fun B q =>
    match q with
    | GInspectNative _ => fun o =>
        NoExists o && (NoIdentity o == CredIdentity (nativeCredential a)) && native_closed o &&
        match NoLifecycle o with
        | Some l => (CredRevision l =? revision) && (a_revision a <? revision) && (CredConnectionID l == connectionID) && (CredPhase l == "revoked")
        | None => false
        end
    | _ => fun _ => false
    end).

Definition session_target (b : AgentGuestSession) : SessionTarget :=
  MkTarget (s_guest_username b) (s_guest_uid b) (s_guest_sid b) (s_session_id b) (s_instance_id b).

Definition session_found (b : AgentGuestSession) : happened -> bool :=
  succeeded (s_desktop_vmid b) (fun B q =>
    match q with
    | GDiscover _ => fun t => t == session_target b
    | GStartAgent l => fun t => (t == session_target b) && (l == agentAccountLease b)
    | _ => fun _ => false
    end).

Definition recorded_ready (vmid : Z) (target : SessionTarget) (a : ComputerAuthority) (e : happened) : bool :=
  match e with
  | HStore (OpAgentReady b) _ _ _ =>
      acknowledged e && (s_desktop_vmid b =? vmid) && (session_target b == target)
  | _ => false
  end.

Definition activated (vmid : Z) (target : SessionTarget) (leaseID : string) (epoch : Z) : happened -> bool :=
  succeeded vmid (fun B q _ =>
    match q with
    | GActivate t a => (t == target) && (AuthLeaseID a == leaseID) && (AuthControlEpoch a =? epoch)
    | _ => false
    end).

Definition lease_active (leaseID : string) (epoch : Z) (e : happened) : bool :=
  match e with
  | HStore q cx s f =>
      match q in store_op B return store_failure + B -> bool with
      | OpLease id => fun r =>
          match r with inr l => (id == leaseID) && (l_state l == LActive) && (l_control_epoch l =? epoch) | inl _ => false end
      | _ => fun _ => false
      end (store_answer q cx s f)
  | _ => false
  end.

(** Newest first: something that [q] holds of, and before it something that
    [p] holds of. *)
Fixpoint followed (p q : happened -> bool) (l : list happened) : bool :=
  match l with
  | [] => false
  | e :: l' => (q e && existsb p l') || followed p q l'
  end.

(** ** Evidence about tasks and clones *)

(** A call of PVE that succeeded, and a transaction that was acknowledged,
    judged by [p]. *)
Definition pve_said (p : forall B, pve_op B -> B -> bool) (e : happened) : bool :=
  match e with HPve q (inr b) => p _ q b | _ => false end.
Definition store_said (p : forall B, store_op B -> B -> bool) (e : happened) : bool :=
  match e with
  | HStore q cx s f => match store_answer q cx s f with inr b => p _ q b | inl _ => false end
  | _ => false
  end.

(** Newest first: the last event that [p] or [used] holds of is one of [p]. *)
Fixpoint unspent (p used : happened -> bool) (l : list happened) : bool :=
  match l with
  | [] => false
  | e :: l' => p e || (negb (used e) && unspent p used l')
  end.

(** A job that did not exist before, for exactly this clone or machine. *)
Definition fresh_clone (r : CloneRequest) : happened -> bool :=
  store_said (fun B q =>
    match q with
    | OpReserveClone row _ => fun b =>
        snd b && (cl_description r == clone_marker (JobID (fst b))) && (cl_target_vmid r =? TargetVMID (fst b)) &&
        (cl_source_vmid r =? SourceVMID row) && (cl_source_node r == TaskNode row) && (cl_target_node r == TargetNode row)
    | _ => fun _ => false
    end).
Definition fresh_power (vmid : Z) : happened -> bool :=
  store_said (fun B q => match q with OpCreateJob row => fun b => snd b && (TargetVMID row =? vmid) | _ => fun _ => false end).
Definition is_clone (e : happened) : bool := match e with HPve (PClone _) _ => true | _ => false end.
Definition is_power (e : happened) : bool := match e with HPve (PPower _ _ _) _ => true | _ => false end.
Definition is_configuration (e : happened) : bool :=
  match e with HPve (PConfigurePCI _ _ _ _) _ | HPve (PConfigureMDev _ _ _ _ _) _ | HPve (PConfigureDHCP _ _ _) _ => true | _ => false end.

Definition clone_started (job : JobInfo) (upid : string) : happened -> bool :=
  pve_said (fun B q => match q with PClone r => fun u => (cl_description r == clone_marker (JobID job)) && (u == upid) | _ => fun _ => false end).

Definition reported_jobs (e : happened) : list JobInfo :=
  match e with
  | HStore q cx s f =>
      match q in store_op B return store_failure + B -> list JobInfo with
      | OpJob _ => fun r => match r with inr job => [job] | inl _ => [] end
      | _ => fun _ => []
      end (store_answer q cx s f)
  | _ => []
  end.

(** The task of a job ended well. *)
Definition task_ok (job : JobInfo) : happened -> bool :=
  pve_said (fun B q =>
    match q with
    | PTaskStatus node upid => fun t => (node == TaskNode job) && (upid == UPID job) && (ts_status t == "stopped") && (ts_exit_status t == "OK")
    | _ => fun _ => false
    end).

(** The inventory has one machine with the identifier, on its node. *)
Definition listed (job : JobInfo) : happened -> bool :=
  pve_said (fun B q =>
    match q with
    | PSummary => fun s =>
        match List.filter (fun m => vm_id m =? TargetVMID job) (sm_vms s) with
        | [m] => (vm_node m == TargetNode job) && (vm_kind m == "qemu") && negb (vm_template m)
        | _ => false
        end
    | _ => fun _ => false
    end).

(** The configuration of the target, judged by [p]. *)
Definition configuration_says (job : JobInfo) (p : VMConfiguration -> bool) : happened -> bool :=
  pve_said (fun B q =>
    match q with
    | PConfiguration node vmid => fun c => (node == TargetNode job) && (vmid =? TargetVMID job) && p c
    | _ => fun _ => false
    end).

(** It is the machine of the job: not a template, not locked, with the name of
    the request and the description of the job. *)
Definition recognised (job : JobInfo) (c : VMConfiguration) : bool :=
  match decode_clone (Request job) with
  | Some r => negb (vc_template c) && (vc_lock c == "") && (vc_name c == dc_name r) && (vc_description c == clone_marker (JobID job))
  | None => false
  end.

Definition network_ready (job : JobInfo) (tr : list happened) : bool :=
  match decode_clone (Request job) with
  | Some r => (dc_source_os_family r != "linux") ||
      existsb (configuration_says job (fun c => negb (HasCloudInitDisk c) || (map_get "ipconfig0" (vc_ip_configs c) != ""))) tr
  | None => false
  end.

(** The device of the request was written. *)
Definition device_written (job : JobInfo) (r : desktopCloneRequest) : happened -> bool :=
  pve_said (fun B q _ =>
    match q with
    | PConfigurePCI _ vmid mapping _ => (vmid =? TargetVMID job) && (mapping == dc_pci_resource_mapping r) && (dc_mdev_type r == "")
    | PConfigureMDev _ vmid mapping mdev _ => (vmid =? TargetVMID job) && (mapping == dc_pci_resource_mapping r) && (mdev == dc_mdev_type r)
    | _ => false
    end).

(** It is in the configuration, or was written. *)
Definition gpu_ready (job : JobInfo) (tr : list happened) : bool :=
  match decode_clone (Request job) with
  | Some r => (dc_pci_resource_mapping r == "") ||
      existsb (configuration_says job (fun c =>
        MatchesGPUResourceMapping (map_get "hostpci0" (vc_pci_host_devices c)) (dc_pci_resource_mapping r) (dc_mdev_type r))) tr ||
      existsb (device_written job r) tr
  | None => false
  end.

(** A clone whose task ended well, recognised after the last change made to it. *)
Definition verified_clone (vmid : Z) (node : string) (tr : list happened) (job : JobInfo) : bool :=
  (Operation job == clone_op) && (TargetVMID job =? vmid) && (TargetNode job == node) &&
  existsb (task_ok job) tr && existsb (listed job) tr && unspent (configuration_says job (recognised job)) is_configuration tr.

(** It may be configured under the digest with which it was recognised. *)
Definition configurable (vmid : Z) (node digest : string) (tr : list happened) (job : JobInfo) : bool :=
  (Operation job == clone_op) && (TargetVMID job =? vmid) && (TargetNode job == node) && existsb (task_ok job) tr &&
  existsb (configuration_says job (fun c => recognised job c && (vc_digest c == digest) && ValidConfigurationDigest digest)) tr.

Definition published (job : JobInfo) : happened -> bool :=
  store_said (fun B q _ => match q with OpUpsertDesktop d => VMID d =? TargetVMID job | _ => false end).

(** PVE says that the task cloned the source of the job for its principal
    within the window of the job, and ended well. *)
Definition task_of (job : JobInfo) (upid : string) : happened -> bool :=
  pve_said (fun B q =>
    match q with
    | PInspectTask node u => fun e =>
        match decode_clone (Request job) with
        | Some r =>
            (node == TaskNode job) && (u == upid) && (te_type e == "qmclone") && (te_id e == itoa (SourceVMID job)) &&
            (task_principal (te_user e) (te_token_id e) == dc_pve_principal r) && (te_status e == "stopped") && (te_exit_status e == "OK") &&
            (unix_seconds (JobCreatedAt job - 30 * micros 1) <=? te_start_time e) && (te_start_time e <=? unix_seconds (JobCreatedAt job + 900 * micros 1))
        | None => false
        end
    | _ => fun _ => false
    end).
Definition log_of (job : JobInfo) (upid : string) : happened -> bool :=
  pve_said (fun B q =>
    match q with
    | PCloneLog node u => fun found => (node == TaskNode job) && (u == upid) && (found == Some (SourceVMID job, TargetVMID job))
    | _ => fun _ => false
    end).

(** ** The rules *)
Definition holds_lock (tr : list happened) (vmid : Z) : bool := held tr == Some vmid.
Definition proved (p : happened -> bool) (tr : list happened) : bool := existsb p (section tr).

(** A credential is written only as the store named it in this section; a
    password only after its reservation. *)
Definition intended (m : VM) (c : NativeCredential) (op : string) (tr : list happened) : bool :=
  let names a := (a_desktop_vmid a =? vm_id m) && (nativeCredential a == c) && (op_text (a_operation a) == op) in
  if op == "issue" then proved (fun e => existsb names (reserved e)) tr else proved (fun e => existsb names (reported e)) tr.

Definition guest_permitted (tr : list happened) (m : VM) {B} (q : guest_op B) : bool :=
  match q with
  | GChangeNative c op _ => intended m c op tr
  | GActivate t a => proved (recorded_ready (vm_id m) t a) tr
  | GRevokeAuthority a => (AuthState a == "revoked") && proved (epoch_read (vm_id m) (AuthControlEpoch a)) tr
  | GAction t request _ =>
      followed (activated (vm_id m) t (LeaseID request) (ControlEpoch request)) (lease_active (LeaseID request) (ControlEpoch request)) (section tr)
  | _ => true
  end.

Definition store_permitted (tr : list happened) {B} (q : store_op B) : bool :=
  match q with
  | OpCompleteNative a =>
      holds_lock tr (a_desktop_vmid a) && (proved (changed a) tr || ((a_operation a == NRetire) && proved (seen_retired a) tr))
  | OpCompleteConnection a | OpCompleteGatewayConnection a _ => holds_lock tr (a_desktop_vmid a) && proved (changed a) tr && (a_operation a == NIssue)
  | OpCompleteRevocation item => holds_lock tr (RevVMID item) && proved (account_ended (RevVMID item) (RevGuestUsername item)) tr
  | OpCloseConnection id _ =>
      proved (fun e => existsb (fun c => (c_id c == id) && holds_lock tr (c_desktop_vmid c) && proved (credential_cut c) tr) (reported_connections e)) tr
  | OpCommitRecovery _ a revision connectionID _ _ _ => holds_lock tr (a_desktop_vmid a) && proved (ahead_closed a revision connectionID) tr
  | OpCompleteAgentRevocation b => holds_lock tr (s_desktop_vmid b) && proved (login_over b) tr
  | OpCompleteComputer item =>
      holds_lock tr (CRVMID item) && proved (authority_revoked (CRVMID item)) tr &&
      proved (fun e => sessions_settled (section tr) e &&
        ((match reported_sessions e with Some [] => true | _ => false end) || proved (session_authority_revoked (CRVMID item)) tr)) tr
  | OpAgentReady b => holds_lock tr (s_desktop_vmid b) && proved (sealed_login b) tr && proved (session_found b) tr
  | OpRecordCloneHandle job upid => proved (clone_started job upid) tr
  | OpUpsertDesktop d =>
      holds_lock tr (VMID d) &&
      proved (fun e => existsb (fun job => verified_clone (VMID d) (Node d) (section tr) job && network_ready job (section tr) && gpu_ready job (section tr)) (reported_jobs e)) tr
  | OpQuarantineDesktop d =>
      holds_lock tr (VMID d) && proved (fun e => existsb (verified_clone (VMID d) (Node d) (section tr)) (reported_jobs e)) tr
  | OpCompleteJobTask id state upid _ =>
      (state != "succeeded") ||
      proved (fun e => existsb (fun job => (JobID job == id) && (UPID job == upid) && proved (task_ok job) tr &&
        ((Operation job != clone_op) || proved (published job) tr)) (reported_jobs e)) tr
  | OpCommitCloneRecovery _ job upid _ _ =>
      holds_lock tr (TargetVMID job) && proved (task_of job upid) tr && proved (log_of job upid) tr && proved (listed job) tr &&
      proved (configuration_says job (recognised job)) tr
  | _ => true
  end.

Definition pve_permitted (tr : list happened) {B} (q : pve_op B) : bool :=
  match q with
  | PSetPassword m _ _ | PWriteBinary m _ _ => holds_lock tr (vm_id m)
  | PClone r => unspent (fresh_clone r) is_clone tr
  | PPower _ vmid _ => unspent (fresh_power vmid) is_power tr
  | PConfigurePCI node vmid _ digest | PConfigureMDev node vmid _ _ digest | PConfigureDHCP node vmid digest =>
      holds_lock tr vmid && proved (fun e => existsb (configurable vmid node digest (section tr)) (reported_jobs e)) tr
  | _ => true
  end.

Definition permitted (tr : list happened) (e : happened) : bool :=
  match e with
  | HStore q _ _ _ => store_permitted tr q
  | HGuest m q _ _ => holds_lock tr (vm_id m) && guest_permitted tr m q
  | HPve q _ => pve_permitted tr q
  | HLock _ _ => held tr == None
  | HUnlock vmid => holds_lock tr vmid
  | _ => true
  end.
End rules_of_tasks.
