(* ===== verification/ControllerFacts.v ===== *)
(** * What the answers of the store say

    The columns that tie an answer to its question: the desktop, the user, the
    identity and the operation.  They hold in every state of the database. *)
From stdpp Require Import base strings list.
From Stdlib Require Import ZArith Lia Ascii.
From S2P Require Import Prelude GoStrings Auth Db Json Triggers TriggerLemmas StoreAccess StoreConn StoreLease StoreAgent StoreNative StoreGateway StoreNativeProofs StoreAudit Computer Guest GuestAccount GuestSession ComputerWire Pve Controller ControllerScripts ControllerNative ControllerAgent ControllerRules.

Local Open Scope string_scope.
Local Open Scope list_scope.
Local Open Scope Z_scope.

Section facts.
Context `{Sha256} `{Collation} `{UnicodeLower}.

Lemma answered_inr {B} (q : store_op B) cx s f b : store_answer q cx s f = inr b -> exists s', perform q cx s = inr (b, s').
Proof. unfold store_answer. destruct f; [| done..]. destruct (perform q cx s) as [| [b' s']]; [done |]. intros [= <-]. by exists s'. Qed.

Ltac answered H := apply answered_inr in H as [? H]; cbn [perform] in H.

Ltac native_head row :=
  match goal with Hu : update_native_guest_accounts _ _ _ _ _ = inr (?l, _), Hh : head ?l = Some _ |- _ =>
    destruct (update_native_head _ _ _ _ _ _ _ _ Hu Hh) as (row & Hin & Hp & -> & Hin' & Hs) end.

Lemma native_account_key vmid user cx s f a : store_answer (OpNativeAccount vmid user) cx s f = inr a ->
  a_desktop_vmid a = vmid /\ a_user_id a = user.
Proof.
  intros E. answered E. unfold NativeGuestAccount_ in E. inv_tx.
  match goal with Hs : select_one _ _ = Some _ |- _ => apply select_one_some in Hs as [_ Hs] end.
  unfold native_row in *. b2p. naive_solver.
Qed.

Lemma native_accounts_desktop vmid cx s f l a : store_answer (OpNativeAccountsForDesktop vmid) cx s f = inr l -> In a l -> a_desktop_vmid a = vmid.
Proof.
  intros E Hin. answered E. unfold NativeGuestAccountsForDesktop in E. inv_tx. apply order_by_in, filter_In in Hin as [_ Hin]. b2p. done.
Qed.

Lemma desktop_key vmid cx s f d : store_answer (OpDesktop vmid) cx s f = inr d -> VMID d = vmid.
Proof.
  intros E. answered E. unfold ManagedDesktopByVMID in E. inv_tx.
  match goal with Hs : select_one _ _ = Some _ |- _ => apply select_one_some in Hs as [_ Hs] end.
  unfold by_vmid in *. b2p. done.
Qed.

(** A reservation, a retirement or a revocation answers with its account. *)
Definition same_account_row (a b : NativeGuestAccount) : Prop :=
  a_desktop_vmid b = a_desktop_vmid a /\ a_user_id b = a_user_id a /\ a_guest_username b = a_guest_username a /\ a_os_family b = a_os_family a.

Lemma same_native_row a x : same_native a x = true -> same_account_row a x.
Proof. unfold same_native, same_account_row. intros Hs. b2p. naive_solver. Qed.

Lemma cleanup_answer now txid a op s b s' : beginNativeGuestCleanup now txid a op s = inr (b, s') ->
  same_account_row a b /\ a_operation b = op /\ a_state b = NPending.
Proof.
  unfold beginNativeGuestCleanup. intros E. inv_tx. native_head row. unfold cleanup_ready in Hp. b2p. destruct_and!.
  match goal with Hs : same_native _ _ = true |- _ => apply same_native_row in Hs end. done.
Qed.

Lemma revoke_answer a cx s f b : store_answer (OpRevokeNative a) cx s f = inr b ->
  same_account_row a b /\ a_operation b = NRevoke /\ a_state b = NPending.
Proof. intros E. answered E. unfold RevokeNativeGuestAccount in E. inv_tx. by eapply cleanup_answer. Qed.

Lemma retire_answer a cx s f b : store_answer (OpRetireNative a) cx s f = inr b ->
  same_account_row a b /\ a_operation b = NRetire /\ a_state b = NPending.
Proof. intros E. answered E. unfold RetireNativeGuestCredential in E. inv_tx. by eapply cleanup_answer. Qed.

Lemma begin_answer a id expiresAt digest cx s f b : store_answer (OpBeginNative a id expiresAt digest) cx s f = inr b ->
  same_account_row a b /\ a_operation b = NIssue /\ a_connection_id b = id.
Proof.
  intros E. answered E. unfold BeginNativeGuestCredential in E. inv_tx. native_head row. b2p. destruct Hp as [Hr _]. unfold issue_ready in Hr.
  b2p. destruct_and!. match goal with Hs : same_native _ _ = true |- _ => apply same_native_row in Hs end. done.
Qed.

Lemma bind_answer a digest cx s f b : store_answer (OpBindNative a digest) cx s f = inr b -> a_desktop_vmid b = a_desktop_vmid a.
Proof.
  intros E. answered E. unfold BindNativeGuestAccount in E. inv_tx. destruct (exists_where _ _); inv_tx.
  - native_head row. b2p. destruct Hp as [_ Hp]. apply same_native_row in Hp as (? & _). done.
  - match goal with Hi : insert_native_guest_account _ _ = _ |- _ => apply insert_native_inr in Hi as (-> & _) end. done.
Qed.

Lemma revocations_desktop vmid cx s f l item : store_answer (OpPendingRevocations vmid) cx s f = inr l -> 0 < vmid -> In item l -> RevVMID item = vmid.
Proof.
  intros E Hv Hin. answered E. unfold PendingGuestIdentityRevocations in E. inv_tx.
  apply in_map_iff in Hin as (q & <- & Hin). apply in_take, order_by_in, filter_In in Hin as [_ Hin]. b2p. simpl. lia.
Qed.

(** ** The desktop of a connection

    No statement changes the desktop of a connection ([connection_lifecycle]):
    [home] gives it for every name. *)
Definition homed (home : string -> Z) (s : DB) : Prop :=
  forall c, In c (desktop_connection_sessions s) -> c_desktop_vmid c = home (c_id c).

Lemma connection_answer home id cx s f c : homed home s -> store_answer (OpConnection id) cx s f = inr c -> c_id c = id /\ c_desktop_vmid c = home id.
Proof.
  intros Hh E. answered E. unfold DesktopConnectionByID in E. inv_tx.
  match goal with Hs : select_one _ _ = Some _ |- _ => apply select_one_some in Hs as [Hin Hs] end. b2p. subst id. split; [done | by apply Hh].
Qed.

Lemma updated_connections_homed home p g s l s' c : homed home s -> (forall c, c_id (g c) = c_id c /\ c_desktop_vmid (g c) = c_desktop_vmid c) ->
  update_desktop_connections p g s = inr (l, s') -> In c l -> c_desktop_vmid c = home (c_id c).
Proof.
  intros Hh Hg Hu Hin. apply update_connections_inr in Hu as (_ & -> & _). apply in_map_iff in Hin as (c0 & <- & Hin).
  apply filter_In in Hin as [Hin _]. destruct (Hg c0) as [-> ->]. by apply Hh.
Qed.

Lemma due_answer home limit cx s f l c : homed home s -> store_answer (OpConnectionsDue limit) cx s f = inr l -> In c l -> c_desktop_vmid c = home (c_id c).
Proof.
  intros Hh E. answered E. unfold DesktopConnectionsDueForRevocation in E. inv_tx. by eapply updated_connections_homed; [exact Hh | | eassumption].
Qed.

Lemma begin_revoke_answer home vmid cx s f l c : homed home s -> store_answer (OpBeginRevokeConnections vmid) cx s f = inr l -> In c l ->
  c_desktop_vmid c = home (c_id c) /\ c_desktop_vmid c = vmid.
Proof.
  intros Hh E Hin. answered E. unfold BeginRevokeDesktopConnections, begin_revoke in E. split; [by eapply updated_connections_homed; [exact Hh | | eassumption |] |].
  apply update_connections_inr in E as (_ & -> & _). apply in_map_iff in Hin as (c0 & <- & Hin). apply filter_In in Hin as [_ Hp]. b2p. simpl. tauto.
Qed.

(** ** Agents *)
Lemma sessions_desktop vmid cx s f l b : store_answer (OpAgentSessions vmid) cx s f = inr l -> 0 < vmid -> In b l -> s_desktop_vmid b = vmid.
Proof.
  intros E Hv Hin. answered E. unfold AgentGuestSessions in E. inv_tx. apply order_by_in, filter_In in Hin as [_ Hin]. b2p. lia.
Qed.

Lemma computer_desktop vmid cx s f l item : store_answer (OpPendingComputer vmid) cx s f = inr l -> 0 < vmid -> In item l -> CRVMID item = vmid.
Proof.
  intros E Hv Hin. answered E. unfold PendingComputerRevocations in E. inv_tx.
  apply in_map_iff in Hin as (q & <- & Hin). apply in_take, order_by_in, filter_In in Hin as [_ Hin]. b2p. simpl. lia.
Qed.

(** The desktop of a lease, by its name; desktops have numbers of 64 bits. *)
Definition leased (lhome : string -> Z) (s : DB) : Prop :=
  (forall l, In l (desktop_leases s) -> l_desktop_id l = itoa (lhome (l_id l)) /\ 0 <= lhome (l_id l) < 2 ^ 63) /\
  (forall d, In d (managed_desktops s) -> 0 <= d_vmid d).

Lemma update_agent_head p f s l s' b : update_agent_guest_sessions p f s = inr (l, s') -> head l = Some b ->
  exists g, In g (agent_guest_sessions s) /\ p g = true /\ b = f g.
Proof.
  intros Hu Hh. apply update_agent_guest_inr in Hu as (_ & -> & _).
  destruct (rows p (agent_guest_sessions s)) as [| g l'] eqn:El; [done |]. injection Hh as <-.
  assert (In g (rows p (agent_guest_sessions s))) as Hin by (rewrite El; by left). apply filter_In in Hin as [? ?]. by exists g.
Qed.

Ltac agent_head g :=
  match goal with Hu : update_agent_guest_sessions _ _ _ = inr (?l, _), Hh : head ?l = Some _ |- _ =>
    destruct (update_agent_head _ _ _ _ _ _ Hu Hh) as (g & _ & Hp & ->) end.

Lemma upsert_answer now row s b s' : upsert_guest_session now row s = inr (b, s') -> s_desktop_vmid b = s_desktop_vmid row.
Proof.
  unfold upsert_guest_session. intros E. inv_tx. destruct (exists_where _ _); inv_tx.
  - agent_head g. b2p. simpl. tauto.
  - match goal with Hi : insert_agent_guest_session _ _ = _ |- _ => apply insert_agent_guest_inr in Hi as (-> & _) end. done.
Qed.

Lemma begin_agent_answer lhome lease cx s f b : leased lhome s -> store_answer (OpBeginAgent lease) cx s f = inr b ->
  s_desktop_vmid b = lhome (l_id lease).
Proof.
  intros [Hh Hd] E. answered E. unfold BeginAgentGuestSession in E. inv_tx.
  match goal with Hs : begin_lease _ _ _ = Some ?l |- _ => apply select_one_some in Hs as [Hl Hs]; rename l into row end.
  match goal with Hs : begin_desktop _ _ = Some ?d |- _ => apply select_one_some in Hs as [Hin Hp]; rename d into desktop end.
  b2p. destruct_and!. assert (d_vmid desktop = lhome (l_id lease)) as Hv.
  { destruct (Hh row Hl) as [Ht Hpos]. unfold by_text in *. b2p. apply itoa_inj; [by apply Hd | destruct Hpos; congruence | congruence]. }
  destruct (select_one _ (agent_guest_sessions _)) as [g |] eqn:Eg; [inv_tx; destruct (_ && guest_live g) |];
    try (match goal with Hu : upsert_guest_session _ _ _ = _ |- _ => apply upsert_answer in Hu as -> end; done).
  inv_tx. apply select_one_some in Eg as [_ Hg]. b2p. destruct Hg. congruence.
Qed.

Lemma lease_answer lhome id cx s f l : leased lhome s -> store_answer (OpLease id) cx s f = inr l ->
  l_id l = id /\ forall vmid, Atoi (l_desktop_id l) = Some vmid -> vmid = lhome id.
Proof.
  intros [Hh _] E. answered E. unfold DesktopLeaseByID in E. inv_tx.
  match goal with Hs : select_one _ _ = Some ?row |- _ => apply select_one_some in Hs as [Hin Hs]; destruct (Hh row Hin) as [Hd Hr] end.
  b2p. subst id. unfold lease_view. destruct (expire_leases _ _); (split; [done |]); intros vmid; cbn; rewrite Hd, Atoi_itoa by done; congruence.
Qed.

Lemma release_answer lhome id cx s f l : leased lhome s -> store_answer (OpReleaseLease id) cx s f = inr l ->
  forall vmid, Atoi (l_desktop_id l) = Some vmid -> vmid = lhome id.
Proof.
  intros [Hh _] E vmid Hv. answered E. unfold ReleaseDesktopLease, close_leases in E. inv_tx.
  match goal with Hu : update_desktop_leases _ _ _ _ = inr (?rows, _), Hx : head ?rows = Some _ |- _ =>
    apply update_leases_inr in Hu as (_ & _ & Er & HF); destruct rows as [| r rest]; [done |]; injection Hx as -> end.
  match goal with Er : _ = List.map snd ?c |- _ => assert (In l (List.map snd c)) as Hl by (rewrite <- Er; by left) end.
  apply in_map_iff in Hl as ([o n] & Hn & Ho). simpl in Hn. subst n.
  apply (changed_in _ _ _ _ _ _ HF) in Ho as (Hin & _ & Hp & Hrow). rewrite Hp in Hrow. destruct Hrow as (s1 & s2 & Hb).
  apply before_update_lease_inr in Hb as [_ Hb]. apply andb_true_iff in Hp as [Hid _]. apply bool_decide_eq_true in Hid. subst id.
  destruct (Hh o Hin) as [Hd Hr]. assert (l_desktop_id l = l_desktop_id o) as Hsame.
  { apply assign_epoch_inr in Hb as [(o' & _ & -> & _) | (d & e & _ & _ & _ & -> & _)]; done. }
  rewrite Hsame, Hd, Atoi_itoa in Hv by done. congruence.
Qed.

Lemma begin_login_answer b cx s f b' : store_answer (OpBeginAgentLogin b) cx s f = inr b' ->
  s_desktop_vmid b' = s_desktop_vmid b /\ s_guest_username b' = s_guest_username b.
Proof.
  intros E. answered E. unfold BeginAgentGuestLogin in E. inv_tx.
  agent_head g.
  unfold same_attempt, same_subject in Hp. b2p. destruct_and!. done.
Qed.
End facts.
