(* ===== verification/ControllerLogic.v ===== *)
(** * Reasoning about tasks

    [safe tr p Q]: run after the history [tr], the task [p] follows the rules,
    stays in its section, and a result satisfies [Q].  Evidence gathered in a
    section is kept until its lock is left. *)
From stdpp Require Import base strings list.
From Stdlib Require Import ZArith Lia Ascii.
From S2P Require Import Prelude GoStrings Auth Db Json Triggers StoreAccess StoreConn StoreLease StoreAgent StoreNative StoreGateway StoreAudit Computer Guest GuestAccount GuestSession ComputerWire Pve Controller ControllerScripts ControllerNative ControllerAgent ControllerRules.

Local Open Scope string_scope.
Local Open Scope list_scope.
Local Open Scope Z_scope.

(** ** Sections *)
Lemma extends_refl tr : extends tr tr.
Proof. by exists []. Qed.

Lemma extends_trans a b c : extends a b -> extends b c -> extends a c.
Proof. intros (n1 & -> & H1) (n2 & -> & H2). exists (n2 ++ n1). rewrite forallb_app, H1, H2. by rewrite app_assoc. Qed.

Lemma extends_cons e tr : is_lock e = false -> extends tr (e :: tr).
Proof. intros He. exists [e]. simpl. by rewrite He. Qed.

Lemma section_cons e tr : is_lock e = false -> held (e :: tr) = held tr /\ section (e :: tr) = e :: section tr.
Proof. destruct e as [| | | | | | | vmid [|] |]; simpl; done. Qed.

Lemma section_extends tr tr' : extends tr tr' -> held tr' = held tr /\ exists new, section tr' = new ++ section tr.
Proof.
  intros (new & -> & Hn). induction new as [| e new IH]; [by split; [| exists []] |].
  cbn in Hn. apply andb_true_iff in Hn as [He Hn]. apply negb_true_iff in He. destruct (IH Hn) as [IH1 [n IH2]].
  destruct (section_cons e (new ++ tr) He) as [H1 H2]. cbn [app]. rewrite H1, H2, IH1, IH2. split; [done | by exists (e :: n)].
Qed.

Lemma holds_lock_mono tr tr' v : extends tr tr' -> holds_lock tr v = true -> holds_lock tr' v = true.
Proof. unfold holds_lock. intros He. by destruct (section_extends tr tr' He) as [-> _]. Qed.

Lemma proved_mono p tr tr' : extends tr tr' -> proved p tr = true -> proved p tr' = true.
Proof.
  unfold proved. intros He. destruct (section_extends tr tr' He) as [_ [n ->]]. rewrite existsb_app. intros ->. by rewrite orb_true_r.
Qed.

Lemma proved_now p e tr : is_lock e = false -> p e = true -> proved p (e :: tr) = true.
Proof. unfold proved. intros He Hp. destruct (section_cons e tr He) as [_ ->]. simpl. by rewrite Hp. Qed.

Lemma proved_impl (p q : happened -> bool) tr : (forall e, p e = true -> q e = true) -> proved p tr = true -> proved q tr = true.
Proof. unfold proved. rewrite !existsb_exists. intros Hpq (e & ? & ?). eauto. Qed.

(** Something in the section of which [P] holds. *)
Definition witnessed (P : happened -> Prop) (tr : list happened) : Prop := exists e, In e (section tr) /\ P e.

Lemma witnessed_mono P tr tr' : extends tr tr' -> witnessed P tr -> witnessed P tr'.
Proof. intros He (e & Hin & HP). destruct (section_extends tr tr' He) as [_ [n Hn]]. exists e. rewrite Hn. split; [apply in_or_app; by right | done]. Qed.

Lemma witnessed_now (P : happened -> Prop) e tr : is_lock e = false -> P e -> witnessed P (e :: tr).
Proof. intros He HP. exists e. destruct (section_cons e tr He) as [_ ->]. by split; [left |]. Qed.

Lemma proved_witness p tr : proved p tr = true <-> witnessed (fun e => p e = true) tr.
Proof. unfold proved, witnessed. by rewrite existsb_exists. Qed.

(** Move what is known to a longer history. *)
Ltac carry E :=
  cbv beta in *;
  match type of E with
  | extends ?tr ?tr' =>
      repeat match goal with
             | H : holds_lock tr _ = true |- _ => apply (holds_lock_mono tr tr' _ E) in H
             | H : proved _ tr = true |- _ => apply (proved_mono _ tr tr' E) in H
             | H : witnessed _ tr |- _ => apply (witnessed_mono _ tr tr' E) in H
             end; clear E; try clear tr
  end.

Section logic.
Context `{Sha256} `{Collation} `{UnicodeLower} (has_input : bool) (legacy_revoker : string) (state_ok : DB -> Prop).

Definition safe {A} (tr : list happened) (p : ctl A) (Q : A -> list happened -> Prop) : Prop :=
  cwp has_input legacy_revoker permitted state_ok p tr (fun r tr' => extends tr tr' /\ match r with inl _ => True | inr a => Q a tr' end).

Lemma safe_ret {A} tr (a : A) (Q : A -> list happened -> Prop) : Q a tr -> safe tr (mret a) Q.
Proof. intros HQ. split; [apply extends_refl | done]. Qed.

Lemma safe_fail {A} tr e (Q : A -> list happened -> Prop) : safe tr (cfail e) Q.
Proof. split; [apply extends_refl | done]. Qed.

Lemma safe_done {A} tr r (Q : A -> list happened -> Prop) : match r with inl _ => True | inr a => Q a tr end -> safe tr (CDone r) Q.
Proof. intros HQ. split; [apply extends_refl | done]. Qed.

Lemma safe_mono {A} tr (p : ctl A) (P Q : A -> list happened -> Prop) :
  (forall a tr', extends tr tr' -> P a tr' -> Q a tr') -> safe tr p P -> safe tr p Q.
Proof.
  intros HPQ. apply cwp_mono. intros r tr' [He Hr]. split; [done |]. destruct r; [done | by apply HPQ].
Qed.

Lemma safe_bind {A B} tr (p : ctl A) (f : A -> ctl B) (P : A -> list happened -> Prop) (Q : B -> list happened -> Prop) :
  safe tr p P -> (forall a tr', extends tr tr' -> P a tr' -> safe tr' (f a) Q) -> safe tr (p ≫= f) Q.
Proof.
  intros Hp Hf. apply cwp_bind. eapply cwp_mono; [| exact Hp]. intros [e | a] tr' [He Hr]; [done |].
  eapply cwp_mono; [| exact (Hf a tr' He Hr)]. intros r tr'' [He' Hr']. split; [by eapply extends_trans | done].
Qed.

Lemma safe_ctry {A} tr (p : ctl A) (P : A -> list happened -> Prop) (Q : ctl_error + A -> list happened -> Prop) :
  safe tr p P -> (forall a tr', extends tr tr' -> P a tr' -> Q (inr a) tr') -> (forall e tr', extends tr tr' -> Q (inl e) tr') -> safe tr (ctry p) Q.
Proof.
  intros Hp Ha Hr. apply cwp_ctry. eapply cwp_mono; [| exact Hp]. intros [e | x] tr1 [He Hp1]; split; auto.
Qed.

Lemma safe_ignore {A} tr (p : ctl A) (P : A -> list happened -> Prop) : safe tr p P -> safe tr (cignore p) (fun _ _ => True).
Proof.
  intros Hp. unfold cignore. eapply safe_bind; [by eapply (safe_ctry _ _ _ (fun _ _ => True)) |]. intros. by apply safe_ret.
Qed.

Lemma safe_ensure tr ok e (Q : unit -> list happened -> Prop) : (ok = true -> Q tt tr) -> safe tr (censure ok e) Q.
Proof. destruct ok; intros HQ; [apply safe_ret; auto | apply safe_fail]. Qed.

Lemma safe_some {A} tr (o : option A) e (Q : A -> list happened -> Prop) : (forall a, o = Some a -> Q a tr) -> safe tr (csome o e) Q.
Proof. destruct o; intros HQ; [apply safe_ret; auto | apply safe_fail]. Qed.

Lemma safe_store {B} tr (q : store_op B) (Q : B -> list happened -> Prop) :
  store_permitted tr q = true -> (forall cx s f b, state_ok s -> store_answer q cx s f = inr b -> Q b (HStore q cx s f :: tr)) -> safe tr (store_ q) Q.
Proof.
  intros Hp HQ. intros cx s f Hs. split; [done |]. split; [by apply extends_cons |].
  destruct (store_answer q cx s f) as [e | b] eqn:E; [done | by apply HQ].
Qed.

Lemma safe_guest {B} tr m (q : guest_op B) (Q : B -> list happened -> Prop) :
  holds_lock tr (vm_id m) = true -> guest_permitted tr m q = true -> (forall b ev, Q b (HGuest m q (inr b) ev :: tr)) -> safe tr (guest_ m q) Q.
Proof.
  intros Hl Hp HQ. intros r ev _. split; [by cbn; rewrite Hl, Hp |]. split; [by apply extends_cons |]. by destruct r.
Qed.

Lemma safe_pve {B} tr (q : pve_op B) (Q : B -> list happened -> Prop) :
  (forall r, permitted tr (HPve q r) = true) -> (forall b, Q b (HPve q (inr b) :: tr)) -> safe tr (pve_ q) Q.
Proof. intros Hp HQ. intros r. split; [done |]. split; [by apply extends_cons |]. by destruct r. Qed.

Lemma safe_now tr (Q : nanos -> list happened -> Prop) : (forall t, Q t (HNow t :: tr)) -> safe tr cnow Q.
Proof. intros HQ t. split; [done |]. split; [by apply extends_cons | apply HQ]. Qed.

Lemma safe_context tr (Q : option context_end -> list happened -> Prop) : (forall x, Q x (HContext x :: tr)) -> safe tr ccontext Q.
Proof. intros HQ t. split; [done |]. split; [by apply extends_cons | apply HQ]. Qed.

Lemma safe_random tr n (Q : bytes -> list happened -> Prop) : (forall r, Q r (HRandom (Some r) :: tr)) -> safe tr (crandom n) Q.
Proof. intros HQ [r |]; (split; [done |]); (split; [by apply extends_cons |]); [apply HQ | done]. Qed.

Lemma safe_finally {A} tr (body : ctl A) cleanup (P : A -> list happened -> Prop) (Q : A -> list happened -> Prop) :
  safe tr body P ->
  (forall r tr', extends tr tr' -> match r with inl _ => True | inr a => P a tr' end ->
     safe tr' (cleanup r) (fun _ _ => True) /\ forall a tr'', r = inr a -> extends tr' tr'' -> Q a tr'') ->
  safe tr (cfinally body cleanup) Q.
Proof.
  intros Hb Hc. unfold cfinally.
  eapply safe_bind; [eapply (safe_ctry _ _ _ (fun r tr' => match r with inl _ => True | inr a => P a tr' end) Hb); auto |].
  intros r tr' He Hr. destruct (Hc r tr' He Hr) as [Hs HQ].
  eapply (safe_bind _ _ _ (fun _ tr'' => True)).
  - eapply safe_ignore, Hs.
  - intros _ tr'' He' _. apply safe_done. destruct r; [done | by eapply HQ].
Qed.

(** A loop keeps what each round establishes. *)
Lemma safe_for {A} (l : list A) (body : A -> ctl unit) (P : A -> list happened -> Prop) tr :
  (forall a t t', extends t t' -> P a t -> P a t') ->
  (forall a tr', In a l -> extends tr tr' -> safe tr' (body a) (fun _ => P a)) ->
  safe tr (cfor l body) (fun _ tr' => forall a, In a l -> P a tr').
Proof.
  intros Hmono. revert tr. induction l as [| a l IH]; intros tr Hb; simpl; [by apply safe_ret |].
  eapply safe_bind; [apply Hb; [by left | apply extends_refl] |]. intros [] tr' He Ha.
  eapply safe_mono; [| apply (IH tr')].
  - intros [] t He' Hl b [<- | Hin]; [by eapply Hmono | auto].
  - intros b t Hin He'. apply Hb; [by right | by eapply extends_trans].
Qed.

Lemma safe_each {A} (l : list A) (body : A -> ctl unit) tr :
  (forall a tr', In a l -> extends tr tr' -> safe tr' (body a) (fun _ _ => True)) -> safe tr (cfor l body) (fun _ _ => True).
Proof. intros Hb. eapply safe_mono; [| apply (safe_for l body (fun _ _ => True)); auto]. auto. Qed.

(** ** Under a lock *)

(** Between sections: the task starts and ends without a lock. *)
Definition unlocked {A} (p : ctl A) : Prop :=
  forall tr, held tr = None -> cwp has_input legacy_revoker permitted state_ok p tr (fun _ tr' => held tr' = None).

Lemma unlocked_ret {A} (a : A) : unlocked (mret a).
Proof. by intros tr Hh. Qed.

Lemma unlocked_bind {A B} (p : ctl A) (f : A -> ctl B) : unlocked p -> (forall a, unlocked (f a)) -> unlocked (p ≫= f).
Proof.
  intros Hp Hf tr Hh. apply cwp_bind. eapply cwp_mono; [| exact (Hp tr Hh)]. intros [e | a] tr' Hh'; [done | by apply Hf].
Qed.

Lemma unlocked_ctry {A} (p : ctl A) : unlocked p -> unlocked (ctry p).
Proof. intros Hp tr Hh. apply cwp_ctry. eapply cwp_mono; [| exact (Hp tr Hh)]. done. Qed.

Lemma unlocked_ignore {A} (p : ctl A) : unlocked p -> unlocked (cignore p).
Proof. intros Hp. apply unlocked_bind; [by apply unlocked_ctry |]. intros. apply unlocked_ret. Qed.

Lemma unlocked_for {A} (l : list A) (body : A -> ctl unit) : (forall a, In a l -> unlocked (body a)) -> unlocked (cfor l body).
Proof.
  induction l as [| a l IH]; intros Hb; simpl; [apply unlocked_ret |]. apply unlocked_bind; [apply Hb; by left |].
  intros _. apply IH. intros b Hin. apply Hb. by right.
Qed.

(** A read between sections. *)
Lemma unlocked_safe {A} (p : ctl A) : (forall tr, safe tr p (fun _ _ => True)) -> unlocked p.
Proof.
  intros Hp tr Hh. eapply cwp_mono; [| apply Hp]. intros r tr' [He _]. by rewrite (proj1 (section_extends _ _ He)).
Qed.
(** Between sections, with what a result says. *)
Definition between {A} (p : ctl A) (Q : A -> list happened -> Prop) : Prop :=
  forall tr, held tr = None -> cwp has_input legacy_revoker permitted state_ok p tr (fun r tr' => held tr' = None /\ match r with inl _ => True | inr a => Q a tr' end).

Lemma between_safe {A} (p : ctl A) (Q : A -> Prop) : (forall tr, safe tr p (fun a _ => Q a)) -> between p (fun a _ => Q a).
Proof.
  intros Hp tr Hh. eapply cwp_mono; [| apply Hp]. intros r tr' [He Hr]. rewrite (proj1 (section_extends _ _ He)). by split.
Qed.

Lemma between_bind {A B} (p : ctl A) (f : A -> ctl B) (P : A -> Prop) (Q : B -> list happened -> Prop) :
  between p (fun a _ => P a) -> (forall a, P a -> between (f a) Q) -> between (p ≫= f) Q.
Proof.
  intros Hp Hf tr Hh. apply cwp_bind. eapply cwp_mono; [| exact (Hp tr Hh)]. intros [e | a] tr' [Hh' Hr]; [done | by apply Hf].
Qed.

Lemma between_mono {A} (p : ctl A) (P Q : A -> list happened -> Prop) : (forall a tr, P a tr -> Q a tr) -> between p P -> between p Q.
Proof. intros HPQ Hp tr Hh. eapply cwp_mono; [| exact (Hp tr Hh)]. intros [e | a] tr' [Hh' Hr]; auto. Qed.

Lemma between_try {A} (p : ctl A) (Q : A -> list happened -> Prop) : between p Q ->
  between (ctry p) (fun r tr => match r with inl _ => True | inr a => Q a tr end).
Proof. intros Hp tr Hh. apply cwp_ctry. eapply cwp_mono; [| exact (Hp tr Hh)]. by intros [e | a] tr' [Hh' Hr]. Qed.

(** The last section is over; what is left stays outside of any. *)
Lemma between_then {A B} (p : ctl A) (f : A -> ctl B) (P : A -> list happened -> Prop) (Q : B -> list happened -> Prop) :
  between p P -> (forall a tr, P a tr -> safe tr (f a) Q) -> between (p ≫= f) Q.
Proof.
  intros Hp Hf tr Hh. apply cwp_bind. eapply cwp_mono; [| exact (Hp tr Hh)]. intros [e | a] tr' [Hh' Hr]; [done |].
  eapply cwp_mono; [| exact (Hf a tr' Hr)]. intros r tr'' [He Hq]. rewrite (proj1 (section_extends _ _ He)). by split.
Qed.

(** Whatever takes the lock, and a body that keeps to its section. *)
Lemma between_lock {A} vmid (acquire : ctl unit) (p : ctl A) (Q : A -> list happened -> Prop) :
  (forall tr R, held tr = None -> (forall e tr', held tr' = None -> R (inl e) tr') ->
     (0 < vmid -> R (inr tt) (HLock vmid true :: tr)) -> cwp has_input legacy_revoker permitted state_ok acquire tr R) ->
  (forall tr, 0 < vmid -> holds_lock tr vmid = true -> safe tr p Q) ->
  between (acquire;; r ← ctry p; CUnlock vmid (CDone r)) (fun a tr => exists tr', tr = HUnlock vmid :: tr' /\ Q a tr').
Proof.
  intros Ha Hp tr Hh. apply cwp_bind, Ha; [done | done |]. intros Hpos.
  assert (holds_lock (HLock vmid true :: tr) vmid = true) as Hl by (unfold holds_lock; cbn; by rewrite bool_decide_true).
  apply cwp_bind, cwp_ctry. eapply cwp_mono; [| exact (Hp _ Hpos Hl)]. intros r tr' [He Hr]. cbn. rewrite (holds_lock_mono _ _ _ He Hl).
  split; [done |]. split; [done |]. destruct r; [done |]. by exists tr'.
Qed.

Lemma acquire_cwp vmid tr (R : ctl_error + unit -> list happened -> Prop) : held tr = None -> (forall e tr', held tr' = None -> R (inl e) tr') ->
  (0 < vmid -> R (inr tt) (HLock vmid true :: tr)) -> cwp has_input legacy_revoker permitted state_ok (AcquireDesktopControlLock vmid) tr R.
Proof.
  intros Hh He Ha. unfold AcquireDesktopControlLock. destruct (Z.leb_spec vmid 0) as [_ | Hpos]; [by apply He |].
  intros ok. split; [by cbn; rewrite Hh |]. destruct ok; [by apply Ha | by apply He].
Qed.

Lemma unlocked_lock {A} vmid (p : ctl A) :
  (forall tr, 0 < vmid -> holds_lock tr vmid = true -> safe tr p (fun _ _ => True)) -> unlocked (WithDesktopConnectionLock vmid p).
Proof.
  intros Hp tr Hh. eapply cwp_mono; [| exact (between_lock vmid _ p (fun _ _ => True) (acquire_cwp vmid) Hp tr Hh)]. by intros r tr' [].
Qed.

(** A transaction between sections: what its answer says is known afterwards. *)
Lemma unlocked_read {B A} (q : store_op B) (k : ctl_error + B -> ctl A) :
  (forall tr, store_permitted tr q = true) -> (forall e, unlocked (k (inl e))) ->
  (forall cx s f b, state_ok s -> store_answer q cx s f = inr b -> unlocked (k (inr b))) -> unlocked (ctry (store_ q) ≫= k).
Proof.
  intros Hq He Hb tr Hh cx s f Hs. split; [apply Hq |]. destruct (store_answer q cx s f) as [e | b] eqn:E.
  - by apply He.
  - by apply (Hb cx s f b).
Qed.

(** A wait between sections. *)
Lemma unlocked_timer {A} d (k : option context_end -> ctl A) : (forall x, unlocked (k x)) -> unlocked (CTimer d k).
Proof. intros Hk tr Hh x. split; [done |]. by apply Hk. Qed.

Lemma unlocked_fail {A} e : unlocked (@cfail A e).
Proof. by intros tr Hh. Qed.

(** A read between sections, after which the task may or may not lock. *)
Lemma unlocked_after {A B} (p : ctl A) (f : A -> ctl B) (P : A -> list happened -> Prop) : (forall tr, safe tr p P) ->
  (forall a tr, P a tr -> unlocked (f a) \/ safe tr (f a) (fun _ _ => True)) -> unlocked (p ≫= f).
Proof.
  intros Hp Hf tr Hh. apply cwp_bind. eapply cwp_mono; [| apply Hp]. intros [e | a] t [E Ha]; pose proof (proj1 (section_extends _ _ E)) as Hh'; rewrite Hh in Hh'; [done |].
  destruct (Hf a t Ha) as [Hu | Hs]; [by apply Hu |]. eapply cwp_mono; [| exact Hs]. intros r t' [E' _]. by rewrite (proj1 (section_extends _ _ E')).
Qed.
End logic.

#[global] Opaque safe unlocked between.
