(* ===== verification/ControllerNativeProofs.v ===== *)
(** * The tasks on credentials of people follow the rules *)
From stdpp Require Import base strings list.
From Stdlib Require Import ZArith Lia Ascii.
From S2P Require Import Prelude GoStrings Auth Db Json Triggers StoreAccess StoreConn StoreLease StoreAgent StoreNative StoreGateway StoreAudit Computer Guest GuestAccount GuestSession ComputerWire GuestTransport Pve Controller ControllerScripts ControllerNative ControllerAgent ControllerRules ControllerFacts ControllerLogic.

Local Open Scope string_scope.
Local Open Scope list_scope.
Local Open Scope Z_scope.

Section native_proofs.
Context `{Sha256} `{Collation} `{UnicodeLower} (has_input : bool) (legacy_revoker : string) (state_ok : DB -> Prop) (has_computer : bool).
Notation safe := (safe has_input legacy_revoker state_ok).
Notation unlocked := (unlocked has_input legacy_revoker state_ok).

(** The store named this account in this section. *)
Notation named a := (witnessed (fun e => In a (reported e))).

Lemma named_intended m a op tr : op <> "issue" -> a_desktop_vmid a = vm_id m -> op_text (a_operation a) = op -> named a tr ->
  intended m (nativeCredential a) op tr = true.
Proof.
  intros Hop Hv <- (e & Hin & Ha). unfold intended. rewrite bool_decide_false by done.
  apply proved_witness. exists e. split; [done |]. apply existsb_exists. exists a. split; [done |].
  rewrite Hv, Z.eqb_refl, !bool_decide_true; done.
Qed.

Lemma safe_account tr vmid user :
  safe tr (store_ (OpNativeAccount vmid user)) (fun a tr' => a_desktop_vmid a = vmid /\ a_user_id a = user /\ named a tr').
Proof.
  apply safe_store; [done |]. intros cx s f a _ Ha. destruct (native_account_key _ _ _ _ _ _ Ha) as [? ?]. split_and!; [done.. |].
  apply witnessed_now; [done |]. cbn. rewrite Ha. by left.
Qed.

Lemma safe_accounts tr vmid :
  safe tr (store_ (OpNativeAccountsForDesktop vmid)) (fun l tr' => forall a, In a l -> a_desktop_vmid a = vmid /\ named a tr').
Proof.
  apply safe_store; [done |]. intros cx s f l _ Hl a Hin. split; [by eapply native_accounts_desktop |].
  apply witnessed_now; [done |]. cbn. by rewrite Hl.
Qed.

Lemma safe_desktop tr vmid : safe tr (store_ (OpDesktop vmid)) (fun d _ => VMID d = vmid).
Proof. apply safe_store; [done |]. intros cx s f d _ Hd. by eapply desktop_key. Qed.

(** A cleanup answers with the account at its new revision. *)
Lemma safe_revoke tr a :
  safe tr (store_ (OpRevokeNative a)) (fun b tr' => same_account_row a b /\ a_operation b = NRevoke /\ named b tr').
Proof.
  apply safe_store; [done |]. intros cx s f b _ Hb. destruct (revoke_answer _ _ _ _ _ Hb) as (? & ? & _). split_and!; [done.. |].
  apply witnessed_now; [done |]. cbn. rewrite Hb. by left.
Qed.

Lemma safe_retire tr a :
  safe tr (store_ (OpRetireNative a)) (fun b tr' => same_account_row a b /\ a_operation b = NRetire /\ named b tr').
Proof.
  apply safe_store; [done |]. intros cx s f b _ Hb. destruct (retire_answer _ _ _ _ _ Hb) as (? & ? & _). split_and!; [done.. |].
  apply witnessed_now; [done |]. cbn. rewrite Hb. by left.
Qed.

Lemma changed_now m a op pw u ev tr : a_desktop_vmid a = vm_id m -> op = op_text (a_operation a) ->
  proved (changed a) (HGuest m (GChangeNative (nativeCredential a) op pw) (inr u) ev :: tr) = true.
Proof. intros Hv ->. apply proved_now; [done |]. cbn. by rewrite Hv, Z.eqb_refl, !bool_decide_true. Qed.

(** A change of a credential that the store named. *)
Lemma safe_change tr m a op : holds_lock tr (vm_id m) = true -> op <> "issue" -> a_desktop_vmid a = vm_id m -> op_text (a_operation a) = op -> named a tr ->
  safe tr (guest_ m (GChangeNative (nativeCredential a) op ""))
    (fun _ tr' => proved (changed a) tr' = true /\ (op = "revoke" -> proved (account_ended (vm_id m) (a_guest_username a)) tr' = true)).
Proof.
  intros Hl Hop Hv Ho Hn. apply safe_guest; [done | by apply named_intended |]. intros [] ev. split; [by apply changed_now |].
  intros ->. apply proved_now; [done |]. unfold account_ended. cbn. by rewrite Z.eqb_refl, bool_decide_true.
Qed.

Lemma safe_complete tr a : holds_lock tr (a_desktop_vmid a) = true -> proved (changed a) tr = true ->
  safe tr (store_ (OpCompleteNative a)) (fun _ _ => True).
Proof. intros Hl Hc. apply safe_store; [by cbn; rewrite Hl, Hc | done]. Qed.

(** An inspection of this section saw [o]. *)
Notation saw m o := (witnessed (fun e => exists u ev, e = HGuest m (GInspectNative u) (inr o) ev)).

Lemma saw_proved (p : happened -> bool) m o tr : saw m o tr -> (forall u ev, p (HGuest m (GInspectNative u) (inr o) ev) = true) -> proved p tr = true.
Proof. intros (e & Hin & u & ev & ->) Hp. apply proved_witness. by exists (HGuest m (GInspectNative u) (inr o) ev). Qed.

Lemma safe_inspect tr m u : holds_lock tr (vm_id m) = true -> safe tr (guest_ m (GInspectNative u)) (fun o tr' => saw m o tr').
Proof. intros Hl. apply safe_guest; [done.. |]. intros o ev. apply witnessed_now; [done |]. by exists u, ev. Qed.

Lemma safe_inspect_or tr m u : holds_lock tr (vm_id m) = true -> safe tr (inspect_or_unavailable m u) (fun o tr' => saw m o tr').
Proof.
  intros Hl. unfold inspect_or_unavailable.
  eapply (safe_bind _ _ _ _ _ _ (fun r tr' => match r with inl _ => True | inr o => saw m o tr' end)).
  - by eapply safe_ctry; [apply safe_inspect | auto | auto].
  - intros [e | o] tr' He Hr; [apply safe_fail | by apply safe_ret].
Qed.

(** A check that leaves the history alone. *)
Lemma safe_guard {B} tr ok e (k : unit -> ctl B) (Q : B -> list happened -> Prop) : (ok = true -> safe tr (k tt) Q) -> safe tr (censure ok e ≫= k) Q.
Proof. destruct ok; intros Hk; [by apply Hk | apply safe_fail]. Qed.

(** Revoking an account ends it, whatever its state was. *)
Lemma revokeNativeGuestAccount_safe tr m a : holds_lock tr (vm_id m) = true -> a_desktop_vmid a = vm_id m -> named a tr ->
  safe tr (revokeNativeGuestAccount has_computer m a) (fun _ tr' => proved (account_ended (vm_id m) (a_guest_username a)) tr' = true).
Proof.
  intros Hl Hv Hn. unfold revokeNativeGuestAccount, nativeLifecycle. apply safe_guard. intros _.
  destruct (bool_decide (a_state a = NIdle)).
  - eapply safe_bind; [by apply safe_inspect_or |]. intros o t E Ho. carry E. apply safe_ensure. intros Hok. b2p. destruct Hok as [[Hi Hlc] Hc].
    apply (saw_proved _ _ _ _ Ho). intros u ev. unfold account_ended. cbn. by rewrite Z.eqb_refl, Hi, Hlc, Hc, !bool_decide_true.
  - eapply (safe_bind _ _ _ _ _ _ (fun b tr' => same_account_row a b /\ a_operation b = NRevoke /\ named b tr')).
    { destruct (bool_decide (a_operation a = NRevoke)) eqn:Ho; cbn [negb]; [| apply safe_revoke].
      apply safe_ret. b2p. split_and!; done. }
    intros b t E ((Hbv & _ & Hbu & _) & Hop & Hb). carry E.
    eapply safe_bind; [apply (safe_change _ _ _ "revoke"); try done; [congruence | by rewrite Hop] |].
    intros [] t' E [Hc He]. carry E. rewrite Hbu in He. specialize (He eq_refl).
    destruct (bool_decide (a_state b = NPending)); [| by apply safe_ret].
    eapply safe_mono; [| apply safe_complete; [congruence | done]]. intros [] t'' E _. by eapply proved_mono.
Qed.

(** An observation of the retired credential, still retained. *)
Lemma safe_retained tr o a : safe tr (retired_and_retained o a) (fun ok _ => ok = true -> native_matches o (nativeCredential a) "retired" = true).
Proof.
  unfold retired_and_retained. destruct (native_matches o (nativeCredential a) "retired"); [| by apply safe_ret].
  eapply safe_bind; [by apply (safe_now _ _ _ _ (fun _ _ => True)) |]. intros now tr' _ _. by apply safe_ret.
Qed.

Lemma saw_retired m o a tr : a_desktop_vmid a = vm_id m -> native_matches o (nativeCredential a) "retired" = true -> saw m o tr -> proved (seen_retired a) tr = true.
Proof. intros Hv Hm Ho. apply (saw_proved _ _ _ _ Ho). intros u ev. cbn. by rewrite Hv, Z.eqb_refl, Hm. Qed.

Lemma safe_settle tr m o a : holds_lock tr (vm_id m) = true -> a_desktop_vmid a = vm_id m -> a_operation a = NRetire ->
  native_matches o (nativeCredential a) "retired" = true -> saw m o tr -> safe tr (store_ (OpCompleteNative a)) (fun _ _ => True).
Proof.
  intros Hl Hv Ho Hm Hs. apply safe_store; [| done]. cbn. rewrite Hv, Hl, (saw_retired m o a tr Hv Hm Hs), Ho. by rewrite orb_true_r.
Qed.

Lemma safe_unusable tr a : safe tr (unusable a) (fun _ _ => True).
Proof.
  unfold unusable. destruct (a_expires_at a) as [x |]; [| by apply safe_ret].
  eapply safe_bind; [by apply (safe_now _ _ _ _ (fun _ _ => True)) |]. intros now tr' _ _. by apply safe_ret.
Qed.

Lemma revoke_only tr m a : holds_lock tr (vm_id m) = true -> a_desktop_vmid a = vm_id m -> named a tr ->
  safe tr (revokeNativeGuestAccount has_computer m a) (fun _ _ => True).
Proof. intros. eapply safe_mono; [| by apply revokeNativeGuestAccount_safe]. done. Qed.

(** A connection of this section, as the store reported it. *)
Notation known c := (witnessed (fun e => In c (reported_connections e))).

Lemma safe_close tr c st : holds_lock tr (c_desktop_vmid c) = true -> known c tr -> proved (credential_cut c) tr = true ->
  safe tr (store_ (OpCloseConnection (c_id c) st)) (fun _ _ => True).
Proof.
  intros Hl (e & Hin & Hc) Hp. apply safe_store; [| done]. cbn. apply proved_witness. exists e. split; [done |].
  apply existsb_exists. exists c. split; [done |]. by rewrite bool_decide_true, Hl, Hp.
Qed.

Lemma retireNativeGuestConnection_safe tr m a c terminate : holds_lock tr (vm_id m) = true -> a_desktop_vmid a = vm_id m -> named a tr -> known c tr ->
  safe tr (retireNativeGuestConnection has_computer m a c terminate) (fun _ _ => True).
Proof.
  intros Hl Hv Hn Hk. unfold retireNativeGuestConnection, nativeLifecycle. apply safe_guard. intros Hsame. b2p.
  destruct Hsame as (((Hid & Hu) & _) & Hvm). apply safe_guard. intros _.
  eapply (safe_bind _ _ _ _ _ _ (fun _ _ => True)); [by destruct (terminate || _); [apply safe_ret | apply safe_unusable] |].
  intros revoke t E _. carry E. destruct revoke; [by apply revoke_only |].
  destruct (bool_decide (a_operation a = NIssue) && bool_decide (a_state a = NApplied)).
  - eapply safe_bind; [apply safe_retire |]. intros b t' E ((Hbv & _ & Hbu & _) & Hop & Hb). carry E.
    eapply safe_bind; [apply (safe_change _ _ _ "retire"); try done; [congruence | by rewrite Hop] |].
    intros [] t'' E [Hc _]. carry E. apply safe_complete; [congruence | done].
  - destruct (bool_decide (a_operation a = NRetire)) eqn:Ho; [| by apply revoke_only]. b2p.
    eapply safe_bind; [by apply safe_inspect |]. intros o t' E Hs. carry E.
    eapply safe_bind; [apply safe_retained |]. intros ok t'' E Hok. carry E. destruct ok; [| by apply revoke_only].
    specialize (Hok eq_refl). destruct (bool_decide (a_state a = NPending)); [by apply (safe_settle _ m o) |].
    apply safe_close; [congruence | done |]. apply (saw_proved _ _ _ _ Hs). intros u ev. unfold credential_cut. cbn.
    unfold native_matches in Hok. b2p. destruct Hok as [Hi Hlc]. rewrite Hlc, Hi. cbn.
    left. right. split; [congruence | by rewrite !bool_decide_true].
Qed.

(** ** Recovery *)
Lemma safe_any_store {B} tr (q : store_op B) : store_permitted tr q = true -> safe tr (store_ q) (fun _ _ => True).
Proof. intros Hq. by apply safe_store. Qed.

Lemma safe_any_now tr : safe tr cnow (fun _ _ => True).
Proof. by apply safe_now. Qed.

(** What a task learns without touching anything. *)
Lemma safe_due tr a : safe tr (recovery_due a) (fun _ _ => True).
Proof.
  unfold recovery_due. eapply (safe_bind _ _ _ _ _ _ (fun _ _ => True)).
  { destruct (bool_decide _); [by apply safe_ret |]. destruct (a_expires_at a) as [x |]; [| by apply safe_ret].
    eapply safe_bind; [apply safe_any_now |]. intros now t _ _. by apply safe_ret. }
  intros due t _ _. destruct due; [by apply safe_ret |]. destruct (_ && _); [| by apply safe_ret].
  eapply (safe_bind _ _ _ _ _ _ (fun _ _ => True)); [by eapply safe_ctry; [by apply safe_any_store | |] |].
  intros [[[] | | | | | | | |] | c] t' _ _; first [apply safe_fail | by apply safe_ret].
Qed.

Lemma safe_pending_retirement tr a : safe tr (pending_retirement a) (fun ok _ => ok = true -> a_operation a = NRetire).
Proof.
  unfold pending_retirement. destruct (bool_decide (a_state a = NPending) && bool_decide (a_operation a = NRetire)) eqn:Ho; [| by apply safe_ret].
  b2p. destruct Ho as [_ Ho]. destruct (a_expires_at a) as [x |]; [| by apply safe_ret].
  eapply safe_bind; [apply safe_any_now |]. intros now t _ _. by apply safe_ret.
Qed.

Lemma recover_account_safe tr m a : holds_lock tr (vm_id m) = true -> a_desktop_vmid a = vm_id m -> named a tr ->
  safe tr (recover_account has_computer m a) (fun _ _ => True).
Proof.
  intros Hl Hv Hn. unfold recover_account. eapply safe_bind; [apply safe_due |]. intros due t E _. carry E.
  destruct due; [| by apply safe_ret]. cbn [negb].
  eapply safe_bind; [apply safe_pending_retirement |]. intros retiring t' E Hret. carry E.
  eapply (safe_bind _ _ _ _ _ _ (fun ok tr' => ok = true -> exists o, saw m o tr' /\ a_operation a = NRetire /\ native_matches o (nativeCredential a) "retired" = true)).
  { destruct retiring; [| by apply safe_ret]. unfold nativeLifecycle. apply safe_guard. intros _.
    eapply safe_bind; [by apply safe_inspect |]. intros o t'' E Hs. carry E.
    eapply safe_mono; [| apply safe_retained]. intros ok t3 E Hok ->. carry E. exists o. auto. }
  intros settled t'' E Hset. carry E. destruct settled; [| by apply revoke_only].
  destruct (Hset eq_refl) as (o & Hs & Ho & Hm). by apply (safe_settle _ m o).
Qed.

Lemma recoverNativeAccountsForDesktop_safe tr vmid : holds_lock tr vmid = true ->
  safe tr (recoverNativeAccountsForDesktop has_computer vmid) (fun _ _ => True).
Proof.
  intros Hl. unfold recoverNativeAccountsForDesktop. eapply safe_bind; [apply safe_accounts |]. intros l t E Hn. cbv beta in Hn. carry E.
  destruct l as [| a0 l0] eqn:El; [by apply safe_ret |]. rewrite <- El in *. clear El a0 l0.
  eapply safe_bind; [apply safe_desktop |]. intros d t' E _. apply safe_each. intros a t'' Hin E'.
  destruct (Hn a Hin) as [Hv Ha]. carry E. carry E'. by apply recover_account_safe.
Qed.

(** ** The queue of revocations *)
Lemma safe_exec tr m cmd : holds_lock tr (vm_id m) = true ->
  safe tr (exec_guest m cmd) (fun _ tr' => exists result ev, ExitCode result = 0 /\ In (HGuest m (GExec cmd) (inr (inr result)) ev) (section tr')).
Proof.
  intros Hl. unfold exec_guest.
  eapply (safe_bind _ _ _ _ _ _ (fun r tr' => exists ev, In (HGuest m (GExec cmd) (inr r) ev) (section tr'))).
  - apply safe_guest; [done.. |]. intros r ev. exists ev. by left.
  - intros [f | result] t _ [ev Hin]; [apply safe_fail |]. apply safe_ensure. intros Hz. apply Z.eqb_eq in Hz. by exists result, ev.
Qed.

Lemma terminate_family os username cmd : terminateGuestSessionCommand os username = Some cmd -> os = "linux" \/ os = "windows".
Proof.
  unfold terminateGuestSessionCommand. destruct (negb _); [done |]. destruct (bool_decide (os = "linux")) eqn:E1; [b2p; by left |].
  destruct (bool_decide (os = "windows")) eqn:E2; [b2p; by right | done].
Qed.

Lemma revokeGuestAccount_safe tr d username : holds_lock tr (VMID d) = true ->
  safe tr (revokeGuestAccount d username) (fun _ tr' => proved (terminated (VMID d) username) tr' = true).
Proof.
  intros Hl. unfold revokeGuestAccount. eapply safe_bind; [by apply (safe_some _ _ _ _ _ _ (fun cmd t => t = tr /\ terminateGuestSessionCommand (OSFamily d) username = Some cmd)) |].
  intros cmd t E [-> Hc]. clear E. eapply safe_mono; [| apply safe_exec; exact Hl].
  intros [] t' E (result & ev & Hz & Hin). apply proved_witness. eexists. split; [exact Hin |]. cbn. rewrite Z.eqb_refl, Hz. cbn. rewrite andb_true_r.
  unfold is_terminate. destruct (terminate_family _ _ _ Hc) as [Ho | Ho]; rewrite Ho in Hc; rewrite Hc, (bool_decide_true (Some cmd = Some cmd)) by done;
    [done | by rewrite orb_true_r].
Qed.

Lemma terminated_ends vmid username tr : proved (terminated vmid username) tr = true -> proved (account_ended vmid username) tr = true.
Proof. apply proved_impl. intros e He. unfold account_ended. by rewrite He, orb_true_r. Qed.

Lemma revoke_item_safe tr vmid d item : holds_lock tr vmid = true -> VMID d = vmid -> RevVMID item = vmid ->
  safe tr (revoke_item has_computer vmid d item) (fun _ _ => True).
Proof.
  intros Hl Hd Hi. unfold revoke_item.
  eapply (safe_bind _ _ _ _ _ _ (fun r tr' => match r with inl _ => True | inr a => a_desktop_vmid a = vmid /\ named a tr' end)).
  { eapply safe_ctry; [apply safe_account | |]; [| done]. intros a t E (? & _ & ?). done. }
  intros account t E Ha. carry E.
  eapply (safe_bind _ _ _ _ _ _ (fun _ t' => t' = t /\ match account with inr a => a_guest_username a = RevGuestUsername item | inl _ => True end)).
  { destruct account as [e | a]; [by apply safe_ret |]. apply safe_ensure. intros Hu. by b2p. }
  intros [] t' E [-> Hu]. clear E.
  eapply (safe_bind _ _ _ _ _ _ (fun r tr' => match r with inl _ => True | inr _ => proved (account_ended vmid (RevGuestUsername item)) tr' = true end)).
  { eapply (safe_ctry _ _ _ _ _ (fun _ tr' => proved (account_ended vmid (RevGuestUsername item)) tr' = true)); [| done | done].
    destruct account as [[[] | | | | | | | |] | a]; try apply safe_fail.
    - eapply safe_mono; [| apply revokeGuestAccount_safe; by rewrite Hd]. intros [] t' _ Ht. rewrite Hd in Ht. by apply terminated_ends.
    - destruct Ha as [Hv Hn]. rewrite <- Hu. by apply (revokeNativeGuestAccount_safe t (machine_at vmid (Node d)) a). }
  intros r t' E Hr. carry E. destruct r as [e | []].
  - eapply safe_bind; [by eapply safe_ignore, safe_any_store |]. intros. apply safe_fail.
  - apply safe_any_store. cbn. by rewrite Hi, Hl, Hr.
Qed.

Lemma revokeGuestIdentitiesForDesktop_safe tr vmid : 0 < vmid -> holds_lock tr vmid = true ->
  safe tr (revokeGuestIdentitiesForDesktop has_computer vmid) (fun _ _ => True).
Proof.
  intros Hpos Hl. unfold revokeGuestIdentitiesForDesktop. eapply safe_bind; [by apply safe_any_store |]. intros [] t E _. carry E.
  eapply (safe_bind _ _ _ _ _ _ (fun l _ => forall item, In item l -> RevVMID item = vmid)).
  { apply safe_store; [done |]. intros cx s f l _ El item. by eapply revocations_desktop. }
  intros l t' E Hin. carry E. destruct l as [| i0 l0] eqn:El; [by apply safe_ret |]. rewrite <- El in *. clear El i0 l0.
  eapply safe_bind; [apply safe_desktop |]. intros d t'' E Hd. carry E. apply safe_each. intros item t3 Hi E. carry E.
  apply revoke_item_safe; auto.
Qed.

(** ** Issue *)
Lemma reserved_intended m b tr : a_desktop_vmid b = vm_id m -> a_operation b = NIssue -> witnessed (fun e => In b (reserved e)) tr ->
  intended m (nativeCredential b) "issue" tr = true.
Proof.
  intros Hv Ho (e & Hin & Hb). unfold intended. rewrite bool_decide_true by done. apply proved_witness. exists e. split; [done |].
  apply existsb_exists. exists b. split; [done |]. by rewrite Hv, Z.eqb_refl, Ho, !bool_decide_true.
Qed.

Lemma issue_cleanup_safe tr a : safe tr (issue_cleanup a) (fun _ _ => True).
Proof.
  unfold issue_cleanup. eapply safe_bind; [by apply safe_any_store |]. intros c t E _. destruct (_ && _); [| by apply safe_ret].
  eapply safe_bind; [by apply safe_any_store |]. intros. by apply safe_ret.
Qed.

Lemma issue_complete_safe tr a digest gateway : holds_lock tr (a_desktop_vmid a) = true -> proved (changed a) tr = true -> a_operation a = NIssue ->
  safe tr (issue_complete a digest gateway) (fun _ _ => True).
Proof.
  intros Hl Hc Ho. unfold issue_complete. destruct gateway as [r |].
  - eapply (safe_bind _ _ _ _ _ _ (fun _ _ => True)).
    + eapply (safe_ctry _ _ _ _ _ (fun _ _ => True)); [| done..]. apply safe_any_store. cbn. by rewrite Hl, Hc, Ho.
    + intros [e | [c x]] t _ _; [apply safe_fail | by apply safe_ret].
  - eapply safe_bind; [apply safe_any_store; cbn; by rewrite Hl, Hc, Ho |]. intros c t _ _. by apply safe_ret.
Qed.

(** The password of the result was written by this event, after [tr]. *)
Definition password_written (m : VM) (password : bytes) (tr tr' : list happened) : Prop :=
  exists b after ev before, tr' = after ++ HGuest m (GChangeNative (nativeCredential b) "issue" password) (inr tt) ev :: before /\ extends tr before.

Lemma password_written_later m password tr t t' : extends t t' -> password_written m password tr t -> password_written m password tr t'.
Proof. intros (new & -> & _) (b & after & ev & before & -> & He). exists b, (new ++ after), ev, before. by rewrite <- app_assoc. Qed.

(** Keep the distance to where the task began. *)
Ltac onward Ho E := let Hn := fresh in pose proof (extends_trans _ _ _ Ho E) as Hn; clear Ho; rename Hn into Ho; carry E.

Lemma issueNativeGuestConnection_safe tr0 tr m a digest gateway : extends tr0 tr -> holds_lock tr (vm_id m) = true -> a_desktop_vmid a = vm_id m ->
  safe tr (issueNativeGuestConnection has_computer m a digest gateway) (fun i tr' => password_written m (is_password i) tr0 tr').
Proof.
  intros Ho Hl Hv. unfold issueNativeGuestConnection, nativeLifecycle. apply safe_guard. intros _.
  eapply safe_bind; [by apply (safe_random _ _ _ _ _ (fun _ _ => True)) |]. intros id t E _. onward Ho E.
  eapply safe_bind; [by apply (safe_random _ _ _ _ _ (fun _ _ => True)) |]. intros secret t' E _. onward Ho E.
  eapply safe_bind; [apply safe_any_now |]. intros now t E _. onward Ho E.
  eapply (safe_bind _ _ _ _ _ _ (fun b tr' => a_desktop_vmid b = vm_id m /\ a_operation b = NIssue /\ witnessed (fun e => In b (reserved e)) tr')).
  { apply safe_store; [done |]. intros cx s f b _ Hb. destruct (begin_answer _ _ _ _ _ _ _ _ Hb) as ((? & _) & ? & _).
    split_and!; [congruence | done |]. apply witnessed_now; [done |]. cbn. rewrite Hb. by left. }
  intros b t' E (Hbv & Hop & Hr). onward Ho E. set (password := "Vcw1!" +:+ OpaqueToken secret).
  eapply (safe_finally _ _ _ _ _ _ (fun i tr' => password_written m (is_password i) tr0 tr')).
  - eapply (safe_bind _ _ _ _ _ _ (fun _ tr' => proved (changed b) tr' = true /\ password_written m password tr0 tr')).
    + apply safe_guest; [done | by apply reserved_intended |]. intros [] ev. split; [apply changed_now; [done | by rewrite Hop] |].
      by exists b, [], ev, t'.
    + intros [] t E [Hc Hw]. carry E. eapply safe_bind; [by apply issue_complete_safe; [congruence | |] |].
      intros r t1 E _. apply safe_ret. cbn. by eapply password_written_later.
  - intros r t E Hw. split; [destruct r; [apply issue_cleanup_safe | by apply safe_ret] |].
    intros i t1 -> E1. by eapply password_written_later.
Qed.

(** Binding an account looks at it and records its identity. *)
Lemma bindNativeGuestAccount_safe tr m user digest : holds_lock tr (vm_id m) = true ->
  safe tr (bindNativeGuestAccount has_computer m user digest) (fun a _ => a_desktop_vmid a = vm_id m).
Proof.
  intros Hl. unfold bindNativeGuestAccount, nativeLifecycle. apply safe_guard. intros _.
  eapply safe_bind; [by apply safe_inspect_or |]. intros o t E Ho. carry E. apply safe_guard. intros _.
  eapply (safe_bind _ _ _ _ _ _ (fun a _ => a_desktop_vmid a = vm_id m)).
  { apply safe_store; [done |]. intros cx s f b _ Hb. by eapply bind_answer in Hb. }
  intros a t' E Hv. carry E. destruct (a_state a), (a_operation a); try apply safe_fail; try (apply safe_guard; intros _; by apply safe_ret).
  eapply safe_bind; [apply safe_retained |]. intros ok t E _. apply safe_guard. intros _. by apply safe_ret.
Qed.

(** ** Connections *)
Context (home : string -> Z) (Hhome : forall s, state_ok s -> homed home s).

Lemma safe_connection tr id : safe tr (store_ (OpConnection id)) (fun c tr' => c_id c = id /\ c_desktop_vmid c = home id /\ known c tr').
Proof.
  apply safe_store; [done |]. intros cx s f c Hs Hc. destruct (connection_answer home _ _ _ _ _ (Hhome s Hs) Hc) as [? ?].
  split_and!; [done.. |]. apply witnessed_now; [done |]. cbn. rewrite Hc. by left.
Qed.

Lemma revokeDesktopConnectionCredential_safe tr id : holds_lock tr (home id) = true ->
  safe tr (revokeDesktopConnectionCredential has_computer id) (fun _ _ => True).
Proof.
  intros Hl. unfold revokeDesktopConnectionCredential.
  eapply (safe_bind _ _ _ _ _ _ (fun r tr' => match r with inl _ => True | inr c => c_id c = id /\ c_desktop_vmid c = home id /\ known c tr' end)).
  { by eapply safe_ctry; [apply safe_connection | |]. }
  intros found t E Hf. carry E. destruct found as [[[] | | | | | | | |] | c]; try apply safe_fail; [by apply safe_ret |].
  destruct Hf as (<- & Hv & Hk). destruct (negb _); [by apply safe_ret |].
  eapply safe_bind; [apply safe_desktop |]. intros d t' E Hd. carry E. rewrite Hv in Hd.
  eapply safe_bind; [by apply safe_any_store |]. intros terminate t E _. carry E.
  eapply (safe_bind _ _ _ _ _ _ (fun r tr' => match r with inl _ => True | inr a => a_desktop_vmid a = c_desktop_vmid c /\ named a tr' end)).
  { eapply safe_ctry; [apply safe_account | |]; [| done]. intros a t0 _ (? & _ & ?). done. }
  intros account t0 E Ha. carry E. destruct account as [[[] | | | | | | | |] | a]; try apply safe_fail.
  - eapply (safe_bind _ _ _ _ _ _ (fun _ tr' => proved (credential_cut c) tr' = true)).
    { destruct terminate.
      - eapply safe_mono; [| apply revokeGuestAccount_safe; by rewrite Hd]. intros [] t1 _ Ht. rewrite Hd, <- Hv in Ht.
        revert Ht. apply proved_impl. intros e He. unfold credential_cut. by rewrite He.
      - eapply safe_bind; [by apply (safe_random _ _ _ _ _ (fun _ _ => True)) |]. intros token t1 E _. carry E.
        apply safe_pve; [intros r; cbn; by rewrite Hd |]. intros []. apply proved_now; [done |]. unfold credential_cut. cbn.
        by rewrite Hd, Hv, Z.eqb_refl, bool_decide_true. }
    intros [] t1 E Hc. carry E. eapply safe_bind; [apply safe_any_now |]. intros now t2 E _. carry E. apply safe_close; [by rewrite Hv | done..].
  - destruct Ha as [Ha Hn]. apply retireNativeGuestConnection_safe; [by cbn; rewrite Hd | cbn; congruence | done..].
Qed.
End native_proofs.
