(* ===== verification/ControllerAgentProofs.v ===== *)
(** * The tasks on agents follow the rules *)
From stdpp Require Import base strings list.
From Stdlib Require Import ZArith Lia Ascii.
From S2P Require Import Prelude GoStrings Auth Db Json Triggers StoreAccess StoreConn StoreLease StoreAgent StoreNative StoreGateway StoreAudit Computer Guest GuestAccount GuestSession ComputerWire GuestTransport Pve Controller ControllerScripts ControllerNative ControllerAgent ControllerRules ControllerFacts ControllerLogic ControllerNativeProofs.

Local Open Scope string_scope.
Local Open Scope list_scope.
Local Open Scope Z_scope.

Section agent_proofs.
Context `{Sha256} `{Collation} `{UnicodeLower} (has_input : bool) (legacy_revoker : string) (state_ok : DB -> Prop) (has_computer : bool) (background : bytes).
Notation safe := (safe has_input legacy_revoker state_ok).
Notation unlocked := (unlocked has_input legacy_revoker state_ok).

(** ** Authority *)
Lemma revokeAllComputerAuthority_safe tr m : holds_lock tr (vm_id m) = true ->
  safe tr (revokeAllComputerAuthority has_computer m) (fun _ tr' => has_computer = true -> proved (authority_revoked (vm_id m)) tr' = true).
Proof.
  intros Hl. unfold revokeAllComputerAuthority. destruct has_computer; [| by apply safe_ret]. cbn [negb].
  eapply (safe_bind _ _ _ _ _ _ (fun epoch tr' => proved (epoch_read (vm_id m) epoch) tr' = true)).
  { apply safe_store; [done |]. intros cx s f epoch _ Ha. apply proved_now; [done |]. cbn -[store_answer]. by rewrite Ha, !Z.eqb_refl. }
  intros epoch t E He. carry E. eapply safe_bind; [apply safe_any_now |]. intros now t' E _. carry E.
  apply safe_guest; [done | by cbn |]. intros [] ev _. apply proved_now; [done |]. cbn. by rewrite Z.eqb_refl.
Qed.

Lemma safe_settle_session tr b : holds_lock tr (s_desktop_vmid b) = true -> proved (login_over b) tr = true ->
  safe tr (store_ (OpCompleteAgentRevocation b)) (fun _ tr' => proved (session_settled b) tr' = true).
Proof.
  intros Hl Hp. apply safe_store; [by cbn; rewrite Hl, Hp |]. intros cx s f [] _ Ha. apply proved_now; [done |]. cbn.
  by rewrite Ha, bool_decide_true.
Qed.

Lemma safe_inspect_agent tr m u : holds_lock tr (vm_id m) = true ->
  safe tr (guest_ m (GInspectAgent u)) (fun o tr' => witnessed (fun e => exists ev, e = HGuest m (GInspectAgent u) (inr o) ev) tr').
Proof. intros Hl. apply safe_guest; [done.. |]. intros o ev. apply witnessed_now; [done |]. by exists ev. Qed.

Lemma revoke_agent_session_safe tr m b : holds_lock tr (vm_id m) = true -> s_desktop_vmid b = vm_id m ->
  safe tr (revoke_agent_session m b) (fun _ tr' => s_state b = GRevoking -> proved (session_settled b) tr' = true).
Proof.
  intros Hl Hv. unfold revoke_agent_session. destruct (bool_decide (s_state b = GRevoking)) eqn:Hs; cbn [negb]; [| apply safe_ret; intros; by b2p].
  eapply safe_bind; [by apply safe_inspect_agent |]. intros o t E Ho. carry E. destruct (LoIdentity o) as [i |] eqn:Hi.
  - eapply safe_bind; [by apply safe_any_store |]. intros [] t' E _. carry E. apply safe_guard. intros _.
    eapply (safe_bind _ _ _ _ _ _ (fun _ tr' => proved (login_over (with_account b i)) tr' = true)).
    + apply safe_guest; [done.. |]. intros [] ev. apply proved_now; [done |]. unfold login_over. cbn. by rewrite Hv, Z.eqb_refl, bool_decide_true.
    + intros [] t E Hp. carry E. eapply safe_mono; [| apply safe_settle_session; [cbn; by rewrite Hv | done]].
      intros [] t' _ Hd _. revert Hd. apply proved_impl. done.
  - apply safe_guard. intros Hu. b2p. destruct Hu as [[Hu1 Hu2] Hu3].
    eapply safe_mono; [| apply safe_settle_session; [by rewrite Hv |]]; [done |].
    destruct Ho as (e & Hin & ev & ->). apply proved_witness. eexists. split; [exact Hin |]. unfold login_over. cbn.
    by rewrite Hv, Z.eqb_refl, Hi, Hu1, Hu2, Hu3, !bool_decide_true.
Qed.

(** What the revocation of the sessions of a desktop leaves behind. *)
Definition all_settled (vmid : Z) (tr : list happened) : Prop :=
  exists l, witnessed (fun e => reported_sessions e = Some l) tr /\
    (l = [] \/ proved (session_authority_revoked vmid) tr = true) /\
    forall b, In b l -> s_state b = GRevoking -> proved (session_settled b) tr = true.

Lemma all_settled_mono vmid tr tr' : extends tr tr' -> all_settled vmid tr -> all_settled vmid tr'.
Proof.
  intros E (l & Hw & Ha & Hs). exists l. split_and!; [by eapply witnessed_mono | |].
  - destruct Ha; [by left | right; by eapply proved_mono].
  - intros b Hb Hr. eapply proved_mono; eauto.
Qed.

Lemma revokeAgentGuestSessions_safe tr m : 0 < vm_id m -> holds_lock tr (vm_id m) = true ->
  safe tr (revokeAgentGuestSessions has_computer m) (fun _ tr' => all_settled (vm_id m) tr').
Proof.
  intros Hpos Hl. unfold revokeAgentGuestSessions.
  eapply (safe_bind _ _ _ _ _ _ (fun l tr' => (forall b, In b l -> s_desktop_vmid b = vm_id m) /\ witnessed (fun e => reported_sessions e = Some l) tr')).
  { apply safe_store; [done |]. intros cx s f l _ El. split; [intros b; by eapply sessions_desktop |].
    apply witnessed_now; [done |]. cbn. by rewrite El. }
  intros l t E [Hv Hw]. carry E. destruct l as [| b0 l0] eqn:El; [apply safe_ret; exists []; split_and!; [done | by left | done] |].
  rewrite <- El in *. clear El b0 l0. apply safe_guard. intros _.
  eapply safe_bind; [by apply safe_any_store |]. intros epoch t' E _. carry E.
  eapply (safe_bind _ _ _ _ _ _ (fun _ tr' => proved (session_authority_revoked (vm_id m)) tr' = true)).
  { apply safe_guest; [done.. |]. intros [] ev. apply proved_now; [done |]. cbn. by rewrite Z.eqb_refl. }
  intros [] t E Ha. carry E.
  eapply safe_mono; [| apply (safe_for _ _ _ l _ (fun b tr' => s_state b = GRevoking -> proved (session_settled b) tr' = true))].
  - intros [] t' E Hs. carry E. exists l. split_and!; [done | by right | done].
  - intros b t1 t2 E Hb Hs. eapply proved_mono; eauto.
  - intros b t' Hb E. carry E. apply revoke_agent_session_safe; auto.
Qed.

Lemma settled_permitted vmid tr item : holds_lock tr vmid = true -> CRVMID item = vmid -> proved (authority_revoked vmid) tr = true -> all_settled vmid tr ->
  store_permitted tr (OpCompleteComputer item) = true.
Proof.
  intros Hl <- Ha (l & (e & Hin & He) & Hr & Hs). cbn. rewrite Hl, Ha. cbn. apply proved_witness. exists e. split; [done |].
  unfold sessions_settled. rewrite He. apply andb_true_iff. split.
  - apply forallb_forall. intros b Hb. destruct (bool_decide (s_state b = GRevoking)) eqn:Hg; [| done]. apply bool_decide_eq_true in Hg. exact (Hs b Hb Hg).
  - destruct Hr as [-> | ->]; [done |]. by rewrite orb_true_r.
Qed.

(** Nothing of an agent is left on the desktop. *)
Definition agents_gone (vmid : Z) (tr : list happened) : Prop := proved (authority_revoked vmid) tr = true /\ all_settled vmid tr.

Lemma agents_gone_mono vmid tr tr' : extends tr tr' -> agents_gone vmid tr -> agents_gone vmid tr'.
Proof. intros E [Ha Hs]. split; [by eapply proved_mono | by eapply all_settled_mono]. Qed.

Lemma synchronize_forced tr m force : 0 < vm_id m -> holds_lock tr (vm_id m) = true ->
  safe tr (synchronizeComputerRevocation has_computer m force) (fun _ tr' => force = true -> agents_gone (vm_id m) tr').
Proof.
  intros Hpos Hl. unfold synchronizeComputerRevocation. eapply safe_bind; [by apply safe_any_store |]. intros [] t E _. carry E.
  eapply (safe_bind _ _ _ _ _ _ (fun l _ => forall item, In item l -> CRVMID item = vm_id m)).
  { apply safe_store; [done |]. intros cx s f l _ El item. by eapply computer_desktop. }
  intros items t' E Hi. carry E.
  assert (safe t' (censure has_computer unavailable;; revokeAllComputerAuthority has_computer m;; revokeAgentGuestSessions has_computer m;;
            cfor items (fun item => store_ (OpCompleteComputer item))) (fun _ tr' => force = true -> agents_gone (vm_id m) tr')) as Hwork.
  { apply safe_guard. intros Hc.
    eapply safe_bind; [by apply revokeAllComputerAuthority_safe |]. intros [] t E Ha. carry E. specialize (Ha Hc).
    eapply safe_bind; [by apply revokeAgentGuestSessions_safe |]. intros [] t0 E Hs. carry E.
    eapply safe_mono; [| apply safe_each]; [intros [] t1 E _ _; by eapply agents_gone_mono; [exact E |] |].
    intros item t1 Hin E. apply safe_any_store. apply (all_settled_mono _ _ _ E) in Hs. carry E. apply (settled_permitted (vm_id m)); auto. }
  destruct items, force; try exact Hwork. by apply safe_ret.
Qed.

Lemma synchronizeComputerRevocation_safe tr m force : 0 < vm_id m -> holds_lock tr (vm_id m) = true ->
  safe tr (synchronizeComputerRevocation has_computer m force) (fun _ _ => True).
Proof. intros. eapply safe_mono; [| by apply synchronize_forced]. done. Qed.

(** ** Access policies *)
Lemma safe_names tr m os mode l : holds_lock tr (vm_id m) = true ->
  safe tr (cfor l (fun username => command ← csome (desktopAccessPolicyCommandForUser os mode username) EOther; exec_guest m command)) (fun _ _ => True).
Proof.
  intros Hl. apply safe_each. intros u t _ E. carry E.
  eapply safe_bind; [by apply (safe_some _ _ _ _ _ _ (fun _ _ => True)) |]. intros cmd t' E _. carry E.
  eapply safe_mono; [| by apply safe_exec]. done.
Qed.

Lemma applyDesktopAccessPolicy_safe tr m policy : holds_lock tr (vm_id m) = true ->
  safe tr (applyDesktopAccessPolicy background m policy) (fun _ _ => True).
Proof.
  intros Hl. unfold applyDesktopAccessPolicy, configuration_.
  eapply (safe_bind _ _ _ _ _ _ (fun _ _ => True)).
  { eapply safe_bind; [by apply (safe_guest _ _ _ _ _ _ (fun _ _ => True)) |]. intros os t E _. by apply safe_some. }
  intros os t E _. carry E.
  eapply (safe_bind _ _ _ _ _ _ (fun _ _ => True)); [destruct (ManagedBackground policy); [by apply safe_pve | by apply safe_ret] |].
  intros [] t' E _. carry E. eapply safe_bind; [by apply (safe_some _ _ _ _ _ _ (fun _ _ => True)) |]. intros cmd t E _. carry E.
  eapply safe_bind; [by apply safe_exec |]. intros [] t0 E _. carry E.
  eapply safe_bind; [by apply safe_any_store |]. intros bindings t1 E _. carry E.
  eapply safe_bind; [by apply safe_any_store |]. intros sessions t2 E _. carry E.
  eapply safe_bind; [by apply safe_names |]. intros [] t3 E _. by apply safe_any_store.
Qed.

Lemma reconcileDesktopAccessPolicy_safe tr m : holds_lock tr (vm_id m) = true ->
  safe tr (reconcileDesktopAccessPolicy background m) (fun _ _ => True).
Proof.
  intros Hl. unfold reconcileDesktopAccessPolicy. eapply safe_bind; [by apply safe_any_store |]. intros policy t E _. carry E.
  eapply (safe_bind _ _ _ _ _ _ (fun _ _ => True)); [by eapply safe_ctry; [apply applyDesktopAccessPolicy_safe | |] |].
  intros [e | applied] t' E _; [| by apply safe_ret]. eapply safe_bind; [by eapply safe_ignore, safe_any_store |]. intros. apply safe_fail.
Qed.

(** ** Preparing the session of an agent *)
Lemma safe_or_queue {A} tr b (p : ctl A) (P : A -> list happened -> Prop) : safe tr p P -> safe tr (or_queue b p) P.
Proof.
  intros Hp. unfold or_queue.
  eapply (safe_bind _ _ _ _ _ _ (fun r tr' => match r with inl _ => True | inr a => P a tr' end)); [by eapply safe_ctry; [exact Hp | auto | auto] |].
  intros [e | a] t E Hr; [| by apply safe_ret]. eapply safe_bind; [by eapply safe_ignore, safe_any_store |]. intros. apply safe_fail.
Qed.

Lemma agent_profile_safe tr d : safe tr (agent_profile d) (fun _ _ => True).
Proof.
  unfold agent_profile. eapply (safe_bind _ _ _ _ _ _ (fun _ _ => True)); [by eapply safe_ctry; [by apply safe_any_store | |] |].
  intros [e | p] t _ _; [apply safe_fail | by apply safe_ensure].
Qed.

Lemma prepare_account_safe tr m b : holds_lock tr (vm_id m) = true ->
  safe tr (prepare_account has_computer m b) (fun b' _ => s_desktop_vmid b' = s_desktop_vmid b).
Proof.
  intros Hl. unfold prepare_account. eapply safe_bind; [by apply revokeAllComputerAuthority_safe |]. intros [] t E _. carry E.
  eapply safe_bind; [by apply (safe_guest _ _ _ _ _ _ (fun _ _ => True)) |]. intros i t' E _. apply safe_guard. intros _. by apply safe_ret.
Qed.

Lemma bind_account_safe tr m policy b : holds_lock tr (vm_id m) = true -> safe tr (bind_account m policy b) (fun _ _ => True).
Proof.
  intros Hl. unfold bind_account. eapply safe_bind; [by apply safe_any_store |]. intros [] t E _. carry E.
  destruct (policy_is_current policy); [| by apply safe_ret].
  eapply safe_bind; [by apply (safe_some _ _ _ _ _ _ (fun _ _ => True)) |]. intros cmd t' E _. carry E.
  eapply (safe_bind _ _ _ _ _ _ (fun _ _ => True)); [by eapply safe_ctry; [by apply (safe_guest _ _ _ _ _ _ (fun _ _ => True)) | |] |].
  intros r t E _. by apply safe_ensure.
Qed.

(** The last observation of the account. *)
Notation looked m b o := (witnessed (fun e => exists ev, e = HGuest m (GInspectAgent (s_guest_username b)) (inr o) ev)).

Lemma looked_sealed m b o tr : s_desktop_vmid b = vm_id m -> linux_matches o (agentAccountLease b) "sealed" = true -> LoDisabled o = false -> looked m b o tr ->
  proved (sealed_login b) tr = true.
Proof.
  intros Hv Hm Hd (e & Hin & ev & ->). apply proved_witness. eexists. split; [exact Hin |]. unfold sealed_login. cbn. by rewrite Hv, Z.eqb_refl, Hm, Hd.
Qed.

Lemma observe_account_safe tr m lease policy b : holds_lock tr (vm_id m) = true ->
  safe tr (observe_account background m lease policy b) (fun o tr' => looked m b o tr').
Proof.
  intros Hl. unfold observe_account. eapply (safe_bind _ _ _ _ _ _ (fun _ _ => True)).
  { destruct (policy_is_current policy); [by apply safe_ret |]. eapply safe_bind; [by apply reconcileDesktopAccessPolicy_safe |]. intros. by apply safe_ret. }
  intros [] t E _. carry E. eapply (safe_bind _ _ _ _ _ _ (fun _ _ => True)); [by eapply safe_ctry; [by apply safe_any_store | |] |].
  intros current t' E _. carry E. apply safe_guard. intros _.
  eapply safe_bind; [by apply safe_inspect_agent |]. intros o t E Ho. carry E. apply safe_guard. intros _. by apply safe_ret.
Qed.

(** A session on the machine, from a login of [b] or found by the Guest. *)
Notation session_seen m b target := (witnessed (fun e =>
  (exists u ev, e = HGuest m (GDiscover u) (inr target) ev) \/ exists ev, e = HGuest m (GStartAgent (agentAccountLease b)) (inr target) ev)).

Lemma existing_session_safe tr m b o : holds_lock tr (vm_id m) = true -> s_desktop_vmid b = vm_id m -> looked m b o tr ->
  safe tr (existing_session m b o) (fun r tr' => match r with Some target => proved (sealed_login b) tr' = true /\ session_seen m b target tr' | None => True end).
Proof.
  intros Hl Hv Ho. unfold existing_session. destruct (s_login_generation b =? 0); [apply safe_guard; intros _; by apply safe_ret |].
  apply safe_guard. intros Hm. apply andb_true_iff in Hm as [Hm _]. apply andb_true_iff in Hm as [Hm Hd]. apply negb_true_iff in Hd.
  eapply (safe_bind _ _ _ _ _ _ (fun r tr' => match r with inr target => session_seen m b target tr' | inl _ => True end)).
  { eapply safe_ctry; [apply (safe_guest _ _ _ _ _ _ (fun target tr' => session_seen m b target tr')); [done.. |] | done | done].
    intros target ev. apply witnessed_now; [done |]. left. by eexists _, ev. }
  intros [e | target] t E Hs; carry E.
  - eapply safe_bind; [by apply (safe_guest _ _ _ _ _ _ (fun _ _ => True)) |]. intros. by apply safe_ret.
  - apply safe_ret. split; [by eapply looked_sealed | done].
Qed.

Lemma start_session_safe tr m b : holds_lock tr (vm_id m) = true -> s_desktop_vmid b = vm_id m ->
  safe tr (start_session m b) (fun target tr' => proved (sealed_login b) tr' = true /\ session_seen m b target tr').
Proof.
  intros Hl Hv. unfold start_session.
  eapply (safe_bind _ _ _ _ _ _ (fun target tr' => session_seen m b target tr')).
  { apply safe_guest; [done.. |]. intros target ev. apply witnessed_now; [done |]. right. by exists ev. }
  intros target t E Hs. carry E.
  eapply (safe_bind _ _ _ _ _ _ (fun r tr' => match r with inr o => looked m b o tr' | inl _ => True end)); [by eapply safe_ctry; [by apply safe_inspect_agent | |] |].
  intros r t' E Hr. carry E. apply safe_guard. intros Hok. apply safe_ret. split; [| done].
  destruct r as [e | o]; [done |]. apply andb_true_iff in Hok as [Hm Hd]. apply negb_true_iff in Hd. by eapply looked_sealed.
Qed.

Lemma check_target_safe tr b target : safe tr (check_target b target)
  (fun b' t => t = tr /\ s_desktop_vmid b' = s_desktop_vmid b /\ agentAccountLease b' = agentAccountLease b /\ session_target b' = target).
Proof.
  unfold check_target. apply safe_guard. intros Hs. b2p. destruct Hs as [[Hu Hi] Hd]. apply safe_guard. intros _. apply safe_ret.
  unfold agentAccountLease, session_target. cbn. rewrite <- Hu, <- Hi, <- Hd. split_and!; try done; by destruct target.
Qed.

Lemma ready_permitted tr m b b' target : holds_lock tr (vm_id m) = true -> s_desktop_vmid b' = vm_id m -> s_desktop_vmid b = vm_id m ->
  agentAccountLease b' = agentAccountLease b -> session_target b' = target -> proved (sealed_login b) tr = true -> session_seen m b target tr ->
  store_permitted tr (OpAgentReady b') = true.
Proof.
  intros Hl Hv' Hv Hlease Ht Hsealed Hseen. cbn. rewrite Hv', Hl. cbn. apply andb_true_iff. split.
  - revert Hsealed. apply proved_impl. intros e. unfold sealed_login. by rewrite Hlease, Hv, Hv'.
  - destruct Hseen as (e & Hin & He). apply proved_witness. exists e. split; [done |].
    destruct He as [(u & ev & ->) | (ev & ->)]; unfold session_found; cbn; by rewrite Hv', Z.eqb_refl, Ht, ?Hlease, ?bool_decide_true.
Qed.

Lemma activate_session_safe tr m lease b target : holds_lock tr (vm_id m) = true -> s_desktop_vmid b = vm_id m -> session_target b = target ->
  store_permitted tr (OpAgentReady b) = true ->
  safe tr (activate_session m lease b target) (fun _ tr' => proved (activated (vm_id m) target (l_id lease) (l_control_epoch lease)) tr' = true).
Proof.
  intros Hl Hv Ht Hp. unfold activate_session.
  eapply (safe_bind _ _ _ _ _ _ (fun _ tr' => proved (fun e => match e with HStore (OpAgentReady b) _ _ _ =>
      acknowledged e && (s_desktop_vmid b =? vm_id m) && bool_decide (session_target b = target) | _ => false end) tr' = true)).
  { apply safe_store; [done |]. intros cx s f [] _ Ha. apply proved_now; [done |]. cbn. by rewrite Ha, Hv, Z.eqb_refl, Ht, bool_decide_true. }
  intros [] t E Hr. carry E. apply safe_guest; [done | exact Hr |]. intros [] ev. apply proved_now; [done |]. unfold activated. cbn.
  by rewrite !Z.eqb_refl, !bool_decide_true.
Qed.

Context (lhome : string -> Z) (Hlease : forall s, state_ok s -> leased lhome s).

Lemma prepareAgentGuestSession_safe tr m lease : holds_lock tr (vm_id m) = true -> lhome (l_id lease) = vm_id m ->
  safe tr (prepareAgentGuestSession has_computer background m lease)
    (fun target tr' => proved (activated (vm_id m) target (l_id lease) (l_control_epoch lease)) tr' = true).
Proof.
  intros Hl Hm. unfold prepareAgentGuestSession. apply safe_guard. intros _.
  eapply safe_bind; [by apply safe_any_store |]. intros d t E _. carry E. apply safe_guard. intros _.
  eapply safe_bind; [apply agent_profile_safe |]. intros [] t' E _. carry E.
  eapply (safe_bind _ _ _ _ _ _ (fun b _ => s_desktop_vmid b = vm_id m)).
  { apply safe_store; [done |]. intros cx s f b Hs Hb. rewrite <- Hm. exact (begin_agent_answer lhome _ _ _ _ _ (Hlease s Hs) Hb). }
  intros b t E Hv. carry E.
  eapply safe_bind; [by apply safe_or_queue, safe_any_store |]. intros policy t0 E _. carry E.
  eapply (safe_bind _ _ _ _ _ _ (fun b _ => s_desktop_vmid b = vm_id m)).
  { destruct (bool_decide (s_state b = GReady)); [by apply safe_ret |].
    eapply safe_bind; [by apply safe_or_queue, prepare_account_safe |]. intros b' t E Hb'. carry E. rewrite Hv in Hb'.
    eapply safe_bind; [by apply safe_or_queue, bind_account_safe |]. intros. by apply safe_ret. }
  clear b Hv. intros b t1 E Hv. carry E.
  eapply safe_bind; [by apply safe_or_queue, observe_account_safe |]. intros o t2 E Ho. carry E.
  eapply safe_bind; [by apply safe_or_queue, existing_session_safe |]. intros found t3 E Hf. carry E.
  eapply (safe_bind _ _ _ _ _ _ (fun bt tr' => s_desktop_vmid (fst bt) = vm_id m /\ proved (sealed_login (fst bt)) tr' = true /\ session_seen m (fst bt) (snd bt) tr')).
  { destruct found as [target |]; [by apply safe_ret |].
    eapply (safe_bind _ _ _ _ _ _ (fun b' _ => s_desktop_vmid b' = vm_id m)).
    { apply safe_or_queue, safe_store; [done |]. intros cx s f b' _ Hb. destruct (begin_login_answer _ _ _ _ _ Hb). congruence. }
    intros b' t E Hb'. carry E. eapply safe_bind; [by apply safe_or_queue, start_session_safe |]. intros target t4 E Hs. by apply safe_ret. }
  intros [b' target] t4 E (Hb' & Hsealed & Hseen). cbn [fst snd] in *. carry E.
  eapply safe_bind; [apply safe_or_queue, check_target_safe |]. intros b2 t5 E (-> & Hv2 & Hl2 & Ht). clear E.
  eapply safe_bind; [apply safe_or_queue, activate_session_safe; [done | congruence | done | apply (ready_permitted _ m b' b2 target); by try congruence] |].
  intros [] t6 E Hact. by apply safe_ret.
Qed.
End agent_proofs.
