(* ===== verification/ControllerMaintenance.v ===== *)
(** * Background maintenance

    [RunBackgroundMaintenance] and its four tasks.  Every replica of the
    control plane runs this loop; each of its runs follows the rules, against
    any database, any Guests and any failure of either. *)
From stdpp Require Import base strings list.
From Stdlib Require Import ZArith Lia Ascii.
From S2P Require Import Prelude GoStrings GuestIdentity Auth Net Db Json Demo Triggers StoreAccess StoreLeaseProofs StoreAccessProofs StoreSession StoreConn StoreLease StoreAgent StoreNative StoreGateway StoreNativeProofs StoreAgentProofs Computer Guest GuestAccount GuestSession ComputerWire GuestTransport GuestSessionProofs GuestConfirmed StoreAudit Pve Controller ControllerScripts ControllerNative ControllerAgent ControllerRules ControllerFacts ControllerLogic ControllerNativeProofs ControllerAgentProofs.

Local Open Scope string_scope.
Local Open Scope list_scope.
Local Open Scope Z_scope.

Section maintenance.
Context `{Sha256} `{UnicodeLower} (has_computer : bool).

Definition maintenance_round : ctl unit :=
  recoverDueNativeAccounts has_computer;;
  revokeDueComputerAuthorities has_computer;;
  revokeDueGuestIdentities has_computer;;
  revokeDueDesktopConnections has_computer.

(** The first [rounds] rounds of the loop, which only its context ends. *)
Fixpoint RunBackgroundMaintenance (rounds : nat) : ctl unit :=
  match rounds with
  | O => mret tt
  | S rounds' =>
      maintenance_round;;
      CTimer (60 * second) (fun ended => match ended with Some _ => mret tt | None => RunBackgroundMaintenance rounds' end)
  end.
End maintenance.

Section maintenance_proofs.
Context `{Sha256} `{Collation} `{UnicodeLower} (has_input : bool) (legacy_revoker : string) (state_ok : DB -> Prop) (has_computer : bool).
Context (home : string -> Z) (Hhome : forall s, state_ok s -> homed home s).
Notation unlocked := (unlocked has_input legacy_revoker state_ok).

Lemma each_locked_unlocked vmids task :
  (forall vmid tr, 0 < vmid -> holds_lock tr vmid = true -> safe has_input legacy_revoker state_ok tr (task vmid) (fun _ _ => True)) -> unlocked (each_locked vmids task).
Proof. intros Ht. apply unlocked_for. intros vmid _. apply unlocked_ignore, unlocked_lock. intros. by apply Ht. Qed.

Lemma recoverDueNativeAccounts_unlocked : unlocked (recoverDueNativeAccounts has_computer).
Proof.
  apply unlocked_read; [done | intros; apply unlocked_ret |]. intros _ _ _ items _ _.
  apply each_locked_unlocked. intros. by apply recoverNativeAccountsForDesktop_safe.
Qed.

Lemma safe_queue_then {B} tr (q1 : store_op unit) (q2 : store_op B) : (forall tr, store_permitted tr q1 = true) -> (forall tr, store_permitted tr q2 = true) ->
  safe has_input legacy_revoker state_ok tr (store_ q1;; store_ q2) (fun _ _ => True).
Proof. intros Hq1 Hq2. eapply safe_bind; [by apply safe_any_store |]. intros. by apply safe_any_store. Qed.

Lemma revokeDueGuestIdentities_unlocked : unlocked (revokeDueGuestIdentities has_computer).
Proof.
  apply unlocked_bind; [apply unlocked_ctry, unlocked_safe; intros; by apply safe_queue_then |]. intros [e | items]; [apply unlocked_ret |].
  apply each_locked_unlocked. intros. by apply revokeGuestIdentitiesForDesktop_safe.
Qed.

Lemma revokeDueDesktopConnections_unlocked : unlocked (revokeDueDesktopConnections has_computer).
Proof.
  apply unlocked_read; [done | intros; apply unlocked_ret |]. intros cx s f l Hs Hl.
  apply unlocked_for. intros c Hc. apply unlocked_ignore, unlocked_lock. intros tr _ Hh.
  apply (revokeDesktopConnectionCredential_safe _ _ _ _ home Hhome). by rewrite <- (due_answer home _ _ _ _ _ _ (Hhome s Hs) Hl Hc).
Qed.

Lemma revoke_due_items_unlocked items : unlocked (revoke_due_items has_computer items).
Proof.
  induction items as [| item rest IH]; [apply unlocked_ret |]. cbn [revoke_due_items].
  apply unlocked_bind; [apply unlocked_safe; intros; by apply safe_context |]. intros [c |]; [apply unlocked_ret |].
  apply unlocked_bind; [apply unlocked_ctry, unlocked_lock |].
  - intros tr Hpos Hl. eapply safe_bind; [by apply safe_any_store |]. intros d t E _. carry E. by apply synchronizeComputerRevocation_safe.
  - intros r. apply unlocked_bind; [| done]. destruct r; [| apply unlocked_ret].
    apply unlocked_bind; [apply unlocked_safe; intros; by apply safe_context |]. intros [c' |]; [apply unlocked_ret |].
    apply unlocked_ignore, unlocked_safe. intros. by apply safe_any_store.
Qed.

Lemma revokeDueComputerAuthorities_unlocked : unlocked (revokeDueComputerAuthorities has_computer).
Proof.
  apply unlocked_bind; [apply unlocked_ctry, unlocked_safe; intros; by apply safe_queue_then |]. intros [e | items]; [apply unlocked_ret |].
  apply revoke_due_items_unlocked.
Qed.

Lemma maintenance_unlocked rounds : unlocked (RunBackgroundMaintenance has_computer rounds).
Proof.
  induction rounds as [| rounds IH]; [apply unlocked_ret |]. apply unlocked_bind.
  - apply unlocked_bind; [apply recoverDueNativeAccounts_unlocked |]. intros _.
    apply unlocked_bind; [apply revokeDueComputerAuthorities_unlocked |]. intros _.
    apply unlocked_bind; [apply revokeDueGuestIdentities_unlocked |]. intros _. apply revokeDueDesktopConnections_unlocked.
  - intros _. apply unlocked_timer. intros [c |]; [apply unlocked_ret | exact IH].
Qed.
End maintenance_proofs.

(** * What the background maintenance guarantees

    The rules read off a run: whenever the store is told that a credential,
    a login or an authority is gone, the Guest has confirmed it in the same
    section of the lock of its desktop.  The witnesses run the loop on a
    small deployment with a scripted Guest. *)

(** ** Histories *)
Lemma lawful_at rule new e pre : lawful rule (new ++ e :: pre) -> rule pre e = true /\ lawful rule pre.
Proof. induction new as [| x new IH]; simpl; tauto. Qed.

(** An event of the section, and what the section was before it. *)
Lemma section_split tr e : In e (section tr) ->
  exists new pre, tr = new ++ e :: pre /\ held pre = held tr /\ is_lock e = false /\ forall x, In x (section pre) -> In x (section tr).
Proof.
  induction tr as [| x tr IH]; [done |]. intros Hin.
  destruct (is_lock x) eqn:Hl; [destruct x as [| | | | | | | v [|] |]; done |]. destruct (section_cons x tr Hl) as [Hh Hs]. rewrite Hs in *.
  destruct Hin as [<- | Hin]; [exists [], tr; split_and!; [done.. |]; intros; by right |].
  destruct (IH Hin) as (new & pre & -> & Hh' & He & Hs'). exists (x :: new), pre. rewrite Hh. split_and!; [done.. |]. intros y Hy. right. by apply Hs'.
Qed.

Section histories.
Context `{Sha256} `{Collation} `{UnicodeLower} (has_input : bool) (legacy_revoker : string).

(** What a Guest answered is something a Guest may answer. *)
Definition genuine (e : happened) : Prop :=
  match e with HGuest m q r ev => possible (guest_prog has_input legacy_revoker q) r ev | _ => True end.

Lemma run_ctl_genuine {W A} (w : world W) (p : ctl A) st tr r st' tr' :
  run_ctl has_input legacy_revoker w p st tr = (r, st', tr') -> Forall genuine tr -> Forall genuine tr'.
Proof.
  revert st tr.
  induction p as [r0 | B q k IH | B m q k IH | B q k IH | k IH | k IH | n k IH | d k IH | vmid k IH | vmid k IH]; intros st tr E Htr; simpl in E.
  - by injection E as _ _ <-.
  - destruct (w_tx w st) as [[[cx s] f] st1]. eapply IH; [exact E |]. by constructor.
  - destruct (run_prog (w_guest w m) (guest_prog has_input legacy_revoker q) st []) as [[r0 st1] ev] eqn:Er. eapply IH; [exact E |].
    constructor; [by exists W, (w_guest w m), st, st1 | done].
  - destruct (w_pve w q st). eapply IH; [exact E |]. by constructor.
  - destruct (w_now w st). eapply IH; [exact E |]. by constructor.
  - destruct (w_context w st). eapply IH; [exact E |]. by constructor.
  - destruct (w_random w n st). eapply IH; [exact E |]. by constructor.
  - destruct (w_timer w d st). eapply IH; [exact E |]. by constructor.
  - destruct (w_lock w vmid st). eapply IH; [exact E |]. by constructor.
  - eapply IH; [exact E |]. by constructor.
Qed.

(** A program that succeeded on a desktop. *)
Lemma succeeded_inv vmid (p : forall B, guest_op B -> B -> bool) e : succeeded vmid p e = true ->
  exists B m (q : guest_op B) b ev, e = HGuest m q (inr b) ev /\ vm_id m = vmid /\ p B q b = true.
Proof.
  destruct e as [| B m q [err | b] ev | | | | | | |]; cbn; try done. intros Hp. apply andb_true_iff in Hp as [Hv Hp]. apply Z.eqb_eq in Hv.
  by exists B, m, q, b, ev.
Qed.

(** ** Evidence *)

(** The Guest took exactly this credential change and showed it afterwards. *)
Definition credential_written (a : NativeGuestAccount) (history : list happened) : Prop :=
  let op := op_text (a_operation a) in
  let c := cred_phase (nativeCredential a) (wanted_phase op) in
  exists m pw ev, vm_id m = a_desktop_vmid a /\
    In (HGuest m (GChangeNative (nativeCredential a) op pw) (inr tt) ev) history /\
    one_write (credential_argv (a_guest_username a)) (credential_input c op pw)
      (fun raw => parseNativeCredential raw "linux" = Some c) (fun (_ : unit) post => credential_confirmed c (op == "revoke") post) (inr tt) ev.

(** The Guest showed the credential as retired. *)
Definition credential_retired (a : NativeGuestAccount) (history : list happened) : Prop :=
  exists m u o ev, vm_id m = a_desktop_vmid a /\ In (HGuest m (GInspectNative u) (inr o) ev) history /\ native_matches o (nativeCredential a) "retired" = true.

(** The login is over: the Guest confirmed its end, or has no such account
    and none was ever bound. *)
Definition login_gone (b : AgentGuestSession) (history : list happened) : Prop :=
  (exists m ev, vm_id m = s_desktop_vmid b /\ In (HGuest m (GStopAgent (terminal_lease b)) (inr tt) ev) history /\
     exists before text res post, ev = before ++ EInput (account_argv false (s_guest_username b)) text (inr res) :: post /\ ExitCode res = 0 /\
       login_ended (lease_expires (terminal_lease b) 0) post) \/
  (exists m o ev, vm_id m = s_desktop_vmid b /\ In (HGuest m (GInspectAgent (s_guest_username b)) (inr o) ev) history /\
     LoIdentity o = None /\ s_login_generation b = 0 /\ s_guest_uid b = 0 /\ s_guest_sid b = "").

Lemma changed_written a tr : Forall genuine tr -> proved (changed a) tr = true -> credential_written a (section tr).
Proof.
  intros Hg Hp. apply proved_witness in Hp as (e & Hin & He). apply succeeded_inv in He as (B & m & q & b & ev & -> & Hv & Hq).
  destruct q as [| | | c op pw | | | | | | | | | | | | |]; try discriminate Hq. apply andb_true_iff in Hq as [Hc Ho]. b2p. subst.
  destruct b. exists m, pw, ev. split_and!; [done.. |]. destruct (section_split _ _ Hin) as (new & pre & -> & _).
  apply Forall_app in Hg as [_ Hg]. inversion_clear Hg as [| ? ? Hpos _]. destruct Hpos as (S & e & s & s' & Hrun).
  exact (spec_run _ _ _ _ _ _ _ (ChangeNativeCredential_spec has_input (nativeCredential a) (op_text (a_operation a)) pw) Hrun).
Qed.

Lemma seen_retired_inv a tr : proved (seen_retired a) tr = true -> credential_retired a (section tr).
Proof.
  intros Hp. apply proved_witness in Hp as (e & Hin & He). apply succeeded_inv in He as (B & m & q & b & ev & -> & Hv & Hq).
  destruct q; try discriminate Hq. by exists m, username, b, ev.
Qed.

Lemma login_over_gone b tr : Forall genuine tr -> proved (login_over b) tr = true -> login_gone b (section tr).
Proof.
  intros Hg Hp. apply proved_witness in Hp as (e & Hin & He). apply succeeded_inv in He as (B & m & q & r & ev & -> & Hv & Hq).
  destruct q as [| | | | u | | | l | | | | | | | | |]; try discriminate Hq.
  - right. b2p. destruct_and!. subst u. exists m, r, ev. by split_and!.
  - left. apply bool_decide_eq_true in Hq as ->. destruct r. exists m, ev. split_and!; [done.. |].
    destruct (section_split _ _ Hin) as (new & pre & -> & _). apply Forall_app in Hg as [_ Hg]. inversion_clear Hg as [| ? ? Hpos _].
    destruct Hpos as (S & e & s & s' & Hrun). destruct (spec_run _ _ _ _ _ _ _ (StopAgentSession_spec has_input (terminal_lease b)) Hrun) as [_ Hw].
    destruct Hw as (before & text & res & post & -> & _ & _ & _ & Hx & _ & Hend). exists before, text, res, post.
    unfold terminal_lease in *. destruct (_ =? 0); done.
Qed.

(** A session that was reported as settled really is. *)
Lemma settled_gone b tr : Forall genuine tr -> lawful permitted tr -> existsb (session_settled b) (section tr) = true ->
  exists b', attempt b' = attempt b /\ login_gone b' (section tr).
Proof.
  intros Hg Hl He. apply existsb_exists in He as (e & Hin & He).
  destruct e as [B q cx s f | | | | | | | |]; try discriminate He. destruct q; try discriminate He.
  cbn in He. apply andb_true_iff in He as [_ Ha]. apply bool_decide_eq_true in Ha.
  destruct (section_split _ _ Hin) as (new & pre & -> & _ & _ & Hsub). apply Forall_app in Hg as [_ Hg]. inversion_clear Hg as [| ? ? _ Hg'].
  destruct (lawful_at _ _ _ _ Hl) as [Hp _]. cbn in Hp. apply andb_true_iff in Hp as [_ Hp].
  exists item. split; [done |]. destruct (login_over_gone _ _ Hg' Hp) as [(m & ev & ? & ? & Hx) | (m & o & ev & ? & ? & Hx)].
  - left. exists m, ev. auto.
  - right. exists m, o, ev. auto.
Qed.

(** ** The maintenance loop *)
Context (has_computer : bool) (home : string -> Z).

Lemma maintenance_run {W} (w : world W) rounds st r st' tr : world_ok (homed home) w ->
  run_ctl has_input legacy_revoker w (RunBackgroundMaintenance has_computer rounds) st [] = (r, st', tr) ->
  lawful permitted tr /\ held tr = None /\ Forall genuine tr.
Proof.
  intros Hok Hrun. destruct (cwp_run has_input legacy_revoker permitted (homed home) w _ st _ r st' tr Hok
    (maintenance_unlocked has_input legacy_revoker (homed home) has_computer home (fun s Hs => Hs) rounds [] eq_refl) Hrun) as [Hl Hh].
  split_and!; [done.. |]. exact (run_ctl_genuine _ _ _ _ _ _ _ Hrun (Forall_nil_2 _)).
Qed.
End histories.

(** ** The claims *)
(** The control epoch of a desktop is the highest that any of its leases or
    queued revocations carries. *)
Definition newest_epoch (s : DB) (vmid epoch : Z) : Prop :=
  (forall e, current_epoch s vmid = Some e -> e = epoch) /\
  (lease_inv s -> (forall l, In l (desktop_leases s) -> l_desktop_id l = itoa vmid -> l_control_epoch l <= epoch) /\
     (forall q, In q (desktop_computer_revocations s) -> r_desktop_vmid q = vmid -> r_control_epoch q <= epoch)).

Lemma epoch_read_inv `{Sha256} `{Collation} `{UnicodeLower} vmid epoch e : epoch_read vmid epoch e = true ->
  exists cx s f, e = HStore (OpControlEpoch vmid) cx s f /\ store_answer (OpControlEpoch vmid) cx s f = inr epoch /\ newest_epoch s vmid epoch.
Proof.
  destruct e as [B q cx s f | | | | | | | |]; try done. cbn -[store_answer]. destruct q; try done. destruct (store_answer _ cx s f) as [| b] eqn:E; [done |].
  intros He. apply andb_true_iff in He as [Hv Hb]. apply Z.eqb_eq in Hv as ->, Hb as ->. exists cx, s, f. split_and!; [done.. |].
  assert (forall e, current_epoch s vmid = Some e -> e = epoch) as Hcur.
  { intros e0 He0. apply answered_inr in E as [? E]; cbn [perform] in E. unfold ComputerControlEpoch in E. inv_tx. unfold current_epoch in *. cbn in *.
    assert (forall l : list ComputerEpoch, update_where (fun e => e_desktop_vmid e == vmid) (fun e => e) l = l) as Hid.
    { intros l. induction l as [| x l IH]; [done |]. unfold update_where in *. cbn. rewrite IH. by destruct (_ == _). }
    match goal with Hs : context [upsert] |- _ => rename Hs into Hu end. unfold upsert in Hu. rewrite Hid in Hu.
    destruct (exists_where _ (desktop_computer_epochs s)) eqn:Ex; [unfold select_one in *; congruence |].
    unfold exists_where in Ex. unfold select_one in He0. destruct (find _ (desktop_computer_epochs s)) as [row |] eqn:Ef; [| done].
    apply find_some in Ef as [Hin Hk]. assert (existsb (fun e => e_desktop_vmid e == vmid) (desktop_computer_epochs s) = true) by (apply existsb_exists; eauto).
    congruence. }
  split; [done |]. intros HI. split.
  - intros l Hl Hd. destruct (li_leases _ HI _ Hl) as (d & e & Hd' & Ht & Ee & Hb & _).
    assert (d_vmid d = vmid) as E1 by (apply itoa_injective; congruence). rewrite E1 in Ee. rewrite <- (Hcur _ Ee). lia.
  - intros q Hq <-. destruct (li_queue _ HI _ Hq) as (_ & _ & e & Ee & Hb & _). rewrite <- (Hcur _ Ee). lia.
Qed.

Section claims.
Context `{Sha256} `{Collation} `{UnicodeLower} {W : Type} (has_input : bool) (legacy_revoker : string) (has_computer : bool) (home : string -> Z).

(** The maintenance loop follows the rules in every run: against any
    database whose connections keep their desktop, with answers of the
    database lost before or after the commit, Guests that answer anything or
    nothing, other replicas changing the database between any two
    transactions, and locks that may be refused.  Guests are touched only
    under the lock of their desktop, locks do not nest and are all released. *)
Theorem maintenance_follows_rules (w : world W) rounds st r st' tr
    (Hok : world_ok (homed home) w)
    (Hrun : run_ctl has_input legacy_revoker w (RunBackgroundMaintenance has_computer rounds) st [] = (r, st', tr)) :
  lawful permitted tr /\ held tr = None.
Proof. destruct (maintenance_run has_input legacy_revoker has_computer home w _ _ _ _ _ Hok Hrun) as (? & ? & _). done. Qed.

(** (C19) Whenever a run of the maintenance loop asks the store to record the
    operation on a credential as applied, it holds the lock of that desktop
    and the Guest has, since the lock was taken, accepted exactly that change
    and shown it in a later inspection (for a revocation with no process and
    no login writer left), or has shown the credential as retired. *)
Theorem maintenance_credentials_earned (w : world W) rounds st r st' new a cx s f pre
    (Hok : world_ok (homed home) w)
    (Hrun : run_ctl has_input legacy_revoker w (RunBackgroundMaintenance has_computer rounds) st [] =
      (r, st', new ++ HStore (OpCompleteNative a) cx s f :: pre)) :
  held pre = Some (a_desktop_vmid a) /\
  (credential_written a (section pre) \/ a_operation a = NRetire /\ credential_retired a (section pre)).
Proof.
  destruct (maintenance_run has_input legacy_revoker has_computer home w _ _ _ _ _ Hok Hrun) as (Hl & _ & Hg).
  destruct (lawful_at _ _ _ _ Hl) as [Hp _]. apply Forall_app in Hg as [_ Hg]. inversion_clear Hg as [| ? ? _ Hg'].
  cbn in Hp. apply andb_true_iff in Hp as [Hh Hp]. apply bool_decide_eq_true in Hh. split; [done |].
  apply orb_true_iff in Hp as [Hp | Hp]; [left; by apply (changed_written has_input legacy_revoker) |].
  apply andb_true_iff in Hp as [Ho Hp]. apply bool_decide_eq_true in Ho. right. split; [done | by apply seen_retired_inv].
Qed.

(** (C20) Whenever a run of the maintenance loop asks the store to record the
    revocation of computer authority as done, it holds the lock of that
    desktop, and since the lock was taken two things happened.  The store named
    the control epoch of the desktop - the current one, not below that of any
    lease or queued revocation of the desktop - and after that the Guest took a
    revocation at exactly this epoch.  And every session that the store
    reported as being revoked is gone: its login was ended and the Guest showed
    that end, or the account never existed. *)
Theorem maintenance_authority_earned (w : world W) rounds st r st' new item cx s f pre
    (Hok : world_ok (homed home) w)
    (Hrun : run_ctl has_input legacy_revoker w (RunBackgroundMaintenance has_computer rounds) st [] =
      (r, st', new ++ HStore (OpCompleteComputer item) cx s f :: pre)) :
  held pre = Some (CRVMID item) /\
  (exists m authority ev older cx' s' f', vm_id m = CRVMID item /\ AuthState authority = "revoked" /\
     In (HGuest m (GRevokeAuthority authority) (inr tt) ev) (section pre) /\
     (exists newer, pre = newer ++ HGuest m (GRevokeAuthority authority) (inr tt) ev :: older) /\
     In (HStore (OpControlEpoch (CRVMID item)) cx' s' f') (section older) /\
     store_answer (OpControlEpoch (CRVMID item)) cx' s' f' = inr (AuthControlEpoch authority) /\
     newest_epoch s' (CRVMID item) (AuthControlEpoch authority)) /\
  exists e sessions, In e (section pre) /\ reported_sessions e = Some sessions /\
    forall b, In b sessions -> s_state b = GRevoking -> exists b', attempt b' = attempt b /\ login_gone b' (section pre).
Proof.
  destruct (maintenance_run has_input legacy_revoker has_computer home w _ _ _ _ _ Hok Hrun) as (Hl & _ & Hg).
  destruct (lawful_at _ _ _ _ Hl) as [Hp Hl']. apply Forall_app in Hg as [_ Hg]. inversion_clear Hg as [| ? ? _ Hg'].
  cbn in Hp. apply andb_true_iff in Hp as [Hp Hs]. apply andb_true_iff in Hp as [Hh Ha]. apply bool_decide_eq_true in Hh. split_and!; [done | |].
  - apply proved_witness in Ha as (e & Hin & He). apply succeeded_inv in He as (B & m & q & b & ev & -> & Hv & Hq).
    destruct q; try discriminate Hq. destruct b. match goal with _ : In (HGuest _ (GRevokeAuthority ?x) _ _) _ |- _ => rename x into authority end.
    destruct (section_split _ _ Hin) as (newer & older & Hpre & _). rewrite Hpre in Hl'. destruct (lawful_at _ _ _ _ Hl') as [Hg _].
    cbn in Hg. apply andb_true_iff in Hg as [_ Hg]. apply andb_true_iff in Hg as [Hst Hg]. apply bool_decide_eq_true in Hst.
    apply proved_witness in Hg as (e & Hine & He). destruct (epoch_read_inv _ _ _ He) as (cx' & s' & f' & -> & Hans & Hnew). rewrite Hv in *.
    exists m, authority, ev, older, cx', s', f'. split_and!; try done. by exists newer.
  - apply proved_witness in Hs as (e & Hin & He). apply andb_true_iff in He as [He _]. unfold sessions_settled in He.
    destruct (reported_sessions e) as [l |] eqn:El; [| done]. exists e, l. split_and!; [done.. |]. intros b Hb Hst.
    rewrite forallb_forall in He. specialize (He b Hb). rewrite Hst, bool_decide_true in He by done.
    by apply (settled_gone has_input legacy_revoker).
Qed.
End claims.

(** ** A deployment

    The database and the time; every transaction is answered, the Guests are
    scripted. *)
Definition lift_env {S T} (get : T -> S) (set : S -> T -> T) (e : environment S) : environment T :=
  let lift {A} (f : S -> A * S) (t : T) : A * T := let '(a, s) := f (get t) in (a, set s t) in
  MkEnvironment (lift (env_config e)) (fun cmd => lift (env_exec e cmd)) (fun cmd text => lift (env_input e cmd text))
    (fun path text => lift (env_write e path text)) (lift (env_now e)) (fun c => lift (env_context e c)) (fun n => lift (env_random e n))
    (fun d => lift (env_timer e d)).

(** The calls of the PVE API. *)
Definition demo_pve (machines : list VM) {B} (q : pve_op B) : guest_failure + B :=
  match q with
  | PSummary => inr (MkSummary [] machines [] true)
  | PInterfaces _ => inr [["127.0.0.1"; "::1"]; ["10.1.2.3"]]
  | PReadFile _ _ _ => inr "ready"
  | PWriteBinary _ _ _ | PSetPassword _ _ _ => inr tt
  | _ => inl (MkFailure None "not answered")
  end.

(** A database that [ok] refuses is never shown. *)
Definition deployment_with (ok : DB -> bool) (pve : forall B, pve_op B -> guest_failure + B) (guest : Z -> environment nanos) : world (DB * nanos) := MkWorld
  (fun st => (MkTxContext (snd st / 1000) (snd st / 1000) (snd st / 1000) 7 (demo_pad 32 "s") id, if ok (fst st) then fst st else empty_db, Answered, st))
  (fun s st => (s, snd st))
  (fun m => lift_env snd (fun t st => (fst st, t)) (guest (vm_id m)))
  (fun B q st => (pve B q, st))
  (fun st => (snd st, st))
  (fun st => (None, st))
  (fun n st => (Some (byte_string (repeat 65 n)), st))
  (fun d st => (None, (fst st, snd st + d)))
  (fun vmid st => (true, st))
  (fun vmid st => st).
Definition deployment (ok : DB -> bool) (machines : list VM) (guest : Z -> environment nanos) : world (DB * nanos) :=
  deployment_with ok (@demo_pve machines) guest.

Lemma deployment_with_ok (P : DB -> Prop) ok pve guest : P empty_db -> (forall s, ok s = true -> P s) -> world_ok P (deployment_with ok pve guest).
Proof.
  intros He Hok st cx s f st' E. pose proof (f_equal (fun x => snd (fst (fst x))) E) as Es. cbn [w_tx deployment_with fst snd] in Es. subst s. clear E.
  match goal with |- context [if ?b then _ else _] => destruct b eqn:Hb end; auto.
Qed.

Lemma deployment_ok (P : DB -> Prop) ok machines guest : P empty_db -> (forall s, ok s = true -> P s) -> world_ok P (deployment ok machines guest).
Proof. apply deployment_with_ok. Qed.

Definition at_home (s : DB) : bool := forallb (fun c => c_desktop_vmid c =? 101) (desktop_connection_sessions s).

Lemma home_ok machines guest : world_ok (homed (fun _ => 101)) (deployment at_home machines guest).
Proof.
  apply deployment_ok; [intros c Hc; exfalso; exact Hc |]. intros s Hs c Hc. unfold at_home in Hs. rewrite forallb_forall in Hs. by apply Z.eqb_eq, Hs.
Qed.

Lemma run_eta {A B C} (x : A * B * C) : x = (fst (fst x), snd (fst x), snd x).
Proof. by destruct x as [[a b] c]. Qed.

Section witnesses.
#[local] Existing Instance demo_sha.
#[local] Existing Instance demo_collation.
#[local] Existing Instance demo_lower.

(** A credential whose revocation was requested, and a released lease whose
    login is still open. *)
Definition due_credential : NativeGuestAccount := native_item 2 NRevoke NPending "conn_00000001" None.
Definition due_session (st : guest_state) : AgentGuestSession :=
  MkAgentGuestSession 102 "ag1" (AgentGuestUsername "ag1") "linux" "lease_1" 1 1 1 st 2001 "" "" "" hour 0.
Definition demo_due : DB :=
  state_of (ReleaseDesktopLease 5 "lease_1") (state_of (RevokeNativeGuestAccount 4 4 item1) demo_issued
    <| desktop_leases := [MkDesktopLease "lease_1" "ag1" "102" LActive 1 hour 0 0]; agent_guest_sessions := [due_session GProvisioning] |>).
Definition due_guest (vmid : Z) : environment nanos :=
  if vmid =? 101 then
    let c := cred_phase (nativeCredential due_credential) "revoked" in
    script (JObj [("schema_version", JNum "1"); ("identity", identity_json (CredIdentity c)); ("account", closed_account); ("processes_absent", JBool true);
      ("login_writers_absent", JBool true); ("lifecycle", credential_receipt c)]) (credential_receipt c)
  else
    let l := lease_phase (lease_expires (agentAccountLease (due_session GRevoking)) 0) "revoked" in
    script (JObj [("schema_version", JNum "1"); ("username", JStr (s_guest_username (due_session GRevoking))); ("identity", identity_json (LeaseIdentity l)); ("account", closed_account);
      ("processes_absent", JBool true); ("login_writers_absent", JBool true); ("lifecycle", lease_receipt l)]) (lease_receipt l).

Definition due_run : (ctl_error + unit) * (DB * nanos) * list happened :=
  run_ctl true "revoker" (deployment at_home [] due_guest) (RunBackgroundMaintenance true 1) (demo_due, 10 * second) [].
Definition due_history : list happened := snd due_run.

Lemma due_run_eq : run_ctl true "revoker" (deployment at_home [] due_guest) (RunBackgroundMaintenance true 1) (demo_due, 10 * second) [] =
  (fst (fst due_run), snd (fst due_run), due_history).
Proof. unfold due_history, due_run. exact (run_eta _). Qed.

Lemma maintenance_follows_rules_witness : fst (fst due_run) = inr tt /\ length due_history = 30%nat /\ lawful permitted due_history /\ held due_history = None.
Proof.
  split; [vm_compute; reflexivity |]. split; [vm_compute; reflexivity |].
  apply (maintenance_follows_rules true "revoker" true (fun _ => 101) (deployment at_home [] due_guest) 1 (demo_due, 10 * second) (fst (fst due_run)) (snd (fst due_run))).
  - apply home_ok.
  - exact due_run_eq.
Defined.

Lemma maintenance_credentials_earned_witness : exists a cx s f, due_history !! 24%nat = Some (HStore (OpCompleteNative a) cx s f) /\
  a_operation a = NRevoke /\ held (drop 25 due_history) = Some 101 /\ credential_written a (section (drop 25 due_history)).
Proof.
  eexists _, _, _, _. split; [vm_compute; reflexivity |]. split; [reflexivity |].
  edestruct (maintenance_credentials_earned true "revoker" true (fun _ => 101) (deployment at_home [] due_guest) 1 (demo_due, 10 * second)
    (fst (fst due_run)) (snd (fst due_run)) (take 24 due_history)) as [Hh Hp].
  - apply home_ok.
  - rewrite take_drop_middle by (vm_compute; reflexivity). exact due_run_eq.
  - split; [exact Hh |]. destruct Hp as [Hp | [Hp _]]; [exact Hp | discriminate Hp].
Defined.

Lemma maintenance_authority_earned_witness : exists item cx s f, due_history !! 5%nat = Some (HStore (OpCompleteComputer item) cx s f) /\
  held (drop 6 due_history) = Some 102 /\
  exists m authority ev, vm_id m = 102 /\ AuthState authority = "revoked" /\ In (HGuest m (GRevokeAuthority authority) (inr tt) ev) (section (drop 6 due_history)).
Proof.
  eexists _, _, _, _. split; [vm_compute; reflexivity |].
  edestruct (maintenance_authority_earned true "revoker" true (fun _ => 101) (deployment at_home [] due_guest) 1 (demo_due, 10 * second)
    (fst (fst due_run)) (snd (fst due_run)) (take 5 due_history)) as (Hh & Ha & _).
  - apply home_ok.
  - rewrite take_drop_middle by (vm_compute; reflexivity). exact due_run_eq.
  - split; [exact Hh |]. destruct Ha as (m & authority & ev & _ & _ & _ & _ & Hm & Hs & Hin & _). exists m, authority, ev. exact (conj Hm (conj Hs Hin)).
Defined.
End witnesses.
