(* ===== verification/ControllerHttp.v ===== *)
(** * The API of agents ([internal/httpapi/server.go])

    Handlers as tasks: a reply other than success is an [EReply] with its
    status and code; the texts of messages are left out, as are log lines.
    The body of a request arrives decoded, the address of its sender as the
    text that [requestSourceIP] makes of it. *)
From stdpp Require Import base strings list.
From Stdlib Require Import ZArith Lia Ascii.
From S2P Require Import Prelude GoStrings Auth Net Db Json Triggers StoreAccess StoreConn StoreLease StoreAgent StoreNative Computer Guest GuestAccount GuestSession ComputerWire GuestTransport GuestConfirmed StoreAudit Pve Controller ControllerScripts ControllerNative ControllerAgent.

Local Open Scope string_scope.
Local Open Scope list_scope.
Local Open Scope Z_scope.

(** ** Requests *)
Record http_request : Set := MkHttpRequest {
  rq_agent_id : string;      (* the query's agent_id *)
  rq_path_id : string;       (* PathValue id *)
  rq_source_ip : string;
  rq_user_agent : string
}.

Definition shortened_agent (userAgent : string) : string :=
  let userAgent := join " " (Fields userAgent) in
  let runes := runes_of (String.length userAgent) userAgent in
  if 256 <? Z.of_nat (length runes) then String.concat "" (take 256 runes) +:+ ellipsis else userAgent.

(** A Go map with these assignments, as [encoding/json] normalises it. *)
Definition detail_of (l : list (string * json)) : list (string * json) := fold_left (fun acc e => obj_set (fst e) (snd e) acc) l [].
Definition text (s : string) : json := JStr (json_text s).
Definition number (n : Z) : json := JNum (itoa n).

Definition auditRequest (q : http_request) (actorID eventType targetType targetID : string) (detail : list (string * json)) : ctl unit :=
  let source := if rq_source_ip q == "" then [] else [("source_ip", text (rq_source_ip q))] in
  let agent := shortened_agent (rq_user_agent q) in
  let agent := if agent == "" then [] else [("user_agent", text agent)] in
  cignore (store_ (OpAudit actorID eventType targetType targetID (JObj (detail_of (detail ++ source ++ agent))))).

(** [writeError(...); return]: the reply of a call that failed. *)
Definition reply_on {A} (p : ctl A) (status : Z) (code : string) : ctl A :=
  r ← ctry p;
  match r with inr a => mret a | inl _ => cfail (EReply status code) end.

(** A lock that may be refused, held until the handler returns. *)
Definition with_control_lock {A} (vmid : Z) (busy : string) (body : ctl A) : ctl A :=
  reply_on (AcquireDesktopControlLock vmid) 503 busy;;
  r ← ctry body;
  CUnlock vmid (CDone r).

(** ** The inventory *)
Definition isManagedDesktop (m : VM) : bool :=
  (vm_kind m == "qemu") && negb (vm_template m) && (bool_decide ("vc-workspace" ∈ vm_tags m) || bool_decide ("vc-vdi" ∈ vm_tags m)).

Definition set_managed (m : VM) (managed : bool) : VM :=
  MkVM (vm_id m) (vm_node m) (vm_kind m) (vm_status m) (vm_template m) managed (vm_tags m) (vm_name m).

Definition desktopInventory : ctl Summary :=
  summary ← pve_ PSummary;
  reserved ← store_ OpImageReserved;
  mret (MkSummary (sm_nodes summary) (List.map (fun m => set_managed m (isManagedDesktop m && negb (reserved (vm_id m)))) (sm_vms summary)) (sm_storage summary) (sm_writable summary)).

Definition managedVirtualMachine (vmid : Z) : ctl VM :=
  summary ← desktopInventory;
  match List.find (fun m => (vm_id m =? vmid) && vm_managed m) (sm_vms summary) with
  | Some m => mret m
  | None => cfail (EStore ErrNotFound)
  end.

Definition filterDesktopsByVMID (machines : list VM) (vmids : list Z) : list VM :=
  List.filter (fun m => bool_decide (vm_id m ∈ vmids) && vm_managed m && isManagedDesktop m) machines.

Section agent_api.
Context `{Sha256} `{UnicodeLower} (has_computer : bool) (background : bytes).

(** ** Who asks *)
Definition authenticateAgent (token : string) : ctl AgentPrincipal :=
  let token := TrimSpace token in
  censure (negb ((token == "") || (512 <? slen token))) (EReply 401 "invalid_agent_token");;
  reply_on (store_ (OpAgentByToken (TokenDigest token))) 401 "invalid_agent_token".

Definition requireAgentLease (q : http_request) : ctl DesktopLease :=
  let agentID := TrimSpace (rq_agent_id q) in
  lease ← reply_on (store_ (OpLease (rq_path_id q))) 404 "lease_not_found";
  censure (l_agent_id lease == agentID) (EReply 404 "lease_not_found");;
  censure (l_state lease == LActive) (EReply 409 "lease_not_active");;
  vmid ← csome (Atoi (l_desktop_id lease)) (EReply 404 "lease_not_found");
  allowed ← reply_on (store_ (OpAgentCanAccess agentID vmid)) 500 "internal_error";
  censure allowed (EReply 404 "lease_not_found");;
  mret lease.

(** [agentIDPattern]: ^[a-zA-Z0-9][a-zA-Z0-9._:-]{2,127}$ *)
Definition agentIDPattern (s : string) : bool :=
  match s with
  | String c rest => alphanumeric c && match_class "" (fun c => alphanumeric c || bool_decide (c ∈ ["."; "_"; ":"; "-"]%char)) 2 127 rest
  | _ => false
  end.

Definition agentDesktops (q : http_request) : ctl (list VM) :=
  let agentID := TrimSpace (rq_agent_id q) in
  censure (agentIDPattern agentID) (EReply 400 "invalid_agent_id");;
  summary ← reply_on desktopInventory 502 "pve_unavailable";
  vmids ← reply_on (store_ (OpAgentAssigned agentID)) 500 "internal_error";
  mret (filterDesktopsByVMID (sm_vms summary) vmids).

(** ** Leases *)
Record lease_request : Set := MkLeaseRequest { lr_agent_id : string; lr_desktop_vmid : Z; lr_ttl_seconds : Z }.

Definition create_lease_error (e : ctl_error) : ctl_error :=
  match e with
  | EStore ErrAlreadyLeased => EReply 409 "desktop_already_leased"
  | EStore ErrNotFound => EReply 404 "managed_vm_not_found"
  | _ => EReply 500 "internal_error"
  end.

Definition lease_detail (l : DesktopLease) : list (string * json) := [("agent_id", text (l_agent_id l)); ("desktop_id", text (l_desktop_id l))].

Definition createAgentDesktopLease (q : http_request) (body : option lease_request) : ctl DesktopLease :=
  body ← csome body (EReply 400 "invalid_request");
  let agentID := TrimSpace (lr_agent_id body) in
  let vmid := lr_desktop_vmid body in
  censure (agentIDPattern agentID && (0 <? vmid)) (EReply 422 "invalid_lease");;
  let ttl := if lr_ttl_seconds body =? 0 then 900 else lr_ttl_seconds body in
  censure (negb ((ttl <? 60) || (3600 <? ttl))) (EReply 422 "invalid_ttl");;
  allowed ← reply_on (store_ (OpAgentCanAccess agentID vmid)) 500 "internal_error";
  (if allowed : bool then mret tt else
     auditRequest q agentID "agent.desktop_access_denied" "agent" agentID [("desktop_vmid", number vmid); ("reason", text "not_assigned")];;
     cfail (EReply 404 "managed_vm_not_found"));;
  reply_on (managedVirtualMachine vmid) 404 "managed_vm_not_found";;
  token ← reply_on (crandom 18) 500 "internal_error";
  with_control_lock vmid "desktop_busy" (
    now ← cnow;
    r ← ctry (store_ (OpCreateLease ("lease_" +:+ OpaqueToken token) agentID (itoa vmid) ((now + ttl * second) / 1000)));
    match r with
    | inl e => cfail (create_lease_error e)
    | inr lease =>
        auditRequest q (l_agent_id lease) "agent.desktop_lease_created" "desktop_lease" (l_id lease) (lease_detail lease);;
        mret lease
    end).

(** A running machine is told at once; otherwise the queue remembers. *)
Definition tell_machine (desktopID : string) : ctl unit :=
  match Atoi desktopID with
  | None => mret tt
  | Some vmid =>
      r ← ctry (managedVirtualMachine vmid);
      match r with
      | inr m => if vm_status m == "running" then cignore (synchronizeComputerRevocation has_computer m false) else mret tt
      | inl _ => mret tt
      end
  end.

Definition releaseAgentDesktopLease (q : http_request) : ctl DesktopLease :=
  lease ← requireAgentLease q;
  vmid ← csome (Atoi (l_desktop_id lease)) (EReply 409 "invalid_lease");
  with_control_lock vmid "desktop_busy" (
    lease ← requireAgentLease q;
    released ← reply_on (store_ (OpReleaseLease (l_id lease))) 409 "lease_not_active";
    tell_machine (l_desktop_id released);;
    auditRequest q (l_agent_id lease) "agent.desktop_lease_released" "desktop_lease" (l_id lease) (lease_detail lease);;
    mret released).
End agent_api.

(** ** Actions *)
Record computerActionRequest : Set := MkComputerAction {
  ca_control_epoch : Z;
  ca_operation : string;
  ca_timeout_ms : Z;
  ca_screenshot : option Screenshot;
  ca_accessibility : option Accessibility;
  ca_mouse : option Mouse;
  ca_key : option Key;
  ca_text : option Text
}.

Definition computerErrorReason (e : ctl_error) : string :=
  match e with
  | EGuest CompInvalid => "invalid_request"
  | EGuest CompTimeout => "timeout"
  | EGuest CompUnavailable => "helper_unavailable"
  | _ => "guest_rejected"
  end.

Definition action_reply (e : ctl_error) : ctl_error :=
  match e with
  | EGuest CompInvalid => EReply 422 "invalid_computer_action"
  | EGuest CompTimeout => EReply 504 "computer_action_timeout"
  | EGuest CompUnavailable => EReply 503 "computer_helper_unavailable"
  | _ => EReply 502 "computer_action_failed"
  end.

Section agent_action.
Context `{UnicodeLower} (has_computer : bool) (background : bytes) (q : http_request).

Definition audit_lease (event : string) (lease : DesktopLease) (detail : list (string * json)) : ctl unit :=
  auditRequest q (l_agent_id lease) event "desktop_lease" (l_id lease) detail.

Definition reason_detail (lease : DesktopLease) (operation reason : string) : list (string * json) :=
  lease_detail lease ++ [("operation", text operation); ("reason", text reason)].

(** [auditDenied], followed by the reply [e]. *)
Definition denied {A} (lease : DesktopLease) (operation reason : string) (extra : list (string * json)) (e : ctl_error) : ctl A :=
  audit_lease "agent.computer_action_denied" lease (reason_detail lease operation reason ++ extra);;
  cfail e.
Definition failed {A} (lease : DesktopLease) (operation reason : string) (e : ctl_error) : ctl A :=
  audit_lease "agent.computer_action_failed" lease (reason_detail lease operation reason);;
  cfail e.

(** The lease before anything else. *)
Definition action_lease : ctl DesktopLease :=
  r ← ctry (requireAgentLease q);
  match r with
  | inr lease => mret lease
  | inl e =>
      auditRequest q (TrimSpace (rq_agent_id q)) "agent.computer_action_denied" "desktop_lease" (rq_path_id q) [("reason", text "lease_unavailable")];;
      cfail e
  end.

Definition action_timeout (input : computerActionRequest) : Z := if ca_timeout_ms input =? 0 then 5000 else ca_timeout_ms input.

Definition build_action (lease : DesktopLease) (input : computerActionRequest) (token : string) (now : nanos) : ActionRequest :=
  ApplyDefaults (MkActionRequest SchemaVersion ("action_" +:+ token) (l_id lease) (l_control_epoch lease)
    (UnixMilli (now + action_timeout input * millisecond)) (ca_operation input) (ca_screenshot input) (ca_accessibility input)
    (ca_mouse input) (ca_key input) (ca_text input)).

(** The request in its final form, before any Guest is involved.  A body that
    does not decode leaves the operation it got to. *)
Definition checked_action (lease : DesktopLease) (body : string + computerActionRequest) : ctl (computerActionRequest * ActionRequest) :=
  match body with
  | inl operation => denied lease operation "invalid_request" [] (EReply 400 "invalid_request")
  | inr input =>
      let deny {A} reason extra status code : ctl A := denied lease (ca_operation input) reason extra (EReply status code) in
      if ca_control_epoch input != l_control_epoch lease then
        deny "stale_control_epoch" [("provided_control_epoch", number (ca_control_epoch input)); ("current_control_epoch", number (l_control_epoch lease))]
          409 "stale_control_epoch"
      else if negb has_computer then deny "computer_use_unavailable" [] 503 "computer_use_unavailable"
      else if (action_timeout input <? 250) || (15000 <? action_timeout input) then deny "invalid_timeout" [] 422 "invalid_timeout"
      else
        token ← ctry (crandom 18);
        match token with
        | inl _ => failed lease (ca_operation input) "request_id_failed" (EReply 500 "internal_error")
        | inr token =>
            now ← cnow;
            let action := build_action lease input (OpaqueToken token) now in
            now ← cnow;
            if Validate now action then mret (input, action) else deny "invalid_computer_action" [] 422 "invalid_computer_action"
        end
  end.

(** The machine of the lease, which must run. *)
Definition action_machine (lease : DesktopLease) (operation : string) : ctl VM :=
  match Atoi (l_desktop_id lease) with
  | None => denied lease operation "invalid_lease" [] (EReply 500 "invalid_lease")
  | Some vmid =>
      r ← ctry (managedVirtualMachine vmid);
      match r with
      | inl _ => denied lease operation "managed_vm_not_found" [] (EReply 404 "managed_vm_not_found")
      | inr m =>
          if vm_status m == "running" then mret m else denied lease operation "desktop_not_running" [] (EReply 409 "desktop_not_running")
      end
  end.

(** Authority once more, and the session of the agent with it active. *)
Definition authorize_action (m : VM) (lease : DesktopLease) (operation : string) : ctl SessionTarget :=
  r ← ctry (requireAgentLease q);
  match r with
  | inl e => denied lease operation "lease_changed_while_waiting_for_control" [] e
  | inr current =>
      censure (l_control_epoch current =? l_control_epoch lease) (EReply 409 "stale_control_epoch");;
      reply_on (synchronizeComputerRevocation has_computer m false) 503 "computer_revocation_pending";;
      r ← ctry (prepareAgentGuestSession has_computer background m lease);
      match r with
      | inl _ => failed lease operation "authority_sync_failed" (EReply 503 "computer_helper_unavailable")
      | inr target =>
          current ← ctry (store_ (OpLease (l_id lease)));
          match current with
          | inr l =>
              if (l_state l == LActive) && (l_control_epoch l =? l_control_epoch lease) then mret target
              else
                cignore (synchronizeComputerRevocation has_computer m true);;
                denied lease operation "lease_changed_during_authority_sync" [] (EReply 409 "stale_control_epoch")
          | inl _ => denied lease operation "lease_changed_during_authority_sync" [] (EReply 409 "stale_control_epoch")
          end
      end
  end.

(** A validated action has the payload that [AuditDetail] reads. *)
Definition action_detail (lease : DesktopLease) (action : ActionRequest) : list (string * json) :=
  match AuditDetail action with Some (JObj l) => l | _ => [] end ++ lease_detail lease ++ [("request_id", text (RequestID action))].

Definition result_detail (r : Response) : list (string * json) :=
  match RespScreenshot r with
  | Some p => [("image_width", number (ImageWidth p)); ("image_height", number (ImageHeight p)); ("image_sha256", text (SHA256Text p))]
  | None => []
  end ++
  match RespAccessibility r with
  | Some p => [("accessibility_source", text (Source p)); ("node_count", number (Z.of_nat (length (Nodes p)))); ("truncated", JBool (Truncated p))]
  | None => []
  end.

(** The dispatch; the result is withheld when the lease ended meanwhile. *)
Definition dispatch_action (m : VM) (lease : DesktopLease) (input : computerActionRequest) (action : ActionRequest) (target : SessionTarget) : ctl Response :=
  let detail := action_detail lease action in
  let timeout := action_timeout input * millisecond in
  now ← cnow;
  r ← ctry (guest_ m (GAction target (with_expiry action (UnixMilli (now + timeout))) timeout));
  match r with
  | inl e =>
      audit_lease "agent.computer_action_failed" lease (detail ++ [("reason", text (computerErrorReason e))]);;
      cfail (action_reply e)
  | inr result =>
      still ← ctry (requireAgentLease q);
      match still with
      | inl e => denied lease (ca_operation input) "lease_changed_after_action" [] e
      | inr _ =>
          audit_lease "agent.computer_action_succeeded" lease (detail ++ result_detail result);;
          mret result
      end
  end.

Definition agentComputerAction (body : string + computerActionRequest) : ctl Response :=
  lease ← action_lease;
  ia ← checked_action lease body;
  m ← action_machine lease (ca_operation (fst ia));
  with_control_lock (vm_id m) "desktop_busy" (
    target ← authorize_action m lease (ca_operation (fst ia));
    dispatch_action m lease (fst ia) (snd ia) target).
End agent_action.
