(* ===== verification/ControllerHttpProofs.v ===== *)
(** * The API of agents follows the rules

    What an agent sees of a desktop was dispatched under the lock of the
    desktop, with its session activated for the lease of the request and the
    lease read again as active after that, and is returned only after the
    lease and the access of the agent were read once more. *)
From stdpp Require Import base strings list.
From Stdlib Require Import ZArith Lia Ascii.
From S2P Require Import Prelude GoStrings GuestIdentity Auth Net Db Json Demo Triggers StoreAccess StoreSession StoreConn StoreLease StoreAgent StoreNative StoreGateway StoreNativeProofs StoreAgentProofs Computer Guest GuestAccount GuestSession ComputerWire GuestTransport GuestSessionProofs GuestTransportProofs GuestConfirmed StoreAudit Pve Controller ControllerScripts ControllerNative ControllerAgent ControllerRules ControllerFacts ControllerLogic ControllerNativeProofs ControllerAgentProofs ControllerMaintenance ControllerHttp.

Local Open Scope string_scope.
Local Open Scope list_scope.
Local Open Scope Z_scope.

Section http_proofs.
Context `{Sha256} `{Collation} `{UnicodeLower} (has_input : bool) (legacy_revoker : string) (state_ok : DB -> Prop) (has_computer : bool) (background : bytes).
Context (lhome : string -> Z) (Hlease : forall s, state_ok s -> leased lhome s) (q : http_request).
Notation safe := (safe has_input legacy_revoker state_ok).
Notation between := (between has_input legacy_revoker state_ok).

(** ** Small steps *)
Lemma safe_reply {A} tr (p : ctl A) status code (Q : A -> list happened -> Prop) : safe tr p Q -> safe tr (reply_on p status code) Q.
Proof.
  intros Hp. unfold reply_on.
  eapply (safe_bind _ _ _ _ _ _ (fun r tr' => match r with inl _ => True | inr a => Q a tr' end)); [by eapply safe_ctry; [exact Hp | auto | auto] |].
  intros [e | a] t _ Hr; [apply safe_fail | by apply safe_ret].
Qed.

Lemma safe_auditing tr q0 actor event ttype target detail : safe tr (auditRequest q0 actor event ttype target detail) (fun _ _ => True).
Proof. unfold auditRequest. eapply safe_ignore. by apply safe_any_store. Qed.

Lemma safe_then_fail {A} tr (p : ctl unit) e (Q : A -> list happened -> Prop) : safe tr p (fun _ _ => True) -> safe tr (p;; cfail e) Q.
Proof. intros Hp. eapply safe_bind; [exact Hp |]. intros. apply safe_fail. Qed.

Lemma safe_denied {A} tr lease operation reason extra e (Q : A -> list happened -> Prop) : safe tr (denied q lease operation reason extra e) Q.
Proof. apply safe_then_fail, safe_auditing. Qed.

Lemma safe_failed {A} tr lease operation reason e (Q : A -> list happened -> Prop) : safe tr (failed q lease operation reason e) Q.
Proof. apply safe_then_fail, safe_auditing. Qed.

Lemma safe_inventory tr : safe tr desktopInventory (fun _ _ => True).
Proof.
  unfold desktopInventory. eapply safe_bind; [by apply (safe_pve _ _ _ _ _ (fun _ _ => True)) |]. intros machines t _ _.
  eapply safe_bind; [by apply safe_any_store |]. intros. by apply safe_ret.
Qed.

Lemma safe_machine tr vmid : safe tr (managedVirtualMachine vmid) (fun m _ => vm_id m = vmid).
Proof.
  unfold managedVirtualMachine. eapply safe_bind; [apply safe_inventory |]. intros machines t _ _.
  destruct (List.find _ (sm_vms machines)) as [m |] eqn:E; [| apply safe_fail]. apply safe_ret. apply find_some in E as [_ E]. b2p. tauto.
Qed.

(** ** The lease of a request *)

(** These events read the lease of the request as active and of its agent, and
    found that the agent has access to the desktop. *)
Definition lease_authorized (lease : DesktopLease) (events : list happened) : Prop :=
  exists vmid cx s f cx' s' f',
    In (HStore (OpLease (rq_path_id q)) cx s f) events /\ store_answer (OpLease (rq_path_id q)) cx s f = inr lease /\
    l_agent_id lease = TrimSpace (rq_agent_id q) /\ l_state lease = LActive /\ Atoi (l_desktop_id lease) = Some vmid /\
    In (HStore (OpAgentCanAccess (l_agent_id lease) vmid) cx' s' f') events /\ store_answer (OpAgentCanAccess (l_agent_id lease) vmid) cx' s' f' = inr true.

(** A lease as the API handed it out. *)
Definition at_its_desktop (lease : DesktopLease) : Prop :=
  l_id lease = rq_path_id q /\ forall vmid, Atoi (l_desktop_id lease) = Some vmid -> vmid = lhome (rq_path_id q).

Lemma requireAgentLease_safe tr : safe tr (requireAgentLease q)
  (fun lease tr' => at_its_desktop lease /\ exists new, tr' = new ++ tr /\ lease_authorized lease new).
Proof.
  unfold requireAgentLease.
  eapply (safe_bind _ _ _ _ _ _ (fun lease tr' => at_its_desktop lease /\
    exists cx s f, tr' = HStore (OpLease (rq_path_id q)) cx s f :: tr /\ store_answer (OpLease (rq_path_id q)) cx s f = inr lease)).
  { apply safe_reply, safe_store; [done |]. intros cx s f l Hs Hl. split; [by eapply lease_answer; [apply Hlease |] | by exists cx, s, f]. }
  intros lease t _ (Hd & cx & s & f & -> & Hl).
  apply safe_guard. intros Ha. apply bool_decide_eq_true in Ha. apply safe_guard. intros Hst. apply bool_decide_eq_true in Hst.
  eapply (safe_bind _ _ _ _ _ _ (fun vmid t => t = _ :: tr /\ Atoi (l_desktop_id lease) = Some vmid)); [apply safe_some; intros vmid Hv; by split |].
  intros vmid t _ [-> Hv].
  eapply (safe_bind _ _ _ _ _ _ (fun ok t => exists cx' s' f', t = HStore (OpAgentCanAccess (l_agent_id lease) vmid) cx' s' f' :: HStore (OpLease (rq_path_id q)) cx s f :: tr /\
    store_answer (OpAgentCanAccess (l_agent_id lease) vmid) cx' s' f' = inr ok)).
  { apply safe_reply. rewrite <- Ha. apply safe_store; [done |]. intros cx' s' f' ok _ Hok. by exists cx', s', f'. }
  intros ok t _ (cx' & s' & f' & -> & Hok). apply safe_guard. intros ->. apply safe_ret. split; [done |].
  exists [HStore (OpAgentCanAccess (l_agent_id lease) vmid) cx' s' f'; HStore (OpLease (rq_path_id q)) cx s f]. split; [done |].
  exists vmid, cx, s, f, cx', s', f'. split_and!; try done; [by right; left | by left].
Qed.

(** ** Actions *)
Lemma followed_app p r new l : followed p r l = true -> followed p r (new ++ l) = true.
Proof. intros Hf. induction new as [| e new IH]; simpl; [done |]. by rewrite IH, orb_true_r. Qed.

Lemma followed_mono p r tr tr' : extends tr tr' -> followed p r (section tr) = true -> followed p r (section tr') = true.
Proof. intros E Hf. destruct (section_extends _ _ E) as [_ [new ->]]. by apply followed_app. Qed.

Lemma action_lease_safe tr : safe tr (action_lease q) (fun lease _ => at_its_desktop lease).
Proof.
  unfold action_lease. eapply (safe_bind _ _ _ _ _ _ (fun r _ => match r with inl _ => True | inr lease => at_its_desktop lease end)).
  - eapply safe_ctry; [apply requireAgentLease_safe | | done]. by intros lease t _ [? _].
  - intros [e | lease] t _ Hr; [apply safe_then_fail, safe_auditing | by apply safe_ret].
Qed.

Lemma checked_action_safe tr lease body : safe tr (checked_action has_computer q lease body)
  (fun ia _ => LeaseID (snd ia) = l_id lease /\ ControlEpoch (snd ia) = l_control_epoch lease).
Proof.
  destruct body as [op | input]; [apply safe_denied |]. unfold checked_action.
  destruct (negb (bool_decide _)); [apply safe_denied |]. destruct (negb has_computer); [apply safe_denied |]. destruct (_ || _); [apply safe_denied |].
  eapply (safe_bind _ _ _ _ _ _ (fun _ _ => True)); [by eapply safe_ctry; [by apply (safe_random _ _ _ _ _ (fun _ _ => True)) | |] |].
  intros [e | token] t _ _; [apply safe_failed |]. eapply safe_bind; [apply safe_any_now |]. intros now t' _ _.
  eapply safe_bind; [apply safe_any_now |]. intros now' t'' _ _. destruct (Validate _ _); [by apply safe_ret | apply safe_denied].
Qed.

Lemma action_machine_safe tr lease operation : at_its_desktop lease -> safe tr (action_machine q lease operation) (fun m _ => vm_id m = lhome (rq_path_id q)).
Proof.
  intros [_ Hd]. unfold action_machine. destruct (Atoi (l_desktop_id lease)) as [vmid |] eqn:E; [| apply safe_denied].
  eapply (safe_bind _ _ _ _ _ _ (fun r _ => match r with inl _ => True | inr m => vm_id m = vmid end)); [by eapply safe_ctry; [apply safe_machine | |] |].
  intros [e | m] t _ Hm; [apply safe_denied |]. destruct (bool_decide _); [| apply safe_denied]. apply safe_ret. rewrite Hm. by apply Hd.
Qed.

(** The session is active for the lease, and the lease was read as active
    after that. *)
Definition session_open (m : VM) (target : SessionTarget) (leaseID : string) (epoch : Z) (tr : list happened) : Prop :=
  followed (activated (vm_id m) target leaseID epoch) (lease_active leaseID epoch) (section tr) = true.

Lemma authorize_action_safe tr m lease operation : 0 < vm_id m -> holds_lock tr (vm_id m) = true -> at_its_desktop lease -> vm_id m = lhome (rq_path_id q) ->
  safe tr (authorize_action has_computer background q m lease operation) (fun target tr' => session_open m target (l_id lease) (l_control_epoch lease) tr').
Proof.
  intros Hpos Hl [Hid _] Hm. unfold authorize_action.
  eapply (safe_bind _ _ _ _ _ _ (fun _ _ => True)); [by eapply safe_ctry; [apply requireAgentLease_safe | |] |].
  intros [e | current] t E _; [apply safe_denied |]. carry E. apply safe_guard. intros _.
  eapply safe_bind; [by apply safe_reply, synchronizeComputerRevocation_safe |]. intros [] t' E _. carry E.
  eapply (safe_bind _ _ _ _ _ _ (fun r tr' => match r with inl _ => True | inr target => proved (activated (vm_id m) target (l_id lease) (l_control_epoch lease)) tr' = true end)).
  { eapply safe_ctry; [apply (prepareAgentGuestSession_safe _ _ _ _ _ lhome Hlease); [done | congruence] | done | done]. }
  intros [e | target] t E Hact; [apply safe_failed |]. carry E.
  eapply (safe_bind _ _ _ _ _ _ (fun r tr' => match r with inl _ => True | inr l => l_state l = LActive -> l_control_epoch l = l_control_epoch lease ->
     session_open m target (l_id lease) (l_control_epoch lease) tr' end)).
  { eapply (safe_ctry _ _ _ _ _ (fun l tr' => l_state l = LActive -> l_control_epoch l = l_control_epoch lease ->
      session_open m target (l_id lease) (l_control_epoch lease) tr')); [apply safe_store; [done |] | done | done].
    intros cx s f l _ El Hs He. unfold session_open. cbn -[store_answer]. rewrite El, He, Hs, Z.eqb_refl, !bool_decide_true by done. cbn.
    unfold proved in Hact. by rewrite Hact. }
  intros [e | l] t' E Hopen; [apply safe_denied |]. carry E.
  destruct (bool_decide (l_state l = LActive) && (l_control_epoch l =? l_control_epoch lease)) eqn:Hok.
  - apply andb_true_iff in Hok as [Hs He]. apply bool_decide_eq_true in Hs. apply Z.eqb_eq in He. apply safe_ret. by apply Hopen.
  - eapply safe_bind; [by eapply safe_ignore, synchronizeComputerRevocation_safe |]. intros. apply safe_denied.
Qed.

(** A response that was returned: dispatched with the session open, and the
    lease and the access read afterwards. *)
Definition action_returned (resp : Response) (tr : list happened) : Prop :=
  exists m target action timeout ev after before, tr = after ++ HGuest m (GAction target action timeout) (inr resp) ev :: before /\
    LeaseID action = rq_path_id q /\ holds_lock before (vm_id m) = true /\
    session_open m target (LeaseID action) (ControlEpoch action) before /\ exists lease, lease_authorized lease after.

Lemma dispatch_action_safe tr m lease input action target : holds_lock tr (vm_id m) = true ->
  LeaseID action = rq_path_id q -> session_open m target (LeaseID action) (ControlEpoch action) tr ->
  safe tr (dispatch_action q m lease input action target) (fun resp tr' => action_returned resp tr').
Proof.
  intros Hl Hid Ho. unfold dispatch_action. eapply safe_bind; [apply safe_any_now |]. intros now t E _. apply (followed_mono _ _ _ _ E) in Ho. carry E.
  set (request := with_expiry action _). set (timeout := action_timeout input * millisecond).
  eapply (safe_bind _ _ _ _ _ _ (fun r tr' => match r with inl _ => True | inr resp => exists ev, tr' = HGuest m (GAction target request timeout) (inr resp) ev :: t end)).
  { eapply (safe_ctry _ _ _ _ _ (fun resp tr' => exists ev, tr' = HGuest m (GAction target request timeout) (inr resp) ev :: t)); [| done | done].
    apply safe_guest; [done | exact Ho |]. intros resp ev. by exists ev. }
  intros [e | resp] t1 _ Hr; [apply safe_then_fail, safe_auditing |]. destruct Hr as [ev ->].
  eapply (safe_bind _ _ _ _ _ _ (fun r tr' => match r with inl _ => True | inr lease => exists new, tr' = new ++ _ :: t /\ lease_authorized lease new end)).
  { eapply safe_ctry; [apply requireAgentLease_safe | by intros l t' _ [_ Hn] | done]. }
  intros [e | still] t2 _ Hs; [apply safe_denied |]. destruct Hs as (new & -> & Ha).
  eapply (safe_bind _ _ _ _ _ _ (fun _ _ => True)); [apply safe_auditing |].
  intros [] t3 E _. apply safe_ret. destruct E as (more & -> & _). exists m, target, request, timeout, ev, (more ++ new), t.
  split_and!; [by rewrite <- app_assoc | done.. |]. exists still. destruct Ha as (v & a1 & a2 & a3 & a4 & a5 & a6 & Hi1 & H1' & H2' & H3' & H4' & Hi2 & H5').
  exists v, a1, a2, a3, a4, a5, a6. split_and!; try done; apply in_or_app; by right.
Qed.

(** [with_control_lock] takes the lock or replies. *)
Lemma between_control {A} vmid busy (p : ctl A) (Q : A -> list happened -> Prop) :
  (forall tr, 0 < vmid -> holds_lock tr vmid = true -> safe tr p Q) ->
  between (with_control_lock vmid busy p) (fun a tr => exists tr', tr = HUnlock vmid :: tr' /\ Q a tr').
Proof.
  intros Hp. unfold with_control_lock. apply between_lock; [| done]. intros tr R Hh He Ha. apply cwp_bind, cwp_ctry.
  apply acquire_cwp; [done | |]; [intros e tr' Hn; by apply He | done].
Qed.

Lemma between_action body : between (agentComputerAction has_computer background q body)
  (fun resp tr => exists vmid tr', tr = HUnlock vmid :: tr' /\ action_returned resp tr').
Proof.
  unfold agentComputerAction. apply (between_bind _ _ _ _ _ at_its_desktop); [apply between_safe; intros; apply action_lease_safe |].
  intros lease Hd. apply (between_bind _ _ _ _ _ (fun ia => LeaseID (snd ia) = l_id lease /\ ControlEpoch (snd ia) = l_control_epoch lease));
    [apply between_safe; intros; apply checked_action_safe |].
  intros [input action] [Hid He]. cbn [fst snd] in *.
  apply (between_bind _ _ _ _ _ (fun m => vm_id m = lhome (rq_path_id q))); [apply between_safe; intros; by apply action_machine_safe |].
  intros m Hm. eapply between_mono; [| apply (between_control _ _ _ action_returned)]; [by intros resp tr (tr' & -> & Hr); exists (vm_id m), tr' |].
  intros tr Hpos Hl.
  eapply safe_bind; [by apply authorize_action_safe |]. intros target t E Ho. carry E. destruct Hd as [Hd _].
  apply dispatch_action_safe; [done | congruence |]. by rewrite Hid, He.
Qed.

(** A lease that is released is told to its machine before the reply. *)
Lemma tell_machine_safe tr desktopID : (forall vmid, Atoi desktopID = Some vmid -> 0 < vmid /\ holds_lock tr vmid = true) ->
  safe tr (tell_machine has_computer desktopID) (fun _ _ => True).
Proof.
  intros Hl. unfold tell_machine. destruct (Atoi desktopID) as [vmid |]; [| by apply safe_ret]. destruct (Hl vmid eq_refl) as [Hpos Hh].
  eapply (safe_bind _ _ _ _ _ _ (fun r _ => match r with inl _ => True | inr m => vm_id m = vmid end)); [by eapply safe_ctry; [apply safe_machine | |] |].
  intros [e | m] t E Hm; [by apply safe_ret |]. carry E. subst vmid. destruct (bool_decide _); [| by apply safe_ret].
  by eapply safe_ignore, synchronizeComputerRevocation_safe.
Qed.

Lemma between_release : between (releaseAgentDesktopLease has_computer q) (fun _ _ => True).
Proof.
  unfold releaseAgentDesktopLease. apply (between_bind _ _ _ _ _ at_its_desktop).
  { apply between_safe. intros tr. eapply safe_mono; [| apply requireAgentLease_safe]. by intros l t _ [? _]. }
  intros lease [Hid Hd]. apply (between_bind _ _ _ _ _ (fun vmid => vmid = lhome (rq_path_id q))); [apply between_safe; intros tr; by apply safe_some |].
  intros vmid ->. eapply between_mono; [| apply (between_control _ _ _ (fun _ _ => True))]; [done |]. intros tr Hpos Hl.
  eapply safe_bind; [apply requireAgentLease_safe |]. intros current t E [[Hid' _] _]. carry E.
  eapply (safe_bind _ _ _ _ _ _ (fun l _ => forall vmid, Atoi (l_desktop_id l) = Some vmid -> vmid = lhome (rq_path_id q))).
  { apply safe_reply, safe_store; [done |]. intros cx s f l Hs Hr. rewrite <- Hid'. eapply release_answer; [by apply Hlease | exact Hr]. }
  intros released t' E Hr. carry E. eapply safe_bind; [apply tell_machine_safe; intros vmid Hv; by rewrite (Hr vmid Hv) |].
  intros [] t E _. carry E. eapply safe_bind; [apply safe_auditing |]. intros. by apply safe_ret.
Qed.

Lemma between_create_lease body : between (createAgentDesktopLease q body) (fun _ _ => True).
Proof.
  unfold createAgentDesktopLease. apply (between_bind _ _ _ _ _ (fun _ => True)); [apply between_safe; intros; by apply safe_some |]. intros r _.
  apply (between_bind _ _ _ _ _ (fun _ => True)); [apply between_safe; intros; by apply safe_ensure |]. intros _ _.
  apply (between_bind _ _ _ _ _ (fun _ => True)); [apply between_safe; intros; by apply safe_ensure |]. intros _ _.
  apply (between_bind _ _ _ _ _ (fun _ => True)); [apply between_safe; intros; by apply safe_reply, safe_any_store |]. intros allowed _.
  apply (between_bind _ _ _ _ _ (fun _ => True)).
  { apply between_safe. intros tr. destruct allowed; [by apply safe_ret | apply safe_then_fail, safe_auditing]. }
  intros _ _. apply (between_bind _ _ _ _ _ (fun _ => True)).
  { apply between_safe. intros tr. eapply safe_mono; [| apply safe_reply, safe_machine]. done. }
  intros _ _. apply (between_bind _ _ _ _ _ (fun _ => True)); [apply between_safe; intros; apply safe_reply; by apply safe_random |]. intros token _.
  eapply between_mono; [| apply (between_control _ _ _ (fun _ _ => True))]; [done |]. intros tr _ Hl.
  eapply safe_bind; [apply safe_any_now |]. intros now t _ _.
  eapply (safe_bind _ _ _ _ _ _ (fun _ _ => True)); [by eapply safe_ctry; [by apply safe_any_store | |] |].
  intros [e | lease] t' _ _; [apply safe_fail |]. eapply safe_bind; [apply safe_auditing |]. intros. by apply safe_ret.
Qed.
End http_proofs.

(** * What the API guarantees

    The claims about the handlers, and a deployment on which they run. *)

Section claims.
Context `{Sha256} `{Collation} `{UnicodeLower} {W : Type} (has_input : bool) (legacy_revoker : string) (has_computer : bool) (background : bytes).
Context (lhome : string -> Z) (q : http_request).

(** (C13) An action of an agent, against any database whose leases keep their
    desktop and any Guest: the handler follows the rules and leaves no lock
    behind, and it returns a response only if that response answers the
    request of the lease in the Guest, dispatched under the lock of the desktop
    after the session was activated for that lease and epoch and the lease was
    read as active once more, and if after the dispatch the lease was again
    active and of this agent and the agent still had access to the desktop. *)
Theorem agent_action_authorized (w : world W) body st r st' tr
    (Hok : world_ok (leased lhome) w)
    (Hrun : run_ctl has_input legacy_revoker w (agentComputerAction has_computer background q body) st [] = (r, st', tr)) :
  lawful permitted tr /\ held tr = None /\
  match r with
  | inl _ => True
  | inr resp => exists m target action timeout ev after before, tr = after ++ HGuest m (GAction target action timeout) (inr resp) ev :: before /\
      LeaseID action = rq_path_id q /\ action_run target action timeout (inr resp) ev /\
      held before = Some (vm_id m) /\ session_open m target (LeaseID action) (ControlEpoch action) before /\
      exists lease, lease_authorized q lease after
  end.
Proof.
  destruct (cwp_run has_input legacy_revoker permitted (leased lhome) w _ st _ r st' tr Hok
    (between_action has_input legacy_revoker (leased lhome) has_computer background lhome (fun s Hs => Hs) q body [] eq_refl) Hrun) as (Hl & Hh & Hr).
  pose proof (run_ctl_genuine has_input legacy_revoker _ _ _ _ _ _ _ Hrun (Forall_nil_2 _)) as Hg.
  split_and!; [done.. |]. destruct r as [e | resp]; [done |]. destruct Hr as (vmid & tr' & -> & m & target & action & timeout & ev & after & before & -> & Hid & Hb & Ho & Ha).
  exists m, target, action, timeout, ev, (HUnlock vmid :: after), before. split_and!; try done.
  - inversion_clear Hg as [| ? ? _ Hg1]. apply Forall_app in Hg1 as [_ Hg1]. inversion_clear Hg1 as [| ? ? Hp _]. destruct Hp as (S & e & s & s' & Hp).
    exact (proj1 (spec_run _ _ _ _ _ _ _ (ExecuteForSession_spec target action timeout) Hp)).
  - by apply bool_decide_eq_true in Hb.
  - destruct Ha as (lease & v & a1 & a2 & a3 & a4 & a5 & a6 & Hi1 & E1 & E2 & E3 & E4 & Hi2 & E5). exists lease, v, a1, a2, a3, a4, a5, a6.
    split_and!; try done; by right.
Qed.
End claims.

(** ** A deployment with an agent at work *)
Section witnesses.
#[local] Existing Instance demo_sha.
#[local] Existing Instance demo_collation.
#[local] Existing Instance demo_lower.

Definition work_instance : string := String.string_of_list_ascii (repeat "a"%char 64).
Definition work_session : AgentGuestSession :=
  MkAgentGuestSession 102 "ag1" (AgentGuestUsername "ag1") "linux" "lease_1" 1 1 1 GReady 2001 "" "linux:2001:42::0" work_instance hour 0.
Definition work_db : DB := demo_db
  <| desktop_leases := [MkDesktopLease "lease_1" "ag1" "102" LActive 1 hour 0 0]; agent_guest_sessions := [work_session];
     desktop_access_policies := [MkDesktopAccessPolicy 102 "standard" true false true 1 1 PolApplied "linux" "" None 0] |>.

Definition work_target : json :=
  JObj [("schema_version", JNum "2"); ("authority_transport", JStr authorityTransport); ("target", target_json (session_target work_session))].
Definition work_account : json :=
  JObj [("schema_version", JNum "1"); ("username", JStr (s_guest_username work_session)); ("identity", identity_json (LeaseIdentity (agentAccountLease work_session)));
    ("account", JObj [("exists", JBool true); ("disabled", JBool false); ("expiry_day", JNum "1")]); ("processes_absent", JBool false);
    ("login_writers_absent", JBool false); ("lifecycle", lease_receipt (lease_phase (agentAccountLease work_session) "sealed"))].
Definition work_response : json :=
  JObj [("schema_version", JNum "1"); ("request_id", JStr "action_QUFBQUFBQUFBQUFBQUFBQUFB"); ("ok", JBool true); ("input", JObj [("applied", JBool true)])].

Definition work_guest (vmid : Z) : environment nanos := MkEnvironment
  (fun s => (Some "l26", s))
  (fun cmd s => (match cmd with
                 | [_; "computer-v2-capabilities"] => answer true script_capabilities
                 | _ :: "computer-v2-session" :: _ => answer true work_target
                 | _ :: "computer-v2-account-inspect" :: _ => answer true work_account
                 | _ => answer true work_response
                 end, s))
  (fun _ _ s => (answer true JNull, s))
  (fun _ _ s => (None, s))
  (fun s => (s, s))
  (fun _ s => (None, s))
  (fun n s => (Some (byte_string (repeat 65 n)), s))
  (fun d s => (None, s + d)).

Definition leased_here (s : DB) : bool :=
  forallb (fun l => l_desktop_id l == "102") (desktop_leases s) && forallb (fun d => 0 <=? d_vmid d) (managed_desktops s).

Lemma leased_ok machines guest : world_ok (leased (fun _ => 102)) (deployment leased_here machines guest).
Proof.
  apply deployment_ok; [by split; intros x Hx; exfalso; exact Hx |]. intros s Hs. unfold leased_here in Hs. apply andb_true_iff in Hs as [Hl Hd].
  rewrite forallb_forall in Hl, Hd. split.
  - intros l Hin. specialize (Hl l Hin). apply bool_decide_eq_true in Hl. split; [done | lia].
  - intros d Hin. specialize (Hd d Hin). lia.
Qed.

Definition work_machines : list VM := [MkVM 102 "pve1" "qemu" "running" false false ["vc-workspace"] "d"].
Definition work_request : http_request := MkHttpRequest "ag1" "lease_1" "10.0.0.9" "vc-agent/1".
Definition work_body : string + computerActionRequest :=
  inr (MkComputerAction 1 "mouse" 0 None None (Some (MkMouse "move" 10 20 "" 0 0)) None None).

Definition work_run : (ctl_error + Response) * (DB * nanos) * list happened :=
  run_ctl true "revoker" (deployment leased_here work_machines work_guest) (agentComputerAction true "" work_request work_body) (work_db, 10 * second) [].

Lemma work_run_eq : run_ctl true "revoker" (deployment leased_here work_machines work_guest) (agentComputerAction true "" work_request work_body)
  (work_db, 10 * second) [] = (fst (fst work_run), snd (fst work_run), snd work_run).
Proof. unfold work_run. exact (run_eta _). Qed.

Lemma agent_action_authorized_witness : exists resp, fst (fst work_run) = inr resp /\ RespInput resp = Some true /\
  lawful permitted (snd work_run) /\ held (snd work_run) = None /\
  exists m target action timeout ev after before, snd work_run = after ++ HGuest m (GAction target action timeout) (inr resp) ev :: before /\
    LeaseID action = "lease_1" /\ held before = Some (vm_id m).
Proof.
  pose proof (agent_action_authorized true "revoker" true "" (fun _ => 102) work_request (deployment leased_here work_machines work_guest) work_body
    (work_db, 10 * second) (fst (fst work_run)) (snd (fst work_run)) (snd work_run) (leased_ok _ _) work_run_eq) as (Hl & Hh & Hr).
  destruct (fst (fst work_run)) as [e | resp] eqn:E; [vm_compute in E; discriminate E |].
  exists resp. split; [reflexivity |]. split; [vm_compute in E; injection E as <-; reflexivity |]. split; [exact Hl |]. split; [exact Hh |].
  destruct Hr as (m & target & action & timeout & ev & after & before & Ht & Hid & _ & Hb & _).
  exists m, target, action, timeout, ev, after, before. split; [exact Ht |]. split; [exact Hid | exact Hb].
Defined.
End witnesses.
