(* ===== verification/ControllerConnect.v ===== *)
(** * Opening a desktop for a person ([internal/httpapi/server.go])

    createNativeDesktopConnection and what it is made of: the readiness and
    the address of the Guest, its identity binding, its certificate, the scale
    of its display, and the section under the lock of the desktop in which the
    previous connections and all agents lose it before a new credential is
    issued.  The embedded scripts, the parser of certificates and the text of
    a time are parameters. *)
From stdpp Require Import base strings list.
From Stdlib Require Import ZArith Lia Ascii.
From S2P Require Import Prelude GoStrings Auth Net Db Json Triggers StoreAccess StoreConn StoreLease StoreAgent StoreNative StoreGateway GatewayTls GatewayTransport Computer Guest GuestAccount GuestSession ComputerWire GuestConfirmed StoreAudit Pve Controller ControllerScripts ControllerNative ControllerAgent ControllerHttp.

Local Open Scope string_scope.
Local Open Scope list_scope.
Local Open Scope Z_scope.

(** ** Addresses ([net/netip]) *)
Definition loopback4 (n : Z) : bool := v4 n 0 =? 127.
Definition link_local4 (n : Z) : bool := (v4 n 0 =? 169) && (v4 n 1 =? 254).
Definition multicast4 (n : Z) : bool := Z.land (v4 n 0) 240 =? 224.
Definition global_unicast4 (n : Z) : bool :=
  negb ((n =? 0) || (n =? 2 ^ 32 - 1)) && negb (loopback4 n) && negb (multicast4 n) && negb (link_local4 n).

(** The address of the desktop: the first private one, else the first global
    one.  Only dotted quads count. *)
Definition usable_ipv4 (s : string) : option Addr :=
  match parse_ipv4 s with
  | Some (V4 n) => if negb (global_unicast4 n) || loopback4 n || link_local4 n then None else Some (V4 n)
  | _ => None
  end.

Fixpoint first_ipv4 (fallback : string) (addresses : list string) : string :=
  match addresses with
  | [] => fallback
  | item :: rest =>
      match usable_ipv4 item with
      | None => first_ipv4 fallback rest
      | Some a => if IsPrivate a then AddrString a else first_ipv4 (if fallback == "" then AddrString a else fallback) rest
      end
  end.
Definition desktopIPv4 (interfaces : list (list string)) : string := first_ipv4 "" (List.concat interfaces).

(** ** The Guest is ready *)
Definition desktopReadyPaths : list string :=
  ["/var/lib/vc-workspace/desktop-ready"; "/var/lib/vc-vdi/desktop-ready"; "C:\ProgramData\VC Workspace\Agent\desktop-ready";
   "C:\ProgramData\VC VDI\Agent\desktop-ready"].

Fixpoint ready_at (m : VM) (paths : list string) (last : ctl_error) : ctl unit :=
  match paths with
  | [] => cfail last
  | path :: rest =>
      r ← ctry (pve_ (PReadFile m path 64));
      match r with
      | inr content => if TrimSpace content == "ready" then mret tt else ready_at m rest EOther
      | inl e => ready_at m rest e
      end
  end.
Definition readDesktopReady (m : VM) : ctl unit := ready_at m desktopReadyPaths EOther.

(** ** The policy a client is shown *)
Record nativeSessionPolicy : Set := MkSessionPolicy {
  sp_version : Z;
  sp_revision : Z;
  sp_clipboard_redirection : bool;
  sp_drive_redirection : bool;
  sp_managed_background : bool;
  sp_hash : string
}.

Definition nativeSessionPolicySnapshot `{Sha256} (p : AccessPolicy) : nativeSessionPolicy :=
  let canonical := json_print (JObj [("version", number 1); ("revision", number (AppliedRevision p)); ("clipboard_redirection", JBool (ClipboardRedirection p));
    ("drive_redirection", JBool (DriveRedirection p)); ("managed_background", JBool (ManagedBackground p))]) in
  MkSessionPolicy 1 (AppliedRevision p) (ClipboardRedirection p) (DriveRedirection p) (ManagedBackground p) ("sha256:" +:+ hex_encode (sha256 canonical)).

(** ** The certificate of the RDP listener ([guestdesktop/rdp_certificate.go]) *)
Record RdpCertificate : Set := MkRdpCertificate {
  rc_not_before : nanos;
  rc_not_after : nanos;
  rc_unhandled_critical : nat;
  rc_is_ca : bool;
  rc_key_usage : Z;
  rc_ext_key_usage : list ExtKeyUsage;
  rc_unknown_ext_key_usage : nat
}.

(** [x509.ParseCertificate], of which the code reads these fields. *)
Class RdpX509 := parse_rdp_certificate : bytes -> option RdpCertificate.

(** [base64.StdEncoding.Strict()] followed by the comparison with the canonical
    encoding: padding and alphabet must be exact. *)
Definition strip_padding (s : string) : string :=
  if has_suffix "==" s then str_take (String.length s - 2) s else if has_suffix "=" s then str_take (String.length s - 1) s else s.
Definition decode_canonical (raw : string) : option bytes :=
  der ← b64_decode StdAlphabet true (strip_padding raw);
  if (slen der =? 0) || (b64_padded der != raw) then None else Some der.

Definition server_usage (c : RdpCertificate) : bool :=
  ((length (rc_ext_key_usage c) =? 0)%nat && (rc_unknown_ext_key_usage c =? 0)%nat) ||
  existsb (fun usage => (usage == UsageServerAuth) || (usage == UsageAny)) (rc_ext_key_usage c).

Definition newline_text : string := String "010" "".

Definition parseRDPCertificate `{Sha256} `{RdpX509} (raw : string) (now : nanos) : option bytes :=
  if 16385 <? slen raw then None else
  let raw := if has_suffix newline_text raw then str_take (String.length raw - 1) raw else raw in
  der ← decode_canonical raw;
  c ← parse_rdp_certificate der;
  if (now <? rc_not_before c) || negb (now + 30 * second <? rc_not_after c) || negb (rc_unhandled_critical c =? 0)%nat || rc_is_ca c ||
     ((rc_key_usage c != 0) && (Z.land (rc_key_usage c) 1 =? 0)) || negb (server_usage c) then None
  else Some (sha256 der).

Section connect.
Context `{Sha256} `{UnicodeLower} `{RdpX509} (has_computer : bool) (background : bytes) (layout probe : bytes) (format_time : time -> string).
Context (nativeGateway : option BrokerRoute).

Definition RDPCertificate (m : VM) (osFamily : string) : ctl bytes :=
  censure (negb ((osFamily != "linux") || (vm_node m == "") || (vm_id m <=? 0))) unavailable;;
  r ← guest_ m (GExec ["/usr/bin/python3"; "-I"; "-c"; probe]);
  ended ← ccontext;
  match r, ended with
  | inr result, None =>
      censure ((ExitCode result =? 0) && (Stderr result == "")) unavailable;;
      now ← cnow;
      csome (parseRDPCertificate (Stdout result) now) unavailable
  | _, _ => cfail unavailable
  end.

(** ** Scale *)
Definition applyRequestedDesktopScale (m : VM) (username raw : string) : ctl unit :=
  if TrimSpace raw == "" then mret tt else
  match Atoi raw with
  | None => cfail EOther
  | Some scale =>
      censure ((scale =? 100) || (scale =? 200)) EOther;;
      os ← configuration_ m;
      if os != "l26" then mret tt else
      censure (guestUsernamePattern username) EOther;;
      exec_guest m ["/bin/sh"; "-c"; scale_script layout username scale]
  end.

(** ** Identity *)
Definition managedGuestUsername (userID : string) : string := NativeGuestUsername userID.

Definition put_binding (b : GuestIdentityBinding) (state : binding_state) (lastError : string) : ctl GuestIdentityBinding :=
  store_ (OpPutBinding (b_desktop_vmid b) (b_user_id b) (coalesce (b_profile_id b)) (b_guest_username b) (Some state) lastError).

(** Windows: the account is made by a command. *)
Definition provision_windows (m : VM) (osFamily username : string) (b : GuestIdentityBinding) : ctl GuestIdentityBinding :=
  command ← csome (ensureGuestUserCommand osFamily username) EOther;
  r ← guest_ m (GExec command);
  match r with
  | inl f =>
      cignore (put_binding b BFailed "Guest Agent could not provision the account");;
      cfail (EPve f)
  | inr result =>
      if ExitCode result =? 0 then put_binding b BReady ""
      else
        cignore (put_binding b BFailed "Guest account provisioning failed");;
        cfail EOther
  end.

Definition ensureManagedGuestIdentity (m : VM) (userID : string) : ctl GuestIdentityBinding :=
  desktop ← store_ (OpDesktop (vm_id m));
  os ← configuration_ m;
  let osFamily := desktopOSFamily os in
  censure (osFamily == OSFamily desktop) unavailable;;
  let profileID := if IdentityProfileID desktop == "" then "managed-local-" +:+ osFamily else IdentityProfileID desktop in
  profile ← store_ (OpIdentityProfile profileID);
  censure (p_enabled profile && (p_mode profile == "managed_local") && (p_platform profile == osFamily)) EOther;;
  let username := managedGuestUsername userID in
  b ← store_ (OpPutBinding (vm_id m) userID (p_id profile) username (Some BProvisioning) "");
  if osFamily == "linux" then
    censure has_computer unavailable;;
    guest_ m (GPrepareNative username);;
    put_binding b BReady ""
  else provision_windows m osFamily username b.

(** ** The section under the lock *)
Record connect_request : Set := MkConnectRequest {
  cr_vmid : string;                  (* PathValue vmid *)
  cr_transports : list string;       (* the values of X-VC-Workspace-Transport *)
  cr_scale : string;                 (* X-VC-Workspace-Desktop-Scale *)
  cr_token : string
}.

Definition may_enter (m : VM) (userID : string) (digest : bytes) : ctl DesktopInfo :=
  store_ (OpNativeSession digest);;
  allowed ← store_ (OpUserCanAccess userID (vm_id m));
  censure allowed (EStore ErrNotFound);;
  desktop ← store_ (OpDesktop (vm_id m));
  censure ((OSFamily desktop == "linux") || (OSFamily desktop == "windows")) unavailable;;
  censure (match nativeGateway with Some _ => OSFamily desktop == "linux" | None => true end) unavailable;;
  (if OSFamily desktop == "linux" then censure has_computer unavailable;; guest_ m GCheckNative else mret tt);;
  mret desktop.

(** Everything older than this connection is closed. *)
Definition close_previous (m : VM) : ctl unit :=
  recoverNativeAccountsForDesktop has_computer (vm_id m);;
  revokeGuestIdentitiesForDesktop has_computer (vm_id m);;
  previous ← store_ (OpBeginRevokeConnections (vm_id m));
  cfor previous (fun c => revokeDesktopConnectionCredential has_computer (c_id c)).

(** The stable account on Linux; on Windows there must be none. *)
Definition account_for (m : VM) (desktop : DesktopInfo) (userID : string) (digest : bytes) : ctl (option NativeGuestAccount) :=
  if OSFamily desktop == "linux" then
    a ← bindNativeGuestAccount has_computer m userID digest;
    mret (Some a)
  else
    r ← ctry (store_ (OpNativeAccount (vm_id m) userID));
    match r with
    | inl (EStore ErrNotFound) => mret None
    | _ => cfail unavailable
    end.

Record prepared : Set := MkPrepared {
  pr_desktop : DesktopInfo;
  pr_binding : GuestIdentityBinding;
  pr_account : option NativeGuestAccount;
  pr_policy : AccessPolicy;
  pr_certificate : bytes
}.

Definition prepare_connection (q : connect_request) (m : VM) (userID : string) : ctl prepared :=
  let digest := TokenDigest (cr_token q) in
  desktop ← may_enter m userID digest;
  close_previous m;;
  binding ← ensureManagedGuestIdentity m userID;
  account ← account_for m desktop userID digest;
  policy ← reconcileDesktopAccessPolicy background m;
  certificate ← (match nativeGateway with Some _ => RDPCertificate m (OSFamily desktop) | None => mret "" end);
  applyRequestedDesktopScale m (b_guest_username binding) (cr_scale q);;
  mret (MkPrepared desktop binding account policy certificate).

(** [ExpiresAt: time.Now().Add(8 * time.Hour)] *)
Definition eight_hours (now : nanos) : time := (now + 8 * 3600 * second) / 1000.

(** The credential: reserved and confirmed on Linux; on Windows the password is
    set before the account is enabled. *)
Definition issue_linux (m : VM) (host : string) (digest : bytes) (p : prepared) (a : NativeGuestAccount) : ctl issued :=
  match nativeGateway with
  | None => issueNativeGuestConnection has_computer m a digest None
  | Some route =>
      target ← csome (parse_ipv4 host) EOther;
      issueNativeGuestConnection has_computer m a digest
        (Some (MkTicketRequest "" "" (br_id route) target (pr_certificate p) (AppliedRevision (pr_policy p))))
  end.

Definition issue_windows (m : VM) (userID : string) (digest : bytes) (p : prepared) : ctl issued :=
  secret ← crandom 18;
  let password := "Vcw1!" +:+ OpaqueToken secret in
  let username := b_guest_username (pr_binding p) in
  pve_ (PSetPassword m username password);;
  enableGuestAccount (vm_node m) (vm_id m) username;;
  id ← crandom 18;
  now ← cnow;
  c ← store_ (OpCreateNativeConnection (MkConnectionRequest ("conn_" +:+ OpaqueToken id) userID (vm_id m) username (eight_hours now)) digest);
  mret (MkIssued (Some c) password None).

Definition issue_connection (m : VM) (userID host : string) (digest : bytes) (p : prepared) : ctl issued :=
  match pr_account p with
  | Some a => issue_linux m host digest p a
  | None => issue_windows m userID digest p
  end.

(** What the section leaves in the variables of the handler. *)
Record takeover : Type := MkTakeover {
  tk_revoked : list DesktopLease;
  tk_synchronized : bool;
  tk_outcome : ctl_error + (issued * AccessPolicy * bytes)
}.

Definition connect_section (q : connect_request) (m : VM) (userID host : string) : ctl takeover :=
  r ← ctry (prepare_connection q m userID);
  match r with
  | inl e => mret (MkTakeover [] true (inl e))
  | inr p =>
      revoked ← ctry (store_ (OpRevokeLeases (vm_id m)));
      match revoked with
      | inl e => mret (MkTakeover [] true (inl e))
      | inr leases =>
          synchronized ← ctry (synchronizeComputerRevocation has_computer m true);
          match synchronized with
          | inl e => mret (MkTakeover leases false (inl e))
          | inr _ =>
              outcome ← ctry (issue_connection m userID host (TokenDigest (cr_token q)) p);
              mret (MkTakeover leases true (match outcome with inl e => inl e | inr i => inr (i, pr_policy p, pr_certificate p) end))
          end
      end
  end.

(** ** The handler *)
Definition requireUserDesktopAccess (h : http_request) (userID : string) (vmid : Z) : ctl unit :=
  allowed ← reply_on (store_ (OpUserCanAccess userID vmid)) 500 "internal_error";
  if allowed : bool then mret tt else
    auditRequest h userID "desktop.access_denied" "virtual_machine" (itoa vmid) [("reason", text "not_assigned")];;
    cfail (EReply 404 "managed_vm_not_found").

Definition running_machine (vmid : Z) : ctl VM :=
  r ← ctry (managedVirtualMachine vmid);
  match r with
  | inl (EStore ErrNotFound) => cfail (EReply 404 "managed_vm_not_found")
  | inl _ => cfail (EReply 502 "pve_unavailable")
  | inr m => censure (vm_status m == "running") (EReply 409 "desktop_not_running");; mret m
  end.

Definition reachable_host (m : VM) : ctl string :=
  interfaces ← reply_on (pve_ (PInterfaces m)) 409 "desktop_not_ready";
  let host := desktopIPv4 interfaces in
  censure (host != "") (EReply 409 "desktop_network_unavailable");;
  (match nativeGateway with
   | None => mret tt
   | Some _ => censure (match parse_ipv4 host with Some target => Allows nativeGateway target | None => false end) (EReply 409 "desktop_gateway_unavailable")
   end);;
  reply_on (readDesktopReady m) 409 "desktop_not_ready";;
  mret host.

Record nativeGatewayConnection : Set := MkGatewayConnection {
  gc_url : string;
  gc_subprotocol : string;
  gc_ticket : string;
  gc_expires_at : time;
  gc_certificate_sha256 : string
}.
Definition nativeGatewayDescriptor (route : BrokerRoute) (ticket : NativeGatewayTicket) (certificate : bytes) : nativeGatewayConnection :=
  MkGatewayConnection (br_url route) TunnelSubprotocol (TicketToken ticket) (TicketExpiresAt ticket) (hex_encode certificate).

Record descriptor : Set := MkDescriptor {
  ds_connection : option DesktopConnectionSession;
  ds_protocol : string;
  ds_host : string;
  ds_password : string;
  ds_desktop_id : string;
  ds_policy : nativeSessionPolicy;
  ds_gateway : option nativeGatewayConnection
}.

Definition describe (m : VM) (host : string) (i : issued) (policy : AccessPolicy) (certificate : bytes) : descriptor :=
  let gateway := match nativeGateway, is_ticket i with
                 | Some route, Some ticket => Some (nativeGatewayDescriptor route ticket certificate)
                 | _, _ => None
                 end in
  MkDescriptor (is_connection i) (match gateway with Some _ => "rdp-gateway" | None => "rdp" end) host (is_password i) (itoa (vm_id m))
    (nativeSessionPolicySnapshot policy) gateway.

Definition takeover_detail (l : DesktopLease) (synchronized : bool) : list (string * json) :=
  lease_detail l ++ [("control_epoch", number (l_control_epoch l)); ("reason", text "human_takeover"); ("authority_synchronized", JBool synchronized)].

Definition created_detail (m : VM) (d : descriptor) (c : DesktopConnectionSession) : list (string * json) :=
  [("vmid", number (vm_id m)); ("protocol", text (ds_protocol d)); ("host", text (ds_host d)); ("guest_username", text (c_guest_username c));
   ("expires_at", text (format_time (c_expires_at c))); ("policy_revision", number (sp_revision (ds_policy d))); ("policy_hash", text (sp_hash (ds_policy d)))].

Definition createNativeDesktopConnection (h : http_request) (q : connect_request) (userID : string) : ctl descriptor :=
  vmid ← csome (Atoi (cr_vmid q)) (EReply 400 "invalid_desktop");
  censure (0 <? vmid) (EReply 400 "invalid_desktop");;
  requireUserDesktopAccess h userID vmid;;
  censure (match nativeGateway with Some _ => cr_transports q == [TunnelSubprotocol] | None => true end) (EReply 426 "gateway_client_required");;
  m ← running_machine vmid;
  host ← reachable_host m;
  r ← ctry (WithDesktopConnectionLock (vm_id m) (connect_section q m userID host));
  let t := match r with inl e => MkTakeover [] true (inl e) | inr t => t end in
  cfor (tk_revoked t) (fun l => auditRequest h userID "agent.desktop_lease_revoked" "desktop_lease" (l_id l) (takeover_detail l (tk_synchronized t)));;
  match tk_outcome t with
  | inl _ =>
      auditRequest h userID "native.desktop_connection_failed" "virtual_machine" (itoa (vm_id m))
        [("vmid", number (vm_id m)); ("reason", text "guest_identity_or_credential_unavailable")];;
      cfail (EReply 409 "desktop_identity_not_ready")
  | inr (i, policy, certificate) =>
      let d := describe m host i policy certificate in
      (match is_connection i with
       | Some c => auditRequest h userID "native.desktop_connection_created" "desktop_connection" (c_id c) (created_detail m d c)
       | None => mret tt
       end);;
      mret d
  end.
End connect.
