(* ===== verification/ControllerConnectProofs.v ===== *)
(** * Opening a desktop follows the rules

    A person gets a password only from a section of the lock of the desktop in
    which the login and the access of that person were read, and in which
    every agent had lost the desktop before the password was written. *)
From stdpp Require Import base strings list.
From Stdlib Require Import ZArith Lia Ascii.
From S2P Require Import Prelude GoStrings GuestIdentity Auth Net Db Json Demo Triggers StoreAccess StoreSession StoreConn StoreLease StoreAgent StoreNative StoreGateway StoreNativeProofs StoreAgentProofs GatewayTls GatewayTransport Computer Guest GuestAccount GuestSession ComputerWire GuestTransport GuestSessionProofs GuestConfirmed StoreAudit Pve Controller ControllerScripts ControllerNative ControllerAgent ControllerRules ControllerFacts ControllerLogic ControllerNativeProofs ControllerAgentProofs ControllerMaintenance ControllerHttp ControllerHttpProofs ControllerConnect.

Local Open Scope string_scope.
Local Open Scope list_scope.
Local Open Scope Z_scope.

(** * What the issue of a credential guarantees

    [issueNativeGuestConnection] event by event: a password leaves the control
    plane only after its reservation, its confirmed write in the Guest and the
    commit of the connection, and a failure after the reservation ends with
    the attempt to revoke what was reserved. *)
Section issue.
Context `{Sha256} `{Collation} `{UnicodeLower} (has_input : bool) (legacy_revoker : string) (has_computer : bool).
Notation cwp := (cwp has_input legacy_revoker (fun _ _ => true) (fun _ => True)).

(** The transaction that committed the connection, and what the caller gets. *)
Definition committed_as (b : NativeGuestAccount) (digest : bytes) (gateway : option NativeGatewayTicketRequest) (i : issued) (e : happened) : Prop :=
  exists cx s f,
  match gateway with
  | None => e = HStore (OpCompleteConnection b) cx s f /\ store_answer (OpCompleteConnection b) cx s f = inr (is_connection i) /\ is_ticket i = None
  | Some r => exists t,
      let q := OpCompleteGatewayConnection b
        (MkTicketRequest (a_connection_id b) digest (TicketGatewayID r) (TicketTarget r) (TicketCertificateSHA256 r) (TicketPolicyRevision r)) in
      e = HStore q cx s f /\ store_answer q cx s f = inr (is_connection i, t) /\ is_ticket i = Some t
  end.

(** The reservation [b] of an issue at the time [t], as the history has it. *)
Definition reservation (a b : NativeGuestAccount) (digest : bytes) (history : list happened) : Prop :=
  exists id secret t cx s f,
    let q := OpBeginNative a ("conn_" +:+ OpaqueToken id) (eight_hours_truncated t) digest in
    history = [HStore q cx s f; HNow t; HRandom (Some secret); HRandom (Some id)] /\ store_answer q cx s f = inr b.

(** The Guest took the password for [b] and showed the credential as issued,
    retained until its expiry. *)
Definition password_taken (b : NativeGuestAccount) (password : bytes) (ev : list exchange_event) : Prop :=
  let c := cred_phase (nativeCredential b) (wanted_phase "issue") in
  one_write (credential_argv (a_guest_username b)) (credential_input c "issue" password)
    (fun raw => parseNativeCredential raw "linux" = Some c) (fun (_ : unit) post => credential_confirmed c false post) (inr tt) ev.

Definition issue_granted (m : VM) (a : NativeGuestAccount) (digest : bytes) (gateway : option NativeGatewayTicketRequest) (i : issued) (tr : list happened) : Prop :=
  exists b e ev before, reservation a b digest before /\ committed_as b digest gateway i e /\ password_taken b (is_password i) ev /\
    tr = e :: HGuest m (GChangeNative (nativeCredential b) "issue" (is_password i)) (inr tt) ev :: before.

(** ** Failures *)

Definition still_reserved (b current : NativeGuestAccount) : bool :=
  (a_connection_id current == a_connection_id b) && (a_revision current == a_revision b) && (a_operation current == NIssue).

(** No reservation was acknowledged: none was asked for, or the one request
    for it was refused without any effect, or its answer was lost. *)
Definition reserve_event (e : happened) : Prop := exists a id t digest cx s f, e = HStore (OpBeginNative a id t digest) cx s f.
Definition never_reserved (tr : list happened) : Prop :=
  (forall e, In e tr -> ~ reserve_event e) \/
  exists a id t digest cx s f before, tr = HStore (OpBeginNative a id t digest) cx s f :: before /\
    (forall e, In e before -> ~ reserve_event e) /\
    (f = Answered -> store_after (OpBeginNative a id t digest) cx s f = s).

Section cleanup.
Context (b : NativeGuestAccount) (events : list happened).
Let read := OpNativeAccount (a_desktop_vmid b) (a_user_id b).

(** The account was read and carried the reservation, and its revocation is
    committed: at the next revision, without a login session and without an
    expiry, pending for the Guest. *)
Definition withdrawn : Prop :=
  exists current b' cx s f cx' s' f',
    events = [HStore (OpRevokeNative current) cx' s' f'; HStore read cx s f] /\ store_answer read cx s f = inr current /\
    still_reserved b current = true /\ store_answer (OpRevokeNative current) cx' s' f' = inr b' /\
    In b' (native_guest_accounts (store_after (OpRevokeNative current) cx' s' f')) /\ same_account_row current b' /\
    a_operation b' = NRevoke /\ a_state b' = NPending /\ a_revision b' = a_revision b + 1 /\
    a_expires_at b' = None /\ a_native_session_digest b' = None.

(** The account was read and carries something newer than the reservation. *)
Definition superseded : Prop :=
  exists current cx s f, events = [HStore read cx s f] /\ store_answer read cx s f = inr current /\ still_reserved b current = false.

(** The store refused the reading or the revocation, or did not answer. *)
Definition cleanup_stopped : Prop :=
  (exists e cx s f, events = [HStore read cx s f] /\ store_answer read cx s f = inl e) \/
  exists current e cx s f cx' s' f',
    events = [HStore (OpRevokeNative current) cx' s' f'; HStore read cx s f] /\ store_answer read cx s f = inr current /\
    still_reserved b current = true /\ store_answer (OpRevokeNative current) cx' s' f' = inl e.
End cleanup.

Definition issue_failed (a : NativeGuestAccount) (digest : bytes) (tr : list happened) : Prop :=
  never_reserved tr \/
  exists b cleanup work before, reservation a b digest before /\ tr = cleanup ++ work ++ before /\ (forall e, In e work -> ~ reserve_event e) /\
    (withdrawn b cleanup \/ superseded b cleanup \/ cleanup_stopped b cleanup).

(** What a committed revocation leaves. *)
Lemma revoke_committed current cx s f b' : store_answer (OpRevokeNative current) cx s f = inr b' ->
  In b' (native_guest_accounts (store_after (OpRevokeNative current) cx s f)) /\ same_account_row current b' /\
  a_operation b' = NRevoke /\ a_state b' = NPending /\ a_revision b' = a_revision current + 1 /\
  a_expires_at b' = None /\ a_native_session_digest b' = None.
Proof.
  intros E. pose proof (revoke_answer _ _ _ _ _ E) as (Hrow & Hop & Hst). destruct f; try discriminate E.
  cbn [store_answer] in E. destruct (perform (OpRevokeNative current) cx s) as [err | [x s']] eqn:Hp; [done |]. injection E as ->.
  cbn [store_after]. unfold run. rewrite Hp. cbn [snd]. cbn [perform] in Hp. unfold RevokeNativeGuestAccount in Hp. inv_tx.
  rename select (beginNativeGuestCleanup _ _ _ _ _ = _) into Hc. pose proof (cleanup_inr _ _ _ _ _ _ _ Hc) as (_ & _ & Hin & _).
  unfold beginNativeGuestCleanup in Hc. inv_tx.
  match goal with Hu : update_native_guest_accounts _ _ _ _ _ = inr (?l, _), Hh : head ?l = Some _ |- _ =>
    destruct (update_native_head _ _ _ _ _ _ _ _ Hu Hh) as (row & Hrow' & Hp & -> & _ & _) end.
  unfold cleanup_ready in Hp. b2p. destruct_and!. split_and!; try done. cbn. congruence.
Qed.

Lemma cleanup_spec a b digest work before : reservation a b digest before -> (forall e, In e work -> ~ reserve_event e) ->
  cwp (issue_cleanup b) (work ++ before) (fun _ tr => issue_failed a digest tr).
Proof.
  intros Hr Hw cx s f _. split; [done |]. set (read := OpNativeAccount (a_desktop_vmid b) (a_user_id b)).
  assert (forall cleanup, withdrawn b cleanup \/ superseded b cleanup \/ cleanup_stopped b cleanup -> issue_failed a digest (cleanup ++ work ++ before)) as Hdone.
  { intros cleanup Hc. right. by exists b, cleanup, work, before. }
  destruct (store_answer read cx s f) as [e | current] eqn:E; cbn [cwp].
  { apply (Hdone [HStore read cx s f]). right. right. left. by exists e, cx, s, f. }
  apply cwp_bind. cbn [cwp]. fold (still_reserved b current). destruct (still_reserved b current) eqn:Hs.
  2: { cbn [cwp mret ctl_ret]. apply (Hdone [HStore read cx s f]). right. left. by exists current, cx, s, f. }
  apply cwp_bind. intros cx' s' f' _. split; [done |]. destruct (store_answer (OpRevokeNative current) cx' s' f') as [e | b'] eqn:E'; cbn [cwp].
  - apply (Hdone [HStore (OpRevokeNative current) cx' s' f'; HStore read cx s f]). right. right. right. by exists current, e, cx, s, f, cx', s', f'.
  - apply (Hdone [HStore (OpRevokeNative current) cx' s' f'; HStore read cx s f]). left. exists current, b', cx, s, f, cx', s', f'. apply revoke_committed in E' as Hb. destruct Hb as (? & ? & ? & ? & Hrev & ? & ?).
    split_and!; try done. rewrite Hrev. unfold still_reserved in Hs. b2p. destruct_and!. congruence.
Qed.

(** The part after the reservation. *)
Lemma issue_tail_spec m a b digest gateway password before : reservation a b digest before ->
  cwp (cfinally (guest_ m (GChangeNative (nativeCredential b) "issue" password);;
                 r ← issue_complete b digest gateway;
                 mret (MkIssued (fst r) password (snd r)))
        (fun r => match r with inr _ => mret tt | inl _ => issue_cleanup b end)) before
    (fun r tr => match r with inr i => issue_granted m a digest gateway i tr | inl _ => issue_failed a digest tr end).
Proof.
  intros Hr.
  assert (forall e work, (forall e, In e work -> ~ reserve_event e) ->
    cwp (cignore (issue_cleanup b);; CDone (inl e)) (work ++ before) (fun r tr => match r with inr i => issue_granted m a digest gateway i tr | inl _ => issue_failed a digest tr end)) as Hfail.
  { intros e work Hw. apply cwp_bind, cwp_bind, cwp_ctry. eapply cwp_mono; [| by apply (cleanup_spec a b digest work before)]. done. }
  apply cwp_bind, cwp_ctry, cwp_bind. intros r ev Hp. split; [done |]. destruct r as [err | []]; cbn [cwp].
  { apply (Hfail _ [_]). intros e [<- | []] (? & ? & ? & ? & ? & ? & ? & [=]). }
  assert (password_taken b password ev) as Ht.
  { destruct Hp as (S & env & s & s' & Hrun). exact (spec_run _ _ _ _ _ _ _ (ChangeNativeCredential_spec has_input (nativeCredential b) "issue" password) Hrun). }
  apply cwp_bind. unfold issue_complete. destruct gateway as [g |].
  - apply cwp_bind, cwp_ctry. intros cx s f _. split; [done |]. set (q := OpCompleteGatewayConnection _ _).
    destruct (store_answer q cx s f) as [err | [c t]] eqn:E; cbn -[store_answer].
    + apply (Hfail _ [_; _]). intros e [<- | [<- | []]] (? & ? & ? & ? & ? & ? & ? & [=]).
    + exists b, (HStore q cx s f), ev, before. split_and!; [done | | done | done]. exists cx, s, f, t. by split_and!.
  - apply cwp_bind. intros cx s f _. split; [done |]. destruct (store_answer (OpCompleteConnection b) cx s f) as [err | c] eqn:E; cbn -[store_answer].
    + apply (Hfail _ [_; _]). intros e [<- | [<- | []]] (? & ? & ? & ? & ? & ? & ? & [=]).
    + exists b, (HStore (OpCompleteConnection b) cx s f), ev, before. split_and!; [done | | done | done]. exists cx, s, f. by split_and!.
Qed.

Lemma issue_spec m a digest gateway : cwp (issueNativeGuestConnection has_computer m a digest gateway) []
  (fun r tr => match r with inr i => issue_granted m a digest gateway i tr | inl _ => issue_failed a digest tr end).
Proof.
  unfold issueNativeGuestConnection, nativeLifecycle. apply cwp_bind. destruct (has_computer && _); cbn [censure]; [| left; left; by intros e []].
  apply cwp_bind. intros [id |]; (split; [done |]); [| left; left; intros e [<- | []]; by intros (? & ? & ? & ? & ? & ? & ? & [=])].
  apply cwp_bind. intros [secret |]; (split; [done |]); [| left; left; intros e [<- | [<- | []]]; by intros (? & ? & ? & ? & ? & ? & ? & [=])].
  apply cwp_bind. intros t. split; [done |]. cbn [cwp mret ctl_ret].
  apply cwp_bind. intros cx s f _. split; [done |].
  destruct (store_answer (OpBeginNative a ("conn_" +:+ OpaqueToken id) (eight_hours_truncated t) digest) cx s f) as [err | b] eqn:E; cbn [cwp].
  - left. right. eexists _, _, _, _, cx, s, f, _. split_and!; [done | |].
    + intros e [<- | [<- | [<- | []]]]; by intros (? & ? & ? & ? & ? & ? & ? & [=]).
    + intros ->. cbn [store_after]. unfold run. cbn [store_answer] in E. by destruct (perform _ cx s) as [? | []].
  - refine (issue_tail_spec m a b digest gateway _ _ _). by exists id, secret, t, cx, s, f.
Qed.

(** (C18) The issue of a credential, against any database, Guest and failure.
    The caller gets a password only if the reservation was acknowledged, the
    Guest then took exactly that password for that reservation and showed it,
    and the last transaction committed the connection that is returned.  On a
    failure, either no reservation was acknowledged - none was asked for, or
    it was refused without effect, or its answer was lost - or the account is
    read once more, last of all, and then: it carried the reservation and its
    revocation is committed at the next revision; or it carries something newer;
    or the store refused this clean-up or did not answer it, which is the only
    way an acknowledged reservation stays behind. *)
Theorem issue_outcome {W} (w : world W) m a digest gateway st r st' tr
    (Hrun : run_ctl has_input legacy_revoker w (issueNativeGuestConnection has_computer m a digest gateway) st [] = (r, st', tr)) :
  match r with inr i => issue_granted m a digest gateway i tr | inl _ => issue_failed a digest tr end.
Proof.
  exact (proj2 (cwp_run has_input legacy_revoker (fun _ _ => true) (fun _ => True) w _ st _ r st' tr (fun _ _ _ _ _ _ => I) (issue_spec m a digest gateway) Hrun)).
Qed.
End issue.

(** ** A run *)
Section witnesses.
#[local] Existing Instance demo_sha.
#[local] Existing Instance demo_collation.
#[local] Existing Instance demo_lower.

Definition new_credential : NativeCredential :=
  cred_phase (nativeCredential (native_item 1 NIssue NPending "conn_QUFBQUFBQUFBQUFBQUFBQUFB" (Some (28810 * 1000000)))) "issued".
Definition issue_guest (vmid : Z) : environment nanos :=
  script (JObj [("schema_version", JNum "1"); ("identity", identity_json (CredIdentity new_credential));
      ("account", JObj [("exists", JBool true); ("disabled", JBool false); ("expiry_day", JNum "1")]); ("processes_absent", JBool true);
      ("login_writers_absent", JBool true); ("lifecycle", credential_receipt new_credential)]) (credential_receipt new_credential).

Definition issue_run : (ctl_error + issued) * (DB * nanos) * list happened :=
  run_ctl true "revoker" (deployment at_home [] issue_guest) (issueNativeGuestConnection true (machine_at 101 "pve1") item0 (digest "n") None) (demo_bound, 10 * second) [].

Lemma issue_run_eq : run_ctl true "revoker" (deployment at_home [] issue_guest) (issueNativeGuestConnection true (machine_at 101 "pve1") item0 (digest "n") None)
  (demo_bound, 10 * second) [] = (fst (fst issue_run), snd (fst issue_run), snd issue_run).
Proof. unfold issue_run. exact (run_eta _). Qed.

(** The same issue with a Guest that answers nothing useful. *)
Definition failed_run : (ctl_error + issued) * (DB * nanos) * list happened :=
  run_ctl true "revoker" (deployment at_home [] (fun _ => script JNull JNull)) (issueNativeGuestConnection true (machine_at 101 "pve1") item0 (digest "n") None) (demo_bound, 10 * second) [].

Lemma issue_outcome_witness :
  (exists i, fst (fst issue_run) = inr i /\ is_password i = "Vcw1!QUFBQUFBQUFBQUFBQUFBQUFBQUFBQUFB" /\
     issue_granted (machine_at 101 "pve1") item0 (digest "n") None i (snd issue_run)) /\
  List.map a_operation (native_guest_accounts (fst (snd (fst failed_run)))) = [NRevoke].
Proof.
  split; [| vm_compute; reflexivity].
  pose proof (issue_outcome true "revoker" true (deployment at_home [] issue_guest) (machine_at 101 "pve1") item0 (digest "n") None (demo_bound, 10 * second)
    (fst (fst issue_run)) (snd (fst issue_run)) (snd issue_run) issue_run_eq) as Hi.
  destruct (fst (fst issue_run)) as [e | i] eqn:E; [vm_compute in E; discriminate E |].
  exists i. split; [reflexivity |]. split; [| exact Hi]. vm_compute in E. injection E as <-. reflexivity.
Defined.
End witnesses.

(** * The section that opens a desktop *)

Section connect_proofs.
Context `{Sha256} `{Collation} `{UnicodeLower} `{RdpX509} (has_input : bool) (legacy_revoker : string) (state_ok : DB -> Prop) (has_computer : bool).
Context (background layout probe : bytes) (format_time : time -> string) (nativeGateway : option BrokerRoute).
Context (home : string -> Z) (Hhome : forall s, state_ok s -> homed home s).
Notation safe := (safe has_input legacy_revoker state_ok).
Notation between := (between has_input legacy_revoker state_ok).

(** ** Evidence *)
Definition session_read (digest : bytes) (e : happened) : bool :=
  match e with
  | HStore (OpNativeSession d) _ _ _ => acknowledged e && (d == digest)
  | _ => false
  end.

Definition access_read (userID : string) (vmid : Z) (e : happened) : bool :=
  match e with
  | HStore q cx s f =>
      match q in store_op B return store_failure + B -> bool with
      | OpUserCanAccess u v => fun r => match r with inr ok => ok && (u == userID) && (v =? vmid) | inl _ => false end
      | _ => fun _ => false
      end (store_answer q cx s f)
  | _ => false
  end.

Definition person_checked (vmid : Z) (userID : string) (digest : bytes) (tr : list happened) : Prop :=
  proved (session_read digest) tr = true /\ proved (access_read userID vmid) tr = true.

Lemma person_checked_mono vmid userID digest tr tr' : extends tr tr' -> person_checked vmid userID digest tr -> person_checked vmid userID digest tr'.
Proof. intros E [Hs Ha]. split; by eapply proved_mono. Qed.

(** ** Steps of the section *)
Lemma safe_guest_any {B} tr m (q : guest_op B) : holds_lock tr (vm_id m) = true -> guest_permitted tr m q = true -> safe tr (guest_ m q) (fun _ _ => True).
Proof. intros. by apply safe_guest. Qed.

Lemma may_enter_safe tr m userID digest : holds_lock tr (vm_id m) = true ->
  safe tr (may_enter has_computer nativeGateway m userID digest) (fun _ tr' => person_checked (vm_id m) userID digest tr').
Proof.
  intros Hl. unfold may_enter. eapply (safe_bind _ _ _ _ _ _ (fun _ tr' => proved (session_read digest) tr' = true)).
  { apply safe_store; [done |]. intros cx s f u _ Hu. apply proved_now; [done |]. cbn -[store_answer]. by rewrite Hu, bool_decide_true. }
  intros u t E Hs. carry E.
  eapply (safe_bind _ _ _ _ _ _ (fun ok tr' => ok = true -> proved (access_read userID (vm_id m)) tr' = true)).
  { apply safe_store; [done |]. intros cx s f ok _ Hok ->. apply proved_now; [done |]. cbn -[store_answer]. by rewrite Hok, Z.eqb_refl, bool_decide_true. }
  intros ok t' E Ha. carry E. apply safe_guard. intros ->. specialize (Ha eq_refl).
  eapply safe_bind; [by apply safe_any_store |]. intros d t E _. carry E. apply safe_guard. intros _. apply safe_guard. intros _.
  eapply (safe_bind _ _ _ _ _ _ (fun _ _ => True)).
  { destruct (bool_decide _); [| by apply safe_ret]. apply safe_guard. intros _. by apply safe_guest_any. }
  intros [] t' E _. carry E. by apply safe_ret.
Qed.

Lemma close_previous_safe tr m : 0 < vm_id m -> holds_lock tr (vm_id m) = true -> safe tr (close_previous has_computer m) (fun _ _ => True).
Proof.
  intros Hpos Hl. unfold close_previous. eapply safe_bind; [by apply recoverNativeAccountsForDesktop_safe |]. intros [] t E _. carry E.
  eapply safe_bind; [by apply revokeGuestIdentitiesForDesktop_safe |]. intros [] t' E _. carry E.
  eapply (safe_bind _ _ _ _ _ _ (fun l _ => forall c, In c l -> home (c_id c) = vm_id m)).
  { apply safe_store; [done |]. intros cx s f l Hs Hr c Hc. destruct (begin_revoke_answer home _ _ _ _ _ _ (Hhome s Hs) Hr Hc). congruence. }
  intros l t E Hc. carry E. apply safe_each. intros c t' Hin E. carry E.
  apply (revokeDesktopConnectionCredential_safe _ _ _ _ home Hhome). by rewrite (Hc c Hin).
Qed.

Lemma configuration_safe tr m : holds_lock tr (vm_id m) = true -> safe tr (configuration_ m) (fun _ _ => True).
Proof.
  intros Hl. unfold configuration_. eapply safe_bind; [by apply safe_guest_any |]. intros os t _ _. by apply safe_some.
Qed.

Lemma put_binding_safe tr b st message : safe tr (put_binding b st message) (fun _ _ => True).
Proof. by apply safe_any_store. Qed.

Lemma ensureManagedGuestIdentity_safe tr m userID : holds_lock tr (vm_id m) = true ->
  safe tr (ensureManagedGuestIdentity has_computer m userID) (fun _ _ => True).
Proof.
  intros Hl. unfold ensureManagedGuestIdentity. eapply safe_bind; [by apply safe_any_store |]. intros d t E _. carry E.
  eapply safe_bind; [by apply configuration_safe |]. intros os t' E _. carry E. apply safe_guard. intros _.
  eapply safe_bind; [by apply safe_any_store |]. intros p t E _. carry E. apply safe_guard. intros _.
  eapply safe_bind; [by apply safe_any_store |]. intros b t' E _. carry E. destruct (bool_decide _).
  - apply safe_guard. intros _. eapply safe_bind; [by apply safe_guest_any |]. intros. apply put_binding_safe.
  - unfold provision_windows. eapply safe_bind; [by apply (safe_some _ _ _ _ _ _ (fun _ _ => True)) |]. intros cmd t E _. carry E.
    eapply safe_bind; [by apply safe_guest_any |]. intros [f | result] t' E _.
    + eapply safe_bind; [eapply safe_ignore, put_binding_safe |]. intros. apply safe_fail.
    + destruct (ExitCode result =? 0); [apply put_binding_safe |].
      eapply safe_bind; [eapply safe_ignore, put_binding_safe |]. intros. apply safe_fail.
Qed.

Lemma account_for_safe tr m d userID digest : holds_lock tr (vm_id m) = true ->
  safe tr (account_for has_computer m d userID digest) (fun o _ => match o with Some a => a_desktop_vmid a = vm_id m | None => True end).
Proof.
  intros Hl. unfold account_for. destruct (bool_decide _).
  - eapply safe_bind; [by apply bindNativeGuestAccount_safe |]. intros a t _ Ha. by apply safe_ret.
  - eapply (safe_bind _ _ _ _ _ _ (fun _ _ => True)); [by eapply safe_ctry; [by apply safe_any_store | |] |].
    intros [[[] | | | | | | | |] | a] t _ _; first [apply safe_fail | by apply safe_ret].
Qed.

Lemma RDPCertificate_safe tr m os : holds_lock tr (vm_id m) = true -> safe tr (RDPCertificate probe m os) (fun _ _ => True).
Proof.
  intros Hl. unfold RDPCertificate. apply safe_guard. intros _. eapply safe_bind; [by apply safe_guest_any |]. intros r t E _. carry E.
  eapply safe_bind; [by apply (safe_context _ _ _ _ (fun _ _ => True)) |]. intros ended t' _ _.
  destruct r as [f | result], ended as [c |]; try apply safe_fail. apply safe_guard. intros _.
  eapply safe_bind; [apply safe_any_now |]. intros now t'' _ _. by apply safe_some.
Qed.

Lemma scale_safe tr m username raw : holds_lock tr (vm_id m) = true -> safe tr (applyRequestedDesktopScale layout m username raw) (fun _ _ => True).
Proof.
  intros Hl. unfold applyRequestedDesktopScale. destruct (bool_decide _); [by apply safe_ret |]. destruct (Atoi raw) as [scale |]; [| apply safe_fail].
  apply safe_guard. intros _. eapply safe_bind; [by apply configuration_safe |]. intros os t E _. carry E.
  destruct (negb _); [by apply safe_ret |]. apply safe_guard. intros _. eapply safe_mono; [| by apply safe_exec]. done.
Qed.

Lemma prepare_connection_safe tr q m userID : 0 < vm_id m -> holds_lock tr (vm_id m) = true ->
  safe tr (prepare_connection has_computer background layout probe nativeGateway q m userID)
    (fun p tr' => person_checked (vm_id m) userID (TokenDigest (cr_token q)) tr' /\ match pr_account p with Some a => a_desktop_vmid a = vm_id m | None => True end).
Proof.
  intros Hpos Hl. unfold prepare_connection. eapply safe_bind; [by apply may_enter_safe |]. intros d t E Ha. cbv beta in Ha. carry E.
  eapply safe_bind; [by apply close_previous_safe |]. intros [] t' E _. apply (person_checked_mono _ _ _ _ _ E) in Ha. carry E.
  eapply safe_bind; [by apply ensureManagedGuestIdentity_safe |]. intros b t E _. apply (person_checked_mono _ _ _ _ _ E) in Ha. carry E.
  eapply safe_bind; [by apply account_for_safe |]. intros o t' E Ho. apply (person_checked_mono _ _ _ _ _ E) in Ha. carry E.
  eapply safe_bind; [by apply reconcileDesktopAccessPolicy_safe |]. intros p t E _. apply (person_checked_mono _ _ _ _ _ E) in Ha. carry E.
  eapply (safe_bind _ _ _ _ _ _ (fun _ _ => True)); [destruct nativeGateway; [by apply RDPCertificate_safe | by apply safe_ret] |].
  intros certificate t' E _. apply (person_checked_mono _ _ _ _ _ E) in Ha. carry E.
  eapply safe_bind; [by apply scale_safe |]. intros [] t E _. apply (person_checked_mono _ _ _ _ _ E) in Ha. by apply safe_ret.
Qed.

(** ** The credential *)

(** This event gave the Guest the password. *)
Definition gives_password (m : VM) (password : bytes) (e : happened) : Prop :=
  (exists b ev, e = HGuest m (GChangeNative (nativeCredential b) "issue" password) (inr tt) ev) \/
  (exists username, e = HPve (PSetPassword m username password) (inr tt)).

(** The password was given in this section, after what [P] says of it. *)
Definition password_given (m : VM) (password : bytes) (P : list happened -> Prop) (tr : list happened) : Prop :=
  exists after e before, tr = after ++ e :: before /\ gives_password m password e /\ holds_lock before (vm_id m) = true /\ P before.

Lemma password_given_later m password P tr tr' : extends tr tr' -> password_given m password P tr -> password_given m password P tr'.
Proof. intros (new & -> & _) (after & e & before & -> & Hg). exists (new ++ after), e, before. by rewrite <- app_assoc. Qed.

Lemma issue_linux_safe tr m host digest p a (P : list happened -> Prop) : (forall t t', extends t t' -> P t -> P t') ->
  holds_lock tr (vm_id m) = true -> a_desktop_vmid a = vm_id m -> P tr ->
  safe tr (issue_linux has_computer nativeGateway m host digest p a) (fun i tr' => password_given m (is_password i) P tr').
Proof.
  intros Hmono Hl Hv HP.
  assert (forall g, safe tr (issueNativeGuestConnection has_computer m a digest g) (fun i tr' => password_given m (is_password i) P tr')) as Hissue.
  { intros g. eapply safe_mono; [| apply (issueNativeGuestConnection_safe _ _ _ _ tr); [apply extends_refl | done..]].
    intros i t _ (b & after & ev & before & -> & E). eexists after, _, before. split_and!; [reflexivity | left; by eexists b, ev | by eapply holds_lock_mono | by eapply Hmono]. }
  unfold issue_linux. destruct nativeGateway as [route |]; [| apply Hissue].
  eapply (safe_bind _ _ _ _ _ _ (fun _ t => t = tr)); [by apply safe_some |]. intros target t _ ->. apply Hissue.
Qed.

Lemma enable_safe tr node vmid username : holds_lock tr vmid = true -> safe tr (enableGuestAccount node vmid username) (fun _ _ => True).
Proof.
  intros Hl. unfold enableGuestAccount. eapply safe_bind; [by apply safe_any_store |]. intros d t E _. carry E.
  eapply safe_bind; [by apply (safe_some _ _ _ _ _ _ (fun _ _ => True)) |]. intros cmd t' E _. carry E. eapply safe_mono; [| by apply safe_exec]. done.
Qed.

Lemma issue_windows_safe tr m userID digest p (P : list happened -> Prop) : (forall t t', extends t t' -> P t -> P t') ->
  holds_lock tr (vm_id m) = true -> P tr -> safe tr (issue_windows m userID digest p) (fun i tr' => password_given m (is_password i) P tr').
Proof.
  intros Hmono Hl HP. unfold issue_windows. eapply safe_bind; [by apply (safe_random _ _ _ _ _ (fun _ _ => True)) |]. intros secret t E _.
  apply (Hmono _ _ E) in HP. carry E. set (password := "Vcw1!" +:+ OpaqueToken secret).
  eapply (safe_bind _ _ _ _ _ _ (fun _ tr' => password_given m password P tr')).
  { apply safe_pve; [intros r; exact Hl |]. intros []. eexists [], _, t. split_and!; [reflexivity | right; by eexists | done | done]. }
  intros [] t' E Hg. carry E. eapply safe_bind; [by apply enable_safe |]. intros [] t1 E _. apply (password_given_later _ _ _ _ _ E) in Hg. carry E.
  eapply safe_bind; [by apply (safe_random _ _ _ _ _ (fun _ _ => True)) |]. intros id t2 E _. apply (password_given_later _ _ _ _ _ E) in Hg. carry E.
  eapply safe_bind; [apply safe_any_now |]. intros now t3 E _. apply (password_given_later _ _ _ _ _ E) in Hg. carry E.
  eapply safe_bind; [by apply safe_any_store |]. intros c t4 E _. apply (password_given_later _ _ _ _ _ E) in Hg. by apply safe_ret.
Qed.

(** ** The section *)

(** What is true before a password is given: the person may enter and no agent
    is left. *)
Definition handed_over (vmid : Z) (userID : string) (digest : bytes) (tr : list happened) : Prop :=
  person_checked vmid userID digest tr /\ agents_gone vmid tr.

Lemma handed_over_mono vmid userID digest t t' : extends t t' -> handed_over vmid userID digest t -> handed_over vmid userID digest t'.
Proof. intros E [Hp Ha]. split; [by eapply person_checked_mono | by eapply agents_gone_mono]. Qed.

Definition section_result (m : VM) (userID : string) (digest : bytes) (t : takeover) (tr : list happened) : Prop :=
  match tk_outcome t with
  | inl _ => True
  | inr (i, _, _) => password_given m (is_password i) (handed_over (vm_id m) userID digest) tr
  end.

Lemma connect_section_safe tr q m userID host : 0 < vm_id m -> holds_lock tr (vm_id m) = true ->
  safe tr (connect_section has_computer background layout probe nativeGateway q m userID host)
    (fun t tr' => section_result m userID (TokenDigest (cr_token q)) t tr').
Proof.
  intros Hpos Hl. unfold connect_section. set (digest := TokenDigest (cr_token q)).
  eapply (safe_bind _ _ _ _ _ _ (fun r tr' => match r with inl _ => True | inr p => person_checked (vm_id m) userID digest tr' /\
    match pr_account p with Some a => a_desktop_vmid a = vm_id m | None => True end end)).
  { by eapply safe_ctry; [apply prepare_connection_safe | |]. }
  intros [e | p] t E Hp; [by apply safe_ret |]. destruct Hp as [Hp Hacc]. carry E.
  eapply (safe_bind _ _ _ _ _ _ (fun _ _ => True)); [by eapply safe_ctry; [by apply safe_any_store | |] |].
  intros [e | leases] t' E _; [by apply safe_ret |]. apply (person_checked_mono _ _ _ _ _ E) in Hp. carry E.
  eapply (safe_bind _ _ _ _ _ _ (fun r tr' => match r with inl _ => True | inr _ => agents_gone (vm_id m) tr' end)).
  { eapply safe_ctry; [by apply synchronize_forced | by auto | done]. }
  intros [e | []] t E Hg; [by apply safe_ret |]. apply (person_checked_mono _ _ _ _ _ E) in Hp. carry E.
  eapply (safe_bind _ _ _ _ _ _ (fun r tr' => match r with inl _ => True | inr i => password_given m (is_password i) (handed_over (vm_id m) userID digest) tr' end)).
  { apply (safe_ctry _ _ _ _ _ (fun i tr' => password_given m (is_password i) (handed_over (vm_id m) userID digest) tr')); [| done | done]. unfold issue_connection. destruct (pr_account p) as [a |].
    - by apply issue_linux_safe; [apply handed_over_mono | | |].
    - by apply issue_windows_safe; [apply handed_over_mono | |]. }
  intros [e | i] t1 E Hi; by apply safe_ret.
Qed.

(** ** The handler *)
Lemma safe_running tr vmid : safe tr (running_machine vmid) (fun _ _ => True).
Proof.
  unfold running_machine. eapply (safe_bind _ _ _ _ _ _ (fun _ _ => True)); [by eapply safe_ctry; [apply safe_machine | |] |].
  intros [[[] | | | | | | | |] | m] t _ _; try apply safe_fail. apply safe_guard. intros _. by apply safe_ret.
Qed.

Lemma safe_ready tr m paths last : safe tr (ready_at m paths last) (fun _ _ => True).
Proof.
  revert tr last. induction paths as [| path rest IH]; intros tr last; [apply safe_fail |]. cbn [ready_at].
  eapply (safe_bind _ _ _ _ _ _ (fun _ _ => True)); [by eapply safe_ctry; [by apply (safe_pve _ _ _ _ _ (fun _ _ => True)) | |] |].
  intros [e | content] t _ _; [apply IH |]. destruct (bool_decide _); [by apply safe_ret | apply IH].
Qed.

Lemma safe_host tr m : safe tr (reachable_host nativeGateway m) (fun _ _ => True).
Proof.
  unfold reachable_host. eapply safe_bind; [by apply safe_reply, (safe_pve _ _ _ _ _ (fun _ _ => True)) |]. intros interfaces t _ _.
  apply safe_guard. intros _. eapply (safe_bind _ _ _ _ _ _ (fun _ _ => True)); [destruct nativeGateway; [by apply safe_ensure | by apply safe_ret] |].
  intros [] t' _ _. eapply safe_bind; [apply safe_reply, safe_ready |]. intros. by apply safe_ret.
Qed.

Lemma safe_user_access tr h userID vmid : safe tr (requireUserDesktopAccess h userID vmid) (fun _ _ => True).
Proof.
  unfold requireUserDesktopAccess. eapply safe_bind; [by apply safe_reply, safe_any_store |]. intros [] t _ _; [by apply safe_ret |].
  apply safe_then_fail, safe_auditing.
Qed.

(** A descriptor that was returned. *)
Definition connection_returned (userID : string) (digest : bytes) (d : descriptor) (tr : list happened) : Prop :=
  exists m, password_given m (ds_password d) (handed_over (vm_id m) userID digest) tr.

Lemma section_locked q m userID host : between (ctry (WithDesktopConnectionLock (vm_id m) (connect_section has_computer background layout probe nativeGateway q m userID host)))
  (fun r tr => match r with inl _ => True | inr t => exists tr', tr = HUnlock (vm_id m) :: tr' /\ section_result m userID (TokenDigest (cr_token q)) t tr' end).
Proof.
  apply between_try. apply (between_lock _ _ _ _ _ _ (section_result m userID (TokenDigest (cr_token q)))); [apply acquire_cwp |].
  intros tr Hpos Hl. by apply connect_section_safe.
Qed.

Lemma returned_later userID digest d tr tr' : extends tr tr' -> connection_returned userID digest d tr -> connection_returned userID digest d tr'.
Proof. intros E [m Hm]. exists m. by eapply password_given_later. Qed.

Lemma between_connect h q userID :
  between (createNativeDesktopConnection has_computer background layout probe format_time nativeGateway h q userID)
    (fun d tr => connection_returned userID (TokenDigest (cr_token q)) d tr).
Proof.
  unfold createNativeDesktopConnection. apply (between_bind _ _ _ _ _ (fun _ => True)); [apply between_safe; intros; by apply safe_some |]. intros vmid _.
  apply (between_bind _ _ _ _ _ (fun _ => True)); [apply between_safe; intros; by apply safe_ensure |]. intros _ _.
  apply (between_bind _ _ _ _ _ (fun _ => True)); [apply between_safe; intros; apply safe_user_access |]. intros _ _.
  apply (between_bind _ _ _ _ _ (fun _ => True)); [apply between_safe; intros; by apply safe_ensure |]. intros _ _.
  apply (between_bind _ _ _ _ _ (fun _ => True)); [apply between_safe; intros; apply safe_running |]. intros m _.
  apply (between_bind _ _ _ _ _ (fun _ => True)); [apply between_safe; intros; apply safe_host |]. intros host _.
  eapply between_then; [apply section_locked |]. intros r tr Hr.
  eapply (safe_bind _ _ _ _ _ _ (fun _ _ => True)); [apply safe_each; intros; apply safe_auditing |]. intros [] t E _.
  destruct r as [e | tk]; [apply safe_then_fail, safe_auditing |]. destruct Hr as (tr' & -> & Hr). cbn [tk_outcome]. unfold section_result in Hr.
  destruct (tk_outcome tk) as [e | [[i policy] certificate]]; [apply safe_then_fail, safe_auditing |].
  assert (connection_returned userID (TokenDigest (cr_token q)) (describe nativeGateway m host i policy certificate) (HUnlock (vm_id m) :: tr')) as Hd.
  { exists m. destruct Hr as (after & e & before & -> & Hg). by exists (HUnlock (vm_id m) :: after), e, before. }
  apply (returned_later _ _ _ _ _ E) in Hd.
  eapply (safe_bind _ _ _ _ _ _ (fun _ _ => True)); [destruct (is_connection i); [apply safe_auditing | by apply safe_ret] |].
  intros [] t' E' _. apply safe_ret. by eapply returned_later.
Qed.
End connect_proofs.

(** * What opening a desktop guarantees

    The claim about createNativeDesktopConnection, and a run of it. *)

Section claims.
Context `{Sha256} `{Collation} `{UnicodeLower} `{RdpX509} {W : Type} (has_input : bool) (legacy_revoker : string) (has_computer : bool).
Context (background layout probe : bytes) (format_time : time -> string) (nativeGateway : option BrokerRoute) (home : string -> Z).

(** No agent is left on a desktop, with the evidence for it. *)
Lemma agents_gone_evidence vmid tr : Forall (genuine has_input legacy_revoker) tr -> lawful permitted tr -> agents_gone vmid tr ->
  (exists m authority ev, vm_id m = vmid /\ In (HGuest m (GRevokeAuthority authority) (inr tt) ev) (section tr)) /\
  exists e sessions, In e (section tr) /\ reported_sessions e = Some sessions /\
    forall b, In b sessions -> s_state b = GRevoking -> exists b', attempt b' = attempt b /\ login_gone b' (section tr).
Proof.
  intros Hg Hl [Ha (l & (e & Hin & He) & _ & Hs)]. split.
  - apply proved_witness in Ha as (x & Hx & Hsucc). apply succeeded_inv in Hsucc as (B & m & g & b & ev & -> & Hv & Hq).
    destruct g; try discriminate Hq. destruct b. by eauto 6.
  - exists e, l. split_and!; [done.. |]. intros b Hb Hst. apply (settled_gone has_input legacy_revoker); [done.. |]. exact (Hs b Hb Hst).
Qed.

(** (C12) Opening a desktop for a person, against any database whose
    connections keep their desktop and any Guest: the handler follows the rules
    and leaves no lock behind, and a password is returned only if it was given
    to the Guest under the lock of the desktop, in a section in which the login
    of the request was valid, its user had access, the Guest had taken the
    epoch that ends every agent's authority, and every session of an agent that
    was being revoked was gone. *)
Theorem connection_opened_after_takeover (w : world W) h q userID st r st' tr
    (Hok : world_ok (homed home) w)
    (Hrun : run_ctl has_input legacy_revoker w
      (createNativeDesktopConnection has_computer background layout probe format_time nativeGateway h q userID) st [] = (r, st', tr)) :
  lawful permitted tr /\ held tr = None /\
  match r with
  | inl _ => True
  | inr d => exists m after e before, tr = after ++ e :: before /\ gives_password m (ds_password d) e /\ held before = Some (vm_id m) /\
      person_checked (vm_id m) userID (TokenDigest (cr_token q)) before /\
      (exists m' authority ev, vm_id m' = vm_id m /\ In (HGuest m' (GRevokeAuthority authority) (inr tt) ev) (section before)) /\
      exists x sessions, In x (section before) /\ reported_sessions x = Some sessions /\
        forall b, In b sessions -> s_state b = GRevoking -> exists b', attempt b' = attempt b /\ login_gone b' (section before)
  end.
Proof.
  destruct (cwp_run has_input legacy_revoker permitted (homed home) w _ st _ r st' tr Hok
    (between_connect has_input legacy_revoker (homed home) has_computer background layout probe format_time nativeGateway home (fun s Hs => Hs) h q userID [] eq_refl)
    Hrun) as (Hl & Hh & Hr).
  pose proof (run_ctl_genuine has_input legacy_revoker _ _ _ _ _ _ _ Hrun (Forall_nil_2 _)) as Hg.
  split_and!; [done.. |]. destruct r as [e | d]; [done |]. destruct Hr as (m & after & e & before & -> & Hp & Hb & Hc & Ha).
  exists m, after, e, before. apply Forall_app in Hg as [_ Hg]. inversion_clear Hg as [| ? ? _ Hg']. apply bool_decide_eq_true in Hb.
  split; [done |]. split; [done |]. split; [done |]. split; [done |]. apply agents_gone_evidence; [done | | done]. by destruct (lawful_at _ _ _ _ Hl).
Qed.
End claims.

(** ** A run *)
Section witnesses.
#[local] Existing Instance demo_sha.
#[local] Existing Instance demo_collation.
#[local] Existing Instance demo_lower.
#[local] Instance no_certificates : RdpX509 := fun _ => None.

Definition login_token : string := String.string_of_list_ascii (repeat "n"%char 32).
Definition open_db : DB := demo_bound
  <| guest_identity_bindings := [native_binding <| b_profile_id := Some "managed-local-linux" |>];
     desktop_access_policies := [MkDesktopAccessPolicy 101 "standard" true false false 1 1 PolApplied "linux" "" None 0] |>.

(** The account is closed until the credential arrives. *)
Definition idle_account : json :=
  JObj [("schema_version", JNum "1"); ("identity", identity_json (CredIdentity new_credential)); ("account", closed_account); ("processes_absent", JBool true);
    ("login_writers_absent", JBool true); ("lifecycle", JNull)].
Definition opened_account : json :=
  JObj [("schema_version", JNum "1"); ("identity", identity_json (CredIdentity new_credential));
    ("account", JObj [("exists", JBool true); ("disabled", JBool false); ("expiry_day", JNum "1")]); ("processes_absent", JBool true);
    ("login_writers_absent", JBool true); ("lifecycle", credential_receipt new_credential)].
Definition open_guest (vmid : Z) : environment nanos := MkEnvironment
  (fun s => (Some "l26", s))
  (fun cmd s => (match cmd with
                 | [_; "computer-v2-capabilities"] => answer true script_capabilities
                 | _ => answer true (if s <=? 10 * second then idle_account else opened_account)
                 end, s))
  (fun _ _ s => (answer true (credential_receipt new_credential), s + 1))
  (fun _ _ s => (None, s))
  (fun s => (s, s))
  (fun _ s => (None, s))
  (fun n s => (Some (byte_string (repeat 65 n)), s))
  (fun d s => (None, s + d)).

Definition open_machines : list VM := [MkVM 101 "pve1" "qemu" "running" false false ["vc-workspace"] "d"].
Definition open_request : connect_request := MkConnectRequest "101" [] "200" login_token.
Definition open_from : http_request := MkHttpRequest "" "" "10.0.0.9" "VC Workspace/1".
Definition open_run : (ctl_error + descriptor) * (DB * nanos) * list happened :=
  run_ctl true "revoker" (deployment at_home open_machines open_guest)
    (createNativeDesktopConnection true "" "layout" "probe" itoa None open_from open_request "alice") (open_db, 10 * second) [].

Lemma open_run_eq : run_ctl true "revoker" (deployment at_home open_machines open_guest)
    (createNativeDesktopConnection true "" "layout" "probe" itoa None open_from open_request "alice") (open_db, 10 * second) [] =
  (fst (fst open_run), snd (fst open_run), snd open_run).
Proof. unfold open_run. exact (run_eta _). Qed.

Lemma connection_opened_after_takeover_witness : exists d, fst (fst open_run) = inr d /\ ds_password d = "Vcw1!QUFBQUFBQUFBQUFBQUFBQUFBQUFBQUFB" /\
  lawful permitted (snd open_run) /\ held (snd open_run) = None /\
  exists m after e before, snd open_run = after ++ e :: before /\ gives_password m (ds_password d) e /\ held before = Some (vm_id m).
Proof.
  pose proof (connection_opened_after_takeover true "revoker" true "" "layout" "probe" itoa None (fun _ => 101) (deployment at_home open_machines open_guest)
    open_from open_request "alice" (open_db, 10 * second) (fst (fst open_run)) (snd (fst open_run)) (snd open_run) (home_ok _ _) open_run_eq) as (Hl & Hh & Hr).
  destruct (fst (fst open_run)) as [e | d] eqn:E; [vm_compute in E; discriminate E |].
  exists d. split; [reflexivity |]. split; [vm_compute in E; injection E as <-; reflexivity |]. split; [exact Hl |]. split; [exact Hh |].
  destruct Hr as (m & after & e & before & Ht & Hg & Hb & _). exists m, after, e, before. split; [exact Ht |]. split; [exact Hg | exact Hb].
Defined.
End witnesses.
