(* ===== verification/ControllerRecovery.v ===== *)
(** * Recovery of lost account history, and small handlers

    native_recovery.go: an administrator compares what the database and a
    Guest say of an account, and lets the database catch up with a closed
    Guest.  With it the handlers by which a person logs out, lists desktops and
    gives a connection back. *)
From stdpp Require Import base strings list.
From Stdlib Require Import ZArith Lia Ascii.
From S2P Require Import Prelude GoStrings GuestIdentity Auth Net Db Json Demo Triggers StoreAccess StoreSession StoreConn StoreLease StoreAgent StoreNative StoreNativeProofs Computer Guest GuestAccount GuestSession ComputerWire GuestTransport GuestSessionProofs GuestConfirmed StoreAudit Pve Controller ControllerScripts ControllerNative ControllerAgent ControllerRules ControllerFacts ControllerLogic ControllerNativeProofs ControllerAgentProofs ControllerMaintenance ControllerHttp ControllerHttpProofs.

Local Open Scope string_scope.
Local Open Scope list_scope.
Local Open Scope Z_scope.

(** ** Comparing *)
Record nativeRecoveryReport : Set := MkRecoveryReport {
  rr_user_id : string;
  rr_database_revision : Z;
  rr_guest_revision : option Z;
  rr_status : string
}.

Definition compareNativeRecovery (a : NativeGuestAccount) (o : NativeAccountObservation) : nativeRecoveryReport :=
  let report := MkRecoveryReport (a_user_id a) (a_revision a) in
  if negb (NoExists o) || (NoIdentity o != CredIdentity (nativeCredential a)) then report None "identity_mismatch"
  else match NoLifecycle o with
  | None => report None "unversioned"
  | Some l =>
      if CredIdentity l != NoIdentity o then report None "identity_mismatch"
      else
        report (Some (CredRevision l))
          (if (a_state a == NApplied) && (a_operation a == NRevoke) && native_matches o (nativeCredential a) "revoked" && native_closed o then "aligned_closed"
           else if (a_revision a <? CredRevision l) && (CredPhase l == "revoked") && (CredExpiresUnixSeconds l =? 0) && native_closed o
           then "guest_ahead_closed" else "lifecycle_mismatch")
  end.


Section recovery.
Context `{Sha256} `{UnicodeLower} (has_computer : bool).

(** ** Administrators *)
Definition is_admin (session : Session) : bool := bool_decide (UserRole (SessionUser session) = PlatformAdmin).

Lemma admin_checked session csrf : is_admin session = true -> ConstantTimeEqual csrf (CSRFToken session) = true ->
  UserRole (SessionUser session) = PlatformAdmin /\ csrf = CSRFToken session.
Proof.
  unfold is_admin, ConstantTimeEqual. intros Ha Hc. apply bool_decide_eq_true in Ha. split; [done |].
  destruct (negb _); [done |]. by apply bool_decide_eq_true in Hc.
Qed.

Record recovery_request : Set := MkRecoveryRequest { rv_database_revision : Z; rv_guest_revision : Z; rv_reason : string }.

Definition running_desktop (vmid : Z) : ctl VM :=
  r ← ctry (managedVirtualMachine vmid);
  match r with
  | inl (EStore ErrNotFound) => cfail (EReply 404 "desktop_not_found")
  | inl _ => cfail (EReply 409 "recovery_unavailable")
  | inr m => censure (vm_status m == "running") (EReply 409 "recovery_unavailable");; mret m
  end.

(** The account at the settled revocation that was inspected. *)
Definition settled_account (vmid : Z) (userID : string) (revision : Z) : ctl NativeGuestAccount :=
  a ← reply_on (store_ (OpNativeAccount vmid userID)) 409 "recovery_state_changed";
  censure ((a_revision a =? revision) && (a_operation a == NRevoke) && (a_state a == NApplied)) (EReply 409 "recovery_state_changed");;
  mret a.

Definition recovery_error (e : ctl_error) : ctl_error :=
  match e with EStore ErrConflict => EReply 409 "recovery_state_changed" | _ => EReply 500 "internal_error" end.

Definition commit_recovery (session : Session) (m : VM) (a : NativeGuestAccount) (revision : Z) (reason : string) : ctl nativeRecoveryReport :=
  reply_on (nativeLifecycle has_computer a) 409 "recovery_unavailable";;
  o ← reply_on (guest_ m (GInspectNative (a_guest_username a))) 503 "recovery_inspection_unavailable";
  let report := compareNativeRecovery a o in
  censure ((rr_status report == "guest_ahead_closed") && (rr_guest_revision report == Some revision)) (EReply 409 "recovery_state_changed");;
  token ← reply_on (crandom 18) 500 "internal_error";
  match NoLifecycle o with
  | None => cfail EOther   (* the report has a revision *)
  | Some l =>
      r ← ctry (store_ (OpCommitRecovery rune_count a revision (CredConnectionID l) (UserID (SessionUser session)) ("recovery_" +:+ OpaqueToken token) reason));
      match r with
      | inl e => cfail (recovery_error e)
      | inr updated => mret (compareNativeRecovery updated o)
      end
  end.

Definition recoverNativeAccount (session : Session) (csrf vmid userID : string) (body : option recovery_request) : ctl nativeRecoveryReport :=
  censure (is_admin session) (EReply 403 "permission_denied");;
  censure (ConstantTimeEqual csrf (CSRFToken session)) (EReply 403 "invalid_csrf_token");;
  vmid ← csome (Atoi vmid) (EReply 400 "invalid_request");
  censure ((0 <? vmid) && (userID != "")) (EReply 400 "invalid_request");;
  body ← csome body (EReply 400 "invalid_request");
  let reason := TrimSpace (rv_reason body) in
  censure (negb ((rv_database_revision body <? 1) || (rv_guest_revision body <=? rv_database_revision body) || (reason == "") || (500 <? rune_count reason)))
    (EReply 422 "invalid_recovery");;
  with_control_lock vmid "recovery_unavailable" (
    m ← running_desktop vmid;
    a ← settled_account vmid userID (rv_database_revision body);
    commit_recovery session m a (rv_guest_revision body) reason).

(** ** Inspecting *)
Definition inspect_account (m : VM) (a : NativeGuestAccount) : ctl nativeRecoveryReport :=
  r ← ctry (nativeLifecycle has_computer a;; guest_ m (GInspectNative (a_guest_username a)));
  mret (match r with
        | inr o => compareNativeRecovery a o
        | inl _ => MkRecoveryReport (a_user_id a) (a_revision a) None "inspection_unavailable"
        end).

Fixpoint inspect_accounts (m : VM) (accounts : list NativeGuestAccount) : ctl (list nativeRecoveryReport) :=
  match accounts with
  | [] => mret []
  | a :: rest => report ← inspect_account m a; reports ← inspect_accounts m rest; mret (report :: reports)
  end.

Definition inspected_desktop (vmid : Z) : ctl VM :=
  r ← ctry (managedVirtualMachine vmid);
  match r with
  | inl (EStore ErrNotFound) => cfail (EReply 404 "desktop_not_found")
  | inl _ => cfail (EReply 503 "recovery_inspection_unavailable")
  | inr m => censure (vm_status m == "running") (EReply 409 "desktop_not_running");; mret m
  end.

Definition inspectNativeRecovery (h : http_request) (session : Session) (vmid : string) : ctl (list nativeRecoveryReport) :=
  censure (is_admin session) (EReply 403 "permission_denied");;
  vmid ← csome (Atoi vmid) (EReply 400 "invalid_vmid");
  censure (0 <? vmid) (EReply 400 "invalid_vmid");;
  with_control_lock vmid "recovery_inspection_unavailable" (
    m ← inspected_desktop vmid;
    accounts ← reply_on (store_ (OpNativeAccountsForDesktop vmid)) 500 "internal_error";
    reports ← inspect_accounts m accounts;
    auditRequest h (UserID (SessionUser session)) "desktop.native_recovery_inspected" "desktop" (itoa vmid) [("account_count", number (Z.of_nat (length reports)))];;
    mret reports).

(** ** People *)
Definition requireNativeAuth {A} (authorization : string) (next : UserInfo -> string -> ctl A) : ctl A :=
  token ← csome (ParseBearerToken authorization) (EReply 401 "authentication_required");
  user ← reply_on (store_ (OpNativeSession (TokenDigest token))) 401 "authentication_required";
  next user token.

Definition nativeLogout (h : http_request) (user : UserInfo) (token : string) : ctl unit :=
  reply_on (store_ (OpRevokeNativeSession (TokenDigest token))) 500 "internal_error";;
  auditRequest h (UserID user) "auth.native_logout_succeeded" "user" (UserID user) [("client", text "macos"); ("guest_revocation", text "queued")].

Definition release_error (e : ctl_error) : ctl_error :=
  match e with EStore ErrNotFound => EReply 404 "desktop_connection_not_found" | _ => EReply 500 "internal_error" end.

Definition releaseNativeDesktopConnection (h : http_request) (user : UserInfo) : ctl unit :=
  r ← ctry (store_ (OpBeginRevokeConnection (TrimSpace (rq_path_id h)) (UserID user)));
  match r with
  | inl e => cfail (release_error e)
  | inr c =>
      if (c_state c == CRevoked) || (c_state c == CExpired) then mret tt
      else
        reply_on (releaseDesktopConnection has_computer c) 503 "desktop_connection_revoke_pending";;
        auditRequest h (UserID user) "native.desktop_connection_revoked" "desktop_connection" (c_id c) [("vmid", number (c_desktop_vmid c))]
  end.

Definition nativeDesktops (user : UserInfo) : ctl (list VM) :=
  summary ← reply_on desktopInventory 502 "pve_unavailable";
  vmids ← reply_on (store_ (OpUserAssigned (UserID user))) 500 "internal_error";
  mret (filterDesktopsByVMID (sm_vms summary) vmids).
End recovery.

(** * Recovery follows the rules

    The database takes over the revision of a Guest only for an administrator,
    and only when the Guest showed, in the same section, the account closed at
    that revision. *)

Section recovery_proofs.
Context `{Sha256} `{Collation} `{UnicodeLower} (has_input : bool) (legacy_revoker : string) (state_ok : DB -> Prop) (has_computer : bool).
Notation safe := (safe has_input legacy_revoker state_ok).
Notation between := (between has_input legacy_revoker state_ok).

(** A report that the Guest is ahead and closed. *)
Lemma ahead_report a o revision l : rr_status (compareNativeRecovery a o) = "guest_ahead_closed" -> rr_guest_revision (compareNativeRecovery a o) = Some revision ->
  NoLifecycle o = Some l ->
  NoExists o = true /\ NoIdentity o = CredIdentity (nativeCredential a) /\ native_closed o = true /\ CredRevision l = revision /\ a_revision a < revision /\ CredPhase l = "revoked".
Proof.
  unfold compareNativeRecovery. intros Hs Hr Hl. rewrite Hl in Hs, Hr.
  destruct (NoExists o) eqn:He; [| done]. destruct (bool_decide (NoIdentity o = CredIdentity (nativeCredential a))) eqn:Hi; [| done]. cbn [negb orb] in *.
  destruct (negb (bool_decide (CredIdentity l = NoIdentity o))); [done |]. cbn in Hs, Hr. injection Hr as Hr.
  destruct (_ && native_closed o) in Hs; [done |]. destruct (_ && native_closed o) eqn:Hc in Hs; [| done].
  apply bool_decide_eq_true in Hi. b2p. destruct_and!. subst revision. by split_and!.
Qed.

Lemma commit_recovery_safe tr session m a revision reason : holds_lock tr (vm_id m) = true -> a_desktop_vmid a = vm_id m ->
  safe tr (commit_recovery has_computer session m a revision reason) (fun _ _ => True).
Proof.
  intros Hl Hv. unfold commit_recovery, nativeLifecycle. eapply safe_bind; [by apply safe_reply, (safe_ensure _ _ _ _ _ _ (fun _ _ => True)) |]. intros [] t E _. carry E.
  eapply safe_bind; [apply safe_reply; by apply safe_inspect |]. intros o t' E Ho. carry E. apply safe_guard. intros Hr.
  apply andb_true_iff in Hr as [Hs Hr]. apply bool_decide_eq_true in Hs, Hr.
  eapply safe_bind; [by apply safe_reply, (safe_random _ _ _ _ _ (fun _ _ => True)) |]. intros token t E _. carry E.
  destruct (NoLifecycle o) as [l |] eqn:El; [| apply safe_fail].
  destruct (ahead_report a o revision l Hs Hr El) as (He & Hi & Hc & Hrev & Hlt & Hph).
  eapply (safe_bind _ _ _ _ _ _ (fun _ _ => True)); [eapply (safe_ctry _ _ _ _ _ (fun _ _ => True)); [| done | done] |].
  - apply safe_any_store. cbn. rewrite Hv, Hl. cbn. destruct Ho as (e & Hin & u & ev & ->). apply proved_witness. eexists. split; [exact Hin |].
    unfold ahead_closed. cbn. apply Z.ltb_lt in Hlt. by rewrite Hv, Z.eqb_refl, He, Hi, Hc, El, Hrev, Z.eqb_refl, Hlt, Hph, !bool_decide_true.
  - intros [e | updated] t1 _ _; [apply safe_fail | by apply safe_ret].
Qed.

Lemma running_desktop_safe tr vmid : safe tr (running_desktop vmid) (fun m _ => vm_id m = vmid).
Proof.
  unfold running_desktop. eapply (safe_bind _ _ _ _ _ _ (fun r _ => match r with inl _ => True | inr m => vm_id m = vmid end)); [by eapply safe_ctry; [apply safe_machine | |] |].
  intros [[[] | | | | | | | |] | m] t _ Hm; try apply safe_fail. apply safe_guard. intros _. by apply safe_ret.
Qed.

Lemma settled_account_safe tr vmid userID revision : safe tr (settled_account vmid userID revision) (fun a _ => a_desktop_vmid a = vmid).
Proof.
  unfold settled_account. eapply safe_bind; [apply safe_reply, safe_account |]. intros a t _ (Hv & _). apply safe_guard. intros _. by apply safe_ret.
Qed.

Lemma between_recover session csrf vmid userID body : between (recoverNativeAccount has_computer session csrf vmid userID body) (fun _ _ => True).
Proof.
  unfold recoverNativeAccount. apply (between_bind _ _ _ _ _ (fun _ => True)); [apply between_safe; intros; by apply safe_ensure |]. intros _ _.
  apply (between_bind _ _ _ _ _ (fun _ => True)); [apply between_safe; intros; by apply safe_ensure |]. intros _ _.
  apply (between_bind _ _ _ _ _ (fun _ => True)); [apply between_safe; intros; by apply safe_some |]. intros v _.
  apply (between_bind _ _ _ _ _ (fun _ => True)); [apply between_safe; intros; by apply safe_ensure |]. intros _ _.
  apply (between_bind _ _ _ _ _ (fun _ => True)); [apply between_safe; intros; by apply safe_some |]. intros r _.
  apply (between_bind _ _ _ _ _ (fun _ => True)); [apply between_safe; intros; by apply safe_ensure |]. intros _ _.
  eapply between_mono; [| apply (between_control _ _ _ _ _ _ (fun _ _ => True))]; [done |]. intros tr _ Hl.
  eapply safe_bind; [apply running_desktop_safe |]. intros m t E Hm. carry E. eapply safe_bind; [apply settled_account_safe |]. intros a t' E Ha. carry E.
  apply commit_recovery_safe; [by rewrite Hm | congruence].
Qed.
End recovery_proofs.

(** ** The claim *)
Section claims.
Context `{Sha256} `{Collation} `{UnicodeLower} {W : Type} (has_input : bool) (legacy_revoker : string) (has_computer : bool).

(** (C21) The database is moved to the revision of a Guest only in a request
    with the token of a platform administrator's session, under the lock of the
    desktop, after the Guest showed in the same section the account of that row
    closed, and revoked under exactly the later revision and the connection
    name that are committed. *)
Theorem recovery_only_of_closed_guest (w : world W) session csrf vmid userID body st r st' new runes a revision connectionID actor receipt reason cx s f pre
    (Hrun : run_ctl has_input legacy_revoker w (recoverNativeAccount has_computer session csrf vmid userID body) st [] =
      (r, st', new ++ HStore (OpCommitRecovery runes a revision connectionID actor receipt reason) cx s f :: pre)) :
  UserRole (SessionUser session) = PlatformAdmin /\ csrf = CSRFToken session /\ held pre = Some (a_desktop_vmid a) /\
  exists m u o l ev, vm_id m = a_desktop_vmid a /\ In (HGuest m (GInspectNative u) (inr o) ev) (section pre) /\
    NoExists o = true /\ NoIdentity o = CredIdentity (nativeCredential a) /\ native_closed o = true /\ NoLifecycle o = Some l /\
    CredRevision l = revision /\ a_revision a < revision /\ CredConnectionID l = connectionID /\ CredPhase l = "revoked".
Proof.
  destruct (cwp_run has_input legacy_revoker permitted (fun _ => True) w _ st _ r st' _ (fun _ _ _ _ _ _ => I)
    (between_recover has_input legacy_revoker (fun _ => True) has_computer session csrf vmid userID body [] eq_refl) Hrun) as [Hl _].
  unfold recoverNativeAccount in Hrun. destruct (is_admin session) eqn:Ha; [| by destruct new].
  destruct (ConstantTimeEqual csrf (CSRFToken session)) eqn:Hc; [| by destruct new].
  destruct (admin_checked _ _ Ha Hc) as [Hrole Hcsrf].
  destruct (lawful_at _ _ _ _ Hl) as [Hp _]. cbn in Hp. apply andb_true_iff in Hp as [Hh Hp]. apply bool_decide_eq_true in Hh.
  split_and!; [done.. |]. apply proved_witness in Hp as (e & Hin & He). apply succeeded_inv in He as (B & m & g & o & ev & -> & Hv & Hq).
  destruct g; try discriminate Hq. destruct (NoLifecycle o) as [l |] eqn:El; [| by rewrite andb_false_r in Hq].
  exists m, username, o, l, ev. b2p. destruct_and!. by split_and!.
Qed.
End claims.

(** ** A run *)
Section witnesses.
#[local] Existing Instance demo_sha.
#[local] Existing Instance demo_collation.
#[local] Existing Instance demo_lower.

(** The database remembers revision 2, the Guest is closed at revision 5. *)
Definition behind_item : NativeGuestAccount := native_item 2 NRevoke NApplied "conn_00000001" None.
Definition behind_db : DB := demo_native <| native_guest_accounts := [behind_item] |>.
Definition ahead_credential : NativeCredential :=
  cred_phase (nativeCredential (native_item 5 NRevoke NApplied "conn_00000005" None)) "revoked".
Definition ahead_guest (vmid : Z) : environment nanos :=
  script (JObj [("schema_version", JNum "1"); ("identity", identity_json (CredIdentity ahead_credential)); ("account", closed_account); ("processes_absent", JBool true);
    ("login_writers_absent", JBool true); ("lifecycle", credential_receipt ahead_credential)]) JNull.

Definition admin_session : Session := MkSession (MkUserInfo "root" "Root" "Root" "hash-r" PlatformAdmin false 0) "csrf" hour "web" "".
Definition recovery_machines : list VM := [MkVM 101 "pve1" "qemu" "running" false false ["vc-workspace"] "d"].
Definition recovery_run : (ctl_error + nativeRecoveryReport) * (DB * nanos) * list happened :=
  run_ctl true "revoker" (deployment at_home recovery_machines ahead_guest)
    (recoverNativeAccount true admin_session "csrf" "101" "alice" (Some (MkRecoveryRequest 2 5 "restored backup"))) (behind_db, 10 * second) [].

Lemma recovery_run_eq : run_ctl true "revoker" (deployment at_home recovery_machines ahead_guest)
    (recoverNativeAccount true admin_session "csrf" "101" "alice" (Some (MkRecoveryRequest 2 5 "restored backup"))) (behind_db, 10 * second) [] =
  (fst (fst recovery_run), snd (fst recovery_run), snd recovery_run).
Proof. unfold recovery_run. exact (run_eta _). Qed.


(** What a committed recovery wrote. *)
Definition committed (e : happened) : option (Z * Z * string) :=
  match e with
  | HStore (OpCommitRecovery _ a revision connectionID _ _ _) _ _ _ => Some (a_desktop_vmid a, revision, connectionID)
  | _ => None
  end.

Lemma committed_inv e vmid revision connectionID : committed e = Some (vmid, revision, connectionID) ->
  exists runes a actor receipt reason cx s f, e = HStore (OpCommitRecovery runes a revision connectionID actor receipt reason) cx s f /\ a_desktop_vmid a = vmid.
Proof.
  destruct e as [A op cx s f | | | | | | | |]; try done. destruct op; try done. cbn. intros [= <- <- <-]. by eexists _, _, _, _, _, _, _, _.
Qed.

Lemma recovery_commits : (snd recovery_run !! 1%nat) ≫= committed = Some (101, 5, "conn_00000005").
Proof. vm_compute. reflexivity. Qed.

Lemma recovery_only_of_closed_guest_witness : exists runes a actor receipt reason cx s f,
  snd recovery_run !! 1%nat = Some (HStore (OpCommitRecovery runes a 5 "conn_00000005" actor receipt reason) cx s f) /\
  held (drop 2 (snd recovery_run)) = Some 101 /\
  exists m u o ev, vm_id m = 101 /\ In (HGuest m (GInspectNative u) (inr o) ev) (section (drop 2 (snd recovery_run))) /\ native_closed o = true.
Proof.
  pose proof recovery_commits as He. destruct (snd recovery_run !! 1%nat) as [e |] eqn:El; [| discriminate He].
  apply committed_inv in He as (runes & a & actor & receipt & reason & cx & s & f & -> & Ha).
  exists runes, a, actor, receipt, reason, cx, s, f. split; [reflexivity |].
  edestruct (recovery_only_of_closed_guest true "revoker" true (deployment at_home recovery_machines ahead_guest) admin_session "csrf" "101" "alice"
    (Some (MkRecoveryRequest 2 5 "restored backup")) (behind_db, 10 * second) (fst (fst recovery_run)) (snd (fst recovery_run)) (take 1 (snd recovery_run)))
    as (_ & _ & Hh & m & u & o & l & ev & Hv & Hin & _ & _ & Hc & _).
  - rewrite take_drop_middle by exact El. exact recovery_run_eq.
  - rewrite Ha in Hh, Hv. split; [exact Hh |]. exists m, u, o, ev. split; [exact Hv |]. split; [exact Hin | exact Hc].
Defined.
End witnesses.
