(* ===== verification/ControllerClone.v ===== *)
(** * Jobs, power and clones ([internal/httpapi])

    idempotency.go, image_clone.go, clone_network.go, clone_inspection.go,
    clone_candidates.go, clone_recovery.go, pve_job_maintenance.go and the
    handlers of server.go that start a task in PVE and follow it.  A request
    arrives with its raw body.  A [go] statement is not part of the handler: the
    watcher it starts is a task of its own. *)
From stdpp Require Import base strings list.
From Stdlib Require Import ZArith Lia Ascii.
From S2P Require Import Prelude GoStrings Auth Net Db Json Triggers StoreAccess StoreSession StoreConn StoreLease Computer Guest GuestAccount ComputerWire StoreAudit StoreJobs StoreCatalog Pve Controller ControllerScripts PveClient ControllerNative ControllerAgent ControllerHttp ControllerConnect ControllerRecovery.

Local Open Scope string_scope.
Local Open Scope list_scope.
Local Open Scope Z_scope.

(** ** Idempotency *)
Record job_request : Set := MkJobRequest {
  jr_key : string;              (* Idempotency-Key *)
  jr_method : string;
  jr_path : string;             (* URL.EscapedPath *)
  jr_body : option string       (* None: it could not be read *)
}.

(** A value as a Go [any] is marshalled: keys sorted, the last of a name. *)
Fixpoint canonical (v : json) : json :=
  match v with
  | JArr l => JArr (List.map canonical l)
  | JObj l => JObj (order_by (fun a b => String.leb (fst a) (fst b)) (last_members (List.map (fun e => (fst e, canonical (snd e))) l)))
  | _ => v
  end.

(** The canonical text of a body; [None] is an error. *)
Definition canonical_body (body : string) : option string :=
  let trimmed := TrimSpace body in
  if trimmed == "" then Some "" else v ← json_document trimmed; Some (json_print (canonical v)).

Definition job_conflict : ctl_error := EReply 409 "idempotency_key_conflict".

(** The row a request becomes, without what the store adds. *)
Definition job_row (id key fingerprint operation : string) (source target : Z) (node taskNode : string) (request : json) (createdBy : string) : JobInfo :=
  MkJobInfo id key operation "accepted" source target node taskNode "" request 0 "" "" createdBy 0 0 fingerprint.

Definition job_running (j : JobInfo) (upid : string) : JobInfo :=
  MkJobInfo (JobID j) (IdempotencyKey j) (Operation j) "running" (SourceVMID j) (TargetVMID j) (TargetNode j) (TaskNode j) upid (Request j)
    (Progress j) (JobDetail j) (JobError j) (JobCreatedBy j) (JobCreatedAt j) (JobUpdatedAt j) (RequestFingerprint j).
Definition job_settled (j : JobInfo) (state message : string) : JobInfo :=
  MkJobInfo (JobID j) (IdempotencyKey j) (Operation j) state (SourceVMID j) (TargetVMID j) (TargetNode j) (TaskNode j) (UPID j) (Request j)
    (Progress j) (JobDetail j) message (JobCreatedBy j) (JobCreatedAt j) (JobUpdatedAt j) (RequestFingerprint j).

Section idempotency.
Context `{Sha256}.

Definition sha_text (s : string) : string := "sha256:" +:+ hex_encode (sha256 s).

(** The job of an earlier request, or the key and fingerprint of a new one. *)
Definition prepareJobRequest (q : job_request) (principal : string) : ctl (JobInfo + string * string) :=
  let rawKey := TrimSpace (jr_key q) in
  censure (negb ((slen rawKey <? 8) || (128 <? slen rawKey))) (EReply 400 "invalid_idempotency_key");;
  body ← csome (jr_body q) (EReply 400 "invalid_request");
  censure (slen body <=? 1024 * 1024) (EReply 400 "invalid_request");;
  text ← csome (canonical_body body) (EReply 400 "invalid_request");
  let namespace := json_print (JArr [JStr (json_text principal); JStr (json_text (jr_method q)); JStr (json_text (jr_path q)); JStr (json_text rawKey)]) in
  let key := sha_text namespace in
  let fingerprint := sha_text text in
  existing ← ctry (store_ (OpJobForRequest key fingerprint));
  match existing with
  | inr job => mret (inl job)
  | inl (EStore ErrNotFound) =>
      legacy ← ctry (store_ (OpJobByKey rawKey));
      match legacy with
      | inr _ => cfail job_conflict
      | inl (EStore ErrNotFound) => mret (inr (key, fingerprint))
      | inl _ => cfail (EReply 500 "internal_error")
      end
  | inl (EStore ErrConflict) => cfail job_conflict
  | inl _ => cfail (EReply 500 "internal_error")
  end.
End idempotency.

(** The job that a transaction created or found. *)
Definition created_by {A} (p : ctl A) : ctl A :=
  r ← ctry p;
  match r with
  | inr a => mret a
  | inl (EStore ErrConflict) => cfail job_conflict
  | inl _ => cfail (EReply 500 "internal_error")
  end.

Definition error_text (e : ctl_error) : string := match e with EPve f => FailMessage f | _ => "" end.

(** ** Power *)
Definition power_conflict (action status : string) : bool :=
  ((action == "start") && (status == "running")) || ((action == "stop") && (status == "stopped")).

(** The job, and PVE only when it is new. *)
Definition submit_power (row : JobInfo) (m : VM) (vmid : Z) (action : string) (audit : JobInfo -> ctl unit) : ctl JobInfo :=
  created ← created_by (store_ (OpCreateJob row));
  let '(job, fresh) := created in
  if negb fresh then mret job else
  task ← ctry (pve_ (PPower (vm_node m) vmid action));
  match task with
  | inl e =>
      cignore (store_ (OpUpdateJobTask (JobID job) "failed" "" (error_text e)));;
      cfail (EReply 502 "pve_power_failed")
  | inr upid =>
      cignore (store_ (OpUpdateJobTask (JobID job) "running" upid ""));;
      audit job;;
      mret (job_running job upid)
  end.

Section power.
Context `{Sha256} (h : http_request) (q : job_request).

Definition replayed_or (principal : string) (fresh : string -> string -> ctl JobInfo) : ctl JobInfo :=
  r ← prepareJobRequest q principal;
  match r with inl job => mret job | inr (key, fingerprint) => fresh key fingerprint end.

Definition changeNativeDesktopPower (userID vmidText action : string) : ctl JobInfo :=
  vmid ← csome (Atoi vmidText) (EReply 400 "invalid_power_request");
  censure ((0 <? vmid) && ((action == "start") || (action == "stop"))) (EReply 400 "invalid_power_request");;
  requireUserDesktopAccess h userID vmid;;
  replayed_or ("user:" +:+ userID) (fun key fingerprint =>
    r ← ctry (managedVirtualMachine vmid);
    m ← (match r with
         | inr m => mret m
         | inl (EStore ErrNotFound) => cfail (EReply 404 "managed_vm_not_found")
         | inl _ => cfail (EReply 502 "pve_unavailable")
         end);
    censure (negb (power_conflict action (vm_status m))) (EReply 409 "power_state_conflict");;
    token ← reply_on (crandom 18) 500 "internal_error";
    submit_power
      (job_row ("job_" +:+ OpaqueToken token) key fingerprint ("native.desktop_" +:+ action) 0 vmid (vm_node m) (vm_node m)
        (JObj (detail_of [("vmid", number vmid); ("action", text action); ("node", text (vm_node m)); ("client", text "native")])) userID)
      m vmid action
      (fun job => auditRequest h userID ("native.desktop_" +:+ action +:+ "_requested") "job" (JobID job) [("vmid", number vmid)])).

Definition changeAgentDesktopPower (action : string) : ctl JobInfo :=
  lease ← requireAgentLease h;
  censure ((action == "start") || (action == "stop")) (EReply 400 "invalid_power_request");;
  vmid ← csome (Atoi (l_desktop_id lease)) (EReply 500 "invalid_lease");
  replayed_or ("agent:" +:+ l_agent_id lease) (fun key fingerprint =>
    m ← reply_on (managedVirtualMachine vmid) 404 "managed_vm_not_found";
    censure (negb (power_conflict action (vm_status m))) (EReply 409 "power_state_conflict");;
    token ← reply_on (crandom 18) 500 "internal_error";
    submit_power
      (job_row ("job_" +:+ OpaqueToken token) key fingerprint ("agent.desktop_" +:+ action) 0 vmid (vm_node m) (vm_node m)
        (JObj (detail_of [("lease_id", text (l_id lease)); ("agent_id", text (l_agent_id lease)); ("vmid", number vmid); ("action", text action)])) "")
      m vmid action
      (fun job => auditRequest h (l_agent_id lease) ("agent.desktop_" +:+ action +:+ "_requested") "desktop_lease" (l_id lease)
         [("agent_id", text (l_agent_id lease)); ("vmid", number vmid)])).

Definition admin_request {A} (session : Session) (csrf : string) (next : ctl A) : ctl A :=
  censure (is_admin session) (EReply 403 "permission_denied");;
  censure (ConstantTimeEqual csrf (CSRFToken session)) (EReply 403 "invalid_csrf_token");;
  next.

Definition changeVirtualMachinePower (session : Session) (csrf vmidText action : string) : ctl JobInfo :=
  admin_request session csrf (
  replayed_or ("user:" +:+ UserID (SessionUser session)) (fun key fingerprint =>
    vmid ← csome (Atoi vmidText) (EReply 400 "invalid_power_request");
    censure ((0 <? vmid) && ((action == "start") || (action == "stop"))) (EReply 400 "invalid_power_request");;
    summary ← reply_on desktopInventory 502 "pve_unavailable";
    m ← csome (List.find (fun m => (vm_id m =? vmid) && (vm_kind m == "qemu") && negb (vm_template m)) (sm_vms summary)) (EReply 404 "managed_vm_not_found");
    censure (vm_managed m) (EReply 404 "managed_vm_not_found");;
    censure (negb (power_conflict action (vm_status m))) (EReply 409 "power_state_conflict");;
    token ← reply_on (crandom 18) 500 "internal_error";
    submit_power
      (job_row ("job_" +:+ OpaqueToken token) key fingerprint ("pve.vm_" +:+ action) 0 vmid (vm_node m) (vm_node m)
        (JObj (detail_of [("vmid", number vmid); ("action", text action); ("node", text (vm_node m))])) (UserID (SessionUser session)))
      m vmid action
      (fun job => auditRequest h (UserID (SessionUser session)) ("virtual_machine." +:+ action +:+ "_requested") "job" (JobID job) [("vmid", number vmid)]))).
End power.

(** ** Clone requests *)

(** [json.Marshal], as the column keeps it. *)
Definition optional_text (name value : string) : list (string * json) := if value == "" then [] else [(name, text value)].
Definition encode_clone (r : desktopCloneRequest) : json :=
  JObj (detail_of ([("name", text (dc_name r)); ("source_vmid", number (dc_source_vmid r)); ("target_node", text (dc_target_node r));
    ("storage", text (dc_storage r)); ("full", JBool (dc_full r)); ("gpu_profile_id", text (dc_gpu_profile_id r))] ++
    optional_text "pci_resource_mapping" (dc_pci_resource_mapping r) ++ optional_text "mdev_type" (dc_mdev_type r) ++
    optional_text "validation_image_profile_id" (dc_validation_image_profile_id r) ++ optional_text "source_os_family" (dc_source_os_family r) ++
    optional_text "pve_principal" (dc_pve_principal r))).

(** ** Admission *)
Definition validateCloneImage (r : desktopCloneRequest) (profile : option ImageProfile) : bool :=
  if dc_validation_image_profile_id r != "" then
    match profile with
    | Some p =>
        (ip_id p == dc_validation_image_profile_id r) && (default 0 (ip_template_vmid p) =? dc_source_vmid r) &&
        ip_enabled p && (ip_build_status p == "testing") && dc_full r
    | None => false
    end
  else match profile with Some p => ip_enabled p && (ip_build_status p == "ready") | None => true end.

(** The Unicode tables behind [strings.EqualFold]. *)
Class UnicodeFold := unicode_equal_fold : string -> string -> bool.
Definition EqualFold `{UnicodeFold} (s t : string) : bool :=
  if str_forall is_ascii s && str_forall is_ascii t then equal_fold_ascii s t else unicode_equal_fold s t.

Section placement.
Context `{UnicodeLower} `{UnicodeFold}.

Definition after_last_colon (path : string) : string := default "" (last (split ":" path)).
Definition pciPathContainsDevice (path deviceID : string) : bool :=
  EqualFold path deviceID ||
  (let path := ToLower path in let deviceID := ToLower deviceID in
   negb (contains "." (after_last_colon path)) && has_prefix (path +:+ ".") deviceID).
Definition mappingEntryContainsDevice (entry : PCIResourceMappingEntry) (deviceID : string) : bool :=
  pciPathContainsDevice (me_device_id entry) deviceID || existsb (fun path => pciPathContainsDevice path deviceID) (me_device_paths entry).

Definition device_fits (p : GPUProfile) (node : string) (entry : PCIResourceMappingEntry) (d : GPUDevice) : bool :=
  (gd_node d == node) && mappingEntryContainsDevice entry (gd_id d) &&
  ((gp_vendor_id p == "") || EqualFold (gp_vendor_id p) (gd_vendor_id d)) &&
  ((gp_device_class p == "") || EqualFold (gp_device_class p) (gd_class d)) &&
  (if gp_mode p == "pci_passthrough" then gd_assignable d
   else if gp_mode p == "mdev" then existsb (fun kind => (md_type kind == gp_mdev_type p) && (0 <? md_available kind)) (gd_mdev_types d)
   else false).
Definition gpuPlacementAvailable (p : GPUProfile) (node : string) (mappings : list PCIResourceMapping) (devices : list GPUDevice) : bool :=
  (gp_mode p == "none") ||
  existsb (fun m => (pm_id m == gp_resource_mapping p) && Bool.eqb (gp_mode p == "mdev") (pm_mdev m) &&
    existsb (fun entry => (me_node entry == node) && existsb (device_fits p node entry) devices) (pm_entries m)) mappings.

(** ** Creating a desktop *)
Context `{Sha256} (principal : string).

Definition clone_name_ok (name : string) : bool :=
  has_prefix "vc-workspace-" name && (slen name <=? 63) && begins_with alphanumeric (fun c => alphanumeric c || (c == "-"%char)) 63 name.

(** The image profile of the template, when it has one. *)
Definition clone_image (source : Z) : ctl (option ImageProfile) :=
  r ← ctry (store_ (OpImageByTemplate source));
  match r with
  | inr p => mret (Some p)
  | inl (EStore ErrNotFound) => mret None
  | inl (EStore ErrConflict) => cfail (EReply 409 "image_template_ambiguous")
  | inl _ => cfail (EReply 500 "internal_error")
  end.

Definition gpu_supported (p : GPUProfile) : bool :=
  (((gp_mode p == "pci_passthrough") && gp_exclusive p) || ((gp_mode p == "mdev") && negb (gp_exclusive p) && (gp_mdev_type p != ""))) &&
  negb (gp_allow_live_migration p).

Definition gpu_profile (id : string) : ctl GPUProfile :=
  r ← ctry (store_ (OpGPUProfile id));
  match r with
  | inr p => censure (gp_enabled p) (EReply 409 "gpu_profile_disabled");; mret p
  | inl (EStore ErrNotFound) => cfail (EReply 422 "invalid_gpu_profile")
  | inl _ => cfail (EReply 500 "internal_error")
  end.

(** The request with the placement of its GPU. *)
Definition place_gpu (r : desktopCloneRequest) : ctl desktopCloneRequest :=
  p ← gpu_profile (dc_gpu_profile_id r);
  if gp_mode p == "none" then mret r else
  censure (gpu_supported p) (EReply 422 "unsupported_gpu_profile");;
  mappings ← reply_on (pve_ PMappings) 502 "pve_unavailable";
  devices ← reply_on (pve_ (PDevices [dc_target_node r])) 502 "pve_unavailable";
  censure (gpuPlacementAvailable p (dc_target_node r) mappings devices) (EReply 409 "gpu_unavailable");;
  mret (r <| dc_pci_resource_mapping := gp_resource_mapping p; dc_mdev_type := gp_mdev_type p |>).

(** What the server fills in. *)
Definition owned_fields (r : desktopCloneRequest) (source : VM) (image : option ImageProfile) : desktopCloneRequest :=
  let gpu := TrimSpace (dc_gpu_profile_id r) in
  r <| dc_pci_resource_mapping := ""; dc_mdev_type := "";
       dc_source_os_family := match image with Some p => ip_os_family p | None => "" end;
       dc_pve_principal := principal;
       dc_target_node := if dc_target_node r == "" then vm_node source else dc_target_node r;
       dc_gpu_profile_id := if gpu == "" then match image with Some p => ip_default_gpu_profile_id p | None => "none" end else gpu |>.

Definition admit_clone (summary : Summary) (r : desktopCloneRequest) : ctl (desktopCloneRequest * VM) :=
  source ← csome (List.find (fun m => (vm_id m =? dc_source_vmid r) && (vm_kind m == "qemu") && vm_template m) (sm_vms summary)) (EReply 422 "invalid_template");
  image ← clone_image (dc_source_vmid r);
  censure (validateCloneImage r image) (EReply 409 "image_not_cloneable");;
  let r := owned_fields r source image in
  censure (existsb (fun n => (pn_name n == dc_target_node r) && (pn_status n == "online")) (sm_nodes summary)) (EReply 422 "invalid_target_node");;
  r ← place_gpu r;
  censure ((dc_storage r == "") || existsb (fun s => (ps_name s == dc_storage r) && contains "images" (ps_content s)) (sm_storage summary)) (EReply 422 "invalid_storage");;
  mret (r, source).

(** The reservation. *)
Definition reserve_clone (key fingerprint userID : string) (summary : Summary) (r : desktopCloneRequest) (source : VM) : ctl (JobInfo * bool) :=
  target ← reply_on (pve_ PNextVMID) 502 "pve_unavailable";
  token ← reply_on (crandom 18) 500 "internal_error";
  created_by (store_ (OpReserveClone
    (job_row ("job_" +:+ OpaqueToken token) key fingerprint clone_op (dc_source_vmid r) target (dc_target_node r) (vm_node source) (encode_clone r) userID)
    (List.map vm_id (sm_vms summary)))).

Definition submit_clone (h : http_request) (userID : string) (r : desktopCloneRequest) (source : VM) (job : JobInfo) : ctl JobInfo :=
  task ← ctry (pve_ (PClone (MkCloneRequest (clone_marker (JobID job)) (vm_node source) (dc_source_vmid r) (TargetVMID job) (dc_name r) (dc_target_node r)
    (dc_storage r) (dc_full r))));
  match task with
  | inl _ =>
      cignore (store_ (OpUpdateJobTask (JobID job) "accepted" "" "PVE clone outcome is unknown; reconciliation required"));;
      cfail (EReply 502 "pve_clone_uncertain")
  | inr upid =>
      reply_on (store_ (OpRecordCloneHandle job upid)) 503 "clone_task_persistence_uncertain";;
      auditRequest h userID "desktop.clone_requested" "job" (JobID job)
        [("source_vmid", number (dc_source_vmid r)); ("target_vmid", number (TargetVMID job)); ("name", text (dc_name r));
         ("gpu_profile_id", text (dc_gpu_profile_id r)); ("pci_resource_mapping", text (dc_pci_resource_mapping r))];;
      mret (job_running job upid)
  end.

Definition createDesktopInstance (h : http_request) (q : job_request) (session : Session) (csrf : string) : ctl JobInfo :=
  let userID := UserID (SessionUser session) in
  admin_request session csrf (
  replayed_or q ("user:" +:+ userID) (fun key fingerprint =>
    r ← csome (jr_body q ≫= decode_clone_body) (EReply 400 "invalid_request");
    let r := r <| dc_name := TrimSpace (dc_name r) |> in
    censure (clone_name_ok (dc_name r)) (EReply 422 "invalid_name");;
    summary ← reply_on (pve_ PSummary) 502 "pve_unavailable";
    admitted ← admit_clone summary r;
    let '(r, source) := admitted in
    reserved ← reserve_clone key fingerprint userID summary r source;
    let '(job, created) := reserved in
    if negb created then mret job else submit_clone h userID r source job)).
End placement.
