(* ===== verification/ControllerJobs.v ===== *)
(** * Following tasks and settling clones ([internal/httpapi])

    clone_inspection.go, clone_network.go, clone_candidates.go,
    clone_recovery.go, pve_job_maintenance.go and the part of server.go that
    follows a task: a finished clone is recognised, configured, published and
    only then completed.  The same routine runs in the watcher that a request
    starts, in the handler that shows a job and in the maintenance loop of
    every replica. *)
From stdpp Require Import base strings list.
From Stdlib Require Import ZArith Lia Ascii.
From S2P Require Import Prelude GoStrings Auth Net Db Json Triggers StoreAccess StoreSession StoreConn StoreLease Computer Guest GuestAccount ComputerWire StoreAudit StoreJobs StoreCatalog Pve Controller ControllerScripts PveClient ControllerNative ControllerAgent ControllerHttp ControllerConnect ControllerRecovery ControllerClone.

Local Open Scope string_scope.
Local Open Scope list_scope.
Local Open Scope Z_scope.

(** ** The target of a clone *)
Definition clone_configured (job : JobInfo) (name : string) (c : VMConfiguration) : bool :=
  negb (vc_template c) && (vc_name c == name) && (vc_description c == clone_marker (JobID job)).

Definition observeCloneTarget (job : JobInfo) (r : desktopCloneRequest) : ctl string :=
  summary ← pve_ PSummary;
  match List.filter (fun m => vm_id m =? TargetVMID job) (sm_vms summary) with
  | [] => mret "target_absent"
  | [m] =>
      if (vm_node m != TargetNode job) || (vm_kind m != "qemu") || vm_template m then mret "target_mismatch" else
      c ← pve_ (PConfiguration (vm_node m) (vm_id m));
      mret (if negb (clone_configured job (dc_name r) c) then "target_mismatch"
            else if vc_lock c != "" then "target_locked" else "marker_matches")
  | _ => cfail EOther
  end.

Definition requireCloneTarget (job : JobInfo) (r : desktopCloneRequest) : ctl unit :=
  status ← observeCloneTarget job r;
  censure (status == "marker_matches") EOther.

Definition ensureCloneNetwork (job : JobInfo) (r : desktopCloneRequest) : ctl unit :=
  if dc_source_os_family r != "linux" then mret tt else
  c ← pve_ (PConfiguration (TargetNode job) (TargetVMID job));
  censure (clone_configured job (dc_name r) c && (vc_lock c == "")) EOther;;
  if negb (HasCloudInitDisk c) || (map_get "ipconfig0" (vc_ip_configs c) != "") then mret tt else
  censure ((map_get "net0" (vc_network_adapters c) != "") && ValidConfigurationDigest (vc_digest c)) EOther;;
  pve_ (PConfigureDHCP (TargetNode job) (TargetVMID job) (vc_digest c));;
  updated ← pve_ (PConfiguration (TargetNode job) (TargetVMID job));
  censure (map_get "ipconfig0" (vc_ip_configs updated) == "ip=dhcp") EOther.

(** ** Settling a task *)
Section settling.
Context `{UnicodeLower}.

(** The GPU of the clone; [false]: PVE refused the configuration. *)
Definition configure_gpu (job : JobInfo) (r : desktopCloneRequest) : ctl bool :=
  if dc_pci_resource_mapping r == "" then mret true else
  c ← pve_ (PConfiguration (TargetNode job) (TargetVMID job));
  censure (clone_configured job (dc_name r) c && (vc_lock c == "") && ValidConfigurationDigest (vc_digest c)) EOther;;
  if MatchesGPUResourceMapping (map_get "hostpci0" (vc_pci_host_devices c)) (dc_pci_resource_mapping r) (dc_mdev_type r) then mret true else
  done ← ctry (if dc_mdev_type r != ""
               then pve_ (PConfigureMDev (TargetNode job) (TargetVMID job) (dc_pci_resource_mapping r) (dc_mdev_type r) (vc_digest c))
               else pve_ (PConfigurePCI (TargetNode job) (TargetVMID job) (dc_pci_resource_mapping r) (vc_digest c)));
  mret (match done with inr _ => true | inl _ => false end).

Definition clone_os (job : JobInfo) (r : desktopCloneRequest) : ctl string :=
  let os := dc_source_os_family r in
  if (os == "linux") || (os == "windows") then mret os else
  c ← ctry (pve_ (PConfiguration (TargetNode job) (TargetVMID job)));
  mret (match c with inr c => desktopOSFamily (vc_os_type c) | inl _ => "unknown" end).

Definition cloned_desktop (job : JobInfo) (r : desktopCloneRequest) (os : string) : DesktopInfo :=
  MkDesktopInfo (TargetVMID job) (dc_name r) (TargetNode job) os true true Personal "" "" IdPending "" "" 0 0 0 0.

(** The state and message in which the job ends. *)
Definition publish_clone (job : JobInfo) (r : desktopCloneRequest) : ctl (string * string) :=
  requireCloneTarget job r;;
  ensureCloneNetwork job r;;
  configured ← configure_gpu job r;
  os ← clone_os job r;
  requireCloneTarget job r;;
  let desktop := cloned_desktop job r os in
  if configured : bool then store_ (OpUpsertDesktop desktop);; mret ("succeeded", "")
  else store_ (OpQuarantineDesktop desktop);; mret ("failed", "PCI resource mapping configuration failed").

Definition settled_as (job : JobInfo) (status : TaskStatus) : ctl (string * string) :=
  if ts_exit_status status != "OK" then mret ("failed", ts_exit_status status)
  else if Operation job == clone_op then
    match decode_clone (Request job) with
    | None => mret ("failed", "Stored desktop request is invalid")
    | Some r => publish_clone job r
    end
  else mret ("succeeded", "").

Definition settle_job (job : JobInfo) : ctl JobInfo :=
  status ← pve_ (PTaskStatus (TaskNode job) (UPID job));
  if ts_status status != "stopped" then mret job else
  result ← settled_as job status;
  let '(state, message) := result in
  completed ← store_ (OpCompleteJobTask (JobID job) state (UPID job) message);
  (if completed : bool then
     cignore (store_ (OpAudit (JobCreatedBy job) (if state == "failed" then "job.failed" else "job.succeeded") "job" (JobID job)
       (JObj (detail_of [("operation", text (Operation job)); ("target_vmid", number (TargetVMID job)); ("target_node", text (TargetNode job));
          ("error", text message)]))))
   else mret tt);;
  mret (job_settled job state message).

Definition followed_job (job : JobInfo) : bool := (State job == "running") && (UPID job != "").

Definition refreshPVEJob (jobID : string) : ctl JobInfo :=
  job ← store_ (OpJob jobID);
  if negb (followed_job job) then mret job else
  if Operation job == clone_op then
    WithDesktopConnectionLock (TargetVMID job) (
      job ← store_ (OpJob jobID);
      if negb (followed_job job) then mret job else settle_job job)
  else settle_job job.

(** ** Who follows a job *)

(** The errors that end a watcher.  An answer that was lost is the context's
    error when the context has ended. *)
Definition ends_watch (e : ctl_error) : ctl bool :=
  match e with
  | EStore ErrNotFound | EContextEnded _ => mret true
  | EPve f => mret (match FailContext f with Some _ => true | None => false end)
  | ELost | ELock => ended ← ccontext; mret (match ended with Some _ => true | None => false end)
  | _ => mret false
  end.

(** The first [rounds] rounds of a watcher. *)
Fixpoint watchPVEJob (rounds : nat) (jobID : string) : ctl unit :=
  match rounds with
  | O => mret tt
  | S rounds' =>
      r ← ctry (refreshPVEJob jobID);
      over ← (match r with inl e => ends_watch e | inr job => mret (State job != "running") end);
      if over : bool then mret tt else
      CTimer second (fun ended => match ended with Some _ => mret tt | None => watchPVEJob rounds' jobID end)
  end.

Definition found_job (id unavailable : string) (status : Z) : ctl JobInfo :=
  r ← ctry (store_ (OpJob id));
  match r with
  | inr job => mret job
  | inl (EStore ErrNotFound) => cfail (EReply 404 "job_not_found")
  | inl _ => cfail (EReply status unavailable)
  end.

(** The handler [job]. *)
Definition job_ (session : Session) (id : string) : ctl JobInfo :=
  censure (is_admin session) (EReply 403 "permission_denied");;
  job ← found_job id "internal_error" 500;
  if negb (followed_job job) then mret job else
  r ← ctry (refreshPVEJob (JobID job));
  mret (match r with inr refreshed => refreshed | inl _ => job end).

(** The clones of one page, and the cursor behind the last one tried. *)
Fixpoint resume_clones (cursor : string) (ids : list string) : ctl (option string) :=
  match ids with
  | [] => mret (Some cursor)
  | id :: rest =>
      ended ← ccontext;
      match ended with
      | Some _ => mret None
      | None => cignore (refreshPVEJob id);; resume_clones id rest
      end
  end.

(** The first [rounds] rounds of the loop, which only its context ends. *)
Fixpoint pve_rounds (rounds : nat) (cursor : string) : ctl unit :=
  match rounds with
  | O => mret tt
  | S rounds' =>
      ended ← ccontext;
      match ended with
      | Some _ => mret tt
      | None =>
          page ← ctry (store_ (OpPendingClones cursor 32));
          next ← (match page with
                  | inl _ => mret (Some cursor)
                  | inr ids => resume_clones (match ids with [] => "" | _ => cursor end) ids
                  end);
          match next with
          | None => mret tt
          | Some cursor => CTimer (5 * second) (fun ended => match ended with Some _ => mret tt | None => pve_rounds rounds' cursor end)
          end
      end
  end.
Definition RunPVEJobMaintenance (rounds : nat) : ctl unit := pve_rounds rounds "".
End settling.

(** ** Inspection *)
Definition inspectCloneTarget (h : http_request) (session : Session) (id : string) : ctl string :=
  censure (is_admin session) (EReply 403 "permission_denied");;
  job ← found_job id "inspection_unavailable" 503;
  r ← csome (if (Operation job != clone_op) || (TargetVMID job <=? 0) || (TargetNode job == "") then None
             else r ← decode_clone (Request job); if dc_name r == "" then None else Some r) (EReply 409 "clone_inspection_unavailable");
  status ← reply_on (observeCloneTarget job r) 503 "inspection_unavailable";
  auditRequest h (UserID (SessionUser session)) "job.clone_inspected" "job" (JobID job) [("status", text status)];;
  mret status.

(** The zero [time.Time]. *)
Definition zero_time : time := -62135596800 * micros 1.
Definition task_since (job : JobInfo) : Z := unix_seconds (JobCreatedAt job - 30 * micros 1).
Definition task_until (job : JobInfo) : Z := unix_seconds (JobCreatedAt job + 900 * micros 1).

Definition unresolved_clone (job : JobInfo) : bool :=
  (Operation job == clone_op) && (State job == "accepted") && (UPID job == "") && (0 <? SourceVMID job) && (TaskNode job != "") &&
  (JobCreatedAt job != zero_time).

(** The request, when it names who submitted it. *)
Definition owned_clone (job : JobInfo) : option desktopCloneRequest :=
  r ← decode_clone (Request job);
  if (dc_pve_principal r == "") || (dc_name r == "") || (TargetVMID job <=? 0) || (TargetNode job == "") then None else Some r.

Record candidate_report : Set := MkCandidateReport {
  cr_upid : string;
  cr_start_time : Z;
  cr_status : string;
  cr_exit_status : string;
  cr_log_target_status : string
}.

Definition same_task (c : CloneTaskCandidate) (e : TaskEvidence) : bool :=
  (te_type e == tc_type c) && (te_id e == tc_id c) && (te_user e == tc_user c) && (te_token_id e == tc_token_id c) && (te_start_time e =? tc_start_time c).

Definition log_status (job : JobInfo) (found : option (Z * Z)) : string :=
  match found with
  | None => "unrecognized"
  | Some (source, target) => if (source =? SourceVMID job) && (target =? TargetVMID job) then "matches" else "mismatch"
  end.

Definition inspect_candidate (job : JobInfo) (c : CloneTaskCandidate) : ctl candidate_report :=
  e ← reply_on (pve_ (PInspectTask (TaskNode job) (tc_upid c))) 503 "inspection_unavailable";
  censure (same_task c e) (EReply 503 "inspection_unavailable");;
  found ← reply_on (pve_ (PCloneLog (TaskNode job) (tc_upid c))) 503 "inspection_unavailable";
  mret (MkCandidateReport (tc_upid c) (tc_start_time c) (te_status e) (te_exit_status e) (log_status job found)).

Fixpoint inspect_candidates (job : JobInfo) (principal : string) (l : list CloneTaskCandidate) : ctl (list candidate_report) :=
  match l with
  | [] => mret []
  | c :: rest =>
      if task_principal (tc_user c) (tc_token_id c) != principal then inspect_candidates job principal rest else
      report ← inspect_candidate job c;
      reports ← inspect_candidates job principal rest;
      mret (report :: reports)
  end.

Definition cloneTaskCandidates (h : http_request) (session : Session) (id : string) : ctl (list candidate_report * string) :=
  censure (is_admin session) (EReply 403 "permission_denied");;
  job ← found_job id "inspection_unavailable" 503;
  censure (unresolved_clone job) (EReply 409 "clone_discovery_unavailable");;
  r ← csome (owned_clone job) (EReply 409 "clone_discovery_unavailable");
  candidates ← reply_on (pve_ (PCloneCandidates (TaskNode job) (SourceVMID job) (task_since job) (task_until job))) 503 "inspection_unavailable";
  reports ← inspect_candidates job (dc_pve_principal r) candidates;
  status ← reply_on (observeCloneTarget job r) 503 "inspection_unavailable";
  auditRequest h (UserID (SessionUser session)) "job.clone_candidates_inspected" "job" (JobID job)
    [("candidate_count", number (Z.of_nat (length reports))); ("target_status", text status)];;
  mret (reports, status).

(** ** Recovery *)
Definition recovery_input_ok (upid reason : string) : bool := task_handle upid && (reason != "") && (rune_count reason <=? 500).

Definition task_proves (job : JobInfo) (r : desktopCloneRequest) (e : TaskEvidence) : bool :=
  (te_type e == "qmclone") && (te_id e == itoa (SourceVMID job)) && (task_principal (te_user e) (te_token_id e) == dc_pve_principal r) &&
  (task_since job <=? te_start_time e) && (te_start_time e <=? task_until job) && (te_status e == "stopped") && (te_exit_status e == "OK").

Definition recovery_mismatch : ctl_error := EReply 409 "recovery_evidence_mismatch".

Definition commit_clone (session : Session) (job : JobInfo) (r : desktopCloneRequest) (upid reason : string) : ctl JobInfo :=
  e ← reply_on (pve_ (PInspectTask (TaskNode job) upid)) 503 "recovery_unavailable";
  censure (task_proves job r e) recovery_mismatch;;
  found ← reply_on (pve_ (PCloneLog (TaskNode job) upid)) 503 "recovery_unavailable";
  censure (log_status job found == "matches") recovery_mismatch;;
  status ← reply_on (observeCloneTarget job r) 503 "recovery_unavailable";
  censure (status == "marker_matches") recovery_mismatch;;
  committed ← ctry (store_ (OpCommitCloneRecovery rune_count job upid (UserID (SessionUser session)) reason));
  match committed with
  | inr _ => mret (job_settled (job_running job upid) "running" "")
  | inl (EStore ErrConflict) => cfail (EReply 409 "recovery_state_changed")
  | inl _ => cfail (EReply 503 "recovery_commit_uncertain")
  end.

Definition recoverCloneTask (session : Session) (csrf id : string) (body : option (string * string)) : ctl JobInfo :=
  censure (is_admin session) (EReply 403 "permission_denied");;
  censure ((CSRFToken session != "") && ConstantTimeEqual csrf (CSRFToken session)) (EReply 403 "invalid_csrf_token");;
  body ← csome body (EReply 400 "invalid_request");
  let '(upid, reason) := body in
  let reason := TrimSpace reason in
  censure (recovery_input_ok upid reason) (EReply 422 "invalid_recovery");;
  job ← found_job id "recovery_unavailable" 503;
  r ← csome (if unresolved_clone job then owned_clone job else None) (EReply 409 "recovery_state_changed");
  with_control_lock (TargetVMID job) "recovery_unavailable" (commit_clone session job r upid reason).
