(* ===== verification/ControllerJobsProofs.v ===== *)
(** * Jobs follow the rules

    PVE is asked for a clone or a power change only for a job that did not
    exist before; a clone is changed and published only in a section in which
    it was recognised; a job ends well only after its task did and its desktop
    is registered. *)
From stdpp Require Import base strings list.
From Stdlib Require Import ZArith Lia Ascii.
From S2P Require Import Prelude GoStrings Auth Net Db Json Triggers TriggerLemmas StoreAccess StoreSession StoreConn StoreLease Computer Guest GuestAccount ComputerWire StoreAudit StoreJobs StoreCatalog Pve Controller ControllerScripts PveClient ControllerNative ControllerAgent ControllerRules ControllerFacts ControllerLogic ControllerNativeProofs ControllerAgentProofs ControllerMaintenance ControllerHttp ControllerHttpProofs ControllerConnect ControllerConnectProofs ControllerRecovery ControllerClone ControllerJobs.

Local Open Scope string_scope.
Local Open Scope list_scope.
Local Open Scope Z_scope.

(** Every clone job keeps its target. *)
Definition clones_homed (home : string -> Z) (s : DB) : Prop :=
  forall j, In j (pve_jobs s) -> j_operation j = clone_op -> default 0 (j_target_vmid j) = home (j_id j).

Section jobs_proofs.
Context `{Sha256} `{Collation} `{UnicodeLower} `{UnicodeFold} (has_input : bool) (legacy_revoker : string) (state_ok : DB -> Prop).
Notation safe := (safe has_input legacy_revoker state_ok).
Notation between := (between has_input legacy_revoker state_ok).
Notation unlocked := (unlocked has_input legacy_revoker state_ok).

(** ** Questions without a condition *)
Lemma safe_any_pve {B} tr (q : pve_op B) : pve_permitted tr q = true -> safe tr (pve_ q) (fun _ _ => True).
Proof. intros Hq. by apply safe_pve. Qed.

Lemma safe_try_any {A} tr (p : ctl A) : safe tr p (fun _ _ => True) -> safe tr (ctry p) (fun _ _ => True).
Proof. intros Hp. by eapply safe_ctry. Qed.

Lemma safe_any_random tr n : safe tr (crandom n) (fun _ _ => True).
Proof. by apply safe_random. Qed.

(** ** Submissions *)
Lemma unspent_now p used e l : p e = true -> unspent p used (e :: l) = true.
Proof. simpl. by intros ->. Qed.

Lemma safe_prepare tr q principal : safe tr (prepareJobRequest q principal) (fun _ _ => True).
Proof.
  unfold prepareJobRequest. apply safe_guard. intros _. eapply safe_bind; [by apply (safe_some _ _ _ _ _ _ (fun _ _ => True)) |]. intros body t _ _.
  apply safe_guard. intros _. eapply safe_bind; [by apply (safe_some _ _ _ _ _ _ (fun _ _ => True)) |]. intros text t' _ _.
  eapply safe_bind; [by apply safe_try_any, safe_any_store |]. intros [[[] | | | | | | | |] | job] t1 _ _; try apply safe_fail; [| by apply safe_ret].
  eapply safe_bind; [by apply safe_try_any, safe_any_store |]. intros [[[] | | | | | | | |] | job] t2 _ _; try apply safe_fail. by apply safe_ret.
Qed.

Lemma safe_created {A} tr (p : ctl A) (Q : A -> list happened -> Prop) : safe tr p Q -> safe tr (created_by p) Q.
Proof.
  intros Hp. unfold created_by. eapply (safe_bind _ _ _ _ _ _ (fun r t => match r with inl _ => True | inr a => Q a t end)); [by eapply safe_ctry |].
  intros [e | a] t _ Hr; [destruct e as [[] | | | | | | | |]; apply safe_fail | by apply safe_ret].
Qed.

Lemma submit_power_safe tr row m vmid action audit : TargetVMID row = vmid -> (forall tr job, safe tr (audit job) (fun _ _ => True)) ->
  safe tr (submit_power row m vmid action audit) (fun _ _ => True).
Proof.
  intros Hv Ha. unfold submit_power.
  eapply safe_bind; [apply (safe_created _ _ (fun b t => snd b = true -> unspent (fresh_power vmid) is_power t = true)), safe_store; [done |] |].
  - intros cx s f [job fresh] _ E Hf. cbn in Hf. subst fresh. apply unspent_now. unfold fresh_power. cbn -[store_answer]. by rewrite E, Hv, Z.eqb_refl.
  - intros [job fresh] t _ Hf. destruct fresh; cbn [negb]; [| by apply safe_ret].
    eapply safe_bind; [apply safe_try_any, safe_any_pve; by apply Hf |]. intros [e | upid] t1 _ _.
    + apply safe_then_fail. eapply safe_ignore. by apply safe_any_store.
    + eapply safe_bind; [eapply safe_ignore; by apply safe_any_store |]. intros _ t2 _ _.
      eapply safe_bind; [apply Ha |]. intros. by apply safe_ret.
Qed.

(** ** Steps that no rule limits *)
Lemma calm_some {A} tr (o : option A) e : safe tr (csome o e) (fun _ _ => True).
Proof. by apply safe_some. Qed.
Lemma calm_store {B} tr (q : store_op B) : store_permitted tr q = true -> safe tr (store_ q) (fun _ _ => True).
Proof. apply safe_any_store. Qed.
Lemma calm_reply {A} tr (p : ctl A) status code : safe tr p (fun _ _ => True) -> safe tr (reply_on p status code) (fun _ _ => True).
Proof. apply safe_reply. Qed.
Lemma calm_ignore {A} tr (p : ctl A) : safe tr p (fun _ _ => True) -> safe tr (cignore p) (fun _ _ => True).
Proof. apply safe_ignore. Qed.
Lemma calm_ret {A} tr (a : A) : safe tr (mret a) (fun _ _ => True).
Proof. by apply safe_ret. Qed.
Lemma calm_fail {A} tr e : safe tr (@cfail A e) (fun _ _ => True).
Proof. apply safe_fail. Qed.
Lemma calm_machine tr vmid : safe tr (managedVirtualMachine vmid) (fun _ _ => True).
Proof. eapply safe_mono; [| apply safe_machine]. done. Qed.
Lemma calm_context tr : safe tr ccontext (fun _ _ => True).
Proof. by apply safe_context. Qed.
Lemma calm_bind {A B} tr (p : ctl A) (f : A -> ctl B) Q :
  safe tr p (fun _ _ => True) -> (forall a t, extends tr t -> safe t (f a) Q) -> safe tr (p ≫= f) Q.
Proof. intros Hp Hf. eapply safe_bind; [exact Hp |]. intros a t E _. by apply Hf. Qed.
End jobs_proofs.

Create HintDb calm.
#[export] Hint Resolve safe_any_pve safe_try_any safe_any_random safe_prepare calm_some calm_store calm_reply calm_ignore calm_ret calm_fail calm_machine safe_auditing safe_inventory calm_context safe_user_access safe_any_now : calm.
#[export] Hint Extern 0 (store_permitted _ _ = true) => reflexivity : calm.
#[export] Hint Extern 0 (pve_permitted _ _ = true) => reflexivity : calm.

(** One step of a task: a guard, a failure, or a step without a condition. *)
Ltac calm_step :=
  match goal with
  | |- ControllerLogic.safe _ _ _ _ (censure _ _ ≫= _) _ => apply safe_guard; intros ?
  | |- ControllerLogic.safe _ _ _ _ (cfail _) _ => apply safe_fail
  | |- ControllerLogic.safe _ _ _ _ (_ ≫= _) _ => apply calm_bind; [solve [eauto 6 with calm nocore] | intros ? ? ?]
  end.

(** The answer of a call, case by case. *)
Ltac case_answer :=
  match goal with
  | |- ControllerLogic.safe _ _ _ _ (match ?r with _ => _ end) _ => destruct r as [[[] | | | | | | | |] | ?]; eauto with calm
  end.

Section handlers.
Context `{Sha256} `{Collation} `{UnicodeLower} `{UnicodeFold} (has_input : bool) (legacy_revoker : string) (state_ok : DB -> Prop).
Notation safe := (safe has_input legacy_revoker state_ok).
Notation between := (between has_input legacy_revoker state_ok).
Notation unlocked := (unlocked has_input legacy_revoker state_ok).

Lemma replayed_safe tr q principal fresh : (forall t key fingerprint, safe t (fresh key fingerprint) (fun _ _ => True)) ->
  safe tr (replayed_or q principal fresh) (fun _ _ => True).
Proof. intros Hf. unfold replayed_or. calm_step. destruct a as [job | [key fingerprint]]; [apply calm_ret | apply Hf]. Qed.

Lemma native_power_safe tr h q userID vmidText action : safe tr (changeNativeDesktopPower h q userID vmidText action) (fun _ _ => True).
Proof.
  unfold changeNativeDesktopPower. do 3 calm_step. apply replayed_safe. intros t1 key fingerprint. calm_step.
  apply calm_bind; [case_answer |]. intros m ? _. do 2 calm_step. apply submit_power_safe; [done |]. eauto with calm.
Qed.

Lemma calm_lease tr h : safe tr (requireAgentLease h) (fun _ _ => True).
Proof. unfold requireAgentLease. do 6 calm_step. apply calm_ret. Qed.

Lemma agent_power_safe tr h q action : safe tr (changeAgentDesktopPower h q action) (fun _ _ => True).
Proof.
  unfold changeAgentDesktopPower. eapply calm_bind; [apply calm_lease | intros lease ? _]. do 2 calm_step.
  apply replayed_safe. intros t1 key fingerprint. do 3 calm_step. apply submit_power_safe; [done |]. eauto with calm.
Qed.

Lemma admin_safe {A} tr session csrf (next : ctl A) Q : safe tr next Q -> safe tr (admin_request session csrf next) Q.
Proof. intros Hn. unfold admin_request. by do 2 calm_step. Qed.

Lemma admin_power_safe tr h q session csrf vmidText action : safe tr (changeVirtualMachinePower h q session csrf vmidText action) (fun _ _ => True).
Proof.
  apply admin_safe, replayed_safe. intros t key fingerprint. do 7 calm_step. apply submit_power_safe; [done |]. eauto with calm.
Qed.

(** ** Clones *)
Lemma place_gpu_safe tr r : safe tr (place_gpu r) (fun r' _ => dc_source_vmid r' = dc_source_vmid r /\ dc_target_node r' = dc_target_node r).
Proof.
  unfold place_gpu, gpu_profile. apply calm_bind; [calm_step; case_answer; calm_step; apply calm_ret | intros p t _].
  destruct (bool_decide _); [by apply safe_ret |]. do 4 calm_step. by apply safe_ret.
Qed.

Lemma admit_clone_safe tr principal summary r : safe tr (admit_clone principal summary r) (fun _ _ => True).
Proof.
  unfold admit_clone, clone_image. calm_step. apply calm_bind; [calm_step; case_answer | intros image ? _]. do 2 calm_step.
  eapply safe_bind; [apply place_gpu_safe | intros r' ? _ _]. calm_step. apply calm_ret.
Qed.

(** The job is fresh, and for this clone. *)
Lemma reserve_clone_safe tr key fingerprint userID summary r source : safe tr (reserve_clone key fingerprint userID summary r source)
  (fun b t => snd b = true -> unspent (fresh_clone (MkCloneRequest (clone_marker (JobID (fst b))) (vm_node source) (dc_source_vmid r) (TargetVMID (fst b)) (dc_name r)
     (dc_target_node r) (dc_storage r) (dc_full r))) is_clone t = true).
Proof.
  unfold reserve_clone. do 2 calm_step. apply safe_created, safe_store; [done |]. intros cx s f [job fresh] _ E Hf. cbn [snd] in Hf. subst fresh.
  apply unspent_now. unfold fresh_clone. cbn -[store_answer clone_marker]. rewrite E. cbn. by rewrite !Z.eqb_refl, !bool_decide_true.
Qed.

Lemma submit_clone_safe tr h userID r source job :
  unspent (fresh_clone (MkCloneRequest (clone_marker (JobID job)) (vm_node source) (dc_source_vmid r) (TargetVMID job) (dc_name r)
     (dc_target_node r) (dc_storage r) (dc_full r))) is_clone tr = true ->
  safe tr (submit_clone h userID r source job) (fun _ _ => True).
Proof.
  intros Hu. unfold submit_clone.
  eapply (safe_bind _ _ _ _ _ _ (fun x t => match x with inl _ => True | inr upid => proved (clone_started job upid) t = true end)).
  - eapply safe_ctry; [apply (safe_pve _ _ _ _ _ (fun upid t => proved (clone_started job upid) t = true)); [by intros; apply Hu |] | done | done].
    intros upid. apply proved_now; [done |]. cbn -[clone_marker]. by rewrite !bool_decide_true.
  - intros [e | upid] t _ Hs; [by apply safe_then_fail; eauto with calm |].
    apply calm_bind; [apply calm_reply, calm_store; exact Hs | intros [] t' _]. calm_step. apply calm_ret.
Qed.

Lemma create_safe tr principal h q session csrf : safe tr (createDesktopInstance principal h q session csrf) (fun _ _ => True).
Proof.
  apply admin_safe, replayed_safe. intros t key fingerprint. calm_step. cbv zeta. do 2 calm_step.
  apply calm_bind; [apply admit_clone_safe | intros [r' source] ? _].
  eapply safe_bind; [apply reserve_clone_safe | intros [job fresh] ? _ Hf]. destruct fresh; cbn [negb]; [| apply calm_ret].
  apply submit_clone_safe. by apply Hf.
Qed.
End handlers.

(** * Settling follows the rules

    The section in which a finished clone is recognised, configured and
    published, whoever runs it: the watcher of a request, the handler that
    shows a job, or the maintenance loop of any replica; and the recovery of a
    clone whose task handle was lost. *)

Section settle_proofs.
Context `{Sha256} `{Collation} `{UnicodeLower} (has_input : bool) (legacy_revoker : string) (state_ok : DB -> Prop).
Context (home : string -> Z) (Hhome : forall s, state_ok s -> clones_homed home s).
Notation safe := (safe has_input legacy_revoker state_ok).
Notation between := (between has_input legacy_revoker state_ok).
Notation unlocked := (unlocked has_input legacy_revoker state_ok).

(** The job was read in this section. *)
Notation reported_job job tr := (witnessed (fun e => In job (reported_jobs e)) tr).

Lemma job_answer id cx s f job : state_ok s -> store_answer (OpJob id) cx s f = inr job ->
  JobID job = id /\ (Operation job = clone_op -> TargetVMID job = home id).
Proof.
  intros Hs E. apply answered_inr in E as [s' E]. cbn [perform] in E. unfold JobByID, jobByQuery in E. inv_tx.
  match goal with Hr : select_one _ _ = Some _ |- _ => apply select_one_some in Hr as [Hin Hp] end. b2p.
  split; [done |]. cbn. intros Ho. rewrite <- Hp. by eapply Hhome.
Qed.

Lemma safe_job tr id : safe tr (store_ (OpJob id))
  (fun job t => JobID job = id /\ (Operation job = clone_op -> TargetVMID job = home id) /\ reported_job job t).
Proof.
  apply safe_store; [done |]. intros cx s f job Hs E. destruct (job_answer _ _ _ _ _ Hs E) as [Hid Ht]. split_and!; [done.. |].
  apply witnessed_now; [done |]. cbn -[store_answer]. rewrite E. by left.
Qed.

(** A rule about some job that the store reported. *)
Lemma reported_rule job (p : JobInfo -> bool) tr : reported_job job tr -> p job = true -> proved (fun e => existsb p (reported_jobs e)) tr = true.
Proof. intros (e & Hin & Hj) Hp. apply proved_witness. exists e. split; [done |]. apply existsb_exists. by exists job. Qed.

(** ** The target *)
Definition target_known (job : JobInfo) (tr : list happened) : Prop :=
  proved (listed job) tr = true /\ unspent (configuration_says job (recognised job)) is_configuration (section tr) = true.

Lemma unspent_exists p used l : unspent p used l = true -> existsb p l = true.
Proof.
  induction l as [| e l IH]; [done |]. simpl. destruct (p e); [done |]. simpl. intros Hu. apply andb_true_iff in Hu as [_ Hu]. auto.
Qed.

Lemma target_recognised job tr : target_known job tr -> proved (configuration_says job (recognised job)) tr = true.
Proof. intros [_ Hu]. by apply unspent_exists in Hu. Qed.

Lemma observe_safe tr job r : decode_clone (Request job) = Some r ->
  safe tr (observeCloneTarget job r) (fun status t => status = "marker_matches" -> target_known job t).
Proof.
  intros Hr. unfold observeCloneTarget.
  eapply (safe_bind _ _ _ _ _ _ (fun s t => forall m, List.filter (fun m => vm_id m =? TargetVMID job) (sm_vms s) = [m] ->
    vm_node m = TargetNode job -> vm_kind m = "qemu" -> vm_template m = false -> proved (listed job) t = true)).
  { apply safe_pve; [done |]. intros s m Hf Hn Hk Ht. apply proved_now; [done |]. cbn. rewrite Hf, Hn, Hk, Ht. by rewrite !bool_decide_true. }
  intros s t _ Hl. destruct (List.filter _ (sm_vms s)) as [| m [| m' rest]] eqn:Ef; [by apply safe_ret | | apply safe_fail].
  destruct (_ || vm_template m) eqn:Hm; [by apply safe_ret |]. rewrite !orb_false_iff, !negb_false_iff, !bool_decide_eq_true in Hm. destruct Hm as [[Hn Hk] Ht].
  specialize (Hl m eq_refl Hn Hk Ht).
  assert (vm_id m = TargetVMID job) as Hv.
  { apply Z.eqb_eq. assert (In m (List.filter (fun m => vm_id m =? TargetVMID job) (sm_vms s))) as Hin by (rewrite Ef; by left). apply filter_In in Hin. tauto. }
  eapply (safe_bind _ _ _ _ _ _ (fun c t' => clone_configured job (dc_name r) c = true -> vc_lock c = "" -> target_known job t')).
  - apply safe_pve; [done |]. intros c Hc Hk'. split; [by apply (proved_mono _ t); [apply extends_cons |] |].
    destruct (section_cons (HPve (PConfiguration (vm_node m) (vm_id m)) (inr c)) t eq_refl) as [_ ->]. apply unspent_now. cbn.
    unfold recognised. rewrite Hr, Hn, Hv, Hk', Z.eqb_refl, !bool_decide_true by done. unfold clone_configured in Hc. b2p. destruct_and!.
    by repeat match goal with Hx : _ = _ |- _ => rewrite Hx end.
  - intros c t' _ Hc. apply safe_ret. destruct (clone_configured job (dc_name r) c); [| done]. cbn [negb].
    destruct (bool_decide (vc_lock c = "")) eqn:Hk'; cbn; [| done]. intros _. apply Hc; [done |]. by apply bool_decide_eq_true in Hk'.
Qed.

Lemma require_safe tr job r : decode_clone (Request job) = Some r -> safe tr (requireCloneTarget job r) (fun _ t => target_known job t).
Proof.
  intros Hr. unfold requireCloneTarget. eapply safe_bind; [by apply observe_safe | intros status t _ Hs].
  apply safe_ensure. intros Hm. apply Hs. by apply bool_decide_eq_true in Hm.
Qed.

(** ** Configuration *)

(** A section in which the task of a clone was seen to have ended well. *)
Definition settling (job : JobInfo) (tr : list happened) : Prop :=
  holds_lock tr (TargetVMID job) = true /\ reported_job job tr /\ proved (task_ok job) tr = true.

Lemma settling_mono job tr tr' : extends tr tr' -> settling job tr -> settling job tr'.
Proof. intros E (Hl & Hj & Ht). carry E. by split_and!. Qed.

Lemma safe_configuration tr job : safe tr (pve_ (PConfiguration (TargetNode job) (TargetVMID job)))
  (fun c t => forall p, p c = true -> proved (configuration_says job p) t = true).
Proof.
  apply safe_pve; [done |]. intros c p Hp. apply proved_now; [done |]. cbn. by rewrite Hp, Z.eqb_refl, bool_decide_true.
Qed.

Lemma configured_recognised job r c : decode_clone (Request job) = Some r -> clone_configured job (dc_name r) c = true -> vc_lock c = "" -> recognised job c = true.
Proof.
  unfold clone_configured, recognised. intros -> Hc Hk. b2p. destruct_and!. rewrite Hk. by repeat match goal with Hx : _ = _ |- _ => rewrite Hx end.
Qed.

Lemma configure_permitted tr job digest : Operation job = clone_op -> settling job tr ->
  proved (configuration_says job (fun c => recognised job c && (vc_digest c == digest) && ValidConfigurationDigest digest)) tr = true ->
  holds_lock tr (TargetVMID job) && proved (fun e => existsb (configurable (TargetVMID job) (TargetNode job) digest (section tr)) (reported_jobs e)) tr = true.
Proof.
  intros Ho (Hl & Hj & Ht) Hc. rewrite Hl. apply (reported_rule job); [done |]. unfold configurable, proved in *.
  by rewrite Ho, Ht, Hc, Z.eqb_refl, !bool_decide_true.
Qed.

Lemma network_ready_mono job tr tr' : extends tr tr' -> network_ready job (section tr) = true -> network_ready job (section tr') = true.
Proof.
  intros E. unfold network_ready. destruct (decode_clone _); [| done]. rewrite !orb_true_iff. intros [Hn | Hn]; [by left | right]. by apply (proved_mono _ tr tr' E).
Qed.

Lemma network_safe tr job r : Operation job = clone_op -> decode_clone (Request job) = Some r -> settling job tr ->
  safe tr (ensureCloneNetwork job r) (fun _ t => network_ready job (section t) = true).
Proof.
  intros Ho Hr Hs. unfold ensureCloneNetwork, network_ready. rewrite Hr.
  destruct (bool_decide (dc_source_os_family r = "linux")); cbn [negb orb]; [| by apply safe_ret].
  eapply safe_bind; [apply safe_configuration | intros c t E Hc]. apply (settling_mono _ _ _ E) in Hs. apply safe_guard. intros Hok.
  apply andb_true_iff in Hok as [Hok Hk]. apply bool_decide_eq_true in Hk. pose proof (configured_recognised _ _ _ Hr Hok Hk) as Hrec.
  destruct (_ || _) eqn:Hready; [apply safe_ret; by apply Hc |]. apply safe_guard. intros Hd. apply andb_true_iff in Hd as [_ Hd].
  apply calm_bind; [apply safe_any_pve, configure_permitted; [done | done |]; apply Hc; by rewrite Hrec, Hd, bool_decide_true |]. intros [] t' _.
  eapply safe_bind; [apply safe_configuration | intros u t1 _ Hu]. apply safe_ensure. intros Hip. apply Hu. apply bool_decide_eq_true in Hip. by rewrite Hip, orb_true_r.
Qed.

Lemma gpu_ready_mono job tr tr' : extends tr tr' -> gpu_ready job (section tr) = true -> gpu_ready job (section tr') = true.
Proof.
  intros E. unfold gpu_ready. destruct (decode_clone _); [| done]. rewrite !orb_true_iff.
  intros [[Hn | Hn] | Hn]; [by left; left | left; right | right]; by apply (proved_mono _ tr tr' E).
Qed.

Lemma gpu_safe tr job r : Operation job = clone_op -> decode_clone (Request job) = Some r -> settling job tr ->
  safe tr (configure_gpu job r) (fun ok t => ok = true -> gpu_ready job (section t) = true).
Proof.
  intros Ho Hr Hs. unfold configure_gpu, gpu_ready. rewrite Hr.
  destruct (bool_decide (dc_pci_resource_mapping r = "")); cbn [negb orb]; [by apply safe_ret |].
  eapply safe_bind; [apply safe_configuration | intros c t E Hc]. apply (settling_mono _ _ _ E) in Hs. apply safe_guard. intros Hok.
  rewrite !andb_true_iff in Hok. destruct Hok as [[Hok Hk] Hd]. apply bool_decide_eq_true in Hk. pose proof (configured_recognised _ _ _ Hr Hok Hk) as Hrec.
  destruct (MatchesGPUResourceMapping _ _ _) eqn:Hmatch; [apply safe_ret; intros _; apply orb_true_iff; left; by apply Hc |].
  assert (proved (configuration_says job (fun c' => recognised job c' && (vc_digest c' == vc_digest c) && ValidConfigurationDigest (vc_digest c))) t = true) as Hp.
  { apply Hc. by rewrite Hrec, Hd, bool_decide_true. }
  eapply (safe_bind _ _ _ _ _ _ (fun x t' => match x with inl _ => True | inr _ => proved (device_written job r) t' = true end)); [eapply (safe_ctry _ _ _ _ _ (fun _ t' => proved (device_written job r) t' = true)); [| done | done] |].
  2:{ intros [e | u] t' _ Hu; apply safe_ret; [done |]. intros _. apply orb_true_iff. right. exact Hu. }
  destruct (bool_decide (dc_mdev_type r = "")) eqn:Hm; cbn [negb]; apply safe_pve; (try by intros; apply configure_permitted); intros u; apply proved_now; try done;
    cbn; by rewrite Z.eqb_refl, ?Hm, ?bool_decide_true.
Qed.

(** ** Publication *)
Lemma verified_now job tr : Operation job = clone_op -> settling job tr -> target_known job tr ->
  verified_clone (TargetVMID job) (TargetNode job) (section tr) job = true.
Proof.
  intros Ho (_ & _ & Ht) [Hk Hu]. unfold verified_clone, proved in *. by rewrite Ho, Ht, Hk, Hu, Z.eqb_refl, !bool_decide_true.
Qed.

Lemma register_safe tr job r os : Operation job = clone_op -> settling job tr -> target_known job tr ->
  network_ready job (section tr) = true -> gpu_ready job (section tr) = true ->
  safe tr (store_ (OpUpsertDesktop (cloned_desktop job r os))) (fun _ t => proved (published job) t = true).
Proof.
  intros Ho Hs Hk Hn Hg. pose proof Hs as (Hl & Hj & _). apply safe_store.
  - cbn. rewrite Hl. apply (reported_rule job); [done |]. by rewrite verified_now, Hn, Hg.
  - intros cx s f b _ E. apply proved_now; [done |]. unfold published. cbn -[store_answer]. rewrite E. apply Z.eqb_refl.
Qed.

Lemma quarantine_safe tr job r os : Operation job = clone_op -> settling job tr -> target_known job tr ->
  safe tr (store_ (OpQuarantineDesktop (cloned_desktop job r os))) (fun _ _ => True).
Proof. intros Ho Hs Hk. pose proof Hs as (Hl & Hj & _). apply calm_store. cbn. rewrite Hl. apply (reported_rule job); [done | by apply verified_now]. Qed.

Lemma clone_os_safe tr job r : safe tr (clone_os job r) (fun _ _ => True).
Proof. unfold clone_os. destruct (_ || _); [apply calm_ret |]. calm_step. apply calm_ret. Qed.

Lemma publish_safe tr job r : Operation job = clone_op -> decode_clone (Request job) = Some r -> settling job tr ->
  safe tr (publish_clone job r) (fun result t => fst result = "succeeded" -> proved (published job) t = true).
Proof.
  intros Ho Hr Hs. unfold publish_clone. eapply safe_bind; [by apply require_safe | intros [] t E _]. apply (settling_mono _ _ _ E) in Hs.
  eapply safe_bind; [by apply network_safe | intros [] t1 E1 Hn]. cbv beta in Hn. apply (settling_mono _ _ _ E1) in Hs.
  eapply safe_bind; [by apply gpu_safe | intros ok t2 E2 Hg]. cbv beta in Hg. apply (settling_mono _ _ _ E2) in Hs. apply (network_ready_mono _ _ _ E2) in Hn.
  apply calm_bind; [apply clone_os_safe | intros os t3 E3]. apply (settling_mono _ _ _ E3) in Hs. apply (network_ready_mono _ _ _ E3) in Hn.
  eapply safe_bind; [by apply require_safe | intros [] t4 E4 Hk]. apply (settling_mono _ _ _ E4) in Hs. apply (network_ready_mono _ _ _ E4) in Hn.
  destruct ok.
  - specialize (Hg eq_refl). apply (gpu_ready_mono _ _ _ E3), (gpu_ready_mono _ _ _ E4) in Hg.
    eapply safe_bind; [by apply register_safe | intros [] t5 _ Hp]. by apply safe_ret.
  - apply calm_bind; [by apply quarantine_safe | intros [] t5 _]. by apply safe_ret.
Qed.

Lemma settled_as_safe tr job status : (Operation job = clone_op -> holds_lock tr (TargetVMID job) = true) -> reported_job job tr ->
  (ts_exit_status status = "OK" -> proved (task_ok job) tr = true) ->
  safe tr (settled_as job status) (fun result t => fst result = "succeeded" ->
    proved (task_ok job) t = true /\ (Operation job = clone_op -> proved (published job) t = true)).
Proof.
  intros Hl Hj Ht. unfold settled_as. destruct (bool_decide (ts_exit_status status = "OK")) eqn:Hx; cbn [negb]; [| by apply safe_ret].
  apply bool_decide_eq_true in Hx. specialize (Ht Hx).
  destruct (bool_decide (Operation job = clone_op)) eqn:Ho; [apply bool_decide_eq_true in Ho | apply bool_decide_eq_false in Ho; by apply safe_ret].
  destruct (decode_clone (Request job)) as [r |] eqn:Hr; [| by apply safe_ret].
  eapply safe_mono; [| by apply publish_safe; [| | split_and!; [apply Hl | |]]]. intros result t E Hp Hs. split; [by apply (proved_mono _ tr) | auto].
Qed.

Lemma settle_safe tr job : (Operation job = clone_op -> holds_lock tr (TargetVMID job) = true) -> reported_job job tr ->
  safe tr (settle_job job) (fun _ _ => True).
Proof.
  intros Hl Hj. unfold settle_job.
  eapply (safe_bind _ _ _ _ _ _ (fun status t => ts_status status = "stopped" -> ts_exit_status status = "OK" -> proved (task_ok job) t = true)).
  { apply safe_pve; [done |]. intros status Hs Hx. apply proved_now; [done |]. cbn. by rewrite Hs, Hx, !bool_decide_true. }
  intros status t E Ht. destruct (bool_decide (ts_status status = "stopped")) eqn:Hst; cbn [negb]; [| apply calm_ret]. apply bool_decide_eq_true in Hst.
  eapply safe_bind; [apply settled_as_safe |].
  - intros Ho. by apply (holds_lock_mono _ _ _ E), Hl.
  - by apply (witnessed_mono _ _ _ E).
  - by apply Ht.
  - intros [state message] t1 E1 Hp. apply (witnessed_mono _ _ _ (extends_trans _ _ _ E E1)) in Hj. cbn [fst] in Hp. apply calm_bind.
    + apply calm_store. cbn. destruct (bool_decide (state = "succeeded")) eqn:Hs; [| done]. apply bool_decide_eq_true in Hs. destruct (Hp Hs) as [Hok Hpub].
      apply (reported_rule job); [done |]. rewrite !bool_decide_true, Hok by done. cbn.
      destruct (bool_decide (Operation job = clone_op)) eqn:Ho; [| done]. apply bool_decide_eq_true in Ho. by rewrite Hpub.
    + intros completed t2 _. apply calm_bind; [destruct completed; eauto with calm | intros [] t3 _]. apply calm_ret.
Qed.

(** ** Who follows a job *)
Lemma refresh_unlocked jobID : unlocked (refreshPVEJob jobID).
Proof.
  unfold refreshPVEJob. eapply unlocked_after; [intros; apply safe_job |]. intros job t (_ & Ht & Hj).
  destruct (negb _); [right; apply calm_ret |]. destruct (bool_decide (Operation job = clone_op)) eqn:Ho.
  - apply bool_decide_eq_true in Ho. left. apply unlocked_lock. intros t1 _ Hl.
    eapply safe_bind; [apply safe_job | intros current t2 E2 (_ & Ht' & Hj')]. carry E2. destruct (negb _); [apply calm_ret |].
    apply settle_safe; [| done]. intros Ho'. by rewrite (Ht' Ho'), <- (Ht Ho).
  - apply bool_decide_eq_false in Ho. right. by apply settle_safe.
Qed.

Lemma watch_unlocked rounds jobID : unlocked (watchPVEJob rounds jobID).
Proof.
  induction rounds as [| rounds IH]; [apply unlocked_ret |]. cbn [watchPVEJob]. apply unlocked_bind; [apply unlocked_ctry, refresh_unlocked | intros r].
  apply unlocked_bind.
  - apply unlocked_safe. intros tr. destruct r as [e | job]; [| apply calm_ret]. destruct e as [[] | | | | | | | |]; try apply calm_ret; cbv beta iota delta [ends_watch]; calm_step; apply calm_ret.
  - intros [|]; [apply unlocked_ret |]. apply unlocked_timer. intros [c |]; [apply unlocked_ret | exact IH].
Qed.

Lemma calm_found tr id code status : safe tr (found_job id code status) (fun _ _ => True).
Proof. unfold found_job. calm_step. case_answer. Qed.

Lemma job_unlocked session id : unlocked (job_ session id).
Proof.
  unfold job_. apply unlocked_bind; [apply unlocked_safe; intros; by apply safe_ensure | intros []].
  apply unlocked_bind; [apply unlocked_safe; intros; apply calm_found | intros job]. destruct (negb _); [apply unlocked_ret |].
  apply unlocked_bind; [apply unlocked_ctry, refresh_unlocked | intros r; apply unlocked_ret].
Qed.

Lemma resume_unlocked cursor ids : unlocked (resume_clones cursor ids).
Proof.
  revert cursor. induction ids as [| id ids IH]; intros cursor; [apply unlocked_ret |]. cbn [resume_clones].
  apply unlocked_bind; [apply unlocked_safe; intros; by apply safe_context | intros [c |]]; [apply unlocked_ret |].
  apply unlocked_bind; [apply unlocked_ignore, refresh_unlocked | intros _; apply IH].
Qed.

Lemma rounds_unlocked rounds cursor : unlocked (pve_rounds rounds cursor).
Proof.
  revert cursor. induction rounds as [| rounds IH]; intros cursor; [apply unlocked_ret |]. cbn [pve_rounds].
  apply unlocked_bind; [apply unlocked_safe; intros; by apply safe_context | intros [c |]]; [apply unlocked_ret |].
  apply unlocked_bind; [apply unlocked_ctry, unlocked_safe; intros; by apply calm_store | intros page].
  apply unlocked_bind; [destruct page; [apply unlocked_ret | apply resume_unlocked] | intros [next |]]; [| apply unlocked_ret].
  apply unlocked_timer. intros [c |]; [apply unlocked_ret | apply IH].
Qed.

(** ** Recovery *)
Lemma calm_ensure tr ok e : safe tr (censure ok e) (fun _ _ => True).
Proof. by apply safe_ensure. Qed.

Lemma commit_clone_safe tr session job r upid reason : holds_lock tr (TargetVMID job) = true -> decode_clone (Request job) = Some r ->
  safe tr (commit_clone session job r upid reason) (fun _ _ => True).
Proof.
  intros Hl Hr. unfold commit_clone.
  eapply (safe_bind _ _ _ _ _ _ (fun e t => task_proves job r e = true -> proved (task_of job upid) t = true)).
  { apply safe_reply, safe_pve; [done |]. intros e He. apply proved_now; [done |]. cbn -[micros unix_seconds itoa]. rewrite Hr.
    unfold task_proves, task_since, task_until in He. b2p. destruct_and!. split_and!; done. }
  intros e t E He. carry E. apply safe_guard. intros Hok. specialize (He Hok).
  eapply (safe_bind _ _ _ _ _ _ (fun found t => log_status job found = "matches" -> proved (log_of job upid) t = true)).
  { apply safe_reply, safe_pve; [done |]. intros found Hf. apply proved_now; [done |]. cbn. unfold log_status in Hf. destruct found as [[source target] |]; [| done].
    destruct (_ && _) eqn:Hm in Hf; [| done]. apply andb_true_iff in Hm as [Hs Ht]. apply Z.eqb_eq in Hs, Ht. subst. by rewrite !bool_decide_true. }
  intros found t1 E Hf. carry E. apply safe_guard. intros Hm. apply bool_decide_eq_true in Hm. specialize (Hf Hm).
  eapply safe_bind; [by apply safe_reply, observe_safe | intros status t2 E Hs]. carry E. apply safe_guard. intros Hst. apply bool_decide_eq_true in Hst.
  specialize (Hs Hst). apply calm_bind; [apply safe_try_any, calm_store |].
  - cbn. by rewrite Hl, He, Hf, (proj1 Hs), (target_recognised _ _ Hs).
  - intros [[[] | | | | | | | |] | u] t3 _; eauto with calm.
Qed.

Lemma owned_decoded job r : owned_clone job = Some r -> decode_clone (Request job) = Some r.
Proof. unfold owned_clone. destruct (decode_clone _) as [r' |]; cbn; [| done]. by destruct (_ || _); intros [= <-]. Qed.

Lemma between_recover_clone session csrf id body : between (recoverCloneTask session csrf id body) (fun _ _ => True).
Proof.
  unfold recoverCloneTask. apply (between_bind _ _ _ _ _ (fun _ => True)); [apply between_safe; intros; apply calm_ensure | intros _ _].
  apply (between_bind _ _ _ _ _ (fun _ => True)); [apply between_safe; intros; apply calm_ensure | intros _ _].
  apply (between_bind _ _ _ _ _ (fun _ => True)); [apply between_safe; intros; apply calm_some | intros [upid reason] _].
  apply (between_bind _ _ _ _ _ (fun _ => True)); [apply between_safe; intros; apply calm_ensure | intros _ _].
  apply (between_bind _ _ _ _ _ (fun _ => True)); [apply between_safe; intros; apply calm_found | intros job _].
  apply (between_bind _ _ _ _ _ (fun r => decode_clone (Request job) = Some r)).
  { apply between_safe. intros tr. apply safe_some. intros r Hr. destruct (unresolved_clone job); [by apply owned_decoded | done]. }
  intros r Hr. eapply between_mono; [| apply (between_control _ _ _ _ _ _ (fun _ _ => True))]; [done |]. intros tr _ Hl. by apply commit_clone_safe.
Qed.
End settle_proofs.
