(* ===== verification/ControllerJobsClaims.v ===== *)
(** * What jobs promise

    Every clone and every power change that PVE is asked for has a job of its
    own, created by that very request; a desktop is published, and its job
    ends well, only with the evidence in the same section; a lost task handle
    is taken over only with the evidence that it is the task of the job. *)
From stdpp Require Import base strings list relations.
From Stdlib Require Import ZArith Lia Ascii.
From S2P Require Import Prelude GoStrings GuestIdentity Auth Net Db Json Demo Triggers TriggerLemmas StoreAccess StoreSession StoreConn StoreLease GatewayControl GatewayControlProofs Computer Guest GuestAccount ComputerWire GuestConfirmed StoreAudit StoreJobs StoreJobsProofs StoreCatalog Pve Controller ControllerScripts PveClient ControllerNative ControllerAgent ControllerRules ControllerFacts ControllerLogic ControllerNativeProofs ControllerAgentProofs ControllerMaintenance ControllerHttp ControllerHttpProofs ControllerConnect ControllerConnectProofs ControllerRecovery ControllerClone ControllerJobs ControllerJobsProofs.

Local Open Scope string_scope.
Local Open Scope list_scope.
Local Open Scope Z_scope.

(** ** The stored request *)
Definition clone_texts (r : desktopCloneRequest) : list string :=
  [dc_name r; dc_target_node r; dc_storage r; dc_gpu_profile_id r; dc_pci_resource_mapping r; dc_mdev_type r; dc_validation_image_profile_id r;
   dc_source_os_family r; dc_pve_principal r].

(** The values of a field in an object with known keys. *)
Ltac read_fields :=
  repeat match goal with |- context [field_values clone_fields ?f ?l] =>
    let x := eval vm_compute in (field_values clone_fields f l) in change (field_values clone_fields f l) with x end.

(** What a clone job keeps is read back, when its task is settled or
    recovered, as exactly the request that was admitted, for every request of
    valid texts. *)
Theorem clone_request_roundtrip r (Hv : Forall (fun s => ValidString s = true) (clone_texts r)) (Hz : int64 (dc_source_vmid r)) :
  decode_clone (encode_clone r) = Some r.
Proof.
  destruct r as [name source node storage full gpu pci mdev validation os principal]. unfold clone_texts in Hv. cbn in Hv, Hz.
  repeat (apply Forall_cons in Hv as [?%json_text_valid Hv]). pose proof (store_itoa 0 source Hz) as Hi.
  unfold encode_clone, optional_text, text, number. cbn [dc_name dc_source_vmid dc_target_node dc_storage dc_full dc_gpu_profile_id dc_pci_resource_mapping dc_mdev_type
    dc_validation_image_profile_id dc_source_os_family dc_pve_principal]. repeat match goal with Hx : json_text _ = _ |- _ => rewrite Hx; clear Hx end.
  generalize dependent (JNum (itoa source)). intros v Hi. clear Hz Hv.
  destruct (bool_decide (pci = "")) eqn:E1, (bool_decide (mdev = "")) eqn:E2, (bool_decide (validation = "")) eqn:E3, (bool_decide (os = "")) eqn:E4,
    (bool_decide (principal = "")) eqn:E5; 
    repeat match goal with E : bool_decide _ = true |- _ => apply bool_decide_eq_true in E; subst | E : bool_decide _ = false |- _ => clear E end;
    unfold decode_clone, store_struct, read_clone, field; read_fields; unfold decode_field; cbn [fold_left mbind option_bind store_string store_bool]; rewrite Hi; reflexivity.
Qed.

(** ** Reading the rules *)
Lemma pve_said_inv p e : pve_said p e = true -> exists B (q : pve_op B) b, e = HPve q (inr b) /\ p B q b = true.
Proof. destruct e as [| | B q [f | b] | | | | | |]; cbn; try done. intros Hp. by exists B, q, b. Qed.

Section reading.
Context `{Sha256} `{Collation} `{UnicodeLower}.

Lemma store_said_inv p e : store_said p e = true -> exists B (q : store_op B) cx s f b, e = HStore q cx s f /\ store_answer q cx s f = inr b /\ p B q b = true.
Proof.
  destruct e as [B q cx s f | | | | | | | |]; try done. unfold store_said. destruct (store_answer q cx s f) as [| b] eqn:E; [done |].
  intros Hp. by exists B, q, cx, s, f, b.
Qed.

Lemma unspent_inv p used l : unspent p used l = true -> exists mid e older, l = mid ++ e :: older /\ p e = true /\ existsb used mid = false.
Proof.
  induction l as [| e l IH]; [done |]. simpl. destruct (p e) eqn:Hp; [intros _; by exists [], e, l |]. simpl.
  intros Hu. apply andb_true_iff in Hu as [Hn Hu]. apply negb_true_iff in Hn. destruct (IH Hu) as (mid & e' & older & -> & Hp' & Hm).
  exists (e :: mid), e', older. split_and!; [done | done |]. simpl. by rewrite Hn.
Qed.

Lemma proved_reported p tr : proved (fun e => existsb p (reported_jobs e)) tr = true -> exists e job, In e (section tr) /\ In job (reported_jobs e) /\ p job = true.
Proof. intros Hp. apply proved_witness in Hp as (e & Hin & He). apply existsb_exists in He as (job & Hj & Hp). by exists e, job. Qed.

(** The rows of one history: what is homed later was homed before. *)
Lemma homed_before home s s' : job_trace s s' -> clones_homed home (s' : DB) -> clones_homed home s.
Proof.
  induction 1 as [| s s1 s' Hs _ IH]; [done |]. intros Hh j Hj Ho. specialize (IH Hh).
  apply job_step_evolves in Hs as [Hs | (_ & new & Hm & _)]; [apply IH; [by rewrite Hs | done] |].
  assert (In (job_core j) (List.map job_core (pve_jobs s1))) as Hin by (rewrite Hm; apply in_or_app; left; by apply in_map).
  apply in_map_iff in Hin as (j' & Hc & Hj'). unfold job_core in Hc. injection Hc as Hid _ Hop _ Ht _ _ _ _ _.
  rewrite <- Ht, <- Hid. apply IH; [done | congruence].
Qed.

(** ** Fresh jobs *)
Lemma fresh_clone_inv req e : fresh_clone req e = true -> exists row occupied cx s f job, e = HStore (OpReserveClone row occupied) cx s f /\
  store_answer (OpReserveClone row occupied) cx s f = inr (job, true) /\ cl_description req = clone_marker (JobID job) /\
  cl_target_vmid req = TargetVMID job /\ cl_source_vmid req = SourceVMID row /\ cl_source_node req = TaskNode row /\ cl_target_node req = TargetNode row.
Proof.
  intros He. apply store_said_inv in He as (B & q & cx & s & f & b & -> & Ha & Hq). destruct q; try discriminate Hq. destruct b as [stored fresh].
  cbn [fst snd] in Hq. rewrite !andb_true_iff, !Z.eqb_eq in Hq. rewrite !bool_decide_eq_true in Hq. destruct Hq as [[[[[-> ?] ?] ?] ?] ?].
  by eexists _, _, _, _, _, _.
Qed.

Lemma reserved_free row occupied cx s f job : store_answer (OpReserveClone row occupied) cx s f = inr (job, true) ->
  (forall d, In d (managed_desktops s) -> d_vmid d <> TargetVMID job) /\ (forall j, In j (pve_jobs s) -> ~ clone_of (TargetVMID job) j) /\
  ~ In (TargetVMID job) occupied /\ JobID job = JobID row.
Proof.
  intros Ha. apply answered_inr in Ha as [s' Ha]. cbn [perform] in Ha. apply reserve_inr in Ha as [(_ & Hf & _) | (_ & v & u & _ & Hst & Hocc & _ & Hch)]; [done |].
  cbn [fst] in Hst. subst job. cbn [TargetVMID job_info new_job j_target_vmid default]. unfold target_occupied in Hocc. apply orb_false_iff in Hocc as [Hd Hj].
  rewrite exists_where_false in Hd. rewrite exists_where_false in Hj. split_and!; [| | | done].
  - intros d Hin. specialize (Hd d Hin). by b2p.
  - intros j Hin [Ho Ht]. specialize (Hj j Hin). by rewrite Ho, Ht, !bool_decide_true in Hj.
  - apply find_some in Hch as [_ Hc]. unfold candidate_free in Hc. rewrite !andb_true_iff, !negb_true_iff in Hc. destruct Hc as [[[_ Hc] _] _].
    intros Hin. apply not_true_iff_false in Hc. apply Hc, existsb_exists. exists v. split; [done | by rewrite bool_decide_true].
Qed.

Lemma fresh_power_inv vmid e : fresh_power vmid e = true -> exists row cx s f job, e = HStore (OpCreateJob row) cx s f /\
  store_answer (OpCreateJob row) cx s f = inr (job, true) /\ TargetVMID row = vmid.
Proof.
  intros He. apply store_said_inv in He as (B & q & cx & s & f & b & -> & Ha & Hq). destruct q; try discriminate Hq. destruct b as [stored fresh].
  cbn [fst snd] in Hq. apply andb_true_iff in Hq as [-> Hv]. apply Z.eqb_eq in Hv. by eexists _, _, _, _, _.
Qed.

Lemma created_fresh row cx s f job : store_answer (OpCreateJob row) cx s f = inr (job, true) ->
  forall j, In j (pve_jobs s) -> j_idempotency_key j <> IdempotencyKey row.
Proof.
  intros Ha j Hin. apply answered_inr in Ha as [s' Ha]. cbn [perform] in Ha. unfold CreateJob in Ha. inv_tx.
  match goal with E : (_, negb ?b) = _ |- _ => destruct b eqn:Hx; [done |] end. rewrite exists_where_false in Hx. specialize (Hx j Hin). by b2p.
Qed.
End reading.

(** ** The claims *)
Section claims.
Context `{Sha256} `{Collation} `{UnicodeLower} `{UnicodeFold} {W : Type} (has_input : bool) (legacy_revoker : string).

Lemma any_world (w : world W) : world_ok (fun _ => True) w.
Proof. by intros st cx s f st' _. Qed.

(** (C15) PVE is asked for a clone only in a request with the token of a
    platform administrator's session, and only for a reservation of its own:
    between the two nothing else is cloned; the job was created by this very
    transaction, in a database in which neither a desktop nor another clone
    had the target, outside the inventory that was read; and the clone carries
    the name of the job in its description. *)
Theorem clone_submitted_after_reservation (w : world W) principal h q session csrf st r st' new req res pre
    (Hrun : run_ctl has_input legacy_revoker w (createDesktopInstance principal h q session csrf) st [] = (r, st', new ++ HPve (PClone req) res :: pre)) :
  UserRole (SessionUser session) = PlatformAdmin /\ csrf = CSRFToken session /\
  exists row occupied cx s f job mid older,
    pre = mid ++ HStore (OpReserveClone row occupied) cx s f :: older /\ existsb is_clone mid = false /\
    store_answer (OpReserveClone row occupied) cx s f = inr (job, true) /\ JobID job = JobID row /\
    cl_description req = clone_marker (JobID job) /\ cl_target_vmid req = TargetVMID job /\ cl_source_vmid req = SourceVMID row /\
    (forall d, In d (managed_desktops s) -> d_vmid d <> TargetVMID job) /\ (forall j, In j (pve_jobs s) -> ~ clone_of (TargetVMID job) j) /\
    ~ In (TargetVMID job) occupied.
Proof.
  pose proof (create_safe has_input legacy_revoker (fun _ => True) [] principal h q session csrf) as Hs.
  destruct (cwp_run has_input legacy_revoker permitted (fun _ => True) w _ st _ r st' _ (any_world w) Hs Hrun) as [Hl _].
  unfold createDesktopInstance, admin_request in Hrun. destruct (is_admin session) eqn:Ha; [| by destruct new].
  destruct (ConstantTimeEqual csrf (CSRFToken session)) eqn:Hc; [| by destruct new].
  destruct (admin_checked _ _ Ha Hc) as [Hrole Hcsrf].
  split_and!; [done.. |]. destruct (lawful_at _ _ _ _ Hl) as [Hp _]. cbn in Hp.
  apply unspent_inv in Hp as (mid & e & older & -> & He & Hm). apply fresh_clone_inv in He as (row & occ & cx & s & f & job & -> & Hans & Hd & Ht & Hsrc & _).
  destruct (reserved_free _ _ _ _ _ _ Hans) as (Hf1 & Hf2 & Hf3 & Hid). by exists row, occ, cx, s, f, job, mid, older.
Qed.

(** PVE is asked to start or stop a machine, for a person, an agent or an
    administrator, only for a job of its own: the job did not exist before,
    and nothing else was started or stopped since it was created. *)
Theorem power_once_per_job (w : world W) h q p st r st' new node vmid action res pre
    (Hp : (exists userID vmidText a, p = changeNativeDesktopPower h q userID vmidText a) \/ (exists a, p = changeAgentDesktopPower h q a) \/
          (exists session csrf vmidText a, p = changeVirtualMachinePower h q session csrf vmidText a))
    (Hrun : run_ctl has_input legacy_revoker w p st [] = (r, st', new ++ HPve (PPower node vmid action) res :: pre)) :
  exists row cx s f job mid older,
    pre = mid ++ HStore (OpCreateJob row) cx s f :: older /\ existsb is_power mid = false /\
    store_answer (OpCreateJob row) cx s f = inr (job, true) /\ TargetVMID row = vmid /\
    forall j, In j (pve_jobs s) -> j_idempotency_key j <> IdempotencyKey row.
Proof.
  assert (safe has_input legacy_revoker (fun _ => True) [] p (fun _ _ => True)) as Hs.
  { destruct Hp as [(? & ? & ? & ->) | [(? & ->) | (? & ? & ? & ? & ->)]]; [apply native_power_safe | apply agent_power_safe | apply admin_power_safe]. }
  destruct (cwp_run has_input legacy_revoker permitted (fun _ => True) w _ st _ r st' _ (any_world w) Hs Hrun) as [Hl _].
  destruct (lawful_at _ _ _ _ Hl) as [Hu _]. cbn in Hu. apply unspent_inv in Hu as (mid & e & older & -> & He & Hm).
  apply fresh_power_inv in He as (row & cx & s & f & job & -> & Hans & Hv). exists row, cx, s, f, job, mid, older. split_and!; try done.
  by eapply created_fresh.
Qed.

(** Whoever follows a job: the watcher of a request, the handler that shows
    it, the maintenance loop. *)
Definition follows (p : ctl unit) : Prop :=
  (exists rounds jobID, p = watchPVEJob rounds jobID) \/ (exists rounds, p = RunPVEJobMaintenance rounds) \/
  (exists session id, p = (job_ session id;; mret tt)).

Lemma follows_lawful (home : string -> Z) (w : world W) p st r st' tr : follows p -> world_ok (clones_homed home) w ->
  run_ctl has_input legacy_revoker w p st [] = (r, st', tr) -> lawful permitted tr.
Proof.
  intros Hp Hok Hrun.
  assert (unlocked has_input legacy_revoker (clones_homed home) p) as Hu.
  { destruct Hp as [(rounds & jobID & ->) | [(rounds & ->) | (session & id & ->)]];
      [by eapply watch_unlocked | by eapply rounds_unlocked | apply unlocked_bind; [by eapply job_unlocked | intros; apply unlocked_ret]]. }
  by destruct (cwp_run has_input legacy_revoker permitted _ w _ st _ r st' _ Hok (Hu [] eq_refl) Hrun).
Qed.

(** The task of the job was seen to have ended well. *)
Definition task_ended_well (job : JobInfo) (history : list happened) : Prop :=
  exists t, In (HPve (PTaskStatus (TaskNode job) (UPID job)) (inr t)) history /\ ts_status t = "stopped" /\ ts_exit_status t = "OK".

Lemma task_ok_seen job l : existsb (task_ok job) l = true -> task_ended_well job l.
Proof.
  rewrite existsb_exists. intros (e & Hin & He). apply pve_said_inv in He as (B & q & b & -> & Hq). destruct q; try discriminate Hq.
  rewrite !andb_true_iff, !bool_decide_eq_true in Hq. destruct Hq as [[[-> ->] Hs] Hx]. by exists b.
Qed.

(** The target was recognised as the machine of the job, and not changed since. *)
Definition target_recognised_last (job : JobInfo) (history : list happened) : Prop :=
  exists mid c older, history = mid ++ HPve (PConfiguration (TargetNode job) (TargetVMID job)) (inr c) :: older /\
    existsb is_configuration mid = false /\ recognised job c = true.

Lemma recognised_last job l : unspent (configuration_says job (recognised job)) is_configuration l = true -> target_recognised_last job l.
Proof.
  intros Hu. apply unspent_inv in Hu as (mid & e & older & -> & He & Hm). apply pve_said_inv in He as (B & q & b & -> & Hq). destruct q; try discriminate Hq.
  rewrite !andb_true_iff, Z.eqb_eq, bool_decide_eq_true in Hq. destruct Hq as [[-> ->] Hr]. by exists mid, b, older.
Qed.

(** (C16) A clone is published to its users, by whoever follows its job, only
    under the lock of the desktop and only when, in the same section, the store
    reported the clone job with that target, PVE reported its task as ended
    well, the machine was recognised by the name and the description of the
    job after every change made to it, its network is ready and the device it
    was to have is configured. *)
Theorem clone_published_verified (home : string -> Z) (w : world W) p st r st' new d cx s f pre
    (Hp : follows p) (Hok : world_ok (clones_homed home) w)
    (Hrun : run_ctl has_input legacy_revoker w p st [] = (r, st', new ++ HStore (OpUpsertDesktop d) cx s f :: pre)) :
  held pre = Some (VMID d) /\
  exists e job, In e (section pre) /\ In job (reported_jobs e) /\ Operation job = clone_op /\ TargetVMID job = VMID d /\ TargetNode job = Node d /\
    task_ended_well job (section pre) /\ target_recognised_last job (section pre) /\
    network_ready job (section pre) = true /\ gpu_ready job (section pre) = true.
Proof.
  pose proof (follows_lawful home w p st r st' _ Hp Hok Hrun) as Hl. destruct (lawful_at _ _ _ _ Hl) as [Hu _]. cbn in Hu.
  apply andb_true_iff in Hu as [Hh Hu]. apply bool_decide_eq_true in Hh. split; [done |].
  apply proved_reported in Hu as (e & job & Hin & Hj & Hv). unfold verified_clone in Hv.
  rewrite !andb_true_iff, Z.eqb_eq, !bool_decide_eq_true in Hv. destruct Hv as [[[[[[[Ho Ht] Hn] Htask] _] Hrec] Hnet] Hgpu].
  exists e, job. split_and!; try done; [by apply task_ok_seen | by apply recognised_last].
Qed.

(** (C32) A job ends well only when, in the same section, the store reported
    it with that task, PVE reported the task as ended well and, for a clone,
    the registration of its desktop was acknowledged. *)
Theorem job_succeeds_after_task (home : string -> Z) (w : world W) p st r st' new id upid message cx s f pre
    (Hp : follows p) (Hok : world_ok (clones_homed home) w)
    (Hrun : run_ctl has_input legacy_revoker w p st [] = (r, st', new ++ HStore (OpCompleteJobTask id "succeeded" upid message) cx s f :: pre)) :
  exists e job, In e (section pre) /\ In job (reported_jobs e) /\ JobID job = id /\ UPID job = upid /\ task_ended_well job (section pre) /\
    (Operation job = clone_op -> exists d cx' s' f', In (HStore (OpUpsertDesktop d) cx' s' f') (section pre) /\
       store_answer (OpUpsertDesktop d) cx' s' f' = inr tt /\ VMID d = TargetVMID job).
Proof.
  pose proof (follows_lawful home w p st r st' _ Hp Hok Hrun) as Hl. destruct (lawful_at _ _ _ _ Hl) as [Hu _]. cbn in Hu.
  apply proved_reported in Hu as (e & job & Hin & Hj & Hv). rewrite !andb_true_iff, !bool_decide_eq_true in Hv. destruct Hv as [[[Hid Hup] Htask] Hpub].
  exists e, job. split_and!; try done; [by apply task_ok_seen |]. intros Ho. rewrite Ho, bool_decide_true in Hpub by done. cbn [negb orb] in Hpub.
  apply proved_witness in Hpub as (e' & Hin' & He'). apply store_said_inv in He' as (B & q & cx' & s' & f' & b & -> & Ha & Hq).
  destruct q; try discriminate Hq. destruct b. apply Z.eqb_eq in Hq. by exists desktop, cx', s', f'.
Qed.

(** (C17) A lost task handle is given to a clone job only in a request with the
    token of a platform administrator's session, under the lock of the target,
    and only when PVE showed in the same section that the task cloned the
    source of the job, for the principal that the job was submitted as, began
    within thirty seconds before and fifteen minutes after the job was created
    and ended well; that its log declares exactly source and target; and that
    the machine has the name and the description of the job. *)
Theorem clone_recovered_with_evidence (w : world W) session csrf id body st r st' new runes job upid actor reason cx s f pre
    (Hrun : run_ctl has_input legacy_revoker w (recoverCloneTask session csrf id body) st [] =
      (r, st', new ++ HStore (OpCommitCloneRecovery runes job upid actor reason) cx s f :: pre)) :
  UserRole (SessionUser session) = PlatformAdmin /\ csrf = CSRFToken session /\ csrf <> "" /\ held pre = Some (TargetVMID job) /\
  (exists e request, In (HPve (PInspectTask (TaskNode job) upid) (inr e)) (section pre) /\ decode_clone (Request job) = Some request /\
     te_type e = "qmclone" /\ te_id e = itoa (SourceVMID job) /\ task_principal (te_user e) (te_token_id e) = dc_pve_principal request /\
     te_status e = "stopped" /\ te_exit_status e = "OK" /\
     unix_seconds (JobCreatedAt job - 30 * micros 1) <= te_start_time e <= unix_seconds (JobCreatedAt job + 900 * micros 1)) /\
  In (HPve (PCloneLog (TaskNode job) upid) (inr (Some (SourceVMID job, TargetVMID job)))) (section pre) /\
  exists c, In (HPve (PConfiguration (TargetNode job) (TargetVMID job)) (inr c)) (section pre) /\ recognised job c = true.
Proof.
  pose proof (between_recover_clone has_input legacy_revoker (fun _ => True) session csrf id body [] eq_refl) as Hs.
  destruct (cwp_run has_input legacy_revoker permitted (fun _ => True) w _ st _ r st' _ (any_world w) Hs Hrun) as [Hl _].
  unfold recoverCloneTask in Hrun. destruct (is_admin session) eqn:Ha; [| by destruct new].
  destruct (bool_decide (CSRFToken session = "")) eqn:Hne; [by destruct new |]. apply bool_decide_eq_false in Hne.
  destruct (ConstantTimeEqual csrf (CSRFToken session)) eqn:Hc; [| by destruct new].
  destruct (admin_checked _ _ Ha Hc) as [Hrole Hcsrf].
  destruct (lawful_at _ _ _ _ Hl) as [Hp _]. cbn in Hp. rewrite !andb_true_iff in Hp. destruct Hp as [[[[Hh Ht] Hlog] _] Hrec]. apply bool_decide_eq_true in Hh.
  split_and!; [done | done | congruence | done | | |].
  - apply proved_witness in Ht as (e & Hin & He). apply pve_said_inv in He as (B & q & b & -> & Hq). destruct q; try discriminate Hq.
    destruct (decode_clone (Request job)) as [request |]; [| done]. b2p. destruct_and!. subst. exists b, request. by split_and!.
  - apply proved_witness in Hlog as (e & Hin & He). apply pve_said_inv in He as (B & q & b & -> & Hq). destruct q; try discriminate Hq.
    rewrite !andb_true_iff, !bool_decide_eq_true in Hq. by destruct Hq as [[-> ->] ->].
  - apply proved_witness in Hrec as (e & Hin & He). apply pve_said_inv in He as (B & q & b & -> & Hq). destruct q; try discriminate Hq.
    rewrite !andb_true_iff, Z.eqb_eq, bool_decide_eq_true in Hq. destruct Hq as [[-> ->] Hr]. by exists b.
Qed.
End claims.

(** ** Runs *)
Section witnesses.
#[local] Existing Instance demo_sha.
#[local] Existing Instance demo_collation.
#[local] Existing Instance demo_lower.
#[local] Instance demo_fold : UnicodeFold := String.eqb.

Definition clone_summary : Summary := MkSummary [MkPveNode "pve1" "online"]
  [MkVM 101 "pve1" "qemu" "stopped" false false ["vc-workspace"] ""; MkVM 900 "pve1" "qemu" "stopped" true false [] ""; MkVM 104 "pve1" "qemu" "stopped" false false [] ""] [] true.
Definition wanted_clone : desktopCloneRequest := MkDesktopClone "vc-workspace-a" 900 "pve1" "" true "none" "gpu0" "" "" "linux" "svc@pve!ci".
Definition clone_configuration (jobID : string) : VMConfiguration :=
  MkVMConfiguration "0123456789abcdef0123456789abcdef01234567" (clone_marker jobID) "" false "vc-workspace-a" "l26" [("ide2", "local:cloudinit,media=cdrom")]
    [("net0", "virtio")] [] [("ipconfig0", "ip=dhcp")].

(** PVE as it answers about the clone of a job. *)
Definition clone_pve (jobID : string) (B : Type) (q : pve_op B) : guest_failure + B :=
  match q with
  | PSummary => inr clone_summary
  | PNextVMID => inr 101
  | PClone _ | PPower _ _ _ => inr "UPID:pve1:1"
  | PTaskStatus _ _ => inr (MkTaskStatus "stopped" "OK")
  | PConfiguration _ _ => inr (clone_configuration jobID)
  | PInspectTask _ upid => inr (MkTaskEvidence upid "pve1" "qmclone" "900" "svc@pve" "ci" 10 "stopped" "OK")
  | PCloneLog _ _ => inr (Some (900, 104))
  | PConfigurePCI _ _ _ _ => inr tt
  | _ => inl (MkFailure None "not answered")
  end.
Definition no_guest (vmid : Z) : environment nanos := script JNull JNull.
Definition clone_world (ok : DB -> bool) (jobID : string) : world (DB * nanos) := deployment_with ok (clone_pve jobID) no_guest.

Definition clone_db : DB := demo_db <| gpu_profiles := [MkGPUProfile "none" "None" "none" "" "" "" "" true false false 0] |>.
Definition clone_http : http_request := MkHttpRequest "" "" "" "".

(** A new clone. *)
Definition create_body : string := json_print (JObj [("name", text "vc-workspace-a"); ("source_vmid", number 900); ("full", JBool true)]).
Definition create_request : job_request := MkJobRequest "0123456789" "POST" "/api/v1/desktops" (Some create_body).
Definition create_run : (ctl_error + JobInfo) * (DB * nanos) * list happened :=
  run_ctl true "revoker" (clone_world (fun _ => true) "") (createDesktopInstance "svc@pve!ci" clone_http create_request admin_session "csrf") (clone_db, 10 * second) [].

(** An administrator starts a machine. *)
Definition power_request : job_request := MkJobRequest "0123456789" "POST" "/api/v1/virtual-machines/101/start" (Some "").
Definition power_run : (ctl_error + JobInfo) * (DB * nanos) * list happened :=
  run_ctl true "revoker" (clone_world (fun _ => true) "") (changeVirtualMachinePower clone_http power_request admin_session "csrf" "101" "start") (clone_db, 10 * second) [].

(** A clone whose task is running, and one whose handle was lost. *)
Definition clone_row (state : string) (upid : option string) : Job :=
  MkJob "job_a" "k" clone_op state (Some 900) (Some 104) (Some "pve1") (Some "pve1") upid (encode_clone wanted_clone) 0 "" None (Some "root") (10 * micros 1) (10 * micros 1) "f".
Definition at_target (s : DB) : bool := forallb (fun j => default 0 (j_target_vmid j) =? 104) (pve_jobs s).
Definition settle_run : (ctl_error + unit) * (DB * nanos) * list happened :=
  run_ctl true "revoker" (clone_world at_target "job_a") (RunPVEJobMaintenance 1) (clone_db <| pve_jobs := [clone_row "running" (Some "UPID:pve1:1")] |>, 10 * second) [].
Definition recover_run : (ctl_error + JobInfo) * (DB * nanos) * list happened :=
  run_ctl true "revoker" (clone_world at_target "job_a") (recoverCloneTask admin_session "csrf" "job_a" (Some ("UPID:pve1:1", "lost"))) (clone_db <| pve_jobs := [clone_row "accepted" None] |>, 10 * second) [].

Lemma clone_request_roundtrip_witness : decode_clone (encode_clone wanted_clone) = Some wanted_clone.
Proof. apply (clone_request_roundtrip wanted_clone); [repeat constructor | split; vm_compute; congruence]. Defined.

Lemma clone_world_ok jobID : world_ok (clones_homed (fun _ => 104)) (clone_world at_target jobID).
Proof.
  apply deployment_with_ok; [by intros j [] |]. intros s Hs j Hj _. unfold at_target in Hs. rewrite forallb_forall in Hs. by apply Z.eqb_eq, Hs.
Qed.

Lemma create_run_eq : run_ctl true "revoker" (clone_world (fun _ => true) "") (createDesktopInstance "svc@pve!ci" clone_http create_request admin_session "csrf") (clone_db, 10 * second) [] =
  (fst (fst create_run), snd (fst create_run), snd create_run).
Proof. unfold create_run. exact (run_eta _). Qed.

Definition clone_asked (e : happened) : option (Z * string) :=
  match e with HPve (PClone req) _ => Some (cl_target_vmid req, cl_description req) | _ => None end.
Lemma clone_asked_inv e vmid text : clone_asked e = Some (vmid, text) -> exists req res, e = HPve (PClone req) res /\ cl_target_vmid req = vmid /\ cl_description req = text.
Proof. destruct e as [| | B q res | | | | | |]; try done. destruct q; try done. cbn. intros [= <- <-]. by exists r, res. Qed.

Lemma create_asks : (snd create_run !! 2%nat) ≫= clone_asked = Some (103, clone_marker "job_QUFBQUFBQUFBQUFBQUFBQUFB").
Proof. vm_compute. reflexivity. Qed.

Lemma clone_submitted_after_reservation_witness : exists req res row occupied cx s f job mid older,
  snd create_run !! 2%nat = Some (HPve (PClone req) res) /\ drop 3 (snd create_run) = mid ++ HStore (OpReserveClone row occupied) cx s f :: older /\
  TargetVMID job = 103 /\ clone_marker (JobID job) = clone_marker "job_QUFBQUFBQUFBQUFBQUFBQUFB" /\ existsb is_clone mid = false.
Proof.
  pose proof create_asks as He. destruct (snd create_run !! 2%nat) as [e |] eqn:El; [| discriminate He].
  apply clone_asked_inv in He as (req & res & -> & Hv & Hd). exists req, res.
  edestruct (clone_submitted_after_reservation true "revoker" (clone_world (fun _ => true) "") "svc@pve!ci" clone_http create_request admin_session "csrf"
    (clone_db, 10 * second) (fst (fst create_run)) (snd (fst create_run)) (take 2 (snd create_run)) req res (drop 3 (snd create_run)))
    as (_ & _ & row & occ & cx & s & f & job & mid & older & Hpre & Hm & _ & _ & Hd' & Hv' & _).
  - rewrite take_drop_middle by exact El. exact create_run_eq.
  - exists row, occ, cx, s, f, job, mid, older. split; [reflexivity |]. split; [exact Hpre |]. split; [congruence |]. split; [congruence | exact Hm].
Defined.

Lemma power_run_eq : run_ctl true "revoker" (clone_world (fun _ => true) "") (changeVirtualMachinePower clone_http power_request admin_session "csrf" "101" "start") (clone_db, 10 * second) [] =
  (fst (fst power_run), snd (fst power_run), snd power_run).
Proof. unfold power_run. exact (run_eta _). Qed.

Definition power_asked (e : happened) : option Z := match e with HPve (PPower _ vmid _) _ => Some vmid | _ => None end.
Lemma power_asked_inv e vmid : power_asked e = Some vmid -> exists node action res, e = HPve (PPower node vmid action) res.
Proof. destruct e as [| | B q res | | | | | |]; try done. destruct q; try done. cbn. intros [= <-]. by exists node, action, res. Qed.
Lemma power_asks : (snd power_run !! 2%nat) ≫= power_asked = Some 101.
Proof. vm_compute. reflexivity. Qed.

Lemma power_once_per_job_witness : exists node action res row cx s f mid older,
  snd power_run !! 2%nat = Some (HPve (PPower node 101 action) res) /\ drop 3 (snd power_run) = mid ++ HStore (OpCreateJob row) cx s f :: older /\
  TargetVMID row = 101 /\ existsb is_power mid = false.
Proof.
  pose proof power_asks as He. destruct (snd power_run !! 2%nat) as [e |] eqn:El; [| discriminate He].
  apply power_asked_inv in He as (node & action & res & ->). exists node, action, res.
  edestruct (power_once_per_job true "revoker" (clone_world (fun _ => true) "") clone_http power_request
    (changeVirtualMachinePower clone_http power_request admin_session "csrf" "101" "start")
    (clone_db, 10 * second) (fst (fst power_run)) (snd (fst power_run)) (take 2 (snd power_run)) node 101 action res (drop 3 (snd power_run)))
    as (row & cx & s & f & job & mid & older & Hpre & Hm & _ & Hv & _).
  - right. right. by exists admin_session, "csrf", "101", "start".
  - rewrite take_drop_middle by exact El. exact power_run_eq.
  - exists row, cx, s, f, mid, older. split; [reflexivity |]. split; [exact Hpre |]. split; [exact Hv | exact Hm].
Defined.

Lemma settle_run_eq : run_ctl true "revoker" (clone_world at_target "job_a") (RunPVEJobMaintenance 1) (clone_db <| pve_jobs := [clone_row "running" (Some "UPID:pve1:1")] |>, 10 * second) [] =
  (fst (fst settle_run), snd (fst settle_run), snd settle_run).
Proof. unfold settle_run. exact (run_eta _). Qed.

Definition published_at (e : happened) : option Z := match e with HStore (OpUpsertDesktop d) _ _ _ => Some (VMID d) | _ => None end.
Lemma published_inv e vmid : published_at e = Some vmid -> exists d cx s f, e = HStore (OpUpsertDesktop d) cx s f /\ VMID d = vmid.
Proof. destruct e as [B q cx s f | | | | | | | |]; try done. destruct q; try done. cbn. intros [= <-]. by exists desktop, cx, s, f. Qed.
Lemma settle_publishes : (snd settle_run !! 4%nat) ≫= published_at = Some 104.
Proof. vm_compute. reflexivity. Qed.

Lemma clone_published_verified_witness : exists d cx s f job, snd settle_run !! 4%nat = Some (HStore (OpUpsertDesktop d) cx s f) /\
  held (drop 5 (snd settle_run)) = Some 104 /\ TargetVMID job = 104 /\ target_recognised_last job (section (drop 5 (snd settle_run))).
Proof.
  pose proof settle_publishes as He. destruct (snd settle_run !! 4%nat) as [e |] eqn:El; [| discriminate He].
  apply published_inv in He as (d & cx & s & f & -> & Hv).
  edestruct (clone_published_verified true "revoker" (fun _ => 104) (clone_world at_target "job_a") (RunPVEJobMaintenance 1)
    (clone_db <| pve_jobs := [clone_row "running" (Some "UPID:pve1:1")] |>, 10 * second) (fst (fst settle_run)) (snd (fst settle_run)) (take 4 (snd settle_run)) d)
    as (Hh & e & job & _ & _ & _ & Ht & _ & _ & Hr & _).
  - right. left. by exists 1%nat.
  - apply clone_world_ok.
  - rewrite take_drop_middle by exact El. exact settle_run_eq.
  - exists d, cx, s, f, job. rewrite Hv in Hh, Ht. split; [reflexivity |]. split; [exact Hh |]. split; [exact Ht | exact Hr].
Defined.

Definition succeeded_as (e : happened) : option (string * string) :=
  match e with HStore (OpCompleteJobTask id state upid _) _ _ _ => if state == "succeeded" then Some (id, upid) else None | _ => None end.
Lemma succeeded_as_inv e id upid : succeeded_as e = Some (id, upid) -> exists message cx s f, e = HStore (OpCompleteJobTask id "succeeded" upid message) cx s f.
Proof.
  destruct e as [B q cx s f | | | | | | | |]; try done. destruct q; try done. cbn. destruct (bool_decide _) eqn:Hs; [| done].
  apply bool_decide_eq_true in Hs as ->. intros [= <- <-]. by exists message, cx, s, f.
Qed.
Lemma settle_succeeds : (snd settle_run !! 3%nat) ≫= succeeded_as = Some ("job_a", "UPID:pve1:1").
Proof. vm_compute. reflexivity. Qed.

Lemma job_succeeds_after_task_witness : exists message cx s f job,
  snd settle_run !! 3%nat = Some (HStore (OpCompleteJobTask "job_a" "succeeded" "UPID:pve1:1" message) cx s f) /\
  JobID job = "job_a" /\ task_ended_well job (section (drop 4 (snd settle_run))).
Proof.
  pose proof settle_succeeds as He. destruct (snd settle_run !! 3%nat) as [e |] eqn:El; [| discriminate He].
  apply succeeded_as_inv in He as (message & cx & s & f & ->).
  edestruct (job_succeeds_after_task true "revoker" (fun _ => 104) (clone_world at_target "job_a") (RunPVEJobMaintenance 1)
    (clone_db <| pve_jobs := [clone_row "running" (Some "UPID:pve1:1")] |>, 10 * second) (fst (fst settle_run)) (snd (fst settle_run)) (take 3 (snd settle_run))
    "job_a" "UPID:pve1:1" message) as (e & job & _ & _ & Hid & _ & Ht & _).
  - right. left. by exists 1%nat.
  - apply clone_world_ok.
  - rewrite take_drop_middle by exact El. exact settle_run_eq.
  - exists message, cx, s, f, job. split; [reflexivity |]. split; [exact Hid | exact Ht].
Defined.

Lemma recover_run_eq : run_ctl true "revoker" (clone_world at_target "job_a") (recoverCloneTask admin_session "csrf" "job_a" (Some ("UPID:pve1:1", "lost")))
    (clone_db <| pve_jobs := [clone_row "accepted" None] |>, 10 * second) [] = (fst (fst recover_run), snd (fst recover_run), snd recover_run).
Proof. unfold recover_run. exact (run_eta _). Qed.

Definition handle_given (e : happened) : option (string * Z) :=
  match e with HStore (OpCommitCloneRecovery _ job upid _ _) _ _ _ => Some (upid, TargetVMID job) | _ => None end.
Lemma handle_given_inv e upid vmid : handle_given e = Some (upid, vmid) ->
  exists runes job actor reason cx s f, e = HStore (OpCommitCloneRecovery runes job upid actor reason) cx s f /\ TargetVMID job = vmid.
Proof. destruct e as [B q cx s f | | | | | | | |]; try done. destruct q; try done. cbn. intros [= <- <-]. by exists runes, job, actorID, reason, cx, s, f. Qed.
Lemma recover_gives : (snd recover_run !! 1%nat) ≫= handle_given = Some ("UPID:pve1:1", 104).
Proof. vm_compute. reflexivity. Qed.

Lemma clone_recovered_with_evidence_witness : exists runes job actor reason cx s f,
  snd recover_run !! 1%nat = Some (HStore (OpCommitCloneRecovery runes job "UPID:pve1:1" actor reason) cx s f) /\
  held (drop 2 (snd recover_run)) = Some 104 /\
  In (HPve (PCloneLog (TaskNode job) "UPID:pve1:1") (inr (Some (SourceVMID job, 104)))) (section (drop 2 (snd recover_run))).
Proof.
  pose proof recover_gives as He. destruct (snd recover_run !! 1%nat) as [e |] eqn:El; [| discriminate He].
  apply handle_given_inv in He as (runes & job & actor & reason & cx & s & f & -> & Hv).
  edestruct (clone_recovered_with_evidence true "revoker" (clone_world at_target "job_a") admin_session "csrf" "job_a" (Some ("UPID:pve1:1", "lost"))
    (clone_db <| pve_jobs := [clone_row "accepted" None] |>, 10 * second) (fst (fst recover_run)) (snd (fst recover_run)) (take 1 (snd recover_run)) runes job "UPID:pve1:1")
    as (_ & _ & _ & Hh & _ & Hlog & _).
  - rewrite take_drop_middle by exact El. exact recover_run_eq.
  - exists runes, job, actor, reason, cx, s, f. rewrite Hv in Hh, Hlog. split; [reflexivity |]. split; [exact Hh | exact Hlog].
Defined.
End witnesses.
