(* ===== verification/ControllerLogin.v ===== *)
(** * Signing in ([internal/httpapi/server.go], [internal/oidcauth])

    The first administrator, passwords, single sign-on, one-time codes and API
    tokens: how a request becomes a session, and the guards that the other
    handlers stand behind.  A request arrives with its cookies, headers, path
    values, query and raw body.  The server has its store; golang.org/x/oauth2,
    go-oidc and net/url are parameters or calls with arbitrary answers.  On
    success a handler returns what it writes; a cookie is its value. *)
From stdpp Require Import base strings list.
From Stdlib Require Import ZArith Lia Ascii.
From S2P Require Import Prelude GoStrings GuestIdentity Auth Net Db Json Triggers StoreAccess StoreSession GatewayTransport Computer Guest GuestAccount ComputerWire StoreAudit StoreCatalog Pve Controller ControllerScripts ControllerNative ControllerHttp ControllerConnect ControllerRecovery ControllerClone.

Local Open Scope string_scope.
Local Open Scope list_scope.
Local Open Scope Z_scope.

(** ** Requests *)
Record web_request : Set := MkWebRequest {
  wq_from : http_request;                 (* the sender, for the audit log *)
  wq_cookies : list (string * string);    (* in the order of the header *)
  wq_authorization : string;
  wq_csrf : string;                       (* X-CSRF-Token *)
  wq_path : list (string * string);       (* PathValue, the names distinct *)
  wq_query : list (string * string);
  wq_job : job_request                    (* method, path, Idempotency-Key, body *)
}.

(** The first value of a name: [url.Values.Get], [Header.Get], [r.Cookie]. *)
Definition first_of (name : string) (l : list (string * string)) : option string := option_map snd (List.find (fun e => fst e == name) l).

Definition path_value (q : web_request) (name : string) : string := map_get name (wq_path q).
Definition query_value (q : web_request) (name : string) : string := default "" (first_of name (wq_query q)).

Definition cookie (q : web_request) (name : string) : option string := first_of name (wq_cookies q).
Definition requestCookie (q : web_request) (primary legacy : string) : option string :=
  match cookie q primary with
  | Some v => if v != "" then Some v else cookie q legacy
  | None => cookie q legacy
  end.

Definition workspaceSessionCookieName : string := "vc_workspace_session".
Definition legacySessionCookieName : string := "vc_vdi_session".
Definition workspaceOIDCStateCookie : string := "vc_workspace_oidc_state".
Definition legacyOIDCStateCookie : string := "vc_vdi_oidc_state".

(** [decodeJSON]: one document of at most a mebibyte, without unknown members. *)
Definition limited (body : string) : string := if 1048576 <? slen body then str_take (Z.to_nat 1048576) body else body.
Definition decodeJSON {A} (fields : list string) (read : list (string * json) -> option A) (zero : A) (q : web_request) : option A :=
  body ← jr_body (wq_job q);
  v ← json_document (limited body);
  store_struct (fun _ l => if known_fields fields l then read l else None) zero v.

(** The members of a body that are texts. *)
Definition text_field (fields : list string) (l : list (string * json)) (name : string) : option string := field fields store_string "" name l.
Definition bool_field (fields : list string) (l : list (string * json)) (name : string) : option (option bool) :=
  field fields (store_ptr store_bool false) None name l.

Definition bad_request : ctl_error := EReply 400 "invalid_request".
Definition internal_error : ctl_error := EReply 500 "internal_error".

(** An operation that commits and still reports an error. *)
Definition store_result {B} (q : store_op (result B)) : ctl B :=
  r ← store_ q;
  match r with inr b => mret b | inl e => cfail (EStore e) end.

(** ** Names and passwords *)
Definition usernamePattern (s : string) : bool :=
  match s with String c rest => alphanumeric c && match_class "" name_char 2 63 rest | EmptyString => false end.

Definition validateNewPassword (password : string) : bool := (12 <=? rune_count password) && (rune_count password <=? 128).

(** [oidcUsernameCharacters.ReplaceAllString(s, with)]: every run of other
    characters becomes [with]. *)
Definition login_char (c : ascii) : bool := is_lower c || is_digit c || bool_decide (c ∈ ["."; "_"; "-"]%char).
Fixpoint replace_runs (repl : string) (inside : bool) (s : string) : string :=
  match s with
  | EmptyString => ""
  | String c s' =>
      if login_char c then String c (replace_runs repl false s')
      else (if inside then "" else repl) +:+ replace_runs repl true s'
  end.

(** [strings.Trim(s, ".-_")] *)
Definition is_mark (c : ascii) : bool := bool_decide (c ∈ ["."; "-"; "_"]%char).
Fixpoint drop_marks (s : string) : string :=
  match s with String c s' => if is_mark c then drop_marks s' else s | EmptyString => "" end.
Definition trim_marks (s : string) : string := str_rev (drop_marks (str_rev (drop_marks s))).

Section logins.
Context `{Sha256} `{UnicodeLower}.

Definition oidcUsername (email subject : string) : string :=
  let base := ToLower (TrimSpace email) in
  let base := fst (fst (cut "@" base)) in
  let base := trim_marks (replace_runs "-" false base) in
  let base := if slen base <? 3 then "sso-user" else base in
  let base := if 52 <? slen base then str_take 52 base else base in
  if (base == "sso-user") && (subject != "") then
    let suffix := ToLower (replace_runs "" false subject) in
    let suffix := if 8 <? slen suffix then str_take 8 suffix else suffix in
    if suffix != "" then base +:+ "-" +:+ suffix else base
  else base.

Definition ProviderID : string := "default".
Definition oidcGroupID (providerID externalID : string) : string :=
  "oidcg_" +:+ hex_encode (str_take 12 (sha256 (providerID +:+ String "000" externalID))).

(** ** The identity provider *)
Record Claims : Set := MkClaims {
  cm_subject : string;
  cm_name : string;
  cm_email : string;
  cm_nonce : string;
  cm_groups : list string
}.
Definition claim_fields : list string := ["sub"; "name"; "email"; "nonce"; "groups"].
Definition zero_claims : Claims := MkClaims "" "" "" "" [].
Definition store_claims : Claims -> json -> option Claims := store_struct (fun _ l =>
  sub ← text_field claim_fields l "sub"; name ← text_field claim_fields l "name"; email ← text_field claim_fields l "email";
  nonce ← text_field claim_fields l "nonce"; groups ← field claim_fields (store_slice store_string "") [] "groups" l;
  Some (MkClaims sub name email nonce groups)).

Fixpoint unseen_groups (seen : list string) (groups : list string) : option (list string) :=
  match groups with
  | [] => Some []
  | group :: rest =>
      let group := TrimSpace group in
      if group == "" then unseen_groups seen rest
      else if 512 <? rune_count group then None
      else if bool_decide (group ∈ seen) then unseen_groups seen rest
      else l ← unseen_groups (group :: seen) rest; Some (group :: l)
  end.
Definition normalizeGroups (groups : list string) : option (list string) :=
  if 256 <? Z.of_nat (length groups) then None else unseen_groups [] groups.

(** The groups of the configured claim. *)
Definition claimed_groups (groupsClaim : string) (payload : json) (claims : Claims) : option (list string) :=
  let groupsClaim := if TrimSpace groupsClaim == "" then "groups" else TrimSpace groupsClaim in
  if groupsClaim == "groups" then Some (cm_groups claims) else
  raw ← store_raw_map [] payload;
  match map_find groupsClaim raw with
  | Some v => store_slice store_string "" (cm_groups claims) v
  | None => Some []
  end.

Definition Exchange (groupsClaim code verifier expectedNonce : string) : ctl Claims :=
  token ← pve_ (PExchangeCode code verifier);
  raw ← csome token EOther;
  censure (raw != "") EOther;;
  payload ← pve_ (PVerifyIDToken raw);
  v ← csome (json_document payload) EOther;
  claims ← csome (store_claims zero_claims v) EOther;
  censure (cm_subject claims != "") EOther;;
  censure (cm_nonce claims == expectedNonce) EOther;;
  groups ← csome (claimed_groups groupsClaim v claims) EOther;
  groups ← csome (normalizeGroups groups) EOther;
  mret (MkClaims (cm_subject claims) (cm_name claims) (cm_email claims) (cm_nonce claims) groups).

(** ** Sessions *)
Record issued_session : Set := MkIssuedSession {
  sn_token : string;      (* the cookie, or the bearer token *)
  sn_csrf : string;
  sn_expires_at : time;
  sn_user : UserInfo
}.

Definition session_error (e : ctl_error) : ctl_error :=
  match e with EStore ErrNotFound => EReply 401 "authentication_changed" | _ => internal_error end.
Definition hours_later (hours : Z) (now : nanos) : time := (now + hours * 3600 * second) / 1000.

Definition issueSession (user : UserInfo) : ctl issued_session :=
  token ← reply_on (crandom 32) 500 "internal_error";
  csrf ← reply_on (crandom 24) 500 "internal_error";
  now ← cnow;
  let expiresAt := hours_later 12 now in
  r ← ctry (store_ (OpCreateSession (TokenDigest (OpaqueToken token)) user (OpaqueToken csrf) expiresAt));
  match r with
  | inr _ => mret (MkIssuedSession (OpaqueToken token) (OpaqueToken csrf) expiresAt user)
  | inl e => cfail (session_error e)
  end.
Definition startSession (user : UserInfo) : ctl issued_session := issueSession user.

Definition issueNativeSession (user : UserInfo) : ctl issued_session :=
  token ← reply_on (crandom 32) 500 "internal_error";
  now ← cnow;
  let expiresAt := hours_later (30 * 24) now in
  r ← ctry (store_ (OpCreateNativeSession (TokenDigest (OpaqueToken token)) user expiresAt));
  match r with
  | inr _ => mret (MkIssuedSession (OpaqueToken token) "" expiresAt user)
  | inl e => cfail (session_error e)
  end.

(** ** Guards *)
Definition authentication_required : ctl_error := EReply 401 "authentication_required".

Definition session_cookie (q : web_request) : option string :=
  match requestCookie q workspaceSessionCookieName legacySessionCookieName with
  | Some v => if v == "" then None else Some v
  | None => None
  end.

Definition requireAuth {A} (q : web_request) (next : Session -> string -> ctl A) : ctl A :=
  token ← csome (session_cookie q) authentication_required;
  session ← reply_on (store_ (OpSession (TokenDigest token))) 401 "authentication_required";
  next session token.

Definition requireCookieOrAPIToken {A} (q : web_request) (next : Session -> string -> ctl A) : ctl A :=
  match ParseBearerToken (wq_authorization q) with
  | Some provided =>
      censure (negb (negb (has_prefix "vcwi_" provided) || (512 <? slen provided))) authentication_required;;
      session ← reply_on (store_result (OpAPISession (TokenDigest provided))) 401 "authentication_required";
      next session provided
  | None => requireAuth q next
  end.

Definition requireAdminMutation (q : web_request) (session : Session) : ctl unit :=
  censure (is_admin session) (EReply 403 "permission_denied");;
  censure ((AuthKind session == "api_token") || ConstantTimeEqual (wq_csrf q) (CSRFToken session)) (EReply 403 "invalid_csrf_token").
Definition requireWebMutation (q : web_request) (session : Session) : ctl unit :=
  censure (AuthKind session == "web") (EReply 403 "web_session_required");;
  censure (ConstantTimeEqual (wq_csrf q) (CSRFToken session)) (EReply 403 "invalid_csrf_token").
Definition requireWebAdminMutation (q : web_request) (session : Session) : ctl unit :=
  censure (is_admin session) (EReply 403 "permission_denied");;
  requireWebMutation q session.

(** ** Passwords *)
Section passwords.
Context `{Argon2} (setupToken : string).

(** [auth.HashPassword] with its salt. *)
Definition hash_password (password : string) : ctl string :=
  salt ← reply_on (crandom 16) 500 "internal_error";
  mret (HashPassword salt password).

Definition setup_fields : list string := ["setup_token"; "username"; "display_name"; "password"].
Record setup_body : Set := MkSetupBody { sb_token : string; sb_username : string; sb_display_name : string; sb_password : string }.
Definition read_setup (l : list (string * json)) : option setup_body :=
  token ← text_field setup_fields l "setup_token"; username ← text_field setup_fields l "username";
  name ← text_field setup_fields l "display_name"; password ← text_field setup_fields l "password";
  Some (MkSetupBody token username name password).

Definition createInitialAdmin (q : web_request) : ctl issued_session :=
  censure (setupToken != "") (EReply 503 "setup_unavailable");;
  body ← csome (decodeJSON setup_fields read_setup (MkSetupBody "" "" "" "") q) bad_request;
  (if ConstantTimeEqual (sb_token body) setupToken then mret tt else
     auditRequest (wq_from q) "" "setup.admin_creation_failed" "platform" "initial_setup" [("reason", text "invalid_setup_token")];;
     cfail (EReply 401 "invalid_setup_token"));;
  let username := TrimSpace (sb_username body) in
  let display := TrimSpace (sb_display_name body) in
  censure (usernamePattern username) (EReply 422 "invalid_username");;
  censure (negb ((slen (sb_password body) <? 12) || (128 <? slen (sb_password body)))) (EReply 422 "invalid_password");;
  let display := if display == "" then username else display in
  hash ← hash_password (sb_password body);
  id ← reply_on (crandom 18) 500 "internal_error";
  let user := MkUserInfo (OpaqueToken id) username display hash PlatformAdmin false 0 in
  r ← ctry (store_ (OpCreateInitialAdmin user));
  match r with
  | inl (EStore ErrAlreadyInitialized) =>
      auditRequest (wq_from q) "" "setup.admin_creation_failed" "platform" "initial_setup"
        [("username", text username); ("reason", text "already_initialized")];;
      cfail (EReply 409 "already_initialized")
  | inl _ => cfail internal_error
  | inr _ =>
      auditRequest (wq_from q) (UserID user) "setup.admin_created" "user" (UserID user) [("username", text username)];;
      startSession user
  end.

Definition login_fields : list string := ["username"; "password"].
Definition read_login (l : list (string * json)) : option (string * string) :=
  username ← text_field login_fields l "username"; password ← text_field login_fields l "password"; Some (username, password).

(** No account, no password, or not allowed in. *)
Definition refuse_login {A} (q : web_request) (event client username : string) (found : ctl_error + UserInfo) : ctl A :=
  let actorID := match found with inr u => UserID u | inl _ => "" end in
  let reason := match found with
    | inr u => if UserDisabled u then "disabled_user" else "password_login_unavailable"
    | inl _ => "unknown_user" end in
  let targetID := if actorID == "" then username else actorID in
  auditRequest (wq_from q) actorID event "user" targetID [("username", text username); ("client", text client); ("reason", text reason)];;
  cfail (EReply 401 "invalid_credentials").

Definition wrong_password {A} (q : web_request) (event client username : string) (user : UserInfo) : ctl A :=
  auditRequest (wq_from q) (UserID user) event "user" (UserID user)
    [("username", text username); ("client", text client); ("reason", text "invalid_password")];;
  cfail (EReply 401 "invalid_credentials").

Definition may_use_password (user : UserInfo) : bool := negb (UserDisabled user || (PasswordHash user == "")).

Definition login (q : web_request) : ctl issued_session :=
  body ← csome (decodeJSON login_fields read_login ("", "") q) bad_request;
  let '(name, password) := body in
  let username := TrimSpace name in
  found ← ctry (store_ (OpUserByUsername username));
  match found with
  | inr user =>
      if may_use_password user then
        match VerifyPassword (PasswordHash user) password with
        | None => cfail internal_error
        | Some false => wrong_password q "auth.login_failed" "web" username user
        | Some true =>
            session ← startSession user;
            auditRequest (wq_from q) (UserID user) "auth.login_succeeded" "user" (UserID user) [("client", text "web")];;
            mret session
        end
      else refuse_login q "auth.login_failed" "web" username found
  | inl _ => refuse_login q "auth.login_failed" "web" username found
  end.

Definition nativeLogin (q : web_request) : ctl issued_session :=
  body ← csome (decodeJSON login_fields read_login ("", "") q) bad_request;
  let '(name, password) := body in
  let username := TrimSpace name in
  found ← ctry (store_ (OpUserByUsername username));
  match found with
  | inr user =>
      if may_use_password user then
        match VerifyPassword (PasswordHash user) password with
        | Some true =>
            session ← issueNativeSession user;
            auditRequest (wq_from q) (UserID user) "auth.native_login_succeeded" "user" (UserID user) [("client", text "macos")];;
            mret session
        | _ => wrong_password q "auth.native_login_failed" "macos" username user
        end
      else refuse_login q "auth.native_login_failed" "macos" username found
  | inl _ => refuse_login q "auth.native_login_failed" "macos" username found
  end.

Definition password_fields : list string := ["current_password"; "new_password"].
Definition read_passwords (l : list (string * json)) : option (string * string) :=
  current ← text_field password_fields l "current_password"; new ← text_field password_fields l "new_password"; Some (current, new).

Definition changeOwnPassword (q : web_request) (session : Session) (token : string) : ctl unit :=
  requireWebMutation q session;;
  let user := SessionUser session in
  censure (PasswordHash user != "") (EReply 409 "password_managed_externally");;
  body ← csome (decodeJSON password_fields read_passwords ("", "") q) bad_request;
  let '(current, new) := body in
  censure (validateNewPassword new) (EReply 422 "invalid_password");;
  valid ← csome (VerifyPassword (PasswordHash user) current) internal_error;
  (if valid : bool then mret tt else
     auditRequest (wq_from q) (UserID user) "user.password_change_failed" "user" (UserID user) [("reason", text "invalid_current_password")];;
     cfail (EReply 422 "invalid_current_password"));;
  unchanged ← csome (VerifyPassword (PasswordHash user) new) internal_error;
  censure (negb unchanged) (EReply 422 "password_unchanged");;
  hash ← hash_password new;
  reply_on (store_ (OpSetPassword (UserID user) hash (TokenDigest token))) 500 "internal_error";;
  auditRequest (wq_from q) (UserID user) "user.password_changed" "user" (UserID user) [("other_sessions_revoked", JBool true)].
End passwords.

(** ** Single sign-on *)
Section oidc.
Context `{UrlParser} (groupsClaim nativeCallbackURL : string) (generate_verifier : bytes -> string) (auth_code_url : string -> string -> string -> string).

(** The state cookie and the address of the provider. *)
Definition oidcStart (q : web_request) : ctl (string * string) :=
  state ← reply_on (crandom 32) 500 "internal_error";
  nonce ← reply_on (crandom 24) 500 "internal_error";
  random ← reply_on (crandom 32) 500 "internal_error";
  let state := OpaqueToken state in
  let nonce := OpaqueToken nonce in
  let verifier := generate_verifier random in
  let clientKind := if query_value q "client" == "macos" then "macos" else "web" in
  now ← cnow;
  reply_on (store_result (OpCreateOIDCRequest (TokenDigest state) nonce verifier clientKind ((now + 600 * second) / 1000))) 500 "internal_error";;
  mret (state, auth_code_url state nonce verifier).

(** A session in the browser, or a one-time code for the native client. *)
Inductive oidc_reply : Set := BrowserSession (s : issued_session) | NativeCode (callback : URL) (code : string).

Definition finishNativeOIDC (user : UserInfo) : ctl oidc_reply :=
  callback ← csome (url_parse nativeCallbackURL) (EReply 500 "native_callback_invalid");
  censure (Scheme callback != "") (EReply 500 "native_callback_invalid");;
  random ← reply_on (crandom 32) 500 "internal_error";
  let code := OpaqueToken random in
  now ← cnow;
  reply_on (store_result (OpCreateAuthCode (TokenDigest code) (UserID user) ((now + 120 * second) / 1000))) 500 "internal_error";;
  mret (NativeCode callback code).

Definition oidc_failed {A} (q : web_request) (stage : string) (e : ctl_error) : ctl A :=
  auditRequest (wq_from q) "" "auth.oidc_login_failed" "" "" [("stage", text stage)];;
  cfail e.

Definition invalid_callback : ctl_error := EReply 400 "invalid_oidc_callback".

Definition callback_display (claims : Claims) : string :=
  let name := TrimSpace (cm_name claims) in
  let name := if name == "" then TrimSpace (cm_email claims) else name in
  if name == "" then "SSO User" else name.

Definition oidc_group (externalID : string) : GroupClaim := MkGroupClaim (oidcGroupID ProviderID externalID) externalID externalID.

(** The failures after the identity is known name the user as their target,
    also an empty one. *)
Definition oidc_user_failed {A} (q : web_request) (userID stage : string) (e : ctl_error) : ctl A :=
  auditRequest (wq_from q) userID "auth.oidc_login_failed" "user" userID [("stage", text stage)];;
  cfail e.

Definition oidcCallback (q : web_request) : ctl oidc_reply :=
  let state := query_value q "state" in
  let code := query_value q "code" in
  let presented := match requestCookie q workspaceOIDCStateCookie legacyOIDCStateCookie with Some c => ConstantTimeEqual c state | None => false end in
  (if negb presented || (state == "") || (code == "") then oidc_failed q "callback_validation" invalid_callback else mret tt);;
  consumed ← ctry (store_ (OpConsumeOIDCRequest (TokenDigest state)));
  match consumed with
  | inl _ => oidc_failed q "state_consumption" invalid_callback
  | inr (nonce, verifier, clientKind) =>
  exchanged ← ctry (Exchange groupsClaim code verifier nonce);
  match exchanged with
  | inl _ => oidc_failed q "token_exchange" (EReply 401 "oidc_login_failed")
  | inr claims =>
  id ← reply_on (crandom 18) 500 "internal_error";
  let proposed := MkUserInfo (OpaqueToken id) (oidcUsername (cm_email claims) (cm_subject claims)) (callback_display claims) "" RegularUser false 0 in
  resolved ← ctry (store_ (OpResolveOIDCUser ProviderID (cm_subject claims) proposed));
  match resolved with
  | inl _ => oidc_user_failed q "" "identity_resolution" internal_error
  | inr user =>
  if UserDisabled user then oidc_user_failed q (UserID user) "identity_resolution" internal_error else
  synced ← ctry (store_ (OpSyncOIDCGroups ProviderID (UserID user) (List.map oidc_group (cm_groups claims))));
  match synced with
  | inl _ => oidc_user_failed q (UserID user) "group_synchronization" (EReply 500 "identity_sync_failed")
  | inr _ =>
  auditRequest (wq_from q) (UserID user) "auth.oidc_login_succeeded" "user" (UserID user)
    [("provider", text ProviderID); ("client", text clientKind)];;
  if clientKind == "macos" then finishNativeOIDC user else
  session ← issueSession user;
  mret (BrowserSession session)
  end end end end.

Definition nativeExchange (q : web_request) : ctl issued_session :=
  code ← csome (decodeJSON ["code"] (fun l => text_field ["code"] l "code") "" q) bad_request;
  censure (code != "") bad_request;;
  r ← ctry (store_result (OpConsumeAuthCode (TokenDigest code)));
  let refused {A} (userID : string) : ctl A :=
    auditRequest (wq_from q) userID "auth.native_oidc_login_failed" "user" userID [("client", text "macos")];;
    cfail (EReply 401 "invalid_native_code") in
  match r with
  | inl _ => refused ""
  | inr user =>
      if UserDisabled user then refused (UserID user) else
      session ← issueNativeSession user;
      auditRequest (wq_from q) (UserID user) "auth.native_oidc_login_succeeded" "user" (UserID user) [("client", text "macos")];;
      mret session
  end.
End oidc.

(** ** The signed-in user *)
Definition me (session : Session) : UserInfo * string := (SessionUser session, CSRFToken session).

Definition logout (q : web_request) (session : Session) (token : string) : ctl unit :=
  censure (ConstantTimeEqual (wq_csrf q) (CSRFToken session)) (EReply 403 "invalid_csrf_token");;
  reply_on (store_ (OpDeleteSession (TokenDigest token))) 500 "internal_error";;
  auditRequest (wq_from q) (UserID (SessionUser session)) "auth.logout_succeeded" "user" (UserID (SessionUser session)) [("client", text "web")].

(** ** API tokens *)
Section tokens.
Context `{Collation} (format_time : time -> string).

Definition apiTokens (session : Session) : ctl (list APITokenInfo) :=
  censure (is_admin session) (EReply 403 "permission_denied");;
  reply_on (store_ (OpRead (fun _ => APITokens (UserID (SessionUser session))))) 500 "internal_error".

Definition token_fields : list string := ["name"; "expires_in_days"].
Definition read_token (l : list (string * json)) : option (string * Z) :=
  name ← text_field token_fields l "name"; days ← field token_fields store_int64 0 "expires_in_days" l; Some (name, days).

Definition createAPIToken (q : web_request) (session : Session) : ctl (APITokenInfo * string) :=
  requireWebAdminMutation q session;;
  body ← csome (decodeJSON token_fields read_token ("", 0) q) bad_request;
  let name := TrimSpace (fst body) in
  let days := snd body in
  censure (negb ((name == "") || (80 <? rune_count name) || (days <? 1) || (90 <? days))) (EReply 422 "invalid_api_token");;
  id ← reply_on (crandom 18) 500 "internal_error";
  secret ← reply_on (crandom 32) 500 "internal_error";
  let rawToken := "vcwi_" +:+ OpaqueToken secret in
  now ← cnow;
  token ← reply_on (store_ (OpCreateAPIToken (UserID (SessionUser session)) ("token_" +:+ OpaqueToken id) name (hours_later (days * 24) now)
                     (TokenDigest rawToken))) 500 "internal_error";
  auditRequest (wq_from q) (UserID (SessionUser session)) "api_token.created" "api_token" (TokenID token)
    [("name", text (TokenName token)); ("expires_at", text (format_time (TokenExpiresAt token)))];;
  mret (token, rawToken).

Definition deleteAPIToken (q : web_request) (session : Session) : ctl unit :=
  requireWebAdminMutation q session;;
  let id := TrimSpace (path_value q "id") in
  deleted ← reply_on (store_ (OpDeleteAPIToken (UserID (SessionUser session)) id)) 500 "internal_error";
  censure deleted (EReply 404 "api_token_not_found");;
  auditRequest (wq_from q) (UserID (SessionUser session)) "api_token.revoked" "api_token" id [].
End tokens.
End logins.

(** ** Names of single sign-on *)
Lemma str_rev_app a b : str_rev (a +:+ b) = str_rev b +:+ str_rev a.
Proof.
  unfold str_rev. assert (forall l k, String.string_of_list_ascii (l ++ k) = String.string_of_list_ascii l +:+ String.string_of_list_ascii k) as Happ
    by (induction l as [| c l IH]; intros k; [done | exact (f_equal (String c) (IH k))]).
  assert (forall x y, String.list_ascii_of_string (x +:+ y) = String.list_ascii_of_string x ++ String.list_ascii_of_string y) as Hlist
    by (induction x as [| c x IH]; intros y; [done | exact (f_equal (cons c) (IH y))]).
  by rewrite Hlist, rev_app_distr, Happ.
Qed.
Lemma str_rev_rev s : str_rev (str_rev s) = s.
Proof. unfold str_rev. by rewrite String.list_ascii_of_string_of_list_ascii, rev_involutive, String.string_of_list_ascii_of_string. Qed.
Lemma str_rev_forall p s : str_forall p (str_rev s) = str_forall p s.
Proof.
  induction s as [| c s IH]; [done |]. change (String c s) with (String c "" +:+ s) at 1. rewrite str_rev_app, str_forall_app, IH. cbn.
  by rewrite andb_true_r, andb_comm.
Qed.
Lemma str_take_forall p n s : str_forall p s = true -> str_forall p (str_take n s) = true.
Proof. unfold str_take. revert n. induction s as [| c s IH]; intros [| n]; try done. cbn. rewrite !andb_true_iff. intros [-> Hs]. split; [done | by apply IH]. Qed.
Lemma str_take_slen n s : (n <= String.length s)%nat -> slen (str_take n s) = Z.of_nat n.
Proof.
  unfold slen, str_take. intros Hn. f_equal. revert n Hn. induction s as [| c s IH]; intros [| n] Hn; cbn in *; try lia. rewrite IH; lia.
Qed.

Lemma drop_marks_suffix s : exists p, s = p +:+ drop_marks s.
Proof. induction s as [| c s [p IH]]; [by exists "" |]. cbn. destruct (is_mark c); [| by exists ""]. exists (String c p). exact (f_equal (String c) IH). Qed.
Lemma drop_marks_head s c t : drop_marks s = String c t -> is_mark c = false.
Proof. induction s as [| d s IH]; [done |]. cbn. destruct (is_mark d) eqn:Hd; [done |]. by intros [= <- _]. Qed.
Lemma drop_marks_forall p s : str_forall p s = true -> str_forall p (drop_marks s) = true.
Proof. intros Hs. destruct (drop_marks_suffix s) as [q E]. rewrite E, str_forall_app in Hs. by apply andb_true_iff in Hs as [_ Hs]. Qed.
Lemma trim_marks_head s c t : trim_marks s = String c t -> is_mark c = false.
Proof.
  unfold trim_marks. intros E. destruct (drop_marks_suffix (str_rev (drop_marks s))) as [p Hp].
  apply (f_equal str_rev) in Hp. rewrite str_rev_rev, str_rev_app, E in Hp. by eapply drop_marks_head.
Qed.
Lemma trim_marks_forall p s : str_forall p s = true -> str_forall p (trim_marks s) = true.
Proof. intros Hs. unfold trim_marks. rewrite str_rev_forall. apply drop_marks_forall. rewrite str_rev_forall. by apply drop_marks_forall. Qed.

Lemma replace_runs_forall repl inside s : str_forall login_char repl = true -> str_forall login_char (replace_runs repl inside s) = true.
Proof.
  intros Hr. revert inside. induction s as [| c s IH]; intros inside; [done |]. cbn [replace_runs]. destruct (login_char c) eqn:Hc.
  - cbn. by rewrite Hc, IH.
  - rewrite str_forall_app, IH. by destruct inside; rewrite ?Hr.
Qed.

Lemma login_char_facts c : login_char c = true -> name_char c = true /\ is_ascii c = true /\ lower_char c = c /\ (is_mark c = false -> alphanumeric c = true).
Proof. destruct c as [[] [] [] [] [] [] [] []]; vm_compute; intros H; try discriminate H; split_and!; congruence || reflexivity. Qed.

Lemma lower_login s `{UnicodeLower} : str_forall login_char s = true -> ToLower s = s.
Proof.
  intros Hs. unfold ToLower. rewrite (str_forall_impl login_char is_ascii); [| intros c Hc; by apply login_char_facts | done].
  induction s as [| c s IH]; [done |]. cbn in *. apply andb_true_iff in Hs as [Hc Hs]. rewrite IH by done. by destruct (login_char_facts c Hc) as (_ & _ & -> & _).
Qed.

(** A name of such characters, not too long, that does not begin with a mark. *)
Lemma usernamePattern_login s : str_forall login_char s = true -> (forall c t, s = String c t -> is_mark c = false) -> 3 <= slen s <= 64 ->
  usernamePattern s = true.
Proof.
  intros Hs Hh Hl. destruct s as [| c s]; [by destruct Hl |]. cbn in Hs. apply andb_true_iff in Hs as [Hc Hs]. specialize (Hh c s eq_refl).
  rewrite slen_String in Hl. unfold usernamePattern, match_class. cbn [cut_prefix]. destruct (login_char_facts c Hc) as (_ & _ & _ & ->); [| done].
  rewrite (str_forall_impl login_char name_char); [| intros d Hd; by apply login_char_facts | done]. cbn. apply andb_true_iff. split; apply Z.leb_le; lia.
Qed.

(** (C30) Whatever the provider says of a subject, the name that is proposed for
    its account is one that the platform accepts for a user. *)
Theorem oidcUsername_accepted `{UnicodeLower} email subject : usernamePattern (oidcUsername email subject) = true.
Proof.
  unfold oidcUsername. set (base := trim_marks _). set (suffix := ToLower (replace_runs "" false subject)).
  assert (str_forall login_char base = true) as Hbase by by apply trim_marks_forall, replace_runs_forall.
  assert (forall c t, base = String c t -> is_mark c = false) as Hhead by (intros c t; apply trim_marks_head).
  assert (str_forall login_char suffix = true) as Hsuffix.
  { unfold suffix. rewrite lower_login; by apply replace_runs_forall. }
  clearbody base suffix. cbv zeta.
  set (named := if slen base <? 3 then "sso-user" else base). set (short := if 52 <? slen named then str_take 52 named else named).
  set (tail := if 8 <? slen suffix then str_take 8 suffix else suffix).
  assert (str_forall login_char short = true /\ (forall c t, short = String c t -> is_mark c = false) /\ 3 <= slen short <= 52) as (Hs & Hm & Hl).
  { assert (str_forall login_char named = true /\ (forall c t, named = String c t -> is_mark c = false) /\ 3 <= slen named) as (Hs & Hm & Hl).
    { unfold named. destruct (Z.ltb_spec (slen base) 3); [| by split_and!]. split; [done |]. split; [by intros c t [= <- <-] | done]. }
    unfold short. destruct (Z.ltb_spec 52 (slen named)); [| by split_and!]. split; [by apply str_take_forall |].
    rewrite str_take_slen by (unfold slen in *; lia). split; [| lia]. intros c t E. destruct named as [| d n]; [done |]. injection E as <- _. by eapply Hm. }
  assert (str_forall login_char tail = true /\ slen tail <= 8) as [Ht Htl].
  { unfold tail. destruct (Z.ltb_spec 8 (slen suffix)); [| done]. split; [by apply str_take_forall |]. rewrite str_take_slen; unfold slen in *; lia. }
  clearbody short tail. destruct (_ && _) eqn:E; [| apply usernamePattern_login; [done.. | lia]]. apply andb_true_iff in E as [E _]. apply bool_decide_eq_true in E as ->.
  destruct (negb _); [| done]. apply usernamePattern_login; [by rewrite str_forall_app, str_forall_app, Ht | by intros c t [= <- _] |].
  rewrite !slen_app. change (slen "sso-user") with 8. change (slen "-") with 1. pose proof (slen_nonneg tail). lia.
Qed.
