(* ===== verification/ControllerAdmin.v ===== *)
(** * Administration ([internal/httpapi/server.go])

    Users, agents, assignments, groups, access policies and the listings of
    the administrator, each behind its guard.  A body arrives raw and is decoded
    here. *)
From stdpp Require Import base strings list.
From Stdlib Require Import ZArith Lia Ascii.
From S2P Require Import Prelude GoStrings Auth Net Db Json Triggers StoreAccess StoreSession StoreConn StoreLease GatewayTransport Computer Guest GuestAccount ComputerWire StoreAudit StoreJobs StoreCatalog Pve Controller ControllerScripts ControllerNative ControllerAgent ControllerHttp ControllerConnect ControllerRecovery ControllerClone ControllerLogin.

Local Open Scope string_scope.
Local Open Scope list_scope.
Local Open Scope Z_scope.

Definition permission_denied : ctl_error := EReply 403 "permission_denied".
Definition actor (session : Session) : string := UserID (SessionUser session).

(** The reply of a failure: what is not found, what conflicts, and the rest. *)
Definition replies {A} (p : ctl A) (notFound conflict : option (Z * string)) : ctl A :=
  r ← ctry p;
  let reply o := match o with Some (status, code) => EReply status code | None => internal_error end in
  match r with
  | inr a => mret a
  | inl (EStore ErrNotFound) => cfail (reply notFound)
  | inl (EStore ErrConflict) => cfail (reply conflict)
  | inl _ => cfail internal_error
  end.

Section administration.
Context `{Sha256} `{UnicodeLower} `{Collation} `{SqlLower} (has_pve : bool).

(** ** Listings *)
Record access_view : Type := MkAccessView {
  av_users : list UserAccount;
  av_agents : list AgentPrincipal;
  av_desktops : list DesktopInfo;
  av_assignments : list DesktopAssignment;
  av_leases : list DesktopLease;
  av_groups : list (IdentityGroup * nat);
  av_memberships : list GroupMembership;
  av_profiles : list IdentityProfile;
  av_bindings : list GuestIdentityBinding;
  av_tokens : list APITokenInfo
}.

Definition listing {B} (query : time -> tx DB B) : ctl B := reply_on (store_ (OpRead query)) 500 "internal_error".

Definition writeAccessControl (userID : string) : ctl access_view :=
  users ← listing (fun _ => Users);
  agents ← listing (fun _ => AgentPrincipals);
  desktops ← listing (fun _ => ManagedDesktops);
  assignments ← listing (fun _ => DesktopAssignments);
  leases ← listing ActiveDesktopLeases;
  groups ← listing (fun _ => IdentityGroups);
  memberships ← listing (fun _ => IdentityGroupMemberships);
  profiles ← listing (fun _ => IdentityProfiles);
  bindings ← listing (fun _ => GuestIdentityBindings);
  tokens ← listing (fun _ => APITokens userID);
  mret (MkAccessView users agents desktops assignments leases groups memberships profiles bindings tokens).

Definition accessControl (session : Session) : ctl access_view :=
  censure (is_admin session) permission_denied;;
  writeAccessControl (actor session).

Definition jobs (q : web_request) (session : Session) : ctl (list JobInfo) :=
  censure (is_admin session) permission_denied;;
  limit ← (if query_value q "limit" == "" then mret 50 else
             n ← csome (Atoi (query_value q "limit")) (EReply 400 "invalid_limit");
             censure (negb ((n <? 1) || (100 <? n))) (EReply 400 "invalid_limit");; mret n);
  listing (fun _ => Jobs limit).

Definition role_text (r : role) : string := match r with PlatformAdmin => "platform_admin" | RegularUser => "user" end.

Definition auditEvents (q : web_request) (session : Session) : ctl AuditEventPage :=
  (if is_admin session then mret tt else
     auditRequest (wq_from q) (actor session) "audit.read_denied" "audit_log" "" [("role", text (role_text (UserRole (SessionUser session))))];;
     cfail permission_denied);;
  let outcome := TrimSpace (query_value q "outcome") in
  let search := TrimSpace (query_value q "q") in
  censure (negb ((128 <? slen search) || ((outcome != "") && (outcome != "success") && (outcome != "failure")))) (EReply 400 "invalid_audit_filter");;
  limit ← (if query_value q "limit" == "" then mret 30 else
             n ← csome (Atoi (query_value q "limit")) (EReply 400 "invalid_limit");
             censure (negb ((n <? 1) || (100 <? n))) (EReply 400 "invalid_limit");; mret n);
  before ← (if query_value q "cursor" == "" then mret 0 else
              n ← csome (Atoi (query_value q "cursor")) (EReply 400 "invalid_cursor");
              censure (0 <? n) (EReply 400 "invalid_cursor");; mret n);
  listing (fun _ => AuditEvents (MkAuditEventQuery limit before outcome search)).

(** What a person sees of the infrastructure; a request that was cancelled has
    no reply. *)
Definition infrastructure (session : Session) : ctl Summary :=
  censure has_pve (EReply 503 "pve_not_configured");;
  r ← ctry desktopInventory;
  summary ← (match r with
             | inr summary => mret summary
             | inl (EPve (MkFailure (Some Canceled) _)) => cfail (EContextEnded Canceled)
             | inl _ => cfail (EReply 502 "pve_unavailable")
             end);
  if is_admin session then mret summary else
  vmids ← reply_on (store_ (OpUserAssigned (actor session))) 500 "internal_error";
  mret (MkSummary [] (filterDesktopsByVMID (sm_vms summary) vmids) [] false).

(** ** The inventory *)
Definition inventory_desktop (m : VM) (osFamily : string) : DesktopInfo :=
  MkDesktopInfo (vm_id m) (vm_name m) (vm_node m) osFamily true true Personal "" "" IdPending "" "" 0 0 0 0.

Fixpoint read_inventory (machines : list VM) : ctl (list DesktopInfo) :=
  match machines with
  | [] => mret []
  | m :: rest =>
      if vm_managed m then
        c ← ctry (pve_ (PConfiguration (vm_node m) (vm_id m)));
        let os := match c with inr c => desktopOSFamily (vc_os_type c) | inl _ => "unknown" end in
        desktops ← read_inventory rest;
        mret (inventory_desktop m os :: desktops)
      else read_inventory rest
  end.

Definition reconcileAccessControl (q : web_request) (session : Session) : ctl access_view :=
  requireAdminMutation q session;;
  censure has_pve (EReply 503 "pve_not_configured");;
  summary ← reply_on desktopInventory 502 "pve_unavailable";
  desktops ← read_inventory (sm_vms summary);
  reply_on (store_ (OpReconcileDesktops desktops)) 500 "internal_error";;
  auditRequest (wq_from q) (actor session) "desktop_registry.reconciled" "desktop_registry" "pve" [("desktop_count", number (Z.of_nat (length desktops)))];;
  writeAccessControl (actor session).

(** ** Users *)
Definition user_fields : list string := ["username"; "display_name"; "password"].
Definition read_user (l : list (string * json)) : option (string * string * string) :=
  username ← text_field user_fields l "username"; name ← text_field user_fields l "display_name"; password ← text_field user_fields l "password";
  Some (username, name, password).

Definition createLocalUser `{Argon2} (q : web_request) (session : Session) : ctl UserAccount :=
  requireAdminMutation q session;;
  body ← csome (decodeJSON user_fields read_user ("", "", "") q) bad_request;
  let '(username, display, password) := body in
  let username := TrimSpace username in
  let display := TrimSpace display in
  censure (usernamePattern username) (EReply 422 "invalid_username");;
  censure (negb ((slen password <? 12) || (128 <? slen password))) (EReply 422 "invalid_password");;
  let display := if display == "" then username else display in
  hash ← hash_password password;
  id ← reply_on (crandom 18) 500 "internal_error";
  user ← replies (store_ (OpCreateLocalUser (MkUserInfo (OpaqueToken id) username display hash RegularUser false 0))) None (Some (409, "username_exists"));
  auditRequest (wq_from q) (actor session) "user.created" "user" (AccountID user)
    [("username", text (AccountUsername user)); ("identity_kind", text (IdentityKind user))];;
  mret user.

(** One required member that is a boolean. *)
Definition flag_body (name : string) (q : web_request) : option bool :=
  match decodeJSON [name] (fun l => bool_field [name] l name) None q with Some (Some b) => Some b | _ => None end.

Definition updateUser (q : web_request) (session : Session) : ctl UserAccount :=
  requireAdminMutation q session;;
  disabled ← csome (flag_body "disabled" q) bad_request;
  let userID := TrimSpace (path_value q "id") in
  censure (negb ((userID == actor session) && disabled)) (EReply 409 "cannot_disable_self");;
  user ← replies (store_ (OpSetUserDisabled userID disabled)) (Some (404, "user_not_found")) None;
  auditRequest (wq_from q) (actor session) "user.updated" "user" (AccountID user) [("disabled", JBool (AccountDisabled user))];;
  mret user.

Definition resetUserPassword `{Argon2} (q : web_request) (session : Session) : ctl unit :=
  requireWebAdminMutation q session;;
  let userID := TrimSpace (path_value q "id") in
  censure (userID != actor session) (EReply 409 "use_self_service_password_change");;
  new ← csome (decodeJSON ["new_password"] (fun l => text_field ["new_password"] l "new_password") "" q) bad_request;
  censure (validateNewPassword new) (EReply 422 "invalid_password");;
  hash ← hash_password new;
  user ← replies (store_ (OpSetPassword userID hash "")) (Some (404, "user_not_found")) (Some (409, "password_managed_externally"));
  auditRequest (wq_from q) (actor session) "user.password_reset" "user" (AccountID user)
    [("username", text (AccountUsername user)); ("sessions_revoked", JBool true)].

(** ** Agents *)
Definition newAgentAccessToken : ctl string :=
  token ← reply_on (crandom 32) 500 "internal_error";
  mret ("vcwa_" +:+ OpaqueToken token).

Definition agent_fields : list string := ["id"; "display_name"].
Definition read_agent (l : list (string * json)) : option (string * string) :=
  id ← text_field agent_fields l "id"; name ← text_field agent_fields l "display_name"; Some (id, name).

Definition display_ok (name : string) : bool := negb ((name == "") || (128 <? rune_count name)).

Definition createAgentPrincipal (q : web_request) (session : Session) : ctl (AgentPrincipal * string) :=
  requireAdminMutation q session;;
  body ← csome (decodeJSON agent_fields read_agent ("", "") q) bad_request;
  let id := TrimSpace (fst body) in
  let name := TrimSpace (snd body) in
  censure (agentIDPattern id) (EReply 422 "invalid_agent_id");;
  censure (display_ok name) (EReply 422 "invalid_display_name");;
  token ← newAgentAccessToken;
  agent ← replies (store_ (OpCreateAgent id name (actor session) (TokenDigest token))) None (Some (409, "agent_exists"));
  auditRequest (wq_from q) (actor session) "agent.created" "agent" (ap_id agent) [("display_name", text (ap_display_name agent))];;
  mret (agent, token).

Definition updateAgentPrincipal (q : web_request) (session : Session) : ctl AgentPrincipal :=
  requireAdminMutation q session;;
  enabled ← csome (flag_body "enabled" q) bad_request;
  agent ← replies (store_ (OpSetAgentEnabled (path_value q "id") enabled)) (Some (404, "agent_not_found")) None;
  auditRequest (wq_from q) (actor session) "agent.updated" "agent" (ap_id agent) [("enabled", JBool (ap_enabled agent))];;
  mret agent.

Definition rotateAgentToken (q : web_request) (session : Session) : ctl (AgentPrincipal * string) :=
  requireAdminMutation q session;;
  token ← newAgentAccessToken;
  agent ← replies (store_ (OpRotateAgent (path_value q "id") (TokenDigest token))) (Some (404, "agent_not_found")) None;
  auditRequest (wq_from q) (actor session) "agent.token_rotated" "agent" (ap_id agent) [];;
  mret (agent, token).

(** ** Assignments *)
Definition subject_ok (kind : string) : bool := (kind == "user") || (kind == "agent") || (kind == "group").

Definition changeDesktopAssignment (q : web_request) (session : Session) (assign : bool) : ctl (option DesktopAssignment) :=
  requireAdminMutation q session;;
  let kind := path_value q "subject_type" in
  let subject := TrimSpace (path_value q "subject_id") in
  vmid ← csome (Atoi (path_value q "vmid")) (EReply 400 "invalid_assignment");
  censure (subject_ok kind && (subject != "") && (0 <? vmid)) (EReply 400 "invalid_assignment");;
  let assignment := MkDesktopAssignment kind subject vmid (actor session) 0 in
  if assign then
    created ← replies (store_ (OpPutAssignment assignment)) (Some (404, "assignment_target_not_found")) (Some (409, "desktop_assignment_conflict"));
    (if created : bool then
       auditRequest (wq_from q) (actor session) "desktop_assignment.created" kind subject [("desktop_vmid", number vmid)] else mret tt);;
    mret (Some assignment)
  else
    deleted ← reply_on (store_ (OpDeleteAssignment kind subject vmid)) 500 "internal_error";
    censure deleted (EReply 404 "assignment_not_found");;
    auditRequest (wq_from q) (actor session) "desktop_assignment.deleted" kind subject [("desktop_vmid", number vmid)];;
    mret None.

Definition putDesktopAssignment (q : web_request) (session : Session) := changeDesktopAssignment q session true.
Definition deleteDesktopAssignment (q : web_request) (session : Session) := changeDesktopAssignment q session false.

(** ** Groups *)
Record identityGroupRequest : Set := MkGroupRequest { gr_id : string; gr_display_name : string; gr_source : string; gr_enabled : option bool }.
Definition group_fields : list string := ["id"; "display_name"; "source"; "enabled"].
Definition read_group (l : list (string * json)) : option identityGroupRequest :=
  id ← text_field group_fields l "id"; name ← text_field group_fields l "display_name"; source ← text_field group_fields l "source";
  enabled ← bool_field group_fields l "enabled"; Some (MkGroupRequest id name source enabled).

Definition createIdentityGroup (q : web_request) (session : Session) : ctl IdentityGroup :=
  requireAdminMutation q session;;
  body ← csome (decodeJSON group_fields read_group (MkGroupRequest "" "" "" None) q) (EReply 400 "invalid_identity_group");
  let id := TrimSpace (gr_id body) in
  let name := TrimSpace (gr_display_name body) in
  let source := TrimSpace (gr_source body) in
  censure (agentIDPattern id && display_ok name && ((source == "local") || (source == "scim"))) (EReply 422 "invalid_identity_group");;
  group ← replies (store_ (OpPutGroup id name source (default true (gr_enabled body)) (actor session))) None (Some (409, "identity_group_exists"));
  auditRequest (wq_from q) (actor session) "identity_group.created" "identity_group" (g_id group) [("source", text (g_source group))];;
  mret group.

Definition updateIdentityGroup (q : web_request) (session : Session) : ctl (IdentityGroup * nat) :=
  requireAdminMutation q session;;
  enabled ← csome (flag_body "enabled" q) (EReply 400 "invalid_identity_group");
  group ← replies (store_ (OpSetGroupEnabled (TrimSpace (path_value q "id")) enabled)) (Some (404, "identity_group_not_found")) None;
  auditRequest (wq_from q) (actor session) "identity_group.updated" "identity_group" (g_id (fst group)) [("enabled", JBool (g_enabled (fst group)))];;
  mret group.

Definition putIdentityGroupMembership (q : web_request) (session : Session) : ctl GroupMembership :=
  requireAdminMutation q session;;
  let groupID := TrimSpace (path_value q "id") in
  let userID := TrimSpace (path_value q "user_id") in
  censure (negb ((groupID == "") || (userID == ""))) (EReply 400 "invalid_group_membership");;
  membership ← replies (store_ (OpPutMembership groupID userID "local")) (Some (404, "group_membership_target_not_found"))
                 (Some (409, "oidc_group_membership_managed"));
  auditRequest (wq_from q) (actor session) "identity_group.member_added" "identity_group" groupID [("user_id", text userID)];;
  mret membership.

Definition deleteIdentityGroupMembership (q : web_request) (session : Session) : ctl unit :=
  requireAdminMutation q session;;
  let groupID := TrimSpace (path_value q "id") in
  let userID := TrimSpace (path_value q "user_id") in
  deleted ← reply_on (store_ (OpDeleteMembership groupID userID)) 500 "internal_error";
  censure deleted (EReply 404 "group_membership_not_found");;
  auditRequest (wq_from q) (actor session) "identity_group.member_removed" "identity_group" groupID [("user_id", text userID)].

(** ** Access policies *)
Definition known_machine (vmid : Z) : ctl VM :=
  r ← ctry (managedVirtualMachine vmid);
  match r with
  | inr m => mret m
  | inl (EStore ErrNotFound) => cfail (EReply 404 "managed_vm_not_found")
  | inl _ => cfail (EReply 502 "pve_unavailable")
  end.

Definition desktop_vmid (q : web_request) : ctl Z :=
  vmid ← csome (Atoi (path_value q "vmid")) (EReply 400 "invalid_desktop");
  censure (0 <? vmid) (EReply 400 "invalid_desktop");;
  mret vmid.

Definition with_os (p : AccessPolicy) (osFamily : string) : AccessPolicy :=
  MkAccessPolicy (PolicyVMID p) (PrivilegeMode p) (ClipboardRedirection p) (DriveRedirection p) (ManagedBackground p) (DesiredRevision p)
    (AppliedRevision p) (PolicyState p) osFamily (PolicyLastError p) (PolicyUpdatedAt p).

Definition desktopAccessPolicy (q : web_request) (session : Session) : ctl AccessPolicy :=
  censure (is_admin session) permission_denied;;
  vmid ← desktop_vmid q;
  m ← known_machine vmid;
  policy ← reply_on (store_ (OpEnsurePolicy vmid)) 500 "internal_error";
  if PolicyOSFamily policy == "unknown" then
    c ← ctry (pve_ (PConfiguration (vm_node m) (vm_id m)));
    mret (match c with inr c => with_os policy (desktopOSFamily (vc_os_type c)) | inl _ => policy end)
  else mret policy.

Record desktopAccessPolicyRequest : Set := MkPolicyRequest {
  pr_privilege_mode : string;
  pr_clipboard : option bool;
  pr_drive : option bool;
  pr_background : option bool
}.
Definition policy_fields : list string := ["privilege_mode"; "clipboard_redirection"; "drive_redirection"; "managed_background"].
Definition read_policy (l : list (string * json)) : option desktopAccessPolicyRequest :=
  mode ← text_field policy_fields l "privilege_mode"; clipboard ← bool_field policy_fields l "clipboard_redirection";
  drive ← bool_field policy_fields l "drive_redirection"; background ← bool_field policy_fields l "managed_background";
  Some (MkPolicyRequest mode clipboard drive background).

Definition policy_body (q : web_request) : option desktopAccessPolicyRequest :=
  body ← decodeJSON policy_fields read_policy (MkPolicyRequest "" None None None) q;
  if (pr_privilege_mode body == "standard") || (pr_privilege_mode body == "local_admin") then Some body else None.

(** The policy is kept whether or not the Guest takes it. *)
Definition apply_updated (background : bytes) (q : web_request) (session : Session) (m : VM) (mode : string) (policy : AccessPolicy) : ctl AccessPolicy :=
  let vmid := vm_id m in
  let audit event detail := auditRequest (wq_from q) (actor session) event "virtual_machine" (itoa vmid)
    (("vmid", number vmid) :: ("privilege_mode", text mode) :: detail) in
  r ← ctry (applyDesktopAccessPolicy background m policy);
  match r with
  | inr applied =>
      audit "desktop.access_policy_applied"
        [("applied_revision", number (AppliedRevision applied)); ("policy_hash", text (sp_hash (nativeSessionPolicySnapshot applied)))];;
      mret applied
  | inl e =>
      audit "desktop.access_policy_apply_failed" [("error", text (error_text e))];;
      failed ← ctry (store_ (OpPolicyFailed vmid (DesiredRevision policy) (PolicyOSFamily policy) "Guest Agent could not apply the policy"));
      mret (match failed with inr p => p | inl _ => policy end)
  end.

Definition updateDesktopAccessPolicy (background : bytes) (q : web_request) (session : Session) : ctl AccessPolicy :=
  admin_request session (wq_csrf q) (
  vmid ← desktop_vmid q;
  body ← csome (policy_body q) (EReply 400 "invalid_access_policy");
  m ← known_machine vmid;
  with_control_lock vmid "desktop_busy" (
    current ← reply_on (store_ (OpEnsurePolicy vmid)) 500 "internal_error";
    let clipboard := default (ClipboardRedirection current) (pr_clipboard body) in
    let drive := default (DriveRedirection current) (pr_drive body) in
    let managed := default (ManagedBackground current) (pr_background body) in
    policy ← reply_on (store_ (OpPutPolicy vmid (pr_privilege_mode body) clipboard drive managed (actor session))) 500 "internal_error";
    auditRequest (wq_from q) (actor session) "desktop.access_policy_updated" "virtual_machine" (itoa vmid)
      [("vmid", number vmid); ("privilege_mode", text (pr_privilege_mode body)); ("clipboard_redirection", JBool clipboard);
       ("drive_redirection", JBool drive); ("managed_background", JBool managed); ("desired_revision", number (DesiredRevision policy))];;
    if vm_status m == "running" then apply_updated background q session m (pr_privilege_mode body) policy else mret policy)).
End administration.
