(* ===== verification/ControllerIdentity.v ===== *)
(** * Guest identities ([internal/httpapi/server.go])

    Identity profiles: what the configuration of a profile may hold, and the
    command that makes the operating system of a desktop follow it.  Secrets
    that an administrator enters once travel on the standard input of the
    command.  [net/url] is a parameter, and so is the text in which
    encoding/json prints the [float64] of a number. *)
From stdpp Require Import base strings list.
From Stdlib Require Import ZArith Lia Ascii.
From S2P Require Import Prelude GoStrings Auth Net Db Json Demo Triggers StoreAccess StoreSession StoreConn StoreLease GatewayTransport Computer Guest GuestAccount ComputerWire GuestTransport StoreAudit StoreJobs StoreCatalog Pve Controller ControllerScripts PveClient ControllerNative ControllerAgent ControllerHttp ControllerConnect ControllerRecovery ControllerClone ControllerLogin ControllerAdmin.

Local Open Scope string_scope.
Local Open Scope list_scope.
Local Open Scope Z_scope.

(** ** Names *)
Definition one_of (chars : list ascii) (c : ascii) : bool := bool_decide (c ∈ chars).
Definition directoryNamePattern : string -> bool :=
  begins_with alphanumeric (fun c => alphanumeric c || one_of ["."; "-"]%char c) 252.
Definition principal_char (c : ascii) : bool := alphanumeric c || one_of ["."; "_"; "@"; "\"; "-"]%char c.
Definition directoryPrincipalPattern : string -> bool := begins_with alphanumeric principal_char 127.

(** ^[A-Za-z0-9](?:[A-Za-z0-9 ._@\,-]{0,510}[A-Za-z0-9])?$ *)
Definition group_char (c : ascii) : bool := principal_char c || one_of [" "; ","]%char c.
Definition ends_alphanumeric (s : string) : bool := match str_rev s with String c _ => alphanumeric c | EmptyString => false end.
Definition directoryGroupListPattern (s : string) : bool :=
  match s with
  | String c rest => alphanumeric c && ((rest == "") || (str_forall group_char rest && ends_alphanumeric rest && (slen rest <=? 511)))
  | EmptyString => false
  end.

Definition tenantIDPattern (s : string) : bool :=
  match split "-" s with
  | [a; b; c; d; e] =>
      match_class "" is_hex 8 8 a && match_class "" is_hex 4 4 b && match_class "" is_hex 4 4 c && match_class "" is_hex 4 4 d &&
      match_class "" is_hex 12 12 e
  | _ => false
  end.

(** [strings.ToUpper] of a name that matched. *)
Definition upper_char (c : ascii) : ascii := if is_lower c then chr (ord c - 32) else c.
Definition upper_text : string -> string := str_map upper_char.

(** ** Configurations *)

(** A member of the configuration, as a Go map keeps it. *)
Definition config_value (config : list (string * json)) (key : string) : string :=
  match map_find key config with Some (JStr s) => TrimSpace s | _ => "" end.

Section identity.
Context `{Sha256} `{UnicodeLower} `{UrlParser}.

Definition directory_url (raw : string) : bool :=
  match url_parse raw with Some u => ((Scheme u == "ldap") || (Scheme u == "ldaps")) && (Host u != "") | None => false end.
Definition https_url (raw : string) : bool :=
  match url_parse raw with Some u => (Scheme u == "https") && (Host u != "") | None => false end.

(** ** The command that applies a profile *)
Record guestIdentityReconcilePlan : Set := MkPlan {
  pl_command : list string;
  pl_input : bytes;
  pl_restart_required : bool;
  pl_restart_marker : string
}.
Record desktopIdentityReconcileRequest : Set := MkReconcileRequest { rr_join_username : string; rr_join_password : string; rr_client_secret : string }.

Definition shell_plan (script : string) (input : bytes) : guestIdentityReconcilePlan := MkPlan (sh_command script) input false "".

Definition linuxInstall (contents before : string) : string :=
    "set -eu
" +:+ before +:+
    "
printf '%s' '" +:+ b64_padded contents +:+
    "' | base64 -d >/etc/sssd/sssd.conf
chmod 0600 /etc/sssd/sssd.conf
chown root:root /etc/sssd/sssd.conf
DEBIAN_FRONTEND=noninteractive pam-auth-update --package --enable mkhomedir >/dev/null
systemctl enable sssd oddjobd
systemctl restart sssd
systemctl start oddjobd
sssctl config-check".

Definition sssd_ad (domain realm allowed : string) : string :=
    "[sssd]
services = nss, pam
domains = " +:+
    domain +:+
    "

[domain/" +:+
    domain +:+
    "]
id_provider = ad
auth_provider = ad
access_provider = simple
simple_allow_groups = " +:+
    allowed +:+
    "
cache_credentials = true
default_shell = /bin/bash
fallback_homedir = /home/%d/%u
use_fully_qualified_names = true
ad_domain = " +:+
    domain +:+
    "
krb5_realm = " +:+
    upper_text realm +:+
    "
".
Definition join_ad (domain username : string) : string :=
    "test -f /usr/share/vc-workspace/identity-capabilities.json; password=$(cat); if ! realm list --name-only | grep -Fxiq '" +:+
    domain +:+
    (dq "'; then printf '%s\n' `$password` | realm join --user='") +:+
    username +:+
    "' '" +:+
    domain +:+
    "'; fi".

Definition join_ipa (domain realm server username : string) : string :=
    (dq "set -eu
test -f /usr/share/vc-workspace/identity-capabilities.json
password=$(cat)
if [ ! -f /etc/ipa/default.conf ]; then
  printf '%s\n' `$password` | kinit '") +:+
    username +:+
    "'
  ipa-client-install --unattended --mkhomedir --no-ntp --domain='" +:+
    domain +:+
    "' --realm='" +:+
    upper_text realm +:+
    "' --server='" +:+
    server +:+
    "' --principal='" +:+
    username +:+
    "'
  kdestroy
fi
systemctl enable sssd oddjobd
systemctl restart sssd
systemctl start oddjobd
sssctl config-check".

Definition sssd_ldap (domain uri searchBase accessFilter startTLS : string) : string :=
    "[sssd]
services = nss, pam
domains = " +:+
    domain +:+
    "

[domain/" +:+
    domain +:+
    "]
id_provider = ldap
auth_provider = ldap
access_provider = ldap
ldap_uri = " +:+
    uri +:+
    "
ldap_search_base = " +:+
    searchBase +:+
    "
ldap_access_filter = " +:+
    accessFilter +:+
    "
ldap_id_use_start_tls = " +:+
    startTLS +:+
    "
ldap_tls_cacert = /etc/ssl/certs/ca-certificates.crt
cache_credentials = true
default_shell = /bin/bash
fallback_homedir = /home/%d/%u
".

Definition sssd_oidc (domain idpType clientID secret tokenEndpoint userinfoEndpoint deviceEndpoint idScope : string) : string :=
    "[sssd]
services = nss, pam
domains = " +:+
    domain +:+
    "

[domain/" +:+
    domain +:+
    "]
id_provider = idp
auth_provider = idp
idp_type = " +:+
    idpType +:+
    "
idp_client_id = " +:+
    clientID +:+
    "
idp_client_secret = " +:+
    secret +:+
    "
idp_token_endpoint = " +:+
    tokenEndpoint +:+
    "
idp_userinfo_endpoint = " +:+
    userinfoEndpoint +:+
    "
idp_device_auth_endpoint = " +:+
    deviceEndpoint +:+
    "
idp_id_scope = " +:+
    idScope +:+
    "
idp_auth_scope = openid profile email
default_shell = /bin/bash
fallback_homedir = /home/%f
".
Definition install_oidc : string :=
    "set -eu
test -f /usr/share/vc-workspace/identity-capabilities.json
test -x /usr/libexec/sssd/oidc_child -o -x /usr/lib/sssd/oidc_child
cat >/etc/sssd/sssd.conf
chmod 0600 /etc/sssd/sssd.conf
chown root:root /etc/sssd/sssd.conf
pam-auth-update --package --enable mkhomedir >/dev/null
systemctl enable sssd oddjobd
systemctl restart sssd
systemctl start oddjobd
sssctl config-check".

Definition restartMarkerText : string := "VC_WORKSPACE_RESTART_REQUIRED".
Definition join_windows (domain allowedGroup username : string) : string :=
    "$ErrorActionPreference='Stop'; if (-not (Test-Path 'C:\ProgramData\VC Workspace\identity-capabilities.json')) { throw 'identity capabilities are missing' }; $computer=Get-CimInstance Win32_ComputerSystem; if (-not $computer.PartOfDomain) { $secret=[Console]::In.ReadToEnd().TrimEnd(); $secure=ConvertTo-SecureString $secret -AsPlainText -Force; $credential=[PSCredential]::new('" +:+
    username +:+
    "',$secure); Add-Computer -DomainName '" +:+
    domain +:+
    "' -Credential $credential -Force; Write-Output '" +:+
    restartMarkerText +:+
    "'; exit 0 }; if ($computer.Domain -ine '" +:+
    domain +:+
    "') { throw 'desktop is joined to a different domain' }; $rdp=(Get-LocalGroup -SID 'S-1-5-32-555').Name; Add-LocalGroupMember -Group $rdp -Member '" +:+
    allowedGroup +:+
    "' -ErrorAction SilentlyContinue".
Definition join_entra (tenantID hostname principal : string) : string :=
    "$ErrorActionPreference='Stop'; if (-not (Test-Path 'C:\ProgramData\VC Workspace\identity-capabilities.json')) { throw 'identity capabilities are missing' }; $status=(& dsregcmd.exe /status | Out-String); if ($status -notmatch 'AzureAdJoined\s*:\s*YES') { throw 'device is not Microsoft Entra joined' }; if ($status -notmatch '(?im)^\s*TenantId\s*:\s*" +:+
    tenantID +:+
    "\s*$') { throw 'device tenant does not match the identity profile' }; if ($env:COMPUTERNAME -ine '" +:+
    hostname +:+
    "') { throw 'desktop hostname does not match the Entra RDP target' }; $rdp=(Get-LocalGroup -SID 'S-1-5-32-555').Name; Add-LocalGroupMember -Group $rdp -Member 'AzureAD\" +:+
    principal +:+
    "' -ErrorAction SilentlyContinue".

Definition local_linux : string :=
    "set -eu; test -f /usr/share/vc-workspace/identity-capabilities.json; command -v useradd >/dev/null; command -v xrdp >/dev/null".
Definition local_windows : string :=
    "$ErrorActionPreference='Stop'; if (-not (Test-Path 'C:\ProgramData\VC Workspace\identity-capabilities.json')) { throw 'identity capabilities are missing' }; Get-Service TermService | Out-Null".

Definition supported_idp (idpType : string) : bool := (idpType == "entra_id") || has_prefix "keycloak:" idpType.

(** [None]: the requirements of the mode are not met. *)
Definition buildGuestIdentityReconcilePlan (profile : IdentityProfile) (request : desktopIdentityReconcileRequest) : option guestIdentityReconcilePlan :=
  config ← store_raw_map [] (p_config profile);
  let value := config_value config in
  let username := rr_join_username request in
  let password := rr_join_password request in
  let joins := directoryPrincipalPattern username && (password != "") in
  let mode := p_mode profile in
  if mode == "managed_local" then
    Some (if p_platform profile == "linux" then shell_plan local_linux "" else MkPlan (powershell_plain local_windows) "" false "")
  else if mode == "linux_sssd_ad" then
    let domain := value "domain" in let realm := value "realm" in let allowed := value "allowed_groups" in
    if directoryNamePattern domain && directoryNamePattern realm && joins && directoryGroupListPattern allowed
    then Some (shell_plan (linuxInstall (sssd_ad domain realm allowed) (join_ad domain username)) password) else None
  else if mode == "linux_sssd_freeipa" then
    let domain := value "domain" in let server := value "server" in let realm := value "realm" in
    if directoryNamePattern domain && directoryNamePattern server && directoryNamePattern realm && joins
    then Some (shell_plan (join_ipa domain realm server username) password) else None
  else if mode == "linux_sssd_ldap" then
    let domain := value "domain" in let uri := value "uri" in let base := value "search_base" in let filter := value "access_filter" in
    if directoryNamePattern domain && directory_url uri && (base != "") && (filter != "")
    then
      let startTLS := match url_parse uri with Some u => if Scheme u == "ldap" then "true" else "false" | None => "false" end in
      Some (shell_plan (linuxInstall (sssd_ldap domain uri base filter startTLS) "test -f /usr/share/vc-workspace/identity-capabilities.json") "")
    else None
  else if mode == "linux_sssd_oidc" then
    let domain := value "domain" in let idpType := value "idp_type" in let clientID := value "client_id" in
    let tokenEndpoint := value "token_endpoint" in let userinfo := value "userinfo_endpoint" in let device := value "device_auth_endpoint" in
    if directoryNamePattern domain && supported_idp idpType && (clientID != "") && (rr_client_secret request != "") &&
       https_url tokenEndpoint && https_url userinfo && https_url device
    then Some (shell_plan install_oidc (sssd_oidc domain idpType clientID (rr_client_secret request) tokenEndpoint userinfo device (value "id_scope")))
    else None
  else if mode == "windows_ad" then
    let domain := value "domain" in let group := value "allowed_group" in
    if (value "join_method" == "online") && directoryNamePattern domain && joins && (group != "") && negb (contains_any group (byte_string [13; 10; 39; 59]))
    then Some (MkPlan (powershell_command (join_windows domain group username)) password false restartMarkerText) else None
  else if mode == "windows_entra" then
    let principal := value "allowed_principal" in let hostname := value "target_hostname" in let tenantID := value "tenant_id" in
    if directoryPrincipalPattern principal && directoryNamePattern hostname && tenantIDPattern tenantID
    then Some (MkPlan (powershell_command (join_entra tenantID hostname principal)) "" false "") else None
  else None.

(** ** What a configuration may hold *)
Fixpoint containsMultilineConfigValue (v : json) : bool :=
  match v with
  | JStr s => contains_any s (byte_string [13; 10])
  | JArr l => existsb containsMultilineConfigValue l
  | JObj l => existsb (fun e => containsMultilineConfigValue (snd e)) l
  | _ => false
  end.

Definition secret_name (key : string) : bool :=
  let normalized := ToLower (TrimSpace key) in
  (normalized != "credential_reference") && (normalized != "offline_join_blob_reference") &&
  (contains "password" normalized || contains "secret" normalized || contains "token" normalized || contains "private_key" normalized).
Fixpoint containsInlineSecret (v : json) : bool :=
  match v with
  | JObj l => existsb (fun e => secret_name (fst e) || containsInlineSecret (snd e)) l
  | JArr l => existsb containsInlineSecret l
  | _ => false
  end.

Definition mode_platform (mode : string) : option string :=
  if mode == "managed_local" then Some ""
  else if (mode == "linux_sssd_ad") || (mode == "linux_sssd_freeipa") || (mode == "linux_sssd_ldap") || (mode == "linux_sssd_oidc") then Some "linux"
  else if (mode == "windows_ad") || (mode == "windows_entra") then Some "windows"
  else None.

Definition required_keys (mode : string) : list string :=
  if mode == "linux_sssd_ad" then ["domain"; "realm"; "allowed_groups"]
  else if mode == "linux_sssd_freeipa" then ["domain"; "server"; "realm"]
  else if mode == "linux_sssd_ldap" then ["domain"; "uri"; "search_base"; "access_filter"]
  else if mode == "linux_sssd_oidc" then ["domain"; "idp_type"; "client_id"; "token_endpoint"; "userinfo_endpoint"; "device_auth_endpoint"; "id_scope"]
  else if mode == "windows_ad" then ["domain"; "join_method"; "allowed_group"]
  else if mode == "windows_entra" then ["tenant_id"; "target_hostname"; "allowed_principal"]
  else [].

(** The checks of the mode's own fields. *)
Definition mode_values (mode : string) (value : string -> string) : bool :=
  if mode == "linux_sssd_ad" then
    directoryNamePattern (value "domain") && directoryNamePattern (value "realm") && directoryGroupListPattern (value "allowed_groups")
  else if mode == "linux_sssd_freeipa" then
    directoryNamePattern (value "domain") && directoryNamePattern (value "server") && directoryNamePattern (value "realm")
  else if mode == "linux_sssd_ldap" then directoryNamePattern (value "domain") && directory_url (value "uri")
  else if mode == "linux_sssd_oidc" then
    directoryNamePattern (value "domain") && supported_idp (value "idp_type") &&
    forallb (fun key => https_url (value key)) ["token_endpoint"; "userinfo_endpoint"; "device_auth_endpoint"]
  else if mode == "windows_ad" then
    (value "join_method" == "online") && directoryNamePattern (value "domain") && negb (contains_any (value "allowed_group") (byte_string [13; 10; 39; 59]))
  else if mode == "windows_entra" then
    tenantIDPattern (value "tenant_id") && directoryNamePattern (value "target_hostname") && directoryPrincipalPattern (value "allowed_principal")
  else true.

Definition validateIdentityProfileConfig (platform mode : string) (config : list (string * json)) : bool :=
  match mode_platform mode with
  | None => false
  | Some required => ((platform == "linux") || (platform == "windows")) && ((required == "") || (required == platform))
  end &&
  negb (containsInlineSecret (JObj config)) && negb (containsMultilineConfigValue (JObj config)) &&
  forallb (fun key => config_value config key != "") (required_keys mode) && mode_values mode (config_value config).

(** ** Profiles *)
Record identityProfileRequest : Set := MkProfileRequest {
  ir_display_name : string;
  ir_platform : string;
  ir_mode : string;
  ir_enabled : option bool;
  ir_experimental : bool;
  ir_config : option json      (* a [map[string]any] *)
}.
Definition profile_fields : list string := ["display_name"; "platform"; "mode"; "enabled"; "experimental"; "config"].

(** [map[string]any]: an object or null.  A value of Go's [any] keeps the last
    of each name and its numbers as [float64]. *)
Context (float_text : string -> option string).

Fixpoint as_any (v : json) : option json :=
  match v with
  | JNum t => t ← float_text t; Some (JNum t)
  | JArr l =>
      l ← (fix elements (l : list json) : option (list json) :=
             match l with [] => Some [] | v :: l' => v ← as_any v; rest ← elements l'; Some (v :: rest) end) l;
      Some (JArr l)
  | JObj l =>
      l ← (fix members (l : list (string * json)) : option (list (string * json)) :=
             match l with [] => Some [] | (k, v) :: l' => v ← as_any v; rest ← members l'; Some ((k, v) :: rest) end) l;
      Some (canonical (JObj l))
  | _ => Some v
  end.
Definition store_any_map (old : option json) (v : json) : option (option json) :=
  match v with
  | JObj l => m ← as_any (match old with Some (JObj l0) => JObj (l0 ++ l) | _ => v end); Some (Some m)
  | JNull => Some None
  | _ => None
  end.

Definition read_profile (l : list (string * json)) : option identityProfileRequest :=
  let str f := text_field profile_fields l f in
  name ← str "display_name"; platform ← str "platform"; mode ← str "mode"; enabled ← bool_field profile_fields l "enabled";
  experimental ← field profile_fields store_bool false "experimental" l; config ← field profile_fields store_any_map None "config" l;
  Some (MkProfileRequest name platform mode enabled experimental config).

Definition experimental_mode (mode : string) : bool := (mode == "linux_sssd_oidc") || (mode == "windows_entra").
Definition config_members (config : option json) : list (string * json) := match config with Some (JObj l) => l | _ => [] end.

Definition putIdentityProfile (q : web_request) (session : Session) : ctl IdentityProfile :=
  requireAdminMutation q session;;
  let id := TrimSpace (path_value q "id") in
  censure (agentIDPattern id) (EReply 400 "invalid_identity_profile");;
  body ← csome (decodeJSON profile_fields read_profile (MkProfileRequest "" "" "" None false None) q) (EReply 400 "invalid_identity_profile");
  let name := TrimSpace (ir_display_name body) in
  let platform := TrimSpace (ir_platform body) in
  let mode := TrimSpace (ir_mode body) in
  censure (display_ok name) (EReply 422 "invalid_display_name");;
  censure (validateIdentityProfileConfig platform mode (config_members (ir_config body))) (EReply 422 "invalid_identity_profile");;
  censure (negb (experimental_mode mode) || ir_experimental body) (EReply 422 "experimental_acknowledgement_required");;
  existing ← ctry (store_ (OpIdentityProfile id));
  (match existing with
   | inr p => censure ((p_platform p == platform) && (p_mode p == mode)) (EReply 409 "identity_profile_shape_immutable")
   | inl (EStore ErrNotFound) => mret tt
   | inl _ => cfail internal_error
   end);;
  let row := MkIdentityProfile id platform mode (default true (ir_enabled body)) (experimental_mode mode) name JNull (nullif (actor session)) 0 in
  profile ← reply_on (store_ (OpPutIdentityProfile row (Some (default JNull (ir_config body))))) 500 "internal_error";
  auditRequest (wq_from q) (actor session) "identity_profile.updated" "identity_profile" (p_id profile)
    [("platform", text (p_platform profile)); ("mode", text (p_mode profile)); ("enabled", JBool (p_enabled profile));
     ("experimental", JBool (p_experimental profile))];;
  mret profile.

(** ** The identity of a desktop *)
Record managedDesktopIdentityRequest : Set := MkDesktopIdentityRequest { mi_access_mode : string; mi_owner_user_id : string; mi_profile_id : string }.
Definition desktop_identity_fields : list string := ["access_mode"; "owner_user_id"; "identity_profile_id"].
Definition read_desktop_identity (l : list (string * json)) : option managedDesktopIdentityRequest :=
  mode ← text_field desktop_identity_fields l "access_mode"; owner ← text_field desktop_identity_fields l "owner_user_id";
  profile ← text_field desktop_identity_fields l "identity_profile_id"; Some (MkDesktopIdentityRequest mode owner profile).

Definition access_text (m : access_mode) : string := match m with Personal => "personal" | Shared => "shared" end.

(** The operating system of the desktop, from PVE when it is not known. *)
Definition profile_fits (has_pve : bool) (desktop : DesktopInfo) (vmid : Z) (profileID : string) : ctl unit :=
  if profileID == "" then mret tt else
  r ← ctry (store_ (OpIdentityProfile profileID));
  profile ← (match r with
             | inr p => if p_enabled p then mret p else cfail (EReply 409 "identity_profile_unavailable")
             | inl (EStore ErrNotFound) => cfail (EReply 404 "identity_profile_not_found")
             | inl _ => cfail (EReply 409 "identity_profile_unavailable")
             end);
  os ← (if (OSFamily desktop == "unknown") && has_pve && (Node desktop != "") then
          c ← ctry (pve_ (PConfiguration (Node desktop) vmid));
          mret (match c with inr c => desktopOSFamily (vc_os_type c) | inl _ => OSFamily desktop end)
        else mret (OSFamily desktop));
  censure (os != "unknown") (EReply 409 "desktop_os_unknown");;
  censure (os == p_platform profile) (EReply 409 "identity_profile_platform_mismatch").

Definition updateManagedDesktopIdentity (has_pve : bool) (q : web_request) (session : Session) : ctl DesktopInfo :=
  requireAdminMutation q session;;
  vmid ← csome (Atoi (path_value q "vmid")) (EReply 400 "invalid_desktop_identity");
  censure (0 <? vmid) (EReply 400 "invalid_desktop_identity");;
  body ← csome (decodeJSON desktop_identity_fields read_desktop_identity (MkDesktopIdentityRequest "" "" "") q) (EReply 400 "invalid_desktop_identity");
  let mode := TrimSpace (mi_access_mode body) in
  let owner := TrimSpace (mi_owner_user_id body) in
  let profileID := TrimSpace (mi_profile_id body) in
  censure ((mode == "personal") || (mode == "shared")) (EReply 422 "invalid_access_mode");;
  censure (negb ((mode == "personal") && (owner == ""))) (EReply 422 "desktop_owner_required");;
  desktop ← replies (store_ (OpDesktop vmid)) (Some (404, "desktop_identity_target_not_found")) None;
  profile_fits has_pve desktop vmid profileID;;
  desktop ← replies (store_ (OpUpdateDesktopIdentity vmid mode owner profileID)) (Some (404, "desktop_identity_target_not_found")) None;
  auditRequest (wq_from q) (actor session) "desktop.identity_updated" "virtual_machine" (itoa vmid)
    [("access_mode", text (access_text (AccessMode desktop))); ("owner_user_id", text (OwnerUserID desktop));
     ("identity_profile_id", text (IdentityProfileID desktop))];;
  mret desktop.

(** ** Applying the profile *)
Context (sssd_oidc_enabled windows_entra_enabled : bool).

Definition reconcile_fields : list string := ["join_username"; "join_password"; "client_secret"].
Definition read_reconcile (l : list (string * json)) : option desktopIdentityReconcileRequest :=
  username ← text_field reconcile_fields l "join_username"; password ← text_field reconcile_fields l "join_password";
  secret ← text_field reconcile_fields l "client_secret"; Some (MkReconcileRequest username password secret).

Definition ready_desktop (vmid : Z) : ctl DesktopInfo :=
  r ← ctry (store_ (OpDesktop vmid));
  match r with
  | inr d => censure (Present d && Enabled d && (Node d != "")) (EReply 409 "desktop_not_ready");; mret d
  | inl (EStore ErrNotFound) => cfail (EReply 404 "managed_vm_not_found")
  | inl _ => cfail (EReply 409 "desktop_not_ready")
  end.

Definition known_os (d : DesktopInfo) : ctl string :=
  os ← (if OSFamily d == "unknown" then
          c ← reply_on (pve_ (PConfiguration (Node d) (VMID d))) 502 "pve_unavailable"; mret (desktopOSFamily (vc_os_type c))
        else mret (OSFamily d));
  censure (os != "unknown") (EReply 409 "desktop_os_unknown");;
  mret os.

Definition applicable_profile (d : DesktopInfo) (os : string) : ctl IdentityProfile :=
  let profileID := if IdentityProfileID d == "" then "managed-local-" +:+ os else IdentityProfileID d in
  profile ← reply_on (store_ (OpIdentityProfile profileID)) 409 "identity_profile_unavailable";
  censure (p_enabled profile) (EReply 409 "identity_profile_unavailable");;
  censure (p_platform profile == os) (EReply 409 "identity_profile_platform_mismatch");;
  censure (negb ((p_mode profile == "linux_sssd_oidc") && negb sssd_oidc_enabled)) (EReply 409 "experimental_capability_disabled");;
  censure (negb ((p_mode profile == "windows_entra") && negb windows_entra_enabled)) (EReply 409 "experimental_capability_disabled");;
  mret profile.

(** What the Guest printed, when the command exited with zero. *)
Definition run_plan (d : DesktopInfo) (plan : guestIdentityReconcilePlan) : ctl string :=
  let m := machine_at (VMID d) (Node d) in
  answer ← (if 0 <? slen (pl_input plan) then guest_ m (GExecInput (pl_command plan) (pl_input plan)) else guest_ m (GExec (pl_command plan)));
  match answer with
  | inr result => censure (ExitCode result =? 0) EOther;; mret (Stdout result)
  | inl f => cfail (EPve f)
  end.

Definition reconcileManagedDesktopIdentity (has_pve : bool) (q : web_request) (session : Session) : ctl DesktopInfo :=
  requireAdminMutation q session;;
  censure has_pve (EReply 503 "pve_not_configured");;
  vmid ← csome (Atoi (path_value q "vmid")) (EReply 400 "invalid_identity_reconciliation");
  censure (0 <? vmid) (EReply 400 "invalid_identity_reconciliation");;
  request ← csome (decodeJSON reconcile_fields read_reconcile (MkReconcileRequest "" "" "") q) (EReply 400 "invalid_identity_reconciliation");
  desktop ← ready_desktop vmid;
  os ← known_os desktop;
  profile ← applicable_profile desktop os;
  plan ← csome (buildGuestIdentityReconcilePlan profile request) (EReply 422 "identity_reconciliation_requirements_not_met");
  result ← ctry (run_plan desktop plan);
  let audit event detail := auditRequest (wq_from q) (actor session) event "virtual_machine" (itoa vmid)
    (("profile_id", text (p_id profile)) :: ("mode", text (p_mode profile)) :: detail) in
  match result with
  | inl _ =>
      cignore (store_ (OpIdentityFailed vmid "Guest Agent could not apply the identity profile"));;
      audit "desktop.identity_reconcile_failed" [];;
      cfail (EReply 409 "identity_reconciliation_failed")
  | inr output =>
      let restart := pl_restart_required plan || ((pl_restart_marker plan != "") && contains (pl_restart_marker plan) output) in
      desktop ← reply_on (store_ (if restart then OpIdentityRestart vmid (p_id profile) else OpIdentityApplied vmid (p_id profile))) 500 "internal_error";
      audit "desktop.identity_reconciled" [("restart_required", JBool restart)];;
      mret desktop
  end.
End identity.

(** ** What is accepted can be applied, without secrets in commands *)
Section plans.
Context `{UnicodeLower} `{UrlParser}.

(** (C27) The command line that a Guest runs for an identity profile is the same
    for every join password and every client secret: a secret reaches the Guest
    only as the input of the command, never in its arguments, where other
    processes could read it. *)
Theorem plan_commands_hide_secrets p r r' plan plan' (Hname : rr_join_username r = rr_join_username r')
    (Hplan : buildGuestIdentityReconcilePlan p r = Some plan) (Hplan' : buildGuestIdentityReconcilePlan p r' = Some plan') :
  pl_command plan = pl_command plan' /\ pl_restart_required plan = pl_restart_required plan' /\ pl_restart_marker plan = pl_restart_marker plan'.
Proof.
  unfold buildGuestIdentityReconcilePlan in *. destruct (store_raw_map [] (p_config p)) as [config |]; [| done]. cbn [mbind option_bind] in *.
  rewrite <- Hname in Hplan'.
  repeat match goal with
    | Hx : (if ?b then _ else _) = Some _ |- _ => destruct b; try discriminate Hx
    end; by simplify_eq.
Qed.

(** A request that brings the credentials of the mode. *)
Definition brings_credentials (mode : string) (r : desktopIdentityReconcileRequest) : bool :=
  if (mode == "linux_sssd_ad") || (mode == "linux_sssd_freeipa") || (mode == "windows_ad")
  then directoryPrincipalPattern (rr_join_username r) && (rr_join_password r != "")
  else if mode == "linux_sssd_oidc" then rr_client_secret r != "" else true.

Definition identity_modes : list string :=
  ["managed_local"; "linux_sssd_ad"; "linux_sssd_freeipa"; "linux_sssd_ldap"; "linux_sssd_oidc"; "windows_ad"; "windows_entra"].
Lemma known_mode mode platform : mode_platform mode = Some platform -> In mode identity_modes.
Proof.
  unfold mode_platform, identity_modes. cbn [In].
  repeat match goal with |- context [bool_decide (mode = ?m)] => destruct (bool_decide (mode = m)) eqn:?; [b2p; subst; tauto |] end. done.
Qed.

(** Compares the texts that are known. *)
Ltac decide_texts :=
  repeat match goal with
    | |- context [bool_decide (?a = ?b)] =>
        let v := eval vm_compute in (bool_decide (a = b)) in
        lazymatch v with true => idtac | false => idtac end; change (bool_decide (a = b)) with v
    end.
Ltac by_conditions := match goal with |- context [if ?b then _ else None] => assert (b = true) as -> | _ => idtac end.

(** Whatever configuration of an identity profile is accepted, there is a
    command that applies it once the request brings the credentials that its
    mode needs: a stored profile is never refused for its own configuration. *)
Theorem accepted_profiles_have_plans p r config (Hc : store_raw_map [] (p_config p) = Some config)
    (Hok : validateIdentityProfileConfig (p_platform p) (p_mode p) config = true) (Hr : brings_credentials (p_mode p) r = true) :
  exists plan, buildGuestIdentityReconcilePlan p r = Some plan.
Proof.
  unfold buildGuestIdentityReconcilePlan. rewrite Hc. cbn [mbind option_bind]. unfold validateIdentityProfileConfig in Hok. rewrite !andb_true_iff in Hok.
  destruct Hok as [[[[Hm _] _] Hk] Hv]. generalize dependent (config_value config). intros value Hk Hv. clear Hc.
  assert (In (p_mode p) identity_modes) as Hin by (destruct (mode_platform (p_mode p)) eqn:E; [by eapply known_mode | done]). clear Hm.
  unfold required_keys, mode_values, brings_credentials in *. revert Hk Hv Hr. generalize dependent (p_mode p). intros mode Hin.
  repeat (destruct Hin as [<- | Hin]); [.. | done]; decide_texts; cbn; rewrite ?andb_true_iff; intros Hk Hv Hr;
    by_conditions; first [by eexists | by rewrite !andb_true_iff; intuition].
Qed.

Lemma map_find_in {A} key (l : list (string * A)) v : map_find key l = Some v -> exists e, In e l /\ fst e = key.
Proof.
  unfold map_find. destruct (List.find _ _) as [e |] eqn:Ef; [| done]. apply find_some in Ef as [Hin He]. intros _.
  exists e. split; [by apply in_rev | by apply bool_decide_eq_true in He].
Qed.

(** (C28) No configuration of the mode [linux_sssd_oidc] is ever accepted: the
    mode requires the member "token_endpoint", and every member whose name has
    "token" in it is refused as an inline secret. *)
Theorem sssd_oidc_never_accepted platform config : validateIdentityProfileConfig platform "linux_sssd_oidc" config = false.
Proof.
  apply not_true_iff_false. unfold validateIdentityProfileConfig. rewrite !andb_true_iff. intros [[[[_ Hs] _] Hk] _].
  apply negb_true_iff in Hs. rewrite forallb_forall in Hk. specialize (Hk "token_endpoint" ltac:(vm_compute; tauto)).
  unfold config_value in Hk. destruct (map_find "token_endpoint" config) as [v |] eqn:Ev; [| done]. apply map_find_in in Ev as (e & Hin & He).
  cbn [containsInlineSecret] in Hs. apply not_true_iff_false in Hs. apply Hs, existsb_exists. exists e. split; [done |]. by rewrite He.
Qed.
End plans.

Section witnesses.
#[local] Existing Instance demo_lower.
#[local] Instance no_urls : UrlParser := {| url_parse := fun _ => None; url_string := fun _ => "" |}.
Definition demo_config : list (string * json) := [("domain", JStr "example.com"); ("realm", JStr "example.com"); ("allowed_groups", JStr "desktop users")].
Definition demo_profile : IdentityProfile := MkIdentityProfile "corp" "linux" "linux_sssd_ad" true false "Corp" (JObj demo_config) None 0.
Definition demo_join (password : string) : desktopIdentityReconcileRequest := MkReconcileRequest "join-user" password "".

Lemma plan_commands_hide_secrets_witness : exists plan plan',
  buildGuestIdentityReconcilePlan demo_profile (demo_join "first secret") = Some plan /\
  buildGuestIdentityReconcilePlan demo_profile (demo_join "second secret") = Some plan' /\ pl_command plan = pl_command plan'.
Proof.
  eexists _, _. split; [reflexivity |]. split; [reflexivity |].
  apply (plan_commands_hide_secrets demo_profile (demo_join "first secret") (demo_join "second secret")); reflexivity.
Defined.
Lemma accepted_profiles_have_plans_witness : exists plan, buildGuestIdentityReconcilePlan demo_profile (demo_join "secret") = Some plan.
Proof. apply (accepted_profiles_have_plans demo_profile (demo_join "secret") demo_config); vm_compute; reflexivity. Defined.
End witnesses.
