(* ===== verification/ImageBuilder.v ===== *)
(** * The image builder ([internal/imagebuilder])

    What a build may ask for, the command that Packer is started with, the
    bundle it installs from, and the reading of its output.  Packer and the
    file system answer as they like; path/filepath, os/exec's search and
    net/url are parameters.  The texts of errors are left out, but for the one
    that a failed build reports.  A map of variables is the list of its
    assignments: the order of an environment does not matter. *)
From stdpp Require Import base strings list.
From Stdlib Require Import ZArith Lia Ascii.
From S2P Require Import Prelude GoStrings Auth Net Db Json GatewayTransport Guest GuestAccount ComputerWire Pve Controller PveClient ControllerHttp ControllerConnect Demo ControllerMaintenance ControllerJobsClaims.

Local Open Scope string_scope.
Local Open Scope list_scope.
Local Open Scope Z_scope.

(** ** Requests *)
Record BuildRequest : Set := MkBuildRequest {
  bq_profile_id : string;
  bq_node : string;
  bq_vmid : Z;
  bq_source_iso : string;
  bq_source_iso_checksum : string;
  bq_driver_iso : string;
  bq_driver_iso_checksum : string;
  bq_mirror_url : string;
  bq_security_mirror_url : string;
  bq_storage_pool : string;
  bq_bridge : string;
  bq_windows_image_name : string;
  bq_cores : Z;
  bq_memory_mb : Z;
  bq_disk_gb : Z;
  bq_firmware : string;
  bq_tpm_version : string;
  bq_builder_password : string;
  bq_windows_product_key : string
}.

Record definition : Set := MkDefinition { df_template_path : string; df_template_name : string; df_windows : bool; df_pve_os_type : string }.

Definition definitions (profileID : string) : option definition :=
  if profileID == "debian-13-xfce" then
    Some (MkDefinition "debian-13-xfce/debian-13-xfce.pkr.hcl" "vc-workspace-debian-13-xfce" false "")
  else if profileID == "windows-10-22h2" then
    Some (MkDefinition "windows-client/windows-client.pkr.hcl" "vc-workspace-windows-10-22h2" true "win10")
  else if profileID == "windows-11" then
    Some (MkDefinition "windows-client/windows-client.pkr.hcl" "vc-workspace-windows-11" true "win11")
  else None.

Definition build_name : string -> bool := begins_with alphanumeric name_char 63.
Definition media_char (c : ascii) : bool := name_char c || bool_decide (c ∈ ["+"; "("; ")"; " "]%char).

(** ^[A-Za-z0-9._-]+:iso/[A-Za-z0-9][A-Za-z0-9._+() -]{0,220}$ *)
Definition mediaPattern (s : string) : bool :=
  let '(pool, rest, found) := cut ":" s in
  found && (pool != "") && str_forall name_char pool &&
  match cut_prefix "iso/" rest with Some file => begins_with alphanumeric media_char 220 file | None => false end.
Definition checksumPattern (s : string) : bool := match_class "sha256:" is_hex 64 64 s.
Definition password_char (c : ascii) : bool :=
  alphanumeric c ||
  bool_decide (c ∈ ["!"; "@"; "#"; "$"; "%"; "^"; "*"; "("; ")"; "_"; "+"; "="; "{"; "}"; "["; "]"; ":"; ","; "."; "?"; "-"]%char).
Definition passwordPattern (s : string) : bool := match_class "" password_char 12 128 s.
Definition productPattern (s : string) : bool := match_class "" (fun c => alphanumeric c || (c == "-"%char)) 0 100 s.

Section builder.
Context `{Sha256} `{UnicodeLower} `{UrlParser}.

(** An absolute HTTP or HTTPS address without credentials. *)
Definition plain_url (raw : string) : bool :=
  match url_parse raw with Some u => ((Scheme u == "http") || (Scheme u == "https")) && (Host u != "") && negb (HasUser u) | None => false end.

Definition hardware_ok (cores memory disk : Z) : bool :=
  negb ((cores <? 1) || (256 <? cores) || (memory <? 512) || (1048576 <? memory) || (disk <? 8) || (16384 <? disk)).

Definition ValidateRequest (r : BuildRequest) : bool :=
  match definitions (bq_profile_id r) with
  | None => false
  | Some d =>
      build_name (bq_node r) && build_name (bq_storage_pool r) && build_name (bq_bridge r) &&
      negb ((bq_vmid r <? 100) || (999999999 <? bq_vmid r)) &&
      mediaPattern (bq_source_iso r) && checksumPattern (bq_source_iso_checksum r) &&
      hardware_ok (bq_cores r) (bq_memory_mb r) (bq_disk_gb r) && passwordPattern (bq_builder_password r) &&
      if df_windows d then
        mediaPattern (bq_driver_iso r) && checksumPattern (bq_driver_iso_checksum r) &&
        (TrimSpace (bq_windows_image_name r) != "") && (slen (bq_windows_image_name r) <=? 100) && productPattern (bq_windows_product_key r) &&
        (bq_firmware r == "uefi") && (bq_tpm_version r == "2.0")
      else
        (bq_driver_iso r == "") && (bq_driver_iso_checksum r == "") && (bq_windows_image_name r == "") && (bq_windows_product_key r == "") &&
        ((bq_firmware r == "seabios") || (bq_firmware r == "uefi")) && (bq_tpm_version r == "none") &&
        plain_url (bq_mirror_url r) && plain_url (bq_security_mirror_url r)
  end.

(** ** Configuration *)
Record BuilderConfig : Set := MkBuilderConfig {
  bc_enabled : bool;
  bc_packer_path : string;
  bc_root_dir : string;
  bc_pve_endpoint : string;
  bc_pve_username : string;
  bc_pve_password : string;
  bc_pve_token_id : string;
  bc_pve_token_secret : string;
  bc_linux_agent_binary : string;
  bc_linux_pam_module : string;
  bc_linux_native_pam_module : string;
  bc_linux_xrdp_bundle : string;
  bc_http_bind_address : string;
  bc_http_interface : string;
  bc_http_port_range : string;
  bc_windows_agent_binary : string;
  bc_cloudbase_init_msi : string
}.
Record Builder : Set := MkBuilder {
  bd_config : BuilderConfig;
  bd_packer_path : string;
  bd_root_dir : string;
  bd_xrdp_sha256 : string;
  bd_http_min : Z;
  bd_http_max : Z
}.

Definition Available (b : Builder) : bool := bc_enabled (bd_config b) && (bd_packer_path b != "").

(** A dotted quad that is not multicast. *)
Definition bind_address_ok (address : string) : bool :=
  match parse_ipv4 address with Some (V4 n) => negb (multicast4 n) | _ => false end.

Definition canonical_port (s : string) : option Z := n ← Atoi s; if itoa n == s then Some n else None.

Definition validateHTTPConfig (address interface range : string) : option (Z * Z) :=
  if (address != "") && (interface != "") then None
  else if (address != "") && negb (bind_address_ok address) then None
  else if (interface != "") && negb (begins_with alphanumeric (fun c => name_char c || (c == ":"%char)) 63 interface) then None
  else
    let '(minimum, maximum, found) := cut "-" range in
    low ← canonical_port minimum;
    high ← canonical_port maximum;
    if negb found || (low <? 1024) || (65535 <? high) || (high <? low) || (32 <=? high - low) then None else Some (low, high).

(** ** Files *)
Context (join_path : string -> string -> string) (dir_path : string -> string) (abs_path : string -> option string) (look_path : string -> option string).

Definition read_bundle_file (directory name : string) (limit : Z) : ctl bytes :=
  f ← pve_ (PLocalFile (join_path directory name));
  censure (lf_regular f && (0 <? lf_size f) && (lf_size f <=? limit)) EOther;;
  censure (lf_opened_regular f) EOther;;
  censure ((0 <? slen (lf_content f)) && (slen (lf_content f) <=? limit)) EOther;;
  mret (lf_content f).

(** \A([0-9a-f]{64})  xrdp\.deb\n\z *)
Definition checksum_line (content : string) : option string :=
  let digest := str_take 64 content in
  if (content == digest +:+ "  xrdp.deb" +:+ newline_text) && match_class "" is_lower_hex 64 64 digest then Some digest else None.

Definition verifyXRDPBundle (directory : string) : ctl string :=
  info ← pve_ (PLocalFile directory);
  censure (lf_directory info) EOther;;
  checksum ← read_bundle_file directory "xrdp-package.sha256" 128;
  expected ← csome (checksum_line checksum) EOther;
  package ← read_bundle_file directory "xrdp.deb" 33554432;
  let actual := hex_encode (sha256 package) in
  censure (actual == expected) EOther;;
  mret actual.

Fixpoint artifacts_present (paths : list string) : ctl unit :=
  match paths with
  | [] => mret tt
  | path :: rest =>
      info ← pve_ (PLocalFile path);
      censure (negb (lf_directory info)) EOther;;
      artifacts_present rest
  end.

Definition trim_slashes (s : string) : string := str_rev (drop_slashes (str_rev s)).

(** [New]: a disabled builder is not looked at further. *)
Definition NewBuilder (cfg : BuilderConfig) : ctl Builder :=
  if negb (bc_enabled cfg) then mret (MkBuilder cfg "" "" "" 0 0) else
  let packer := if TrimSpace (bc_packer_path cfg) == "" then "packer" else TrimSpace (bc_packer_path cfg) in
  packer ← csome (look_path packer) EOther;
  root ← csome (abs_path (bc_root_dir cfg)) EOther;
  let beside path name := if TrimSpace path == "" then join_path (dir_path (bc_linux_agent_binary cfg)) name else path in
  agent ← csome (abs_path (bc_linux_agent_binary cfg)) EOther;
  pam ← csome (abs_path (beside (bc_linux_pam_module cfg) "pam_vcworkspace.so")) EOther;
  nativePam ← csome (abs_path (beside (bc_linux_native_pam_module cfg) "pam_vcworkspace_native.so")) EOther;
  windowsAgent ← csome (abs_path (bc_windows_agent_binary cfg)) EOther;
  cloudbase ← csome (abs_path (bc_cloudbase_init_msi cfg)) EOther;
  artifacts_present [join_path root "debian-13-xfce/debian-13-xfce.pkr.hcl"; join_path root "windows-client/windows-client.pkr.hcl"; agent; pam;
    nativePam; windowsAgent; cloudbase];;
  censure (TrimSpace (bc_linux_xrdp_bundle cfg) != "") EOther;;
  bundle ← csome (abs_path (bc_linux_xrdp_bundle cfg)) EOther;
  digest ← verifyXRDPBundle bundle;
  let address := if (bc_http_bind_address cfg == "") && (bc_http_interface cfg == "") then "0.0.0.0" else bc_http_bind_address cfg in
  let range := if bc_http_port_range cfg == "" then "8840-8847" else bc_http_port_range cfg in
  ports ← csome (validateHTTPConfig address (bc_http_interface cfg) range) EOther;
  u ← csome (url_parse (bc_pve_endpoint cfg)) EOther;
  censure ((Scheme u == "https") && (Host u != "")) EOther;;
  let passwordAuth := (bc_pve_username cfg != "") && (bc_pve_password cfg != "") in
  let tokenAuth := (bc_pve_token_id cfg != "") && (bc_pve_token_secret cfg != "") in
  censure (negb (Bool.eqb passwordAuth tokenAuth)) EOther;;
  mret (MkBuilder
    (MkBuilderConfig true (bc_packer_path cfg) (bc_root_dir cfg) (bc_pve_endpoint cfg) (bc_pve_username cfg) (bc_pve_password cfg)
      (bc_pve_token_id cfg) (bc_pve_token_secret cfg) agent pam nativePam bundle address (bc_http_interface cfg) range windowsAgent cloudbase)
    packer root digest (fst ports) (snd ports)).

(** ** The command *)
Record commandSpec : Set := MkCommandSpec { cs_dir : string; cs_args : list string; cs_env : list string; cs_secrets : list string }.

Definition common_values (b : Builder) (d : definition) (r : BuildRequest) : list (string * string) :=
  let cfg := bd_config b in
  let token := if bc_pve_token_id cfg != "" then bc_pve_token_secret cfg else "" in
  [("pve_url", trim_slashes (bc_pve_endpoint cfg) +:+ "/api2/json");
   ("pve_username", if bc_pve_token_id cfg != "" then bc_pve_token_id cfg else bc_pve_username cfg);
   ("pve_password", bc_pve_password cfg); ("pve_token", token); ("pve_node", bq_node r); ("vm_id", itoa (bq_vmid r));
   ("storage_pool", bq_storage_pool r); ("bridge", bq_bridge r); ("cores", itoa (bq_cores r)); ("memory_mb", itoa (bq_memory_mb r));
   ("disk_size", itoa (bq_disk_gb r) +:+ "G"); ("template_name", df_template_name d)].

Definition windows_values (b : Builder) (d : definition) (r : BuildRequest) : list (string * string) :=
  [("windows_iso_file", bq_source_iso r); ("windows_iso_checksum", bq_source_iso_checksum r); ("virtio_iso_file", bq_driver_iso r);
   ("virtio_iso_checksum", bq_driver_iso_checksum r); ("windows_image_name", bq_windows_image_name r); ("pve_os_type", df_pve_os_type d);
   ("administrator_password", bq_builder_password r); ("product_key", bq_windows_product_key r);
   ("agent_binary", bc_windows_agent_binary (bd_config b)); ("cloudbase_init_msi", bc_cloudbase_init_msi (bd_config b))].

Definition linux_values (b : Builder) (r : BuildRequest) (digest : string) (mirror : URL) : list (string * string) :=
  let cfg := bd_config b in
  let directory := if trim_slashes (Path mirror) == "" then "/" else trim_slashes (Path mirror) in
  [("xrdp_package", join_path (bc_linux_xrdp_bundle cfg) "xrdp.deb"); ("xrdp_package_sha256", digest);
   ("http_bind_address", bc_http_bind_address cfg); ("http_interface", bc_http_interface cfg);
   ("http_port_min", itoa (bd_http_min b)); ("http_port_max", itoa (bd_http_max b));
   ("iso_file", bq_source_iso r); ("iso_checksum", bq_source_iso_checksum r);
   ("mirror_protocol", Scheme mirror); ("mirror_host", Host mirror); ("mirror_directory", directory);
   ("mirror_url", bq_mirror_url r); ("security_mirror_url", bq_security_mirror_url r); ("builder_password", bq_builder_password r);
   ("firmware", if bq_firmware r == "seabios" then "seabios" else if bq_firmware r == "uefi" then "ovmf" else "");
   ("agent_binary", bc_linux_agent_binary cfg); ("pam_module", bc_linux_pam_module cfg); ("native_pam_module", bc_linux_native_pam_module cfg)].

(** A bundle that changed since the builder was made is refused. *)
Definition command_spec (b : Builder) (r : BuildRequest) : ctl commandSpec :=
  d ← csome (definitions (bq_profile_id r)) EOther;
  specific ← (if df_windows d then mret (windows_values b d r) else
                digest ← verifyXRDPBundle (bc_linux_xrdp_bundle (bd_config b));
                censure (digest == bd_xrdp_sha256 b) EOther;;
                mirror ← csome (url_parse (bq_mirror_url r)) EOther;
                mret (linux_values b r digest mirror));
  let template := join_path (bd_root_dir b) (df_template_path d) in
  let token := if bc_pve_token_id (bd_config b) != "" then bc_pve_token_secret (bd_config b) else "" in
  mret (MkCommandSpec (dir_path template) ["build"; "-color=false"; template]
    (List.map (fun e => "PKR_VAR_" +:+ fst e +:+ "=" +:+ snd e) (common_values b d r ++ specific))
    [bc_pve_password (bd_config b); token; bq_builder_password r; bq_windows_product_key r]).

(** ** The output of Packer *)
Definition escape : ascii := chr 27.
Fixpoint skip_parameters (s : string) : string :=
  match s with String c s' => if is_digit c || (c == ";"%char) then skip_parameters s' else s | EmptyString => "" end.

(** What follows \x1b\[[0-9;]*[A-Za-z] at the head of a text. *)
Definition ansi_sequence (s : string) : option string :=
  match cut_prefix (String escape "[") s with
  | Some rest => match skip_parameters rest with String c rest' => if is_letter c then Some rest' else None | EmptyString => None end
  | None => None
  end.
Fixpoint strip_ansi (fuel : nat) (s : string) : string :=
  match fuel, s with
  | S fuel', String c s' => match ansi_sequence s with Some rest => strip_ansi fuel' rest | None => String c (strip_ansi fuel' s') end
  | _, _ => s
  end.
Definition stripANSI (s : string) : string := strip_ansi (String.length s) s.

(** [strings.ReplaceAll] of a text that is not empty. *)
Fixpoint replace_text (fuel : nat) (old new s : string) : string :=
  match fuel, s with
  | S fuel', String c s' =>
      match cut_prefix old s with Some rest => new +:+ replace_text fuel' old new rest | None => String c (replace_text fuel' old new s') end
  | _, _ => s
  end.
Definition redact (line secret : string) : string :=
  if secret == "" then line else replace_text (String.length line) secret "[redacted]" line.

Definition progressPercent (current : Z) (line : string) : Z :=
  let lower := ToLower line in
  let next :=
    if contains "waiting for ssh" lower || contains "waiting for winrm" lower then 45
    else if contains "provisioning with" lower || contains "provisioner" lower then 70
    else if contains "template" lower || contains "shutting down" lower then 90
    else if contains "creating" lower || contains "starting" lower then 15
    else if current <? 8 then 8 else current in
  if next <? current then current else next.

Record progressWriter : Set := MkWriter { pw_pending : string; pw_last : string; pw_percent : Z }.

(** The line as it is shown, and the writer after it; [None]: nothing to show. *)
Definition shown_line (secrets : list string) (line : string) : string :=
  let line := fold_left redact secrets (TrimSpace (stripANSI line)) in
  if 480 <? slen line then str_take 480 line else line.
Definition consume (secrets : list string) (w : progressWriter) (line : string) : progressWriter * option (Z * string) :=
  let line := shown_line secrets line in
  if line == "" then (w, None) else
  let percent := progressPercent (pw_percent w) line in
  (MkWriter (pw_pending w) line percent, Some (percent, line)).

Section reports.
Context {S : Type} (report : S -> Z -> string -> ctl S) (secrets : list string).

Definition deliver (s : S) (event : option (Z * string)) : ctl S :=
  match event with Some (percent, line) => report s percent line | None => mret s end.

(** The complete lines of a chunk; the rest is pending. *)
Fixpoint consume_lines (w : progressWriter) (s : S) (lines : list string) : ctl (progressWriter * S) :=
  match lines with
  | [] => mret (w, s)
  | [pending] => mret (MkWriter pending (pw_last w) (pw_percent w), s)
  | line :: rest =>
      let '(w, event) := consume secrets w line in
      s ← deliver s event;
      consume_lines w s rest
  end.
Definition Write (w : progressWriter) (s : S) (data : bytes) : ctl (progressWriter * S) :=
  consume_lines w s (split newline (pw_pending w +:+ data)).

Definition Last (w : progressWriter) (s : S) : ctl (string * S) :=
  if TrimSpace (pw_pending w) == "" then mret (pw_last w, s) else
  let '(w, event) := consume secrets w (pw_pending w) in
  s ← deliver s event;
  mret (pw_last w, s).

(** How a build ended; [Running] after the first [rounds] pieces of output. *)
Inductive build_end : Set := Running | Failed (message : string) | Built.

Fixpoint follow_packer (rounds : nat) (w : progressWriter) (s : S) : ctl (build_end * S) :=
  match rounds with
  | O => mret (Running, s)
  | Datatypes.S rounds' =>
      r ← ctry (pve_ PPackerOutput);
      match r with
      | inr (Some data) => next ← Write w s data; let '(w, s) := next in follow_packer rounds' w s
      | inr None => s ← report s 100 "Packer created the PVE template"; mret (Built, s)
      | inl _ =>
          ended ← Last w s;
          let '(line, s) := ended in
          mret (Failed ("image build failed: " +:+ (if line == "" then "Packer exited before reporting a result" else line)), s)
      end
  end.
End reports.

(** The errors before Packer runs have texts of their own, which are left out. *)
Definition Build {S} (rounds : nat) (b : Builder) (r : BuildRequest) (report : S -> Z -> string -> ctl S) (s : S) : ctl (build_end * S) :=
  if negb (Available b) || negb (ValidateRequest r) then mret (Failed "", s) else
  spec ← ctry (command_spec b r);
  match spec with
  | inl _ => mret (Failed "", s)
  | inr spec =>
      s ← report s 2 "Starting Packer";
      started ← ctry (pve_ (PPacker (cs_dir spec) (cs_args spec) (cs_env spec)));
      match started with
      | inl _ => mret (Failed "image build failed: Packer exited before reporting a result", s)
      | inr _ => follow_packer report (cs_secrets spec) rounds (MkWriter "" "" 0) s
      end
  end.
End builder.

(** ** Secrets in what is shown *)
Definition bracket (c : ascii) : bool := bool_decide (c ∈ ["["; "]"]%char).
Definition no_brackets (s : string) : bool := str_forall (fun c => negb (bracket c)) s.

Lemma has_prefix_cons d p c s : has_prefix (String d p) (String c s) = bool_decide (d = c) && has_prefix p s.
Proof. unfold has_prefix. cbn. by destruct (bool_decide _). Qed.
Lemma contains_cons p c s : contains p (String c s) = has_prefix p (String c s) || contains p s.
Proof. done. Qed.
Lemma contains_suffix p a t : contains p t = true -> contains p (a +:+ t) = true.
Proof. intros Ht. induction a as [| c a IH]; [done |]. change (contains p (String c (a +:+ t)) = true). by rewrite contains_cons, IH, orb_true_r. Qed.
Lemma contains_take p n s : contains p (str_take n s) = true -> contains p s = true.
Proof.
  assert (forall n q s, has_prefix q (str_take n s) = true -> has_prefix q s = true) as Hpre.
  { clear. intros n q s. revert n q. induction s as [| c s IH]; intros [| n] [| d q]; try done. change (str_take (S n) (String c s)) with (String c (str_take n s)).
    rewrite !has_prefix_cons, !andb_true_iff. intros [-> Hs]. split; [done | by apply (IH n)]. }
  revert n. induction s as [| c s IH]; intros [| n]; try done; [by destruct p |]. change (str_take (S n) (String c s)) with (String c (str_take n s)). rewrite !contains_cons, !orb_true_iff.
  intros [Hs | Hs]; [left; by apply (Hpre (S n)) | right; by apply (IH n)].
Qed.

(** What has no bracket does not go beyond one. *)
Lemma prefix_before_bracket p a b t : no_brackets p = true -> bracket b = true -> has_prefix p (a +:+ String b t) = true -> has_prefix p a = true.
Proof.
  intros Hp Hb. revert p Hp. induction a as [| c a IH]; intros [| d p] Hp; try done; cbn in Hp; apply andb_true_iff in Hp as [Hd Hp].
  - change ("" +:+ String b t) with (String b t). rewrite has_prefix_cons, andb_true_iff. intros [->%bool_decide_eq_true _]. by rewrite Hb in Hd.
  - change (String c a +:+ String b t) with (String c (a +:+ String b t)). rewrite !has_prefix_cons, !andb_true_iff. intros [-> Hs]. split; [done | by apply IH].
Qed.
Lemma contains_around_bracket p a b t : no_brackets p = true -> p <> "" -> bracket b = true -> contains p (a +:+ String b t) = true ->
  contains p a = true \/ contains p t = true.
Proof.
  intros Hp Hne Hb. induction a as [| c a IH].
  - change ("" +:+ String b t) with (String b t). rewrite contains_cons, orb_true_iff. intros [Hs | Hs]; [| by right]. left. by apply (prefix_before_bracket p "" b t) in Hs; destruct p.
  - change (String c a +:+ String b t) with (String c (a +:+ String b t)). rewrite !contains_cons, !orb_true_iff. intros [Hs | Hs].
    + left. left. by apply (prefix_before_bracket p (String c a) b t).
    + destruct (IH Hs); auto.
Qed.

(** A secret that the text of a redaction does not hold. *)
Definition redactable (secret : string) : bool := (secret != "") && no_brackets secret && negb (contains secret "redacted").

Lemma contains_mark p t : redactable p = true -> contains p ("[redacted]" +:+ t) = true -> contains p t = true.
Proof.
  unfold redactable. rewrite !andb_true_iff. intros [[Hne Hp] Hr] Hc. apply negb_true_iff in Hr. apply negb_true_iff, bool_decide_eq_false in Hne.
  change ("[redacted]" +:+ t) with ("" +:+ String "[" ("redacted" +:+ String "]" t)) in Hc.
  apply contains_around_bracket in Hc as [Hc | Hc]; [by destruct p | | done..].
  apply contains_around_bracket in Hc as [Hc | Hc]; [by rewrite Hc in Hr | done..].
Qed.

Lemma prefix_of_replaced fuel old s p : no_brackets p = true -> has_prefix p (replace_text fuel old "[redacted]" s) = true -> has_prefix p s = true.
Proof.
  revert s p. induction fuel as [| fuel IH]; intros [| c s] p Hp Hs; try done. cbn [replace_text] in Hs. destruct (cut_prefix old (String c s)) as [rest |] eqn:Ec.
  - apply (prefix_before_bracket p "" "[" ("redacted]" +:+ replace_text fuel old "[redacted]" rest)) in Hs; [| done..]. by destruct p.
  - destruct p as [| d p]; [done |]. rewrite has_prefix_cons, andb_true_iff in Hs |- *. destruct Hs as [-> Hs]. split; [done |].
    apply IH; [| done]. by apply andb_true_iff in Hp as [_ Hp].
Qed.

(** Redacting another secret does not bring this one about. *)
Lemma contains_of_replaced fuel old s p : redactable p = true -> contains p (replace_text fuel old "[redacted]" s) = true -> contains p s = true.
Proof.
  intros Hp. assert (no_brackets p = true) as Hb by (unfold redactable in Hp; rewrite !andb_true_iff in Hp; tauto).
  revert s. induction fuel as [| fuel IH]; intros [| c s] Hs; try done. cbn [replace_text] in Hs. destruct (cut_prefix old (String c s)) as [rest |] eqn:Ec.
  - apply cut_prefix_some in Ec as ->. by apply contains_suffix, IH, contains_mark.
  - rewrite contains_cons, orb_true_iff in Hs |- *. destruct Hs as [Hs | Hs]; [left | right; by apply IH].
    apply (prefix_of_replaced (S fuel) old); [done |]. cbn [replace_text]. by rewrite Ec.
Qed.

(** The secret itself is gone. *)
Lemma replaced_clean fuel p s : redactable p = true -> (String.length s <= fuel)%nat -> contains p (replace_text fuel p "[redacted]" s) = false.
Proof.
  intros Hp. assert (no_brackets p = true /\ p <> "") as [Hb Hne].
  { unfold redactable in Hp. rewrite !andb_true_iff in Hp. destruct Hp as [[Hn Hb] _]. by apply negb_true_iff, bool_decide_eq_false in Hn. }
  revert s. induction fuel as [| fuel IH]; intros [| c s] Hl; cbn in Hl; try lia; try by destruct p. cbn [replace_text].
  destruct (cut_prefix p (String c s)) as [rest |] eqn:Ec.
  - apply not_true_iff_false. intros Hc. apply contains_mark in Hc; [| done]. rewrite IH in Hc; [done |]. apply cut_prefix_some in Ec.
    destruct p as [| d p]; [done |]. apply (f_equal slen) in Ec. rewrite slen_app, !slen_String in Ec. unfold slen in Ec. lia.
  - rewrite contains_cons, IH by lia. rewrite orb_false_r. apply not_true_iff_false. intros Hs.
    apply (prefix_of_replaced (S fuel) p (String c s) p) in Hb; [| cbn [replace_text]; by rewrite Ec]. unfold has_prefix in Hb. by rewrite Ec in Hb.
Qed.

Lemma redact_clean line secret p : redactable p = true -> contains p line = false -> contains p (redact line secret) = false.
Proof.
  intros Hp Hl. unfold redact. destruct (bool_decide (secret = "")); [done |]. apply not_true_iff_false. intros Hc.
  apply contains_of_replaced in Hc; [| done]. by rewrite Hl in Hc.
Qed.

(** A line as it is shown holds none of the secrets it was given to hide. *)
Lemma shown_line_clean secrets line secret (Hin : In secret secrets) (Hs : redactable secret = true) :
  contains secret (shown_line secrets line) = false.
Proof.
  unfold shown_line. enough (contains secret (fold_left redact secrets (TrimSpace (stripANSI line))) = false) as Hc.
  { destruct (480 <? _); [| done]. apply not_true_iff_false. intros Ht. apply contains_take in Ht. by rewrite Hc in Ht. }
  generalize (TrimSpace (stripANSI line)). clear line. intros line.
  assert (forall l x, contains secret x = false -> contains secret (fold_left redact l x) = false) as Hkeep.
  { induction l as [| y l IH]; intros x Hx; [done |]. by apply IH, redact_clean. }
  revert line. induction secrets as [| y secrets IH]; intros line; [done |]. cbn [fold_left]. destruct Hin as [-> | Hin]; [| by apply IH].
  apply Hkeep. unfold redact. assert (bool_decide (secret = "") = false) as ->.
  { unfold redactable in Hs. rewrite !andb_true_iff in Hs. destruct Hs as [[Hn _] _]. by apply negb_true_iff in Hn. }
  by apply replaced_clean.
Qed.

(** ** What a build shows *)
Section shown.
Context `{Sha256} `{Collation} `{UnicodeLower} `{UrlParser} (has_input : bool) (legacy_revoker : string).
Context (join_path : string -> string -> string) (dir_path : string -> string).

(** The secrets that a build is run with: the password of PVE, the secret of
    its token when a token is configured, the password of the builder and the
    Windows product key. *)
Definition secret_of (b : Builder) (r : BuildRequest) (secret : string) : Prop :=
  secret = bc_pve_password (bd_config b) \/ (bc_pve_token_id (bd_config b) <> "" /\ secret = bc_pve_token_secret (bd_config b)) \/
  secret = bq_builder_password r \/ secret = bq_windows_product_key r.

(** Everything that is reported, in order. *)
Definition recorded (shown : list (Z * string)) (percent : Z) (line : string) : ctl (list (Z * string)) := mret (shown ++ [(percent, line)]).

Definition hides (secret : string) (event : Z * string) : Prop :=
  contains secret (snd event) = false \/ snd event = "Starting Packer" \/ snd event = "Packer created the PVE template".
Definition end_hides (secret : string) (ended : build_end) : Prop :=
  match ended with
  | Failed "" | Running | Built => True
  | Failed message => exists line, message = "image build failed: " +:+ line /\
      (contains secret line = false \/ line = "Packer exited before reporting a result")
  end.

Notation shows := (cwp has_input legacy_revoker (fun _ _ => true) (fun _ => True)).

(** Every program may do what it does when nothing is asked of it. *)
Lemma shows_any {A} (p : ctl A) tr : shows p tr (fun _ _ => True).
Proof.
  revert tr. induction p as [r | B' q k IH | B' m q k IH | B' q k IH | k IH | k IH | n k IH | d k IH | vmid k IH | vmid k IH]; intros tr; cbn;
    try done; intros; split; try done; apply IH.
Qed.

Section lines.
Context (secrets : list string) (secret : string) (Hin : In secret secrets) (Hred : redactable secret = true).

Lemma consume_hides w line : contains secret (pw_last w) = false -> contains secret (pw_last (fst (consume secrets w line))) = false /\
  match snd (consume secrets w line) with Some e => hides secret e | None => True end.
Proof.
  intros Hw. unfold consume. destruct (_ == ""); [done |]. cbn. pose proof (shown_line_clean secrets line secret Hin Hred). split; [done | by left].
Qed.

Definition showing (wp : progressWriter) (shown : list (Z * string)) : Prop :=
  contains secret (pw_last wp) = false /\ Forall (hides secret) shown.

Lemma lines_hide lines wp shown tr : showing wp shown ->
  shows (consume_lines recorded secrets wp shown lines) tr (fun r _ => match r with inr (wp', shown') => showing wp' shown' | inl _ => True end).
Proof.
  revert wp shown tr. induction lines as [| line rest IH]; intros wp shown tr [Hw Hs]; [done |]. cbn [consume_lines].
  destruct rest as [| line2 rest]; [done |]. destruct (consume_hides wp line Hw) as [Hw' He]. destruct (consume secrets wp line) as [wp' e].
  apply cwp_bind. destruct e as [[percent text] |]; apply IH; (split; [done |]); [| done]. apply Forall_app. by rewrite Forall_singleton.
Qed.

Lemma follow_hides rounds wp shown tr : showing wp shown ->
  shows (follow_packer recorded secrets rounds wp shown) tr
    (fun r _ => match r with inr (e, shown') => end_hides secret e /\ Forall (hides secret) shown' | inl _ => True end).
Proof.
  revert wp shown tr. induction rounds as [| rounds IH]; intros wp shown tr [Hw Hs]; [done |]. cbn [follow_packer].
  apply cwp_bind, cwp_ctry. intros [e | [data |]]; (split; [done |]); cbn [cwp].
  - apply cwp_bind. unfold Last. assert (forall l, contains secret l = false -> forall x : list (Z * string), Forall (hides secret) x ->
      end_hides secret (Failed ("image build failed: " +:+ (if l == "" then "Packer exited before reporting a result" else l))) /\ Forall (hides secret) x) as Hend.
    { intros l Hl x Hx. split; [| done]. exists (if l == "" then "Packer exited before reporting a result" else l). split; [done |]. destruct (l == ""); auto. }
    destruct (_ == ""); [by apply Hend |]. destruct (consume_hides wp (pw_pending wp) Hw) as [Hw' He]. destruct (consume _ _ _) as [wp' e'].
    apply cwp_bind. destruct e' as [[percent text] |]; apply Hend; try done. apply Forall_app. by rewrite Forall_singleton.
  - apply cwp_bind. eapply cwp_mono; [| by apply lines_hide]. intros [e | [wp' shown']] tr' Hr; [done | by apply IH].
  - cbn. split; [done |]. apply Forall_app. rewrite Forall_singleton. split; [done |]. right. by right.
Qed.
End lines.

Lemma spec_secrets b r tr secret : secret_of b r secret -> secret <> "" ->
  shows (command_spec join_path dir_path b r) tr (fun res _ => match res with inr spec => In secret (cs_secrets spec) | inl _ => True end).
Proof.
  intros Hs Hne. unfold command_spec. apply cwp_bind. destruct (definitions _) as [d |]; [| done]. cbn [csome cwp mret ctl_ret].
  apply cwp_bind. eapply (cwp_mono _ _ _ _ _ _ (fun _ _ => True)).
  2: { clear. generalize tr. destruct (df_windows d); [done |]. intros. apply shows_any. }
  intros [e | specific] tr' _; [done |]. cbn. destruct Hs as [-> | [[Ht ->] | [-> | ->]]]; auto.
  right. left. by rewrite (bool_decide_false _ Ht).
Qed.

(** (C29) No run of a build shows a secret it was given.  Whatever Packer
    prints and however the build ends, every line that is reported and the
    error that is returned hold none of the password of PVE, the secret of the
    token in use, the password of the builder and the product key - the two
    fixed lines of the builder and its fixed error aside, and provided that
    the secret is not empty, has no square brackets and is no part of the word
    "redacted". *)
Theorem build_hides_secrets {W} (w : world W) rounds b r st ended shown st' tr secret
    (Hrun : run_ctl has_input legacy_revoker w (Build join_path dir_path rounds b r recorded []) st [] = (inr (ended, shown), st', tr))
    (Hsecret : secret_of b r secret) (Hred : redactable secret = true) :
  Forall (hides secret) shown /\ end_hides secret ended.
Proof.
  assert (secret <> "") as Hne by (by intros ->).
  enough (shows (Build join_path dir_path rounds b r recorded []) []
    (fun r _ => match r with inr (e, shown) => end_hides secret e /\ Forall (hides secret) shown | inl _ => True end)) as Hw.
  { apply (cwp_run has_input legacy_revoker _ _ w _ st _ _ _ _ (fun _ _ _ _ _ _ => I) Hw) in Hrun as [_ [? ?]]. done. }
  unfold Build. destruct (_ || _); [done |]. apply cwp_bind, cwp_ctry. eapply cwp_mono; [| by apply (spec_secrets b r [] secret)].
  intros [e | spec] tr1 Hspec; [done |]. cbn [cwp]. apply cwp_bind. cbn [recorded cwp mret ctl_ret app].
  assert (Forall (hides secret) [(2, "Starting Packer")]) as Hstart by (apply Forall_singleton; right; by left).
  apply cwp_bind, cwp_ctry. intros [e | u]; (split; [done |]); cbn [cwp].
  - split; [| done]. eexists. split; [reflexivity | by right].
  - apply (follow_hides (cs_secrets spec)); [done | done |]. split; [| done]. by destruct secret.
Qed.
End shown.

(** ** A build whose output names the product key *)
Section witnesses.
#[local] Existing Instance demo_sha.
#[local] Existing Instance demo_collation.
#[local] Existing Instance demo_lower.
#[local] Instance demo_builder_urls : UrlParser := {| url_parse := fun _ => None; url_string := fun _ => "" |}.

Definition iso_checksum : string := "sha256:" +:+ String.string_of_list_ascii (repeat "a"%char 64).
Definition windows_build : BuildRequest := MkBuildRequest "windows-11" "pve1" 900 "local:iso/win.iso" iso_checksum "local:iso/virtio.iso" iso_checksum "" ""
  "local-lvm" "vmbr0" "Windows 11 Pro" 4 8192 64 "uefi" "2.0" "Builder-Pass-1" "AAAAA-BBBBB".
Definition demo_builder : Builder := MkBuilder
  (MkBuilderConfig true "packer" "/images" "https://pve1:8006" "" "" "ci@pve!packer" "token-secret" "" "" "" "" "" "" "" "" "") "/usr/bin/packer" "/images" "" 0 0.
Definition packer_answers (B : Type) (op : pve_op B) : guest_failure + B :=
  match op with
  | PPacker _ _ _ => inr tt
  | PPackerOutput => inr (Some ("installing with AAAAA-BBBBB" +:+ newline_text))
  | _ => inl (MkFailure None "not answered")
  end.
Definition build_run := run_ctl true "revoker" (deployment_with (fun _ => true) packer_answers no_guest)
  (Build (fun a b => a +:+ "/" +:+ b) (fun p => p) 1 demo_builder windows_build recorded []) (empty_db, 0) [].

Lemma build_hides_secrets_witness : exists st tr, build_run = (inr (Running, [(2, "Starting Packer"); (8, "installing with [redacted]")]), st, tr) /\
  Forall (hides "AAAAA-BBBBB") [(2, "Starting Packer"); (8, "installing with [redacted]")] /\ Forall (hides "token-secret") [(2, "Starting Packer"); (8, "installing with [redacted]")].
Proof.
  eexists _, _. split; [vm_compute; reflexivity |]. split.
  - eapply (build_hides_secrets true "revoker" (fun a b => a +:+ "/" +:+ b) (fun p => p) (deployment_with (fun _ => true) packer_answers no_guest) 1 demo_builder windows_build (empty_db, 0) Running);
      [vm_compute; reflexivity | right; right; right; reflexivity | vm_compute; reflexivity].
  - eapply (build_hides_secrets true "revoker" (fun a b => a +:+ "/" +:+ b) (fun p => p) (deployment_with (fun _ => true) packer_answers no_guest) 1 demo_builder windows_build (empty_db, 0) Running);
      [vm_compute; reflexivity | right; left; split; [discriminate | reflexivity] | vm_compute; reflexivity].
Defined.
End witnesses.
