(* ===== verification/ControllerImages.v ===== *)
(** * Images, GPUs and device mappings ([internal/httpapi/server.go])

    The image profiles and their builds, the GPU profiles and the PCI resource
    mappings of PVE.  The [go] statement that runs a build is a task of its
    own. *)
From stdpp Require Import base strings list.
From Stdlib Require Import ZArith Lia Ascii.
From S2P Require Import Prelude GoStrings Auth Net Db Json Demo Triggers StoreAccess StoreSession StoreConn StoreLease GatewayTransport Computer Guest GuestAccount ComputerWire StoreAudit StoreJobs StoreCatalog Pve Controller ControllerScripts PveClient ControllerNative ControllerAgent ControllerHttp ControllerConnect ControllerRecovery ControllerClone ControllerLogin ControllerAdmin ImageBuilder.

Local Open Scope string_scope.
Local Open Scope list_scope.
Local Open Scope Z_scope.

(** ** Changing a profile *)
Record imageProfileUpdateRequest : Set := MkImageUpdate {
  iu_display_name : option string;
  iu_enabled : option bool;
  iu_source_node : option string;
  iu_source_iso : option string;
  iu_source_iso_checksum : option string;
  iu_driver_iso : option string;
  iu_driver_iso_checksum : option string;
  iu_template_vmid : option Z;
  iu_mirror_url : option string;
  iu_security_mirror_url : option string;
  iu_storage_pool : option string;
  iu_bridge : option string;
  iu_windows_image_name : option string;
  iu_default_cores : option Z;
  iu_default_memory_mb : option Z;
  iu_default_disk_gb : option Z;
  iu_firmware : option string;
  iu_tpm_version : option string;
  iu_default_gpu_profile_id : option string;
  iu_build_status : option string;
  iu_status_detail : option string
}.
Definition image_fields : list string :=
  ["display_name"; "enabled"; "source_node"; "source_iso"; "source_iso_checksum"; "driver_iso"; "driver_iso_checksum"; "template_vmid"; "mirror_url";
   "security_mirror_url"; "storage_pool"; "bridge"; "windows_image_name"; "default_cores"; "default_memory_mb"; "default_disk_gb"; "firmware";
   "tpm_version"; "default_gpu_profile_id"; "build_status"; "status_detail"].
Definition zero_image_update : imageProfileUpdateRequest :=
  MkImageUpdate None None None None None None None None None None None None None None None None None None None None None.

Definition merge_image (old : imageProfileUpdateRequest) (l : list (string * json)) : option imageProfileUpdateRequest :=
  let str old f := field image_fields (store_ptr store_string "") old f l in
  let int old f := field image_fields (store_ptr store_int64 0) old f l in
  name ← str (iu_display_name old) "display_name"; enabled ← field image_fields (store_ptr store_bool false) (iu_enabled old) "enabled" l;
  node ← str (iu_source_node old) "source_node"; iso ← str (iu_source_iso old) "source_iso"; sum ← str (iu_source_iso_checksum old) "source_iso_checksum";
  driver ← str (iu_driver_iso old) "driver_iso"; driverSum ← str (iu_driver_iso_checksum old) "driver_iso_checksum";
  template ← int (iu_template_vmid old) "template_vmid"; mirror ← str (iu_mirror_url old) "mirror_url";
  security ← str (iu_security_mirror_url old) "security_mirror_url"; pool ← str (iu_storage_pool old) "storage_pool"; bridge ← str (iu_bridge old) "bridge";
  windows ← str (iu_windows_image_name old) "windows_image_name"; cores ← int (iu_default_cores old) "default_cores";
  memory ← int (iu_default_memory_mb old) "default_memory_mb"; disk ← int (iu_default_disk_gb old) "default_disk_gb";
  firmware ← str (iu_firmware old) "firmware"; tpm ← str (iu_tpm_version old) "tpm_version"; gpu ← str (iu_default_gpu_profile_id old) "default_gpu_profile_id";
  status ← str (iu_build_status old) "build_status"; detail ← str (iu_status_detail old) "status_detail";
  Some (MkImageUpdate name enabled node iso sum driver driverSum template mirror security pool bridge windows cores memory disk firmware tpm gpu status detail).
Definition read_image (l : list (string * json)) : option imageProfileUpdateRequest := merge_image zero_image_update l.

Definition trimmed (old : string) (new : option string) : string := match new with Some s => TrimSpace s | None => old end.

Definition applyImageProfileUpdate (p : ImageProfile) (r : imageProfileUpdateRequest) : ImageProfile :=
  p <| ip_display_name := trimmed (ip_display_name p) (iu_display_name r); ip_enabled := default (ip_enabled p) (iu_enabled r);
       ip_source_node := trimmed (ip_source_node p) (iu_source_node r); ip_source_iso := trimmed (ip_source_iso p) (iu_source_iso r);
       ip_source_iso_checksum := trimmed (ip_source_iso_checksum p) (iu_source_iso_checksum r);
       ip_driver_iso := trimmed (ip_driver_iso p) (iu_driver_iso r);
       ip_driver_iso_checksum := trimmed (ip_driver_iso_checksum p) (iu_driver_iso_checksum r) |>
    <| ip_template_vmid := match iu_template_vmid r with Some n => Some n | None => ip_template_vmid p end;
       ip_mirror_url := trimmed (ip_mirror_url p) (iu_mirror_url r);
       ip_security_mirror_url := trimmed (ip_security_mirror_url p) (iu_security_mirror_url r);
       ip_storage_pool := trimmed (ip_storage_pool p) (iu_storage_pool r); ip_bridge := trimmed (ip_bridge p) (iu_bridge r);
       ip_windows_image_name := trimmed (ip_windows_image_name p) (iu_windows_image_name r);
       ip_default_cores := default (ip_default_cores p) (iu_default_cores r) |>
    <| ip_default_memory_mb := default (ip_default_memory_mb p) (iu_default_memory_mb r);
       ip_default_disk_gb := default (ip_default_disk_gb p) (iu_default_disk_gb r);
       ip_firmware := trimmed (ip_firmware p) (iu_firmware r); ip_tpm_version := trimmed (ip_tpm_version p) (iu_tpm_version r);
       ip_default_gpu_profile_id := trimmed (ip_default_gpu_profile_id p) (iu_default_gpu_profile_id r);
       ip_build_status := trimmed (ip_build_status p) (iu_build_status r); ip_status_detail := trimmed (ip_status_detail p) (iu_status_detail r) |>.

(** [profile.TemplateVMID]: zero when the column is null. *)
Definition template_vmid (p : ImageProfile) : Z := default 0 (ip_template_vmid p).

Definition optional (check : string -> bool) (s : string) : bool := (s == "") || check s.
Definition build_states : list string := ["draft"; "blocked"; "building"; "testing"; "ready"; "failed"].

Section images.
Context `{Sha256} `{UnicodeLower} `{Collation} `{UrlParser}.

Definition validateImageProfile (p : ImageProfile) : bool :=
  negb ((ip_display_name p == "") || (80 <? slen (ip_display_name p))) &&
  (0 <=? template_vmid p) &&
  optional build_name (ip_source_node p) && optional build_name (ip_storage_pool p) && optional build_name (ip_bridge p) &&
  forallb (optional (fun media => contains ":iso/" media && (slen media <=? 255))) [ip_source_iso p; ip_driver_iso p] &&
  forallb (optional checksumPattern) [ip_source_iso_checksum p; ip_driver_iso_checksum p] &&
  forallb (optional plain_url) [ip_mirror_url p; ip_security_mirror_url p] &&
  (slen (ip_windows_image_name p) <=? 100) &&
  hardware_ok (ip_default_cores p) (ip_default_memory_mb p) (ip_default_disk_gb p) &&
  ((ip_firmware p == "seabios") || (ip_firmware p == "uefi")) &&
  ((ip_tpm_version p == "none") || (ip_tpm_version p == "2.0")) &&
  negb ((ip_tpm_version p == "2.0") && (ip_firmware p != "uefi")) &&
  bool_decide (ip_build_status p ∈ build_states) &&
  negb ((ip_build_status p == "ready") && (template_vmid p =? 0)) &&
  (slen (ip_status_detail p) <=? 500).

(** The first machine with the identifier is a template on the node. *)
Definition validateImageTemplateInventory (p : ImageProfile) (summary : Summary) : bool :=
  match List.find (fun m => vm_id m =? template_vmid p) (sm_vms summary) with
  | Some m => (vm_kind m == "qemu") && vm_template m && ((ip_source_node p == "") || (vm_node m == ip_source_node p))
  | None => false
  end.

Definition given {A} (o : option A) : bool := match o with Some _ => true | None => false end.

(** A profile that is, or becomes, ready is compared with PVE. *)
Definition validate_template (r : imageProfileUpdateRequest) (p : ImageProfile) : bool :=
  let ready := ip_build_status p == "ready" in
  (given (iu_build_status r) && ready) || (given (iu_enabled r) && ip_enabled p && ready) || (given (iu_template_vmid r) && ready) ||
  (given (iu_source_node r) && ready).

Context (has_pve : bool).

Definition found_image (id : string) : ctl ImageProfile := replies (store_ (OpImageProfile id)) (Some (404, "image_profile_not_found")) None.

Definition updateImageProfile (q : web_request) (session : Session) : ctl ImageProfile :=
  admin_request session (wq_csrf q) (
  profile ← found_image (path_value q "id");
  request ← csome (decodeJSON image_fields read_image zero_image_update q) bad_request;
  let profile := applyImageProfileUpdate profile request in
  censure (validateImageProfile profile) (EReply 422 "invalid_image_profile");;
  (if validate_template request profile then
     censure has_pve (EReply 503 "pve_not_configured");;
     summary ← reply_on (pve_ PSummary) 502 "pve_unavailable";
     censure (validateImageTemplateInventory profile summary) (EReply 409 "image_template_unavailable")
   else mret tt);;
  reply_on (store_ (OpGPUProfile (ip_default_gpu_profile_id profile))) 422 "invalid_gpu_profile";;
  updated ← reply_on (store_ (OpUpdateImageProfile profile)) 500 "internal_error";
  auditRequest (wq_from q) (actor session) "image_profile.updated" "image_profile" (ip_id profile)
    [("build_status", text (ip_build_status profile)); ("enabled", JBool (ip_enabled profile))];;
  mret updated).

(** ** Builds *)
Definition prepareImageBuildProfile (current : ImageProfile) (r : option imageProfileUpdateRequest) : option ImageProfile :=
  let profile := match r with Some r => applyImageProfileUpdate current r | None => current end in
  let profile := profile <| ip_build_status := "draft"; ip_status_detail := "" |> in
  if validateImageProfile profile then Some profile else None.

Definition imageBuildRequest (p : ImageProfile) (builderPassword productKey : string) : BuildRequest :=
  MkBuildRequest (ip_id p) (ip_source_node p) (template_vmid p) (ip_source_iso p) (ip_source_iso_checksum p) (ip_driver_iso p)
    (ip_driver_iso_checksum p) (ip_mirror_url p) (ip_security_mirror_url p) (ip_storage_pool p) (ip_bridge p) (ip_windows_image_name p)
    (ip_default_cores p) (ip_default_memory_mb p) (ip_default_disk_gb p) (ip_firmware p) (ip_tpm_version p) builderPassword productKey.

Definition validateImageBuildInventory (p : ImageProfile) (summary : Summary) : bool :=
  sm_writable summary &&
  existsb (fun n => (pn_name n == ip_source_node p) && (pn_status n == "online")) (sm_nodes summary) &&
  existsb (fun st => (ps_name st == ip_storage_pool p) && contains "images" (ps_content st)) (sm_storage summary) &&
  forallb (fun m => negb (vm_id m =? template_vmid p)) (sm_vms summary).

Record image_build_input : Set := MkBuildInput { ib_profile : option imageProfileUpdateRequest; ib_password : string; ib_product_key : string }.
Definition build_fields : list string := ["profile"; "builder_password"; "windows_product_key"].
Definition store_image_update (old : imageProfileUpdateRequest) (v : json) : option imageProfileUpdateRequest :=
  store_struct (fun old l => if known_fields image_fields l then merge_image old l else None) old v.
Definition read_build (l : list (string * json)) : option image_build_input :=
  profile ← field build_fields (store_ptr store_image_update zero_image_update) None "profile" l;
  password ← text_field build_fields l "builder_password"; key ← text_field build_fields l "windows_product_key";
  Some (MkBuildInput profile password key).

Definition build_job_request (p : ImageProfile) : json :=
  JObj (detail_of [("image_profile_id", text (ip_id p)); ("node", text (ip_source_node p)); ("template_vmid", number (template_vmid p));
    ("source_iso", text (ip_source_iso p)); ("driver_iso", text (ip_driver_iso p)); ("storage_pool", text (ip_storage_pool p));
    ("bridge", text (ip_bridge p)); ("cores", number (ip_default_cores p)); ("memory_mb", number (ip_default_memory_mb p));
    ("disk_gb", number (ip_default_disk_gb p)); ("mirror_url", text (ip_mirror_url p))]).

Definition queued_text : string := "Image build is queued".
Definition job_started (j : JobInfo) : JobInfo :=
  MkJobInfo (JobID j) (IdempotencyKey j) (Operation j) "running" (SourceVMID j) (TargetVMID j) (TargetNode j) (TaskNode j) (UPID j) (Request j)
    1 queued_text (JobError j) (JobCreatedBy j) (JobCreatedAt j) (JobUpdatedAt j) (RequestFingerprint j).

(** The job of the build, or one that is already there. *)
Definition create_build_job (row : JobInfo) (profileID : string) : ctl (JobInfo * bool) :=
  r ← ctry (store_ (OpCreateJob row));
  match r with
  | inr created => mret created
  | inl (EStore ErrConflict) => cfail job_conflict
  | inl _ =>
      active ← ctry (store_ (OpActiveImageBuild profileID));
      match active with inr job => mret (job, false) | inl _ => cfail internal_error end
  end.

Definition start_build (q : web_request) (session : Session) (profile : ImageProfile) (job : JobInfo) : ctl JobInfo :=
  reply_on (store_ (OpUpdateJobProgress (JobID job) "running" 1 queued_text "")) 500 "internal_error";;
  updated ← ctry (store_ (OpUpdateImageProfile (profile <| ip_build_status := "building"; ip_status_detail := queued_text |>)));
  (match updated with
   | inr _ => mret tt
   | inl _ =>
       cignore (store_ (OpUpdateJobProgress (JobID job) "failed" 0 "" "Unable to update image profile"));;
       cfail internal_error
   end);;
  auditRequest (wq_from q) (actor session) "image_build.started" "job" (JobID job)
    [("image_profile_id", text (ip_id profile)); ("template_vmid", number (template_vmid profile)); ("node", text (ip_source_node profile))];;
  mret (job_started job).

(** [builder_available]: [s.imageBuilder != nil && s.imageBuilder.Available()]. *)
Definition startImageBuild (builder_available : bool) (q : web_request) (session : Session) : ctl JobInfo :=
  admin_request session (wq_csrf q) (
  censure builder_available (EReply 503 "image_builder_unavailable");;
  replayed_or (wq_job q) ("user:" +:+ actor session) (fun key fingerprint =>
  current ← found_image (path_value q "id");
  input ← csome (decodeJSON build_fields read_build (MkBuildInput None "" "") q) bad_request;
  profile ← csome (prepareImageBuildProfile current (ib_profile input)) (EReply 422 "invalid_image_profile");
  reply_on (store_ (OpGPUProfile (ip_default_gpu_profile_id profile))) 422 "invalid_gpu_profile";;
  censure (ValidateRequest (imageBuildRequest profile (ib_password input) (ib_product_key input))) (EReply 422 "invalid_image_build");;
  censure has_pve (EReply 503 "pve_not_configured");;
  summary ← reply_on (pve_ PSummary) 502 "pve_unavailable";
  censure (validateImageBuildInventory profile summary) (EReply 409 "image_build_target_unavailable");;
  token ← reply_on (crandom 18) 500 "internal_error";
  created ← create_build_job
    (job_row ("job_" +:+ OpaqueToken token) key fingerprint "image.build" 0 (template_vmid profile) (ip_source_node profile) (ip_source_node profile)
      (build_job_request profile) (actor session)) (ip_id profile);
  let '(job, fresh) := created in
  if negb fresh then mret job else start_build q session profile job)).

(** [limitText] *)
Definition limitText (value : string) (limit : Z) : string :=
  let trimmed := TrimSpace value in
  String.concat "" (take (Z.to_nat limit) (runes_of (String.length trimmed) trimmed)).

Definition audit_build (job : JobInfo) (event : string) (detail : list (string * json)) : ctl unit :=
  cignore (store_ (OpAudit (JobCreatedBy job) event "job" (JobID job) (JObj (detail_of detail)))).

(** The reports of a build, at most one in two seconds below ninety percent;
    [last] is when one was persisted.  The zero time is long ago. *)
Definition persist_progress (job : JobInfo) (profileID : string) (last : option nanos) (percent : Z) (line : string) : ctl (option nanos) :=
  now ← cnow;
  if match last with Some t => (now - t <? 2 * second) && (percent <? 90) | None => false end then mret last else
  persisted ← cnow;
  let detail := limitText line 500 in
  cignore (store_ (OpUpdateJobProgress (JobID job) "running" percent detail ""));;
  cignore (store_ (OpUpdateImageState profileID "building" detail));;
  mret (Some persisted).

Definition built_text : string := "Template created; clone and validate Guest Agent and RDP before marking it ready".

(** [rounds] bounds the pieces of output that are read. *)
Definition runImageBuild (join_path : string -> string -> string) (dir_path : string -> string) (rounds : nat) (builder : Builder) (job : JobInfo) (profileID : string) (r : BuildRequest) : ctl unit :=
  ended ← Build join_path dir_path rounds builder r (persist_progress job profileID) None;
  match fst ended with
  | Running => mret tt
  | Failed message =>
      let message := limitText message 500 in
      cignore (store_ (OpUpdateJobProgress (JobID job) "failed" 0 "Image build failed" message));;
      cignore (store_ (OpUpdateImageState profileID "failed" message));;
      audit_build job "image_build.failed" [("image_profile_id", text profileID); ("error", text message)]
  | Built =>
      cignore (store_ (OpUpdateJobProgress (JobID job) "succeeded" 100 built_text ""));;
      cignore (store_ (OpUpdateImageState profileID "testing" built_text));;
      audit_build job "image_build.succeeded" [("image_profile_id", text profileID); ("template_vmid", number (TargetVMID job))]
  end.

(** ** The configuration of the platform *)
Record platform_view : Type := MkPlatformView {
  pv_images : list ImageProfile;
  pv_gpu_profiles : list GPUProfile;
  pv_devices : list GPUDevice;
  pv_mappings : list PCIResourceMapping;
  pv_inventory_available : bool;
  pv_mapping_inventory_available : bool;
  pv_builder_available : bool;
  pv_builds : list JobInfo
}.

Definition online_nodes (summary : Summary) : list string :=
  List.map pn_name (List.filter (fun n => pn_status n == "online") (sm_nodes summary)).

Definition device_inventory : ctl (option (list GPUDevice)) :=
  summary ← ctry (pve_ PSummary);
  match summary with
  | inl _ => mret None
  | inr summary =>
      devices ← ctry (pve_ (PDevices (online_nodes summary)));
      mret (match devices with inr l => Some l | inl _ => None end)
  end.
Definition mapping_inventory : ctl (option (list PCIResourceMapping)) :=
  mappings ← ctry (pve_ PMappings);
  mret (match mappings with inr l => Some l | inl _ => None end).

Definition platformConfig (builder_available : bool) (session : Session) : ctl platform_view :=
  censure (is_admin session) permission_denied;;
  images ← listing (fun _ => ImageProfiles);
  profiles ← listing (fun _ => GPUProfiles);
  builds ← listing (fun _ => JobsByOperation "image.build" 20);
  devices ← (if has_pve then device_inventory else mret None);
  mappings ← (if has_pve then mapping_inventory else mret None);
  mret (MkPlatformView images profiles (default [] devices) (default [] mappings) (given devices) (given mappings) builder_available builds).

(** ** GPU profiles *)
Context `{UnicodeFold}.

Definition gpuProfileAssignable (p : GPUProfile) : ctl bool :=
  if gp_mode p == "none" then mret true
  else if gp_resource_mapping p == "" then mret false
  else
    summary ← pve_ PSummary;
    devices ← pve_ (PDevices (online_nodes summary));
    mappings ← pve_ PMappings;
    mret (existsb (fun node => gpuPlacementAvailable p node mappings devices) (online_nodes summary)).

Record gpu_update : Set := MkGPUUpdate { gu_display_name : option string; gu_resource_mapping : option string; gu_enabled : option bool }.
Definition gpu_fields : list string := ["display_name"; "resource_mapping"; "enabled"].
Definition read_gpu (l : list (string * json)) : option gpu_update :=
  name ← field gpu_fields (store_ptr store_string "") None "display_name" l;
  mapping ← field gpu_fields (store_ptr store_string "") None "resource_mapping" l;
  enabled ← bool_field gpu_fields l "enabled"; Some (MkGPUUpdate name mapping enabled).

Definition apply_gpu (p : GPUProfile) (r : gpu_update) : GPUProfile :=
  p <| gp_display_name := trimmed (gp_display_name p) (gu_display_name r); gp_resource_mapping := trimmed (gp_resource_mapping p) (gu_resource_mapping r);
       gp_enabled := default (gp_enabled p) (gu_enabled r) |>.
Definition gpu_ok (p : GPUProfile) : bool :=
  negb ((gp_display_name p == "") || (80 <? slen (gp_display_name p))) &&
  negb ((gp_id p == "none") && negb (gp_enabled p)) &&
  negb ((gp_id p != "none") && (gp_resource_mapping p != "") && negb (mapping_pattern (gp_resource_mapping p))).

Definition updateGPUProfile (q : web_request) (session : Session) : ctl GPUProfile :=
  admin_request session (wq_csrf q) (
  profile ← replies (store_ (OpGPUProfile (path_value q "id"))) (Some (404, "gpu_profile_not_found")) None;
  request ← csome (decodeJSON gpu_fields read_gpu (MkGPUUpdate None None None) q) bad_request;
  let profile := apply_gpu profile request in
  censure (gpu_ok profile) (EReply 422 "invalid_gpu_profile");;
  (if default false (gu_enabled request) && (gp_id profile != "none") then
     censure has_pve (EReply 503 "pve_not_configured");;
     assignable ← reply_on (gpuProfileAssignable profile) 502 "pve_unavailable";
     censure assignable (EReply 409 "gpu_unavailable")
   else mret tt);;
  updated ← reply_on (store_ (OpUpdateGPUProfile profile)) 500 "internal_error";
  auditRequest (wq_from q) (actor session) "gpu_profile.updated" "gpu_profile" (gp_id profile) [("enabled", JBool (gp_enabled profile))];;
  mret updated).

(** ** PCI resource mappings *)
Record pciResourceMappingRequest : Set := MkMappingRequest {
  mr_id : string;
  mr_description : string;
  mr_mdev : bool;
  mr_entries : list (string * string)      (* node and device *)
}.
Definition mapping_request_fields : list string := ["id"; "description"; "mdev"; "entries"].
Definition entry_fields : list string := ["node"; "device_id"].
Definition store_entry (old : string * string) (v : json) : option (string * string) :=
  store_struct (fun old l =>
    if known_fields entry_fields l then
      node ← field entry_fields store_string (fst old) "node" l; device ← field entry_fields store_string (snd old) "device_id" l; Some (node, device)
    else None) old v.
Definition read_mapping (l : list (string * json)) : option pciResourceMappingRequest :=
  id ← text_field mapping_request_fields l "id"; description ← text_field mapping_request_fields l "description";
  mdev ← field mapping_request_fields store_bool false "mdev" l;
  entries ← field mapping_request_fields (store_slice store_entry ("", "")) [] "entries" l;
  Some (MkMappingRequest id description mdev entries).

Definition decodePCIResourceMappingRequest (q : web_request) (session : Session) : ctl pciResourceMappingRequest :=
  censure (is_admin session) permission_denied;;
  censure (ConstantTimeEqual (wq_csrf q) (CSRFToken session)) (EReply 403 "invalid_csrf_token");;
  censure has_pve (EReply 503 "pve_not_configured");;
  body ← csome (decodeJSON mapping_request_fields read_mapping (MkMappingRequest "" "" false []) q) bad_request;
  mret (MkMappingRequest (TrimSpace (mr_id body)) (TrimSpace (mr_description body)) (mr_mdev body) (mr_entries body)).

(** [online[node]]: the last node of the name decides. *)
Definition node_online (summary : Summary) (node : string) : bool :=
  match map_find node (List.map (fun n => (pn_name n, pn_status n == "online")) (sm_nodes summary)) with Some b => b | None => false end.

Fixpoint first_occurrences (seen : list string) (l : list string) : list string :=
  match l with
  | [] => []
  | x :: l' => if bool_decide (x ∈ seen) then first_occurrences seen l' else x :: first_occurrences (x :: seen) l'
  end.

Definition strip_0x (s : string) : string := trim_prefix "0x" (ToLower s).
Definition hardware_text (vendor device : string) : string := strip_0x vendor +:+ ":" +:+ strip_0x device.

Definition mappable (mdev : bool) (d : GPUDevice) : bool :=
  if mdev then gd_mdev_capable d else gd_assignable d && given (gd_iommu_group d).

Definition mapping_entry (node : string) (d : GPUDevice) : PCIResourceMappingEntry :=
  MkMappingEntry node (gd_id d) [gd_id d] (hardware_text (gd_vendor_id d) (gd_device_id d))
    (if (gd_subsystem_vendor_id d != "") && (gd_subsystem_device_id d != "")
     then hardware_text (gd_subsystem_vendor_id d) (gd_subsystem_device_id d) else "")
    (match gd_iommu_group d with Some g => itoa g | None => "" end).

Fixpoint mapping_entries (mdev : bool) (online : string -> bool) (devices : list GPUDevice) (seen : list string) (entries : list (string * string))
  : option (list PCIResourceMappingEntry) :=
  match entries with
  | [] => Some []
  | (node, device) :: rest =>
      let node := TrimSpace node in
      let device := ToLower (TrimSpace device) in
      let key := node +:+ String "000" device in
      if negb (online node) || bool_decide (key ∈ seen) then None else
      d ← List.find (fun d => (gd_node d == node) && EqualFold (gd_id d) device) devices;
      if negb (mappable mdev d) then None else
      l ← mapping_entries mdev online devices (key :: seen) rest;
      Some (mapping_entry node d :: l)
  end.
Definition buildPCIResourceMapping (r : pciResourceMappingRequest) (online : string -> bool) (devices : list GPUDevice) : option PCIResourceMapping :=
  l ← mapping_entries (mr_mdev r) online devices [] (mr_entries r);
  Some (MkMapping (mr_id r) (mr_description r) (mr_mdev r) l).

Definition resolvePCIResourceMapping (r : pciResourceMappingRequest) : ctl PCIResourceMapping :=
  censure (mapping_pattern (mr_id r) && (slen (mr_description r) <=? 256) && negb (Z.of_nat (length (mr_entries r)) =? 0) &&
           (Z.of_nat (length (mr_entries r)) <=? 64)) (EReply 422 "invalid_pci_resource_mapping");;
  summary ← reply_on (pve_ PSummary) 502 "pve_unavailable";
  censure (sm_writable summary) (EReply 409 "pve_mutations_disabled");;
  let nodes := first_occurrences [] (List.filter (node_online summary) (List.map fst (mr_entries r))) in
  censure (negb (bool_decide (nodes = []))) (EReply 409 "gpu_node_unavailable");;
  devices ← reply_on (pve_ (PDevices nodes)) 502 "pve_unavailable";
  csome (buildPCIResourceMapping r (node_online summary) devices) (EReply 409 "gpu_unavailable").

Definition audit_mapping (q : web_request) (session : Session) (event : string) (m : PCIResourceMapping) : ctl unit :=
  auditRequest (wq_from q) (actor session) event "pci_resource_mapping" (pm_id m) [("entries", number (Z.of_nat (length (pm_entries m))))].

Definition createPCIResourceMapping (q : web_request) (session : Session) : ctl PCIResourceMapping :=
  request ← decodePCIResourceMappingRequest q session;
  existing ← reply_on (pve_ PMappings) 502 "pve_unavailable";
  censure (forallb (fun m => pm_id m != mr_id request) existing) (EReply 409 "pci_resource_mapping_exists");;
  mapping ← resolvePCIResourceMapping request;
  reply_on (pve_ (PCreateMapping mapping)) 502 "pve_mutation_failed";;
  audit_mapping q session "pci_resource_mapping.created" mapping;;
  mret mapping.

Definition updatePCIResourceMapping (q : web_request) (session : Session) : ctl PCIResourceMapping :=
  body ← decodePCIResourceMappingRequest q session;
  let request := MkMappingRequest (TrimSpace (path_value q "id")) (mr_description body) (mr_mdev body) (mr_entries body) in
  existing ← reply_on (pve_ PMappings) 502 "pve_unavailable";
  censure (existsb (fun m => pm_id m == mr_id request) existing) (EReply 404 "pci_resource_mapping_not_found");;
  mapping ← resolvePCIResourceMapping request;
  reply_on (pve_ (PUpdateMapping mapping)) 502 "pve_mutation_failed";;
  audit_mapping q session "pci_resource_mapping.updated" mapping;;
  mret mapping.
End images.

(** ** Mappings of devices *)
Section mappings.
Context `{UnicodeLower} `{UnicodeFold}.

Definition requested (entry : string * string) : string * string := (TrimSpace (fst entry), ToLower (TrimSpace (snd entry))).

Lemma mapping_entries_sound mdev online devices seen entries l : mapping_entries mdev online devices seen entries = Some l ->
  Forall2 (fun entry e => exists d, In d devices /\ gd_node d = fst (requested entry) /\ EqualFold (gd_id d) (snd (requested entry)) = true /\
    mappable mdev d = true /\ online (gd_node d) = true /\ e = mapping_entry (gd_node d) d) entries l /\
  NoDup (List.map requested entries) /\
  forall key, key ∈ seen -> Forall (fun entry => fst (requested entry) +:+ String "000" (snd (requested entry)) <> key) entries.
Proof.
  revert seen l. induction entries as [| [node device] entries IH]; intros seen l Hl; cbn [mapping_entries] in Hl.
  - injection Hl as <-. split_and!; [constructor | constructor | by intros; constructor].
  - destruct (negb _ || _) eqn:Hg; [discriminate Hl |]. apply orb_false_iff in Hg as [Ho Hs]. apply negb_false_iff in Ho. apply bool_decide_eq_false in Hs.
    apply bind_Some in Hl as (d & Hd & Hl). destruct (negb (mappable mdev d)) eqn:Hm; [discriminate Hl |]. apply negb_false_iff in Hm.
    apply bind_Some in Hl as (rest & Hrest & [= <-]). destruct (IH _ _ Hrest) as (Hf & Hn & Hk). apply find_some in Hd as [Hin Hd].
    apply andb_true_iff in Hd as [Hnode Hfold]. apply bool_decide_eq_true in Hnode.
    split_and!.
    + constructor; [| done]. exists d. cbn. rewrite Hnode. split_and!; done.
    + constructor; [| done]. intros Hx. apply list_elem_of_In, in_map_iff in Hx as (entry & He & Hx).
      specialize (Hk _ (list_elem_of_here _ _)). rewrite Forall_forall in Hk. apply (Hk entry); [by apply list_elem_of_In |]. by rewrite He.
    + intros key Hkey. constructor; [cbn; intros <-; done |]. apply (Hk key). by apply list_elem_of_further.
Qed.

(** A mapping that is created or updated has, for each pair of node and
    device that was asked for, in order, exactly the entry of a device that PVE
    reported on that node, which is online, and which can be passed through (or
    split into mediated devices, when that was asked for); no pair occurs
    twice. *)
Theorem buildPCIResourceMapping_sound r online devices m (Hm : buildPCIResourceMapping r online devices = Some m) :
  pm_id m = mr_id r /\ pm_mdev m = mr_mdev r /\ NoDup (List.map requested (mr_entries r)) /\
  Forall2 (fun entry e => exists d, In d devices /\ gd_node d = fst (requested entry) /\ EqualFold (gd_id d) (snd (requested entry)) = true /\
    mappable (mr_mdev r) d = true /\ online (gd_node d) = true /\ e = mapping_entry (gd_node d) d) (mr_entries r) (pm_entries m).
Proof.
  unfold buildPCIResourceMapping in Hm. apply bind_Some in Hm as (l & Hl & [= <-]). by destruct (mapping_entries_sound _ _ _ _ _ _ Hl) as (Hf & Hn & _).
Qed.
End mappings.

Section witnesses.
#[local] Existing Instance demo_lower.
#[local] Instance eqb_fold : UnicodeFold := String.eqb.
Definition demo_gpu (node id : string) : GPUDevice := MkGPUDevice node id "0x10de" "0x2204" "" "" "0x030000" (Some 14) false [] true.
Definition demo_mapping_request : pciResourceMappingRequest := MkMappingRequest "gpu0" "" false [("pve1", "0000:01:00.0"); (" pve2", "0000:01:00.0")].
Definition demo_gpus : list GPUDevice := [demo_gpu "pve2" "0000:01:00.0"; demo_gpu "pve1" "0000:01:00.0"].

Lemma buildPCIResourceMapping_sound_witness : exists m, buildPCIResourceMapping demo_mapping_request (fun _ => true) demo_gpus = Some m /\ pm_id m = "gpu0".
Proof.
  eexists. split; [vm_compute; reflexivity |].
  edestruct (buildPCIResourceMapping_sound demo_mapping_request (fun _ => true) demo_gpus) as [Hid _]; [vm_compute; reflexivity |]. exact Hid.
Defined.
End witnesses.
