(* ===== verification/ControllerWeb.v ===== *)
(** * Who may change what ([Server.Handler])

    The routes of the browser and of the infrastructure provider with their
    guards, and the rule that every request follows: a change of the platform
    is asked for only after the store named, for the credential of this very
    request, an enabled administrator whose CSRF token the request carries.  A
    login route creates a session only for a user who proved who they are in
    this request. *)
From stdpp Require Import base strings list.
From Stdlib Require Import ZArith Lia Ascii.
From S2P Require Import Prelude GoStrings Auth Net Db Json Triggers StoreAccess StoreSession StoreConn StoreLease StoreAgent StoreNative StoreGateway GatewayTransport Computer Guest GuestAccount GuestSession ComputerWire GuestTransport StoreAudit StoreJobs StoreCatalog Pve Controller ControllerScripts PveClient ControllerNative ControllerAgent ControllerRules ControllerHttp ControllerConnect ControllerRecovery ControllerClone ControllerJobs ControllerLogin ControllerAdmin ControllerIdentity ImageBuilder ControllerImages.

Local Open Scope string_scope.
Local Open Scope list_scope.
Local Open Scope Z_scope.

#[export] Instance UserInfo_eq_dec : EqDecision UserInfo.
Proof. solve_decision. Defined.

(** ** The routes behind a web session *)

(** What the server was started with. *)
Record web_server : Type := MkWebServer {
  srv_has_pve : bool;
  srv_has_computer : bool;
  srv_builder_available : bool;
  srv_background : bytes;
  srv_principal : string;                  (* of the PVE client *)
  srv_sssd_oidc : bool;
  srv_windows_entra : bool;
  srv_format_time : time -> string;        (* the text of a time in JSON *)
  srv_float_text : string -> option string (* the text of a [float64] in JSON *)
}.

Definition void {A} (p : ctl A) : ctl unit := p ≫= fun _ => mret tt.

Definition recovery_fields : list string := ["database_revision"; "guest_revision"; "reason"].
Definition recovery_body (q : web_request) : option recovery_request :=
  decodeJSON recovery_fields (fun l =>
    database ← field recovery_fields store_int64 0 "database_revision" l; guest ← field recovery_fields store_int64 0 "guest_revision" l;
    reason ← text_field recovery_fields l "reason"; Some (MkRecoveryRequest database guest reason)) (MkRecoveryRequest 0 0 "") q.
Definition clone_recovery_fields : list string := ["upid"; "reason"].
Definition clone_recovery_body (q : web_request) : option (string * string) :=
  decodeJSON clone_recovery_fields (fun l =>
    upid ← text_field clone_recovery_fields l "upid"; reason ← text_field clone_recovery_fields l "reason"; Some (upid, reason)) ("", "") q.

Section routes.
Context `{Sha256} `{UnicodeLower} `{Collation} `{SqlLower} `{UnicodeFold} `{Argon2} `{UrlParser} (srv : web_server).

Definition web_routes : list (string * (web_request -> ctl unit)) :=
  let pve := srv_has_pve srv in
  let guarded {A} (handler : web_request -> Session -> ctl A) (q : web_request) : ctl unit := requireAuth q (fun session _ => void (handler q session)) in
  let tokened {A} (handler : web_request -> Session -> ctl A) (q : web_request) : ctl unit := requireCookieOrAPIToken q (fun session _ => void (handler q session)) in
  [("POST /api/v1/auth/logout", fun q => requireAuth q (fun session token => logout q session token));
   ("GET /api/v1/me", guarded (fun _ session => mret (me session)));
   ("PUT /api/v1/me/password", fun q => requireAuth q (fun session token => changeOwnPassword q session token));
   ("GET /api/v1/api-tokens", guarded (fun _ session => apiTokens session));
   ("POST /api/v1/api-tokens", guarded (createAPIToken (srv_format_time srv)));
   ("DELETE /api/v1/api-tokens/{id}", guarded deleteAPIToken);
   ("GET /api/v1/infrastructure", guarded (fun _ session => infrastructure pve session));
   ("GET /api/v1/platform-config", guarded (fun _ session => platformConfig pve (srv_builder_available srv) session));
   ("GET /api/v1/access-control", tokened (fun _ session => accessControl session));
   ("POST /api/v1/access-control/reconcile", guarded (reconcileAccessControl pve));
   ("POST /api/v1/users", guarded createLocalUser);
   ("PATCH /api/v1/users/{id}", guarded updateUser);
   ("PUT /api/v1/users/{id}/password", guarded resetUserPassword);
   ("POST /api/v1/agents", guarded createAgentPrincipal);
   ("PATCH /api/v1/agents/{id}", guarded updateAgentPrincipal);
   ("POST /api/v1/agents/{id}/token", guarded rotateAgentToken);
   ("PUT /api/v1/desktop-assignments/{subject_type}/{subject_id}/{vmid}", tokened putDesktopAssignment);
   ("DELETE /api/v1/desktop-assignments/{subject_type}/{subject_id}/{vmid}", tokened deleteDesktopAssignment);
   ("PUT /api/v1/managed-desktops/{vmid}/identity", guarded (updateManagedDesktopIdentity pve));
   ("POST /api/v1/managed-desktops/{vmid}/identity/reconcile",
      guarded (reconcileManagedDesktopIdentity (srv_sssd_oidc srv) (srv_windows_entra srv) pve));
   ("GET /api/v1/managed-desktops/{vmid}/native-recovery",
      guarded (fun q session => inspectNativeRecovery (srv_has_computer srv) (wq_from q) session (path_value q "vmid")));
   ("POST /api/v1/managed-desktops/{vmid}/native-recovery/{user_id}",
      guarded (fun q session => recoverNativeAccount (srv_has_computer srv) session (wq_csrf q) (path_value q "vmid") (path_value q "user_id") (recovery_body q)));
   ("PUT /api/v1/identity-profiles/{id}", guarded (putIdentityProfile (srv_float_text srv)));
   ("POST /api/v1/identity-groups", guarded createIdentityGroup);
   ("PATCH /api/v1/identity-groups/{id}", guarded updateIdentityGroup);
   ("PUT /api/v1/identity-groups/{id}/members/{user_id}", guarded putIdentityGroupMembership);
   ("DELETE /api/v1/identity-groups/{id}/members/{user_id}", guarded deleteIdentityGroupMembership);
   ("PATCH /api/v1/image-profiles/{id}", guarded (updateImageProfile pve));
   ("POST /api/v1/image-profiles/{id}/builds", guarded (startImageBuild pve (srv_builder_available srv)));
   ("PATCH /api/v1/gpu-profiles/{id}", guarded (updateGPUProfile pve));
   ("POST /api/v1/pci-resource-mappings", guarded (createPCIResourceMapping pve));
   ("PUT /api/v1/pci-resource-mappings/{id}", guarded (updatePCIResourceMapping pve));
   ("POST /api/v1/desktop-instances", guarded (fun q session => createDesktopInstance (srv_principal srv) (wq_from q) (wq_job q) session (wq_csrf q)));
   ("GET /api/v1/jobs", guarded jobs);
   ("GET /api/v1/jobs/{id}", guarded (fun q session => job_ session (path_value q "id")));
   ("GET /api/v1/jobs/{id}/clone-inspection", guarded (fun q session => inspectCloneTarget (wq_from q) session (path_value q "id")));
   ("GET /api/v1/jobs/{id}/clone-candidates", guarded (fun q session => cloneTaskCandidates (wq_from q) session (path_value q "id")));
   ("POST /api/v1/jobs/{id}/clone-recovery", guarded (fun q session => recoverCloneTask session (wq_csrf q) (path_value q "id") (clone_recovery_body q)));
   ("GET /api/v1/audit-events", guarded auditEvents);
   ("POST /api/v1/virtual-machines/{vmid}/actions/{action}",
      guarded (fun q session => changeVirtualMachinePower (wq_from q) (wq_job q) session (wq_csrf q) (path_value q "vmid") (path_value q "action")));
   ("GET /api/v1/virtual-machines/{vmid}/access-policy", guarded desktopAccessPolicy);
   ("PUT /api/v1/virtual-machines/{vmid}/access-policy", guarded (updateDesktopAccessPolicy (srv_background srv)))].
End routes.

(** ** What a question needs *)

(** [Change]: a change of the platform.  [Settle]: the writes with which a
    look at a job or a policy brings it up to date - the virtual hardware and
    the record of a cloned desktop, the end of the job, the default policy.
    [Assign]: what an API token may do too.  What is not listed is a change. *)
Inductive need : Set := Anyone | SignedIn | Administrator | Assign | Settle | Change.

Definition store_need {B} (q : store_op B) : need :=
  match q with
  | OpSession _ | OpAPISession _ | OpAudit _ _ _ _ _ => Anyone
  | OpImageReserved | OpUserAssigned _ => SignedIn
  | OpPutAssignment _ | OpDeleteAssignment _ _ _ => Assign
  | OpRead _ | OpJob _ | OpNativeAccountsForDesktop _ => Administrator
  | OpEnsurePolicy _ | OpCompleteJobTask _ _ _ _ | OpUpsertDesktop _ | OpQuarantineDesktop _ => Settle
  | _ => Change
  end.
Definition pve_need {B} (q : pve_op B) : need :=
  match q with
  | PSummary => SignedIn
  | PConfiguration _ _ | PTaskStatus _ _ | PInspectTask _ _ | PCloneLog _ _ | PCloneCandidates _ _ _ _ | PMappings | PDevices _ => Administrator
  | PConfigurePCI _ _ _ _ | PConfigureMDev _ _ _ _ _ | PConfigureDHCP _ _ _ => Settle
  | _ => Change
  end.
Definition event_need (e : happened) : need :=
  match e with
  | HStore q _ _ _ => store_need q
  | HPve q _ => pve_need q
  | HGuest _ (GInspectNative _) _ _ => Administrator
  | HGuest _ _ _ _ => Change
  | _ => Anyone
  end.

(** What settles this job: on its own target, and under its own task. *)
Definition settles (job : JobInfo) (e : happened) : bool :=
  match e with
  | HPve (PConfigurePCI node vmid _ _) _ | HPve (PConfigureMDev node vmid _ _ _) _ | HPve (PConfigureDHCP node vmid _) _ =>
      (node == TargetNode job) && (vmid =? TargetVMID job)
  | HStore (OpUpsertDesktop d) _ _ _ | HStore (OpQuarantineDesktop d) _ _ _ => VMID d =? TargetVMID job
  | HStore (OpCompleteJobTask id _ upid _) _ _ _ => (id == JobID job) && (upid == UPID job)
  | _ => false
  end.
(** PVE reported the task of the job as stopped. *)
Definition task_over (job : JobInfo) : happened -> bool :=
  pve_said (fun B op => match op with
    | PTaskStatus node upid => fun status => (node == TaskNode job) && (upid == UPID job) && (ts_status status == "stopped")
    | _ => fun _ => false
    end).

Section rule.
Context `{Sha256} `{Collation} `{UnicodeLower} `{Argon2} (q : web_request).

(** The store named a session for the cookie of the request. *)
Definition cookie_digest (d : bytes) : bool := match session_cookie q with Some c => d == TokenDigest c | None => false end.
Definition cookie_session (p : Session -> bool) : happened -> bool :=
  store_said (fun B op => match op with OpSession d => fun s => cookie_digest d && p s | _ => fun _ => false end).

(** It named one for the API token of the request. *)
Definition token_digest (d : bytes) : bool :=
  match ParseBearerToken (wq_authorization q) with Some t => has_prefix "vcwi_" t && (slen t <=? 512) && (d == TokenDigest t) | None => false end.
Definition token_session (p : Session -> bool) : happened -> bool :=
  store_said (fun B op => match op with OpAPISession d => fun r => token_digest d && match r with inr s => p s | inl _ => false end | _ => fun _ => false end).

Definition csrf_sent (s : Session) : bool := ConstantTimeEqual (wq_csrf q) (CSRFToken s).

Definition signed_in (tr : list happened) : bool := existsb (fun e => cookie_session (fun _ => true) e || token_session (fun _ => true) e) tr.
Definition administers (tr : list happened) : bool := existsb (fun e => cookie_session is_admin e || token_session is_admin e) tr.
Definition may_change (tr : list happened) : bool := existsb (cookie_session (fun s => is_admin s && csrf_sent s)) tr.
Definition may_assign (tr : list happened) : bool := may_change tr || existsb (token_session is_admin) tr.

Definition current_password (s : Session) : bool :=
  match decodeJSON password_fields read_passwords ("", "") q with
  | Some (current, _) => VerifyPassword (PasswordHash (SessionUser s)) current == Some true
  | None => false
  end.

(** The store named the job of the path, still running, PVE reported its task
    as stopped, and this write settles it; or the policy of the desktop in the
    path is put in place. *)
Definition follow_up (tr : list happened) (e : happened) : bool :=
  existsb (store_said (fun B op => match op with
    | OpJob id => fun job => (id == path_value q "id") && followed_job job && settles job e && existsb (task_over job) tr
    | _ => fun _ => false
    end)) tr ||
  match e with HStore (OpEnsurePolicy vmid) _ _ _ => Atoi (path_value q "vmid") == Some vmid | _ => false end.

(** The assignments of a user are read for that user. *)
Definition own_assignments (tr : list happened) (e : happened) : bool :=
  match e with
  | HStore (OpUserAssigned id) _ _ _ => administers tr || existsb (cookie_session (fun s => UserID (SessionUser s) == id)) tr
  | _ => true
  end.

(** The two changes that everyone makes for themselves. *)
Definition own_change (tr : list happened) (e : happened) : bool :=
  match e with
  | HStore (OpDeleteSession d) _ _ _ => cookie_digest d && existsb (cookie_session csrf_sent) tr
  | HStore (OpSetPassword user _ retained) _ _ _ =>
      cookie_digest retained && existsb (cookie_session (fun s => csrf_sent s && (UserID (SessionUser s) == user) && current_password s)) tr
  | _ => false
  end.

Definition web_permitted (tr : list happened) (e : happened) : bool :=
  match event_need e with
  | Anyone => true
  | SignedIn => signed_in tr && own_assignments tr e
  | Administrator => administers tr
  | Assign => may_assign tr
  | Settle => may_change tr || (existsb (cookie_session is_admin) tr && follow_up tr e)
  | Change => may_change tr || own_change tr e
  end.
End rule.

(** ** Logins *)
Section logins.
Context `{Sha256} `{Collation} `{UnicodeLower} `{Argon2} `{UrlParser} (setupToken groupsClaim nativeCallbackURL : string).

(** The routes that make sessions. *)
Definition login_routes : list (string * (web_request -> ctl unit)) :=
  [("POST /api/v1/setup/admin", fun q => void (createInitialAdmin setupToken q));
   ("POST /api/v1/auth/login", fun q => void (login q));
   ("GET /api/v1/auth/oidc/callback", fun q => void (oidcCallback groupsClaim nativeCallbackURL q));
   ("POST /api/v1/auth/native/login", fun q => void (nativeLogin q));
   ("POST /api/v1/auth/native/exchange", fun q => void (nativeExchange q))].

Context (q : web_request).

(** The account of the name in the request was read, and the password of the
    request verifies against its hash. *)
Definition by_password (user : UserInfo) : happened -> bool :=
  store_said (fun B op =>
    match op with
    | OpUserByUsername username => fun u =>
        (u == user) && may_use_password u &&
        match decodeJSON login_fields read_login ("", "") q with
        | Some (name, password) => (username == TrimSpace name) && (VerifyPassword (PasswordHash u) password == Some true)
        | None => false
        end
    | _ => fun _ => false
    end).

(** The first account was just created for the holder of the setup token. *)
Definition by_setup (user : UserInfo) : happened -> bool :=
  store_said (fun B op =>
    match op with
    | OpCreateInitialAdmin u => fun _ =>
        (u == user) &&
        match decodeJSON setup_fields read_setup (MkSetupBody "" "" "" "") q with
        | Some body => (setupToken != "") && ConstantTimeEqual (sb_token body) setupToken
        | None => false
        end
    | _ => fun _ => false
    end).

(** The browser holds the state, and the store had the request under it. *)
Definition state_consumed (nonce : string) : happened -> bool :=
  store_said (fun B op =>
    match op with
    | OpConsumeOIDCRequest d => fun r =>
        (d == TokenDigest (query_value q "state")) && (fst (fst r) == nonce) &&
        match requestCookie q workspaceOIDCStateCookie legacyOIDCStateCookie with Some c => ConstantTimeEqual c (query_value q "state") | None => false end
    | _ => fun _ => false
    end).

(** A verified token speaks of the subject and carries the nonce of the state. *)
Definition payload_says (subject : string) (p : Claims -> bool) (payload : string) : bool :=
  match v ← json_document payload; store_claims zero_claims v with
  | Some claims => (cm_subject claims == subject) && (subject != "") && p claims
  | None => false
  end.
Definition token_says (subject : string) (older : list happened) : happened -> bool :=
  pve_said (fun B op =>
    match op with
    | PVerifyIDToken _ => fun payload => payload_says subject (fun c => existsb (state_consumed (cm_nonce c)) older) payload
    | _ => fun _ => false
    end).

(** The account of that subject, enabled. *)
Definition by_oidc (p : UserInfo -> bool) (tr : list happened) : happened -> bool :=
  store_said (fun B op =>
    match op with
    | OpResolveOIDCUser provider subject _ => fun u =>
        p u && negb (UserDisabled u) && (provider == ProviderID) && existsb (token_says subject tr) tr
    | _ => fun _ => false
    end).

(** The one-time code of the request was exchanged for the account. *)
Definition by_code (user : UserInfo) : happened -> bool :=
  store_said (fun B op =>
    match op with
    | OpConsumeAuthCode d => fun r =>
        match r with inr u => (u == user) && negb (UserDisabled u) | inl _ => false end &&
        match decodeJSON ["code"] (fun l => text_field ["code"] l "code") "" q with Some code => (code != "") && (d == TokenDigest code) | None => false end
    | _ => fun _ => false
    end).

Definition identified (user : UserInfo) (tr : list happened) : bool :=
  existsb (fun e => by_password user e || by_setup user e || by_oidc (fun u => u == user) tr e || by_code user e) tr.

Definition login_permitted (tr : list happened) (e : happened) : bool :=
  match e with
  | HStore (OpCreateSession _ user _ _) _ _ _ | HStore (OpCreateNativeSession _ user _) _ _ _ => identified user tr
  | HStore (OpCreateAuthCode _ userID _) _ _ _ => existsb (by_oidc (fun u => UserID u == userID) tr) tr
  | _ => true
  end.
End logins.
