(* ===== verification/ControllerWebProofs.v ===== *)
(** * Following the rules of the web

    Every route of [Server.Handler] behind a web session follows the rule of
    [ControllerWeb], and the login routes follow theirs ([ControllerRoutes]). *)
From stdpp Require Import base strings list.
From Stdlib Require Import ZArith Lia Ascii.
From S2P Require Import Prelude GoStrings GuestIdentity Auth Net Db Json Demo Triggers StoreAccess StoreSession StoreConn StoreLease StoreAgent StoreNative StoreGateway GatewayTransport Computer Guest GuestAccount GuestSession ComputerWire GuestTransport StoreAudit StoreJobs StoreCatalog Pve Controller ControllerScripts PveClient ControllerNative ControllerAgent ControllerRules ControllerMaintenance ControllerHttp ControllerConnect ControllerRecovery ControllerClone ControllerJobs ControllerJobsClaims ControllerLogin ControllerAdmin ControllerIdentity ImageBuilder ControllerImages ControllerWeb.

Local Open Scope string_scope.
Local Open Scope list_scope.
Local Open Scope Z_scope.

(** ** Tasks under a rule without sections *)
Definition grows (tr tr' : list happened) : Prop := exists new, tr' = new ++ tr.

Lemma grows_refl tr : grows tr tr.
Proof. by exists []. Qed.
Lemma grows_cons e tr : grows tr (e :: tr).
Proof. by exists [e]. Qed.
Lemma grows_trans a b c : grows a b -> grows b c -> grows a c.
Proof. intros [n ->] [m ->]. exists (m ++ n). by rewrite app_assoc. Qed.
#[export] Hint Resolve grows_refl grows_cons : core.

(** Evidence stays. *)
Lemma seen_later (p : happened -> bool) tr tr' : grows tr tr' -> existsb p tr = true -> existsb p tr' = true.
Proof. intros [new ->]. rewrite existsb_app. intros ->. by rewrite orb_true_r. Qed.

Section logic.
Context `{Sha256} `{Collation} `{UnicodeLower} (has_input : bool) (legacy_revoker : string) (rule : list happened -> happened -> bool).

Definition keeps {A} (tr : list happened) (p : ctl A) (Q : A -> list happened -> Prop) : Prop :=
  cwp has_input legacy_revoker rule (fun _ => True) p tr (fun r tr' => grows tr tr' /\ match r with inl _ => True | inr a => Q a tr' end).

Lemma keeps_ret {A} tr (a : A) (Q : A -> list happened -> Prop) : Q a tr -> keeps tr (mret a) Q.
Proof. by split. Qed.
Lemma keeps_fail {A} tr e (Q : A -> list happened -> Prop) : keeps tr (cfail e) Q.
Proof. by split. Qed.

Lemma keeps_mono {A} tr (p : ctl A) (P Q : A -> list happened -> Prop) :
  (forall a tr', grows tr tr' -> P a tr' -> Q a tr') -> keeps tr p P -> keeps tr p Q.
Proof. intros HPQ. apply cwp_mono. intros [e | a] tr' [Hf Hr]; split; auto. Qed.

Lemma keeps_bind {A B} tr (p : ctl A) (f : A -> ctl B) P Q :
  keeps tr p P -> (forall a tr', grows tr tr' -> P a tr' -> keeps tr' (f a) Q) -> keeps tr (p ≫= f) Q.
Proof.
  intros Hp Hf. apply cwp_bind. eapply cwp_mono; [| exact Hp]. intros [e | a] tr' [He Hr]; [done |].
  eapply cwp_mono; [| exact (Hf a tr' He Hr)]. intros r tr'' [He' Hr']. split; [by eapply grows_trans | done].
Qed.

Lemma keeps_ctry {A} tr (p : ctl A) P : keeps tr p P -> keeps tr (ctry p) (fun r t => match r with inl _ => True | inr a => P a t end).
Proof. intros Hp. apply cwp_ctry. exact Hp. Qed.

Lemma keeps_reply {A} tr (p : ctl A) P status code : keeps tr p P -> keeps tr (reply_on p status code) P.
Proof.
  intros Hp. unfold reply_on. eapply keeps_bind; [by apply keeps_ctry |]. intros [e | a] t Hf Ha; [apply keeps_fail | by apply keeps_ret].
Qed.

Lemma keeps_guard {B} tr ok e (f : unit -> ctl B) Q : (ok = true -> keeps tr (f tt) Q) -> keeps tr (censure ok e ≫= f) Q.
Proof. destruct ok; intros Hf; [exact (Hf eq_refl) | apply keeps_fail]. Qed.
Lemma keeps_some {A B} tr (o : option A) e (f : A -> ctl B) Q : (forall a, o = Some a -> keeps tr (f a) Q) -> keeps tr (csome o e ≫= f) Q.
Proof. destruct o as [a |]; intros Hf; [exact (Hf a eq_refl) | apply keeps_fail]. Qed.

Lemma keeps_store {B} tr (op : store_op B) (Q : B -> list happened -> Prop) :
  (forall cx s f, rule tr (HStore op cx s f) = true) ->
  (forall cx s f b, store_answer op cx s f = inr b -> Q b (HStore op cx s f :: tr)) -> keeps tr (store_ op) Q.
Proof.
  intros Hr HQ cx s f _. split; [apply Hr |]. split; [done |]. destruct (store_answer op cx s f) as [e | b] eqn:E; [done | by apply HQ].
Qed.
Lemma keeps_pve {B} tr (op : pve_op B) (Q : B -> list happened -> Prop) :
  (forall r, rule tr (HPve op r) = true) -> (forall b, Q b (HPve op (inr b) :: tr)) -> keeps tr (pve_ op) Q.
Proof. intros Hr HQ r. split; [apply Hr |]. split; [done |]. destruct r; [done | apply HQ]. Qed.

(** What holds whatever is asked. *)
Lemma keeps_any (I : list happened -> Prop) {A} (p : ctl A) tr :
  (forall t e, I t -> rule t e = true /\ I (e :: t)) -> I tr -> keeps tr p (fun _ _ => True).
Proof.
  intros HI Htr. unfold keeps. enough (forall t, I t -> grows tr t ->
    cwp has_input legacy_revoker rule (fun _ => True) p t (fun r tr' => grows tr tr' /\ match r with inl _ => True | inr _ => True end)) as Hall by by apply Hall.
  clear Htr. induction p as [r | B q k IH | B m q k IH | B q k IH | k IH | k IH | n k IH | d k IH | vmid k IH | vmid k IH]; simpl; intros t Ht Hf;
    [by destruct r | ..].
  1: intros cx s f _. 2: intros r ev _. 3-8: intros x. 
  all: edestruct HI as [Hr Hn]; [exact Ht |]; split; [exact Hr |]; apply IH; [exact Hn | eapply grows_trans; [exact Hf | done]].
Qed.

(** A task that asks only what [ok] allows, whatever happened before. *)
Definition within {A} (ok : happened -> bool) (p : ctl A) : Prop :=
  forall tr, cwp has_input legacy_revoker (fun _ e => ok e) (fun _ => True) p tr (fun _ _ => True).

Lemma keeps_within (I : list happened -> Prop) ok {A} (p : ctl A) tr :
  (forall t e, I t -> ok e = true -> rule t e = true) -> (forall t e, I t -> I (e :: t)) -> I tr -> within ok p -> keeps tr p (fun _ _ => True).
Proof.
  intros Hok HI Htr Hp. unfold keeps. enough (forall t, I t -> grows tr t ->
    cwp has_input legacy_revoker (fun _ e => ok e) (fun _ => True) p t (fun _ _ => True) ->
    cwp has_input legacy_revoker rule (fun _ => True) p t (fun r tr' => grows tr tr' /\ match r with inl _ => True | inr _ => True end)) as Hall
    by by apply Hall.
  clear Htr Hp. induction p as [r | B q k IH | B m q k IH | B q k IH | k IH | k IH | n k IH | d k IH | vmid k IH | vmid k IH]; simpl; intros t Ht Hf Hw;
    [by destruct r | ..].
  1: intros cx s f Hs; destruct (Hw cx s f Hs) as [Hr Hk]. 2: intros r ev Hp; destruct (Hw r ev Hp) as [Hr Hk].
  3-8: intros x; destruct (Hw x) as [Hr Hk]. 9: destruct Hw as [Hr Hk].
  all: split; [by apply Hok |]; apply IH; [by apply HI | eapply grows_trans; [exact Hf | done] | exact Hk].
Qed.
End logic.

(** ** What a task asks *)
Notation asking_only := within (only parsing).
Section within.
Context `{Sha256} `{Collation} `{UnicodeLower} (has_input : bool) (legacy_revoker : string) (ok : happened -> bool).
Notation within := (within has_input legacy_revoker ok).

Lemma within_ret {A} (a : A) : within (mret a).
Proof. done. Qed.
Lemma within_fail {A} e : within (@cfail A e).
Proof. done. Qed.
Lemma within_mono {A} (stricter : happened -> bool) (p : ctl A) :
  (forall e, stricter e = true -> ok e = true) -> asking_only has_input legacy_revoker stricter p -> within p.
Proof.
  intros Hok Hp tr. specialize (Hp tr). revert tr Hp.
  induction p as [r | B q k IH | B m q k IH | B q k IH | k IH | k IH | n k IH | d k IH | vmid k IH | vmid k IH]; simpl; intros tr Hw; [done | ..].
  1: intros cx s f Hs; destruct (Hw cx s f Hs) as [Hr Hk]. 2: intros r ev Hp; destruct (Hw r ev Hp) as [Hr Hk].
  3-8: intros x; destruct (Hw x) as [Hr Hk]. 9: destruct Hw as [Hr Hk].
  all: split; [by apply Hok | by apply IH].
Qed.
Lemma within_bind {A B} (p : ctl A) (f : A -> ctl B) : within p -> (forall a, within (f a)) -> within (p ≫= f).
Proof. intros Hp Hf tr. apply cwp_bind. eapply cwp_mono; [| exact (Hp tr)]. intros [e | a] t _; [done | apply Hf]. Qed.
Lemma within_ctry {A} (p : ctl A) : within p -> within (ctry p).
Proof. intros Hp tr. apply cwp_ctry. exact (Hp tr). Qed.
Lemma within_reply {A} (p : ctl A) status code : within p -> within (reply_on p status code).
Proof. intros Hp. unfold reply_on. apply within_bind; [by apply within_ctry |]. by intros [e | a]. Qed.
Lemma within_ignore {A} (p : ctl A) : within p -> within (cignore p).
Proof. intros Hp. unfold cignore. apply within_bind; [by apply within_ctry |]. done. Qed.
Lemma within_replies {A} (p : ctl A) notFound conflict : within p -> within (replies p notFound conflict).
Proof. intros Hp. unfold replies. apply within_bind; [by apply within_ctry |]. intros [[] | a]; try done. by destruct e. Qed.
Lemma within_guard b e : within (censure b e).
Proof. by destruct b. Qed.
Lemma within_some {A} (o : option A) e : within (csome o e).
Proof. by destruct o. Qed.
Lemma within_store {B} (q : store_op B) : (forall cx s f, ok (HStore q cx s f) = true) -> within (store_ q).
Proof. intros Hq tr cx s f _. split; [apply Hq | done]. Qed.
Lemma within_pve {B} (q : pve_op B) : (forall r, ok (HPve q r) = true) -> within (pve_ q).
Proof. intros Hq tr r. split; [apply Hq | done]. Qed.
Lemma within_guest {B} m (q : guest_op B) : (forall r ev, ok (HGuest m q r ev) = true) -> within (guest_ m q).
Proof. intros Hq tr r ev _. split; [apply Hq | done]. Qed.

Context (Hlock : forall vmid b, ok (HLock vmid b) = true) (Hunlock : forall vmid, ok (HUnlock vmid) = true) (Hnow : forall t, ok (HNow t) = true)
  (Hrandom : forall x, ok (HRandom x) = true) (Hcontext : forall x, ok (HContext x) = true).
Lemma within_now : within cnow.
Proof. intros tr x. split; [apply Hnow | done]. Qed.
Lemma within_context : within ccontext.
Proof. intros tr x. split; [apply Hcontext | done]. Qed.
Lemma within_random n : within (crandom n).
Proof. intros tr x. split; [apply Hrandom |]. by destruct x. Qed.
Lemma within_unlock {A} vmid (p : ctl A) : within p -> within (CUnlock vmid p).
Proof. intros Hp tr. split; [apply Hunlock | apply Hp]. Qed.
Lemma within_acquire vmid : within (AcquireDesktopControlLock vmid).
Proof. unfold AcquireDesktopControlLock. destruct (vmid <=? 0); [done |]. intros tr [|]; (split; [apply Hlock | done]). Qed.
Lemma within_locked {A} vmid busy (p : ctl A) : within p -> within (with_control_lock vmid busy p).
Proof.
  intros Hp. unfold with_control_lock. apply within_bind; [by apply within_reply, within_acquire |]. intros _.
  apply within_bind; [by apply within_ctry |]. intros r. by apply within_unlock.
Qed.
Lemma within_connection_lock {A} vmid (p : ctl A) : within p -> within (WithDesktopConnectionLock vmid p).
Proof.
  intros Hp. unfold WithDesktopConnectionLock. apply within_bind; [by apply within_acquire |]. intros _.
  apply within_bind; [by apply within_ctry |]. intros r. by apply within_unlock.
Qed.
End within.

Create HintDb asks.
#[export] Hint Resolve within_ret within_fail within_ctry within_reply within_replies within_ignore within_guard within_some within_store within_pve within_guest within_now
  within_context within_random within_locked within_connection_lock : asks.
#[export] Hint Extern 0 (_ = true) => reflexivity : asks.

(** Through a task, question by question. *)
Ltac asking :=
  repeat (cbv zeta; first
    [ solve [eauto 5 with asks nocore]
    | match goal with
      | |- within _ _ _ (_ ≫= _) => apply within_bind; [| intros ?]
      | |- within _ _ _ (match ?x with _ => _ end) => destruct x
      | |- within _ _ _ (ctry _) => apply within_ctry
      | |- within _ _ _ (cignore _) => apply within_ignore
      | |- within _ _ _ (reply_on _ _ _) => apply within_reply
      | |- within _ _ _ (with_control_lock _ _ _) => apply within_locked; [done.. |]
      | |- within _ _ _ (WithDesktopConnectionLock _ _) => apply within_connection_lock; [done.. |]
      end ]).

(** ** The handlers that only read *)

(** At most [Administrator]. *)
Definition reads (e : happened) : bool := match event_need e with Change | Assign | Settle => false | _ => true end.
(** The same, and what settles this job. *)
Definition for_job (job : JobInfo) (e : happened) : bool := reads e || settles job e.

Section readers.
Context `{Sha256} `{Collation} `{SqlLower} `{UnicodeLower} (has_input : bool) (legacy_revoker : string).
Notation within := (within has_input legacy_revoker).

Lemma asks_audit ok h actorID event kind target detail : (forall q cx s f, ok (HStore (OpAudit actorID event kind target q) cx s f) = true) ->
  within ok (auditRequest h actorID event kind target detail).
Proof. intros Hok. unfold auditRequest. apply within_ignore, within_store. intros. apply Hok. Qed.

Lemma asks_inventory ok : (forall r, ok (HPve PSummary r) = true) -> (forall cx s f, ok (HStore OpImageReserved cx s f) = true) -> within ok desktopInventory.
Proof. intros Hp Hs. unfold desktopInventory. apply within_bind; [by apply within_pve |]. intros summary. apply within_bind; [by apply within_store |]. done. Qed.
Lemma asks_machine ok vmid : (forall r, ok (HPve PSummary r) = true) -> (forall cx s f, ok (HStore OpImageReserved cx s f) = true) ->
  within ok (managedVirtualMachine vmid).
Proof. intros Hp Hs. unfold managedVirtualMachine. apply within_bind; [by apply asks_inventory |]. intros summary. by destruct (List.find _ _). Qed.
Lemma asks_listing {B} (query : time -> tx DB B) : within reads (listing query).
Proof. by apply within_reply, within_store. Qed.
Hint Resolve asks_audit asks_inventory asks_machine asks_listing : asks.

Lemma asks_access userID : within reads (writeAccessControl userID).
Proof. unfold writeAccessControl. asking. Qed.
Lemma asks_jobs q session : within reads (jobs q session).
Proof. unfold jobs. asking. Qed.
Lemma asks_audit_events q session : within reads (auditEvents q session).
Proof. unfold auditEvents. asking. Qed.
Lemma asks_tokens session : within reads (apiTokens session).
Proof. unfold apiTokens. asking. Qed.
Lemma asks_platform has_pve builder session : within reads (platformConfig has_pve builder session).
Proof. unfold platformConfig, device_inventory, mapping_inventory. asking. Qed.
Lemma asks_known vmid : within reads (known_machine vmid).
Proof. unfold known_machine. asking. Qed.
Hint Resolve asks_known : asks.

Lemma asks_observe job r : within reads (observeCloneTarget job r).
Proof. unfold observeCloneTarget. asking. Qed.
Hint Resolve asks_observe : asks.
Lemma asks_found id code status : within reads (found_job id code status).
Proof. unfold found_job. asking. Qed.
Hint Resolve asks_found : asks.
Lemma asks_clone_inspection h session id : within reads (inspectCloneTarget h session id).
Proof. unfold inspectCloneTarget. asking. Qed.
Lemma asks_candidates job principal l : within reads (inspect_candidates job principal l).
Proof.
  induction l as [| c l IH]; cbn [inspect_candidates]; [done |]. destruct (_ != _); [done |]. unfold inspect_candidate. asking.
Qed.
Hint Resolve asks_candidates : asks.
Lemma asks_clone_candidates h session id : within reads (cloneTaskCandidates h session id).
Proof. unfold cloneTaskCandidates. asking. Qed.

(** The settlement of a finished task. *)
Lemma asks_observe_for job r : within (for_job job) (observeCloneTarget job r).
Proof.
  apply (within_mono _ _ _ reads); [| apply asks_observe]. intros e He. unfold for_job. by rewrite He.
Qed.
Hint Resolve asks_observe_for : asks.
Hint Extern 1 (for_job _ _ = true) => solve [cbn; rewrite ?Z.eqb_refl, ?bool_decide_true by done; reflexivity] : asks.
Lemma asks_settled job status : within (for_job job) (settled_as job status).
Proof. unfold settled_as, publish_clone, requireCloneTarget, ensureCloneNetwork, configure_gpu, clone_os. asking. Qed.

Lemma asks_accounts has_computer m accounts : within reads (inspect_accounts has_computer m accounts).
Proof. induction accounts as [| a l IH]; cbn [inspect_accounts]; [done |]. unfold inspect_account, nativeLifecycle. asking. Qed.
Hint Resolve asks_accounts : asks.
Lemma asks_native_recovery has_computer h session vmid : within reads (inspectNativeRecovery has_computer h session vmid).
Proof. unfold inspectNativeRecovery, inspected_desktop. asking. Qed.

(** The inventory. *)
Definition looks (e : happened) : bool :=
  match e with HStore (OpUserAssigned _) _ _ _ => false | _ => match event_need e with Anyone | SignedIn => true | _ => false end end.
End readers.

(** ** Evidence of the request *)
Section evidence.
Context `{Sha256} `{Collation} `{UnicodeLower} `{Argon2} (has_input : bool) (legacy_revoker : string) (q : web_request).
Notation within := (within has_input legacy_revoker).
Notation keeps := (keeps has_input legacy_revoker (web_permitted q)).

Lemma change_is_signed tr : may_change q tr = true -> signed_in q tr = true.
Proof.
  unfold may_change, signed_in. rewrite !existsb_exists. intros (e & Hin & He). exists e. split; [done |]. apply orb_true_iff. left.
  unfold cookie_session, store_said in *. destruct e as [B op cx s f | | | | | | | |]; try done. destruct (store_answer op cx s f) as [| b]; [done |].
  destruct op; try done. apply andb_true_iff in He as [-> _]. done.
Qed.
Lemma administers_is_signed tr : administers q tr = true -> signed_in q tr = true.
Proof.
  unfold administers, signed_in. rewrite !existsb_exists. intros (e & Hin & He). exists e. split; [done |]. revert He.
  unfold cookie_session, token_session, store_said. destruct e as [B op cx s f | | | | | | | |]; try done.
  destruct (store_answer op cx s f) as [| b]; [done |]. destruct op; try done; cbn.
  - rewrite orb_false_r. intros Hd. apply andb_true_iff in Hd as [-> _]. done.
  - destruct b as [| s0]; [by rewrite andb_false_r |]. intros Hd. apply andb_true_iff in Hd as [-> _]. done.
Qed.
Lemma change_administers tr : may_change q tr = true -> administers q tr = true.
Proof.
  unfold may_change, administers. rewrite !existsb_exists. intros (e & Hin & He). exists e. split; [done |]. apply orb_true_iff. left.
  unfold cookie_session, store_said in *. destruct e as [B op cx s f | | | | | | | |]; try done. destruct (store_answer op cx s f) as [| b]; [done |].
  destruct op; try done. apply andb_true_iff in He as [-> He]. apply andb_true_iff in He as [-> _]. done.
Qed.

Lemma change_permits tr e : may_change q tr = true -> web_permitted q tr e = true.
Proof.
  intros Hm. unfold web_permitted. destruct (event_need e); [done | | by apply change_administers | unfold may_assign; by rewrite Hm | by rewrite Hm..].
  rewrite change_is_signed by done. unfold own_assignments. destruct e as [B op cx s f | | | | | | | |]; try done. destruct op; try done.
  by rewrite change_administers.
Qed.
Lemma may_change_later e tr : may_change q tr = true -> may_change q (e :: tr) = true.
Proof. by apply seen_later. Qed.

(** An administrator who sent the token may do all of it. *)
Lemma keeps_change {A} tr (p : ctl A) : may_change q tr = true -> keeps tr p (fun _ _ => True).
Proof.
  apply (keeps_any _ _ _ (fun t => may_change q t = true)). intros t e Ht. split; [by apply change_permits | by apply may_change_later].
Qed.

(** Without it, an administrator may read. *)
Lemma reads_permitted t e : administers q t = true -> reads e = true -> web_permitted q t e = true.
Proof.
  intros Ht. unfold reads, web_permitted. destruct (event_need e); try done. intros _. rewrite administers_is_signed by done.
  unfold own_assignments. destruct e as [B op cx s f | | | | | | | |]; try done. destruct op; try done. by rewrite Ht.
Qed.
Lemma keeps_reads {A} tr (p : ctl A) : administers q tr = true -> within reads p -> keeps tr p (fun _ _ => True).
Proof.
  intros Ha. apply (keeps_within _ _ _ (fun t => administers q t = true)); [| intros t e; by apply seen_later | done].
  intros t e Ht. by apply reads_permitted.
Qed.
Lemma keeps_looks {A} tr (p : ctl A) : signed_in q tr = true -> within looks p -> keeps tr p (fun _ _ => True).
Proof.
  intros Ha. apply (keeps_within _ _ _ (fun t => signed_in q t = true)); [| intros t e; by apply seen_later | done].
  intros t e Ht. unfold looks, web_permitted. destruct e as [B op cx s f | B m g r ev | B op r | | | | | |]; try done.
  - destruct op; try done. intros _. cbn. by rewrite Ht.
  - by destruct g.
  - destruct op; try done. intros _. cbn. by rewrite Ht.
Qed.

Lemma keeps_void {A} tr (p : ctl A) : keeps tr p (fun _ _ => True) -> keeps tr (void p) (fun _ _ => True).
Proof. intros Hp. unfold void. eapply keeps_bind; [exact Hp |]. intros. by apply keeps_ret. Qed.

(** ** The guards *)

(** The store named this session for the cookie. *)
Definition named (s : Session) (tr : list happened) : Prop :=
  AuthKind s = "web" /\ forall p, p s = true -> existsb (cookie_session q p) tr = true.

Lemma web_session_kind d cx s f session : store_answer (OpSession d) cx s f = inr session -> AuthKind session = "web".
Proof.
  destruct f; try done. unfold store_answer. cbn [perform]. unfold SessionByToken. unfold mbind, tx_bind. cbn.
  destruct (web_session_row (cx_now cx) s d) as [[w u] |]; cbn; [| done]. by intros [= <-].
Qed.

Lemma named_later s tr tr' : grows tr tr' -> named s tr -> named s tr'.
Proof. intros Hf [Hk Hp]. split; [done |]. intros p Hs. eapply seen_later; [done | by apply Hp]. Qed.
Lemma named_change s tr : named s tr -> is_admin s = true -> csrf_sent q s = true -> may_change q tr = true.
Proof. intros [_ Hn] Ha Hc. apply Hn. by rewrite Ha, Hc. Qed.
Lemma named_administers s tr : named s tr -> is_admin s = true -> administers q tr = true.
Proof.
  intros [_ Hn] Ha. specialize (Hn is_admin Ha). unfold administers. apply existsb_exists in Hn as (e & Hin & He). apply existsb_exists. exists e. by rewrite He.
Qed.
Lemma named_signed s tr : named s tr -> signed_in q tr = true.
Proof.
  intros [_ Hn]. specialize (Hn (fun _ => true) eq_refl). unfold signed_in. apply existsb_exists in Hn as (e & Hin & He). apply existsb_exists. exists e. by rewrite He.
Qed.

Lemma require_auth_keeps {A} tr (next : Session -> string -> ctl A) :
  (forall s c t, session_cookie q = Some c -> named s t -> keeps t (next s c) (fun _ _ => True)) -> keeps tr (requireAuth q next) (fun _ _ => True).
Proof.
  intros Hnext. unfold requireAuth. apply keeps_some. intros c Hc.
  eapply keeps_bind; [apply (keeps_reply _ _ _ _ _ (fun s t => named s t)), keeps_store |].
  - done.
  - intros cx s f session E. split; [by eapply web_session_kind |]. intros p Hp. cbn -[store_answer]. unfold cookie_session at 1, store_said. rewrite E, Hp.
    unfold cookie_digest. rewrite Hc. by rewrite bool_decide_true.
  - intros s t _ Hs. by apply Hnext.
Qed.

(** The session of an API token is the token's owner's. *)
Definition token_named (s : Session) (tr : list happened) : Prop := forall p, p s = true -> existsb (token_session q p) tr = true.

Lemma tokened_keeps {A} tr (next : Session -> string -> ctl A) :
  (forall s c t, named s t -> keeps t (next s c) (fun _ _ => True)) ->
  (forall s c t, token_named s t -> keeps t (next s c) (fun _ _ => True)) -> keeps tr (requireCookieOrAPIToken q next) (fun _ _ => True).
Proof.
  intros Hw Ht. unfold requireCookieOrAPIToken. destruct (ParseBearerToken (wq_authorization q)) as [provided |] eqn:Ep; [| apply require_auth_keeps; auto].
  apply keeps_guard. intros Hg. apply negb_true_iff, orb_false_iff in Hg as [Hp Hl]. apply negb_false_iff in Hp.
  eapply keeps_bind; [apply (keeps_reply _ _ _ _ _ (fun s t => token_named s t)) |].
  - unfold store_result. eapply keeps_bind; [apply (keeps_store _ _ _ _ _ (fun r t => match r with inr s => token_named s t | inl _ => True end)) |].
    + done.
    + intros cx s f [e | session] E; [done |]. intros p Hs. cbn -[store_answer]. unfold token_session at 1, store_said. rewrite E, Hs.
      unfold token_digest. rewrite Ep, Hp, bool_decide_true by done. apply Z.ltb_ge in Hl. apply Z.leb_le in Hl. by rewrite Hl.
    + intros [e | s] t _ Hs; [apply keeps_fail | by apply keeps_ret].
  - intros s t _ Hs. by apply Ht.
Qed.

(** Behind each of the gates the request may change the platform. *)
Lemma admin_mutation_keeps {A} s tr (f : ctl A) : named s tr -> keeps tr (requireAdminMutation q s;; f) (fun _ _ => True).
Proof.
  intros Hn. unfold requireAdminMutation. apply (keeps_bind _ _ _ _ _ _ (fun _ t => may_change q t = true)).
  - apply keeps_guard. intros Ha. destruct (_ || _) eqn:Hc; [| apply keeps_fail]. apply keeps_ret. destruct Hn as [Hk Hn]. rewrite Hk in Hc. cbn in Hc.
    by apply (named_change s).
  - intros _ t _ Hm. by apply keeps_change.
Qed.
Lemma web_mutation_keeps {A} s tr (f : ctl A) : (csrf_sent q s = true -> keeps tr f (fun _ _ => True)) ->
  keeps tr (requireWebMutation q s;; f) (fun _ _ => True).
Proof.
  intros Hf. unfold requireWebMutation. destruct (AuthKind s == "web"); [| apply keeps_fail]. cbn [censure]. fold (csrf_sent q s).
  destruct (csrf_sent q s) eqn:Hc; [by apply Hf | apply keeps_fail].
Qed.
Lemma web_admin_keeps {A} s tr (f : ctl A) : named s tr -> keeps tr (requireWebAdminMutation q s;; f) (fun _ _ => True).
Proof.
  intros Hn. unfold requireWebAdminMutation. destruct (is_admin s) eqn:Ha; [| apply keeps_fail].
  apply (web_mutation_keeps s). intros Hc. by apply keeps_change, (named_change s).
Qed.
Lemma admin_request_keeps {A} s tr (f : ctl A) : named s tr -> keeps tr (admin_request s (wq_csrf q) f) (fun _ _ => True).
Proof. intros Hn. unfold admin_request. do 2 (apply keeps_guard; intros ?). by apply keeps_change, (named_change s). Qed.
Lemma admin_reads_keeps {A} s tr (p : ctl A) e : named s tr -> within reads p -> keeps tr (censure (is_admin s) e;; p) (fun _ _ => True).
Proof. intros Hn Hp. apply keeps_guard. intros Ha. apply keeps_reads; [by apply (named_administers s) | done]. Qed.

(** ** A job that is looked at *)

(** The question for the job of the path was answered with this job. *)
Definition job_said (job : JobInfo) (tr : list happened) : Prop :=
  exists cx s f, In (HStore (OpJob (path_value q "id")) cx s f) tr /\ store_answer (OpJob (path_value q "id")) cx s f = inr job.

Lemma job_said_later job tr tr' : grows tr tr' -> job_said job tr -> job_said job tr'.
Proof. intros [new ->] (cx & s & f & Hin & Ha). exists cx, s, f. split; [| done]. apply in_app_iff. by right. Qed.

Lemma job_key id cx s f job : store_answer (OpJob id) cx s f = inr job -> JobID job = id.
Proof.
  destruct f; try done. cbn [store_answer perform]. unfold JobByID, jobByQuery. unfold mbind, tx_bind. cbn.
  destruct (select_one _ _) as [row |] eqn:Es; cbn; [| done]. apply select_one_some in Es as [_ Hk]. apply bool_decide_eq_true in Hk. by intros [= <-].
Qed.

Lemma settles_permitted job t e : existsb (cookie_session q is_admin) t = true -> job_said job t -> followed_job job = true -> existsb (task_over job) t = true ->
  settles job e = true -> follow_up q t e = true.
Proof.
  intros _ (cx & s & f & Hin & Ha) Hf Ht He. unfold follow_up. apply orb_true_iff. left. apply existsb_exists.
  exists (HStore (OpJob (path_value q "id")) cx s f). split; [done |]. unfold store_said. rewrite Ha, Hf, He, Ht. by rewrite bool_decide_true.
Qed.

Lemma cookie_administers tr : existsb (cookie_session q is_admin) tr = true -> administers q tr = true.
Proof.
  intros Hc. apply existsb_exists in Hc as (e & Hin & He). unfold administers. apply existsb_exists. exists e. by rewrite He.
Qed.

Lemma keeps_for_job {A} tr job (p : ctl A) : existsb (cookie_session q is_admin) tr = true -> job_said job tr -> followed_job job = true ->
  existsb (task_over job) tr = true -> within (for_job job) p -> keeps tr p (fun _ _ => True).
Proof.
  intros Ha Hj Hf Ht.
  apply (keeps_within _ _ _ (fun t => existsb (cookie_session q is_admin) t = true /\ job_said job t /\ existsb (task_over job) t = true)); [| | done].
  - intros t e (Hat & Hjt & Htt) He. apply orb_true_iff in He as [He | He]; [apply reads_permitted; [by apply cookie_administers | done] |].
    pose proof (settles_permitted job t e Hat Hjt Hf Htt He) as Hup. unfold web_permitted. destruct e as [B op cx s f | | B op r | | | | | |]; try done.
    + destruct op; try done; cbn [event_need store_need]; by rewrite Hat, Hup, orb_true_r.
    + destruct op; try done; cbn [event_need pve_need]; by rewrite Hat, Hup, orb_true_r.
  - intros t e (Hat & Hjt & Htt). split_and!; [by apply (seen_later _ t) | by apply (job_said_later _ t) | by apply (seen_later _ t)].
Qed.

Lemma settle_keeps tr job : existsb (cookie_session q is_admin) tr = true -> job_said job tr -> followed_job job = true -> keeps tr (settle_job job) (fun _ _ => True).
Proof.
  intros Ha Hj Hf. unfold settle_job. apply (keeps_bind _ _ _ _ _ _ (fun status t => ts_status status = "stopped" -> existsb (task_over job) t = true)).
  { apply keeps_pve; [intros r; cbn; by apply cookie_administers |]. intros status Hs. cbn. by rewrite Hs, !bool_decide_true. }
  intros status t Ht Hs. destruct (ts_status status != "stopped") eqn:E; [by apply keeps_ret |]. apply negb_false_iff, bool_decide_eq_true in E.
  eapply (keeps_for_job _ job); [by eapply seen_later | by eapply job_said_later | done | auto |].
  apply within_bind; [apply asks_settled |]. intros [state message]. apply within_bind; [| intros [|]].
  - apply within_store. intros. cbn. by rewrite !bool_decide_true.
  - apply within_bind; [| done]. by apply within_ignore, within_store.
  - done.
Qed.

Lemma lock_keeps {A} tr vmid (p : ctl A) : (forall t, grows tr t -> keeps t p (fun _ _ => True)) -> keeps tr (WithDesktopConnectionLock vmid p) (fun _ _ => True).
Proof.
  intros Hp. unfold WithDesktopConnectionLock. eapply (keeps_bind _ _ _ _ _ _ (fun _ _ => True)).
  { apply (keeps_within _ _ _ (fun _ => True) (fun e => match e with HLock _ _ => true | _ => false end)); [by intros t [] | done.. |]. by apply within_acquire. }
  intros _ t Ht _. eapply keeps_bind; [by apply keeps_ctry, Hp |]. intros r t' Ht' _. split; [done |]. destruct r; split; done.
Qed.

Lemma refresh_keeps tr : existsb (cookie_session q is_admin) tr = true -> keeps tr (refreshPVEJob (path_value q "id")) (fun _ _ => True).
Proof.
  intros Ha. assert (forall t, grows tr t -> keeps t (store_ (OpJob (path_value q "id"))) (fun job t' => job_said job t')) as Hask.
  { intros t Ht. apply keeps_store; [intros; cbn; apply cookie_administers; by eapply seen_later |]. intros cx s f job Hj. exists cx, s, f. by split; [left |]. }
  unfold refreshPVEJob. eapply keeps_bind; [by apply Hask |]. intros job t Ht Hj. destruct (followed_job job) eqn:Hf; [| by apply keeps_ret]. cbn [negb].
  destruct (bool_decide _); [| apply settle_keeps; [by eapply seen_later | done..]].
  apply lock_keeps. intros t1 Ht1. eapply keeps_bind; [apply Hask; by eapply grows_trans |]. intros job' t2 Ht2 Hj'. destruct (followed_job job') eqn:Hf'; [| by apply keeps_ret].
  apply settle_keeps; [| done..]. eapply seen_later; [| exact Ha]. eapply grows_trans; [exact Ht |]. by eapply grows_trans.
Qed.

Lemma job_keeps tr s : named s tr -> keeps tr (job_ s (path_value q "id")) (fun _ _ => True).
Proof.
  intros [_ Hn]. unfold job_. apply keeps_guard. intros Ha. specialize (Hn is_admin Ha).
  eapply (keeps_bind _ _ _ _ _ _ (fun job _ => JobID job = path_value q "id")).
  { unfold found_job. eapply keeps_bind; [apply keeps_ctry, (keeps_store _ _ _ _ _ (fun job _ => JobID job = path_value q "id")) |].
    - intros cx st f. cbn. by apply cookie_administers.
    - intros cx st f job Hj. by eapply job_key.
    - intros [e | job] t _ Hj; [destruct e as [[] | | | | | | | |]; apply keeps_fail | by apply keeps_ret]. }
  intros job t Ht Hk. destruct (negb _); [by apply keeps_ret |]. rewrite Hk.
  eapply keeps_bind; [apply keeps_ctry, refresh_keeps; by eapply seen_later |]. intros. by apply keeps_ret.
Qed.

(** A policy that is looked at is put in place. *)
Lemma policy_keeps tr s : named s tr -> keeps tr (desktopAccessPolicy q s) (fun _ _ => True).
Proof.
  intros [_ Hn]. unfold desktopAccessPolicy. apply keeps_guard. intros Ha. specialize (Hn is_admin Ha).
  eapply (keeps_bind _ _ _ _ _ _ (fun vmid _ => Atoi (path_value q "vmid") = Some vmid)).
  { unfold desktop_vmid. apply keeps_some. intros vmid Hv. apply keeps_guard. intros _. by apply keeps_ret. }
  intros vmid t Ht Hv. eapply keeps_bind; [apply keeps_reads; [apply cookie_administers; by eapply seen_later | apply asks_known] |].
  intros m t1 Ht1 _. assert (existsb (cookie_session q is_admin) t1 = true) as Ha1 by (eapply seen_later; [| exact Hn]; by eapply grows_trans).
  eapply (keeps_bind _ _ _ _ _ _ (fun _ _ => True)).
  { apply keeps_reply, keeps_store; [| done]. intros cx st f. unfold web_permitted. cbn [event_need store_need]. rewrite Ha1. unfold follow_up.
    by rewrite Hv, (bool_decide_true (Some vmid = Some vmid)), !orb_true_r. }
  intros policy t2 Ht2 _. apply keeps_reads; [apply cookie_administers; by eapply seen_later |]. asking.
Qed.

(** The inventory is for everyone who is signed in, with their own desktops. *)
Lemma infrastructure_keeps tr s has_pve : named s tr -> keeps tr (infrastructure has_pve s) (fun _ _ => True).
Proof.
  intros Hn. unfold infrastructure. apply keeps_guard. intros _.
  eapply (keeps_bind _ _ _ _ _ _ (fun _ _ => True)); [apply keeps_looks; [by apply (named_signed s) |]; apply within_ctry; by apply asks_inventory |].
  intros r t Ht _. eapply (keeps_bind _ _ _ _ _ _ (fun _ _ => True)).
  { apply keeps_looks; [eapply seen_later; [exact Ht | by apply (named_signed s)] |]. asking. }
  intros summary t1 Ht1 _. destruct (is_admin s); [by apply keeps_ret |].
  assert (named s t1) as Hn1 by (eapply named_later; [| exact Hn]; by eapply grows_trans).
  eapply (keeps_bind _ _ _ _ _ _ (fun _ _ => True)); [| intros; by apply keeps_ret].
  apply keeps_reply, keeps_store; [| done]. intros cx st f. unfold web_permitted. cbn [event_need store_need own_assignments].
  rewrite (named_signed s) by done. cbn [andb]. apply orb_true_iff. right. apply (proj2 Hn1). by apply bool_decide_eq_true.
Qed.
End evidence.
