(* ===== verification/ControllerRoutes.v ===== *)
(** * Only administrators change the platform

    Every route of [Server.Handler] behind a web session follows the rule of
    [ControllerWeb], whatever the store, PVE and the Guests answer; a login
    route makes a session only for a user who was identified. *)
From stdpp Require Import base strings list.
From Stdlib Require Import ZArith Lia Ascii.
From S2P Require Import Prelude GoStrings GuestIdentity Auth Net Db Json Demo Triggers StoreAccess StoreSession StoreConn StoreLease StoreAgent StoreNative StoreGateway GatewayTransport Computer Guest GuestAccount GuestSession ComputerWire GuestTransport StoreAudit StoreJobs StoreCatalog Pve Controller ControllerScripts PveClient ControllerNative ControllerAgent ControllerRules ControllerFacts ControllerMaintenance ControllerHttp ControllerConnect ControllerRecovery ControllerClone ControllerJobs ControllerJobsClaims ControllerLogin ControllerAdmin ControllerIdentity ImageBuilder ControllerImages ControllerWeb ControllerWebProofs.

Local Open Scope string_scope.
Local Open Scope list_scope.
Local Open Scope Z_scope.

(** ** The handlers *)
Section handlers.
Context `{Sha256} `{Collation} `{SqlLower} `{UnicodeLower} `{UnicodeFold} `{Argon2} `{UrlParser} (has_input : bool) (legacy_revoker : string) (q : web_request).
Notation within := (within has_input legacy_revoker).
Notation keeps := (keeps has_input legacy_revoker (web_permitted q)).
Notation keeps_all tr p := (keeps tr p (fun _ _ => True)).

Definition anyone (e : happened) : bool := match event_need e with Anyone => true | _ => false end.

Lemma keeps_anyone {A} tr (p : ctl A) : within anyone p -> keeps_all tr p.
Proof.
  apply (keeps_within _ _ _ (fun _ => True)); [| done..]. intros t e _. unfold anyone, web_permitted. by destruct (event_need e).
Qed.
Lemma keeps_audit tr h actorID event kind target detail : keeps_all tr (auditRequest h actorID event kind target detail).
Proof. apply keeps_anyone, asks_audit. done. Qed.

Lemma logout_keeps tr s c : session_cookie q = Some c -> named q s tr -> keeps_all tr (logout q s c).
Proof.
  intros Hc [_ Hn]. unfold logout. apply keeps_guard. intros Hs. apply (keeps_bind _ _ _ _ _ _ (fun _ _ => True)); [| intros; apply keeps_audit].
  apply keeps_reply, keeps_store; [| done]. intros cx st f. unfold web_permitted. apply orb_true_iff. right.
  cbn. apply andb_true_iff. split; [unfold cookie_digest; rewrite Hc; by apply bool_decide_eq_true | by apply Hn].
Qed.

Lemma own_password_keeps tr s c : session_cookie q = Some c -> named q s tr -> keeps_all tr (changeOwnPassword q s c).
Proof.
  intros Hc Hn. unfold changeOwnPassword. apply (web_mutation_keeps _ _ _ s). intros Hs. cbv zeta. apply keeps_guard. intros _.
  apply keeps_some. intros [current new] Hb. apply keeps_guard. intros _. apply keeps_some. intros valid Hv.
  apply (keeps_bind _ _ _ _ _ _ (fun _ _ => valid = true)).
  { destruct valid; [by apply keeps_ret |]. eapply keeps_bind; [apply keeps_audit | intros; apply keeps_fail]. }
  intros _ t Ht ->. apply keeps_some. intros unchanged _. apply keeps_guard. intros _.
  apply (keeps_bind _ _ _ _ _ _ (fun _ _ => True)); [apply keeps_anyone; unfold hash_password; asking |]. intros hash t' Ht' _.
  apply (keeps_bind _ _ _ _ _ _ (fun _ _ => True)); [| intros; apply keeps_audit].
  apply keeps_reply, keeps_store; [| done]. intros cx st f. unfold web_permitted. apply orb_true_iff. right.
  cbn. apply andb_true_iff. split; [unfold cookie_digest; rewrite Hc; by apply bool_decide_eq_true |].
  eapply (named_later q s), proj2 in Hn; [| eapply grows_trans; [exact Ht | exact Ht']]. apply Hn. rewrite Hs. cbn.
  rewrite bool_decide_true by done. unfold current_password. rewrite Hb, Hv. by apply bool_decide_eq_true.
Qed.

(** What an API token of an administrator may do. *)
Definition assigns (e : happened) : bool := match event_need e with Anyone | Assign => true | _ => false end.

Lemma assignment_keeps tr s assign : named q s tr \/ token_named q s tr -> keeps_all tr (changeDesktopAssignment q s assign).
Proof.
  intros [Hn | Hn]; [by apply (admin_mutation_keeps _ _ _ s) |]. unfold changeDesktopAssignment, requireAdminMutation.
  destruct (is_admin s) eqn:Ha; [| apply keeps_fail]. 
  apply (keeps_within _ _ _ (fun t => existsb (token_session q is_admin) t = true) assigns); [| intros t e; by apply seen_later | by apply Hn |].
  - intros t e Ht. unfold assigns, web_permitted. destruct (event_need e); try done. intros _. unfold may_assign. by rewrite Ht, orb_true_r.
  - cbn [censure]. unfold auditRequest. asking.
Qed.

Lemma access_keeps tr s : named q s tr \/ token_named q s tr -> keeps_all tr (accessControl s).
Proof.
  intros Hn. unfold accessControl. apply keeps_guard. intros Ha. apply keeps_reads; [| apply asks_access].
  destruct Hn as [Hn | Hn]; [by apply (named_administers q s) |]. specialize (Hn is_admin Ha). unfold administers.
  apply existsb_exists in Hn as (e & Hin & He). apply existsb_exists. exists e. by rewrite He, orb_true_r.
Qed.

Lemma mapping_keeps {A} tr s has_pve (f : pciResourceMappingRequest -> ctl A) : named q s tr -> keeps_all tr (decodePCIResourceMappingRequest has_pve q s ≫= f).
Proof.
  intros Hn. apply (keeps_bind _ _ _ _ _ _ (fun _ t => may_change q t = true)); [| intros ? t _ Hm; by apply keeps_change].
  unfold decodePCIResourceMappingRequest. apply keeps_guard. intros Ha. apply keeps_guard. intros Hc. apply keeps_guard. intros _.
  apply keeps_some. intros body _. apply keeps_ret. by apply (named_change q s).
Qed.

Lemma guarded_keeps {A} tr (handler : Session -> ctl A) : (forall s t, named q s t -> keeps_all t (handler s)) ->
  keeps_all tr (requireAuth q (fun session _ => void (handler session))).
Proof. intros Hh. apply require_auth_keeps. intros. by apply keeps_void, Hh. Qed.
Lemma tokened_handler_keeps {A} tr (handler : Session -> ctl A) : (forall s t, named q s t \/ token_named q s t -> keeps_all t (handler s)) ->
  keeps_all tr (requireCookieOrAPIToken q (fun session _ => void (handler session))).
Proof. intros Hh. apply tokened_keeps; intros; apply keeps_void, Hh; first [by left | by right]. Qed.

(** What only an administrator sees. *)
Lemma shown_keeps {A} tr s (p : ctl A) : named q s tr -> within reads p -> (is_admin s = false -> keeps_all tr p) -> keeps_all tr p.
Proof. intros Hn Hp Hf. destruct (is_admin s) eqn:Ha; [| by apply Hf]. apply keeps_reads; [by apply (named_administers q s) | done]. Qed.

Lemma recovery_keeps tr s has_computer vmid userID body : named q s tr ->
  keeps_all tr (recoverNativeAccount has_computer s (wq_csrf q) vmid userID body).
Proof. intros Hn. unfold recoverNativeAccount. do 2 (apply keeps_guard; intros ?). by apply keeps_change, (named_change q s). Qed.
Lemma clone_recovery_keeps tr s id body : named q s tr -> keeps_all tr (recoverCloneTask s (wq_csrf q) id body).
Proof.
  intros Hn. unfold recoverCloneTask. do 2 (apply keeps_guard; intros ?%andb_true_iff || intros ?). apply keeps_change, (named_change q s); tauto.
Qed.
Lemma audit_events_keeps tr s : named q s tr -> keeps_all tr (auditEvents q s).
Proof.
  intros Hn. apply (shown_keeps _ s); [done | apply asks_audit_events |]. intros Ha. unfold auditEvents. rewrite Ha.
  apply (keeps_bind _ _ _ _ _ _ (fun _ _ => False)); [| done]. eapply keeps_bind; [apply keeps_audit | intros; apply keeps_fail].
Qed.
#[local] Opaque cwp.

(** Past the gate of the handler. *)
Ltac head h := match h with ?f _ => head f | _ => h end.
Ltac gated s :=
  lazymatch goal with
  | |- keeps _ (requireAdminMutation _ _ ≫= _) _ => by apply (admin_mutation_keeps _ _ _ s)
  | |- keeps _ (requireWebAdminMutation _ _ ≫= _) _ => by apply (web_admin_keeps _ _ _ s)
  | |- keeps _ (admin_request _ _ _) _ => by apply (admin_request_keeps _ _ _ s)
  | |- keeps _ (decodePCIResourceMappingRequest _ _ _ ≫= _) _ => by apply mapping_keeps
  end.
(** Behind the question for the role, only reads. *)
Ltac shown s f :=
  apply (shown_keeps _ s); [done | | let Ha := fresh in intros Ha; unfold f; rewrite Ha; apply keeps_fail];
  first [apply asks_tokens | apply asks_platform | apply asks_native_recovery | apply asks_jobs | apply asks_clone_inspection
       | apply asks_clone_candidates].

Lemma routes_keep (srv : web_server) tr : Forall (fun route => keeps_all tr (snd route q)) (web_routes srv).
Proof.
  unfold web_routes. cbv zeta. repeat (apply Forall_cons; split); [.. | by apply Forall_nil]; cbn [snd].
  all: lazymatch goal with
    | |- context [logout] => apply require_auth_keeps; intros; by apply logout_keeps
    | |- context [changeOwnPassword] => apply require_auth_keeps; intros; by apply own_password_keeps
    | |- context [accessControl] => apply tokened_handler_keeps; intros; by apply access_keeps
    | |- context [requireCookieOrAPIToken] => apply tokened_handler_keeps; intros; by apply assignment_keeps
    | |- _ => apply guarded_keeps; intros s t Hn
    end.
  all: lazymatch goal with
    | |- context [mret (me _)] => by apply keeps_ret
    | |- context [infrastructure] => by apply infrastructure_keeps
    | |- context [recoverNativeAccount] => by apply recovery_keeps
    | |- context [recoverCloneTask] => by apply clone_recovery_keeps
    | |- context [auditEvents] => by apply audit_events_keeps
    | |- context [job_ _ _] => by apply job_keeps
    | |- context [desktopAccessPolicy] => by apply policy_keeps
    | |- keeps _ ?h _ => let f := head h in first [unfold f; gated s | shown s f]
    end.
Qed.
End handlers.

(** ** What the store knew *)
Lemma ConstantTimeEqual_eq left right : ConstantTimeEqual left right = true -> left = right.
Proof. unfold ConstantTimeEqual. destruct (negb _); [done |]. apply bool_decide_eq_true. Qed.

Section evidence.
Context `{Sha256} `{Collation} `{UnicodeLower} `{Argon2} (q : web_request).

(** The store was asked for the session cookie of the request, and its
    database had an unexpired session of it, of an enabled user. *)
Definition cookie_row (tr : list happened) (w : WebSession) (u : User) : Prop :=
  exists token cx s f, session_cookie q = Some token /\ In (HStore (OpSession (TokenDigest token)) cx s f) tr /\
    In w (web_sessions s) /\ ws_token_digest w = TokenDigest token /\ cx_now cx < ws_expires_at w /\
    In u (users s) /\ u_id u = ws_user_id w /\ u_disabled u = false.
(** The same for the API token of the request. *)
Definition token_row (tr : list happened) (t : APIToken) (u : User) : Prop :=
  exists token cx s f, ParseBearerToken (wq_authorization q) = Some token /\ In (HStore (OpAPISession (TokenDigest token)) cx s f) tr /\
    In t (api_tokens s) /\ at_token_digest t = TokenDigest token /\ cx_now cx < at_expires_at t /\
    In u (users s) /\ u_id u = at_user_id t /\ u_disabled u = false.

Definition row_session (w : WebSession) (u : User) : Session := MkSession (user_info u) (ws_csrf_token w) (ws_expires_at w) "web" "".
Definition token_session_of (t : APIToken) (u : User) : Session := MkSession (user_info u) "" (at_expires_at t) "api_token" (at_id t).

Lemma cookie_session_row p tr : existsb (cookie_session q p) tr = true -> exists w u, cookie_row tr w u /\ p (row_session w u) = true.
Proof.
  intros He. apply existsb_exists in He as (e & Hin & He). apply store_said_inv in He as (B & op & cx & s & f & b & -> & Ha & Hp).
  destruct op; try discriminate Hp. apply andb_true_iff in Hp as [Hd Hp]. unfold cookie_digest in Hd.
  destruct (session_cookie q) as [token |] eqn:Ec; [| discriminate Hd]. apply bool_decide_eq_true in Hd as ->.
  apply answered_inr in Ha as [s' Ha]. cbn [perform] in Ha. unfold SessionByToken in Ha. inv_tx.
  match goal with E : web_session_row _ _ _ = Some _ |- _ =>
    unfold web_session_row in E; apply bind_Some in E as (w & Hw & E); apply bind_Some in E as (u & Hu & [= <-]) end.
  apply select_one_some in Hw as [Hw Hx]. apply enabled_user_some in Hu as (Hu & Hi & Hd). apply andb_true_iff in Hx as [Hx Ht].
  apply bool_decide_eq_true in Hx. apply Z.ltb_lt in Ht. exists w, u. split; [| done]. by exists token, cx, s, f.
Qed.

Lemma token_session_row p tr : existsb (token_session q p) tr = true -> exists t u, token_row tr t u /\ p (token_session_of t u) = true.
Proof.
  intros He. apply existsb_exists in He as (e & Hin & He). apply store_said_inv in He as (B & op & cx & s & f & b & -> & Ha & Hp).
  destruct op; try discriminate Hp. apply andb_true_iff in Hp as [Hd Hp]. unfold token_digest in Hd.
  destruct (ParseBearerToken (wq_authorization q)) as [token |] eqn:Ec; [| discriminate Hd]. apply andb_true_iff in Hd as [_ Hd].
  apply bool_decide_eq_true in Hd as ->. destruct b as [e | session]; [discriminate Hp |].
  apply answered_inr in Ha as [s' Ha]. cbn [perform] in Ha. unfold SessionByAPIToken in Ha. inv_tx.
  match goal with E : match ?o with _ => _ end = inr _ |- _ => destruct o as [[t u] |] eqn:Eo; [| done]; injection E as <- end.
  apply bind_Some in Eo as (t' & Ht & Eo). apply bind_Some in Eo as (u' & Hu & [= <- <-]).
  apply select_one_some in Ht as [Ht Hx]. apply enabled_user_some in Hu as (Hu & Hi & Hd). apply andb_true_iff in Hx as [Hx He].
  apply bool_decide_eq_true in Hx. apply Z.ltb_lt in He. exists t', u'. split; [| done]. by exists token, cx, s, f.
Qed.

(** An administrator behind the cookie, with the CSRF token of the session. *)
Definition administrator_asked (tr : list happened) : Prop :=
  exists w u, cookie_row tr w u /\ u_role u = PlatformAdmin /\ wq_csrf q = ws_csrf_token w.
(** An administrator behind the API token. *)
Definition administrator_token (tr : list happened) : Prop := exists t u, token_row tr t u /\ u_role u = PlatformAdmin.

(** The end of the own session, or the own password by who knows the old one. *)
Definition own_request (tr : list happened) (e : happened) : Prop :=
  exists w u, cookie_row tr w u /\ wq_csrf q = ws_csrf_token w /\
    ((exists cx s f, e = HStore (OpDeleteSession (ws_token_digest w)) cx s f) \/
     exists hash cx s f current new, e = HStore (OpSetPassword (u_id u) hash (ws_token_digest w)) cx s f /\
       decodeJSON password_fields read_passwords ("", "") q = Some (current, new) /\
       VerifyPassword (default "" (u_password_hash u)) current = Some true).

Lemma may_change_asked tr : may_change q tr = true -> administrator_asked tr.
Proof.
  intros Hm. apply cookie_session_row in Hm as (w & u & Hr & Hp). apply andb_true_iff in Hp as [Ha Hc].
  exists w, u. split; [done |]. destruct (admin_checked _ _ Ha Hc). done.
Qed.
Lemma may_assign_asked tr : may_assign q tr = true -> administrator_asked tr \/ administrator_token tr.
Proof.
  intros Hm. apply orb_true_iff in Hm as [Hm | Hm]; [left; by apply may_change_asked |]. right.
  apply token_session_row in Hm as (t & u & Hr & Hp). exists t, u. split; [done |]. by apply bool_decide_eq_true in Hp.
Qed.
Lemma administers_asked tr : administers q tr = true -> (exists w u, cookie_row tr w u /\ u_role u = PlatformAdmin) \/ administrator_token tr.
Proof.
  unfold administers. intros Hm. apply existsb_exists in Hm as (e & Hin & He). apply orb_true_iff in He as [He | He].
  - left. destruct (cookie_session_row is_admin tr) as (w & u & Hr & Hp); [apply existsb_exists; by exists e |]. exists w, u. split; [done |].
    by apply bool_decide_eq_true in Hp.
  - right. destruct (token_session_row is_admin tr) as (t & u & Hr & Hp); [apply existsb_exists; by exists e |]. exists t, u. split; [done |].
    by apply bool_decide_eq_true in Hp.
Qed.
(** The session or the token of an enabled user. *)
Definition user_named (tr : list happened) (u : User) : Prop := (exists w, cookie_row tr w u) \/ exists t, token_row tr t u.

Lemma administers_named tr : administers q tr = true -> exists u, user_named tr u /\ u_role u = PlatformAdmin.
Proof.
  intros Hm. destruct (administers_asked tr Hm) as [(w & u & Hr & Hu) | (t & u & Hr & Hu)]; exists u; (split; [| done]); [left | right]; eauto.
Qed.
Lemma signed_in_named tr : signed_in q tr = true -> exists u, user_named tr u.
Proof.
  unfold signed_in. intros Hm. apply existsb_exists in Hm as (e & Hin & He). apply orb_true_iff in He as [He | He].
  - destruct (cookie_session_row (fun _ => true) tr) as (w & u & Hr & _); [apply existsb_exists; by exists e |]. exists u. left. by exists w.
  - destruct (token_session_row (fun _ => true) tr) as (t & u & Hr & _); [apply existsb_exists; by exists e |]. exists u. right. by exists t.
Qed.

(** An enabled administrator behind the cookie looked at a job or a policy.
    The store named the job of the path as running, PVE reported its task as
    stopped, and the write settles that job; or the write is the policy of the
    desktop of the path. *)
Definition settled_by_look (tr : list happened) (e : happened) : Prop :=
  (exists w u, cookie_row tr w u /\ u_role u = PlatformAdmin) /\
  ((exists job cx s f status, In (HStore (OpJob (path_value q "id")) cx s f) tr /\ store_answer (OpJob (path_value q "id")) cx s f = inr job /\
      followed_job job = true /\ In (HPve (PTaskStatus (TaskNode job) (UPID job)) (inr status)) tr /\ ts_status status = "stopped" /\
      settles job e = true) \/
   exists vmid cx s f, e = HStore (OpEnsurePolicy vmid) cx s f /\ Atoi (path_value q "vmid") = Some vmid).

Lemma follow_up_shown tr e : existsb (cookie_session q is_admin) tr = true -> follow_up q tr e = true -> settled_by_look tr e.
Proof.
  intros Ha Hf. split.
  { destruct (cookie_session_row is_admin tr Ha) as (w & u & Hr & Hp). exists w, u. split; [done |]. by apply bool_decide_eq_true in Hp. }
  apply orb_true_iff in Hf as [Hf | Hf].
  - left. apply existsb_exists in Hf as (x & Hin & Hx). apply store_said_inv in Hx as (B & op & cx & s & f & b & -> & Hans & Hp).
    destruct op; try discriminate Hp. rewrite !andb_true_iff in Hp. destruct Hp as [[[Hi Hf] He] Ht]. apply bool_decide_eq_true in Hi as ->.
    apply existsb_exists in Ht as (y & Hy & Ht). apply pve_said_inv in Ht as (C & pq & status & -> & Ht). destruct pq; try discriminate Ht.
    rewrite !andb_true_iff in Ht. destruct Ht as [[Hn Hu] Hs]. apply bool_decide_eq_true in Hn as ->, Hu as ->, Hs. by eexists b, cx, s, f, status.
  - right. destruct e as [B op cx s f | | | | | | | |]; try done. destruct op; try done. apply bool_decide_eq_true in Hf. by eexists _, cx, s, f.
Qed.

Lemma own_change_request tr e : own_change q tr e = true -> own_request tr e.
Proof.
  destruct e as [B op cx s f | | | | | | | |]; try done. destruct op; try done; cbn [own_change]; intros Ho; apply andb_true_iff in Ho as [Hd Ho];
    unfold cookie_digest in Hd; destruct (session_cookie q) as [token |] eqn:Ec; try discriminate Hd; apply bool_decide_eq_true in Hd as ->;
    apply cookie_session_row in Ho as (w & u & Hr & Hp); exists w, u; (split; [done |]);
    pose proof Hr as (token' & ? & ? & ? & Ec' & _ & _ & Ew & _); rewrite Ec in Ec'; injection Ec' as <-; rewrite Ew.
  - apply ConstantTimeEqual_eq in Hp. split; [done |]. left. by eexists _, _, _.
  - rewrite !andb_true_iff in Hp. destruct Hp as [[Hp Hu] Hc]. apply ConstantTimeEqual_eq in Hp. split; [done |]. right.
    apply bool_decide_eq_true in Hu. cbn in Hu. subst. unfold current_password in Hc.
    destruct (decodeJSON _ _ _ _) as [[current new] |] eqn:Eb; [| discriminate Hc]. apply bool_decide_eq_true in Hc.
    by eexists _, _, _, _, current, new.
Qed.
End evidence.

(** ** Logins *)
Section logins.
Context `{Sha256} `{Collation} `{UnicodeLower} `{Argon2} `{UrlParser} (has_input : bool) (legacy_revoker : string)
  (setupToken groupsClaim nativeCallbackURL : string) (q : web_request).
Notation within := (within has_input legacy_revoker).
Notation keeps := (keeps has_input legacy_revoker (login_permitted setupToken q)).
Notation keeps_all tr p := (keeps tr p (fun _ _ => True)).
Notation identified := (identified setupToken q).

(** Makes no session. *)
Definition quiet (e : happened) : bool :=
  match e with HStore (OpCreateSession _ _ _ _) _ _ _ | HStore (OpCreateNativeSession _ _ _) _ _ _ | HStore (OpCreateAuthCode _ _ _) _ _ _ => false | _ => true end.
Lemma quiet_permitted tr e : quiet e = true -> login_permitted setupToken q tr e = true.
Proof. destruct e as [B op cx s f | | | | | | | |]; try done. by destruct op. Qed.
Lemma keeps_quiet {A} tr (p : ctl A) : within quiet p -> keeps_all tr p.
Proof. apply (keeps_within _ _ _ (fun _ => True)); [| done..]. intros t e _. apply quiet_permitted. Qed.

(** The store answered just now. *)
Definition answers {B} (op : store_op B) (tr : list happened) (b : B) (t : list happened) : Prop :=
  exists cx s f, t = HStore op cx s f :: tr /\ store_answer op cx s f = inr b.
Lemma keeps_answer {B} tr (op : store_op B) : (forall cx s f, quiet (HStore op cx s f) = true) -> keeps tr (store_ op) (answers op tr).
Proof. intros Hq. apply keeps_store; [intros; by apply quiet_permitted |]. intros cx s f b Ha. by exists cx, s, f. Qed.

(** Evidence stays. *)
Lemma state_later tr tr' subject payload : grows tr tr' ->
  payload_says subject (fun c => existsb (state_consumed q (cm_nonce c)) tr) payload = true ->
  payload_says subject (fun c => existsb (state_consumed q (cm_nonce c)) tr') payload = true.
Proof.
  intros Hf. unfold payload_says. destruct (_ ≫= _) as [c |]; [| done]. rewrite !andb_true_iff. intros [Hs He]. split; [done |]. by eapply seen_later.
Qed.
Lemma by_oidc_later p tr tr' e : grows tr tr' -> by_oidc q p tr e = true -> by_oidc q p tr' e = true.
Proof.
  intros Hf. unfold by_oidc, store_said. destruct e as [B op cx s f | | | | | | | |]; try done. destruct (store_answer op cx s f) as [| b]; [done |].
  destruct op; try done. rewrite !andb_true_iff. intros [Hs He]. split; [done |]. eapply seen_later; [exact Hf |].
  apply existsb_exists in He as (x & Hin & Hx). apply existsb_exists. exists x. split; [done |]. revert Hx. unfold token_says, pve_said.
  destruct x as [| | C pq [| c] | | | | | |]; try done. destruct pq; try done. by apply state_later.
Qed.
Lemma identified_later user tr tr' : grows tr tr' -> identified user tr = true -> identified user tr' = true.
Proof.
  intros Hf Hi. unfold identified. eapply seen_later; [exact Hf |]. apply existsb_exists in Hi as (e & Hin & He). apply existsb_exists. exists e.
  split; [done |]. rewrite !orb_true_iff in He |- *. destruct He as [[[He | He] | He] | He]; auto. left. right. by eapply by_oidc_later.
Qed.

(** Makes no session but of this user. *)
Definition session_of (user : UserInfo) (e : happened) : bool :=
  match e with
  | HStore (OpCreateSession _ u _ _) _ _ _ | HStore (OpCreateNativeSession _ u _) _ _ _ => u == user
  | HStore (OpCreateAuthCode _ _ _) _ _ _ => false
  | _ => true
  end.
Lemma keeps_issue {A} tr user (p : ctl A) : identified user tr = true -> within (session_of user) p -> keeps_all tr p.
Proof.
  intros Hi. apply (keeps_within _ _ _ (fun t => identified user t = true)); [| intros t e; by apply identified_later | done].
  intros t e Ht. destruct e as [B op cx s f | | | | | | | |]; try done. destruct op; try done; by intros ->%bool_decide_eq_true.
Qed.

Lemma within_session user : within (session_of user) (issueSession user).
Proof.
  unfold issueSession. cbv zeta. do 3 (apply within_bind; [asking | intros ?]). apply within_bind; [| intros []; asking].
  apply within_ctry, within_store. intros. by apply bool_decide_eq_true.
Qed.
Lemma within_native_session user : within (session_of user) (issueNativeSession user).
Proof.
  unfold issueNativeSession. cbv zeta. do 2 (apply within_bind; [asking | intros ?]). apply within_bind; [| intros []; asking].
  apply within_ctry, within_store. intros. by apply bool_decide_eq_true.
Qed.
Lemma within_audit ok h actorID event kind target detail : (forall r cx s f, ok (HStore (OpAudit actorID event kind target r) cx s f) = true) ->
  within ok (auditRequest h actorID event kind target detail).
Proof. by apply asks_audit. Qed.

(** A session and its audit. *)
Lemma issued_keeps {A B} tr user (p : ctl A) (f : A -> ctl B) : identified user tr = true -> within (session_of user) p ->
  (forall a, within (session_of user) (f a)) -> keeps_all tr (p ≫= f).
Proof. intros Hi Hp Hf. apply (keeps_issue _ user); [done |]. by apply within_bind. Qed.

Lemma refused_keeps {A} tr h actorID event kind target detail e (Q : A -> list happened -> Prop) :
  keeps tr (auditRequest h actorID event kind target detail;; cfail e) Q.
Proof. eapply keeps_bind; [apply keeps_quiet; by apply within_audit |]. intros. apply keeps_fail. Qed.

(** The password of the request is that of the account. *)
Lemma by_password_identified name password user tr t : decodeJSON login_fields read_login ("", "") q = Some (name, password) ->
  answers (OpUserByUsername (TrimSpace name)) tr user t -> may_use_password user = true -> VerifyPassword (PasswordHash user) password = Some true ->
  identified user t = true.
Proof.
  intros Hb (cx & s & f & -> & Ha) Hm Hv. unfold identified. cbn [existsb]. apply orb_true_iff. left. rewrite !orb_true_iff. left. left. left.
  unfold by_password, store_said. rewrite Ha, Hb, Hm, Hv, !bool_decide_true by done. done.
Qed.

Lemma login_keeps tr : keeps_all tr (login q).
Proof.
  unfold login. apply keeps_some. intros [name password] Hb. cbv zeta.
  eapply keeps_bind; [apply keeps_ctry, keeps_answer; done |]. intros [e | user] t _ Ha; [apply refused_keeps |].
  destruct (may_use_password user) eqn:Hm; [| apply refused_keeps]. destruct (VerifyPassword _ _) as [[|] |] eqn:Hv; [| apply refused_keeps | apply keeps_fail].
  apply (issued_keeps _ user); [by eapply by_password_identified | apply within_session |].
  intros session. apply within_bind; [by apply within_audit | done].
Qed.
Lemma native_login_keeps tr : keeps_all tr (nativeLogin q).
Proof.
  unfold nativeLogin. apply keeps_some. intros [name password] Hb. cbv zeta.
  eapply keeps_bind; [apply keeps_ctry, keeps_answer; done |]. intros [e | user] t _ Ha; [apply refused_keeps |].
  destruct (may_use_password user) eqn:Hm; [| apply refused_keeps]. destruct (VerifyPassword _ _) as [[|] |] eqn:Hv; try apply refused_keeps.
  apply (issued_keeps _ user); [by eapply by_password_identified | apply within_native_session |].
  intros session. apply within_bind; [by apply within_audit | done].
Qed.

Lemma setup_keeps tr : keeps_all tr (createInitialAdmin setupToken q).
Proof.
  unfold createInitialAdmin. apply keeps_guard. intros Hs. apply keeps_some. intros body Hb.
  apply (keeps_bind _ _ _ _ _ _ (fun _ _ => ConstantTimeEqual (sb_token body) setupToken = true)).
  { destruct (ConstantTimeEqual _ _); [by apply keeps_ret |]. eapply keeps_bind; [apply keeps_quiet; by apply within_audit | intros; apply keeps_fail]. }
  intros _ t _ Ht. cbv zeta. apply keeps_guard. intros _. apply keeps_guard. intros _.
  eapply keeps_bind; [apply keeps_quiet; unfold hash_password; asking |]. intros hash t1 _ _.
  eapply keeps_bind; [apply keeps_quiet; asking |]. intros id t2 _ _.
  eapply keeps_bind; [apply keeps_ctry, keeps_answer; done |]. intros [e | u] t3 _ Ha.
  - destruct e as [[] | | | | | | | |]; first [apply keeps_fail | apply refused_keeps].
  - apply (keeps_issue _ (MkUserInfo (OpaqueToken id) (TrimSpace (sb_username body))
      (if TrimSpace (sb_display_name body) == "" then TrimSpace (sb_username body) else TrimSpace (sb_display_name body)) hash PlatformAdmin false 0)).
    + destruct Ha as (cx & s & f & -> & Ha). unfold identified. cbn [existsb]. apply orb_true_iff. left. rewrite !orb_true_iff. left. left. right.
      unfold by_setup, store_said. rewrite Ha, Hb, Hs, Ht, bool_decide_true by done. done.
    + apply within_bind; [by apply within_audit |]. intros _. apply within_session.
Qed.

Lemma exchange_keeps tr : keeps_all tr (nativeExchange q).
Proof.
  unfold nativeExchange. apply keeps_some. intros code Hb. apply keeps_guard. intros Hc. cbv zeta. unfold store_result.
  apply (keeps_bind _ _ _ _ _ _ (fun r t => match r with inr user => answers (OpConsumeAuthCode (TokenDigest code)) tr (inr user) t | inl _ => True end)).
  - apply keeps_ctry. eapply keeps_bind; [apply keeps_answer; done |]. intros [e | user] t _ Ha; [apply keeps_fail | by apply keeps_ret].
  - intros [e | user] t _ Ha; [apply refused_keeps |]. destruct (UserDisabled user) eqn:Hd; [apply refused_keeps |].
    apply (issued_keeps _ user); [| apply within_native_session | intros; apply within_bind; [by apply within_audit | done]].
    destruct Ha as (cx & s & f & -> & Ha). unfold identified. cbn [existsb]. apply orb_true_iff. left. rewrite !orb_true_iff. right.
    unfold by_code, store_said. rewrite Ha, Hb, Hd, Hc, !bool_decide_true by done. done.
Qed.

(** A verified token of the subject with this nonce. *)
Definition nonce_said (subject nonce : string) : happened -> bool :=
  pve_said (fun B op => match op with PVerifyIDToken _ => payload_says subject (fun c => cm_nonce c == nonce) | _ => fun _ => false end).

Lemma exchanged tr code verifier nonce :
  keeps tr (Exchange groupsClaim code verifier nonce) (fun claims t => existsb (nonce_said (cm_subject claims) nonce) t = true).
Proof.
  unfold Exchange. eapply keeps_bind; [apply keeps_quiet, within_pve; done |]. intros token t _ _. apply keeps_some. intros raw _. apply keeps_guard. intros _.
  eapply (keeps_bind _ _ _ _ _ _ (fun payload t => exists op older, t = HPve (PVerifyIDToken op) (inr payload) :: older));
    [apply keeps_pve; [done | intros payload; by eexists _, _] |].
  intros payload ? _ (op & older & ->). apply keeps_some. intros v Hv. apply keeps_some. intros claims Hc. apply keeps_guard. intros Hs.
  apply keeps_guard. intros Hn. do 2 (apply keeps_some; intros ? _). apply keeps_ret. cbn [cm_subject existsb]. apply orb_true_iff. left.
  cbn. unfold payload_says. rewrite Hv. cbn. by rewrite Hc, Hs, Hn, bool_decide_true.
Qed.

Lemma nonce_of_state subject nonce tr : existsb (nonce_said subject nonce) tr = true -> existsb (state_consumed q nonce) tr = true ->
  existsb (token_says q subject tr) tr = true.
Proof.
  intros Hs Hc. apply existsb_exists in Hs as (e & Hin & He). apply existsb_exists. exists e. split; [done |].
  apply pve_said_inv in He as (B & op & payload & -> & Hp). destruct op; try discriminate Hp. cbn. revert Hp. unfold payload_says.
  destruct (_ ≫= _) as [c |]; [| done]. rewrite !andb_true_iff. intros [Hs Hn]. apply bool_decide_eq_true in Hn. by rewrite Hn.
Qed.

(** The account of the subject was just resolved. *)
Lemma resolved_by (p : UserInfo -> bool) claims proposed user tr t : answers (OpResolveOIDCUser ProviderID (cm_subject claims) proposed) tr user t ->
  existsb (token_says q (cm_subject claims) tr) tr = true -> UserDisabled user = false -> p user = true -> existsb (by_oidc q p t) t = true.
Proof.
  intros (cx & s & f & -> & Ha) Ht Hd Hp. cbn [existsb]. apply orb_true_iff. left.
  apply (by_oidc_later _ tr); [done |]. unfold by_oidc, store_said. by rewrite Ha, Hp, Hd, Ht, bool_decide_true.
Qed.
Lemma by_oidc_extends p tr t : grows tr t -> existsb (by_oidc q p tr) tr = true -> existsb (by_oidc q p t) t = true.
Proof.
  intros Hf Ho. eapply seen_later; [exact Hf |]. apply existsb_exists in Ho as (e & Hin & He). apply existsb_exists. exists e. split; [done |].
  by eapply by_oidc_later.
Qed.

Lemma native_code_keeps tr user : existsb (by_oidc q (fun u => UserID u == UserID user) tr) tr = true ->
  keeps_all tr (finishNativeOIDC nativeCallbackURL user).
Proof.
  intros Ho. unfold finishNativeOIDC. apply keeps_some. intros callback _. apply keeps_guard. intros _.
  eapply keeps_bind; [apply keeps_quiet; asking |]. intros random t Ht _. cbv zeta.
  eapply keeps_bind; [apply keeps_quiet; asking |]. intros now t' Ht' _.
  apply (keeps_bind _ _ _ _ _ _ (fun _ _ => True)); [| intros; by apply keeps_ret]. apply keeps_reply. unfold store_result.
  apply (keeps_bind _ _ _ _ _ _ (fun _ _ => True)); [| intros [e | b] ? _ _; [apply keeps_fail | by apply keeps_ret]].
  apply keeps_store; [| done]. intros cx s f. cbn [login_permitted]. by apply (by_oidc_extends _ tr), Ho; eapply grows_trans.
Qed.

Lemma callback_keeps tr : keeps_all tr (oidcCallback groupsClaim nativeCallbackURL q).
Proof.
  unfold oidcCallback. cbv zeta.
  apply (keeps_bind _ _ _ _ _ _ (fun _ _ =>
    match requestCookie q workspaceOIDCStateCookie legacyOIDCStateCookie with Some c => ConstantTimeEqual c (query_value q "state") | None => false end = true)).
  { destruct (negb _ || _ || _) eqn:Hc; [apply refused_keeps |]. apply keeps_ret. apply orb_false_iff in Hc as [Hc _]. apply orb_false_iff in Hc as [Hc _]. by apply negb_false_iff in Hc. }
  intros _ t _ Hc. eapply keeps_bind; [apply keeps_ctry, keeps_answer; done |]. intros [e | [[nonce verifier] kind]] t1 _ Ha1; [apply refused_keeps |].
  assert (existsb (state_consumed q nonce) t1 = true) as Hs.
  { destruct Ha1 as (cx & s & f & -> & Ha). cbn [existsb]. apply orb_true_iff. left. unfold state_consumed, store_said.
    rewrite Ha, Hc, !bool_decide_true by done. done. }
  eapply keeps_bind; [apply keeps_ctry, exchanged |]. intros [e | claims] t2 Ht2 Hx; [apply refused_keeps |].
  assert (existsb (token_says q (cm_subject claims) t2) t2 = true) as Hsaid by (eapply nonce_of_state; [exact Hx | by eapply seen_later]).
  eapply keeps_bind; [apply keeps_quiet; asking |]. intros id t3 Ht3 _. cbv zeta.
  eapply keeps_bind; [apply keeps_ctry, keeps_answer; done |]. intros [e | user] t4 Ht4 Ha4; [apply refused_keeps |].
  destruct (UserDisabled user) eqn:Hd; [apply refused_keeps |].
  assert (forall p : UserInfo -> bool, p user = true -> existsb (by_oidc q p t4) t4 = true) as Hby.
  { intros p Hp. eapply resolved_by; [exact Ha4 | | done | done]. eapply nonce_of_state; eapply seen_later; [exact Ht3 | exact Hx | | exact Hs].
    by eapply grows_trans. }
  eapply keeps_bind; [apply keeps_quiet, within_ctry, within_store; done |]. intros [e | ?] t5 Ht5 _; [apply refused_keeps |].
  eapply keeps_bind; [apply keeps_quiet; by apply within_audit |]. intros _ t6 Ht6 _. pose proof (grows_trans _ _ _ Ht5 Ht6) as Hf.
  destruct (bool_decide (kind = "macos")).
  - apply native_code_keeps, (by_oidc_extends _ t4); [done |]. apply Hby. by apply bool_decide_eq_true.
  - apply (issued_keeps _ user); [| apply within_session | done]. apply (identified_later _ t4); [done |].
    specialize (Hby (fun u => u == user) ltac:(by apply bool_decide_eq_true)). unfold identified.
    apply existsb_exists in Hby as (e & Hin & He). apply existsb_exists. exists e. split; [done |]. by rewrite He, orb_true_r.
Qed.

Lemma login_routes_keep tr : Forall (fun route => keeps_all tr (snd route q)) (login_routes setupToken groupsClaim nativeCallbackURL).
Proof.
  unfold login_routes. repeat (apply Forall_cons; split); [.. | by apply Forall_nil]; cbn [snd]; unfold void.
  all: eapply keeps_bind; [| intros; by apply keeps_ret].
  - apply setup_keeps.
  - apply login_keeps.
  - apply callback_keeps.
  - apply native_login_keeps.
  - apply exchange_keeps.
Qed.
End logins.

(** ** Who a session is for *)
Section identity.
Context `{Sha256} `{Collation} `{UnicodeLower} `{Argon2} `{UrlParser} (setupToken : string) (q : web_request).

(** The answer of the store is in the history. *)
Definition learned {B} (tr : list happened) (op : store_op B) (s : DB) (b : B) : Prop :=
  exists cx f, In (HStore op cx s f) tr /\ store_answer op cx s f = inr b.

Definition password_shown (tr : list happened) (user : UserInfo) : Prop :=
  exists name password s, decodeJSON login_fields read_login ("", "") q = Some (name, password) /\
    learned tr (OpUserByUsername (TrimSpace name)) s user /\ UserDisabled user = false /\ PasswordHash user <> "" /\
    VerifyPassword (PasswordHash user) password = Some true.

(** The account is the first of all. *)
Definition setup_shown (tr : list happened) (user : UserInfo) : Prop :=
  exists body s, decodeJSON setup_fields read_setup (MkSetupBody "" "" "" "") q = Some body /\ setupToken <> "" /\ sb_token body = setupToken /\
    learned tr (OpCreateInitialAdmin user) s tt /\ users s = [].

(** The state that the browser holds was known and is spent, the verified token
    carries its nonce, and the user is the account of its subject. *)
Definition single_sign_on (tr : list happened) (user : UserInfo) : Prop :=
  exists state nonce verifier kind s0 raw payload v claims proposed s1,
    requestCookie q workspaceOIDCStateCookie legacyOIDCStateCookie = Some state /\ query_value q "state" = state /\
    learned tr (OpConsumeOIDCRequest (TokenDigest state)) s0 (nonce, verifier, kind) /\
    In (HPve (PVerifyIDToken raw) (inr payload)) tr /\ json_document payload = Some v /\ store_claims zero_claims v = Some claims /\
    cm_nonce claims = nonce /\ cm_subject claims <> "" /\
    learned tr (OpResolveOIDCUser ProviderID (cm_subject claims) proposed) s1 user /\ UserDisabled user = false.

Definition code_shown (tr : list happened) (user : UserInfo) : Prop :=
  exists code s, decodeJSON ["code"] (fun l => text_field ["code"] l "code") "" q = Some code /\ code <> "" /\
    learned tr (OpConsumeAuthCode (TokenDigest code)) s (inr user) /\ UserDisabled user = false.

Lemma by_password_shown user tr e : In e tr -> by_password q user e = true -> password_shown tr user.
Proof.
  intros Hin He. apply store_said_inv in He as (B & op & cx & s & f & b & -> & Ha & Hp). destruct op; try discriminate Hp.
  apply andb_true_iff in Hp as [Hu Hp]. apply andb_true_iff in Hu as [Hu Hm]. apply bool_decide_eq_true in Hu as ->.
  destruct (decodeJSON _ _ _ _) as [[name password] |] eqn:Eb; [| discriminate Hp]. apply andb_true_iff in Hp as [Hn Hv].
  apply bool_decide_eq_true in Hn, Hv. subst. apply negb_true_iff, orb_false_iff in Hm as [Hd Hh]. apply bool_decide_eq_false in Hh.
  exists name, password, s. split_and!; try done. by exists cx, f.
Qed.

Lemma by_setup_shown user tr e : In e tr -> by_setup setupToken q user e = true -> setup_shown tr user.
Proof.
  intros Hin He. apply store_said_inv in He as (B & op & cx & s & f & b & -> & Ha & Hp). destruct op; try discriminate Hp.
  apply andb_true_iff in Hp as [Hu Hp]. apply bool_decide_eq_true in Hu as ->. destruct b.
  destruct (decodeJSON _ _ _ _) as [body |] eqn:Eb; [| discriminate Hp]. apply andb_true_iff in Hp as [Hs Hc].
  apply negb_true_iff, bool_decide_eq_false in Hs. apply ConstantTimeEqual_eq in Hc. exists body, s. split_and!; try done; [by exists cx, f |].
  apply answered_inr in Ha as [s' Ha]. cbn [perform] in Ha. unfold CreateInitialAdmin, IsInitialized in Ha. inv_tx.
  destruct (users s); [done | discriminate].
Qed.

Lemma by_oidc_shown (p : UserInfo -> bool) tr : existsb (by_oidc q p tr) tr = true -> exists user, p user = true /\ single_sign_on tr user.
Proof.
  intros He. apply existsb_exists in He as (e & Hin & He). apply store_said_inv in He as (B & op & cx & s & f & b & -> & Ha & Hp).
  destruct op; try discriminate Hp. rewrite !andb_true_iff in Hp. destruct Hp as [[[Hp Hd] Hi] Ht]. apply bool_decide_eq_true in Hi as ->.
  apply negb_true_iff in Hd. exists b. split; [done |]. apply existsb_exists in Ht as (e & Hx & Ht).
  apply pve_said_inv in Ht as (C & pq & payload & -> & Ht). destruct pq; try discriminate Ht. unfold payload_says in Ht.
  destruct (json_document payload) as [v |] eqn:Ev; [| discriminate Ht]. cbn in Ht. destruct (store_claims zero_claims v) as [claims |] eqn:Ec; [| discriminate Ht].
  rewrite !andb_true_iff in Ht. destruct Ht as [[Hs Hn] Hc]. apply bool_decide_eq_true in Hs. apply negb_true_iff, bool_decide_eq_false in Hn.
  apply existsb_exists in Hc as (e & Hy & Hc). apply store_said_inv in Hc as (B' & op' & cx' & s0 & f' & b' & -> & Ha' & Hc). destruct op'; try discriminate Hc.
  destruct b' as [[nonce verifier] kind]. rewrite !andb_true_iff in Hc. destruct Hc as [[Hq Hz] Hr]. apply bool_decide_eq_true in Hq, Hz. cbn in Hz. subst.
  destruct (requestCookie _ _ _) as [c |] eqn:Er; [| discriminate Hr]. apply ConstantTimeEqual_eq in Hr. subst c.
  eexists _, _, verifier, kind, s0, _, payload, v, claims, _, s. split_and!; try done; [by exists cx', f' | by exists cx, f].
Qed.

Lemma by_code_shown user tr e : In e tr -> by_code q user e = true -> code_shown tr user.
Proof.
  intros Hin He. apply store_said_inv in He as (B & op & cx & s & f & b & -> & Ha & Hp). destruct op; try discriminate Hp.
  apply andb_true_iff in Hp as [Hu Hp]. destruct b as [| u]; [discriminate Hu |]. apply andb_true_iff in Hu as [Hu Hd].
  apply bool_decide_eq_true in Hu as ->. apply negb_true_iff in Hd.
  destruct (decodeJSON _ _ _ _) as [code |] eqn:Eb; [| discriminate Hp]. apply andb_true_iff in Hp as [Hn Hc].
  apply negb_true_iff, bool_decide_eq_false in Hn. apply bool_decide_eq_true in Hc as ->. exists code, s. split_and!; try done. by exists cx, f.
Qed.

Definition identity_shown (tr : list happened) (user : UserInfo) : Prop :=
  password_shown tr user \/ setup_shown tr user \/ single_sign_on tr user \/ code_shown tr user.

Lemma identified_shown user tr : identified setupToken q user tr = true -> identity_shown tr user.
Proof.
  intros Hi. apply existsb_exists in Hi as (e & Hin & He). rewrite !orb_true_iff in He. destruct He as [[[He | He] | He] | He].
  - left. by eapply by_password_shown.
  - right. left. by eapply by_setup_shown.
  - right. right. left. destruct (by_oidc_shown (fun u => u == user) tr) as (u & Hu & Ho); [apply existsb_exists; by exists e |].
    apply bool_decide_eq_true in Hu as <-. done.
  - right. right. right. by eapply by_code_shown.
Qed.
End identity.

(** ** The claims *)
Section claims.
Context `{Sha256} `{Collation} `{SqlLower} `{UnicodeLower} `{UnicodeFold} `{Argon2} `{UrlParser} {W : Type} (has_input : bool) (legacy_revoker : string).

Lemma web_lawful (w : world W) srv name handler q st r st' tr : In (name, handler) (web_routes srv) ->
  run_ctl has_input legacy_revoker w (handler q) st [] = (r, st', tr) -> lawful (web_permitted q) tr.
Proof.
  intros Hin Hrun. pose proof (routes_keep has_input legacy_revoker q srv []) as Hk. rewrite List.Forall_forall in Hk. specialize (Hk _ Hin).
  by destruct (cwp_run has_input legacy_revoker (web_permitted q) (fun _ => True) w _ st _ r st' tr (any_world w) Hk Hrun).
Qed.

Lemma login_lawful (w : world W) setupToken groupsClaim nativeURL name handler q st r st' tr : In (name, handler) (login_routes setupToken groupsClaim nativeURL) ->
  run_ctl has_input legacy_revoker w (handler q) st [] = (r, st', tr) -> lawful (login_permitted setupToken q) tr.
Proof.
  intros Hin Hrun. pose proof (login_routes_keep has_input legacy_revoker setupToken groupsClaim nativeURL q []) as Hk.
  rewrite List.Forall_forall in Hk. specialize (Hk _ Hin).
  by destruct (cwp_run has_input legacy_revoker (login_permitted setupToken q) (fun _ => True) w _ st _ r st' tr (any_world w) Hk Hrun).
Qed.

(** What the transaction of a login checks. *)
Lemma verified_session now clock digest user csrf expiresAt native s s' :
  createVerifiedLoginSession now clock digest user csrf expiresAt native s = inr (tt, s') ->
  clock < expiresAt /\
  exists u, In u (users s) /\ u_id u = UserID user /\ u_disabled u = false /\ coalesce (u_password_hash u) = PasswordHash user.
Proof.
  unfold createVerifiedLoginSession. intros Hc. inv_tx.
  match goal with E : _ && _ = true |- _ => apply andb_true_iff in E as [Hx Ht] end. split; [by apply Z.ltb_lt |].
  apply exists_where_true in Hx as (u & Hin & Hp). b2p. destruct Hp as [[Hi Hd] Hh]. by exists u.
Qed.

(** (C2) Whatever a route behind a web session asks of the store, of PVE or of
    a Guest that changes anything but the audit trail and the assignments (C2),
    it asks only after the store was asked for the session cookie of this very
    request and had an unexpired session of it, of an enabled platform
    administrator, whose CSRF token the request carries.  There are two
    exceptions.  Everyone may end the own session and, knowing the old one,
    change the own password, with the CSRF token.  And an administrator needs
    no CSRF token to look at a job or at a policy, which brings it up to
    date: such a write settles the running job of the path after PVE reported
    its task as stopped - on the target of that job, or the end of that job
    under that task - or is the default policy of the desktop of the path. *)
Theorem web_changes_authorised (w : world W) srv name handler q st r st' new e pre (Hroute : In (name, handler) (web_routes srv))
    (Hneed : event_need e = Change \/ event_need e = Settle) (Hrun : run_ctl has_input legacy_revoker w (handler q) st [] = (r, st', new ++ e :: pre)) :
  administrator_asked q pre \/ own_request q pre e \/ (event_need e = Settle /\ settled_by_look q pre e).
Proof.
  pose proof (web_lawful w _ _ _ _ _ _ _ _ Hroute Hrun) as Hl. apply lawful_at in Hl as [Hp _]. unfold web_permitted in Hp.
  destruct Hneed as [Hneed | Hneed]; rewrite Hneed in Hp; apply orb_true_iff in Hp as [Hp | Hp]; try (left; by apply may_change_asked).
  - right. left. by apply own_change_request.
  - apply andb_true_iff in Hp as [Ha Hf]. right. right. split; [done | by apply follow_up_shown].
Qed.

(** (C5) Who sees and assigns what, behind a web session.  The inventory of
    machines and the own assignments are for every enabled user whom the store
    named for the cookie or the API token of the request - someone else's
    assignments only for an administrator.  Everything else that is read is read
    only after the store named an enabled administrator for the cookie or the
    token.  Assignments are changed for the token of an administrator, or with
    the CSRF token of an administrator's session. *)
Theorem web_reads_authorised (w : world W) srv name handler q st r st' new e pre (Hroute : In (name, handler) (web_routes srv))
    (Hrun : run_ctl has_input legacy_revoker w (handler q) st [] = (r, st', new ++ e :: pre)) :
  match event_need e with
  | SignedIn => exists u, user_named q pre u /\
      forall id cx s f, e = HStore (OpUserAssigned id) cx s f -> id = u_id u \/ u_role u = PlatformAdmin
  | Administrator => exists u, user_named q pre u /\ u_role u = PlatformAdmin
  | Assign => administrator_token q pre \/ administrator_asked q pre
  | _ => True
  end.
Proof.
  pose proof (web_lawful w _ _ _ _ _ _ _ _ Hroute Hrun) as Hl. apply lawful_at in Hl as [Hp _]. unfold web_permitted in Hp.
  destruct (event_need e); try done.
  - apply andb_true_iff in Hp as [Hs Ho]. destruct (signed_in_named q pre Hs) as [u Hu].
    destruct e as [B op cx s f | | | | | | | |]; try by exists u. destruct op; try by exists u. cbn [own_assignments] in Ho.
    apply orb_true_iff in Ho as [Ho | Ho].
    + destruct (administers_named q pre Ho) as (v & Hv & Hr). exists v. split; [done |]. by right.
    + apply cookie_session_row in Ho as (ws & v & Hr & Hi). exists v. split; [left; by exists ws |]. intros ? ? ? ? [= <- _ _ _]. left.
      apply bool_decide_eq_true in Hi. done.
  - by apply administers_named.
  - apply may_assign_asked in Hp as [Hp | Hp]; auto.
Qed.

(** (C4) A login route asks for a session only of a user who proved who they
    are in this very request: by the password of the account, as the holder of
    the setup token when there were no accounts, by a single sign-on whose
    state, nonce and verified token belong together, or by a one-time code; and
    the store makes it only when that account is still enabled and still has
    the password hash that was checked, and only before it expires. *)
Theorem login_sessions_identified (w : world W) setupToken groupsClaim nativeURL name handler q st r st' new op digest user expiresAt cx s f pre
    (Hroute : In (name, handler) (login_routes setupToken groupsClaim nativeURL))
    (Hop : (exists csrf, op = OpCreateSession digest user csrf expiresAt) \/ op = OpCreateNativeSession digest user expiresAt)
    (Hrun : run_ctl has_input legacy_revoker w (handler q) st [] = (r, st', new ++ HStore op cx s f :: pre)) :
  identity_shown setupToken q pre user /\
  (store_answer op cx s f = inr tt ->
    cx_clock cx < expiresAt /\
    exists u, In u (users s) /\ u_id u = UserID user /\ u_disabled u = false /\ coalesce (u_password_hash u) = PasswordHash user).
Proof.
  pose proof (login_lawful w _ _ _ _ _ _ _ _ _ _ Hroute Hrun) as Hl. apply lawful_at in Hl as [Hp _]. split.
  - apply identified_shown. by destruct Hop as [[csrf ->] | ->].
  - intros Ha. apply answered_inr in Ha as [s' Ha].
    assert (exists csrf native, createVerifiedLoginSession (cx_now cx) (cx_clock cx) digest user csrf expiresAt native s = inr (tt, s')) as (csrf & native & Hc)
      by (destruct Hop as [[csrf ->] | ->]; by eexists _, _).
    by eapply verified_session.
Qed.

(** A one-time code for the native client is asked for only at the end of
    a single sign-on of the very user it is for. *)
Theorem login_codes_after_sso (w : world W) setupToken groupsClaim nativeURL name handler q st r st' new digest userID expiresAt cx s f pre
    (Hroute : In (name, handler) (login_routes setupToken groupsClaim nativeURL))
    (Hrun : run_ctl has_input legacy_revoker w (handler q) st [] = (r, st', new ++ HStore (OpCreateAuthCode digest userID expiresAt) cx s f :: pre)) :
  exists user, UserID user = userID /\ single_sign_on q pre user.
Proof.
  pose proof (login_lawful w _ _ _ _ _ _ _ _ _ _ Hroute Hrun) as Hl. apply lawful_at in Hl as [Hp _]. cbn in Hp.
  apply by_oidc_shown in Hp as (user & Hu & Hs). exists user. split; [| done]. by apply bool_decide_eq_true in Hu.
Qed.
End claims.

(** ** A request *)
Section witnesses.
#[local] Existing Instance demo_sha.
#[local] Existing Instance demo_collation.
#[local] Existing Instance demo_lower.
#[local] Instance demo_folding : UnicodeFold := String.eqb.
#[local] Instance demo_sql : SqlLower := fun s => s.
#[local] Instance demo_derivation : Argon2 := {| IDKey := fun pw salt _ _ _ n => demo_pad (Z.to_nat n) (pw +:+ salt); argon2_version := 19 |}.
#[local] Instance demo_urls : UrlParser := {| url_parse := fun s => Some (MkURL "vcworkspace" "" "" "" false s "" false "" "" ""); url_string := fun _ => "" |}.

Definition demo_server : web_server := MkWebServer true true false "" "svc@pve!ci" false false (fun _ => "") (fun _ => None).
Definition root_session_db : DB := demo_db <| web_sessions := [MkWebSession (TokenDigest "cookie") "root" "csrf" hour 0] |>.
Definition disable_bob : web_request := MkWebRequest clone_http [(workspaceSessionCookieName, "cookie")] "" "csrf" [("id", "bob")] []
  (MkJobRequest "" "PATCH" "/api/v1/users/bob" (Some (json_print (JObj [("disabled", JBool true)])))).
Definition disable_route : string * (web_request -> ctl unit) := nth 11 (web_routes demo_server) ("", fun _ => mret tt).
Definition disable_run : (ctl_error + unit) * (DB * nanos) * list happened :=
  run_ctl true "revoker" (deployment (fun _ => true) [] no_guest) (snd disable_route disable_bob) (root_session_db, 10 * second) [].

Definition show_access : web_request := MkWebRequest clone_http [(workspaceSessionCookieName, "cookie")] "" "" [] [] (MkJobRequest "" "GET" "/api/v1/access-control" None).
Definition access_route : string * (web_request -> ctl unit) := nth 8 (web_routes demo_server) ("", fun _ => mret tt).
Definition access_run : (ctl_error + unit) * (DB * nanos) * list happened :=
  run_ctl true "revoker" (deployment (fun _ => true) [] no_guest) (snd access_route show_access) (root_session_db, 10 * second) [].

Lemma change_happens : option_map event_need (snd disable_run !! 1%nat) = Some Change.
Proof. vm_compute. reflexivity. Qed.
Lemma reading_happens : option_map event_need (snd access_run !! 0%nat) = Some Administrator.
Proof. vm_compute. reflexivity. Qed.

Lemma web_changes_authorised_witness : exists e, snd disable_run !! 1%nat = Some e /\ event_need e = Change /\ (administrator_asked disable_bob (drop 2 (snd disable_run)) \/ own_request disable_bob (drop 2 (snd disable_run)) e \/
    (event_need e = Settle /\ settled_by_look disable_bob (drop 2 (snd disable_run)) e)).
Proof.
  pose proof change_happens as Hc. destruct (snd disable_run !! 1%nat) as [e |] eqn:El; [| discriminate Hc]. injection Hc as Hc.
  exists e. split; [reflexivity |]. split; [exact Hc |].
  apply (web_changes_authorised true "revoker" (deployment (fun _ => true) [] no_guest) demo_server (fst disable_route) (snd disable_route) disable_bob
    (root_session_db, 10 * second) (fst (fst disable_run)) (snd (fst disable_run)) (take 1 (snd disable_run))).
  - apply (nth_In (web_routes demo_server) ("", fun _ => mret tt) (n := 11)). vm_compute. lia.
  - left. exact Hc.
  - rewrite take_drop_middle by exact El. unfold disable_run. exact (run_eta _).
Defined.

Lemma web_reads_authorised_witness : exists e u, snd access_run !! 0%nat = Some e /\ event_need e = Administrator /\
   user_named show_access (drop 1 (snd access_run)) u /\ u_role u = PlatformAdmin.
Proof.
  pose proof reading_happens as Hc. destruct (snd access_run !! 0%nat) as [e |] eqn:El; [| discriminate Hc]. injection Hc as Hc.
  pose proof (web_reads_authorised true "revoker" (deployment (fun _ => true) [] no_guest) demo_server (fst access_route) (snd access_route) show_access
    (root_session_db, 10 * second) (fst (fst access_run)) (snd (fst access_run)) (take 0 (snd access_run)) e (drop 1 (snd access_run))) as Hr.
  rewrite Hc in Hr. destruct Hr as (u & Hu & Hrole).
  - apply (nth_In (web_routes demo_server) ("", fun _ => mret tt) (n := 8)). vm_compute. lia.
  - rewrite take_drop_middle by exact El. unfold access_run. exact (run_eta _).
  - exists e, u. split; [reflexivity |]. split; [exact Hc |]. split; [exact Hu | exact Hrole].
Defined.

(** A login with a password, and the end of a single sign-on. *)
Definition login_request (query : list (string * string)) (cookies : list (string * string)) (body : option string) : web_request :=
  MkWebRequest clone_http cookies "" "" [] query (MkJobRequest "" "POST" "/api/v1/auth" body).
Definition password_request : web_request :=
  login_request [] [] (Some (json_print (JObj [("username", text "Root"); ("password", text "correct horse")]))).
Definition password_db : DB := demo_db <| users := [root <| u_password_hash := Some (HashPassword (demo_pad 16 "salt") "correct horse") |>] |>.
Definition login_route : string * (web_request -> ctl unit) := nth 1 (login_routes "setup" "groups" "vcworkspace://login") ("", fun _ => mret tt).
Definition login_run : (ctl_error + unit) * (DB * nanos) * list happened :=
  run_ctl true "revoker" (deployment (fun _ => true) [] no_guest) (snd login_route password_request) (password_db, 10 * second) [].

Definition sso_request : web_request := login_request [("state", "s"); ("code", "c")] [(workspaceOIDCStateCookie, "s")] None.
Definition sso_pve (B : Type) (op : pve_op B) : guest_failure + B :=
  match op with
  | PExchangeCode _ _ => inr (Some "token")
  | PVerifyIDToken _ => inr (json_print (JObj [("sub", text "subject"); ("nonce", text "nonce")]))
  | _ => inl (MkFailure None "not answered")
  end.
Definition sso_db : DB := demo_db <| oidc_auth_requests := [MkOIDCRequest (TokenDigest "s") "nonce" "verifier" "macos" hour];
  external_identities := [MkExternalIdentity ProviderID "subject" "bob"]; oidc_providers := [MkOIDCProvider ProviderID "SSO" "issuer" "client" true 0] |>.
Definition sso_route : string * (web_request -> ctl unit) := nth 2 (login_routes "setup" "groups" "vcworkspace://login") ("", fun _ => mret tt).
Definition sso_run : (ctl_error + unit) * (DB * nanos) * list happened :=
  run_ctl true "revoker" (deployment_with (fun _ => true) sso_pve no_guest) (snd sso_route sso_request) (sso_db, 10 * second) [].

Definition session_made (e : happened) : option string :=
  match e with
  | HStore (OpCreateSession digest user csrf expiresAt) cx s f =>
      match store_answer (OpCreateSession digest user csrf expiresAt) cx s f with inr _ => Some (UserID user) | inl _ => None end
  | _ => None
  end.
Lemma session_made_inv e id : session_made e = Some id -> exists digest user csrf expiresAt cx s f,
  e = HStore (OpCreateSession digest user csrf expiresAt) cx s f /\ store_answer (OpCreateSession digest user csrf expiresAt) cx s f = inr tt /\ UserID user = id.
Proof.
  destruct e as [B op cx s f | | | | | | | |]; try done. destruct op; try done. unfold session_made.
  destruct (store_answer _ _ _ _) as [|[]] eqn:Ea; [done |]. intros [= <-]. by eexists _, _, _, _, _, _, _.
Qed.
Lemma login_makes_session : (snd login_run !! 1%nat) ≫= session_made = Some "root".
Proof. vm_compute. reflexivity. Qed.

Lemma login_sessions_identified_witness : exists user s, UserID user = "root" /\ identity_shown "setup" password_request (drop 2 (snd login_run)) user /\
  exists u, In u (users s) /\ u_id u = UserID user /\ u_disabled u = false /\ coalesce (u_password_hash u) = PasswordHash user.
Proof.
  pose proof login_makes_session as Hc. destruct (snd login_run !! 1%nat) as [e |] eqn:El; [| discriminate Hc].
  apply session_made_inv in Hc as (digest & user & csrf & expiresAt & cx & s & f & -> & Ha & Hu).
  edestruct (login_sessions_identified true "revoker" (deployment (fun _ => true) [] no_guest) "setup" "groups" "vcworkspace://login" (fst login_route) (snd login_route)
    password_request (password_db, 10 * second) (fst (fst login_run)) (snd (fst login_run)) (take 1 (snd login_run))) as [Hi Hs].
  - apply (nth_In (login_routes "setup" "groups" "vcworkspace://login") ("", fun _ => mret tt) (n := 1)). vm_compute. lia.
  - left. exists csrf. reflexivity.
  - rewrite take_drop_middle by exact El. unfold login_run. exact (run_eta _).
  - exists user, s. split; [exact Hu |]. split; [exact Hi |]. exact (proj2 (Hs Ha)).
Defined.

Definition code_made (e : happened) : option string := match e with HStore (OpCreateAuthCode _ userID _) _ _ _ => Some userID | _ => None end.
Lemma code_made_inv e id : code_made e = Some id -> exists digest expiresAt cx s f, e = HStore (OpCreateAuthCode digest id expiresAt) cx s f.
Proof. destruct e as [B op cx s f | | | | | | | |]; try done. destruct op; try done. intros [= <-]. by eexists _, _, _, _, _. Qed.
Lemma sso_makes_code : (snd sso_run !! 0%nat) ≫= code_made = Some "bob".
Proof. vm_compute. reflexivity. Qed.

Lemma login_codes_after_sso_witness : exists user, UserID user = "bob" /\ single_sign_on sso_request (drop 1 (snd sso_run)) user.
Proof.
  pose proof sso_makes_code as Hc. destruct (snd sso_run !! 0%nat) as [e |] eqn:El; [| discriminate Hc].
  apply code_made_inv in Hc as (digest & expiresAt & cx & s & f & ->).
  eapply (login_codes_after_sso true "revoker" (deployment_with (fun _ => true) sso_pve no_guest) "setup" "groups" "vcworkspace://login" (fst sso_route) (snd sso_route)
    sso_request (sso_db, 10 * second) (fst (fst sso_run)) (snd (fst sso_run)) (take 0 (snd sso_run))).
  - apply (nth_In (login_routes "setup" "groups" "vcworkspace://login") ("", fun _ => mret tt) (n := 2)). vm_compute. lia.
  - rewrite take_drop_middle by exact El. unfold sso_run. exact (run_eta _).
Defined.
End witnesses.
