(* ===== verification/ControllerRouter.v ===== *)
(** * The router ([Server.Handler] in [internal/httpapi/server.go])

    All routes of the API, with the guard of each, and the matching of a
    request against their patterns as net/http's [ServeMux] does it: the
    method, then the segments of the escaped path, each unescaped, a wildcard
    taking one whole segment.  No two patterns of the table meet, so the order
    of the table decides nothing.  A request arrives with its escaped path,
    query, headers under their canonical names, cookies and raw body; a path
    that [ServeMux] would redirect to its clean form has no route here.  Of
    the page about the system, the name of the identity provider and the time
    since the start are left out. *)
From stdpp Require Import base strings list.
From Stdlib Require Import ZArith Lia Ascii.
From S2P Require Import Prelude GoStrings Auth Db Json Demo Triggers StoreAccess StoreSession StoreLease GatewayTransport Computer Guest GuestAccount ComputerWire StoreAudit StoreCatalog Pve Controller ControllerScripts PveClient ControllerRules ControllerMaintenance ControllerHttp ControllerConnect ControllerConnectProofs ControllerRecovery ControllerClone ControllerJobs ControllerJobsClaims ControllerLogin ControllerWeb ControllerRoutes.

Local Open Scope string_scope.
Local Open Scope list_scope.
Local Open Scope Z_scope.

(** ** Unescaping ([net/url]) *)
Definition hex_pair (a b : ascii) : option ascii :=
  x ← hex_value a; y ← hex_value b; Some (chr (16 * x + y)).

(** [unescape], where [plus] turns a plus sign into a space. *)
Fixpoint unescape (plus : bool) (s : string) : option string :=
  match s with
  | EmptyString => Some ""
  | String "%" s' =>
      match s' with
      | String a (String b s'') => c ← hex_pair a b; r ← unescape plus s''; Some (String c r)
      | _ => None
      end
  | String c s' => r ← unescape plus s'; Some (String (if plus && (c == "+"%char) then " "%char else c) r)
  end.
Definition PathUnescape : string -> option string := unescape false.
Definition QueryUnescape : string -> option string := unescape true.

(** [url.URL.Query]: the pairs that parse, in order. *)
Definition parse_pair (s : string) : list (string * string) :=
  if str_exists (fun c => c == ";"%char) s || (s == "") then []
  else
    let '(k, v, _) := cut "=" s in
    match QueryUnescape k, QueryUnescape v with Some k, Some v => [(k, v)] | _, _ => [] end.
Definition parse_query (s : string) : list (string * string) := List.concat (List.map parse_pair (split "&" s)).

(** ** Patterns *)
Inductive pattern_segment : Set := Literal (s : string) | Wildcard (name : string).
Record pattern : Set := MkPattern { pt_method : string; pt_segments : list pattern_segment }.

Definition segment_of (s : string) : pattern_segment :=
  match cut_prefix "{" s with
  | Some r => if has_suffix "}" r then Wildcard (str_take (String.length r - 1) r) else Literal s
  | None => Literal s
  end.
(** The segments of a rooted path. *)
Definition path_segments (path : string) : option (list string) :=
  r ← cut_prefix "/" path; Some (split "/" r).
Definition parse_pattern (s : string) : option pattern :=
  let '(method, path, _) := cut " " s in
  l ← path_segments path;
  Some (MkPattern method (List.map segment_of l)).

(** [pathUnescape] *)
Definition segment_text (s : string) : string := default s (PathUnescape s).

Fixpoint match_segments (pat : list pattern_segment) (path : list string) : option (list (string * string)) :=
  match pat, path with
  | [], [] => Some []
  | Literal l :: pat', s :: path' => if segment_text s == l then match_segments pat' path' else None
  | Wildcard n :: pat', s :: path' => r ← match_segments pat' path'; Some ((n, segment_text s) :: r)
  | _, _ => None
  end.

(** A path that is its own clean form and does not end in a slash. *)
Definition clean_segment (s : string) : bool := (s != "") && (s != ".") && (s != "..").
Definition clean_path (path : string) : option (list string) :=
  l ← path_segments path; if forallb clean_segment l then Some l else None.

Definition method_matches (p method : string) : bool := (p == method) || ((p == "GET") && (method == "HEAD")).
Definition match_pattern (p : pattern) (method : string) (path : list string) : option (list (string * string)) :=
  if method_matches (pt_method p) method then match_segments (pt_segments p) path else None.

(** Two patterns that some request could match. *)
Definition segments_meet (a b : pattern_segment) : bool :=
  match a, b with Literal x, Literal y => x == y | _, _ => true end.
Fixpoint overlap (a b : list pattern_segment) : bool :=
  match a, b with
  | [], [] => true
  | x :: a', y :: b' => segments_meet x y && overlap a' b'
  | _, _ => false
  end.
Definition methods_meet (a b : string) : bool := method_matches a b || method_matches b a.
Definition patterns_meet (a b : pattern) : bool := methods_meet (pt_method a) (pt_method b) && overlap (pt_segments a) (pt_segments b).

(** ** Requests as they arrive *)
Record raw_request : Set := MkRaw {
  rw_method : string;
  rw_path : string;                          (* URL.EscapedPath *)
  rw_query : string;
  rw_headers : list (string * string);       (* in order, canonical names *)
  rw_body : option string;                   (* None: it could not be read *)
  rw_source_ip : string;
  rw_cookies : list (string * string)
}.
Definition header_values (q : raw_request) (name : string) : list string :=
  List.map snd (List.filter (fun e => fst e == name) (rw_headers q)).
Definition header (q : raw_request) (name : string) : string := default "" (first_of name (rw_headers q)).

(** What the handlers read of it. *)
Definition web_of (q : raw_request) (bindings : list (string * string)) : web_request :=
  let query := parse_query (rw_query q) in
  MkWebRequest (MkHttpRequest (default "" (first_of "agent_id" query)) (default "" (first_of "id" bindings)) (rw_source_ip q) (header q "User-Agent"))
    (rw_cookies q) (header q "Authorization") (header q "X-Csrf-Token") bindings query
    (MkJobRequest (header q "Idempotency-Key") (rw_method q) (rw_path q) (rw_body q)).

(** ** Bodies of the agent API *)

(** A struct whose members must all be known. *)
Definition store_strict {A} (fields : list string) (read : A -> list (string * json) -> option A) : A -> json -> option A :=
  store_struct (fun old l => if known_fields fields l then read old l else None).

Definition screenshot_fields : list string := ["max_width"].
Definition zero_screenshot : Screenshot := MkScreenshot 0.
Definition store_screenshot : Screenshot -> json -> option Screenshot := store_strict screenshot_fields (fun old l =>
  w ← field screenshot_fields store_int64 (MaxWidth old) "max_width" l; Some (MkScreenshot w)).

Definition accessibility_fields : list string := ["max_depth"; "max_nodes"].
Definition zero_accessibility : Accessibility := MkAccessibility 0 0.
Definition store_accessibility : Accessibility -> json -> option Accessibility := store_strict accessibility_fields (fun old l =>
  d ← field accessibility_fields store_int64 (MaxDepth old) "max_depth" l;
  n ← field accessibility_fields store_int64 (MaxNodes old) "max_nodes" l; Some (MkAccessibility d n)).

Definition mouse_fields : list string := ["action"; "x"; "y"; "button"; "delta_x"; "delta_y"].
Definition zero_mouse : Mouse := MkMouse "" 0 0 "" 0 0.
Definition store_mouse : Mouse -> json -> option Mouse := store_strict mouse_fields (fun old l =>
  let text f zero := field mouse_fields store_string zero f l in
  let int f zero := field mouse_fields store_int64 zero f l in
  a ← text "action" (MouseAction old); x ← int "x" (MouseX old); y ← int "y" (MouseY old); b ← text "button" (Button old);
  dx ← int "delta_x" (DeltaX old); dy ← int "delta_y" (DeltaY old); Some (MkMouse a x y b dx dy)).

Definition key_fields : list string := ["key"; "modifiers"].
Definition zero_key : Key := MkKey "" [].
Definition store_key : Key -> json -> option Key := store_strict key_fields (fun old l =>
  k ← field key_fields store_string (KeyName old) "key" l;
  m ← field key_fields (store_slice store_string "") (Modifiers old) "modifiers" l; Some (MkKey k m)).

Definition text_fields : list string := ["value"; "sensitive"].
Definition zero_text : Text := MkText "" false.
Definition store_text : Text -> json -> option Text := store_strict text_fields (fun old l =>
  v ← field text_fields store_string (TextValue old) "value" l;
  s ← field text_fields store_bool (Sensitive old) "sensitive" l; Some (MkText v s)).

Definition action_fields : list string :=
  ["control_epoch"; "operation"; "timeout_ms"; "screenshot"; "accessibility"; "mouse"; "key"; "text"].
Definition zero_action : computerActionRequest := MkComputerAction 0 "" 0 None None None None None.
Definition read_action (l : list (string * json)) : option computerActionRequest :=
  let part {A} f (store : A -> json -> option A) zero := field action_fields (store_ptr store zero) None f l in
  e ← field action_fields store_int64 0 "control_epoch" l; op ← field action_fields store_string "" "operation" l;
  t ← field action_fields store_int64 0 "timeout_ms" l;
  s ← part "screenshot" store_screenshot zero_screenshot; a ← part "accessibility" store_accessibility zero_accessibility;
  m ← part "mouse" store_mouse zero_mouse; k ← part "key" store_key zero_key; x ← part "text" store_text zero_text;
  Some (MkComputerAction e op t s a m k x).

(** What a failed decoding left in the operation: the decoder stores every
    member it can before it reports the first that it cannot. *)
Definition last_text (vs : list json) : string := fold_left (fun acc v => match v with JStr s => s | _ => acc end) vs "".
Definition decoded_operation (q : web_request) : string :=
  match body ← jr_body (wq_job q); read_value (S (String.length (limited body))) (limited body) with
  | Some (JObj l, _) => last_text (field_values action_fields "operation" l)
  | _ => ""
  end.
Definition action_body (q : web_request) : string + computerActionRequest :=
  match decodeJSON action_fields read_action zero_action q with Some a => inr a | None => inl (decoded_operation q) end.

Definition lease_fields : list string := ["agent_id"; "desktop_vmid"; "ttl_seconds"].
Definition read_lease (l : list (string * json)) : option lease_request :=
  agent ← text_field lease_fields l "agent_id"; vmid ← field lease_fields store_int64 0 "desktop_vmid" l;
  ttl ← field lease_fields store_int64 0 "ttl_seconds" l; Some (MkLeaseRequest agent vmid ttl).
Definition lease_body (q : web_request) : option lease_request := decodeJSON lease_fields read_lease (MkLeaseRequest "" 0 0) q.

(** ** The table *)
Section handler.
Context `{Sha256} `{UnicodeLower} `{Collation} `{SqlLower} `{UnicodeFold} `{Argon2} `{UrlParser} `{RdpX509} (srv : web_server).
Context (setupToken internalAPIToken groupsClaim nativeCallbackURL : string) (layout probe : bytes) (nativeGateway : option BrokerRoute).
Context (generate_verifier : bytes -> string) (auth_code_url : string -> string -> string -> string).

(** The token that the services of the platform share. *)
Definition requireService {A} (q : web_request) (next : ctl A) : ctl A :=
  censure (internalAPIToken != "") (EReply 503 "agent_api_unavailable");;
  censure (match ParseBearerToken (wq_authorization q) with
           | Some provided => ConstantTimeEqual provided internalAPIToken
           | None => false
           end) (EReply 401 "invalid_service_token");;
  next.

Definition agentDesktopLease (h : http_request) : ctl DesktopLease := requireAgentLease h.

Definition agent_routes : list (string * (raw_request -> web_request -> ctl unit)) :=
  let service {A} (handler : raw_request -> web_request -> ctl A) (raw : raw_request) (q : web_request) : ctl unit :=
    requireService q (void (handler raw q)) in
  [("GET /api/v1/agent/desktops", service (fun _ q => agentDesktops (wq_from q)));
   ("POST /api/v1/agent/authenticate", service (fun raw _ => authenticateAgent (header raw "X-Vc-Workspace-Agent-Token")));
   ("POST /api/v1/agent/desktop-leases", service (fun _ q => createAgentDesktopLease (wq_from q) (lease_body q)));
   ("GET /api/v1/agent/desktop-leases/{id}", service (fun _ q => agentDesktopLease (wq_from q)));
   ("DELETE /api/v1/agent/desktop-leases/{id}", service (fun _ q => releaseAgentDesktopLease (srv_has_computer srv) (wq_from q)));
   ("POST /api/v1/agent/desktop-leases/{id}/actions/{action}",
      service (fun _ q => changeAgentDesktopPower (wq_from q) (wq_job q) (path_value q "action")));
   ("POST /api/v1/agent/desktop-leases/{id}/computer-actions",
      service (fun _ q => agentComputerAction (srv_has_computer srv) (srv_background srv) (wq_from q) (action_body q)))].

Definition native_routes : list (string * (raw_request -> web_request -> ctl unit)) :=
  let native {A} (handler : raw_request -> web_request -> UserInfo -> string -> ctl A) (raw : raw_request) (q : web_request) : ctl unit :=
    requireNativeAuth (wq_authorization q) (fun user token => void (handler raw q user token)) in
  [("POST /api/v1/auth/native/logout", native (fun _ q user token => nativeLogout (wq_from q) user token));
   ("POST /api/v1/native/desktops/{vmid}/actions/{action}",
      native (fun _ q user _ => changeNativeDesktopPower (wq_from q) (wq_job q) (UserID user) (path_value q "vmid") (path_value q "action")));
   ("POST /api/v1/native/desktops/{vmid}/connections",
      native (fun raw q user token =>
        createNativeDesktopConnection (srv_has_computer srv) (srv_background srv) layout probe (srv_format_time srv) nativeGateway (wq_from q)
          (MkConnectRequest (path_value q "vmid") (header_values raw "X-Vc-Workspace-Transport") (header raw "X-Vc-Workspace-Desktop-Scale") token)
          (UserID user)));
   ("DELETE /api/v1/native/connections/{id}",
      native (fun _ q user _ => releaseNativeDesktopConnection (srv_has_computer srv) (wq_from q) user));
   ("GET /api/v1/native/desktops", native (fun _ _ user _ => nativeDesktops user))].

Definition start_routes : list (string * (web_request -> ctl unit)) :=
  [("GET /api/v1/auth/oidc/start", fun q => void (oidcStart generate_verifier auth_code_url q))].

(** The pages about the process itself, for everyone. *)
Definition health : ctl string := mret "ok".
(** [Ping]: an empty query. *)
Definition ready : ctl string := reply_on (store_ (OpRead (fun _ => mret tt))) 503 "database_unavailable";; mret "ready".

Record system_info : Set := MkSystemInfo {
  si_pve_configured : bool;
  si_database_configured : bool;
  si_initialized : bool;
  si_linux_sssd_oidc : bool;
  si_windows_entra_rdp : bool
}.
Definition system : ctl system_info :=
  initialized ← reply_on (store_ (OpRead (fun _ => IsInitialized))) 503 "database_unavailable";
  mret (MkSystemInfo (srv_has_pve srv) true initialized (srv_sssd_oidc srv) (srv_windows_entra srv)).

Definition process_routes : list (string * (web_request -> ctl unit)) :=
  [("GET /api/v1/health", fun _ => void health); ("GET /api/v1/ready", fun _ => void ready); ("GET /api/v1/system", fun _ => void system)].

Definition all_routes : list (string * (raw_request -> web_request -> ctl unit)) :=
  let plain (e : string * (web_request -> ctl unit)) := (fst e, fun (_ : raw_request) q => snd e q) in
  List.map plain (process_routes ++ login_routes setupToken groupsClaim nativeCallbackURL ++ start_routes ++ web_routes srv) ++ native_routes ++ agent_routes.

(** The bindings of the route that matches, and its handler. *)
Definition route_matches (q : raw_request) (name : string) : option (list (string * string)) :=
  p ← parse_pattern name; path ← clean_path (rw_path q); match_pattern p (rw_method q) path.
Fixpoint find_route {A} (q : raw_request) (routes : list (string * A)) : option (string * A * list (string * string)) :=
  match routes with
  | [] => None
  | (name, handler) :: rest => match route_matches q name with Some b => Some (name, handler, b) | None => find_route q rest end
  end.

Definition Handler (q : raw_request) : ctl unit :=
  match find_route q all_routes with
  | Some (_, handler, bindings) => handler q (web_of q bindings)
  | None => cfail (EReply 404 "not_found")
  end.
End handler.

(** * One route for a request *)

(** ** Escaping is undone *)
Lemma hex_pair_percent c : hex_pair (upper_hex (ord c / 16)) (upper_hex (ord c mod 16)) = Some c.
Proof. by destruct c as [[] [] [] [] [] [] [] []]. Qed.

Lemma unescape_percent plus c s : unescape plus (percent c +:+ s) = r ← unescape plus s; Some (String c r).
Proof.
  unfold percent. rewrite !app_String, app_EmptyString. cbn [unescape]. by rewrite hex_pair_percent.
Qed.

Lemma unescape_plain plus c s : (c == "%"%char) = false -> (c == "+"%char) = false ->
  unescape plus (String c s) = r ← unescape plus s; Some (String c r).
Proof.
  intros Hc Hp. destruct c as [[] [] [] [] [] [] [] []]; try discriminate Hc; cbn [unescape]; rewrite ?Hp, ?andb_false_r; done.
Qed.

Lemma unreserved_plain c : unreserved c = true -> (c == "%"%char) = false /\ (c == "+"%char) = false.
Proof. destruct c as [[] [] [] [] [] [] [] []]; vm_compute; intros H; try discriminate H; done. Qed.

Lemma PathUnescape_escape s : PathUnescape (PathEscape s) = Some s.
Proof.
  unfold PathUnescape. induction s as [| c s IH]; [done |]. cbn [PathEscape].
  destruct (unreserved c || _) eqn:Hc; [| by rewrite unescape_percent, IH]. rewrite app_String, app_EmptyString.
  assert ((c == "%"%char) = false) as Hp.
  { revert Hc. clear. destruct c as [[] [] [] [] [] [] [] []]; vm_compute; intros H; try discriminate H; done. }
  destruct (c == "+"%char) eqn:Hq; [| by rewrite unescape_plain, IH].
  apply bool_decide_eq_true in Hq as ->. cbn [unescape]. by rewrite IH.
Qed.

Lemma QueryUnescape_escape s : QueryUnescape (QueryEscape s) = Some s.
Proof.
  unfold QueryUnescape. induction s as [| c s IH]; [done |]. cbn [QueryEscape].
  destruct (c == " "%char) eqn:Hs.
  - apply bool_decide_eq_true in Hs as ->. cbn [unescape String.append]. rewrite app_String, app_EmptyString. cbn [unescape]. by rewrite IH.
  - destruct (unreserved c) eqn:Hc; [| by rewrite unescape_percent, IH].
    rewrite app_String, app_EmptyString. apply unreserved_plain in Hc as [Hp Hq]. by rewrite unescape_plain, IH.
Qed.

(** No character of [chars] survives an escaping in which it is percent-encoded. *)
Lemma escaped_free (p : ascii -> bool) s : (forall c, p c = true -> unreserved c || bool_decide (c ∈ ["$"; "&"; "+"; "="; ":"; "@"]%char) = true -> False) ->
  (forall c, str_forall (fun c => negb (p c)) (percent c) = true) -> str_forall (fun c => negb (p c)) (PathEscape s) = true.
Proof.
  intros Hp Hq. induction s as [| c s IH]; [done |]. cbn [PathEscape]. rewrite str_forall_app, IH, andb_true_r.
  destruct (unreserved c || _) eqn:Hc; [| apply Hq]. cbn. destruct (p c) eqn:Hpc; [| done]. destruct (Hp c Hpc Hc).
Qed.

Lemma PathEscape_no_char sep s : (sep == "/"%char) || (sep == "?"%char) = true -> no_char sep (PathEscape s) = true.
Proof.
  intros Hs. unfold no_char. apply (escaped_free (fun c => c == sep)).
  - intros c Hc. apply bool_decide_eq_true in Hc as ->. apply orb_true_iff in Hs as [Hs | Hs]; apply bool_decide_eq_true in Hs as ->; vm_compute; discriminate.
  - intros c. apply orb_true_iff in Hs as [Hs | Hs]; apply bool_decide_eq_true in Hs as ->; by destruct c as [[] [] [] [] [] [] [] []].
Qed.

Lemma QueryEscape_plain s : str_forall (fun c => unreserved c || bool_decide (c ∈ ["+"; "%"]%char)) (QueryEscape s) = true.
Proof.
  induction s as [| c s IH]; [done |]. cbn [QueryEscape]. rewrite str_forall_app, IH, andb_true_r.
  destruct (c == " "%char); [done |]. destruct (unreserved c) eqn:Hc; [cbn; by rewrite Hc |]. clear. by destruct c as [[] [] [] [] [] [] [] []].
Qed.

Lemma plain_text s : str_forall unreserved s = true -> QueryEscape s = s.
Proof.
  induction s as [| c s IH]; [done |]. cbn [str_forall QueryEscape]. intros [Hc Hs]%andb_true_iff. rewrite Hc.
  assert ((c == " "%char) = false) as -> by (revert Hc; clear; by destruct c as [[] [] [] [] [] [] [] []]). by rewrite IH.
Qed.

Lemma plain_no_char sep s : unreserved sep = false -> bool_decide (sep ∈ ["+"; "%"]%char) = false -> no_char sep (QueryEscape s) = true.
Proof.
  intros Hu Hp. unfold no_char. eapply str_forall_impl; [| apply QueryEscape_plain]. intros c Hc. cbn in Hc.
  apply negb_true_iff, bool_decide_eq_false. intros ->. by rewrite Hu, Hp in Hc.
Qed.

(** One parameter of a query arrives. *)
Lemma parse_query_one k v : k <> "" -> str_forall unreserved k = true -> parse_query (k +:+ "=" +:+ QueryEscape v) = [(k, v)].
Proof.
  intros Hne Hk. rewrite <- (plain_text k Hk).
  assert (forall sep, unreserved sep = false -> bool_decide (sep ∈ ["+"; "%"; "="]%char) = false ->
    no_char sep (QueryEscape k +:+ "=" +:+ QueryEscape v) = true) as Hn.
  { intros sep Hs He. rewrite !no_char_app, !plain_no_char by (done || (revert He; by destruct sep as [[] [] [] [] [] [] [] []])).
    cbn. rewrite !andb_true_r. apply negb_true_iff, bool_decide_eq_false. intros <-. discriminate He. }
  unfold parse_query. rewrite split_word by by apply Hn. cbn [List.map List.concat]. rewrite app_nil_r. unfold parse_pair.
  rewrite str_exists_forall. change (str_forall (fun c => negb (c == ";"%char)) ?s) with (no_char ";" s). rewrite Hn by done. cbn [negb orb].
  change ("=" +:+ QueryEscape v) with (String "=" (QueryEscape v)).
  assert ((QueryEscape k +:+ String "=" (QueryEscape v) == "") = false) as ->.
  { apply bool_decide_eq_false. rewrite plain_text by done. by destruct k. }
  rewrite cut_word by (by apply plain_no_char). cbn iota beta. by rewrite !QueryUnescape_escape, plain_text by done.
Qed.

(** ** Patterns that do not meet *)
Lemma overlap_false a : forall b path ba bb, overlap a b = false -> match_segments a path = Some ba -> match_segments b path = Some bb -> False.
Proof.
  induction a as [| x a IH]; intros [| y b] [| s path] ba bb Ho Ha Hb; try done; cbn in *; try (destruct x; done); try (destruct y; done).
  destruct x as [l | n], y as [l' | n']; cbn in Ho.
  - destruct (segment_text s == l) eqn:H1, (segment_text s == l') eqn:H2; try done.
    apply bool_decide_eq_true in H1 as <-, H2 as <-. rewrite bool_decide_true in Ho by done. by eapply IH.
  - destruct (segment_text s == l); [| done]. destruct (match_segments b path) eqn:E; [| done]. by eapply IH.
  - destruct (segment_text s == l'); [| done]. destruct (match_segments a path) eqn:E; [| done]. by eapply IH.
  - destruct (match_segments a path) eqn:E, (match_segments b path) eqn:E'; try done. by eapply IH.
Qed.

Lemma clash p q : patterns_meet p q = false -> forall method path b b', match_pattern p method path = Some b -> match_pattern q method path = Some b' -> False.
Proof.
  unfold patterns_meet, match_pattern. intros Hm method path b b' Hp Hq.
  destruct (method_matches (pt_method p) method) eqn:H1; [| done]. destruct (method_matches (pt_method q) method) eqn:H2; [| done].
  apply andb_false_iff in Hm as [Hm | Hm]; [| by eapply overlap_false].
  revert Hm H1 H2. unfold methods_meet, method_matches. rewrite orb_false_iff, !orb_false_iff, !orb_true_iff, !andb_true_iff, !andb_false_iff, !bool_decide_eq_true, !bool_decide_eq_false.
  intuition congruence.
Qed.

Definition names_meet (a b : string) : bool :=
  match parse_pattern a, parse_pattern b with Some p, Some q => patterns_meet p q | _, _ => false end.
Fixpoint apart (names : list string) : bool :=
  match names with [] => true | a :: rest => forallb (fun b => negb (names_meet a b)) rest && apart rest end.

Lemma names_clash q a b ba bb : names_meet a b = false -> route_matches q a = Some ba -> route_matches q b = Some bb -> False.
Proof.
  unfold names_meet, route_matches. destruct (parse_pattern a) as [p |], (parse_pattern b) as [p' |]; try discriminate.
  intros Hm. destruct (clean_path (rw_path q)) as [path |]; [by apply clash | discriminate].
Qed.

(** In a table of patterns that do not meet, a request finds the one route it
    matches. *)
Lemma find_route_unique {A} q (routes : list (string * A)) name handler b :
  apart (List.map fst routes) = true -> In (name, handler) routes -> route_matches q name = Some b -> find_route q routes = Some (name, handler, b).
Proof.
  induction routes as [| [n h] rest IH]; [done |]. cbn [List.map apart fst find_route]. intros [Hf Ha]%andb_true_iff [[= -> ->] | Hin] Hm.
  - by rewrite Hm.
  - destruct (route_matches q n) as [bn |] eqn:Hn; [| by apply IH]. exfalso.
    rewrite forallb_forall in Hf. specialize (Hf name (in_map fst _ _ Hin)). apply negb_true_iff in Hf. by eapply names_clash.
Qed.

Section table.
Context `{Sha256} `{UnicodeLower} `{Collation} `{SqlLower} `{UnicodeFold} `{Argon2} `{UrlParser} `{RdpX509} (srv : web_server).
Context (setupToken internalAPIToken groupsClaim nativeCallbackURL : string) (layout probe : bytes) (nativeGateway : option BrokerRoute).
Context (generate_verifier : bytes -> string) (auth_code_url : string -> string -> string -> string).
Notation all_routes := (all_routes srv setupToken internalAPIToken groupsClaim nativeCallbackURL layout probe nativeGateway generate_verifier auth_code_url).
Notation Handler := (Handler srv setupToken internalAPIToken groupsClaim nativeCallbackURL layout probe nativeGateway generate_verifier auth_code_url).

Lemma all_routes_apart : apart (List.map fst all_routes) = true.
Proof. reflexivity. Qed.

(** The handler that serves a request is that of any route it matches. *)
Theorem Handler_serves q name handler b : In (name, handler) all_routes -> route_matches q name = Some b -> Handler q = handler q (web_of q b).
Proof. intros Hin Hm. unfold ControllerRouter.Handler. by rewrite (find_route_unique q _ name handler b all_routes_apart Hin Hm). Qed.
End table.

(** * Every route behind its guard

    A request reaches the work of a route only with a credential: all but the
    six routes of setup and login and the three pages about the process either stop before they ask for anything, or
    ask first for the session of a cookie or token that the request carries,
    and go on only when there is one; the routes of agents stop unless the
    request carries the token of the services. *)

(** The question whose session this request is. *)
Definition credential_question `{Sha256} (q : web_request) (e : happened) : bool :=
  match e with
  | HStore (OpSession d) _ _ _ => cookie_digest q d
  | HStore (OpAPISession d) _ _ _ => token_digest q d
  | HStore (OpNativeSession d) _ _ _ => match ParseBearerToken (wq_authorization q) with Some t => d == TokenDigest t | None => false end
  | _ => false
  end.

Definition public_routes : list string :=
  ["POST /api/v1/setup/admin"; "POST /api/v1/auth/login"; "GET /api/v1/auth/oidc/start"; "GET /api/v1/auth/oidc/callback";
   "POST /api/v1/auth/native/login"; "POST /api/v1/auth/native/exchange"].

Definition process_pages : list string := ["GET /api/v1/health"; "GET /api/v1/ready"; "GET /api/v1/system"].
Definition service_routes : list string :=
  ["GET /api/v1/agent/desktops"; "POST /api/v1/agent/authenticate"; "POST /api/v1/agent/desktop-leases"; "GET /api/v1/agent/desktop-leases/{id}";
   "DELETE /api/v1/agent/desktop-leases/{id}"; "POST /api/v1/agent/desktop-leases/{id}/actions/{action}";
   "POST /api/v1/agent/desktop-leases/{id}/computer-actions"].

(** At most one query, which changes nothing. *)
Definition one_query `{Sha256} `{Collation} `{UnicodeLower} (tr : list happened) : Prop :=
  tr = [] \/ exists B (query : time -> tx DB B) cx s f, tr = [HStore (OpRead query) cx s f] /\ store_after (OpRead query) cx s f = s.

Section guards.
Context `{Sha256} `{UnicodeLower} `{Collation} `{SqlLower} `{UnicodeFold} `{Argon2} `{UrlParser} `{RdpX509} (srv : web_server).
Context (setupToken internalAPIToken groupsClaim nativeCallbackURL : string) (layout probe : bytes) (nativeGateway : option BrokerRoute).
Context (generate_verifier : bytes -> string) (auth_code_url : string -> string -> string -> string).
Context {W : Type} (has_input : bool) (legacy_revoker : string) (w : world W).
Notation Handler := (Handler srv setupToken internalAPIToken groupsClaim nativeCallbackURL layout probe nativeGateway generate_verifier auth_code_url).
Notation run := (run_ctl has_input legacy_revoker w).

(** It was answered with a session. *)
Definition session_found : happened -> bool :=
  store_said (fun B op => match op with OpAPISession _ => fun r => match r with inr _ => true | inl _ => false end | _ => fun _ => true end).

Inductive gated (q : web_request) {A} : ctl A -> Prop :=
| gated_refused e : gated q (CDone (inl e))
| gated_asked B (op : store_op B) k : (forall cx s f, credential_question q (HStore op cx s f) = true) ->
    (forall cx s f, session_found (HStore op cx s f) = false -> exists e, k (store_answer op cx s f) = CDone (inl e)) -> gated q (CStore op k).

Definition stopped {A} (r : ctl_error + A) : Prop := exists e, r = inl e.
Definition identified_run {A} (q : web_request) (r : ctl_error + A) (tr : list happened) : Prop :=
  (tr = [] /\ stopped r) \/
  exists new ask, tr = new ++ [ask] /\ credential_question q ask = true /\ (session_found ask = true \/ (new = [] /\ stopped r)).

Lemma run_appends {A} (p : ctl A) : forall st tr r st' tr', run p st tr = (r, st', tr') -> exists new, tr' = new ++ tr.
Proof.
  assert (forall (e : happened) tr tr', (exists new, tr' = new ++ e :: tr) -> exists new, tr' = new ++ tr) as Hone.
  { intros e tr tr' [new ->]. exists (new ++ [e]). by rewrite <- app_assoc. }
  induction p as [r0 | B q k IH | B m q k IH | B q k IH | k IH | k IH | n k IH | d k IH | vmid k IH | vmid k IH]; intros st tr r st' tr' E; simpl in E.
  - injection E as _ _ <-. by exists [].
  - destruct (w_tx w st) as [[[cx s] f] st1]. eapply Hone, IH, E.
  - destruct (run_prog (w_guest w m) _ st []) as [[r1 st1] ev]. eapply Hone, IH, E.
  - destruct (w_pve w q st). eapply Hone, IH, E.
  - destruct (w_now w st). eapply Hone, IH, E.
  - destruct (w_context w st). eapply Hone, IH, E.
  - destruct (w_random w n st). eapply Hone, IH, E.
  - destruct (w_timer w d st). eapply Hone, IH, E.
  - destruct (w_lock w vmid st). eapply Hone, IH, E.
  - eapply Hone, IH, E.
Qed.

Lemma gated_run {A} q (p : ctl A) st r st' tr : gated q p -> run p st [] = (r, st', tr) -> identified_run q r tr.
Proof.
  intros Hg Hrun. destruct Hg as [e | B op k Hq Hk]; cbn [run_ctl] in Hrun; [injection Hrun as <- <- <-; left; split; [done | by eexists] |].
  destruct (w_tx w st) as [[[cx s] f] st1]. right. destruct (session_found (HStore op cx s f)) eqn:Hf.
  - apply run_appends in Hrun as [new ->]. exists new, (HStore op cx s f). split_and!; [done | apply Hq | by left].
  - destruct (Hk cx s f Hf) as [e Hke]. rewrite Hke in Hrun. injection Hrun as <- <- <-.
    exists [], (HStore op cx s f). split_and!; [done | apply Hq | right; split; [done | by eexists]].
Qed.

Lemma require_auth_gated q {A} (next : Session -> string -> ctl A) : gated q (requireAuth q next).
Proof.
  unfold requireAuth. destruct (session_cookie q) as [c |] eqn:Ec; [| constructor]. apply gated_asked.
  - intros cx s f. cbn. unfold cookie_digest. rewrite Ec. by rewrite eqb_refl.
  - intros cx s f Hf. cbn in *. destruct (store_answer _ cx s f); [by eexists | discriminate].
Qed.
Lemma tokened_gated q {A} (next : Session -> string -> ctl A) : gated q (requireCookieOrAPIToken q next).
Proof.
  unfold requireCookieOrAPIToken. destruct (ParseBearerToken (wq_authorization q)) as [t |] eqn:Et; [| apply require_auth_gated].
  destruct (negb (negb (has_prefix "vcwi_" t) || (512 <? slen t))) eqn:Eg; [| constructor]. apply gated_asked.
  - intros cx s f. cbn. unfold token_digest. rewrite Et. rewrite negb_orb, negb_involutive, <- Z.leb_antisym in Eg. by rewrite Eg, eqb_refl.
  - intros cx s f Hf. cbn in *. destruct (store_answer _ cx s f) as [e | [e | b]]; [by eexists | by eexists | discriminate].
Qed.
Lemma native_gated q {A} (next : UserInfo -> string -> ctl A) : gated q (requireNativeAuth (wq_authorization q) next).
Proof.
  unfold requireNativeAuth. destruct (ParseBearerToken (wq_authorization q)) as [t |] eqn:Et; [| constructor]. apply gated_asked.
  - intros cx s f. cbn. by rewrite Et, eqb_refl.
  - intros cx s f Hf. cbn in *. destruct (store_answer _ cx s f); [by eexists | discriminate].
Qed.

Definition service_token (q : web_request) : Prop :=
  internalAPIToken <> "" /\ ParseBearerToken (wq_authorization q) = Some internalAPIToken.

Lemma web_route_gated name handler q : In (name, handler) (web_routes srv) -> gated q (handler q).
Proof.
  unfold web_routes. cbn [In]. intros Hin.
  repeat (destruct Hin as [Hin | Hin]; [injection Hin as <- <-; first [apply require_auth_gated | apply tokened_gated] |]). destruct Hin.
Qed.
Lemma native_route_gated name handler raw q : In (name, handler) (native_routes srv layout probe nativeGateway) -> gated q (handler raw q).
Proof.
  unfold native_routes. cbn [In]. intros Hin.
  repeat (destruct Hin as [Hin | Hin]; [injection Hin as <- <-; apply native_gated |]). destruct Hin.
Qed.
Lemma service_gated {A} q (p : ctl A) : service_token q \/ gated q (requireService internalAPIToken q p).
Proof.
  unfold requireService. destruct (decide (internalAPIToken = "")) as [-> | Ht]; [right; constructor |].
  rewrite (bool_decide_false (internalAPIToken = "")) by done. cbn [negb censure].
  destruct (ParseBearerToken (wq_authorization q)) as [t |] eqn:E; [| right; constructor].
  unfold ConstantTimeEqual. destruct (negb _) eqn:En; [right; constructor |].
  destruct (decide (t = internalAPIToken)) as [-> | Hne]; [by left | right]. rewrite bool_decide_false by done. constructor.
Qed.
Lemma agent_route_gated name handler raw q : In (name, handler) (agent_routes srv internalAPIToken) -> service_token q \/ gated q (handler raw q).
Proof.
  unfold agent_routes. cbn [In]. intros Hin.
  repeat (destruct Hin as [Hin | Hin]; [injection Hin as <- <-; apply service_gated |]). destruct Hin.
Qed.

Lemma find_route_in {X} q (routes : list (string * X)) name h b : find_route q routes = Some (name, h, b) -> In (name, h) routes /\ route_matches q name = Some b.
Proof.
  induction routes as [| [n h'] rest IH]; [done |]. cbn [find_route]. destruct (route_matches q n) as [b' |] eqn:E.
  - intros [= -> -> ->]. split; [by left | done].
  - intros Hf. destruct (IH Hf). split; [by right | done].
Qed.

(** The pages about the process ask at most one query. *)
Lemma query_changes_nothing {B} (query : time -> tx DB B) cx s f : store_after (OpRead query) cx s f = s.
Proof.
  assert (forall now, snd (Prelude.run (read_only (query now)) s) = s) as Hr.
  { intros now. unfold Prelude.run, read_only. by destruct (query now s) as [? | [? ?]]. }
  unfold store_after. destruct f; [apply Hr.. | done].
Qed.
Lemma one_read {B} (query : time -> tx DB B) k st r st' tr : (forall x, exists v, k x = CDone v) ->
  run (CStore (OpRead query) k : ctl unit) st [] = (r, st', tr) -> one_query tr.
Proof.
  intros Hk Hrun. cbn [run_ctl] in Hrun. destruct (w_tx w st) as [[[cx s] f] st1]. destruct (Hk (store_answer (OpRead query) cx s f)) as [v Hv].
  rewrite Hv in Hrun. injection Hrun as _ _ <-. right. exists B, query, cx, s, f. split; [done | apply query_changes_nothing].
Qed.
Lemma process_reads name handler q st r st' tr : In (name, handler) (process_routes srv) -> run (handler q) st [] = (r, st', tr) ->
  In name process_pages /\ one_query tr.
Proof.
  intros [[= <- <-] | [[= <- <-] | [[= <- <-] | []]]] Hrun; (split; [cbn; tauto |]).
  - injection Hrun as _ _ <-. by left.
  - eapply one_read; [| exact Hrun]. intros x. by destruct x; eexists.
  - eapply one_read; [| exact Hrun]. intros x. by destruct x; eexists.
Qed.

(** (C3) Nothing happens for a request without a credential: whatever the
    request is, either the API runs one of the six public routes of setup and
    login for it; or one of the three pages about the process, which asks the
    database at most one query and changes nothing; or one of the seven routes
    for agents, and the request carries the token of the services; or the API
    asks the store first for the session of a cookie or token of this very
    request and stops unless there is one. *)
Theorem requests_identified raw st r st' tr (Hrun : run (Handler raw) st [] = (r, st', tr)) :
  (exists name b, In name public_routes /\ route_matches raw name = Some b) \/
  (exists name b, In name process_pages /\ route_matches raw name = Some b /\ one_query tr) \/
  (exists name b, In name service_routes /\ route_matches raw name = Some b /\ service_token (web_of raw [])) \/
  identified_run (web_of raw []) r tr.
Proof.
  unfold ControllerRouter.Handler in Hrun. destruct (find_route raw _) as [[[name handler] b] |] eqn:Ef.
  2: { injection Hrun as <- <- <-. right. right. right. left. split; [done | by eexists]. }
  apply find_route_in in Ef as [Hin Hm]. unfold all_routes in Hin. rewrite List.map_app, !in_app_iff in Hin.
  assert (forall {A} (p : ctl A) r' st'' tr', gated (web_of raw b) p -> run p st [] = (r', st'', tr') -> identified_run (web_of raw []) r' tr') as Hg.
  { intros A p r' st'' tr' Hp Hr. exact (gated_run (web_of raw b) p st r' st'' tr' Hp Hr). }
  destruct Hin as [[Hin | Hin] | [Hin | Hin]].
  - apply in_map_iff in Hin as ([n h] & [= <- <-] & Hin). destruct (process_reads _ _ _ _ _ _ _ Hin Hrun) as [Hn Hq]. right. left. by exists n, b.
  - rewrite !List.map_app, !in_app_iff in Hin. destruct Hin as [Hin | [Hin | Hin]].
    + left. exists name, b. split; [| done]. cbn in Hin. intuition; match goal with H : _ = _ |- _ => injection H as <- _; cbn; tauto end.
    + left. exists name, b. split; [| done]. cbn in Hin. intuition; match goal with H : _ = _ |- _ => injection H as <- _; cbn; tauto end.
    + apply in_map_iff in Hin as ([n h] & [= <- <-] & Hin). right. right. right. eapply Hg; [by eapply web_route_gated | exact Hrun].
  - right. right. right. eapply Hg; [by eapply native_route_gated | exact Hrun].
  - destruct (agent_route_gated name handler raw (web_of raw b) Hin) as [Hs | Hp]; [right; right; left | right; right; right; by eapply Hg].
    exists name, b. split; [| by split]. apply (in_map fst) in Hin. exact Hin.
Qed.
End guards.

(** The run in which an administrator disables a user, as a request. *)
#[local] Existing Instance demo_sha.
#[local] Existing Instance demo_collation.
#[local] Existing Instance demo_lower.
#[local] Existing Instance demo_folding.
#[local] Existing Instance demo_sql.
#[local] Existing Instance demo_derivation.
#[local] Existing Instance demo_urls.
#[local] Existing Instance no_certificates.

Definition disable_raw : raw_request :=
  MkRaw "PATCH" "/api/v1/users/bob" "" [("X-Csrf-Token", "csrf")] (Some (json_print (JObj [("disabled", JBool true)]))) "198.51.100.7"
    [(workspaceSessionCookieName, "cookie")].
Definition served_run : (ctl_error + unit) * (DB * nanos) * list happened :=
  run_ctl true "revoker" (deployment (fun _ => true) [] no_guest)
    (Handler demo_server "" "service" "groups" "" "" "" None (fun _ => "") (fun _ _ _ => "") disable_raw) (root_session_db, 10 * second) [].

Lemma requests_identified_witness :
  fst (fst served_run) = inr tt /\ length (snd served_run) = 3%nat /\
  ((exists name b, In name public_routes /\ route_matches disable_raw name = Some b) \/
   (exists name b, In name process_pages /\ route_matches disable_raw name = Some b /\ one_query (snd served_run)) \/
   (exists name b, In name service_routes /\ route_matches disable_raw name = Some b /\ service_token "service" (web_of disable_raw [])) \/
   identified_run (web_of disable_raw []) (fst (fst served_run)) (snd served_run)).
Proof.
  split; [vm_compute; reflexivity |]. split; [vm_compute; reflexivity |].
  apply (requests_identified demo_server "" "service" "groups" "" "" "" None (fun _ => "") (fun _ _ _ => "") true "revoker"
    (deployment (fun _ => true) [] no_guest) disable_raw (root_session_db, 10 * second) (fst (fst served_run)) (snd (fst served_run)) (snd served_run)).
  exact (run_eta _).
Defined.
