(* ===== verification/AgentApi.v ===== *)
(** * The agents' client and the MCP server ([internal/agentapi], [apps/mcp])

    The client of the agent API, the tools that hand it to an agent, and what
    stands between an agent and the tools over HTTP.  A call is a complete
    request; a program is a tree of calls with arbitrary answers.  The MCP
    library, which chooses the tool and its arguments, is represented by an
    arbitrary tool call; net/url, the text of times in JSON and the reading of
    a JPEG header are parameters.  Texts of errors that nobody reads are left
    out. *)
From stdpp Require Import base strings list.
From Stdlib Require Import ZArith Lia Ascii.
From S2P Require Import Prelude GoStrings Auth Db Json Demo Triggers StoreAccess StoreSession StoreLease GatewayTransport Computer Guest GuestAccount ComputerWire StoreAudit StoreCatalog Pve Controller ControllerScripts PveClient ControllerMaintenance ControllerHttp ControllerConnect ControllerConnectProofs ControllerClone ControllerLogin ImageBuilder ControllerWeb ControllerRoutes ControllerRouter.

Local Open Scope string_scope.
Local Open Scope list_scope.
Local Open Scope Z_scope.

(** ** The client ([agentapi/client.go]) *)
Record Client : Set := MkClient { cl_base : string; cl_token : string }.

Inductive api_error : Set :=
| ApiRandom | ApiUnreachable | ApiUnread | ApiTooLarge
| ApiProblem (message code : string)
| ApiStatus (status : Z)
| ApiDecode
| ApiNoIdentity                     (* no authenticated agent in the context *)
| ApiNotAgent                       (* the access token is invalid or disabled *)
| ApiScreenshot.

(** A request behind the base URL of the client. *)
Record api_call : Set := MkApiCall {
  ac_method : string;
  ac_target : string;                        (* path and query *)
  ac_headers : list (string * string);
  ac_body : option string;
  ac_timeout : Z                             (* seconds *)
}.
(** What came back: nothing, or a status and a body that ended or broke off. *)
Inductive api_answer : Set := NoAnswer | Answer (status : Z) (body : string) (complete : bool).

Inductive api_prog (A : Type) : Type :=
| ApiDone (r : api_error + A)
| ApiAsk (q : api_call) (k : api_answer -> api_prog A).
Arguments ApiDone {A}.
Arguments ApiAsk {A}.

Fixpoint api_bind {A B} (p : api_prog A) (f : A -> api_prog B) : api_prog B :=
  match p with
  | ApiDone (inl e) => ApiDone (inl e)
  | ApiDone (inr a) => f a
  | ApiAsk q k => ApiAsk q (fun a => api_bind (k a) f)
  end.
#[export] Instance api_ret : MRet api_prog := fun A a => ApiDone (inr a).
#[export] Instance api_mbind : MBind api_prog := fun A B f p => api_bind p f.

(** The result as a value. *)
Fixpoint api_try {A} (p : api_prog A) : api_prog (api_error + A) :=
  match p with
  | ApiDone r => ApiDone (inr r)
  | ApiAsk q k => ApiAsk q (fun a => api_try (k a))
  end.

(** An error is replaced. *)
Fixpoint api_catch {A} (p : api_prog A) (e : api_error) : api_prog A :=
  match p with
  | ApiDone (inl _) => ApiDone (inl e)
  | ApiDone (inr a) => ApiDone (inr a)
  | ApiAsk q k => ApiAsk q (fun a => api_catch (k a) e)
  end.

(** A run against an environment with a state; the exchanges, newest first. *)
Fixpoint run_api {S A} (net : S -> api_call -> api_answer * S) (p : api_prog A) (s : S) (tr : list (api_call * api_answer)) :
    (api_error + A) * S * list (api_call * api_answer) :=
  match p with
  | ApiDone r => (r, s, tr)
  | ApiAsk q k => let '(a, s') := net s q in run_api net (k a) s' ((q, a) :: tr)
  end.

(** *** The answers that are read *)
Record Desktop : Set := MkDesktop { dt_vmid : Z; dt_name : string; dt_node : string; dt_status : string; dt_cpu_count : Z; dt_memory_total : Z }.
Record Agent : Set := MkAgent { ag_id : string; ag_display_name : string; ag_enabled : bool }.
Record ApiLease : Set := MkApiLease {
  al_id : string; al_agent_id : string; al_desktop_id : string; al_state : string; al_control_epoch : Z;
  al_expires_at : option time                (* None: the zero time *)
}.
Record ApiJob : Set := MkApiJob { aj_id : string; aj_operation : string; aj_state : string; aj_target_vmid : Z; aj_target_node : string; aj_error : string }.

Definition desktop_fields : list string := ["vmid"; "name"; "node"; "status"; "cpu_count"; "memory_total"].
Definition store_desktop : Desktop -> json -> option Desktop := store_struct (fun old l =>
  let text f zero := field desktop_fields store_string zero f l in
  let int f zero := field desktop_fields store_int64 zero f l in
  v ← int "vmid" (dt_vmid old); n ← text "name" (dt_name old); d ← text "node" (dt_node old); s ← text "status" (dt_status old);
  c ← int "cpu_count" (dt_cpu_count old); m ← int "memory_total" (dt_memory_total old); Some (MkDesktop v n d s c m)).
Definition store_desktop_list : list Desktop -> json -> option (list Desktop) := store_struct (fun old l =>
  field ["desktops"] (store_slice store_desktop (MkDesktop 0 "" "" "" 0 0)) old "desktops" l).

Definition agent_fields : list string := ["id"; "display_name"; "enabled"].
Definition zero_agent : Agent := MkAgent "" "" false.
Definition store_agent : Agent -> json -> option Agent := store_struct (fun old l =>
  i ← field agent_fields store_string (ag_id old) "id" l; n ← field agent_fields store_string (ag_display_name old) "display_name" l;
  e ← field agent_fields store_bool (ag_enabled old) "enabled" l; Some (MkAgent i n e)).

Definition job_fields : list string := ["id"; "operation"; "state"; "target_vmid"; "target_node"; "error"].
Definition zero_job : ApiJob := MkApiJob "" "" "" 0 "" "".
Definition store_job : ApiJob -> json -> option ApiJob := store_struct (fun old l =>
  let text f zero := field job_fields store_string zero f l in
  i ← text "id" (aj_id old); o ← text "operation" (aj_operation old); s ← text "state" (aj_state old);
  v ← field job_fields store_int64 (aj_target_vmid old) "target_vmid" l; n ← text "target_node" (aj_target_node old);
  e ← text "error" (aj_error old); Some (MkApiJob i o s v n e)).

(** The problem report of a refusal, as far as it can be read: an error of
    the decoder is ignored, and it goes on past a member it cannot store. *)
Definition member_objects (fields : list string) (f : string) (v : json) : list json :=
  match v with JObj l => field_values fields f l | _ => [] end.
Definition problem_text (f : string) (v : json) : string :=
  last_text (List.concat (List.map (member_objects ["code"; "message"] f) (member_objects ["error"] "error" v))).

(** *** Calls *)
Definition New `{UrlParser} (baseURL token : string) : option Client :=
  parsed ← url_parse (trim_slashes baseURL);
  if negb ((Scheme parsed == "http") || (Scheme parsed == "https")) || (Host parsed == "") then None
  else if token == "" then None
  else Some (MkClient (url_string parsed) token).

(** What [doWithResponseLimit] sends. *)
Definition call_of (c : Client) (method path : string) (input : option json) (idempotencyKey : string) (headers : list (string * string)) (timeout : Z) : api_call :=
  MkApiCall method path
    ([("Authorization", "Bearer " +:+ cl_token c); ("Accept", "application/json")] ++
     match input with Some _ => [("Content-Type", "application/json")] | None => [] end ++
     (if idempotencyKey == "" then [] else [("Idempotency-Key", idempotencyKey)]) ++ headers)
    (option_map json_print input) timeout.

(** What it makes of the answer. *)
Definition read_answer {A} (store : A -> json -> option A) (zero : A) (maximum : Z) (a : api_answer) : api_error + A :=
  match a with
  | NoAnswer => inl ApiUnreachable
  | Answer status body complete =>
      if maximum <? slen body then inl ApiTooLarge
      else if negb complete then inl ApiUnread
      else if (status <? 200) || (300 <=? status) then
        let problem := default JNull (json_document body) in
        let message := problem_text "message" problem in
        inl (if message == "" then ApiStatus status else ApiProblem message (problem_text "code" problem))
      else if body == "" then inr zero
      else match v ← json_document body; store zero v with Some r => inr r | None => inl ApiDecode end
  end.
Definition doWithResponseLimit {A} (c : Client) (method path : string) (input : option json) (store : A -> json -> option A) (zero : A)
    (idempotencyKey : string) (headers : list (string * string)) (maximum timeout : Z) : api_prog A :=
  ApiAsk (call_of c method path input idempotencyKey headers timeout) (fun a => ApiDone (read_answer store zero maximum a)).
Definition doWithHeaders {A} (c : Client) (method path : string) (input : option json) (store : A -> json -> option A) (zero : A)
    (idempotencyKey : string) (headers : list (string * string)) : api_prog A :=
  doWithResponseLimit c method path input store zero idempotencyKey headers (2 ^ 20) 45.
Definition do_ {A} (c : Client) (method path : string) (input : option json) (store : A -> json -> option A) (zero : A) (idempotencyKey : string) : api_prog A :=
  doWithHeaders c method path input store zero idempotencyKey [].

Definition leases_path : string := "/api/v1/agent/desktop-leases".
Definition lease_target (agentID leaseID rest : string) : string :=
  leases_path +:+ "/" +:+ PathEscape leaseID +:+ rest +:+ "?agent_id=" +:+ QueryEscape agentID.

(** [computer.APIActionTimeout] and five seconds more. *)
Definition action_seconds : Z := 65 + 5.

Definition action_json (a : computerActionRequest) : json :=
  JObj (int_member "control_epoch" (ca_control_epoch a) ++ text_member "operation" (ca_operation a) ++ nonzero_int "timeout_ms" (ca_timeout_ms a) ++
    present_member "screenshot" screenshot_json (ca_screenshot a) ++ present_member "accessibility" accessibility_json (ca_accessibility a) ++
    present_member "mouse" mouse_json (ca_mouse a) ++ present_member "key" key_json (ca_key a) ++ present_member "text" text_json (ca_text a)).

Section client.
Context (parse_time : string -> option time) (c : Client).

Definition store_time (old : option time) (v : json) : option (option time) :=
  match v with JStr s => t ← parse_time s; Some (Some t) | JNull => Some old | _ => None end.
Definition api_lease_fields : list string := ["id"; "agent_id"; "desktop_id"; "state"; "control_epoch"; "expires_at"].
Definition zero_api_lease : ApiLease := MkApiLease "" "" "" "" 0 None.
Definition store_api_lease : ApiLease -> json -> option ApiLease := store_struct (fun old l =>
  let text f zero := field api_lease_fields store_string zero f l in
  i ← text "id" (al_id old); a ← text "agent_id" (al_agent_id old); d ← text "desktop_id" (al_desktop_id old); s ← text "state" (al_state old);
  e ← field api_lease_fields store_int64 (al_control_epoch old) "control_epoch" l;
  t ← field api_lease_fields store_time (al_expires_at old) "expires_at" l; Some (MkApiLease i a d s e t)).

Definition AuthenticateAgent (accessToken : string) : api_prog Agent :=
  doWithHeaders c "POST" "/api/v1/agent/authenticate" None store_agent zero_agent "" [("X-Vc-Workspace-Agent-Token", accessToken)].
Definition ListDesktops (agentID : string) : api_prog (list Desktop) :=
  do_ c "GET" ("/api/v1/agent/desktops?agent_id=" +:+ QueryEscape agentID) None store_desktop_list [] "".
Definition AcquireDesktop (agentID : string) (desktopVMID ttlSeconds : Z) : api_prog ApiLease :=
  do_ c "POST" leases_path (Some (JObj (text_member "agent_id" agentID ++ int_member "desktop_vmid" desktopVMID ++ int_member "ttl_seconds" ttlSeconds)))
    store_api_lease zero_api_lease "".
Definition Lease (agentID leaseID : string) : api_prog ApiLease :=
  do_ c "GET" (lease_target agentID leaseID "") None store_api_lease zero_api_lease "".
Definition ReleaseDesktop (agentID leaseID : string) : api_prog ApiLease :=
  do_ c "DELETE" (lease_target agentID leaseID "") None store_api_lease zero_api_lease "".
(** [random]: the eighteen bytes of the key, unless they could not be drawn. *)
Definition ChangePower (random : option bytes) (agentID leaseID action : string) : api_prog ApiJob :=
  match random with
  | None => ApiDone (inl ApiRandom)
  | Some random =>
      do_ c "POST" (lease_target agentID leaseID ("/actions/" +:+ PathEscape action)) None store_job zero_job ("mcp-" +:+ OpaqueToken random)
  end.
Definition ComputerAction (agentID leaseID : string) (input : computerActionRequest) : api_prog Response :=
  doWithResponseLimit c "POST" (lease_target agentID leaseID "/computer-actions") (Some (action_json input)) store_response zero_response "" []
    (2 ^ 24) action_seconds.

(** ** The tools ([apps/mcp/main.go]) *)
Inductive tool_call : Set :=
| DesktopList
| DesktopAcquire (vmid ttl : Z)
| DesktopLeaseGet (lease : string)
| DesktopPower (lease action : string)
| DesktopRelease (lease : string)
| DesktopScreenshot (lease : string) (epoch max_width timeout : Z)
| DesktopAccessibility (lease : string) (epoch max_depth max_nodes timeout : Z)
| DesktopMouse (lease : string) (epoch : Z) (m : Mouse) (timeout : Z)
| DesktopKey (lease : string) (epoch : Z) (k : Key) (timeout : Z)
| DesktopTypeText (lease : string) (epoch : Z) (t : Text) (timeout : Z).

(** The lease and the action of the tools that act in a Guest. *)
Definition tool_action (call : tool_call) : option (string * computerActionRequest) :=
  match call with
  | DesktopScreenshot lease e w t => Some (lease, MkComputerAction e OperationScreenshot t (Some (MkScreenshot w)) None None None None)
  | DesktopAccessibility lease e d n t => Some (lease, MkComputerAction e OperationAccessibility t None (Some (MkAccessibility d n)) None None None)
  | DesktopMouse lease e m t => Some (lease, MkComputerAction e OperationMouse t None None (Some m) None None)
  | DesktopKey lease e k t => Some (lease, MkComputerAction e OperationKey t None None None (Some k) None)
  | DesktopTypeText lease e x t => Some (lease, MkComputerAction e OperationTypeText t None None None None (Some x))
  | _ => None
  end.

(** *** Screenshots ([apps/mcp/screenshot.go]) *)
Record screenshotOutput : Set := MkScreenshotOutput {
  so_schema_version : Z;
  so_request_id : string;
  so_content_type : string;
  so_width : Z;
  so_height : Z;
  so_sha256 : string;
  so_bounds : DesktopBounds
}.
Definition bounds_json (b : DesktopBounds) : json :=
  JObj (int_member "x" (BoundsX b) ++ int_member "y" (BoundsY b) ++ int_member "width" (BoundsWidth b) ++ int_member "height" (BoundsHeight b)).
Definition screenshot_output_json (o : screenshotOutput) : json :=
  JObj (int_member "schema_version" (so_schema_version o) ++ text_member "request_id" (so_request_id o) ++ [("ok", JBool true)] ++
    [("screenshot", JObj (text_member "content_type" (so_content_type o) ++ int_member "width" (so_width o) ++ int_member "height" (so_height o) ++
        text_member "sha256" (so_sha256 o) ++ [("desktop_bounds", bounds_json (so_bounds o))]))]).

Inductive tool_output : Set :=
| OutDesktops (l : list Desktop)
| OutLease (l : ApiLease)
| OutJob (j : ApiJob)
| OutResponse (r : Response)
| OutScreenshot (mime : string) (image : bytes) (metadata : string) (o : screenshotOutput).

Section tools.
Context `{Sha256} (jpeg_size : bytes -> option (Z * Z)).     (* [jpeg.DecodeConfig] *)

Definition bounds_ok (b : DesktopBounds) : bool :=
  negb ((BoundsWidth b <? 1) || (16384 <? BoundsWidth b) || (BoundsHeight b <? 1) || (16384 <? BoundsHeight b) ||
        (BoundsX b <? -16384) || (16384 <? BoundsX b) || (BoundsY b <? -16384) || (16384 <? BoundsY b)).

Definition screenshotToolResult (response : Response) : api_error + tool_output :=
  match RespScreenshot response with
  | None => inl ApiScreenshot
  | Some shot =>
      match Bounds shot with
      | None => inl ApiScreenshot
      | Some bounds =>
          if negb (RespOK response) || (RespSchemaVersion response != SchemaVersion) || (RespRequestID response == "") ||
             (ContentType shot != "image/jpeg") || (slen (Data shot) =? 0) || (12 * 1024 * 1024 <? slen (Data shot)) ||
             (ImageWidth shot <? 1) || (3840 <? ImageWidth shot) || (ImageHeight shot <? 1) || (16384 <? ImageHeight shot) then inl ApiScreenshot
          else if negb (bounds_ok bounds) then inl ApiScreenshot
          else
            match b64_decode StdAlphabet true (Data shot) with
            | None => inl ApiScreenshot
            | Some data =>
                if hex_encode (sha256 data) != SHA256Text shot then inl ApiScreenshot
                else if bool_decide (jpeg_size data = Some (ImageWidth shot, ImageHeight shot)) then
                  let output := MkScreenshotOutput (RespSchemaVersion response) (RespRequestID response) (ContentType shot) (ImageWidth shot)
                    (ImageHeight shot) (SHA256Text shot) bounds in
                  inr (OutScreenshot (ContentType shot) data (json_print (screenshot_output_json output)) output)
                else inl ApiScreenshot
            end
      end
  end.

(** What a tool asks the API, for the agent that [identity] names. *)
Definition tool (random : option bytes) (identity : api_prog string) (call : tool_call) : api_prog tool_output :=
  agentID ← identity;
  match call with
  | DesktopList => l ← ListDesktops agentID; mret (OutDesktops l)
  | DesktopAcquire vmid ttl => l ← AcquireDesktop agentID vmid ttl; mret (OutLease l)
  | DesktopLeaseGet lease => l ← Lease agentID lease; mret (OutLease l)
  | DesktopPower lease action => j ← ChangePower random agentID lease action; mret (OutJob j)
  | DesktopRelease lease => l ← ReleaseDesktop agentID lease; mret (OutLease l)
  | DesktopScreenshot lease e w t =>
      r ← ComputerAction agentID lease (MkComputerAction e OperationScreenshot t (Some (MkScreenshot w)) None None None None);
      ApiDone (screenshotToolResult r)
  | DesktopAccessibility lease e d n t =>
      r ← ComputerAction agentID lease (MkComputerAction e OperationAccessibility t None (Some (MkAccessibility d n)) None None None); mret (OutResponse r)
  | DesktopMouse lease e m t => r ← ComputerAction agentID lease (MkComputerAction e OperationMouse t None None (Some m) None None); mret (OutResponse r)
  | DesktopKey lease e k t => r ← ComputerAction agentID lease (MkComputerAction e OperationKey t None None None (Some k) None); mret (OutResponse r)
  | DesktopTypeText lease e x t => r ← ComputerAction agentID lease (MkComputerAction e OperationTypeText t None None None None (Some x)); mret (OutResponse r)
  end.

(** *** Who asks *)

(** Over stdio: the token of the environment, asked about at every call. *)
Definition stdioAgentIdentity (accessToken : string) : api_prog string :=
  agent ← api_catch (AuthenticateAgent accessToken) ApiNotAgent;
  if ag_enabled agent then mret (ag_id agent) else ApiDone (inl ApiNotAgent).

Definition newStdioAgentIdentity (accessToken : string) : option (api_prog string) :=
  let accessToken := TrimSpace accessToken in
  if accessToken == "" then None else Some (stdioAgentIdentity accessToken).

(** Over HTTP: what [requireAgent] put into the context. *)
Definition contextAgentIdentity (context : option string) : api_prog string :=
  match context with
  | Some agentID => if agentID == "" then ApiDone (inl ApiNoIdentity) else mret agentID
  | None => ApiDone (inl ApiNoIdentity)
  end.

(** A request to /mcp: refused, or served by a tool with this result. *)
Inductive mcp_reply : Set := McpForbidden | McpUnauthorized | McpServed (r : api_error + tool_output).

Definition requireAgent (authorization : string) (next : string -> api_prog mcp_reply) : api_prog mcp_reply :=
  match ParseBearerToken authorization with
  | None => mret McpUnauthorized
  | Some provided =>
      r ← api_try (AuthenticateAgent provided);
      match r with
      | inr agent => if ag_enabled agent then next (ag_id agent) else mret McpUnauthorized
      | inl _ => mret McpUnauthorized
      end
  end.
Definition rejectBrowserOrigin (origin : string) (next : api_prog mcp_reply) : api_prog mcp_reply :=
  if origin != "" then mret McpForbidden else next.

(** [call]: the tool that the library chose for the body of the request. *)
Definition serve_mcp (random : option bytes) (origin authorization : string) (call : tool_call) : api_prog mcp_reply :=
  rejectBrowserOrigin origin (requireAgent authorization (fun agentID =>
    r ← api_try (tool random (contextAgentIdentity (Some agentID)) call); mret (McpServed r))).
End tools.
End client.

(** ** The response of the MCP server ([apps/mcp/http_response.go])

    [net/http] keeps a map of headers that the handler may change until they
    are committed: by the first status that is not informational, by the first
    byte, by a flush, or when the handler returns. *)
Record writer : Set := MkWriter {
  wr_headers : list (string * string);
  wr_sent : option (Z * list (string * string))      (* the committed status and headers *)
}.
Definition set_header (name value : string) (h : list (string * string)) : list (string * string) :=
  (name, value) :: List.filter (fun e => fst e != name) h.

Definition net_WriteHeader (status : Z) (w : writer) : writer :=
  match wr_sent w with
  | Some _ => w
  | None => if (100 <=? status) && (status <=? 199) && (status != 101) then w else MkWriter (wr_headers w) (Some (status, wr_headers w))
  end.
Definition net_Write (w : writer) : writer := net_WriteHeader 200 w.
Definition net_Flush (w : writer) : writer := net_WriteHeader 200 w.

Record privateMCPResponseWriter : Set := MkPrivate { pw_writer : writer; pw_written : bool }.

Definition private_WriteHeader (status : Z) (w : privateMCPResponseWriter) : privateMCPResponseWriter :=
  if pw_written w then w else
  MkPrivate (net_WriteHeader status (MkWriter (set_header "Cache-Control" "no-store, no-transform" (wr_headers (pw_writer w))) (wr_sent (pw_writer w)))) true.
Definition private_Write (w : privateMCPResponseWriter) : privateMCPResponseWriter :=
  let w := if pw_written w then w else private_WriteHeader 200 w in
  MkPrivate (net_Write (pw_writer w)) (pw_written w).
Definition private_Flush (w : privateMCPResponseWriter) : privateMCPResponseWriter :=
  let w := if pw_written w then w else private_WriteHeader 200 w in
  MkPrivate (net_Flush (pw_writer w)) (pw_written w).

(** What a handler may do with it. *)
Inductive writer_step : Set := SetHeader (name value : string) | DelHeader (name : string) | StepHeader (status : Z) | StepWrite | StepFlush.
Definition private_step (w : privateMCPResponseWriter) (e : writer_step) : privateMCPResponseWriter :=
  match e with
  | SetHeader name value =>
      MkPrivate (MkWriter (set_header name value (wr_headers (pw_writer w))) (wr_sent (pw_writer w))) (pw_written w)
  | DelHeader name =>
      MkPrivate (MkWriter (List.filter (fun e => fst e != name) (wr_headers (pw_writer w))) (wr_sent (pw_writer w))) (pw_written w)
  | StepHeader status => private_WriteHeader status w
  | StepWrite => private_Write w
  | StepFlush => private_Flush w
  end.
Definition private_start : privateMCPResponseWriter :=
  MkPrivate (MkWriter [("Cache-Control", "no-store, no-transform")] None) false.
Definition private_run (steps : list writer_step) : privateMCPResponseWriter := fold_left private_step steps private_start.
(** The handler returns. *)
Definition private_end (w : privateMCPResponseWriter) : option (Z * list (string * string)) := wr_sent (net_Write (pw_writer w)).

(** * A tool call reaches its handler

    What a tool sends is received as the request it stands for: the route, the
    agent, the lease and the body that the handler is run with are those of
    the call.  A body is read back by the general round trip of [Json]. *)

(** ** Reading back structs *)
Definition named (fields : list string) (name : string) : bool := match field_of fields name with Some _ => true | None => false end.

Section members.
Context (fields : list string).

Lemma values_text f n v : field_values fields f (text_member n v) = if field_of fields n == Some f then [JStr (json_text v)] else [].
Proof. apply field_values_member. Qed.
Lemma values_int f n z : field_values fields f (int_member n z) = if field_of fields n == Some f then [JNum (itoa z)] else [].
Proof. apply field_values_member. Qed.
Lemma values_nonzero f n z : field_values fields f (nonzero_int n z) = if field_of fields n == Some f then (if z =? 0 then [] else [JNum (itoa z)]) else [].
Proof. unfold nonzero_int. destruct (z =? 0); [by case_match | apply values_int]. Qed.
Lemma values_nonempty f n v : field_values fields f (nonempty_text n v) = if field_of fields n == Some f then (if v == "" then [] else [JStr (json_text v)]) else [].
Proof. unfold nonempty_text. destruct (v == ""); [by case_match | apply values_text]. Qed.
Lemma values_true f n b : field_values fields f (true_member n b) = if field_of fields n == Some f then (if b then [JBool true] else []) else [].
Proof. unfold true_member. destruct b; [apply field_values_member | by case_match]. Qed.
Lemma values_present {A} f n (g : A -> json) o : field_values fields f (present_member n g o) =
  if field_of fields n == Some f then match o with Some a => [g a] | None => [] end else [].
Proof. unfold present_member. destruct o; [apply field_values_member | by case_match]. Qed.

Lemma known_text n v : known_fields fields (text_member n v) = named fields n.
Proof. apply known_member. Qed.
Lemma known_int n z : known_fields fields (int_member n z) = named fields n.
Proof. apply known_member. Qed.
Lemma known_nonzero n z : known_fields fields (nonzero_int n z) = (z =? 0) || named fields n.
Proof. unfold nonzero_int. destruct (z =? 0); [done | apply known_int]. Qed.
Lemma known_nonempty n v : known_fields fields (nonempty_text n v) = (v == "") || named fields n.
Proof. unfold nonempty_text. destruct (v == ""); [done | apply known_text]. Qed.
Lemma known_true n b : known_fields fields (true_member n b) = negb b || named fields n.
Proof. unfold true_member. destruct b; [apply known_member | done]. Qed.
Lemma known_present {A} n (g : A -> json) o : known_fields fields (present_member n g o) = match o with Some _ => named fields n | None => true end.
Proof. unfold present_member. destruct o; [apply known_member | done]. Qed.
End members.

(** All about the members of one object: what reaches a field, and that every
    name is known. *)
Ltac one_field :=
  unfold field; rewrite ?field_values_app, ?values_text, ?values_int, ?values_nonzero, ?values_nonempty, ?values_true, ?values_present, ?field_values_member;
  repeat match goal with |- context [field_of ?fs ?n == ?f] => let x := eval vm_compute in (field_of fs n == f) in change (field_of fs n == f) with x end;
  cbn iota; rewrite ?app_nil_l, ?app_nil_r.
Ltac all_known :=
  rewrite ?known_fields_app, ?known_text, ?known_int, ?known_nonzero, ?known_nonempty, ?known_true, ?known_present, ?known_member;
  repeat match goal with |- context [named ?fs ?n] => change (named fs n) with true end; rewrite ?orb_true_r; try reflexivity.

(** ** Stores *)
Definition fits (z : Z) : bool := (- 2 ^ 63 <=? z) && (z <? 2 ^ 63).
Lemma fits_int64 z : fits z = true -> int64 z.
Proof. unfold fits, int64. intros Hz. b2p. lia. Qed.

Lemma stored_int old z : fits z = true -> decode_field store_int64 old [JNum (itoa z)] = Some z.
Proof. intros Hz. cbn [decode_field fold_left mbind option_bind]. apply store_itoa, fits_int64, Hz. Qed.
Lemma stored_nonzero z : fits z = true -> decode_field store_int64 0 (if z =? 0 then [] else [JNum (itoa z)]) = Some z.
Proof. intros Hz. destruct (Z.eqb_spec z 0) as [-> |]; [done | by apply stored_int]. Qed.
Lemma stored_text old v : ValidString v = true -> decode_field store_string old [JStr (json_text v)] = Some v.
Proof. intros Hv. cbn. by rewrite json_text_valid. Qed.
Lemma stored_nonempty v : ValidString v = true -> decode_field store_string "" (if v == "" then [] else [JStr (json_text v)]) = Some v.
Proof. intros Hv. destruct (decide (v = "")) as [-> | E]; [done | rewrite bool_decide_false by done; by apply stored_text]. Qed.
Lemma stored_true (b : bool) : decode_field store_bool false (if b then [JBool true] else @nil json) = Some b.
Proof. by destruct b. Qed.

Definition stored {A} (ok : A -> bool) (store : A -> json -> option A) (zero : A) (f : A -> json) : Prop :=
  forall a, ok a = true -> f a <> JNull /\ store zero (f a) = Some a.
Definition optional_ok {A} (ok : A -> bool) (o : option A) : bool := match o with Some a => ok a | None => true end.
Lemma stored_present {A} (ok : A -> bool) store zero (f : A -> json) o : stored ok store zero f -> optional_ok ok o = true ->
  decode_field (store_ptr store zero) None (match o with Some a => [f a] | None => [] end) = Some o.
Proof.
  intros Hs Ho. destruct o as [a |]; [| done]. destruct (Hs a Ho) as [Hn Ha]. cbn. unfold store_ptr.
  destruct (f a) eqn:E; [done | ..]; cbn [default]; by rewrite Ha.
Qed.
Lemma stored_modifiers l : forallb ValidString l = true ->
  decode_field (store_slice store_string "") [] (match l with [] => [] | _ => [JArr (List.map (fun m => JStr (json_text m)) l)] end) = Some l.
Proof.
  intros Hl. destruct l as [| m l]; [done |]. cbn [decode_field fold_left mbind option_bind store_slice].
  revert Hl. generalize (m :: l). clear m l. induction l as [| m l IH]; [done |]. cbn [forallb List.map store_elements]. intros [Hm Hl]%andb_true_iff.
  cbn. rewrite json_text_valid by done. change (@tail string []) with (@nil string). by rewrite IH.
Qed.

(** ** The parts of an action

    Texts in valid UTF-8 and integers of the width of Go's: what a decoded
    tool call consists of. *)
Definition screenshot_ok (s : Screenshot) : bool := fits (MaxWidth s).
Definition accessibility_ok (a : Accessibility) : bool := fits (MaxDepth a) && fits (MaxNodes a).
Definition mouse_ok (m : Mouse) : bool :=
  ValidString (MouseAction m) && fits (MouseX m) && fits (MouseY m) && ValidString (Button m) && fits (DeltaX m) && fits (DeltaY m).
Definition key_ok (k : Key) : bool := ValidString (KeyName k) && forallb ValidString (Modifiers k).
Definition text_ok (t : Text) : bool := ValidString (TextValue t).
Definition action_ok (a : computerActionRequest) : bool :=
  fits (ca_control_epoch a) && ValidString (ca_operation a) && fits (ca_timeout_ms a) && optional_ok screenshot_ok (ca_screenshot a) &&
  optional_ok accessibility_ok (ca_accessibility a) && optional_ok mouse_ok (ca_mouse a) && optional_ok key_ok (ca_key a) && optional_ok text_ok (ca_text a).

Ltac stored_struct :=
  split; [discriminate |]; unfold store_strict, store_struct;
  match goal with |- context [known_fields ?fs ?l] => assert (known_fields fs l = true) as -> by all_known end; cbn iota beta zeta;
  repeat match goal with |- context [field ?fs ?st ?z ?n ?l] => let E := fresh in
    assert (exists r, field fs st z n l = r) as [? E] by eauto; revert E; one_field; intros <- end.

Lemma screenshot_stored : stored screenshot_ok store_screenshot zero_screenshot screenshot_json.
Proof. intros [w] Ho. unfold store_screenshot, screenshot_json. stored_struct. by rewrite stored_nonzero. Qed.
Lemma accessibility_stored : stored accessibility_ok store_accessibility zero_accessibility accessibility_json.
Proof.
  intros [d n] Ho. unfold accessibility_ok in Ho. b2p. destruct_and!. unfold store_accessibility, accessibility_json. stored_struct.
  by rewrite !stored_nonzero.
Qed.
Lemma mouse_stored : stored mouse_ok store_mouse zero_mouse mouse_json.
Proof.
  intros [a x y b dx dy] Ho. unfold mouse_ok in Ho. b2p. destruct_and!. unfold store_mouse, mouse_json. stored_struct.
  by rewrite stored_text, !stored_nonzero, stored_nonempty.
Qed.

Definition modifiers_member (l : list string) : list (string * json) :=
  match l with [] => [] | _ => [("modifiers", JArr (List.map (fun m => JStr (json_text m)) l))] end.
Lemma values_modifiers l : field_values key_fields "key" (modifiers_member l) = [] /\
  field_values key_fields "modifiers" (modifiers_member l) = match l with [] => [] | _ => [JArr (List.map (fun m => JStr (json_text m)) l)] end.
Proof. by destruct l. Qed.
Lemma known_modifiers l : known_fields key_fields (modifiers_member l) = true.
Proof. by destruct l. Qed.

Lemma key_stored : stored key_ok store_key zero_key key_json.
Proof.
  intros [k l] [Hk Hm]%andb_true_iff. cbn [KeyName Modifiers] in *. unfold store_key.
  assert (key_json (MkKey k l) = JObj (text_member "key" k ++ modifiers_member l)) as -> by by destruct l. split; [discriminate |]. unfold store_strict, store_struct.
  rewrite known_fields_app, known_text, known_modifiers. cbn iota beta zeta.
  assert (field key_fields store_string (KeyName zero_key) "key" (text_member "key" k ++ modifiers_member l) = Some k) as ->
    by (one_field; rewrite (proj1 (values_modifiers l)); cbn [app]; by rewrite stored_text).
  assert (field key_fields (store_slice store_string "") (Modifiers zero_key) "modifiers" (text_member "key" k ++ modifiers_member l) = Some l) as ->
    by (one_field; rewrite (proj2 (values_modifiers l)); cbn [app Modifiers zero_key]; by apply stored_modifiers).
  done.
Qed.
Lemma text_stored : stored text_ok store_text zero_text text_json.
Proof. intros [v b] Ho. unfold store_text, text_json. stored_struct. by rewrite stored_text, stored_true. Qed.

(** ** The bodies *)
Definition action_members (a : computerActionRequest) : list (string * json) := match action_json a with JObj l => l | _ => [] end.

Lemma action_read a : action_ok a = true -> known_fields action_fields (action_members a) = true /\ read_action (action_members a) = Some a.
Proof.
  destruct a as [e op t s x m k y]. unfold action_ok. cbn [ca_control_epoch ca_operation ca_timeout_ms ca_screenshot ca_accessibility ca_mouse ca_key ca_text].
  intros Ho. b2p. destruct_and!. unfold action_members, action_json, read_action.
  cbn [ca_control_epoch ca_operation ca_timeout_ms ca_screenshot ca_accessibility ca_mouse ca_key ca_text]. split.
  - all_known. by destruct s, x, m, k, y.
  - repeat match goal with |- context [field ?fs ?st ?z ?n ?l] => let E := fresh in
      assert (exists r, field fs st z n l = r) as [? E] by eauto; revert E; one_field; intros <- end.
    rewrite stored_int, stored_text, stored_nonzero by done. cbn [mbind option_bind].
    rewrite (stored_present _ _ _ _ s screenshot_stored), (stored_present _ _ _ _ x accessibility_stored), (stored_present _ _ _ _ m mouse_stored),
      (stored_present _ _ _ _ k key_stored), (stored_present _ _ _ _ y text_stored) by done. done.
Qed.

Definition lease_members (agentID : string) (vmid ttl : Z) : list (string * json) :=
  text_member "agent_id" agentID ++ int_member "desktop_vmid" vmid ++ int_member "ttl_seconds" ttl.
Lemma lease_read agentID vmid ttl : ValidString agentID = true -> fits vmid = true -> fits ttl = true ->
  known_fields lease_fields (lease_members agentID vmid ttl) = true /\
  read_lease (lease_members agentID vmid ttl) = Some (MkLeaseRequest agentID vmid ttl).
Proof.
  intros. unfold lease_members, read_lease, text_field. split; [all_known |].
  repeat match goal with |- context [field ?fs ?st ?z ?n ?l] => let E := fresh in
    assert (exists r, field fs st z n l = r) as [? E] by eauto; revert E; one_field; intros <- end.
  by rewrite stored_text, !stored_int.
Qed.

(** A printed object of known members is decoded as they are read. *)
Lemma decodeJSON_printed {A} fields (read : list (string * json) -> option A) zero q l :
  jr_body (wq_job q) = Some (json_print (JObj l)) -> writable (JObj l) -> known_fields fields l = true -> slen (json_print (JObj l)) <= 2 ^ 20 ->
  decodeJSON fields read zero q = read l.
Proof.
  intros Hb Hw Hk Hl. unfold decodeJSON. rewrite Hb. cbn [mbind option_bind]. unfold limited.
  rewrite (proj2 (Z.ltb_ge _ _)) by (change 1048576 with (2 ^ 20); lia). rewrite json_document_printed by done. cbn [mbind option_bind store_struct].
  by rewrite Hk.
Qed.

(** ** What is sent can be read *)
Definition members_ok (l : list (string * json)) : Prop := Forall (fun e => ValidString (fst e) = true /\ writable (snd e)) l.

Lemma members_writable l : members_ok l -> writable (JObj l).
Proof. intros Hl. cbn [writable]. by apply Forall_id_map. Qed.
Lemma members_app l l' : members_ok l -> members_ok l' -> members_ok (l ++ l').
Proof. intros. by apply Forall_app_2. Qed.
Lemma members_one n v : ValidString n = true -> writable v -> members_ok [(n, v)].
Proof. intros. by constructor. Qed.
Lemma members_text n v : ValidString n = true -> ValidString v = true -> members_ok (text_member n v).
Proof. intros. apply members_one; [done |]. cbn. by rewrite json_text_valid. Qed.
Lemma members_int n z : ValidString n = true -> members_ok (int_member n z).
Proof. intros. apply members_one; [done | by eexists]. Qed.
Lemma members_nonzero n z : ValidString n = true -> members_ok (nonzero_int n z).
Proof. unfold nonzero_int. case_match; [constructor | by apply members_int]. Qed.
Lemma members_nonempty n v : ValidString n = true -> ValidString v = true -> members_ok (nonempty_text n v).
Proof. unfold nonempty_text. case_match; [constructor | by apply members_text]. Qed.
Lemma members_true n b : ValidString n = true -> members_ok (true_member n b).
Proof. intros. destruct b; [by apply members_one | constructor]. Qed.
Lemma members_present {A} (ok : A -> bool) n (f : A -> json) o : ValidString n = true -> (forall a, ok a = true -> writable (f a)) ->
  optional_ok ok o = true -> members_ok (present_member n f o).
Proof. intros Hn Hf Ho. destruct o; [apply members_one; [done | by apply Hf] | constructor]. Qed.

Ltac members := repeat first [apply members_app | apply members_text | apply members_int | apply members_nonzero | apply members_nonempty | apply members_true]; try reflexivity; try assumption.

Lemma screenshot_writable s : screenshot_ok s = true -> writable (screenshot_json s).
Proof. intros _. apply members_writable. members. Qed.
Lemma accessibility_writable a : accessibility_ok a = true -> writable (accessibility_json a).
Proof. intros _. apply members_writable. members. Qed.
Lemma mouse_writable m : mouse_ok m = true -> writable (mouse_json m).
Proof. unfold mouse_ok. intros Ho. b2p. destruct_and!. apply members_writable. members. Qed.
Lemma key_writable k : key_ok k = true -> writable (key_json k).
Proof.
  intros [Hk Hm]%andb_true_iff. apply members_writable, members_app; [by apply members_text |].
  destruct (Modifiers k) as [| m l]; [constructor |]. apply members_one; [done |]. cbn [writable]. apply Forall_id_map, List.Forall_forall.
  intros v (x & <- & Hx)%in_map_iff. cbn. rewrite forallb_forall in Hm. by rewrite json_text_valid; apply Hm.
Qed.
Lemma text_writable t : text_ok t = true -> writable (text_json t).
Proof. intros Ho. apply members_writable. members. Qed.

Lemma action_writable a : action_ok a = true -> writable (JObj (action_members a)).
Proof.
  unfold action_ok. intros Ho. b2p. destruct_and!. apply members_writable. unfold action_members, action_json. members.
  1: by eapply members_present; [| apply screenshot_writable |].
  1: by eapply members_present; [| apply accessibility_writable |].
  1: by eapply members_present; [| apply mouse_writable |].
  1: by eapply members_present; [| apply key_writable |].
  1: by eapply members_present; [| apply text_writable |].
Qed.
Lemma lease_writable agentID vmid ttl : ValidString agentID = true -> writable (JObj (lease_members agentID vmid ttl)).
Proof. intros. apply members_writable. unfold lease_members. members. Qed.

(** ** On the way *)

(** The server receives the call: net/http adds its user agent. *)
Definition received (source_ip user_agent : string) (q : api_call) : raw_request :=
  let '(path, query, _) := cut "?" (ac_target q) in
  MkRaw (ac_method q) path query (ac_headers q ++ [("User-Agent", user_agent)]) (Some (default "" (ac_body q))) source_ip [].

Lemma clean_escape s : clean_segment s = true -> clean_segment (PathEscape s) = true.
Proof.
  unfold clean_segment. rewrite !andb_true_iff, !negb_true_iff, !bool_decide_eq_false. intros [[H0 H1] H2].
  pose proof (PathUnescape_escape s) as Hs.
  split_and!; intros E; rewrite E in Hs; injection Hs as <-; congruence.
Qed.

Lemma received_parts source ua method segs agentID headers body timeout :
  let q := MkApiCall method ("/" +:+ join "/" segs +:+ "?agent_id=" +:+ QueryEscape agentID) headers body timeout in
  forallb (no_char "?") segs = true ->
  received source ua q = MkRaw method ("/" +:+ join "/" segs) ("agent_id=" +:+ QueryEscape agentID) (headers ++ [("User-Agent", ua)]) (Some (default "" body)) source [].
Proof.
  intros q Hs. unfold received, q. cbn [ac_target ac_method ac_headers ac_body].
  change ("?agent_id=" +:+ QueryEscape agentID) with (String "?" ("agent_id=" +:+ QueryEscape agentID)).
  rewrite <- append_assoc_s. rewrite cut_word; [done |]. rewrite no_char_app. cbn [no_char]. change (no_char "?" "/") with true. cbn [andb].
  induction segs as [| a [| b l] IH]; [done | cbn in *; by rewrite andb_true_r in Hs |].
  cbn [forallb] in Hs. apply andb_true_iff in Hs as [Ha Hs]. change (join "/" (a :: b :: l)) with (a +:+ String "/" (join "/" (b :: l))).
  rewrite no_char_app, Ha. cbn [andb]. apply IH, Hs.
Qed.

Lemma route_of q name p segs b : parse_pattern name = Some p -> rw_path q = "/" +:+ join "/" segs -> segs <> [] ->
  forallb (no_char "/") segs = true -> forallb clean_segment segs = true -> match_pattern p (rw_method q) segs = Some b -> route_matches q name = Some b.
Proof.
  intros Hp Hpath Hne Hn Hc Hm. unfold route_matches. rewrite Hp. cbn [mbind option_bind]. unfold clean_path, path_segments. rewrite Hpath.
  change ("/" +:+ join "/" segs) with (String "/" (join "/" segs)). change (cut_prefix "/" (String "/" ?s)) with (Some s). cbn [mbind option_bind].
  rewrite split_join; [by rewrite Hc | done |]. apply Forall_forall. intros w Hw. rewrite forallb_forall in Hn. by apply Hn, list_elem_of_In.
Qed.

(** ** At the server *)
Section arrival.
Context `{Sha256} `{UnicodeLower} `{Collation} `{SqlLower} `{UnicodeFold} `{Argon2} `{UrlParser} `{RdpX509} (srv : web_server).
Context (setupToken internalAPIToken groupsClaim nativeCallbackURL : string) (layout probe : bytes) (nativeGateway : option BrokerRoute).
Context (generate_verifier : bytes -> string) (auth_code_url : string -> string -> string -> string).
Context (parse_time : string -> option time) (jpeg_size : bytes -> option (Z * Z)) (base source user_agent : string).
Context (Htoken : internalAPIToken <> "") (Hbearer : ParseBearerToken ("Bearer " +:+ internalAPIToken) = Some internalAPIToken).
Notation Handler := (Handler srv setupToken internalAPIToken groupsClaim nativeCallbackURL layout probe nativeGateway generate_verifier auth_code_url).
Notation requireService := (requireService internalAPIToken).
Notation client := (MkClient base internalAPIToken).

Lemma service_serves {A} name (h : raw_request -> web_request -> ctl A) q segs pat b :
  In (name, fun raw web => requireService web (void (h raw web))) (agent_routes srv internalAPIToken) -> parse_pattern name = Some pat ->
  rw_path q = "/" +:+ join "/" segs -> segs <> [] -> forallb (no_char "/") segs = true -> forallb clean_segment segs = true ->
  match_pattern pat (rw_method q) segs = Some b -> header q "Authorization" = "Bearer " +:+ internalAPIToken ->
  Handler q = void (h q (web_of q b)).
Proof.
  intros Hin Hp Hpath Hne Hn Hc Hm Ha. erewrite Handler_serves; [| | by eapply route_of].
  2: { unfold all_routes. apply in_or_app. right. apply in_or_app. right. exact Hin. }
  cbn beta. unfold ControllerRouter.requireService, web_of. cbn [wq_authorization]. rewrite Ha, Hbearer, bool_decide_false by done.
  unfold ConstantTimeEqual. by rewrite Z.eqb_refl, eqb_refl.
Qed.

(** What a tool stands for at the server. *)
Definition tool_handler (agentID : string) (random : bytes) (call : tool_call) : ctl unit :=
  let from lease := MkHttpRequest agentID lease source user_agent in
  match call with
  | DesktopList => void (agentDesktops (from ""))
  | DesktopAcquire vmid ttl => void (createAgentDesktopLease (MkHttpRequest "" "" source user_agent) (Some (MkLeaseRequest agentID vmid ttl)))
  | DesktopLeaseGet lease => void (agentDesktopLease (from lease))
  | DesktopRelease lease => void (releaseAgentDesktopLease (srv_has_computer srv) (from lease))
  | DesktopPower lease action =>
      void (changeAgentDesktopPower (from lease)
        (MkJobRequest ("mcp-" +:+ OpaqueToken random) "POST" (leases_path +:+ "/" +:+ PathEscape lease +:+ "/actions/" +:+ PathEscape action) (Some "")) action)
  | _ =>
      match tool_action call with
      | Some (lease, action) => void (agentComputerAction (srv_has_computer srv) (srv_background srv) (from lease) (inr action))
      | None => mret tt
      end
  end.

Definition call_ok (agentID : string) (call : tool_call) : bool :=
  match call with
  | DesktopList => true
  | DesktopAcquire vmid ttl => fits vmid && fits ttl && (slen (json_print (JObj (lease_members agentID vmid ttl))) <=? 2 ^ 20)
  | DesktopLeaseGet lease | DesktopRelease lease => clean_segment lease
  | DesktopPower lease action => clean_segment lease && clean_segment action
  | _ =>
      match tool_action call with
      | Some (lease, action) => clean_segment lease && action_ok action && (slen (json_print (action_json action)) <=? 2 ^ 20)
      | None => true
      end
  end.

Definition lease_segments (lease : string) (rest : list string) : list string := ["api"; "v1"; "agent"; "desktop-leases"; PathEscape lease] ++ rest.

Lemma segments_ok lease rest : clean_segment lease = true -> forallb clean_segment rest = true ->
  forallb (fun s => no_char "/" s && no_char "?" s) rest = true ->
  forallb clean_segment (lease_segments lease rest) = true /\ forallb (no_char "/") (lease_segments lease rest) = true /\
  forallb (no_char "?") (lease_segments lease rest) = true.
Proof.
  intros Hl Hr Hn. unfold lease_segments. rewrite !forallb_app, Hr. cbn [forallb]. rewrite (clean_escape lease Hl), !PathEscape_no_char by done.
  rewrite forallb_forall in Hn. split; [done |].
  split; (apply andb_true_iff; split; [done |]; apply forallb_forall; intros s Hs; specialize (Hn s Hs); apply andb_true_iff in Hn; tauto).
Qed.

Lemma lease_target_join agentID lease rest : lease_target agentID lease (String.concat "" (List.map (fun s => "/" +:+ s) rest)) =
  "/" +:+ join "/" (lease_segments lease rest) +:+ "?agent_id=" +:+ QueryEscape agentID.
Proof.
  unfold lease_target, lease_segments. cbn [app].
  assert (forall w, join "/" (w :: rest) = w +:+ String.concat "" (List.map (fun s => "/" +:+ s) rest)) as E.
  { induction rest as [| r l IH]; intros w; [cbn; by rewrite append_nil_s |].
    change (join "/" (w :: r :: l)) with (w +:+ String "/" (join "/" (r :: l))). rewrite IH. f_equal.
    destruct l as [| r' l]; cbn [List.map String.concat]; [by rewrite append_nil_s | done]. }
  change (join "/" ("api" :: "v1" :: "agent" :: "desktop-leases" :: PathEscape lease :: rest)) with
    ("api/v1/agent/desktop-leases/" +:+ join "/" (PathEscape lease :: rest)).
  rewrite E, !append_assoc_s. done.
Qed.

(** A call about a lease, as it arrives. *)
Definition lease_raw (method lease : string) (rest : list string) (agentID : string) (headers : list (string * string)) (body : option string) : raw_request :=
  MkRaw method ("/" +:+ join "/" (lease_segments lease rest)) ("agent_id=" +:+ QueryEscape agentID)
    ((("Authorization", "Bearer " +:+ internalAPIToken) :: headers) ++ [("User-Agent", user_agent)]) (Some (default "" body)) source [].

Lemma lease_call_serves {A} name (h : raw_request -> web_request -> ctl A) method lease rest pat b agentID headers body timeout :
  In (name, fun raw web => requireService web (void (h raw web))) (agent_routes srv internalAPIToken) -> parse_pattern name = Some pat ->
  clean_segment lease = true -> forallb clean_segment rest = true -> forallb (fun s => no_char "/" s && no_char "?" s) rest = true ->
  match_pattern pat method (lease_segments lease rest) = Some b ->
  Handler (received source user_agent
    (MkApiCall method (lease_target agentID lease (String.concat "" (List.map (fun s => "/" +:+ s) rest))) (("Authorization", "Bearer " +:+ internalAPIToken) :: headers) body timeout)) =
  void (h (lease_raw method lease rest agentID headers body) (web_of (lease_raw method lease rest agentID headers body) b)).
Proof.
  intros Hin Hp Hl Hr Hn Hm. destruct (segments_ok lease rest Hl Hr Hn) as (Hc & Hs & Hq).
  rewrite lease_target_join, received_parts by done.
  eapply service_serves; [exact Hin | exact Hp | | | | | exact Hm |]; done.
Qed.

Lemma agent_of_query agentID : default "" (first_of "agent_id" (parse_query ("agent_id=" +:+ QueryEscape agentID))) = agentID.
Proof. change ("agent_id=" +:+ QueryEscape agentID) with ("agent_id" +:+ "=" +:+ QueryEscape agentID). by rewrite parse_query_one. Qed.

Lemma lease_from method lease rest agentID headers body b : header (lease_raw method lease rest agentID headers body) "User-Agent" = user_agent ->
  wq_from (web_of (lease_raw method lease rest agentID headers body) (("id", lease) :: b)) = MkHttpRequest agentID lease source user_agent.
Proof.
  intros Hua. cbn [web_of wq_from]. rewrite Hua. cbn [lease_raw rw_query rw_source_ip]. by rewrite agent_of_query.
Qed.

Lemma nth_route n name h : nth_error (agent_routes srv internalAPIToken) n = Some (name, h) -> In (name, h) (agent_routes srv internalAPIToken).
Proof. apply nth_error_In. Qed.

Definition lease_pattern : list pattern_segment := [Literal "api"; Literal "v1"; Literal "agent"; Literal "desktop-leases"; Wildcard "id"].
Lemma segment_escape s : segment_text (PathEscape s) = s.
Proof. unfold segment_text. by rewrite PathUnescape_escape. Qed.
Lemma match_lease method pat lease rest b : match_segments pat rest = Some b ->
  match_pattern (MkPattern method (lease_pattern ++ pat)) method (lease_segments lease rest) = Some (("id", lease) :: b).
Proof.
  intros Hm. unfold match_pattern. cbn [pt_method pt_segments]. unfold method_matches. rewrite eqb_refl. cbn [orb].
  unfold lease_pattern, lease_segments. cbn [app match_segments].
  repeat match goal with |- context [segment_text ?l == ?m] => change (segment_text l == m) with true end. cbn iota. by rewrite Hm, segment_escape.
Qed.

(** The action of a tool, as the client sends it and the server runs it. *)
Definition action_call (agentID lease : string) (action : computerActionRequest) : api_call :=
  call_of client "POST" (lease_target agentID lease "/computer-actions") (Some (action_json action)) "" [] action_seconds.

Lemma action_arrives agentID lease action : clean_segment lease = true -> action_ok action = true -> slen (json_print (action_json action)) <= 2 ^ 20 ->
  Handler (received source user_agent (action_call agentID lease action)) =
    void (agentComputerAction (srv_has_computer srv) (srv_background srv) (MkHttpRequest agentID lease source user_agent) (inr action)).
Proof.
  intros Hl Ha Hs. destruct (action_read action Ha) as [Hk Hr].
  etransitivity; [apply (lease_call_serves "POST /api/v1/agent/desktop-leases/{id}/computer-actions"
    (fun _ q => agentComputerAction (srv_has_computer srv) (srv_background srv) (wq_from q) (action_body q)) "POST" lease ["computer-actions"]
    (MkPattern "POST" (lease_pattern ++ [Literal "computer-actions"])) [("id", lease)]
    agentID [("Accept", "application/json"); ("Content-Type", "application/json")] (Some (json_print (action_json action))) action_seconds);
    [by apply (nth_route 6) | done.. | by apply match_lease] |].
  rewrite lease_from by done. f_equal. f_equal. unfold action_body.
  rewrite (decodeJSON_printed action_fields read_action zero_action _ (action_members action)); [by rewrite Hr | done | by apply action_writable | done | done].
Qed.

Lemma list_arrives agentID :
  Handler (received source user_agent (call_of client "GET" ("/api/v1/agent/desktops?agent_id=" +:+ QueryEscape agentID) None "" [] 45)) =
    tool_handler agentID "" DesktopList.
Proof.
  pose proof (received_parts source user_agent "GET" ["api"; "v1"; "agent"; "desktops"] agentID
    [("Authorization", "Bearer " +:+ internalAPIToken); ("Accept", "application/json")] None 45 eq_refl) as E. cbv zeta in E.
  etransitivity; [apply f_equal; exact E |]. clear E.
  rewrite (service_serves "GET /api/v1/agent/desktops" (fun _ q => agentDesktops (wq_from q)) _ ["api"; "v1"; "agent"; "desktops"]
    (MkPattern "GET" [Literal "api"; Literal "v1"; Literal "agent"; Literal "desktops"]) []); [| by apply (nth_route 0) | done..].
  cbn [web_of wq_from tool_handler]. f_equal. f_equal. cbn [rw_query rw_source_ip]. by rewrite agent_of_query.
Qed.

Lemma lease_arrives agentID lease : clean_segment lease = true ->
  Handler (received source user_agent (call_of client "GET" (lease_target agentID lease "") None "" [] 45)) = tool_handler agentID "" (DesktopLeaseGet lease) /\
  Handler (received source user_agent (call_of client "DELETE" (lease_target agentID lease "") None "" [] 45)) = tool_handler agentID "" (DesktopRelease lease).
Proof.
  intros Hl. split.
  - etransitivity; [apply (lease_call_serves "GET /api/v1/agent/desktop-leases/{id}" (fun _ q => agentDesktopLease (wq_from q)) "GET" lease []
      (MkPattern "GET" (lease_pattern ++ [])) [("id", lease)] agentID [("Accept", "application/json")] None 45);
      [by apply (nth_route 3) | done.. | by apply match_lease] |]. by rewrite lease_from.
  - etransitivity; [apply (lease_call_serves "DELETE /api/v1/agent/desktop-leases/{id}" (fun _ q => releaseAgentDesktopLease (srv_has_computer srv) (wq_from q)) "DELETE" lease []
      (MkPattern "DELETE" (lease_pattern ++ [])) [("id", lease)] agentID [("Accept", "application/json")] None 45);
      [by apply (nth_route 4) | done.. | by apply match_lease] |]. by rewrite lease_from.
Qed.

Lemma power_arrives agentID random lease action : clean_segment lease = true -> clean_segment action = true ->
  Handler (received source user_agent
    (call_of client "POST" (lease_target agentID lease ("/actions/" +:+ PathEscape action)) None ("mcp-" +:+ OpaqueToken random) [] 45)) =
  tool_handler agentID random (DesktopPower lease action).
Proof.
  intros Hl Ha.
  etransitivity; [apply (lease_call_serves "POST /api/v1/agent/desktop-leases/{id}/actions/{action}"
      (fun _ q => changeAgentDesktopPower (wq_from q) (wq_job q) (path_value q "action")) "POST" lease ["actions"; PathEscape action]
      (MkPattern "POST" (lease_pattern ++ [Literal "actions"; Wildcard "action"])) [("id", lease); ("action", action)] agentID
      [("Accept", "application/json"); ("Idempotency-Key", "mcp-" +:+ OpaqueToken random)] None 45);
      [by apply (nth_route 5) | done | done | by cbn [forallb]; rewrite clean_escape | by cbn [forallb]; rewrite !PathEscape_no_char | apply match_lease] |].
  - cbn [match_segments]. change (segment_text "actions" == "actions") with true. cbn iota. by rewrite segment_escape.
  - rewrite lease_from by done. cbn [tool_handler]. f_equal.
Qed.

Lemma acquire_arrives agentID vmid ttl : ValidString agentID = true -> fits vmid = true -> fits ttl = true ->
  slen (json_print (JObj (lease_members agentID vmid ttl))) <= 2 ^ 20 ->
  Handler (received source user_agent (call_of client "POST" leases_path (Some (JObj (lease_members agentID vmid ttl))) "" [] 45)) =
  tool_handler agentID "" (DesktopAcquire vmid ttl).
Proof.
  intros Hv Hd Ht Hs. destruct (lease_read agentID vmid ttl Hv Hd Ht) as [Hk Hr].
  rewrite (service_serves "POST /api/v1/agent/desktop-leases" (fun _ q => createAgentDesktopLease (wq_from q) (lease_body q)) _
    ["api"; "v1"; "agent"; "desktop-leases"] (MkPattern "POST" [Literal "api"; Literal "v1"; Literal "agent"; Literal "desktop-leases"]) []);
    [| by apply (nth_route 2) | done..].
  cbn [tool_handler]. f_equal. f_equal. unfold lease_body.
  rewrite (decodeJSON_printed lease_fields read_lease _ _ (lease_members agentID vmid ttl)); [by rewrite Hr | done | by apply lease_writable | done | done].
Qed.

(** (C25) What an agent asks of a tool is what the control plane is asked: the
    request that the tool sends is routed to its handler and arrives there
    with the same agent, lease and action, for every call of valid texts and
    64-bit integers whose body fits the server's limit. *)
Theorem tool_call_reaches_handler agentID random call (Hid : agentID <> "") (Hv : ValidString agentID = true)
    (Hc : call_ok agentID call = true) :
  exists q k, tool parse_time client jpeg_size (Some random) (contextAgentIdentity (Some agentID)) call = ApiAsk q k /\
    Handler (received source user_agent q) = tool_handler agentID random call.
Proof.
  unfold contextAgentIdentity. rewrite bool_decide_false by done.
  destruct call as [| vmid ttl | lease | lease action | lease | lease e w t | lease e d n t | lease e m t | lease e k t | lease e x t];
    eexists _, _; (split; [reflexivity |]); cbn [call_ok tool_action] in Hc; rewrite ?andb_true_iff, ?Z.leb_le in Hc; destruct_and?.
  - apply list_arrives.
  - by apply acquire_arrives.
  - by apply lease_arrives.
  - by apply power_arrives.
  - by apply lease_arrives.
  - by apply action_arrives.
  - by apply action_arrives.
  - by apply action_arrives.
  - by apply action_arrives.
  - by apply action_arrives.
Qed.
End arrival.

(** * A tool acts for the agent of the request *)
Section acts.
Context `{Sha256} (parse_time : string -> option time) (c : Client) (jpeg_size : bytes -> option (Z * Z)).

Definition authenticate_call (accessToken : string) : api_call :=
  call_of c "POST" "/api/v1/agent/authenticate" None "" [("X-Vc-Workspace-Agent-Token", accessToken)] 45.

(** The one request that a tool makes for an agent. *)
Definition tool_request (agentID : string) (random : option bytes) (call : tool_call) : option api_call :=
  match tool parse_time c jpeg_size random (contextAgentIdentity (Some agentID)) call with ApiAsk q _ => Some q | ApiDone _ => None end.

Definition named_agent (answer : api_answer) (agent : Agent) : Prop :=
  read_answer store_agent zero_agent (2 ^ 20) answer = inr agent /\ ag_enabled agent = true.

(** What a request to /mcp led to. *)
Definition mcp_outcome (random : option bytes) (origin authorization : string) (call : tool_call) (r : mcp_reply) (tr : list (api_call * api_answer)) : Prop :=
  match r with
  | McpForbidden => origin <> "" /\ tr = []
  | McpUnauthorized => origin = "" /\
      match ParseBearerToken authorization with
      | None => tr = []
      | Some token => exists answer, tr = [(authenticate_call token, answer)] /\ forall agent, ~ named_agent answer agent
      end
  | McpServed result => origin = "" /\ exists token answer agent,
      ParseBearerToken authorization = Some token /\ named_agent answer agent /\
      match tool_request (ag_id agent) random call with
      | None => tr = [(authenticate_call token, answer)] /\ exists e, result = inl e
      | Some q => exists answer', tr = [(q, answer'); (authenticate_call token, answer)]
      end
  end.

(** Every tool makes one request at most. *)
Definition one_request {A} (p : api_prog A) : Prop :=
  match p with ApiDone r => exists e, r = inl e | ApiAsk _ k => forall a, exists r, k a = ApiDone r end.
Lemma one_request_do {A B} method path input (store : A -> json -> option A) zero key headers maximum timeout (f : A -> api_prog B) :
  (forall a, exists r, f a = ApiDone r) -> one_request (doWithResponseLimit c method path input store zero key headers maximum timeout ≫= f).
Proof. intros Hf a. cbn. destruct (read_answer store zero maximum a); [by eexists | apply Hf]. Qed.

Lemma tool_one_request random agentID call : one_request (tool parse_time c jpeg_size random (contextAgentIdentity (Some agentID)) call).
Proof.
  unfold tool, contextAgentIdentity. destruct (agentID == ""); [by eexists |].
  change (mret agentID ≫= ?f) with (f agentID). cbn beta.
  destruct call; try (apply one_request_do; intros a; by eexists).
  destruct random; [| by eexists]. apply one_request_do; intros a; by eexists.
Qed.

(** (C14) The MCP server acts only for the agent who asks, whatever the control
    plane answers and whatever tool is called: a browser origin or a missing
    bearer token is refused without a request; otherwise the control plane is
    asked first who the token belongs to, and unless it names an enabled agent
    that is all; then the tool makes its one request, in the name of exactly
    that agent, and no more. *)
Theorem mcp_acts_as_agent {S} (net : S -> api_call -> api_answer * S) s random origin authorization call r s' tr
    (Hrun : run_api net (serve_mcp parse_time c jpeg_size random origin authorization call) s [] = (r, s', tr)) :
  exists reply, r = inr reply /\ mcp_outcome random origin authorization call reply tr.
Proof.
  unfold serve_mcp, rejectBrowserOrigin, requireAgent in Hrun. destruct (decide (origin = "")) as [-> | Ho].
  2: { rewrite bool_decide_false in Hrun by done. injection Hrun as <- <- <-. by eexists. }
  rewrite bool_decide_true in Hrun by done. cbn [negb] in Hrun. destruct (ParseBearerToken authorization) as [token |] eqn:Ht.
  2: { injection Hrun as <- <- <-. eexists. split; [done |]. cbn. by rewrite Ht. }
  unfold AuthenticateAgent, doWithHeaders, doWithResponseLimit in Hrun. cbn [api_try mbind api_mbind api_bind run_api] in Hrun.
  destruct (net s _) as [answer s1] eqn:Hn.
  destruct (read_answer store_agent zero_agent (2 ^ 20) answer) as [e | agent] eqn:Ha; cbn [api_bind] in Hrun.
  { injection Hrun as <- <- <-. eexists. split; [done |]. cbn. rewrite Ht. split; [done |]. eexists. split; [done |]. intros agent [Hr _]. congruence. }
  destruct (ag_enabled agent) eqn:He.
  2: { injection Hrun as <- <- <-. eexists. split; [done |]. cbn. rewrite Ht. split; [done |]. eexists. split; [done |]. intros agent' [Hr Hen]. congruence. }
  pose proof (tool_one_request random (ag_id agent) call) as H1. pose proof (eq_refl (tool_request (ag_id agent) random call)) as Hq. unfold tool_request at 2 in Hq.
  destruct (tool _ _ _ _ _ _) as [res | q k]; cbn [one_request] in H1; cbn [api_try mbind api_mbind api_bind run_api] in Hrun.
  - destruct H1 as [e ->]. injection Hrun as <- <- <-. eexists. split; [done |]. cbn. split; [done |]. exists token, answer, agent. rewrite Hq.
    split_and!; [done.. | by eexists].
  - destruct (net s1 q) as [answer' s2] eqn:Hn'. destruct (H1 answer') as [res Hk]. rewrite Hk in Hrun. cbn [api_try api_bind run_api] in Hrun. injection Hrun as <- <- <-.
    eexists. split; [done |]. cbn. split; [done |]. exists token, answer, agent. rewrite Hq. split_and!; [done.. | by eexists].
Qed.
End acts.

(** * Observations are never stored *)

Definition cache_control (h : list (string * string)) : option string := first_of "Cache-Control" h.
Definition no_store : option string := Some "no-store, no-transform".
Definition commits (e : writer_step) : bool := match e with StepHeader _ | StepWrite | StepFlush => true | _ => false end.
(** No informational status ahead of the response, which would end the
    wrapper's part without committing anything. *)
Definition final_status (e : writer_step) : bool :=
  match e with StepHeader status => negb ((100 <=? status) && (status <=? 199) && (status != 101)) | _ => true end.
Definition spares_cache (e : writer_step) : bool :=
  match e with SetHeader name _ | DelHeader name => name != "Cache-Control" | _ => true end.

Definition private_ok (w : privateMCPResponseWriter) : Prop :=
  if pw_written w then exists status h, wr_sent (pw_writer w) = Some (status, h) /\ cache_control h = no_store
  else wr_sent (pw_writer w) = None.

Lemma private_header_ok status w : final_status (StepHeader status) = true -> private_ok w ->
  private_ok (private_WriteHeader status w) /\ pw_written (private_WriteHeader status w) = true.
Proof.
  intros Hs Hw. unfold private_WriteHeader. destruct (pw_written w) eqn:E; [done |]. unfold private_ok in Hw. rewrite E in Hw.
  split; [| done]. unfold private_ok, net_WriteHeader. cbn [pw_written pw_writer wr_sent wr_headers]. rewrite Hw.
  apply negb_true_iff in Hs. rewrite Hs. cbn [wr_sent]. eauto.
Qed.

Lemma private_sent_ok w : private_ok w -> pw_written w = true -> forall status, net_WriteHeader status (pw_writer w) = pw_writer w.
Proof. unfold private_ok. intros Hw Hp status. rewrite Hp in Hw. destruct Hw as (st & h & Hs & _). unfold net_WriteHeader. by rewrite Hs. Qed.

Lemma private_step_ok w e : final_status e = true -> private_ok w ->
  private_ok (private_step w e) /\ (commits e || pw_written w = true -> pw_written (private_step w e) = true).
Proof.
  intros Hf Hw. destruct e as [name value | name | status | |]; cbn [private_step commits orb].
  1-2: split; [| done]; revert Hw; unfold private_ok; cbn [pw_written pw_writer wr_sent]; by destruct (pw_written w).
  - destruct (private_header_ok status w Hf Hw) as [Ho Hp]. by split.
  - destruct (private_header_ok 200 w eq_refl Hw) as [Ho Hp]. unfold private_Write.
    set (w' := if pw_written w then w else private_WriteHeader 200 w). assert (private_ok w' /\ pw_written w' = true) as [Ho' Hp'].
    { unfold w'. destruct (pw_written w) eqn:E; by split. }
    cbv zeta. fold w'. unfold net_Write. rewrite private_sent_ok by done. split; [by destruct w' | done].
  - destruct (private_header_ok 200 w eq_refl Hw) as [Ho Hp]. unfold private_Flush.
    set (w' := if pw_written w then w else private_WriteHeader 200 w). assert (private_ok w' /\ pw_written w' = true) as [Ho' Hp'].
    { unfold w'. destruct (pw_written w) eqn:E; by split. }
    cbv zeta. fold w'. unfold net_Flush. rewrite private_sent_ok by done. split; [by destruct w' | done].
Qed.

Lemma private_run_ok steps : forallb final_status steps = true ->
  forall w, private_ok w -> private_ok (fold_left private_step steps w) /\
    (existsb commits steps || pw_written w = true -> pw_written (fold_left private_step steps w) = true).
Proof.
  induction steps as [| e steps IH]; [done |]. cbn [forallb existsb fold_left]. intros [He Hs]%andb_true_iff w Hw.
  destruct (private_step_ok w e He Hw) as [Ho Hp]. destruct (IH Hs _ Ho) as [Ho' Hp']. split; [done |]. intros Hc. apply Hp'.
  destruct (commits e || pw_written w) eqn:E; [rewrite (Hp eq_refl); by rewrite orb_true_r |].
  apply orb_false_iff in E as [E1 E2]. rewrite E1, E2, orb_false_r in Hc. cbn [orb] in Hc. by rewrite Hc.
Qed.

Lemma first_of_other name other l : other <> name -> first_of name (List.filter (fun e => fst e != other) l) = first_of name l.
Proof.
  intros Hne. unfold first_of. induction l as [| [k v] l IH]; [done |]. cbn [List.filter fst List.find].
  destruct (decide (k = other)) as [-> | Hk].
  - rewrite bool_decide_true by done. cbn [negb]. rewrite (bool_decide_false (other = name)) by done. apply IH.
  - rewrite (bool_decide_false (k = other)) by done. cbn [negb List.find fst]. by destruct (k == name).
Qed.

(** A handler that leaves the header alone and writes nothing. *)
Lemma private_quiet steps : forallb spares_cache steps = true -> existsb commits steps = false -> forall w, wr_sent (pw_writer w) = None ->
  let w' := fold_left private_step steps w in wr_sent (pw_writer w') = None /\ cache_control (wr_headers (pw_writer w')) = cache_control (wr_headers (pw_writer w)).
Proof.
  induction steps as [| e steps IH]; [done |]. cbn [forallb existsb fold_left]. intros [He Hs]%andb_true_iff [Hc Hcs]%orb_false_iff w Hw.
  destruct e as [name value | name | | |]; try discriminate Hc; cbn [spares_cache] in He; apply negb_true_iff, bool_decide_eq_false in He.
  - destruct (IH Hs Hcs (private_step w (SetHeader name value)) Hw) as [H1 H2]. split; [exact H1 |]. etransitivity; [exact H2 |].
    cbn [private_step pw_writer wr_headers]. unfold cache_control, set_header, first_of. cbn [List.find fst]. rewrite bool_decide_false by done.
    by apply (first_of_other "Cache-Control").
  - destruct (IH Hs Hcs (private_step w (DelHeader name)) Hw) as [H1 H2]. split; [exact H1 |]. etransitivity; [exact H2 |].
    by apply first_of_other.
Qed.

(** What the MCP server answers is never stored on the way: whatever
    headers the library sets before and in between, a response that the
    handler writes is committed with [no-store], and so is an empty one unless
    the library asked for something else. *)
Theorem mcp_never_stored steps (Hfinal : forallb final_status steps = true)
    (Hsome : existsb commits steps = true \/ forallb spares_cache steps = true) :
  exists status h, private_end (private_run steps) = Some (status, h) /\ cache_control h = no_store.
Proof.
  unfold private_end, private_run, net_Write.
  destruct (private_run_ok steps Hfinal private_start eq_refl) as [Ho Hp]. destruct (existsb commits steps) eqn:Hc.
  - rewrite private_sent_ok by (done || by apply Hp). specialize (Hp eq_refl). unfold private_ok in Ho. rewrite Hp in Ho.
    destruct Ho as (status & h & Hs & Hh). eauto.
  - destruct Hsome as [| Hsp]; [discriminate |]. destruct (private_quiet steps Hsp Hc private_start eq_refl) as [Hs Hh].
    unfold net_WriteHeader. rewrite Hs. cbn [wr_sent]. eauto.
Qed.

(** ** Runs *)
#[local] Existing Instance demo_sha.
#[local] Existing Instance demo_collation.
#[local] Existing Instance demo_lower.
#[local] Existing Instance demo_folding.
#[local] Existing Instance demo_sql.
#[local] Existing Instance demo_derivation.
#[local] Existing Instance demo_urls.
#[local] Existing Instance no_certificates.

Definition click : tool_call := DesktopMouse "lease_1" 7 (MkMouse "click" 120 0 "left" 0 (-3)) 2000.

Lemma tool_call_reaches_handler_witness :
  call_ok "agent-1" click = true /\
  exists q k, tool (fun _ => None) (MkClient "http://control-plane" "service") (fun _ => None) (Some "random") (contextAgentIdentity (Some "agent-1")) click = ApiAsk q k /\
    Handler demo_server "" "service" "groups" "" "" "" None (fun _ => "") (fun _ _ _ => "") (received "10.0.0.5" "Go-http-client/1.1" q) =
      tool_handler demo_server "10.0.0.5" "Go-http-client/1.1" "agent-1" "random" click.
Proof.
  split; [vm_compute; reflexivity |].
  apply (tool_call_reaches_handler demo_server "" "service" "groups" "" "" "" None (fun _ => "") (fun _ _ _ => "") (fun _ => None) (fun _ => None)
    "http://control-plane" "10.0.0.5" "Go-http-client/1.1"); [discriminate | vm_compute; reflexivity | discriminate | vm_compute; reflexivity | vm_compute; reflexivity].
Defined.

(** The control plane names the agent, then answers the action. *)
Definition agent_answer : api_answer := Answer 200 (json_print (JObj [("id", JStr "agent-1"); ("display_name", JStr "One"); ("enabled", JBool true)])) true.
Definition click_answer : api_answer :=
  Answer 200 (json_print (JObj [("schema_version", JNum "1"); ("request_id", JStr "action_1"); ("ok", JBool true)])) true.
Definition scripted_net (s : nat) (q : api_call) : api_answer * nat := (if ac_target q == "/api/v1/agent/authenticate" then agent_answer else click_answer, S s).
Definition click_run : (api_error + mcp_reply) * nat * list (api_call * api_answer) :=
  run_api scripted_net (serve_mcp (fun _ => None) (MkClient "http://control-plane" "service") (fun _ => None) None "" "Bearer secret" click) 0%nat [].

Lemma mcp_acts_as_agent_witness :
  length (snd click_run) = 2%nat /\
  exists reply, fst (fst click_run) = inr reply /\
    mcp_outcome (fun _ => None) (MkClient "http://control-plane" "service") (fun _ => None) None "" "Bearer secret" click reply (snd click_run).
Proof.
  split; [vm_compute; reflexivity |].
  apply (mcp_acts_as_agent (fun _ => None) (MkClient "http://control-plane" "service") (fun _ => None) scripted_net 0%nat None "" "Bearer secret" click _
    (snd (fst click_run))).
  exact (run_eta _).
Defined.

Lemma mcp_never_stored_witness :
  exists status h,
    private_end (private_run [SetHeader "Cache-Control" "no-cache, no-transform"; StepHeader 200; SetHeader "Cache-Control" "public"; StepWrite; StepFlush]) =
      Some (status, h) /\ cache_control h = no_store.
Proof. apply mcp_never_stored; [vm_compute; reflexivity | left; vm_compute; reflexivity]. Defined.
