(* ===== verification/Configuration.v ===== *)
(** * Configuration ([internal/config], [internal/gateway/runtime.go])

    What the processes read from their environment and from files before they
    start: the configuration of the control plane, of its listener for
    gateways, and of a gateway.  An unset variable reads as the empty text, as
    with [os.Getenv].  Files, certificates and URLs are those of [GatewayTls]
    and [GatewayTransport]; whether a host is a literal IPv6 address is a
    parameter, as is what [tls.Config] holds beyond chain and authorities. *)
From stdpp Require Import base strings list gmap.
From Stdlib Require Import ZArith Lia Ascii.
From S2P Require Import Prelude GoStrings Auth Net Db Demo GatewayRelay GatewayTls GatewayControlProofs GatewayTransport PveClient ImageBuilder.

Local Open Scope string_scope.
Local Open Scope list_scope.
Local Open Scope Z_scope.

Definition Environment := string -> string.

(** ** Addresses to listen on *)
Fixpoint last_colon (s : string) : option (string * string) :=
  match s with
  | EmptyString => None
  | String c s' =>
      match last_colon s' with
      | Some (host, port) => Some (String c host, port)
      | None => if c == ":"%char then Some ("", s') else None
      end
  end.

(** [net.SplitHostPort] *)
Definition SplitHostPort (s : string) : option (string * string) :=
  '(before, port) ← last_colon s;
  match cut_prefix "[" s with
  | Some inner =>
      let '(host, rest, found) := cut "]" inner in
      if negb found || negb (has_prefix ":" rest) || (rest != ":" +:+ port) then None
      else if str_exists (fun c => c == "["%char) inner || str_exists (fun c => c == "]"%char) rest then None
      else Some (host, port)
  | None =>
      if str_exists (fun c => c == ":"%char) before || str_exists (fun c => bool_decide (c ∈ ["["; "]"]%char)) s then None
      else Some (before, port)
  end.

Section configuration.
Context `{Sha256} `{X509} `{UrlParser} (getenv : Environment) (fs : FileSystem) (now : time) (ipv6_literal : string -> bool).

Definition listenAddress (address : string) : bool :=
  match SplitHostPort address with
  | None => false
  | Some (host, port) =>
      (host != "") && (match parse_ipv4 host with Some _ => true | None => ipv6_literal host end) &&
      match Atoi port with Some n => (0 <? n) && (n <=? 65535) | None => false end
  end.

(** ** The listener for gateways *)
Record ControlListenerConfig : Type := MkControlListener {
  cl_address : string;
  cl_tls : TlsConfig;
  cl_peers : PeerPins;
  cl_files : tlsFiles
}.

Definition control_keys : list string :=
  ["VC_WORKSPACE_GATEWAY_CONTROL_ADDR"; "VC_WORKSPACE_GATEWAY_CONTROL_TLS_CERT_FILE"; "VC_WORKSPACE_GATEWAY_CONTROL_TLS_KEY_FILE";
   "VC_WORKSPACE_GATEWAY_CONTROL_CLIENT_CA_FILE"; "VC_WORKSPACE_GATEWAY_CONTROL_PEERS_FILE"].

(** The outer option is the error, the inner one a listener that is not
    configured.  [serverConfig] loads the files once and then for every
    client ([GatewayTls.load]). *)
Definition LoadControlListenerConfig : option (option ControlListenerConfig) :=
  match List.map getenv control_keys with
  | [address; cert; key; ca; peers] as values =>
      let set := length (List.filter (fun v => v != "") values) in
      if (set =? 0)%nat then Some None
      else if negb (set =? 5)%nat || negb (listenAddress address) then None
      else
        let files := MkTlsFiles cert key ca peers in
        data ← ReadConfigFile fs peers;
        pins ← ParsePeerPins data;
        cfg ← load now fs files false;
        Some (Some (MkControlListener address (fst cfg) pins files))
  | _ => None
  end.

(** ** A gateway *)
Record RuntimeConfig : Type := MkRuntime {
  rt_address : string;
  rt_public_host : string;
  rt_tls : TlsConfig;
  rt_control_url : string;
  rt_control_tls : TlsConfig;
  rt_relay : RelayConfig;
  rt_control_files : tlsFiles
}.

Definition or_default (value fallback : string) : string := if value == "" then fallback else value.

Definition public_host (raw : string) : option string :=
  u ← url_parse raw;
  if (Scheme u != "https") || (Hostname u == "") || HasUser u || (RawQuery u != "") || ForceQuery u || (Fragment u != "") ||
     negb (root_path u) || (RawPath u != "") then None
  else Some (Host u).

Definition LoadRuntimeConfig : option RuntimeConfig :=
  let address := or_default (getenv "VC_WORKSPACE_GATEWAY_ADDR") "127.0.0.1:8443" in
  host ← public_host (getenv "VC_WORKSPACE_GATEWAY_PUBLIC_URL");
  if negb (listenAddress address) then None else
  connections ← (if getenv "VC_WORKSPACE_GATEWAY_MAX_CONNECTIONS" == "" then Some 128 else Atoi (getenv "VC_WORKSPACE_GATEWAY_MAX_CONNECTIONS"));
  allowed ← mapM (fun raw => ParsePrefix4 (TrimSpace raw)) (split "," (getenv "VC_WORKSPACE_GATEWAY_ALLOWED_TARGETS"));
  server ← load now fs (MkTlsFiles (getenv "VC_WORKSPACE_GATEWAY_TLS_CERT_FILE") (getenv "VC_WORKSPACE_GATEWAY_TLS_KEY_FILE") "" "") false;
  let files := MkTlsFiles (getenv "VC_WORKSPACE_GATEWAY_CLIENT_CERT_FILE") (getenv "VC_WORKSPACE_GATEWAY_CLIENT_KEY_FILE")
    (getenv "VC_WORKSPACE_GATEWAY_CONTROL_CA_FILE") "" in
  control ← load now fs files true;
  Some (MkRuntime address host (fst server) (getenv "VC_WORKSPACE_GATEWAY_CONTROL_URL") (fst control)
    (MkRelayConfig (getenv "VC_WORKSPACE_GATEWAY_ID") allowed connections) files).

(** ** The control plane *)
Record OidcConfig : Set := MkOidc {
  oc_name : string; oc_issuer : string; oc_client_id : string; oc_client_secret : string; oc_redirect_url : string; oc_groups_claim : string
}.
Record Config : Type := MkConfig {
  HTTPAddr : string;
  DatabaseURL : string;
  PublicURL : string;
  SetupToken : string;
  InternalAPIToken : string;
  NativeCallbackURL : string;
  OIDC : option OidcConfig;
  PVE : PveClient.Client;
  ImageBuilder : BuilderConfig;
  SSSDOIDCEnabled : bool;
  WindowsEntraEnabled : bool;
  GatewayControl : option ControlListenerConfig;
  NativeGateway : option BrokerRoute
}.

(** A variable by its name and by the name it had. *)
Definition env (primary legacy : string) : string := if getenv primary == "" then getenv legacy else getenv primary.
Definition envOr (primary legacy fallback : string) : string := or_default (env primary legacy) fallback.
(** The two names of most variables. *)
Definition setting (name : string) : string := env ("VC_WORKSPACE_" +:+ name) ("VC_VDI_" +:+ name).
Definition setting_or (name fallback : string) : string := or_default (setting name) fallback.

(** [username@realm / password] *)
Definition readCredentialFile (path : string) : option (string * string) :=
  contents ← fs path;
  match Fields contents with
  | [username; slash; password] => if slash == "/" then Some (username, password) else None
  | _ => None
  end.

(** The variables that name no file stay as they were. *)
Definition credential_from (path : string) (otherwise : string * string) : option (string * string) :=
  if path == "" then Some otherwise else readCredentialFile path.

Definition load_pve : option PveClient.Client :=
  credential ← credential_from (setting "PVE_CREDENTIAL_FILE") ("", "");
  Some (PveClient.MkClient (trim_slashes (setting "PVE_ENDPOINT")) (fst credential) (snd credential) (setting "PVE_TOKEN_ID")
    (setting "PVE_TOKEN_SECRET") (setting "PVE_MUTATIONS_ENABLED" == "true")).

(** The credentials of the builder: those of the control plane, a token of its
    own in their place, or a password of its own in the place of either. *)
Record BuilderLogin : Set := MkBuilderLogin { bl_username : string; bl_password : string; bl_token_id : string; bl_token_secret : string }.
Definition builder_login (pve : PveClient.Client) : option BuilderLogin :=
  let id := setting "IMAGE_BUILDER_PVE_TOKEN_ID" in
  let secret := setting "IMAGE_BUILDER_PVE_TOKEN_SECRET" in
  let own := if (id != "") || (secret != "") then MkBuilderLogin "" "" id secret
             else MkBuilderLogin (pc_username pve) (pc_password pve) (pc_token_id pve) (pc_token_secret pve) in
  let path := setting "IMAGE_BUILDER_PVE_CREDENTIAL_FILE" in
  if path == "" then Some own
  else credential ← readCredentialFile path; Some (MkBuilderLogin (fst credential) (snd credential) "" "").

Definition load_builder (pve : PveClient.Client) : option BuilderConfig :=
  login ← builder_login pve;
  Some (MkBuilderConfig (pc_mutations_enabled pve && (setting "IMAGE_BUILDER_ENABLED" != "false")) (setting_or "PACKER_PATH" "packer")
    (setting_or "IMAGE_ROOT" "deploy/images") (pc_endpoint pve) (bl_username login) (bl_password login) (bl_token_id login) (bl_token_secret login)
    (setting_or "LINUX_AGENT_BINARY" "dist/vc-workspace-guest-agent-linux-amd64") (getenv "VC_WORKSPACE_LINUX_PAM_MODULE")
    (getenv "VC_WORKSPACE_LINUX_NATIVE_PAM_MODULE") (envOr "VC_WORKSPACE_LINUX_XRDP_BUNDLE" "" "dist/debian-13-xrdp")
    (getenv "VC_WORKSPACE_IMAGE_HTTP_BIND_ADDRESS") (getenv "VC_WORKSPACE_IMAGE_HTTP_INTERFACE")
    (envOr "VC_WORKSPACE_IMAGE_HTTP_PORT_RANGE" "" "8840-8847")
    (setting_or "WINDOWS_AGENT_BINARY" "dist/vc-workspace-guest-agent-windows-amd64.exe")
    (setting_or "CLOUDBASE_INIT_MSI" "dist/CloudbaseInitSetup.msi")).

(** Nothing, or issuer, client and secret together. *)
Definition load_oidc (publicURL : string) : option (option OidcConfig) :=
  let issuer := trim_slashes (setting "OIDC_ISSUER") in
  let id := setting "OIDC_CLIENT_ID" in
  let secret := setting "OIDC_CLIENT_SECRET" in
  if (issuer == "") && (id == "") && (secret == "") then Some None
  else if (issuer == "") || (id == "") || (secret == "") then None
  else Some (Some (MkOidc (setting_or "OIDC_NAME" "Organization SSO") issuer id secret
    (setting_or "OIDC_REDIRECT_URL" (publicURL +:+ "/api/v1/auth/oidc/callback")) (setting_or "OIDC_GROUPS_CLAIM" "groups"))).

Definition Load : option Config :=
  let databaseURL := setting "DATABASE_URL" in
  let publicURL := setting_or "PUBLIC_URL" "http://127.0.0.1:5173" in
  pve ← load_pve;
  builder ← load_builder pve;
  oidc ← load_oidc publicURL;
  control ← LoadControlListenerConfig;
  if match control with Some _ => databaseURL == "" | None => false end then None else
  native ← LoadBrokerRoute (getenv "VC_WORKSPACE_NATIVE_GATEWAY_ID") (getenv "VC_WORKSPACE_NATIVE_GATEWAY_URL")
    (getenv "VC_WORKSPACE_NATIVE_GATEWAY_ALLOWED_TARGETS") (option_map cl_peers control);
  Some (MkConfig (setting_or "HTTP_ADDR" "127.0.0.1:8080") databaseURL publicURL (setting "SETUP_TOKEN") (setting "INTERNAL_API_TOKEN")
    (setting_or "NATIVE_CALLBACK_URL" "vc-workspace://auth/callback") oidc pve builder
    (setting "EXPERIMENTAL_SSSD_OIDC_ENABLED" == "true") (setting "EXPERIMENTAL_WINDOWS_ENTRA_RDP_ENABLED" == "true") control native).
End configuration.

(** * What a loaded configuration promises *)
Section loaded.
Context `{Sha256} `{X509} `{UrlParser} (getenv : Environment) (fs : FileSystem) (now : time) (ipv6_literal : string -> bool).
Notation Load := (Load getenv fs now ipv6_literal).

Lemma Load_parts cfg : Load = Some cfg ->
  load_pve getenv fs = Some (PVE cfg) /\ load_builder getenv fs (PVE cfg) = Some (ImageBuilder cfg) /\
  LoadControlListenerConfig getenv fs now ipv6_literal = Some (GatewayControl cfg) /\ (GatewayControl cfg <> None -> DatabaseURL cfg <> "") /\
  LoadBrokerRoute (getenv "VC_WORKSPACE_NATIVE_GATEWAY_ID") (getenv "VC_WORKSPACE_NATIVE_GATEWAY_URL")
    (getenv "VC_WORKSPACE_NATIVE_GATEWAY_ALLOWED_TARGETS") (option_map cl_peers (GatewayControl cfg)) = Some (NativeGateway cfg).
Proof.
  unfold Configuration.Load. destruct (load_pve getenv fs) as [pve |]; [| done]. cbn [mbind option_bind].
  destruct (load_builder getenv fs pve) as [b |] eqn:Eb; [| done]. cbn [mbind option_bind].
  destruct (load_oidc _ _) as [o |]; [| done]. cbn [mbind option_bind].
  destruct (LoadControlListenerConfig _ _ _ _) as [control |]; [| done]. cbn [mbind option_bind].
  destruct (match control with Some _ => _ | None => false end) eqn:Ed; [done |].
  destruct (LoadBrokerRoute _ _ _ (option_map cl_peers control)) as [native |] eqn:En; [| done]. cbn [mbind option_bind]. intros [= <-].
  cbn [PVE ImageBuilder GatewayControl DatabaseURL NativeGateway]. split_and!; try done.
  destruct control; [| done]. by apply bool_decide_eq_false in Ed.
Qed.

(** Desktops are reached through a gateway only when the control plane also
    listens for it, has a database to authorise it from and a certificate
    enrolled for its name; and then only at private addresses. *)
Theorem native_gateway_enrolled cfg r target (Hload : Load = Some cfg) (Hroute : NativeGateway cfg = Some r)
    (Hwf : Addr_wf target) (Hallows : Allows (NativeGateway cfg) target = true) :
  DatabaseURL cfg <> "" /\ IsPrivate target = true /\ validTargetPrefixes (br_allowed r) = true /\
  exists listener certificate, GatewayControl cfg = Some listener /\ cl_peers listener !! certificate = Some (br_id r).
Proof.
  apply Load_parts in Hload as (_ & _ & _ & Hdb & Hb). rewrite Hroute in Hb, Hallows.
  destruct (LoadBrokerRoute_private _ _ _ _ _ _ Hb Hwf Hallows) as (Hid & _ & (peers & key & Hc & Hk) & Hv & Hp).
  destruct (GatewayControl cfg) as [listener |]; [| discriminate Hc]. injection Hc as <-. rewrite <- Hid in Hk.
  split_and!; [by apply Hdb | done | done | by exists listener, key].
Qed.

(** The image builder works only where PVE may be changed, and never holds a
    password and a token at once if the PVE client accepts its own
    credentials. *)
Theorem builder_one_login cfg pve (Hload : Load = Some cfg) (Hpve : PveClient.New (PVE cfg) = Some pve) :
  (bc_enabled (ImageBuilder cfg) = true -> pc_mutations_enabled (PVE cfg) = true) /\
  ~ (bc_pve_username (ImageBuilder cfg) <> "" /\ bc_pve_password (ImageBuilder cfg) <> "" /\
     bc_pve_token_id (ImageBuilder cfg) <> "" /\ bc_pve_token_secret (ImageBuilder cfg) <> "").
Proof.
  apply Load_parts in Hload as (_ & Hb & _). unfold load_builder in Hb. destruct (builder_login getenv fs (PVE cfg)) as [login |] eqn:El; [| discriminate Hb].
  injection Hb as <-. cbn [bc_enabled bc_pve_username bc_pve_password bc_pve_token_id bc_pve_token_secret]. split; [by intros [? _]%andb_true_iff |].
  intros (Hu & Hp & Hi & Hs). unfold builder_login in El. destruct (_ == "") in El.
  2: { destruct (readCredentialFile fs _) as [c |]; [| discriminate El]. by injection El as <-. }
  destruct (_ || _) in El; injection El as <-; cbn in *; [done |].
  unfold PveClient.New in Hpve. destruct (url_parse _) as [u |]; [| discriminate Hpve]. cbn [mbind option_bind] in Hpve.
  rewrite (bool_decide_false (pc_username (PVE cfg) = "")), (bool_decide_false (pc_password (PVE cfg) = "")),
    (bool_decide_false (pc_token_id (PVE cfg) = "")), (bool_decide_false (pc_token_secret (PVE cfg) = "")) in Hpve by done.
  cbn [negb andb Bool.eqb] in Hpve. by rewrite orb_true_r in Hpve.
Qed.
End loaded.

(** ** A deployment *)
#[local] Existing Instance demo_sha.
#[local] Existing Instance demo_x509.
#[local] Instance deployed_urls : UrlParser := {|
  url_parse := fun s => Some (MkURL (fst (fst (cut ":" s))) "control.example" "control.example" "" false "" "" false "" "" "");
  url_string := fun u => Scheme u +:+ "://" +:+ Host u +:+ Path u |}.

Definition deployed_env : Environment := fun name =>
  default "" (option_map snd (List.find (fun e => fst e == name)
    [("VC_WORKSPACE_DATABASE_URL", "postgres://db"); ("VC_WORKSPACE_PVE_ENDPOINT", "https://pve.example:8006/");
     ("VC_VDI_PVE_TOKEN_ID", "svc@pve!ci"); ("VC_WORKSPACE_PVE_TOKEN_SECRET", "secret"); ("VC_WORKSPACE_PVE_MUTATIONS_ENABLED", "true");
     ("VC_WORKSPACE_IMAGE_BUILDER_PVE_CREDENTIAL_FILE", "login");
     ("VC_WORKSPACE_GATEWAY_CONTROL_ADDR", "10.0.0.1:9443"); ("VC_WORKSPACE_GATEWAY_CONTROL_TLS_CERT_FILE", "cert");
     ("VC_WORKSPACE_GATEWAY_CONTROL_TLS_KEY_FILE", "key"); ("VC_WORKSPACE_GATEWAY_CONTROL_CLIENT_CA_FILE", "ca");
     ("VC_WORKSPACE_GATEWAY_CONTROL_PEERS_FILE", "peers"); ("VC_WORKSPACE_NATIVE_GATEWAY_ID", "gw_gateway01");
     ("VC_WORKSPACE_NATIVE_GATEWAY_URL", "https://gateway.example"); ("VC_WORKSPACE_NATIVE_GATEWAY_ALLOWED_TARGETS", "10.1.0.0/16")])).
Definition deployed_files : FileSystem := fun path => if path == "login" then Some "builder@pve / hunter2" else demo_fs demo_bundle path.

Definition deployed : option Config := Load deployed_env deployed_files 2 (fun _ => false).
Definition desktop_address : Addr := V4 (10 * 2 ^ 24 + 2 ^ 16 + 5).

Lemma deployment_loads : match deployed with
  | Some cfg => Allows (NativeGateway cfg) desktop_address && bc_enabled (ImageBuilder cfg) &&
      match NativeGateway cfg, PveClient.New (PVE cfg) with Some _, Some _ => true | _, _ => false end
  | None => false
  end = true.
Proof. vm_compute. reflexivity. Qed.

Lemma native_gateway_enrolled_witness : exists cfg r, deployed = Some cfg /\ NativeGateway cfg = Some r /\
  DatabaseURL cfg <> "" /\ IsPrivate desktop_address = true /\ validTargetPrefixes (br_allowed r) = true /\
  exists listener certificate, GatewayControl cfg = Some listener /\ cl_peers listener !! certificate = Some (br_id r).
Proof.
  pose proof deployment_loads as Hd. destruct deployed as [cfg |] eqn:El; [| discriminate Hd]. unfold deployed in El. rewrite !andb_true_iff in Hd. destruct Hd as [[Ha _] Hr].
  destruct (NativeGateway cfg) as [r |] eqn:Er; [| discriminate Hr]. exists cfg, r. split; [reflexivity |]. split; [exact Er |]. clear Hr.
  apply (native_gateway_enrolled deployed_env deployed_files 2 (fun _ => false) cfg r desktop_address El Er); [vm_compute; split; congruence |].
  rewrite Er. exact Ha.
Defined.

Lemma builder_one_login_witness : exists cfg, deployed = Some cfg /\ pc_mutations_enabled (PVE cfg) = true.
Proof.
  pose proof deployment_loads as Hd. destruct deployed as [cfg |] eqn:El; [| discriminate Hd]. unfold deployed in El. rewrite !andb_true_iff in Hd. destruct Hd as [[_ Hb] Hr].
  exists cfg. split; [reflexivity |]. destruct (NativeGateway cfg); [| discriminate Hr]. destruct (PveClient.New (PVE cfg)) as [pve |] eqn:Ep; [| discriminate Hr].
  exact (proj1 (builder_one_login deployed_env deployed_files 2 (fun _ => false) cfg pve El Ep) Hb).
Defined.
